(* ===== verification/_CoqProject ===== *)
-Q . S2P
Prelude.v
GoLib.v
Json.v
JsonStruct.v
Messages.v
Premium.v
SwapData.v
Timelock.v
Policy.v
Env.v
Demo.v
Store.v
Actions.v
ActionProofs.v
Fsm.v
FsmProofs.v
Safety.v
Payments.v
Guards.v
Publishing.v
Acceptance.v
Requests.v
Service.v
ServiceProofs.v
MessageCodec.v
Scenarios.v
Witnesses.v
Oracle.v
Watcher.v
WatcherProofs.v
Electrum.v
ElectrumProofs.v
LndWatcher.v
LndProofs.v
WatchWitnesses.v
Version.v
PeerCapability.v
SnapshotCodec.v
PeerSync.v
PeerSyncProofs.v
SyncAdapters.v
SyncScenarios.v
OpeningScript.v
Fees.v
FeeProofs.v
BitcoinOnChain.v
BitcoinWallets.v
BitcoinProofs.v
LiquidOnChain.v
LiquidProofs.v
OnChainWitnesses.v
Lightning.v
ClnClient.v
LndClient.v
ClientProofs.v
Settlement.v
LndListeners.v
ElementsWallet.v
LwkConfig.v
ClnConfig.v
ConfigProofs.v
LndConfig.v
LwkWallet.v
Rpc.v
RpcServer.v
RpcProofs.v
Announce.v
RpcGuards.v
Pscli.v
ClnCommands.v
PluginMethods.v
ClnProofs.v
RpcWitnesses.v
ElementsClient.v
Recovery.v
Startup.v
PeerswapdStart.v
PluginStart.v
StartupProofs.v
StartupWitnesses.v
