(* ===== verification/Prelude.v ===== *)
(** * PeerSwap: a verification library for the swap daemon

    PeerSwap rebalances lightning channels by atomic swaps with the peer of the
    channel.  In a swap-out the initiator pays over lightning and receives on
    chain, in a swap-in the other way round.  The maker funds an opening
    transaction that pays to the taker against the preimage of a claim invoice,
    to both together at once (the coop close, for which the taker discloses its
    key), or back to the maker after a CSV delay; the taker pays the claim invoice
    and claims the output.  So there are four machines: swap-out sender (taker),
    swap-out receiver (maker), swap-in sender (maker), swap-in receiver (taker).

    The files stand in layers; within a layer each file requires the ones it calls.
    Definitions keep the names of the source where Rocq allows it.  A struct is a
    record, an enumeration or a set of message types an inductive type, a map a [gmap];
    each file's own comment says what its state and operations correspond to.

    ** Base

    - Prelude: record update, machine integers, Go errors, the monad [M S A] of
      state-passing computations that return, panic or run out of fuel
      ([outcome]), weakest preconditions [wp m Q R s] and their tactics.
    - GoLib, Json, JsonStruct: what the sources use of encoding/hex, strconv, strings,
      float64 and encoding/json.  [parse] and [print] of documents, and structs as lists
      of fields from which [Unmarshal] and [Marshal] are computed.
    - Oracle: programs over [IO S], whose questions to nodes, wallets and libraries are
      answered by an arbitrary function of the record so far ([Oracle]); [asked_when]
      states what holds of every question at the moment it is asked.  A part with
      questions of its own runs inside a larger program by [via] (class [Relay]).

    ** The swap protocol (src/swap, src/messages, src/premium, src/policy)

    - Messages, Premium, SwapData, Timelock, Policy: message types and the repeating
      senders; rates, their bbolt store and the premium; the seven peer messages with
      [Validate] and [ApplyToSwapData], [SwapData] and its getters; the time lock limits
      and the checks of the claim payment; questions and edits of the policy file.
    - Env: the world a swap runs in.  The interfaces of services.go are the type [Call]
      with typed [answer]s; the class [Env] holds a function [ask] from the history of
      calls to the next answer, so a theorem about all [Env] is about all behaviours of
      lightning node, wallets, watchers, database and random source.  [World] holds what
      the daemon keeps: the record of calls, stored swaps, requested swaps, policy,
      premium rates, repeating senders.  Demo is one concrete environment.
    - Store, Actions, Fsm, Service: store.go and requestedswaps.go; actions.go
      ([exec_X] is [Execute] of X, [Execute] dispatches on the inductive [Action]);
      fsm.go and the four state tables ([run_events] is the loop of [SendEvent]);
      service.go ([SwapOut] and [SwapIn] are [SwapOut_start] and [SwapIn_start]).
      The service runs [SendEvent] of a machine in its map, which runs [Execute] of the
      action of the state entered, which makes calls on the world and stores the machine.
    - MessageCodec: the messages as json; Recovery: what a restart recovers.
    - ActionProofs, FsmProofs: one specification of all actions ([Execute_spec]) and the
      induction rule of the event loop ([run_events_rule]); from them termination,
      persistence, immutability of what was agreed, harmlessness of rejected events,
      tables that handle every result of their actions and have no traps.
    - Safety: sets of states that no event leaves, over whole runs, recoveries included:
      a taker that disclosed its key never pays, a maker never abandons an announced
      transaction, final states are final.  Payments, Guards, Publishing, Acceptance:
      when an invoice is paid, an opening transaction created or a confirmation watched,
      for the data the machine has at that moment;
      at most one opening transaction per swap while the daemon runs; the invoice that
      is paid was accepted before the confirmation was awaited, and the output unlocks
      with its preimage.  Requests: the checks of an incoming request implement an
      ordered table of rules.  ServiceProofs: one active swap per channel; only the peer
      of a swap moves it.  Scenarios, Witnesses: evaluated runs, and an instance of each
      theorem with hypotheses.

    ** The chains (src/txwatcher, src/electrum, src/onchain, src/wallet, src/lwk, src/elements)

    - Watcher, Electrum, LndWatcher with WatcherProofs, ElectrumProofs, LndProofs: the
      three watchers and the client of electrum.  Goroutines interleave freely; whatever
      the node answers, a confirmation or a passed CSV is reported only for a registered
      watch and on the node's evidence.  Acceptance assumes just this of a watcher.
    - OpeningScript, BitcoinOnChain, LiquidOnChain, Fees, BitcoinWallets with FeeProofs,
      BitcoinProofs, LiquidProofs: the script of the opening output and who can spend it;
      validation of an opening transaction, spending transactions, fee estimation and
      the wallets.  An output that validates can be claimed with the preimage, refunded
      after the delay, and closed cooperatively.
    - ElementsWallet, LwkWallet, ElementsClient, with ElementsProofs: the two Liquid
      wallets and the wait for elementsd.
    - OnChainWitnesses, WatchWitnesses: concrete instances.

    ** The lightning nodes (src/clightning, src/lnd, src/lightning)

    - Lightning, ClnClient, LndClient, ClientProofs: payment over the channel of the swap,
      recovery of a payment, channels, invoices and messages of both clients; both
      implement [PayerLaws].  LndListeners: the subscriptions of lnd.
    - Settlement: over a run of a swap with either client, the HTLC a claim payment asks
      for and the refund of the maker, and the claim of the opening output, with the
      wallets of both chains, by the preimage the payment buys.

    ** Peers and versions (src/peersync, src/version)

    - PeerCapability, SnapshotCodec, PeerSync, SyncAdapters with PeerSyncProofs, Announce,
      SyncScenarios: capabilities and their json, the store, the message handler, the
      poller and the sweep, the two lightning adapters with their message bus; the store
      stays well typed, suspicious peers are ignored, and what a node announces is what
      its peer stores.
    - Version: comparison of versions and the guarded upgrade.

    ** Operation (src/peerswaprpc, src/clightning, src/cmd)

    - Rpc, RpcServer, ClnCommands, PluginMethods, Pscli: the server of peerswapd, the
      commands of the plugin with their registration and dispatch, the command line.
      The server and the commands run over the same service, policy, rates and sync.
      RpcProofs, RpcGuards, ClnProofs, RpcWitnesses: what the listings show, what a
      request may start, and how a premium rate reaches the peers.
    - LwkConfig, ClnConfig, LndConfig, ConfigProofs: the configurations.
    - Startup, PeerswapdStart, PluginStart, StartupProofs, StartupWitnesses: both main
      functions, over the models of the components they connect, with the requests that
      arrive meanwhile.  peerswapd recovers its swaps before anything reaches them and
      connects what its loaded configuration asks for; the plugin takes commands before
      the upgrade and the recovery, and keeps them when these fail.

    ** Conventions, bounds and fuel

    - uint64, int64, uint32, uint8 are [Z] with [u64], [i64], [u32] at every operation
      that can leave the range; float64 is [spec_float] of the Standard Library, or an
      integer with its rounding (GoLib.float64).  A nil pointer is [None]; [deref]
      panics on it.  A byte slice or array is a [string].
    - [run_events] has fuel [loop_fuel] = 64.  A chain of transitions without an
      outside event has at most 16 steps in every table, and retries add at most
      20; [SendEvent_terminates] shows that the fuel is never used up.  [parse] has the
      length of the document as fuel ([value_fuel]).  The retries of the wallet kit and
      of electrum are bounded in the code.  The waits of ElementsClient have no bound in
      the code; their fuel is the number of rounds.
    - A loop over a ticker or a stream runs over as many rounds or items as the
      environment says ([PaymentTicks], finite lists of what a stream yields).
    - A method of the service runs to its end before the next one starts, and the
      goroutines of [RecoverSwaps] run one after the other.  Theorems about
      [machine_run], [uptime_run] and [confirmed_run] let the rest of the world change
      arbitrarily between the steps of a machine.  Watchers, listeners, the message bus
      and the capability sync are transition systems in which goroutines interleave.
    - A pointer that two components share is one place: the server gives the sync a view
      of the policy and the rates of its own world.

    ** What is not modelled

    - Code that protoc generates (peerswaprpc.pb.go and its companions).
    - Transport: the dial of lnd with its certificate, macaroon and retry policy
      (src/lnd/connect.go, connection.go, chain.go), and the http client of the wallet
      kit (src/lwk/api.go, option.go).  A failed or repeated exchange is an answer.
    - Libraries: btcd, go-elements, glightning, the ini, toml, flag and url parsers,
      bbolt, hashes and signatures are parameters with documented laws, or questions.
    - Loggers, timers (src/log, src/timer), wall-clock durations and the jitter of the
      backoff, the deferred closing of files and streams (but for the peer sync of a
      start), the switches of src/isdev, and
      the test code (src/test, src/testframework). *)

From stdpp Require Export base gmap list strings fin_maps sets.
From Stdlib Require Export ZArith Lia Ascii.

#[export] Set Default Goal Selector "!".
#[export] Set Warnings "-postfix-notation-not-level-1,-clear-no-such-hyp".
Open Scope Z_scope.

Declare Scope go_scope.
Delimit Scope go_scope with go.
Open Scope go_scope.

(** ** Record update

    [r <| f := v |>] replaces the field read by projection [f].  A record type
    becomes updatable by declaring its eta-expansion as an [Eta] instance; the
    setter of a projection is then found by [solve_setter]. *)

Class Eta (R : Type) := eta_of : R → R.
Class Setter {R T : Type} (proj : R → T) := upd : (T → T) → R → R.
Arguments upd {R T} proj {_} _ _ /.

Ltac solve_setter :=
  lazymatch goal with
  | |- Setter (R := ?R) ?proj =>
      let e := constr:(_ : Eta R) in
      let e := eval hnf in e in
      exact (λ f r,
        ltac:(let body := eval cbv beta in (e r) in
              lazymatch eval pattern (proj r) in body with
              | ?F _ => let t := eval cbv beta in (F (f (proj r))) in exact t
              end))
  end.
#[export] Hint Extern 1 (Setter _) => solve_setter : typeclass_instances.

Notation "r <| proj := v |>" := (upd proj (λ _, v) r)
  (at level 12, left associativity, format "r <| proj  :=  v |>") : go_scope.

(** ** Machine integers

    Go integers are [Z] values; every arithmetic operation of the source that
    can leave the range of its type is followed by the wrap of that type. *)

Definition u8 (z : Z) : Z := z mod 2 ^ 8.
Definition u32 (z : Z) : Z := z mod 2 ^ 32.
Definition u64 (z : Z) : Z := z mod 2 ^ 64.
Definition i64 (z : Z) : Z := (z + 2 ^ 63) mod 2 ^ 64 - 2 ^ 63.

Definition is_u8 (z : Z) : Prop := 0 ≤ z < 2 ^ 8.
Definition is_u32 (z : Z) : Prop := 0 ≤ z < 2 ^ 32.
Definition is_u64 (z : Z) : Prop := 0 ≤ z < 2 ^ 64.
Definition is_i64 (z : Z) : Prop := - 2 ^ 63 ≤ z < 2 ^ 63.

Lemma u32_range z : is_u32 (u32 z).
Proof. unfold is_u32, u32. apply Z.mod_pos_bound. lia. Qed.
Lemma u64_range z : is_u64 (u64 z).
Proof. unfold is_u64, u64. apply Z.mod_pos_bound. lia. Qed.
Lemma i64_range z : is_i64 (i64 z).
Proof.
  unfold is_i64, i64.
  pose proof (Z.mod_pos_bound (z + 2 ^ 63) (2 ^ 64) ltac:(lia)). lia.
Qed.
Lemma u32_small z : is_u32 z → u32 z = z.
Proof. apply Z.mod_small. Qed.
Lemma u64_small z : is_u64 z → u64 z = z.
Proof. apply Z.mod_small. Qed.
Lemma i64_small z : is_i64 z → i64 z = z.
Proof. unfold is_i64, i64. intros. rewrite Z.mod_small; lia. Qed.
Lemma i64_u64 z : i64 (u64 z) = i64 z.
Proof.
  unfold i64, u64. f_equal.
  rewrite Zplus_mod_idemp_l. reflexivity.
Qed.
Lemma u64_i64 z : u64 (i64 z) = u64 z.
Proof.
  unfold i64, u64.
  rewrite Zminus_mod_idemp_l. f_equal. lia.
Qed.

(** ** Errors

    A Go [error] value.  Package-level error variables are compared by identity
    in the source and are identified here by their qualified name; typed errors
    carry the name of their type; [fmt.Errorf] with [%w] keeps the error it
    wraps, so that [errors.Is] can walk the chain. *)

Inductive error :=
  | ErrText (msg : string)
  | ErrSentinel (name msg : string)
  | ErrTyped (type msg : string)
  | ErrWrap (msg : string) (inner : error).

#[export] Instance error_eq_dec : EqDecision error.
Proof. solve_decision. Defined.

(** [err.Error()]. *)
Definition Error (e : error) : string :=
  match e with
  | ErrText m | ErrSentinel _ m | ErrTyped _ m | ErrWrap m _ => m
  end.

(** [errors.Is(err, target)] for a comparable target. *)
Fixpoint errors_Is (e target : error) : bool :=
  bool_decide (e = target) ||
  match e with ErrWrap _ inner => errors_Is inner target | _ => false end.

(** The pair [(v, err)] of a Go call, of which the callers use [v] only when
    [err] is nil. *)
Inductive result (A : Type) :=
  | Ok (a : A)
  | Err (e : error).
Arguments Ok {A} _.
Arguments Err {A} _.

#[export] Instance result_eq_dec {A} `{EqDecision A} : EqDecision (result A).
Proof. solve_decision. Defined.

Definition is_ok {A} (r : result A) : bool :=
  match r with Ok _ => true | Err _ => false end.

(** ** Effects

    Stateful code runs in [M S]: it threads a state [S] and either returns,
    panics (a nil dereference or a slice out of range of the Go runtime) or, for
    the loops that are defined by recursion on fuel, runs out of fuel.  The
    state reached is kept in every case. *)

Inductive outcome (S A : Type) :=
  | Ret (s : S) (a : A)
  | Panic (s : S)
  | NoFuel (s : S).
Arguments Ret {S A} _ _.
Arguments Panic {S A} _.
Arguments NoFuel {S A} _.

Definition M (S A : Type) : Type := S → outcome S A.

#[export] Instance M_ret {S} : MRet (M S) := λ A a s, Ret s a.
#[export] Instance M_bind {S} : MBind (M S) := λ A B k m s,
  match m s with
  | Ret s' a => k a s'
  | Panic s' => Panic s'
  | NoFuel s' => NoFuel s'
  end.

Definition get {S} : M S S := λ s, Ret s s.
Definition gets {S A} (f : S → A) : M S A := λ s, Ret s (f s).
Definition modify {S} (f : S → S) : M S () := λ s, Ret (f s) ().
Definition panic {S A} : M S A := λ s, Panic s.
Definition nofuel {S A} : M S A := λ s, NoFuel s.

(** Dereference of a pointer: [None] is nil. *)
Definition deref {S A} (o : option A) : M S A :=
  match o with Some a => mret a | None => panic end.

(** [v, err := m; if err != nil { h }; k]. *)
Notation "'let?' x := m 'else' e => h 'in' k" :=
  (mbind (λ r, match r with Ok x => k | Err e => h end) m)
  (at level 10, x name, e name, m at level 100, h at level 100, k at level 200,
   format "'[v' 'let?'  x  :=  m  'else'  e  =>  h  'in' '/' k ']'") : go_scope.

(** [err := m; if err != nil { h }; k]. *)
Notation "'do?' m 'else' e => h 'in' k" :=
  (mbind (λ r, match r with None => k | Some e => h end) m)
  (at level 10, e name, m at level 100, h at level 100, k at level 200,
   format "'[v' 'do?'  m  'else'  e  =>  h  'in' '/' k ']'") : go_scope.

(** ** Weakest preconditions

    [wp m Q R s]: run from [s], [m] returns a value and a state in [Q], or stops
    without a value, for a reason and in a state of [R].  [R := no_stop] makes it
    a total statement, [R := any_stop] a partial one, and [R := only_panic] says
    that the fuel is enough. *)

Inductive stop := Panicked | OutOfFuel.

Definition wp {S A} (m : M S A) (Q : A → S → Prop) (R : stop → S → Prop) (s : S) : Prop :=
  match m s with
  | Ret s' a => Q a s'
  | Panic s' => R Panicked s'
  | NoFuel s' => R OutOfFuel s'
  end.

Definition no_stop {S} (_ : stop) (_ : S) : Prop := False.
Definition any_stop {S} (_ : stop) (_ : S) : Prop := True.
Definition only_panic {S} (k : stop) (_ : S) : Prop := k = Panicked.

Section wp_rules.
Context {S : Type}.
Implicit Types R : stop → S → Prop.

Lemma wp_ret {A} (a : A) Q R (s : S) : Q a s → wp (mret a) Q R s.
Proof. done. Qed.
Lemma wp_bind {A B} (m : M S A) (k : A → M S B) Q R s :
  wp m (λ a, wp (k a) Q R) R s → wp (m ≫= k) Q R s.
Proof. unfold wp, mbind, M_bind. by destruct (m s). Qed.
Lemma wp_bind_inv {A B} (m : M S A) (k : A → M S B) Q R s :
  wp (m ≫= k) Q R s → wp m (λ a, wp (k a) Q R) R s.
Proof. unfold wp, mbind, M_bind. by destruct (m s). Qed.
Lemma wp_get Q R (s : S) : Q s s → wp get Q R s.
Proof. done. Qed.
Lemma wp_gets {A} (f : S → A) Q R (s : S) : Q (f s) s → wp (gets f) Q R s.
Proof. done. Qed.
Lemma wp_modify (f : S → S) Q R (s : S) : Q () (f s) → wp (modify f) Q R s.
Proof. done. Qed.
Lemma wp_panic {A} (Q : A → S → Prop) R s : R Panicked s → wp panic Q R s.
Proof. done. Qed.
Lemma wp_deref {A} (o : option A) Q R s :
  (∀ a, o = Some a → Q a s) → (o = None → R Panicked s) → wp (deref o) Q R s.
Proof. destruct o; unfold wp; cbn; auto. Qed.
Lemma wp_mono {A} (m : M S A) (Q Q' : A → S → Prop) R R' s :
  wp m Q R s → (∀ a s', Q a s' → Q' a s') → (∀ k s', R k s' → R' k s') → wp m Q' R' s.
Proof. unfold wp. intros H HQ HR. destruct (m s); eauto. Qed.
Lemma wp_conj {A} (m : M S A) (Q Q' : A → S → Prop) R R' s :
  wp m Q R s → wp m Q' R' s →
  wp m (λ a s', Q a s' ∧ Q' a s') (λ k s', R k s' ∧ R' k s') s.
Proof. unfold wp. intros H H'. destruct (m s); eauto. Qed.
(** From a run that returned to the postcondition. *)
Lemma wp_elim {A} (m : M S A) Q R s s' a : wp m Q R s → m s = Ret s' a → Q a s'.
Proof. unfold wp. intros H E. by rewrite E in H. Qed.
(** A run that cannot stop returns. *)
Lemma wp_total {A} (m : M S A) Q s : wp m Q no_stop s → ∃ s' a, m s = Ret s' a ∧ Q a s'.
Proof. unfold wp. destruct (m s); [eauto|by intros []..]. Qed.
End wp_rules.

Create HintDb go discriminated.
#[export] Hint Resolve wp_ret wp_get wp_gets wp_modify wp_panic : go.

(** ** Tactics *)

(** Split every [match] whose scrutinee is not itself a [match]. *)
Ltac case_step :=
  match goal with
  | |- context [match ?x with _ => _ end] =>
      lazymatch x with
      | context [match _ with _ => _ end] => fail
      | _ => destruct x eqn:?
      end
  end.

(** Decide a closed decidable proposition by evaluation. *)
Ltac by_eval := by apply (bool_decide_unpack _); vm_compute.

(** One step of a [wp] goal along the structure of the program. *)
Ltac wp_step :=
  lazymatch goal with
  | |- wp (mbind _ _) _ _ _ => apply wp_bind
  | |- wp (mret _) _ _ _ => apply wp_ret
  | |- wp get _ _ _ => apply wp_get
  | |- wp (gets _) _ _ _ => apply wp_gets
  | |- wp (modify _) _ _ _ => apply wp_modify
  | |- wp panic _ _ _ => apply wp_panic
  | |- wp (deref _) _ _ _ => apply wp_deref; [intros ? ?|intros ?]
  | |- wp (match ?x with _ => _ end) _ _ _ => destruct x eqn:?
  end.
