(* ===== verification/GoLib.v ===== *)
(** * The parts of the Go standard library the daemon uses

    Strings and byte slices are both [string] (a Go string is a sequence of
    bytes).  Modelled here: [encoding/hex], the integer conversions of
    [strconv] and of [fmt]'s [%d], single-byte [strings.Contains], [Split] and
    [ReplaceAll], and the rounding of [float64] on non-negative integers. *)

From stdpp Require Import pretty.
From S2P Require Import Prelude.

(** ** Concatenation *)

Lemma append_length (s t : string) :
  String.length (s +:+ t) = (String.length s + String.length t)%nat.
Proof.
  induction s as [|c s IH]; [done|].
  change (S (String.length (s +:+ t)) = S (String.length s + String.length t)). lia.
Qed.

Lemma append_assoc (s1 s2 s3 : string) : (s1 +:+ s2) +:+ s3 = s1 +:+ s2 +:+ s3.
Proof.
  induction s1 as [|c s1 IH]; [done|].
  change (String c ((s1 +:+ s2) +:+ s3) = String c (s1 +:+ s2 +:+ s3)). by rewrite IH.
Qed.

Lemma append_inj_suffix (s1 s2 t1 t2 : string) :
  String.length t1 = String.length t2 → s1 +:+ t1 = s2 +:+ t2 → s1 = s2 ∧ t1 = t2.
Proof.
  intros Ht. revert s2. induction s1 as [|c s1 IH]; intros [|c' s2] H.
  - done.
  - exfalso. apply (f_equal String.length) in H. rewrite !append_length in H.
    cbn [String.length] in H. lia.
  - exfalso. apply (f_equal String.length) in H. rewrite !append_length in H.
    cbn [String.length] in H. lia.
  - change (String c (s1 +:+ t1) = String c' (s2 +:+ t2)) in H.
    injection H as -> H. destruct (IH s2 H) as [-> ->]. done.
Qed.

(** ** encoding/hex *)
Module hex.
Definition digit (n : nat) : ascii :=
  match n with
  | 0 => "0" | 1 => "1" | 2 => "2" | 3 => "3" | 4 => "4" | 5 => "5"
  | 6 => "6" | 7 => "7" | 8 => "8" | 9 => "9" | 10 => "a" | 11 => "b"
  | 12 => "c" | 13 => "d" | 14 => "e" | _ => "f"
  end%nat%char.

(** Value of a hex digit, of either case, by the ranges of the characters. *)
Definition in_range (lo hi n : nat) : bool := (lo <=? n)%nat && (n <=? hi)%nat.
Definition fromHexChar (c : ascii) : option nat :=
  let n := Ascii.nat_of_ascii c in
  if in_range 48 57 n then Some (n - 48)%nat
  else if in_range 97 102 n then Some (n - 87)%nat
  else if in_range 65 70 n then Some (n - 55)%nat
  else None.

Fixpoint EncodeToString (src : string) : string :=
  match src with
  | EmptyString => ""
  | String c rest =>
      let n := Ascii.nat_of_ascii c in
      String (digit (n / 16)) (String (digit (n mod 16)) (EncodeToString rest))
  end.

Definition ErrLength : error :=
  ErrSentinel "hex.ErrLength" "encoding/hex: odd length hex string".
Definition InvalidByteError : error :=
  ErrTyped "hex.InvalidByteError" "encoding/hex: invalid byte".

(** [DecodeString] returns the bytes decoded before the error, and the error. *)
Fixpoint DecodeString (s : string) : string * option error :=
  match s with
  | EmptyString => ("", None)
  | String a EmptyString =>
      ("", Some (if fromHexChar a is Some _ then ErrLength else InvalidByteError))
  | String a (String b rest) =>
      match fromHexChar a, fromHexChar b with
      | Some x, Some y =>
          let '(bs, err) := DecodeString rest in
          (String (Ascii.ascii_of_nat (16 * x + y)) bs, err)
      | _, _ => ("", Some InvalidByteError)
      end
  end.

Lemma decode_encode s : DecodeString (EncodeToString s) = (s, None).
Proof.
  induction s as [|c s IH]; [done|].
  cbn [EncodeToString DecodeString]. rewrite IH.
  by destruct c as [[] [] [] [] [] [] [] []].
Qed.

Lemma encode_length s : String.length (EncodeToString s) = (2 * String.length s)%nat.
Proof. induction s as [|c s IH]; cbn; lia. Qed.

Lemma encode_inj s1 s2 : EncodeToString s1 = EncodeToString s2 → s1 = s2.
Proof.
  intros H%(f_equal DecodeString). rewrite !decode_encode in H. congruence.
Qed.

(** Strong induction two characters at a time. *)
Lemma string_pair_ind (P : string → Prop) :
  P "" → (∀ a, P (String a "")) →
  (∀ a b s, P s → P (String a (String b s))) → ∀ s, P s.
Proof.
  intros H0 H1 H2 s. enough (P s ∧ ∀ a, P (String a s)) by tauto.
  induction s as [|b s [IH IH']]; split; auto.
Qed.

Lemma decode_length s b :
  DecodeString s = (b, None) → String.length s = (2 * String.length b)%nat.
Proof.
  revert b. induction s as [|a|a c s IH] using string_pair_ind; intros bs; cbn.
  - intros [= <-]. done.
  - destruct (fromHexChar a); discriminate.
  - destruct (fromHexChar a), (fromHexChar c); try discriminate.
    destruct (DecodeString s) as [bs' e] eqn:E. intros [= <- ->].
    cbn. rewrite (IH bs') by done. lia.
Qed.
End hex.

(** ** strconv *)
Module strconv.
Definition ErrSyntax : error := ErrSentinel "strconv.ErrSyntax" "invalid syntax".
Definition ErrRange : error := ErrSentinel "strconv.ErrRange" "value out of range".

(** Unsigned digits in [base]; the accumulator is an unbounded integer, the
    range check of the caller makes the result the same as the source's
    early cut-off. *)
Fixpoint digits (base acc : Z) (s : string) : option Z :=
  match s with
  | EmptyString => Some acc
  | String c rest =>
      match hex.fromHexChar c with
      | Some d => if bool_decide (Z.of_nat d < base)
                  then digits base (acc * base + Z.of_nat d) rest else None
      | None => None
      end
  end.

(** [ParseInt(s, base, 64)] for [base] 10 or 16: an optional sign, at least
    one digit, and the range of int64. *)
Definition split_sign (s : string) : bool * string :=
  match s with
  | String "-" rest => (true, rest)
  | String "+" rest => (false, rest)
  | _ => (false, s)
  end.
Definition ParseInt (base : Z) (s : string) : result Z :=
  let '(neg, body) := split_sign s in
  match body with
  | EmptyString => Err ErrSyntax
  | _ =>
      match digits base 0 body with
      | None => Err ErrSyntax
      | Some n =>
          let v := if neg : bool then - n else n in
          if bool_decide (- 2 ^ 63 ≤ v < 2 ^ 63) then Ok v else Err ErrRange
      end
  end.

Definition Atoi (s : string) : result Z := ParseInt 10 s.

(** [Itoa] and [%d]. *)
Definition Itoa (z : Z) : string := pretty z.

(** [FormatInt(z, 16)] of a non-negative number, on fuel. *)
Fixpoint hexdigits (fuel : nat) (n : Z) (acc : string) : string :=
  match fuel with
  | O => acc
  | S fuel =>
      let acc := String (hex.digit (Z.to_nat (n mod 16))) acc in
      if n / 16 =? 0 then acc else hexdigits fuel (n / 16) acc
  end.
Definition FormatInt16 (z : Z) : string :=
  if z <? 0 then String "-" (hexdigits 16 (- z) "") else hexdigits 16 z "".

Lemma ParseInt_range base s v : ParseInt base s = Ok v → is_i64 v.
Proof.
  unfold ParseInt. destruct (split_sign s) as [neg body].
  destruct body; [done|]. destruct (digits _ _ _); [|done].
  case_bool_decide; [|done]. intros [= <-]. done.
Qed.

(** Reading back what [Itoa] printed. *)
Lemma digit_value x :
  (x < 10)%N → hex.fromHexChar (pretty_N_char x) = Some (N.to_nat x).
Proof.
  intros Hx. assert (x ∈ N.of_nat <$> seq 0 10) as Hin.
  { apply list_elem_of_fmap. exists (N.to_nat x). rewrite elem_of_seq. lia. }
  clear Hx. revert x Hin. apply Forall_forall. by_eval.
Qed.

Lemma digits_pretty_go x s :
  digits 10 0 (pretty_N_go x s) = digits 10 (Z.of_N x) s.
Proof.
  revert s. induction (N.lt_wf_0 x) as [x _ IH]; intros s.
  destruct (decide (x = 0)%N) as [->|Hx]; [by rewrite pretty_N_go_0|].
  rewrite pretty_N_go_step by lia. rewrite IH by (apply N.div_lt; lia).
  cbn [digits]. rewrite digit_value by (by apply N.mod_lt).
  pose proof (N.mod_lt x 10 ltac:(done)). rewrite bool_decide_true by lia.
  f_equal. pose proof (N.div_mod x 10 ltac:(done)). lia.
Qed.

Lemma split_sign_pretty_go x s :
  (0 < x)%N → split_sign (pretty_N_go x s) = (false, pretty_N_go x s)
              ∧ pretty_N_go x s ≠ "".
Proof.
  revert s. induction (N.lt_wf_0 x) as [x _ IH]; intros s Hx.
  rewrite pretty_N_go_step by done.
  destruct (decide (x / 10 = 0)%N) as [->|?].
  - rewrite pretty_N_go_0. unfold pretty_N_char. split; [|done].
    by repeat case_match.
  - apply IH; [by apply N.div_lt|].
    by apply N.neq_0_lt_0.
Qed.

Lemma Atoi_Itoa z : is_i64 z → Atoi (Itoa z) = Ok z.
Proof.
  intros Hz. unfold is_i64 in Hz. unfold Atoi, ParseInt, Itoa.
  destruct z as [|p|p]; [done|..].
  all: change (pretty (Z.pos p)) with (pretty_N_go (N.pos p) "")
    || change (pretty (Z.neg p)) with (String "-" (pretty_N_go (N.pos p) "")).
  all: destruct (split_sign_pretty_go (N.pos p) "") as [Hs Hne]; [done|].
  all: try rewrite Hs; cbn [split_sign].
  all: pose proof (digits_pretty_go (N.pos p) "") as Hd; cbn [digits] in Hd.
  all: destruct (pretty_N_go (N.pos p) ""); [done|]; rewrite Hd.
  all: cbn; by rewrite bool_decide_true.
Qed.
End strconv.

(** ** strings, for single-byte separators *)
Module strings.
Fixpoint Contains (s : string) (c : ascii) : bool :=
  match s with
  | EmptyString => false
  | String a rest => bool_decide (a = c) || Contains rest c
  end.

Fixpoint ReplaceAll (s : string) (old new : ascii) : string :=
  match s with
  | EmptyString => ""
  | String a rest =>
      String (if bool_decide (a = old) then new else a) (ReplaceAll rest old new)
  end.

(** [Split(s, sep)]: the parts between the separators, never empty. *)
Fixpoint Split (s : string) (sep : ascii) : list string :=
  match s with
  | EmptyString => [""]
  | String a rest =>
      if bool_decide (a = sep) then "" :: Split rest sep
      else match Split rest sep with
           | p :: ps => String a p :: ps
           | [] => [String a ""]
           end
  end.

Fixpoint count (s : string) (c : ascii) : nat :=
  match s with
  | EmptyString => 0
  | String a rest => (if bool_decide (a = c) then 1 else 0) + count rest c
  end%nat.

Lemma Split_length s c : length (Split s c) = S (count s c).
Proof.
  induction s as [|a s IH]; [done|]. cbn.
  case_bool_decide; cbn; [lia|]. destruct (Split s c); cbn in *; lia.
Qed.

Lemma Split_app a b c : Split (a +:+ String c b) c = Split a c ++ Split b c.
Proof.
  induction a as [|x a IH].
  - change (Split (String c b) c = "" :: Split b c). cbn.
    by rewrite bool_decide_true.
  - change (Split (String x (a +:+ String c b)) c = Split (String x a) c ++ Split b c).
    cbn. case_bool_decide; rewrite IH; [done|].
    by destruct (Split a c) eqn:E; [apply (f_equal length) in E; rewrite Split_length in E|].
Qed.

Lemma Split_none s c : Contains s c = false → Split s c = [s].
Proof.
  induction s as [|x s IH]; [done|]. cbn. intros [H1 H2]%orb_false_iff.
  rewrite H1, IH by done. done.
Qed.

Lemma Contains_app a b c : Contains (a +:+ b) c = Contains a c || Contains b c.
Proof.
  induction a as [|x a IH]; [done|].
  change (bool_decide (x = c) || Contains (a +:+ b) c =
          (bool_decide (x = c) || Contains a c) || Contains b c).
  by rewrite IH, orb_assoc.
Qed.

Lemma ReplaceAll_length s a b : String.length (ReplaceAll s a b) = String.length s.
Proof. induction s; cbn; auto. Qed.

Lemma ReplaceAll_gone s a b : a ≠ b → Contains (ReplaceAll s a b) a = false.
Proof.
  intros Hab. induction s as [|c s IH]; [done|]. cbn.
  rewrite IH. repeat case_bool_decide; subst; try done.
Qed.

Lemma ReplaceAll_id s a b : Contains s a = false → ReplaceAll s a b = s.
Proof.
  induction s as [|c s IH]; [done|]. cbn.
  intros [H1 H2]%orb_false_iff. rewrite IH by done. by rewrite H1.
Qed.
End strings.

(** ** float64 on non-negative integers

    [rnd53 n] is [float64(n)] for an integer [n >= 0]: exact below 2^53, and
    above it rounded to a multiple of the unit in the last place, ties to even.
    A product of such floats is an integer too, so the same rounding gives
    float64 multiplication. *)
Module float64.
Definition rnd53 (n : Z) : Z :=
  let e := Z.log2 n - 52 in
  if e <=? 0 then n
  else
    let ulp := 2 ^ e in
    let q := n / ulp in
    let r := n mod ulp in
    let up := (ulp / 2 <? r) || ((r =? ulp / 2) && Z.odd q) in
    (if up then q + 1 else q) * ulp.

Definition mul (a b : Z) : Z := rnd53 (a * b).

(** [uint64(f)]; a value out of range gives the result of the amd64
    conversion. *)
Definition to_uint64 (f : Z) : Z := if f <? 2 ^ 64 then f else 2 ^ 63.

Lemma rnd53_exact n : 0 ≤ n < 2 ^ 53 → rnd53 n = n.
Proof.
  intros H. unfold rnd53.
  assert (Z.log2 n < 53) as Hlog.
  { destruct (decide (n = 0)) as [->|]; [done|]. apply Z.log2_lt_pow2; lia. }
  destruct (Z.leb_spec (Z.log2 n - 52) 0); lia.
Qed.
End float64.

(** [strings.HasPrefix], and [strings.Contains] of a substring. *)
Fixpoint has_prefix (p s : string) : bool :=
  match p, s with
  | EmptyString, _ => true
  | String a p, String b s => bool_decide (a = b) && has_prefix p s
  | _, EmptyString => false
  end.
Fixpoint contains (s sub : string) : bool :=
  has_prefix sub s || match s with String _ s => contains s sub | EmptyString => false end.
