(* ===== verification/Json.v ===== *)
(** * encoding/json

    The part of the json package that the messages go through: strings with their
    escapes and UTF-8, the grammar of documents, and printing.  [Unmarshal] checks
    the whole document before it stores anything, so parsing ([parse]) is separate
    from storing (MessageCodec).  [parse] has the length of the document as fuel;
    [value_fuel] shows that more changes nothing. *)

From stdpp Require Import pretty.
From S2P Require Import Prelude GoLib.

(** ** unicode/utf8 *)
Module utf8.
Definition byte_in (lo hi : nat) (c : ascii) : bool :=
  (lo <=? nat_of_ascii c)%nat && (nat_of_ascii c <=? hi)%nat.
Definition ascii_byte (c : ascii) : bool := byte_in 0 127 c.
Definition continuation (c : ascii) : bool := byte_in 128 191 c.
(** The valid runes of two, three and four bytes. *)
Definition rune2 (a b : ascii) : bool := byte_in 194 223 a && continuation b.
Definition rune3 (a b c : ascii) : bool :=
  (byte_in 224 224 a && byte_in 160 191 b ||
   (byte_in 225 236 a || byte_in 238 239 a) && continuation b ||
   byte_in 237 237 a && byte_in 128 159 b) && continuation c.
Definition rune4 (a b c d : ascii) : bool :=
  (byte_in 240 240 a && byte_in 144 191 b || byte_in 241 243 a && continuation b ||
   byte_in 244 244 a && byte_in 128 143 b) && continuation c && continuation d.

#[global] Arguments byte_in : simpl never.
#[global] Arguments ascii_byte : simpl never.
#[global] Arguments rune2 : simpl never.
#[global] Arguments rune3 : simpl never.
#[global] Arguments rune4 : simpl never.

Definition bytes (l : list Z) : string :=
  foldr (λ z s, String (ascii_of_nat (Z.to_nat z)) s) "" l.
Definition RuneError : string := bytes [239; 191; 189].
Definition EncodeRune (r : Z) : string :=
  if r <? 128 then bytes [r]
  else if r <? 2048 then bytes [192 + r / 64; 128 + r mod 64]
  else if (55296 <=? r) && (r <? 57344) || (1114111 <? r) then RuneError
  else if r <? 65536 then bytes [224 + r / 4096; 128 + r / 64 mod 64; 128 + r mod 64]
  else bytes [240 + r / 262144; 128 + r / 4096 mod 64; 128 + r / 64 mod 64; 128 + r mod 64].

Fixpoint ValidString (s : string) : bool :=
  match s with
  | "" => true
  | String a s1 =>
      if ascii_byte a then ValidString s1
      else match s1 with
      | "" => false
      | String b s2 =>
          if rune2 a b then ValidString s2
          else match s2 with
          | "" => false
          | String c s3 =>
              if rune3 a b c then ValidString s3
              else match s3 with
              | "" => false
              | String d s4 => rune4 a b c d && ValidString s4
              end
          end
      end
  end.
End utf8.
Import utf8.

(** ** Strings *)
Definition quote : ascii := "034".
Definition backslash : ascii := "092".
Definition u00 (c : ascii) : string := "\u00" +:+ hex.EncodeToString (String c "").
(** [appendString] with [escapeHTML]. *)
Definition escape_byte (c : ascii) : string :=
  let n := nat_of_ascii c in
  if bool_decide (c = quote ∨ c = backslash) then String backslash (String c "")
  else if (n =? 8)%nat then "\b" else if (n =? 12)%nat then "\f" else if (n =? 10)%nat then "\n"
  else if (n =? 13)%nat then "\r" else if (n =? 9)%nat then "\t"
  else if (n <? 32)%nat || bool_decide (c = "<"%char ∨ c = ">"%char ∨ c = "&"%char) then u00 c
  else String c "".
Fixpoint escape (s : string) : string :=
  match s with
  | "" => ""
  | String a s1 =>
      if ascii_byte a then escape_byte a +:+ escape s1
      else
        let invalid := "\ufffd" +:+ escape s1 in
        match s1 with
        | "" => invalid
        | String b s2 =>
            if rune2 a b then String a (String b (escape s2))
            else match s2 with
            | "" => invalid
            | String c s3 =>
                if rune3 a b c then
                  (if bool_decide (String a (String b (String c "")) = bytes [226; 128; 168]) then "\u2028"
                   else if bool_decide (String a (String b (String c "")) = bytes [226; 128; 169]) then "\u2029"
                   else String a (String b (String c ""))) +:+ escape s3
                else match s3 with
                | "" => invalid
                | String d s4 =>
                    if rune4 a b c d then String a (String b (String c (String d (escape s4)))) else invalid
                end
            end
        end
  end.
Definition quoted (s : string) : string := String quote (escape s +:+ String quote "").

(** [getu4] of the four digits. *)
Definition getu4 (a b c d : ascii) : option Z :=
  match hex.fromHexChar a, hex.fromHexChar b, hex.fromHexChar c, hex.fromHexChar d with
  | Some w, Some x, Some y, Some z => Some (4096 * Z.of_nat w + 256 * Z.of_nat x + 16 * Z.of_nat y + Z.of_nat z)
  | _, _, _, _ => None
  end.
Definition IsSurrogate (r : Z) : bool := (55296 <=? r) && (r <? 57344).
(** [utf16.DecodeRune], if it is a pair. *)
Definition surrogate_pair (r1 r2 : Z) : option Z :=
  if (55296 <=? r1) && (r1 <? 56320) && (56320 <=? r2) && (r2 <? 57344)
  then Some ((r1 - 55296) * 1024 + (r2 - 56320) + 65536) else None.
Definition simple_escape (c : ascii) : option string :=
  if bool_decide (c = quote ∨ c = backslash ∨ c = "/"%char) then Some (String c "")
  else if bool_decide (c = "b"%char) then Some (bytes [8]) else if bool_decide (c = "f"%char) then Some (bytes [12])
  else if bool_decide (c = "n"%char) then Some (bytes [10]) else if bool_decide (c = "r"%char) then Some (bytes [13])
  else if bool_decide (c = "t"%char) then Some (bytes [9]) else None.

Definition prepend (p : string) (r : option (string * string)) : option (string * string) :=
  match r with Some (s, rest) => Some (p +:+ s, rest) | None => None end.
(** A string up to its closing quote, unquoted, and the rest of the document. *)
Fixpoint string_body (s : string) : option (string * string) :=
  match s with
  | "" => None
  | String a s1 =>
      if bool_decide (a = quote) then Some ("", s1)
      else if bool_decide (a = backslash) then
        match s1 with
        | "" => None
        | String e s2 =>
            if bool_decide (e = "u"%char) then
              match s2 with
              | String d1 (String d2 (String d3 (String d4 s3))) =>
                  match getu4 d1 d2 d3 d4 with
                  | None => None
                  | Some rr =>
                      if IsSurrogate rr then
                        match s3 with
                        | String b (String u (String e1 (String e2 (String e3 (String e4 s4))))) =>
                            match (if bool_decide (b = backslash ∧ u = "u"%char) then getu4 e1 e2 e3 e4 else None)
                                    ≫= surrogate_pair rr with
                            | Some r => prepend (EncodeRune r) (string_body s4)
                            | None => prepend RuneError (string_body s3)
                            end
                        | _ => prepend RuneError (string_body s3)
                        end
                      else prepend (EncodeRune rr) (string_body s3)
                  end
              | _ => None
              end
            else match simple_escape e with
                 | Some p => prepend p (string_body s2)
                 | None => None
                 end
        end
      else if byte_in 0 31 a then None
      else if ascii_byte a then prepend (String a "") (string_body s1)
      else
        match s1 with
        | "" => None
        | String b s2 =>
            if rune2 a b then prepend (String a (String b "")) (string_body s2)
            else match s2 with
            | "" => prepend RuneError (string_body s1)
            | String c s3 =>
                if rune3 a b c then prepend (String a (String b (String c ""))) (string_body s3)
                else match s3 with
                | "" => prepend RuneError (string_body s1)
                | String d s4 =>
                    if rune4 a b c d
                    then prepend (String a (String b (String c (String d "")))) (string_body s4)
                    else prepend RuneError (string_body s1)
                end
            end
        end
  end.

(** *** Reading back what was printed *)
Lemma valid_ind (P : string → Prop) :
  P "" →
  (∀ a s, ascii_byte a = true → P s → P (String a s)) →
  (∀ a b s, rune2 a b = true → P s → P (String a (String b s))) →
  (∀ a b c s, rune3 a b c = true → P s → P (String a (String b (String c s)))) →
  (∀ a b c d s, rune4 a b c d = true → P s → P (String a (String b (String c (String d s))))) →
  ∀ s, ValidString s = true → P s.
Proof.
  intros H0 H1 H2 H3 H4 s. remember (String.length s) as n eqn:En.
  revert s En. induction (lt_wf n) as [n _ IH]. intros s -> Hs.
  assert (∀ s', (String.length s' < String.length s)%nat → ValidString s' = true → P s') as IH'
    by eauto. clear IH.
  destruct s as [|a s1]; [done|]. cbn in Hs, IH'.
  destruct (ascii_byte a) eqn:?; [apply H1; [done|apply IH'; [lia|done]]|].
  destruct s1 as [|b s2]; [done|]. cbn in IH'.
  destruct (rune2 a b) eqn:?; [apply H2; [done|apply IH'; [lia|done]]|].
  destruct s2 as [|c s3]; [done|]. cbn in IH'.
  destruct (rune3 a b c) eqn:?; [apply H3; [done|apply IH'; [lia|done]]|].
  destruct s3 as [|d s4]; [done|]. cbn in IH'.
  apply andb_prop in Hs as [? ?]. apply H4; [done|apply IH'; [lia|done]].
Qed.

(** A lead byte is none of the bytes the scanner looks for, and tells the lengths apart. *)
Lemma lead_other a : (194 ≤ nat_of_ascii a)%nat →
  bool_decide (a = quote) = false ∧ bool_decide (a = backslash) = false ∧
  byte_in 0 31 a = false ∧ ascii_byte a = false.
Proof.
  intros H. unfold ascii_byte, byte_in.
  split_and!; [apply bool_decide_eq_false; intros ->; by apply Nat.leb_le in H..| |].
  all: apply andb_false_iff; right; apply Nat.leb_gt; lia.
Qed.
Ltac lead :=
  unfold rune2, rune3, rune4, byte_in in *;
  repeat first [rewrite andb_true_iff in * | rewrite orb_true_iff in * | rewrite Nat.leb_le in *]; lia.
Lemma rune2_lead a b : rune2 a b = true → (194 ≤ nat_of_ascii a)%nat.
Proof. intros. lead. Qed.
Lemma rune3_lead a b c : rune3 a b c = true → (224 ≤ nat_of_ascii a ≤ 239)%nat.
Proof. intros. lead. Qed.
Lemma rune4_lead a b c d : rune4 a b c d = true → (240 ≤ nat_of_ascii a)%nat.
Proof. intros. lead. Qed.
Lemma not_rune2 a b : (224 ≤ nat_of_ascii a)%nat → rune2 a b = false.
Proof. intros H. apply not_true_is_false. intros ?. lead. Qed.
Lemma not_rune3 a b c : (240 ≤ nat_of_ascii a)%nat → rune3 a b c = false.
Proof. intros H. apply not_true_is_false. intros ?%rune3_lead. lia. Qed.

Lemma string_body_ascii a r : ascii_byte a = true →
  string_body (escape_byte a +:+ r) = prepend (String a "") (string_body r).
Proof.
  intros H. destruct a as [[] [] [] [] [] [] [] []]; try discriminate H; clear H; reflexivity.
Qed.

Lemma string_body_rune2 a b r : rune2 a b = true →
  string_body (String a (String b r)) = prepend (String a (String b "")) (string_body r).
Proof.
  intros H. destruct (lead_other a) as (E1 & E2 & E3 & E4); [by eapply rune2_lead|].
  cbn [string_body]. by rewrite E1, E2, E3, E4, H.
Qed.
Lemma string_body_rune3 a b c r : rune3 a b c = true →
  string_body (String a (String b (String c r))) =
  prepend (String a (String b (String c ""))) (string_body r).
Proof.
  intros H. pose proof (rune3_lead _ _ _ H). destruct (lead_other a) as (E1 & E2 & E3 & E4); [lia|].
  cbn [string_body]. by rewrite E1, E2, E3, E4, not_rune2, H by lia.
Qed.
Lemma string_body_rune4 a b c d r : rune4 a b c d = true →
  string_body (String a (String b (String c (String d r)))) =
  prepend (String a (String b (String c (String d "")))) (string_body r).
Proof.
  intros H. pose proof (rune4_lead _ _ _ _ H). destruct (lead_other a) as (E1 & E2 & E3 & E4); [lia|].
  cbn [string_body]. by rewrite E1, E2, E3, E4, not_rune2, not_rune3, H by lia.
Qed.

Lemma string_body_escape s rest : ValidString s = true →
  string_body (escape s +:+ String quote rest) = Some (s, rest).
Proof.
  revert s. apply valid_ind; [done|intros a s H IH|intros a b s H IH|intros a b c s H IH|intros a b c d s H IH].
  - cbn [escape]. rewrite H, append_assoc, string_body_ascii by done. by rewrite IH.
  - destruct (lead_other a) as (_ & _ & _ & E); [by eapply rune2_lead|].
    cbn [escape]. rewrite E, H. change (string_body (String a (String b (escape s +:+ String quote rest))) = Some (String a (String b s), rest)).
    by rewrite string_body_rune2, IH.
  - pose proof (rune3_lead _ _ _ H). destruct (lead_other a) as (_ & _ & _ & E); [lia|].
    cbn [escape]. rewrite E, not_rune2, H by lia. rewrite append_assoc.
    change (String a (String b (String c s))) with (String a (String b (String c "")) +:+ s).
    case_bool_decide as H1; [rewrite H1|case_bool_decide as H2; [rewrite H2|]].
    1: change (prepend (bytes [226; 128; 168]) (string_body (escape s +:+ String quote rest)) =
               Some (bytes [226; 128; 168] +:+ s, rest)); by rewrite IH.
    1: change (prepend (bytes [226; 128; 169]) (string_body (escape s +:+ String quote rest)) =
               Some (bytes [226; 128; 169] +:+ s, rest)); by rewrite IH.
    change (String a (String b (String c "")) +:+ escape s +:+ String quote rest)
      with (String a (String b (String c (escape s +:+ String quote rest)))).
    by rewrite string_body_rune3, IH.
  - pose proof (rune4_lead _ _ _ _ H). destruct (lead_other a) as (_ & _ & _ & E); [lia|].
    cbn [escape]. rewrite E, not_rune2, not_rune3, H by lia.
    change (String a (String b (String c (String d (escape s)))) +:+ String quote rest)
      with (String a (String b (String c (String d (escape s +:+ String quote rest))))).
    by rewrite string_body_rune4, IH.
Qed.

(** ** Numbers: the states of the scanner inside a literal *)
Inductive NumState := Neg | Zero | Int | Dot | Dot0 | Exp | ExpSign | Exp0.
Definition digit_byte (c : ascii) : bool := byte_in 48 57 c.
Definition num_start (c : ascii) : option NumState :=
  if bool_decide (c = "-"%char) then Some Neg else if bool_decide (c = "0"%char) then Some Zero
  else if digit_byte c then Some Int else None.
Definition num_step (st : NumState) (c : ascii) : option NumState :=
  let dot := bool_decide (c = "."%char) in
  let exp := bool_decide (c = "e"%char ∨ c = "E"%char) in
  match st with
  | Neg => if bool_decide (c = "0"%char) then Some Zero else if digit_byte c then Some Int else None
  | Zero => if dot then Some Dot else if exp then Some Exp else None
  | Int => if digit_byte c then Some Int else if dot then Some Dot else if exp then Some Exp else None
  | Dot => if digit_byte c then Some Dot0 else None
  | Dot0 => if digit_byte c then Some Dot0 else if exp then Some Exp else None
  | Exp => if bool_decide (c = "+"%char ∨ c = "-"%char) then Some ExpSign
           else if digit_byte c then Some Exp0 else None
  | ExpSign | Exp0 => if digit_byte c then Some Exp0 else None
  end.
Definition num_end (st : NumState) : bool :=
  match st with Zero | Int | Dot0 | Exp0 => true | _ => false end.
Fixpoint num_rest (st : NumState) (s : string) : option (string * string) :=
  match s with
  | "" => if num_end st then Some ("", "") else None
  | String c s1 =>
      match num_step st c with
      | Some st' => prepend (String c "") (num_rest st' s1)
      | None => if num_end st then Some ("", s) else None
      end
  end.
Definition number (s : string) : option (string * string) :=
  match s with
  | "" => None
  | String c s1 => st ← num_start c; prepend (String c "") (num_rest st s1)
  end.

(** ** Documents *)
#[local] Set Warnings "-register-all".
Inductive json :=
  | JNull | JBool (b : bool) | JNum (lit : string) | JStr (s : string)
  | JArr (l : list json) | JObj (l : list (string * json)).

Definition space (c : ascii) : bool :=
  bool_decide (c = " "%char ∨ c = "009"%char ∨ c = "010"%char ∨ c = "013"%char).
Fixpoint skip_ws (s : string) : string :=
  match s with
  | String c s1 => if space c then skip_ws s1 else s
  | "" => ""
  end.
(** [p] and what follows it. *)
Fixpoint after (p s : string) : option string :=
  match p, s with
  | "", _ => Some s
  | String a p', String b s' => if bool_decide (a = b) then after p' s' else None
  | _, _ => None
  end.
Definition maxNestingDepth : Z := 10000.

(** The elements after the opening bracket and the members after the opening brace,
    of which there is at least one. *)
Section items.
Context (value : string → option (json * string)).
Fixpoint elements (n : nat) (s : string) : option (list json * string) :=
  match n with
  | O => None
  | S n =>
      '(v, s1) ← value s;
      match skip_ws s1 with
      | String c s2 =>
          if bool_decide (c = ","%char) then '(vs, s3) ← elements n s2; Some (v :: vs, s3)
          else if bool_decide (c = "]"%char) then Some ([v], s2) else None
      | "" => None
      end
  end.
Definition member (s : string) : option (string * json * string) :=
  match skip_ws s with
  | String q s1 =>
      if bool_decide (q = quote) then
        '(k, s2) ← string_body s1;
        s3 ← after ":" (skip_ws s2);
        '(v, s4) ← value s3;
        Some (k, v, s4)
      else None
  | "" => None
  end.
Fixpoint members (n : nat) (s : string) : option (list (string * json) * string) :=
  match n with
  | O => None
  | S n =>
      '(k, v, s1) ← member s;
      match skip_ws s1 with
      | String c s2 =>
          if bool_decide (c = ","%char) then '(kvs, s3) ← members n s2; Some ((k, v) :: kvs, s3)
          else if bool_decide (c = "}"%char) then Some ([(k, v)], s2) else None
      | "" => None
      end
  end.
End items.

Definition keyword (s : string) : option (json * string) :=
  match after "null" s, after "true" s, after "false" s with
  | Some r, _, _ => Some (JNull, r)
  | _, Some r, _ => Some (JBool true, r)
  | _, _, Some r => Some (JBool false, r)
  | _, _, _ => None
  end.
(** A value at the nesting [depth], and the rest of the document. *)
Fixpoint value (fuel : nat) (depth : Z) (s : string) : option (json * string) :=
  match fuel with
  | O => None
  | S fuel =>
      let s := skip_ws s in
      match s with
      | "" => None
      | String c s1 =>
          if bool_decide (c = quote) then '(str, s2) ← string_body s1; Some (JStr str, s2)
          else if bool_decide (c = "["%char) then
            if maxNestingDepth <=? depth then None
            else match after "]" (skip_ws s1) with
                 | Some s2 => Some (JArr [], s2)
                 | None => '(l, s2) ← elements (value fuel (depth + 1)) fuel s1; Some (JArr l, s2)
                 end
          else if bool_decide (c = "{"%char) then
            if maxNestingDepth <=? depth then None
            else match after "}" (skip_ws s1) with
                 | Some s2 => Some (JObj [], s2)
                 | None => '(l, s2) ← members (value fuel (depth + 1)) fuel s1; Some (JObj l, s2)
                 end
          else if num_start c is Some _ then '(lit, s2) ← number s; Some (JNum lit, s2)
          else keyword s
      end
  end.
Definition parse (s : string) : option json :=
  '(v, rest) ← value (S (String.length s)) 0 s;
  if bool_decide (skip_ws rest = "") then Some v else None.

Fixpoint commas (l : list string) : string :=
  match l with [] => "" | [x] => x | x :: l' => x +:+ String "," (commas l') end.
Fixpoint print (j : json) : string :=
  match j with
  | JNull => "null"
  | JBool b => if b then "true" else "false"
  | JNum lit => lit
  | JStr s => quoted s
  | JArr l => String "[" (commas (print <$> l) +:+ "]")
  | JObj l => String "{" (commas ((λ '(k, v), quoted k +:+ String ":" (print v)) <$> l) +:+ "}")
  end.


Definition doc (s : string) : string := strings.ReplaceAll s "'" quote.
Example parse_ex1 : parse (doc " { 'a' : [ 1, -2.5e+3 , 'x\u0041\n' ], 'b':null,'a':true }") =
  Some (JObj [("a", JArr [JNum "1"; JNum "-2.5e+3"; JStr ("xA" +:+ bytes [10])]);
              ("b", JNull); ("a", JBool true)]).
Proof. vm_compute. reflexivity. Qed.
Example parse_ex2 : parse <$> [doc "{'a':1,}"; "01"; "[1 2]"; "1."; "nul"; "1 1"; ""; doc "'a"; doc "{'a' 1}"] =
  replicate 9 None.
Proof. vm_compute. reflexivity. Qed.

(** ** Printing, then parsing *)
Section json_ind.
Context (P : json → Prop) (Hnull : P JNull) (Hbool : ∀ b, P (JBool b)) (Hnum : ∀ l, P (JNum l))
  (Hstr : ∀ s, P (JStr s)) (Harr : ∀ l, Forall P l → P (JArr l))
  (Hobj : ∀ l, Forall (λ kv, P (snd kv)) l → P (JObj l)).
Fixpoint json_nested_ind (j : json) : P j :=
  match j with
  | JNull => Hnull
  | JBool b => Hbool b
  | JNum l => Hnum l
  | JStr s => Hstr s
  | JArr l => Harr l ((fix go (l : list json) : Forall P l := match l with
                                   | [] => Forall_nil_2 P
                                   | x :: l => Forall_cons_2 P x l (json_nested_ind x) (go l)
                                   end) l)
  | JObj l => Hobj l ((fix go (l : list (string * json)) : Forall (λ kv, P (snd kv)) l := match l with
                                   | [] => Forall_nil_2 _
                                   | kv :: l => Forall_cons_2 _ kv l (json_nested_ind (snd kv)) (go l)
                                   end) l)
  end.
End json_ind.

(** Numbers are literals, strings are UTF-8: what the encoder is given. *)
Fixpoint printable (j : json) : bool :=
  match j with
  | JNull | JBool _ => true
  | JNum lit => bool_decide (number lit = Some (lit, ""))
  | JStr s => ValidString s
  | JArr l => forallb printable l
  | JObj l => forallb (λ kv, ValidString (fst kv) && printable (snd kv)) l
  end.
Fixpoint height (j : json) : nat :=
  match j with
  | JArr l => S (foldr (λ x, max (height x)) 0 l)
  | JObj l => S (foldr (λ kv, max (height (snd kv))) 0 l)
  | _ => 0
  end%nat.

(** What may follow a value in a document. *)
Definition ends (rest : string) : bool :=
  match rest with
  | "" => true
  | String c _ => bool_decide (c = ","%char ∨ c = "]"%char ∨ c = "}"%char)
  end.

Lemma num_rest_app st l rest :
  num_rest st l = Some (l, "") → ends rest = true → num_rest st (l +:+ rest) = Some (l, rest).
Proof.
  intros H Hends. revert st H. induction l as [|c l IH]; intros st H.
  - cbn in H. destruct (num_end st) eqn:Ee; [|done]. change (num_rest st rest = Some ("", rest)).
    destruct rest as [|c rest]; cbn; rewrite Ee; [done|].
    apply bool_decide_eq_true in Hends. by destruct Hends as [->|[->| ->]], st.
  - change (String c l +:+ rest) with (String c (l +:+ rest)). cbn in *.
    destruct (num_step st c) as [st'|]; [|by destruct (num_end st)].
    destruct (num_rest st' l) as [[x y]|] eqn:E; [|done].
    injection H as [= <- ->].
    by rewrite (IH st' E).
Qed.
Lemma number_app l rest :
  number l = Some (l, "") → ends rest = true → number (l +:+ rest) = Some (l, rest).
Proof.
  intros H Hends. destruct l as [|c l]; [done|].
  change (String c l +:+ rest) with (String c (l +:+ rest)). cbn in *.
  destruct (num_start c) as [st|]; [|done]. cbn in *.
  destruct (num_rest st l) as [[x y]|] eqn:E; [|done].
  injection H as [= <- ->].
  by rewrite (num_rest_app st ("" +:+ x) rest E Hends).
Qed.
Lemma num_start_other c st : num_start c = Some st →
  c ≠ quote ∧ c ≠ "["%char ∧ c ≠ "{"%char ∧ c ≠ "]"%char ∧ c ≠ "}"%char ∧ space c = false.
Proof.
  intros H. destruct c as [[] [] [] [] [] [] [] []]; (discriminate H || by split_and!).
Qed.

(** A printed value starts with a byte that is no space and closes nothing. *)
Lemma print_start j : printable j = true →
  ∃ c s, print j = String c s ∧ space c = false ∧ c ≠ "]"%char ∧ c ≠ "}"%char.
Proof.
  destruct j as [|[]|lit|s|l|l]; cbn; intros H; try by eexists _, _.
  apply bool_decide_eq_true in H. destruct lit as [|c s]; [done|]. cbn in H.
  destruct (num_start c) as [st|] eqn:E; [|done]. apply num_start_other in E as (?&?&?&?&?&?).
  by exists c, s.
Qed.
Lemma skip_ws_print j r : printable j = true → skip_ws (print j +:+ r) = print j +:+ r.
Proof.
  intros (c & s & -> & Hc & _)%print_start.
  change (skip_ws (String c (s +:+ r)) = String c (s +:+ r)). cbn. by rewrite Hc.
Qed.
Lemma after_close j r x : printable j = true → x = "]"%char ∨ x = "}"%char →
  after (String x "") (skip_ws (print j +:+ r)) = None.
Proof.
  intros Hj Hx. rewrite skip_ws_print by done. apply print_start in Hj as (c & s & -> & _ & H1 & H2).
  change (after (String x "") (String c (s +:+ r)) = None). cbn.
  rewrite bool_decide_false; [done|]. by destruct Hx as [-> | ->]; apply not_eq_sym.
Qed.

(** One element or member of the printed list, then a comma or the end. *)
Lemma commas_cons x y l : commas (x :: y :: l) = x +:+ String "," (commas (y :: l)).
Proof. done. Qed.
Lemma elements_print val x l rest n :
  (length l < n)%nat →
  Forall (λ x, ∀ r, ends r = true → val (print x +:+ r) = Some (x, r)) (x :: l) →
  elements val n (commas (print <$> x :: l) +:+ String "]" rest) = Some (x :: l, rest).
Proof.
  revert x n. induction l as [|y l IH]; intros x [|n] Hn [Hx Hl]%Forall_cons; try (cbn in Hn; lia).
  - cbn [fmap list_fmap commas elements]. by rewrite Hx.
  - rewrite !fmap_cons, commas_cons, append_assoc, <- fmap_cons.
    change (String "," (commas (print <$> y :: l)) +:+ String "]" rest)
      with (String "," (commas (print <$> y :: l) +:+ String "]" rest)).
    cbn [elements]. rewrite Hx by done. cbn [mbind option_bind skip_ws].
    change (space ",") with false. cbn iota. rewrite bool_decide_true by done.
    rewrite (IH y n) by (cbn in Hn; lia || done). done.
Qed.

Definition print_member (kv : string * json) : string := let '(k, v) := kv in quoted k +:+ String ":" (print v).
Lemma quoted_app k r : quoted k +:+ r = String quote (escape k +:+ String quote r).
Proof. unfold quoted. change (String quote ((escape k +:+ String quote "") +:+ r) = String quote (escape k +:+ String quote r)). by rewrite append_assoc. Qed.
Lemma member_print val k v r :
  ValidString k = true → val (print v +:+ r) = Some (v, r) →
  member val (print_member (k, v) +:+ r) = Some (k, v, r).
Proof.
  intros Hk Hv. cbn [print_member]. rewrite append_assoc, quoted_app.
  unfold member. cbn [skip_ws]. change (space quote) with false. cbn iota.
  rewrite bool_decide_true by done. rewrite string_body_escape by done.
  cbn [mbind option_bind].
  change (after ":" (skip_ws (String ":" (print v) +:+ r))) with (Some (print v +:+ r)).
  cbn [mbind option_bind]. by rewrite Hv.
Qed.
Lemma members_print val kv l rest n :
  (length l < n)%nat → Forall (λ kv, ValidString (fst kv) = true) (kv :: l) →
  Forall (λ kv, ∀ r, ends r = true → val (print (snd kv) +:+ r) = Some (snd kv, r)) (kv :: l) →
  members val n (commas (print_member <$> kv :: l) +:+ String "}" rest) = Some (kv :: l, rest).
Proof.
  revert kv n. induction l as [|y l IH];
    intros [k v] [|n] Hn [Hk Hks]%Forall_cons [Hx Hl]%Forall_cons; try (cbn in Hn; lia).
  - cbn [fmap list_fmap commas members]. by rewrite member_print by auto.
  - rewrite !fmap_cons, commas_cons, append_assoc, <- fmap_cons.
    change (String "," (commas (print_member <$> y :: l)) +:+ String "}" rest)
      with (String "," (commas (print_member <$> y :: l) +:+ String "}" rest)).
    cbn [members]. rewrite member_print by auto. cbn [mbind option_bind skip_ws].
    change (space ",") with false. cbn iota. rewrite bool_decide_true by done.
    rewrite (IH y n) by (cbn in Hn; lia || done). done.
Qed.

(** Parsing a printed value takes no more fuel than it has bytes. *)
Lemma commas_length l : (length l ≤ S (String.length (commas l)))%nat.
Proof.
  induction l as [|x [|y l] IH]; [cbn; lia..|].
  rewrite commas_cons, append_length. cbn [String.length]. cbn [length] in *. lia.
Qed.
Lemma commas_elem x l : x ∈ l → (String.length x ≤ String.length (commas l))%nat.
Proof.
  induction 1 as [x l|x y l H IH].
  - destruct l; [done|]. rewrite commas_cons, append_length. lia.
  - destruct l as [|z l]; [by apply not_elem_of_nil in H|].
    rewrite commas_cons, append_length. cbn [String.length]. lia.
Qed.

Lemma height_elem x l : x ∈ l → (height x ≤ foldr (λ x, max (height x)) 0 l)%nat.
Proof. induction 1; cbn; lia. Qed.
Lemma height_member kv (l : list (string * json)) :
  kv ∈ l → (height (snd kv) ≤ foldr (λ kv, max (height (snd kv))) 0 l)%nat.
Proof. induction 1; cbn; lia. Qed.

Lemma commas_start x l r : ∃ t, commas (x :: l) +:+ r = x +:+ t.
Proof.
  destruct l as [|y l]; [by exists r|]. exists (String "," (commas (y :: l)) +:+ r).
  by rewrite commas_cons, append_assoc.
Qed.
Lemma value_JArr fuel depth l rest :
  depth < maxNestingDepth → forallb printable l = true → (length l ≤ fuel)%nat →
  Forall (λ x, ∀ r, ends r = true → value fuel (depth + 1) (print x +:+ r) = Some (x, r)) l →
  value (S fuel) depth (print (JArr l) +:+ rest) = Some (JArr l, rest).
Proof.
  intros Hd Hp Hf Hl. cbn [print].
  change (String "[" (commas (print <$> l) +:+ "]") +:+ rest)
    with (String "[" ((commas (print <$> l) +:+ "]") +:+ rest)).
  rewrite append_assoc. change ("]" +:+ rest) with (String "]" rest).
  cbn [value]. change (skip_ws (String "[" ?s)) with (String "[" s). cbn iota.
  rewrite bool_decide_false, bool_decide_true, (proj2 (Z.leb_gt _ _)) by (done || lia).
  destruct l as [|x l]; [done|].
  rewrite elements_print by (cbn in Hf; lia || done).
  destruct (commas_start (print x) (print <$> l) (String "]" rest)) as [t Ht].
  rewrite fmap_cons, Ht, after_close; [done| |by left].
  cbn in Hp. by apply andb_prop in Hp as [? _].
Qed.
Lemma value_JObj fuel depth l rest :
  depth < maxNestingDepth → Forall (λ kv, ValidString (fst kv) = true) l → (length l ≤ fuel)%nat →
  Forall (λ kv, ∀ r, ends r = true → value fuel (depth + 1) (print (snd kv) +:+ r) = Some (snd kv, r)) l →
  value (S fuel) depth (print (JObj l) +:+ rest) = Some (JObj l, rest).
Proof.
  intros Hd Hp Hf Hl. cbn [print].
  change (λ '(k, v), quoted k +:+ String ":" (print v)) with print_member.
  change (String "{" (commas (print_member <$> l) +:+ "}") +:+ rest)
    with (String "{" ((commas (print_member <$> l) +:+ "}") +:+ rest)).
  rewrite append_assoc. change ("}" +:+ rest) with (String "}" rest).
  cbn [value]. change (skip_ws (String "{" ?s)) with (String "{" s). cbn iota.
  rewrite bool_decide_false, bool_decide_false, bool_decide_true, (proj2 (Z.leb_gt _ _)) by (done || lia).
  destruct l as [|[k v] l]; [done|].
  rewrite members_print by (cbn in Hf; lia || done).
  destruct (commas_start (print_member (k, v)) (print_member <$> l) (String "}" rest)) as [t Ht].
  rewrite fmap_cons, Ht. cbn [print_member]. by rewrite append_assoc, quoted_app.
Qed.

Lemma value_print j : printable j = true → ∀ depth rest fuel,
  depth + Z.of_nat (height j) ≤ maxNestingDepth → ends rest = true →
  (String.length (print j) < fuel)%nat →
  value fuel depth (print j +:+ rest) = Some (j, rest).
Proof.
  induction j as [| |lit|s|l IH|l IH] using json_nested_ind; intros Hp depth rest [|fuel] Hd Hr Hf; try lia.
  - done.
  - by destruct b.
  - cbn in Hp. apply bool_decide_eq_true in Hp. destruct lit as [|c s]; [done|].
    destruct (num_start c) as [st|] eqn:Ec; [|by cbn in Hp; rewrite Ec in Hp].
    destruct (num_start_other _ _ Ec) as (?&?&?&?&?&Hs). cbn [value print].
    change (String c s +:+ rest) with (String c (s +:+ rest)).
    cbn [skip_ws]. rewrite Hs. cbn iota. rewrite !bool_decide_false, Ec by done.
    by rewrite (number_app (String c s) rest Hp Hr : number (String c (s +:+ rest)) = _).
  - cbn [print]. rewrite quoted_app. cbn [value skip_ws]. change (space quote) with false. cbn iota.
    rewrite bool_decide_true by done. by rewrite string_body_escape.
  - cbn [print String.length height] in *. rewrite append_length in Hf. cbn in Hp, Hf.
    apply value_JArr; [lia|done| |].
    + pose proof (commas_length (print <$> l)) as Hl. rewrite length_fmap in Hl. lia.
    + rewrite Forall_forall in IH |- *. intros x Hx r Hends. apply IH; [done| | |done|].
      * rewrite forallb_forall in Hp. by apply Hp, list_elem_of_In.
      * pose proof (height_elem x l Hx). lia.
      * pose proof (commas_elem (print x) (print <$> l)) as Hc.
        specialize (Hc ltac:(by apply list_elem_of_fmap_2)). lia.
  - cbn [print String.length height] in *. rewrite append_length in Hf. cbn in Hp, Hf.
    change (λ '(k, v), quoted k +:+ String ":" (print v)) with print_member in Hf.
    rewrite forallb_forall in Hp.
    assert (∀ kv, kv ∈ l → ValidString (fst kv) = true ∧ printable (snd kv) = true) as Hkv.
    { intros kv Hin. apply andb_prop. by apply Hp, list_elem_of_In. }
    apply value_JObj; [lia|rewrite Forall_forall; naive_solver| |].
    + pose proof (commas_length (print_member <$> l)) as Hl. rewrite length_fmap in Hl. lia.
    + rewrite Forall_forall in IH |- *. intros [k v] Hx r Hends. cbn [snd].
      destruct (Hkv _ Hx). apply (IH (k, v)); [done..| |done|].
      * pose proof (height_member _ l Hx). cbn [snd] in *. lia.
      * pose proof (commas_elem (print_member (k, v)) (print_member <$> l)) as Hc.
        specialize (Hc ltac:(by apply list_elem_of_fmap_2)).
        cbn [print_member] in Hc. rewrite append_length in Hc. cbn [String.length snd] in *. lia.
Qed.
Lemma append_nil_r s : s +:+ "" = s.
Proof. induction s as [|c s IH]; [done|]. change (String c (s +:+ "") = String c s). by rewrite IH. Qed.
(** The parser reads back whatever was printed. *)
Theorem parse_print j :
  printable j = true → Z.of_nat (height j) ≤ maxNestingDepth → parse (print j) = Some j.
Proof.
  intros Hp Hd. unfold parse. pose proof (value_print j Hp 0 "" (S (String.length (print j)))) as H.
  rewrite append_nil_r in H. rewrite H by (done || lia). done.
Qed.

(** ** The fuel of [parse] is enough *)
Definition shorter {A} (m : option (A * string)) (s : string) : Prop :=
  match m with Some (_, r) => (String.length r < String.length s)%nat | None => True end.
Lemma shorter_prepend p m s : shorter m s → shorter (prepend p m) s.
Proof. by destruct m as [[]|]. Qed.
Lemma shorter_weaken {A} (m : option (A * string)) s s' :
  shorter m s → (String.length s ≤ String.length s')%nat → shorter m s'.
Proof. destruct m as [[]|]; cbn; lia. Qed.
Lemma shorter_bind {A B} (m : option (A * string)) (k : A * string → option (B * string)) s :
  shorter m s → (∀ a r, m = Some (a, r) → (String.length r < String.length s)%nat → shorter (k (a, r)) s) →
  shorter (m ≫= k) s.
Proof. destruct m as [[a r]|]; cbn; auto. Qed.

Lemma string_body_shorter s : shorter (string_body s) s.
Proof.
  remember (String.length s) as n eqn:En. revert s En.
  induction (lt_wf n) as [n _ IH]. intros s ->.
  assert (∀ p s', (String.length s' < String.length s)%nat → shorter (prepend p (string_body s')) s) as IH'.
  { intros p s' Hs. eapply shorter_prepend, shorter_weaken; [by eapply IH|lia]. }
  clear IH. destruct s as [|a s1]; [done|]. cbn [string_body]. cbn [String.length] in IH'.
  repeat first [done | apply IH'; cbn [String.length]; lia | progress cbn [String.length] in * | case_match]; simplify_eq; cbn; try lia.
Qed.
Lemma skip_ws_length s : (String.length (skip_ws s) ≤ String.length s)%nat.
Proof. induction s as [|c s IH]; cbn; [done|]. destruct (space c); cbn; lia. Qed.
Lemma after_length p s r : after p s = Some r → (String.length r ≤ String.length s - String.length p)%nat.
Proof.
  revert s. induction p as [|a p IH]; intros [|b s]; cbn; try naive_solver lia.
  case_bool_decide; [|done]. intros Ha%IH. lia.
Qed.
Lemma num_rest_length st s : match num_rest st s with Some (_, r) => (String.length r ≤ String.length s)%nat | None => True end.
Proof.
  revert st. induction s as [|c s IH]; intros st; cbn; [by destruct (num_end st)|].
  destruct (num_step st c) as [st'|]; [|by destruct (num_end st)].
  specialize (IH st'). destruct (num_rest st' s) as [[]|]; cbn in *; lia.
Qed.
Lemma number_shorter s : shorter (number s) s.
Proof.
  destruct s as [|c s]; [done|]. cbn. destruct (num_start c) as [st|]; [|done]. cbn.
  pose proof (num_rest_length st s) as H. destruct (num_rest st s) as [[]|]; cbn in *; lia.
Qed.
Lemma keyword_shorter s : shorter (keyword s) s.
Proof.
  unfold keyword. destruct (after "null" s) eqn:E1; [|destruct (after "true" s) eqn:E2;
    [|destruct (after "false" s) eqn:E3; [|done]]]; cbn.
  all: destruct s; [done|].
  all: match goal with H : after _ _ = Some _ |- _ => apply after_length in H end; cbn in *; lia.
Qed.

Section items_fuel.
Context (val1 val2 : string → option (json * string)).
Lemma elements_shorter n s : (∀ s, shorter (val1 s) s) → shorter (elements val1 n s) s.
Proof.
  intros Hv. revert s. induction n as [|n IH]; intros s; [done|]. cbn [elements].
  apply shorter_bind; [apply Hv|]. intros v s1 _ H1. cbn.
  pose proof (skip_ws_length s1). destruct (skip_ws s1) as [|c s2]; [done|]. cbn [String.length] in *.
  repeat case_bool_decide; cbn; [|lia|done].
  eapply shorter_weaken; [apply shorter_bind; [apply IH|]; intros vs s3 _ H3; exact H3|lia].
Qed.
Lemma member_shorter s : (∀ s, shorter (val1 s) s) → shorter (member val1 s) s.
Proof.
  intros Hv. unfold member. pose proof (skip_ws_length s). destruct (skip_ws s) as [|q s1]; [done|].
  cbn [String.length] in *. case_bool_decide; [|done].
  apply (shorter_weaken _ s1); [|lia].
  apply shorter_bind; [apply string_body_shorter|]. intros k s2 _ H2. cbv beta iota.
  pose proof (skip_ws_length s2). destruct (after ":" (skip_ws s2)) as [s3|] eqn:E; [|done].
  apply after_length in E. cbn in E. cbn [mbind option_bind]. eapply shorter_weaken; [apply shorter_bind; [apply Hv|]|].
  - intros v s4 _ H4. exact H4.
  - lia.
Qed.
Lemma members_shorter n s : (∀ s, shorter (val1 s) s) → shorter (members val1 n s) s.
Proof.
  intros Hv. revert s. induction n as [|n IH]; intros s; [done|]. cbn [members].
  apply shorter_bind; [by apply member_shorter|]. intros [k v] s1 _ H1. cbn.
  pose proof (skip_ws_length s1). destruct (skip_ws s1) as [|c s2]; [done|]. cbn [String.length] in *.
  repeat case_bool_decide; cbn; [|lia|done].
  eapply shorter_weaken; [apply shorter_bind; [apply IH|]; intros vs s3 _ H3; exact H3|lia].
Qed.

Definition agree (b : nat) : Prop := ∀ s, (String.length s ≤ b)%nat → val1 s = val2 s.
Lemma elements_agree n1 n2 s b : (∀ s, shorter (val1 s) s) → agree b → (String.length s ≤ b)%nat →
  (String.length s < n1)%nat → (String.length s < n2)%nat →
  elements val1 n1 s = elements val2 n2 s.
Proof.
  intros Hv Ha. revert n2 s. induction n1 as [|n1 IH]; intros [|n2] s Hb H1 H2; try lia.
  cbn [elements]. rewrite <- (Ha s) by done. pose proof (Hv s) as Hs.
  destruct (val1 s) as [[v s1]|]; [|done]. cbn in Hs |- *.
  pose proof (skip_ws_length s1). destruct (skip_ws s1) as [|c s2]; [done|]. cbn [String.length] in *.
  case_bool_decide; [|done]. by rewrite (IH n2 s2) by lia.
Qed.
Lemma member_agree s b : agree b → (String.length s ≤ b)%nat → member val1 s = member val2 s.
Proof.
  intros Ha Hb. unfold member. pose proof (skip_ws_length s). destruct (skip_ws s) as [|q s1]; [done|].
  cbn [String.length] in *. case_bool_decide; [|done]. pose proof (string_body_shorter s1) as Hs.
  destruct (string_body s1) as [[k s2]|]; [|done]. cbn in Hs. cbn [mbind option_bind]. pose proof (skip_ws_length s2).
  destruct (after ":" (skip_ws s2)) as [s3|] eqn:E; [|done]. apply after_length in E. cbn in E. cbn [mbind option_bind].
  by rewrite (Ha s3) by lia.
Qed.
Lemma members_agree n1 n2 s b : (∀ s, shorter (val1 s) s) → agree b → (String.length s ≤ b)%nat →
  (String.length s < n1)%nat → (String.length s < n2)%nat →
  members val1 n1 s = members val2 n2 s.
Proof.
  intros Hv Ha. revert n2 s. induction n1 as [|n1 IH]; intros [|n2] s Hb H1 H2; try lia.
  cbn [members]. rewrite <- (member_agree s b) by done. pose proof (member_shorter s Hv) as Hs.
  destruct (member val1 s) as [[[k v] s1]|]; [|done]. cbn in Hs |- *.
  pose proof (skip_ws_length s1). destruct (skip_ws s1) as [|c s2]; [done|]. cbn [String.length] in *.
  case_bool_decide; [|done]. by rewrite (IH n2 s2) by lia.
Qed.
End items_fuel.

Lemma value_shorter fuel d s : shorter (value fuel d s) s.
Proof.
  revert d s. induction fuel as [|fuel IH]; intros d s; [done|]. cbn [value].
  apply shorter_weaken with (skip_ws s); [|apply skip_ws_length].
  destruct (skip_ws s) as [|c s1]; [done|].
  assert (∀ {A} (m : option (A * string)) (f : A → json),
    shorter m s1 → shorter ('(a, s2) ← m; Some (f a, s2)) (String c s1)) as Hone.
  { intros A m f Hm. eapply shorter_weaken; [apply shorter_bind; [done|]; intros a r _ Hr; exact Hr|cbn; lia]. }
  pose proof (skip_ws_length s1). repeat case_bool_decide.
  - apply Hone, string_body_shorter.
  - destruct (_ <=? _); [done|]. destruct (after _ _) as [s2|] eqn:E.
    + apply after_length in E. cbn in *. lia.
    + apply Hone, elements_shorter, IH.
  - destruct (_ <=? _); [done|]. destruct (after _ _) as [s2|] eqn:E.
    + apply after_length in E. cbn in *. lia.
    + apply Hone, members_shorter, IH.
  - destruct (num_start c); [|apply keyword_shorter].
    apply shorter_bind; [apply number_shorter|]. intros l r _ Hr. exact Hr.
Qed.
(** Any fuel beyond the length of the document gives the same. *)
Theorem value_fuel f1 f2 d s :
  (String.length s < f1)%nat → (String.length s < f2)%nat → value f1 d s = value f2 d s.
Proof.
  revert f2 d s. induction f1 as [|f1 IH]; intros [|f2] d s H1 H2; try lia. cbn [value].
  pose proof (skip_ws_length s). destruct (skip_ws s) as [|c s1]; [done|]. cbn [String.length] in *.
  assert (agree (value f1 (d + 1)) (value f2 (d + 1)) (String.length s1)) as Ha.
  { intros s' ?. apply IH; lia. }
  repeat case_bool_decide; try done.
  all: destruct (_ <=? _); [done|]; destruct (after _ _); [done|].
  - by rewrite (elements_agree _ _ f1 f2 s1 (String.length s1) (value_shorter _ _) Ha) by lia.
  - by rewrite (members_agree _ _ f1 f2 s1 (String.length s1) (value_shorter _ _) Ha) by lia.
Qed.

(** ** Integers are literals *)
Lemma digit_char x : (x < 10)%N →
  digit_byte (pretty_N_char x) = true ∧ (x ≠ 0%N → num_start (pretty_N_char x) = Some Int ∧
    num_step Neg (pretty_N_char x) = Some Int).
Proof.
  intros Hx. assert (x ∈ N.of_nat <$> seq 0 10) as Hin.
  { apply list_elem_of_fmap. exists (N.to_nat x). rewrite elem_of_seq. lia. }
  clear Hx. revert x Hin. apply Forall_forall. repeat constructor; done.
Qed.
Lemma pretty_digits x s : (0 < x)%N → num_rest Int s = Some (s, "") →
  ∃ c r, pretty_N_go x s = String c r ∧ num_start c = Some Int ∧ num_step Neg c = Some Int ∧
    num_rest Int r = Some (r, "").
Proof.
  revert s. induction (N.lt_wf_0 x) as [x _ IH]; intros s Hx Hs.
  rewrite pretty_N_go_step by done.
  pose proof (digit_char (x `mod` 10) ltac:(by apply N.mod_lt)) as [Hd Hne].
  destruct (decide (x / 10 = 0)%N) as [E|?].
  - rewrite E, pretty_N_go_0. eexists _, _. split; [done|].
    destruct Hne as [? ?]; [|done]. pose proof (N.div_mod x 10 ltac:(done)). lia.
  - apply IH; [by apply N.div_lt|by apply N.neq_0_lt_0|]. cbn. unfold digit_byte in Hd |- *.
    by rewrite Hd, Hs.
Qed.
Lemma number_Itoa z : number (strconv.Itoa z) = Some (strconv.Itoa z, "").
Proof.
  unfold strconv.Itoa. destruct z as [|p|p]; [done|..].
  all: destruct (pretty_digits (N.pos p) "") as (c & r & E & Hc & Hn & Hr); [done..|].
  - change (pretty (Z.pos p)) with (pretty_N_go (N.pos p) ""). rewrite E. cbn. by rewrite Hc; cbn; rewrite Hr.
  - change (pretty (Z.neg p)) with (String "-" (pretty_N_go (N.pos p) "")). rewrite E.
    change (prepend "-" (num_rest Neg (String c r)) = Some (String "-" (String c r), "")).
    cbn [num_rest]. by rewrite Hn, Hr.
Qed.

(** ** Parsed strings are UTF-8 *)
Lemma valid_app p s : ValidString p = true → ValidString s = true → ValidString (p +:+ s) = true.
Proof.
  intros Hp Hs. revert p Hp. apply valid_ind; [done|intros a p H IH|intros a b p H IH|intros a b c p H IH|intros a b c d p H IH].
  - change (ValidString (String a (p +:+ s)) = true). cbn. by rewrite H.
  - destruct (lead_other a) as (_ & _ & _ & E); [by eapply rune2_lead|].
    change (ValidString (String a (String b (p +:+ s))) = true). cbn. by rewrite E, H.
  - pose proof (rune3_lead _ _ _ H).
    change (ValidString (String a (String b (String c (p +:+ s)))) = true). cbn.
    destruct (lead_other a) as (_ & _ & _ & E); [lia|]. by rewrite E, not_rune2, H by lia.
  - pose proof (rune4_lead _ _ _ _ H).
    change (ValidString (String a (String b (String c (String d (p +:+ s))))) = true). cbn.
    destruct (lead_other a) as (_ & _ & _ & E); [lia|]. by rewrite E, not_rune2, not_rune3, H by lia.
Qed.
Definition byte (z : Z) : ascii := ascii_of_nat (Z.to_nat z).
Lemma byte_in_byte lo hi z : 0 ≤ z < 256 →
  byte_in lo hi (byte z) = (Z.of_nat lo <=? z) && (z <=? Z.of_nat hi).
Proof.
  intros Hz. unfold byte_in, byte. rewrite Ascii.nat_ascii_embedding by lia.
  f_equal; apply eq_true_iff_eq; rewrite Nat.leb_le, Z.leb_le; lia.
Qed.
Ltac byte_ranges :=
  unfold ascii_byte, rune2, rune3, rune4, continuation;
  rewrite !byte_in_byte by (Z.to_euclidean_division_equations; lia);
  repeat first [rewrite andb_true_iff | rewrite orb_true_iff | rewrite Z.leb_le];
  Z.to_euclidean_division_equations; lia.
Lemma EncodeRune_valid r : 0 ≤ r ≤ 1114111 → ValidString (EncodeRune r) = true.
Proof.
  intros Hr. unfold EncodeRune.
  destruct (Z.ltb_spec r 128).
  { change (ValidString (String (byte r) "") = true).
    assert (ascii_byte (byte r) = true) as E by byte_ranges.
    cbn. by rewrite E. }
  destruct (Z.ltb_spec r 2048).
  { change (ValidString (String (byte (192 + r / 64)) (String (byte (128 + r mod 64)) "")) = true).
    assert (rune2 (byte (192 + r / 64)) (byte (128 + r mod 64)) = true) as E.
    { byte_ranges. }
    destruct (lead_other (byte (192 + r / 64))) as (_ & _ & _ & Ea); [by eapply rune2_lead|].
    cbn. by rewrite Ea, E. }
  destruct ((55296 <=? r) && (r <? 57344) || (1114111 <? r)) eqn:Es; [done|].
  apply orb_false_elim in Es as [Es _]. rewrite andb_false_iff, Z.leb_gt, Z.ltb_ge in Es.
  destruct (Z.ltb_spec r 65536).
  { change (ValidString (String (byte (224 + r / 4096)) (String (byte (128 + r / 64 mod 64))
      (String (byte (128 + r mod 64)) ""))) = true).
    assert (rune3 (byte (224 + r / 4096)) (byte (128 + r / 64 mod 64)) (byte (128 + r mod 64)) = true) as E.
    { byte_ranges. }
    pose proof (rune3_lead _ _ _ E). destruct (lead_other (byte (224 + r / 4096))) as (_ & _ & _ & Ea); [lia|].
    cbn. by rewrite Ea, not_rune2, E by lia. }
  change (ValidString (String (byte (240 + r / 262144)) (String (byte (128 + r / 4096 mod 64))
    (String (byte (128 + r / 64 mod 64)) (String (byte (128 + r mod 64)) "")))) = true).
  assert (rune4 (byte (240 + r / 262144)) (byte (128 + r / 4096 mod 64)) (byte (128 + r / 64 mod 64))
            (byte (128 + r mod 64)) = true) as E.
  { byte_ranges. }
  pose proof (rune4_lead _ _ _ _ E). destruct (lead_other (byte (240 + r / 262144))) as (_ & _ & _ & Ea); [lia|].
  cbn. by rewrite Ea, not_rune2, not_rune3, E by lia.
Qed.
Lemma fromHexChar_16 c n : hex.fromHexChar c = Some n → (n < 16)%nat.
Proof.
  unfold hex.fromHexChar, hex.in_range. repeat case_match; intros; simplify_eq.
  all: repeat match goal with H : _ && _ = true |- _ => apply andb_prop in H as [?%Nat.leb_le ?%Nat.leb_le] end; lia.
Qed.
Lemma getu4_range a b c d r : getu4 a b c d = Some r → 0 ≤ r < 65536.
Proof.
  unfold getu4. destruct (hex.fromHexChar a) eqn:?, (hex.fromHexChar b) eqn:?,
    (hex.fromHexChar c) eqn:?, (hex.fromHexChar d) eqn:?; try done. intros [= <-].
  repeat match goal with H : hex.fromHexChar _ = _ |- _ => apply fromHexChar_16 in H end. lia.
Qed.
Lemma surrogate_pair_range r1 r2 r : surrogate_pair r1 r2 = Some r → 65536 ≤ r ≤ 1114111.
Proof.
  unfold surrogate_pair. rewrite <- !andb_assoc.
  destruct (Z.leb_spec 55296 r1), (Z.ltb_spec r1 56320), (Z.leb_spec 56320 r2), (Z.ltb_spec r2 57344);
    try done. intros [= <-]. lia.
Qed.

Definition valid_text {R} (m : option (string * R)) : Prop :=
  match m with Some (x, _) => ValidString x = true | None => True end.
Lemma valid_prepend {R : Type} p (m : option (string * string)) :
  ValidString p = true → valid_text m → valid_text (prepend p m).
Proof. destruct m as [[x r]|]; cbn; [|done]. intros; by apply valid_app. Qed.
Lemma ascii_valid a : ascii_byte a = true → ValidString (String a "") = true.
Proof. intros H. cbn. by rewrite H. Qed.
Lemma rune2_valid a b : rune2 a b = true → ValidString (String a (String b "")) = true.
Proof.
  intros H. destruct (lead_other a) as (_ & _ & _ & E); [by eapply rune2_lead|]. cbn. by rewrite E, H.
Qed.
Lemma rune3_valid a b c : rune3 a b c = true → ValidString (String a (String b (String c ""))) = true.
Proof.
  intros H. pose proof (rune3_lead _ _ _ H). destruct (lead_other a) as (_ & _ & _ & E); [lia|].
  cbn. by rewrite E, not_rune2, H by lia.
Qed.
Lemma rune4_valid a b c d : rune4 a b c d = true →
  ValidString (String a (String b (String c (String d "")))) = true.
Proof.
  intros H. pose proof (rune4_lead _ _ _ _ H). destruct (lead_other a) as (_ & _ & _ & E); [lia|].
  cbn. by rewrite E, not_rune2, not_rune3, H by lia.
Qed.
Lemma simple_escape_valid e p : simple_escape e = Some p → ValidString p = true.
Proof.
  unfold simple_escape. repeat case_bool_decide; intros [= <-]; try done.
  by destruct H as [->|[->| ->]].
Qed.
Lemma getu4_valid a b c d r : getu4 a b c d = Some r → ValidString (EncodeRune r) = true.
Proof. intros H%getu4_range. apply EncodeRune_valid. lia. Qed.
Lemma pair_valid (m : option Z) r1 r : m ≫= surrogate_pair r1 = Some r → ValidString (EncodeRune r) = true.
Proof. intros (r2 & _ & H%surrogate_pair_range)%bind_Some. apply EncodeRune_valid. lia. Qed.

Lemma string_body_valid s : valid_text (string_body s).
Proof.
  remember (String.length s) as n eqn:En. revert s En.
  induction (lt_wf n) as [n _ IH]. intros s ->.
  assert (∀ p s', ValidString p = true → (String.length s' < String.length s)%nat →
    valid_text (prepend p (string_body s'))) as IH' by (intros; apply (valid_prepend (R := ())); eauto).
  clear IH. destruct s as [|a s1]; [done|]. cbn [String.length] in IH'. cbn [string_body].
  repeat first
    [ done
    | apply IH'; [by eauto using ascii_valid, rune2_valid, rune3_valid, rune4_valid, simple_escape_valid,
                    getu4_valid, pair_valid | cbn [String.length]; lia]
    | match goal with |- valid_text (match ?x with _ => _ end) => destruct x eqn:? end ]; simplify_eq.
Qed.

(** Every string and key of a parsed document. *)
Fixpoint texts_ok (j : json) : Prop :=
  match j with
  | JStr s => ValidString s = true
  | JArr l => foldr (λ x P, texts_ok x ∧ P) True l
  | JObj l => foldr (λ kv P, (ValidString (fst kv) = true ∧ texts_ok (snd kv)) ∧ P) True l
  | _ => True
  end.
Section items_texts.
Context (val : string → option (json * string))
  (Hval : ∀ s v r, val s = Some (v, r) → texts_ok v).
Lemma elements_texts n s l r : elements val n s = Some (l, r) → texts_ok (JArr l).
Proof.
  revert s l r. induction n as [|n IH]; intros s l r; [done|]. cbn [elements].
  intros ([v s1] & Hv & H)%bind_Some. apply Hval in Hv. destruct (skip_ws s1) as [|c s2]; [done|].
  case_bool_decide.
  - apply bind_Some in H as ([vs s3] & Hvs & [= <- <-]). split; [done|]. by eapply IH.
  - case_bool_decide; [|done]. injection H as [= <- <-]. by repeat split.
Qed.
Lemma member_texts s k v r : member val s = Some (k, v, r) → ValidString k = true ∧ texts_ok v.
Proof.
  unfold member. destruct (skip_ws s) as [|q s1]; [done|]. case_bool_decide; [|done].
  intros ([k' s2] & Hk & (s3 & _ & ([v' s4] & Hv & [= <- <- <-])%bind_Some)%bind_Some)%bind_Some.
  split; [|by eapply Hval]. pose proof (string_body_valid s1) as Ht. by rewrite Hk in Ht.
Qed.
Lemma members_texts n s l r : members val n s = Some (l, r) → texts_ok (JObj l).
Proof.
  revert s l r. induction n as [|n IH]; intros s l r; [done|]. cbn [members].
  intros ([[k v] s1] & Hv & H)%bind_Some. apply member_texts in Hv. destruct (skip_ws s1) as [|c s2]; [done|].
  case_bool_decide.
  - apply bind_Some in H as ([vs s3] & Hvs & [= <- <-]). split; [done|]. by eapply IH.
  - case_bool_decide; [|done]. injection H as [= <- <-]. by split.
Qed.
End items_texts.
Lemma keyword_texts s v r : keyword s = Some (v, r) → texts_ok v.
Proof. unfold keyword. repeat case_match; intros; by simplify_eq. Qed.
Lemma value_texts fuel d s v r : value fuel d s = Some (v, r) → texts_ok v.
Proof.
  revert d s v r. induction fuel as [|fuel IH]; intros d s v r; [done|]. cbn [value].
  destruct (skip_ws s) as [|c s1]; [done|]. repeat case_bool_decide.
  - intros ([x s2] & Hx & [= <- _])%bind_Some. pose proof (string_body_valid s1) as Ht. by rewrite Hx in Ht.
  - destruct (_ <=? _); [done|]. destruct (after _ _); [intros; by simplify_eq|].
    intros ([l s2] & Hl & [= <- _])%bind_Some. exact (elements_texts _ (IH _) _ _ _ _ Hl).
  - destruct (_ <=? _); [done|]. destruct (after _ _); [intros; by simplify_eq|].
    intros ([l s2] & Hl & [= <- _])%bind_Some. exact (members_texts _ (IH _) _ _ _ _ Hl).
  - destruct (num_start c); [|apply keyword_texts].
    by intros ([l s2] & _ & [= <- _])%bind_Some.
Qed.
Theorem parse_texts s j : parse s = Some j → texts_ok j.
Proof.
  unfold parse. intros ([v r] & Hv%value_texts & H)%bind_Some. case_bool_decide; [|done]. by injection H as [= <-].
Qed.
