(* ===== verification/JsonStruct.v ===== *)
(** * Structs in encoding/json

    A struct is a list of [Field]s: the key of each, how a value is stored in it, how
    it is printed, and whether it is left out when it is empty.  [Unmarshal] and
    [Marshal] are computed from the list.  [Unmarshal_Marshal] reads back what was
    printed, [Unmarshal_sound] says that what is read fits the types of the fields.
    Used by MessageCodec and SnapshotCodec. *)

From stdpp Require Import pretty.
From S2P Require Import Prelude GoLib Json.
Import utf8.

(** ** Unmarshal into a struct *)
Definition SyntaxError : error := ErrTyped "json.SyntaxError" "invalid json".
Definition value_kind (v : json) : string :=
  match v with
  | JNull => "null" | JBool _ => "bool" | JNum _ => "number" | JStr _ => "string"
  | JArr _ => "array" | JObj _ => "object"
  end.
Definition UnmarshalTypeError (kind place type : string) : error :=
  ErrTyped "json.UnmarshalTypeError"
    ("json: cannot unmarshal " +:+ kind +:+ " into Go " +:+ place +:+ " of type " +:+ type).

(** Storing a value: done; skipped, with an error for the end; or given up. *)
Inductive Stored (T : Type) := Done (t : T) | Skipped (e : error) | GivenUp (e : error).
Arguments Done {T} t.
Arguments Skipped {T} e.
Arguments GivenUp {T} e.

(** A field of the struct [T]: its key, how a value is stored, how it is printed, when it
    is left out ([omitempty]), and which values of the struct the type of the field
    allows. *)
Record Field (T : Type) := mkField {
  f_name : string;
  f_set : json → T → Stored T;
  f_get : T → json;
  f_omit : T → bool;
  f_ok : T → Prop;
}.
Arguments mkField {T}.
Arguments f_name {T}.
Arguments f_set {T}.
Arguments f_get {T}.
Arguments f_omit {T}.
Arguments f_ok {T}.

(** [ParseUint] in base 10 and of 64 bits. *)
Definition ParseUint (s : string) : result Z :=
  match s with
  | "" => Err strconv.ErrSyntax
  | _ =>
      match strconv.digits 10 0 s with
      | None => Err strconv.ErrSyntax
      | Some n => if bool_decide (n < 2 ^ 64) then Ok n else Err strconv.ErrRange
      end
  end.

Section fields.
Context {T : Type} (struct name : string).
Definition field_place : string := "struct field " +:+ struct +:+ "." +:+ name.
Definition mismatch (v : json) (type : string) : Stored T :=
  Skipped (UnmarshalTypeError (value_kind v) field_place type).
Definition bad_number (lit type : string) : Stored T :=
  Skipped (UnmarshalTypeError ("number " +:+ lit) field_place type).

Definition string_field (get : T → string) (set : string → T → T) : Field T :=
  mkField name
    (λ v t, match v with
            | JStr s => Done (set s t) | JNull => Done t | _ => mismatch v "string"
            end)
    (λ t, JStr (get t)) (λ _, false) (λ t, ValidString (get t) = true).
(** [uint8], [uint32], [uint64]. *)
Definition uint_field (bits : Z) (get : T → Z) (set : Z → T → T) : Field T :=
  let type := "uint" +:+ strconv.Itoa bits in
  mkField name
    (λ v t, match v with
            | JNum lit =>
                match ParseUint lit with
                | Ok n => if bool_decide (n < 2 ^ bits) then Done (set n t) else bad_number lit type
                | Err _ => bad_number lit type
                end
            | JNull => Done t
            | _ => mismatch v type
            end)
    (λ t, JNum (strconv.Itoa (get t))) (λ _, false) (λ t, 0 ≤ get t < 2 ^ bits).
Definition int64_field (get : T → Z) (set : Z → T → T) : Field T :=
  mkField name
    (λ v t, match v with
            | JNum lit =>
                match strconv.ParseInt 10 lit with
                | Ok n => Done (set n t)
                | Err _ => bad_number lit "int64"
                end
            | JNull => Done t
            | _ => mismatch v "int64"
            end)
    (λ t, JNum (strconv.Itoa (get t))) (λ _, false) (λ t, is_i64 (get t)).
Definition bool_field (get : T → bool) (set : bool → T → T) : Field T :=
  mkField name
    (λ v t, match v with JBool b => Done (set b t) | JNull => Done t | _ => mismatch v "bool" end)
    (λ t, JBool (get t)) (λ _, false) (λ _, True).

(** The elements of an array of strings are stored over [backing], the memory of the
    slice that is there: null keeps what it holds.  The first mismatch is kept. *)
Fixpoint store_strings (vs : list json) (backing : list string) : list string * option error :=
  match vs with
  | [] => (backing, None)
  | v :: vs =>
      let old := match backing with [] => "" | b :: _ => b end in
      let '(rest, e) := store_strings vs (tl backing) in
      match v with
      | JStr s => (s :: rest, e)
      | JNull => (old :: rest, e)
      | _ => (old :: rest, Some (UnmarshalTypeError (value_kind v) field_place "string"))
      end
  end.
(** [[]string]: [set] takes the slice and the memory it lies in. *)
Definition strings_field (get backing : T → list string) (set : list string → list string → T → T)
    : Field T :=
  mkField name
    (λ v t, match v with
            | JArr [] | JNull => Done (set [] [] t)
            | JArr vs =>
                match store_strings vs (backing t) with
                | (b, None) => Done (set (take (length vs) b) b t)
                | (_, Some e) => Skipped e
                end
            | _ => mismatch v "[]string"
            end)
    (λ t, JArr (JStr <$> get t)) (λ _, false)
    (λ t, Forall (λ s, ValidString s = true) (get t) ∧ Forall (λ s, ValidString s = true) (backing t)).

End fields.
Definition omitempty {T} (empty : T → bool) (f : Field T) : Field T :=
  mkField (f_name f) (f_set f) (f_get f) empty (f_ok f).

(** ** Keys: exact, or up to case *)
Definition upper (c : ascii) : ascii :=
  let n := nat_of_ascii c in if byte_in 97 122 c then ascii_of_nat (n - 32) else c.
(** [foldName]: the two other runes that fold to a letter of ASCII. *)
Definition long_s : string := bytes [197; 191].
Definition kelvin : string := bytes [226; 132; 170].
Fixpoint foldName (s : string) : string :=
  match s with
  | "" => ""
  | String a s1 =>
      match s1 with
      | String b s2 =>
          if bool_decide (String a (String b "") = long_s) then String "S" (foldName s2)
          else match s2 with
               | String c s3 =>
                   if bool_decide (String a (String b (String c "")) = kelvin)
                   then String "K" (foldName s3) else String (upper a) (foldName s1)
               | "" => String (upper a) (foldName s1)
               end
      | "" => String (upper a) ""
      end
  end.

Section structs.
Context {T : Type} (fields : list (Field T)).
Definition find_field (key : string) : option (Field T) :=
  match list_find (λ f, f_name f = key) fields with
  | Some (_, f) => Some f
  | None => snd <$> list_find (λ f, foldName (f_name f) = foldName key) fields
  end.
(** The members in their order; the first error that was kept is returned. *)
Fixpoint store (l : list (string * json)) (t : T) (saved : option error) : result T :=
  match l with
  | [] => match saved with None => Ok t | Some e => Err e end
  | (k, v) :: l =>
      match find_field k with
      | None => store l t saved
      | Some f =>
          match f_set f v t with
          | Done t' => store l t' saved
          | Skipped e => store l t (Some (default e saved))
          | GivenUp e => Err e
          end
      end
  end.
(** [var msg *T; json.Unmarshal(data, &msg)]. *)
Definition Unmarshal (type : string) (zero : T) (data : string) : result (option T) :=
  match parse data with
  | None => Err SyntaxError
  | Some JNull => Ok None
  | Some (JObj l) => match store l zero None with Ok t => Ok (Some t) | Err e => Err e end
  | Some v => Err (UnmarshalTypeError (value_kind v) "value" type)
  end.
Definition present (fs : list (Field T)) (t : T) : list (string * json) :=
  (λ f, (f_name f, f_get f t)) <$> filter (λ f, f_omit f t = false) fs.
Definition encode (t : T) : json := JObj (present fields t).
Definition Marshal (t : T) : string := print (encode t).
Definition fields_ok (t : T) : Prop := Forall (λ f, f_ok f t) fields.
End structs.

(** ** Reading back what was marshalled *)

(** A field that is stored from what it was printed as ends with the value it had,
    [put]ting it into the struct that is being filled. *)
Record Lawful {T} (f : Field T) (put : T → T → T) : Prop := {
  law_set t t0 : f_ok f t → f_set f (f_get f t) t0 = Done (put t t0);
  law_printable t : f_ok f t → printable (f_get f t) = true;
  law_flat t : (height (f_get f t) ≤ 1)%nat;
}.

Lemma ParseUint_Itoa z : is_u64 z → ParseUint (strconv.Itoa z) = Ok z.
Proof.
  intros Hz. unfold is_u64 in Hz. unfold ParseUint, strconv.Itoa.
  destruct z as [|p|p]; [done| |lia]. change (pretty (Z.pos p)) with (pretty.pretty_N_go (N.pos p) "").
  destruct (strconv.split_sign_pretty_go (N.pos p) "") as [_ Hne]; [done|].
  pose proof (strconv.digits_pretty_go (N.pos p) "") as Hd. cbn [strconv.digits] in Hd.
  destruct (pretty.pretty_N_go (N.pos p) ""); [done|]. rewrite Hd.
  by rewrite bool_decide_true by (cbn; lia).
Qed.

Create HintDb lawful.
Section lawful_fields.
Context {T : Type} (struct name : string).
Lemma string_lawful get set :
  Lawful (string_field struct name get set) (λ t t0 : T, set (get t) t0).
Proof. split; cbn; [done|done|lia]. Qed.
Lemma bool_lawful get set :
  Lawful (bool_field struct name get set) (λ t t0 : T, set (get t) t0).
Proof. split; cbn; [done|done|lia]. Qed.
Lemma uint_lawful bits get set : bits ≤ 64 →
  Lawful (uint_field struct name bits get set) (λ t t0 : T, set (get t) t0).
Proof.
  intros Hb. split; [|intros; cbn; by rewrite bool_decide_true by apply number_Itoa|cbn; lia].
  intros t t0 Hok. cbn in Hok |- *. pose proof (Z.pow_le_mono_r 2 bits 64 ltac:(lia) Hb).
  rewrite ParseUint_Itoa by (unfold is_u64; lia). by rewrite bool_decide_true by lia.
Qed.
Lemma int64_lawful get set : Lawful (int64_field struct name get set) (λ t t0 : T, set (get t) t0).
Proof.
  split; [|intros; cbn; by rewrite bool_decide_true by apply number_Itoa|cbn; lia].
  intros t t0 Hok. cbn in Hok |- *. by rewrite (strconv.Atoi_Itoa _ Hok : strconv.ParseInt 10 _ = _).
Qed.
Lemma valid_hex s : ValidString (hex.EncodeToString s) = true.
Proof.
  induction s as [|c s IH]; [done|]. cbn [hex.EncodeToString].
  by destruct c as [[] [] [] [] [] [] [] []].
Qed.
Lemma store_strings_JStr l b :
  store_strings struct name (JStr <$> l) b = (l ++ drop (length l) b, None).
Proof.
  revert b. induction l as [|s l IH]; intros b; [done|]. rewrite fmap_cons. cbn [store_strings].
  rewrite IH. destruct b; cbn; by rewrite ?drop_nil.
Qed.
Lemma strings_lawful get backing set :
  Lawful (strings_field struct name get backing set)
    (λ t t0 : T, match get t with
                 | [] => set [] [] t0
                 | l => set l (l ++ drop (length l) (backing t0)) t0
                 end).
Proof.
  split; cbn.
  - intros t t0 _. destruct (get t) as [|s l]; [done|]. rewrite fmap_cons.
    change (JStr s :: (JStr <$> l)) with (JStr <$> s :: l).
    destruct (JStr <$> s :: l) eqn:E; [done|]. rewrite <- E, store_strings_JStr, length_fmap.
    by rewrite take_app_length.
  - intros t [H _]. apply forallb_forall. intros v (s & -> & Hs)%list_elem_of_In%list_elem_of_fmap.
    by apply (proj1 (Forall_forall _ _) H).
  - intros t. induction (get t); cbn in *; lia.
Qed.
End lawful_fields.
Lemma omitempty_lawful {T} empty (f : Field T) put : Lawful f put → Lawful (omitempty empty f) put.
Proof. by intros []. Qed.
#[export] Hint Resolve string_lawful bool_lawful int64_lawful strings_lawful omitempty_lawful : lawful.
#[export] Hint Extern 1 (Lawful (uint_field _ _ _ _ _) _) => apply uint_lawful; lia : lawful.

Lemma find_field_name {T} (fields : list (Field T)) f :
  NoDup (f_name <$> fields) → f ∈ fields → find_field fields (f_name f) = Some f.
Proof.
  intros Hnd [i Hi]%list_elem_of_lookup. unfold find_field.
  destruct (list_find _ fields) as [[j f']|] eqn:E.
  - apply list_find_Some in E as (Hj & Hname & _). f_equal.
    assert (i = j) as ->.
    { eapply NoDup_lookup; [exact Hnd| |]; rewrite list_lookup_fmap; [by rewrite Hi|].
      rewrite Hj. cbn. by rewrite Hname. }
    congruence.
  - apply list_find_None in E. rewrite Forall_lookup in E. by destruct (E i f Hi).
Qed.

Section round_trip.
Context {T : Type} (fields : list (Field T)).
(** The struct [a] after the fields of [t] that are printed were stored in it. *)
Definition fill (fs : list (Field T)) (puts : list (T → T → T)) (t a : T) : T :=
  foldl (λ a fp, if f_omit fp.1 t then a else fp.2 t a) a (zip fs puts).
Lemma fill_cons f fs p ps t a :
  fill (f :: fs) (p :: ps) t a = fill fs ps t (if f_omit f t then a else p t a).
Proof. done. Qed.
Lemma store_encode fs ps t t0 :
  Forall2 Lawful fs ps → Forall (λ f, find_field fields (f_name f) = Some f) fs →
  Forall (λ f, f_ok f t) fs →
  store fields (present fs t) t0 None = Ok (fill fs ps t t0).
Proof.
  intros Hl. revert t0. induction Hl as [|f p fs ps Hf Hl IH]; intros t0 Hfind Hok; [done|].
  apply Forall_cons in Hfind as [Hn Hfind]. apply Forall_cons in Hok as [Ho Hok].
  unfold present, fill. rewrite filter_cons. cbn [zip zip_with foldl fst snd].
  destruct (f_omit f t) eqn:Eo; cbn [decide].
  - rewrite decide_False by done. by apply IH.
  - rewrite decide_True by done. rewrite fmap_cons. cbn [store].
    rewrite Hn, (law_set _ _ Hf) by done. by apply IH.
Qed.
Lemma Unmarshal_Marshal puts type zero t t' :
  Forall2 Lawful fields puts → NoDup (f_name <$> fields) →
  Forall (λ k, ValidString k = true) (f_name <$> fields) →
  fields_ok fields t → fill fields puts t zero = t' →
  Unmarshal fields type zero (Marshal fields t) = Ok (Some t').
Proof.
  intros Hl Hnd Hnames Hok Hput. unfold Unmarshal, Marshal.
  assert (∀ f, f ∈ fields → ∃ p, Lawful f p) as Hlaw.
  { intros f Hf. clear -Hl Hf. induction Hl; [by apply not_elem_of_nil in Hf|].
    apply elem_of_cons in Hf as [->|Hf]; eauto. }
  rewrite parse_print.
  - unfold encode. rewrite (store_encode fields puts);
      [|done|apply Forall_forall; intros f Hf; by apply find_field_name|done]. by rewrite Hput.
  - cbn. apply forallb_forall.
    intros kv (f & -> & [_ Hf]%list_elem_of_filter)%list_elem_of_In%list_elem_of_fmap.
    destruct (Hlaw f Hf) as [p Hp]. apply andb_true_intro. split.
    + cbn [fst]. apply (proj1 (Forall_forall _ _) Hnames). by apply list_elem_of_fmap_2.
    + apply (law_printable _ _ Hp). by apply (proj1 (Forall_forall _ _) Hok).
  - assert (height (encode fields t) ≤ 2)%nat as H; [|unfold maxNestingDepth; lia].
    unfold encode, present. cbn [height]. apply le_n_S. clear -Hlaw.
    assert (∀ f, f ∈ filter (λ f, f_omit f t = false) fields → (height (f_get f t) ≤ 1)%nat) as H.
    { intros f [_ Hf]%list_elem_of_filter. destruct (Hlaw f Hf) as [p Hp]. apply (law_flat _ _ Hp). }
    induction (filter _ fields) as [|f fs IH]; [cbn; lia|]. rewrite fmap_cons. cbn.
    pose proof (H f ltac:(left)). assert (∀ g, g ∈ fs → (height (f_get g t) ≤ 1)%nat) as Hfs
      by (intros g Hg; apply H; by right). specialize (IH Hfs). lia.
Qed.
End round_trip.

(** The fields of a struct are lawful and have keys of their own. *)
Ltac lawful :=
  lazymatch goal with
  | |- Forall2 _ ?fs _ => let fs' := eval red in fs in change fs with fs'
  end;
  repeat (apply Forall2_cons_2; [solve [eauto with lawful]|]); apply Forall2_nil_2.
Ltac names :=
  lazymatch goal with
  | |- context [f_name <$> ?fs] => let ns := eval cbv in (f_name <$> fs) in change (f_name <$> fs) with ns
  end; by_eval.

(** ** What was read is well formed *)
Section well_formed.
Context {T : Type} (fields : list (Field T)).
(** Whatever a field stores of a parsed value leaves the struct well formed. *)
Definition sound (f : Field T) : Prop :=
  ∀ v t t', texts_ok v → fields_ok fields t → f_set f v t = Done t' → fields_ok fields t'.
Lemma find_field_elem key f : find_field fields key = Some f → f ∈ fields.
Proof.
  unfold find_field. destruct (list_find _ fields) as [[i g]|] eqn:E.
  - intros [= <-]. apply list_find_Some in E as (Hi & _). by eapply list_elem_of_lookup_2.
  - intros ([i g] & (Hi & _)%list_find_Some & ->)%fmap_Some. by eapply list_elem_of_lookup_2.
Qed.
Lemma store_sound l t saved t' :
  (∀ f, f ∈ fields → sound f) → texts_ok (JObj l) → fields_ok fields t →
  store fields l t saved = Ok t' → fields_ok fields t'.
Proof.
  intros Hs. revert t saved. induction l as [|[k v] l IH]; intros t saved Ht Hok; cbn [store].
  - destruct saved; [done|]. by intros [= <-].
  - destruct Ht as [[_ Hv] Hl]. destruct (find_field fields k) as [f|] eqn:Ef; [|by eapply IH].
    apply find_field_elem in Ef. destruct (f_set f v t) as [t1|e|e] eqn:E; [|by eapply IH|done].
    eapply IH; [done|]. by eapply (Hs f).
Qed.
Lemma Unmarshal_sound struct zero b t :
  (∀ f, f ∈ fields → sound f) → fields_ok fields zero →
  Unmarshal fields struct zero b = Ok (Some t) → fields_ok fields t.
Proof.
  intros Hs Hz. unfold Unmarshal. destruct (parse b) as [j|] eqn:Ep; [|done].
  apply parse_texts in Ep. destruct j; try done.
  destruct (store _ _ _ _) eqn:E; [|done]. intros [= <-]. by eapply store_sound.
Qed.
End well_formed.

Section stored_values.
Context {T : Type} (struct name : string).
Lemma string_stored get set v (t t' : T) : texts_ok v →
  f_set (string_field struct name get set) v t = Done t' →
  t' = t ∨ ∃ s, ValidString s = true ∧ t' = set s t.
Proof. destruct v; cbn; intros ? H; simplify_eq; eauto. Qed.
Lemma uint_stored bits get set v (t t' : T) :
  f_set (uint_field struct name bits get set) v t = Done t' →
  t' = t ∨ ∃ z, 0 ≤ z < 2 ^ bits ∧ t' = set z t.
Proof.
  destruct v as [| |lit| | |]; cbn; intros H; simplify_eq; eauto.
  assert (∀ s acc n, strconv.digits 10 acc s = Some n → 0 ≤ acc → 0 ≤ n) as Hd.
  { induction s as [|c s IH]; cbn; intros acc n; [naive_solver|].
    destruct (hex.fromHexChar c); [|done]. case_bool_decide; [|done]. intros Hn ?. eapply IH; [done|lia]. }
  unfold ParseUint in H. destruct lit as [|c s]; [done|].
  destruct (strconv.digits 10 0 (String c s)) as [n|] eqn:E; [|done]. apply Hd in E; [|done].
  case_bool_decide; [|done]. case_bool_decide; [|done]. injection H as [= <-]. eauto.
Qed.
Lemma int64_stored get set v (t t' : T) :
  f_set (int64_field struct name get set) v t = Done t' →
  t' = t ∨ ∃ z, is_i64 z ∧ t' = set z t.
Proof.
  destruct v as [| |lit| | |]; cbn; intros H; simplify_eq; eauto.
  destruct (strconv.ParseInt 10 lit) as [n|] eqn:E; [|done]. injection H as [= <-].
  apply strconv.ParseInt_range in E. eauto.
Qed.
Lemma bool_stored get set v (t t' : T) :
  f_set (bool_field struct name get set) v t = Done t' → t' = t ∨ ∃ b, t' = set b t.
Proof. destruct v; cbn; intros H; simplify_eq; eauto. Qed.
Lemma texts_elements vs : texts_ok (JArr vs) → ∀ v, v ∈ vs → texts_ok v.
Proof.
  cbn. induction vs as [|x vs IH]; cbn; intros H v Hv; [by apply not_elem_of_nil in Hv|].
  destruct H as [Hx H]. apply elem_of_cons in Hv as [->|Hv]; [done|by apply IH].
Qed.
Lemma store_strings_valid vs b b' e : (∀ v, v ∈ vs → texts_ok v) →
  Forall (λ s, ValidString s = true) b → store_strings struct name vs b = (b', e) →
  Forall (λ s, ValidString s = true) b'.
Proof.
  revert b b' e. induction vs as [|v vs IH]; intros b b' e Hv Hb; cbn [store_strings].
  { by intros [= <- <-]. }
  destruct (store_strings _ _ vs (tl b)) as [rest e'] eqn:E.
  assert (Forall (λ s, ValidString s = true) rest) as Hr.
  { eapply (IH (tl b)); [|by destruct Hb|exact E]. intros; apply Hv; by right. }
  assert (ValidString match b with [] => "" | x :: _ => x end = true) as Hold by (by destruct Hb).
  pose proof (Hv v ltac:(left)) as Htext.
  destruct v; intros [= <- <-]; by constructor.
Qed.
Lemma strings_stored get backing set v (t t' : T) : texts_ok v →
  Forall (λ s, ValidString s = true) (backing t) →
  f_set (strings_field struct name get backing set) v t = Done t' →
  ∃ l b, Forall (λ s, ValidString s = true) l ∧ Forall (λ s, ValidString s = true) b ∧ t' = set l b t.
Proof.
  intros Hv Hb. destruct v as [| | | |vs|]; cbn; intros H; simplify_eq; [by exists [], []|].
  destruct vs as [|v vs]; [simplify_eq; by exists [], []|].
  destruct (store_strings _ _ _ _) as [b [e|]] eqn:E; [done|]. simplify_eq.
  assert (Forall (λ s, ValidString s = true) b) as Hb'.
  { eapply store_strings_valid; [|exact Hb|exact E]. intros w Hw. by apply (texts_elements _ Hv). }
  eexists _, b. split; [|split; [done|done]]. by apply Forall_take.
Qed.
End stored_values.

(** Each field of a struct is sound: it writes its own component only.  [stored_other]
    is for kinds of fields that are declared elsewhere. *)
Ltac stored_other H := fail.
Ltac stored H :=
  lazymatch type of H with
  | f_set (omitempty _ ?f) ?v ?t = ?r => change (f_set f v t = r) in H; stored H
  | f_set (string_field _ _ _ _) _ _ = _ =>
      apply string_stored in H as [->|(? & ? & ->)]; [done| |done]
  | f_set (uint_field _ _ _ _ _) _ _ = _ => apply uint_stored in H as [->|(? & ? & ->)]; [done|]
  | f_set (int64_field _ _ _ _) _ _ = _ => apply int64_stored in H as [->|(? & ? & ->)]; [done|]
  | f_set (bool_field _ _ _ _) _ _ = _ => apply bool_stored in H as [->|(? & ->)]; [done|]
  | f_set (strings_field _ _ _ _ _) _ _ = _ =>
      apply strings_stored in H as (? & ? & ? & ? & ->); [|done|done]
  | _ => stored_other H
  end.
Ltac all_sound :=
  lazymatch goal with |- ∀ f, f ∈ ?fs → _ => let fs' := eval red in fs in
    change (∀ f, f ∈ fs' → sound fs' f) end;
  let f := fresh "f" in let Hf := fresh "Hf" in let H := fresh "H" in
  intros f Hf; rewrite !elem_of_cons, elem_of_nil in Hf;
  destruct_or! Hf; subst; try done; intros v t t' Hv Hok H; stored H;
  destruct t; unfold fields_ok in *; rewrite !Forall_cons, Forall_nil in *; destruct_and! Hok;
  split_and!; done.

Ltac zero_ok := unfold fields_ok; repeat constructor; done.
