(* ===== verification/Messages.v ===== *)
(** * Custom message types and the message senders (src/messages)

    [types.go]: the numbering of the peerswap messages and their hex form on the
    wire.  [sender.go]: the redundant messenger, which sends once and then
    repeats from a goroutine, and the manager that holds at most one of them per
    swap. *)

From S2P Require Import Prelude GoLib.

(** ** types.go *)
Definition MessageType : Type := Z.

Definition BASE_MESSAGE_TYPE : Z := 42069.
Definition MESSAGETYPE_SWAPINREQUEST : MessageType := BASE_MESSAGE_TYPE - 1 + 1.
Definition MESSAGETYPE_SWAPOUTREQUEST : MessageType := BASE_MESSAGE_TYPE - 1 + 3.
Definition MESSAGETYPE_SWAPINAGREEMENT : MessageType := BASE_MESSAGE_TYPE - 1 + 5.
Definition MESSAGETYPE_SWAPOUTAGREEMENT : MessageType := BASE_MESSAGE_TYPE - 1 + 7.
Definition MESSAGETYPE_OPENINGTXBROADCASTED : MessageType := BASE_MESSAGE_TYPE - 1 + 9.
Definition MESSAGETYPE_CANCELED : MessageType := BASE_MESSAGE_TYPE - 1 + 11.
Definition MESSAGETYPE_COOPCLOSE : MessageType := BASE_MESSAGE_TYPE - 1 + 13.
Definition MESSAGETYPE_POLL : MessageType := BASE_MESSAGE_TYPE - 1 + 15.
Definition MESSAGETYPE_REQUEST_POLL : MessageType := BASE_MESSAGE_TYPE - 1 + 17.

Definition message_types : list MessageType :=
  [ MESSAGETYPE_SWAPINREQUEST; MESSAGETYPE_SWAPOUTREQUEST;
    MESSAGETYPE_SWAPINAGREEMENT; MESSAGETYPE_SWAPOUTAGREEMENT;
    MESSAGETYPE_OPENINGTXBROADCASTED; MESSAGETYPE_CANCELED;
    MESSAGETYPE_COOPCLOSE; MESSAGETYPE_POLL; MESSAGETYPE_REQUEST_POLL ].

Definition ErrNotPeerswapCustomMessage (msgType : string) : error :=
  ErrTyped "messages.ErrNotPeerswapCustomMessage"
    ("message type " +:+ msgType +:+ " is not a peerswap custom message").

(** [errors.Is(err, &ErrNotPeerswapCustomMessage{})]: the [Is] method of the
    error only looks at the type. *)
Definition is_not_peerswap_message (e : error) : bool :=
  match e with
  | ErrTyped t _ => bool_decide (t = "messages.ErrNotPeerswapCustomMessage")
  | _ => false
  end.

Definition PeerswapCustomMessageType (msgType : string) : result MessageType :=
  match strconv.ParseInt 16 msgType with
  | Err e => Err (ErrWrap ("could not parse hex string to message type: " +:+ Error e) e)
  | Ok msgTypeInt =>
      if bool_decide (msgTypeInt ∈ message_types) then Ok msgTypeInt
      else Err (ErrNotPeerswapCustomMessage msgType)
  end.

Definition MessageTypeToHexString (messageIndex : MessageType) : string :=
  strconv.FormatInt16 messageIndex.

(** ** sender.go *)

(** A running retry goroutine repeats one message to one peer. *)
Record Outgoing := mkOutgoing {
  out_peer : string;
  out_message : string;
  out_type : Z;
}.

(** The redundant messenger registered for a swap; [looping] is the message its
    goroutine repeats, [None] while (or when never) started. *)
Record RedundantMessenger := mkRedundant { looping : option Outgoing }.

Definition NewRedundantMessenger : RedundantMessenger := mkRedundant None.

(** [RedundantMessenger.SendMessage], given the answer of the first send: an
    error is returned before the goroutine is started. *)
Definition Redundant_SendMessage (first : option error) (o : Outgoing)
    (rm : RedundantMessenger) : RedundantMessenger * option error :=
  match first with
  | Some e => (rm, Some e)
  | None => (mkRedundant (Some o), None)
  end.

Definition ErrAlreadyHasASender (id : string) : error :=
  ErrTyped "messages.ErrAlreadyHasASender" ("already has a sender with id " +:+ id).

(** [Manager]: the messenger registered under each id. *)
Definition Manager_AddSender (id : string) (m : RedundantMessenger)
    (ms : gmap string RedundantMessenger)
    : gmap string RedundantMessenger * option error :=
  match ms !! id with
  | Some _ => (ms, Some (ErrAlreadyHasASender id))
  | None => (<[id := m]> ms, None)
  end.

(** [RemoveSender] closes the stop channel of the registered messenger, which
    ends its goroutine, and forgets it. *)
Definition Manager_RemoveSender (id : string) (ms : gmap string RedundantMessenger)
    : gmap string RedundantMessenger := delete id ms.

(** The messages a manager's goroutines send on the next tick. *)
Definition Manager_tick (ms : gmap string RedundantMessenger) : list Outgoing :=
  omap (λ kv, looping kv.2) (map_to_list ms).

(** ** Properties *)

Lemma message_types_custom t :
  t ∈ message_types → Z.odd t = true ∧ 32768 ≤ t < 65536.
Proof.
  revert t. apply Forall_forall. by_eval.
Qed.

Lemma message_types_NoDup : NoDup message_types.
Proof. by_eval. Qed.

Lemma hex_roundtrip t :
  t ∈ message_types → PeerswapCustomMessageType (MessageTypeToHexString t) = Ok t.
Proof.
  revert t. apply Forall_forall. by_eval.
Qed.

Lemma PeerswapCustomMessageType_sound s t :
  PeerswapCustomMessageType s = Ok t → t ∈ message_types ∧ strconv.ParseInt 16 s = Ok t.
Proof.
  unfold PeerswapCustomMessageType. destruct (strconv.ParseInt 16 s); [|done].
  case_bool_decide; [|done]. by intros [= ->].
Qed.

(** [RemoveSender] silences exactly the one id. *)
Lemma tick_after_remove id ms o :
  o ∈ Manager_tick (Manager_RemoveSender id ms) →
  ∃ id' rm, id' ≠ id ∧ ms !! id' = Some rm ∧ looping rm = Some o.
Proof.
  unfold Manager_tick, Manager_RemoveSender.
  intros ([id' rm] & Hin & Hl)%list_elem_of_omap.
  apply elem_of_map_to_list, lookup_delete_Some in Hin as [? ?]. cbn in *. eauto.
Qed.
