(* ===== verification/Premium.v ===== *)
(** * Premium rates (src/premium)

    [premium.go]: the parts-per-million rate, the rate lookup with its two
    fallbacks and the premium computation in int64.  [store.go]: the bbolt
    bucket of rates, keyed by the text [peer.asset.operation].

    bbolt is not part of the repository: a bucket is a finite map from keys to
    values, [None] is a missing bucket, and each transaction takes as [io] the
    error bbolt may return for it; a transaction with an error changes nothing. *)

From stdpp Require Import pretty.
From S2P Require Import Prelude GoLib.

(** ** Rates *)
Definition premiumRateParts : Z := 1000000.

Inductive AssetType := AsserUnspecified | BTC | LBTC.
Inductive OperationType := OperationUnspecified | SwapIn | SwapOut.

#[export] Instance AssetType_eq_dec : EqDecision AssetType.
Proof. solve_decision. Defined.
#[export] Instance OperationType_eq_dec : EqDecision OperationType.
Proof. solve_decision. Defined.

(** The int32 values of the enumerations, as [%d] prints them. *)
Definition AssetType_num (a : AssetType) : Z :=
  match a with AsserUnspecified => 0 | BTC => 1 | LBTC => 2 end.
Definition OperationType_num (o : OperationType) : Z :=
  match o with OperationUnspecified => 0 | SwapIn => 1 | SwapOut => 2 end.

Definition AssetType_String (a : AssetType) : string :=
  match a with AsserUnspecified => "Unspecified" | BTC => "BTC" | LBTC => "LBTC" end.
Definition OperationType_String (o : OperationType) : string :=
  match o with
  | OperationUnspecified => "Unspecified" | SwapIn => "SWAP_IN" | SwapOut => "SWAP_OUT"
  end.

Definition DefaultBTCSwapInPremiumRatePPM : Z := 0.
Definition DefaultBTCSwapOutPremiumRatePPM : Z := 2000.
Definition DefaultLBTCSwapInPremiumRatePPM : Z := 0.
Definition DefaultLBTCSwapOutPremiumRatePPM : Z := 1000.

(** The map of maps [DefaultPremiumRate]. *)
Definition DefaultPremiumRate (a : AssetType) : option (OperationType → option Z) :=
  match a with
  | BTC => Some (λ o, match o with
      | SwapIn => Some DefaultBTCSwapInPremiumRatePPM
      | SwapOut => Some DefaultBTCSwapOutPremiumRatePPM
      | _ => None end)
  | LBTC => Some (λ o, match o with
      | SwapIn => Some DefaultLBTCSwapInPremiumRatePPM
      | SwapOut => Some DefaultLBTCSwapOutPremiumRatePPM
      | _ => None end)
  | AsserUnspecified => None
  end.

Record PPM := NewPPM { ppmValue : Z }.

Record PremiumRate := mkPremiumRate {
  pr_asset : AssetType;
  pr_operation : OperationType;
  pr_premiumRate : PPM;
}.

Definition NewPremiumRate (asset : AssetType) (operation : OperationType) (premiumRate : PPM)
    : result PremiumRate :=
  if bool_decide (asset = AsserUnspecified) then Err (ErrText "invalid asset type")
  else if bool_decide (operation = OperationUnspecified)
  then Err (ErrText "invalid operation type")
  else Ok (mkPremiumRate asset operation premiumRate).

(** [PPM.Compute]: [int64(amtSat) * ppmValue / premiumRateParts]. *)
Definition PPM_Compute (p : PPM) (amtSat : Z) : Z :=
  i64 (i64 (i64 amtSat * ppmValue p) ÷ premiumRateParts).

(** ** store.go *)
Definition bucket : Type := option (gmap string string).

Definition ErrRateNotFound : error := ErrSentinel "premium.ErrRateNotFound" "Rate not found".
Definition errBucketNotFound : error := ErrText "Bucket not found".
Definition defaultPeerID : string := "default".

Definition rate_key (peer : string) (asset : AssetType) (operation : OperationType) : string :=
  peer +:+ "." +:+ strconv.Itoa (AssetType_num asset) +:+ "." +:+
  strconv.Itoa (OperationType_num operation).

Definition Store_SetRate (io : option error) (peer : string) (rate : PremiumRate) (b : bucket)
    : bucket * option error :=
  match io, b with
  | Some e, _ => (b, Some e)
  | None, None => (b, Some errBucketNotFound)
  | None, Some m =>
      let key := rate_key peer (pr_asset rate) (pr_operation rate) in
      let value := strconv.Itoa (ppmValue (pr_premiumRate rate)) in
      (Some (<[key := value]> m), None)
  end.

Definition Store_DeleteRate (io : option error) (peer : string) (asset : AssetType)
    (operation : OperationType) (b : bucket) : bucket * option error :=
  match io, b with
  | Some e, _ => (b, Some e)
  | None, None => (b, Some errBucketNotFound)
  | None, Some m => (Some (delete (rate_key peer asset operation) m), None)
  end.

(** [fmt.Sscanf(value, "%d")] is read as [Atoi]: the values of the bucket are
    the ones [SetRate] printed. *)
Definition Store_GetRate (io : option error) (peer : string) (asset : AssetType)
    (operation : OperationType) (b : bucket) : result PremiumRate :=
  match io, b with
  | Some e, _ => Err e
  | None, None => Err errBucketNotFound
  | None, Some m =>
      match m !! rate_key peer asset operation with
      | None => Err ErrRateNotFound
      | Some value =>
          match strconv.Atoi value with
          | Err e => Err e
          | Ok rate => NewPremiumRate asset operation (NewPPM rate)
          end
      end
  end.

Definition Store_SetDefaultRate (io : option error) (rate : PremiumRate) (b : bucket)
    : bucket * option error := Store_SetRate io defaultPeerID rate b.
Definition Store_GetDefaultRate (io : option error) (asset : AssetType)
    (operation : OperationType) (b : bucket) : result PremiumRate :=
  Store_GetRate io defaultPeerID asset operation b.

(** ** Setting *)
Definition Setting_GetDefaultRate (io : option error) (asset : AssetType)
    (operation : OperationType) (b : bucket) : result PremiumRate :=
  match Store_GetDefaultRate io asset operation b with
  | Ok rate => Ok rate
  | Err e =>
      if errors_Is e ErrRateNotFound then
        match DefaultPremiumRate asset with
        | None => Err (ErrText ("no default premium rate configured for asset " +:+
                                  AssetType_String asset))
        | Some ratesByAsset =>
            match ratesByAsset operation with
            | None => Err (ErrText ("no default premium rate configured for asset " +:+
                  AssetType_String asset +:+ " and operation " +:+
                  OperationType_String operation))
            | Some value => NewPremiumRate asset operation (NewPPM value)
            end
        end
      else Err e
  end.

(** The peer's rate, else the stored default, else the built-in default.  The
    two reads are two transactions, [io] and [io']. *)
Definition Setting_GetRate (io io' : option error) (peerID : string) (asset : AssetType)
    (operation : OperationType) (b : bucket) : result PremiumRate :=
  match Store_GetRate io peerID asset operation b with
  | Ok rate => Ok rate
  | Err e =>
      if errors_Is e ErrRateNotFound then Setting_GetDefaultRate io' asset operation b
      else Err e
  end.

Definition Setting_SetRate := Store_SetRate.
Definition Setting_DeleteRate := Store_DeleteRate.
Definition Setting_SetDefaultRate := Store_SetDefaultRate.

Definition Setting_Compute (io io' : option error) (peerID : string) (asset : AssetType)
    (operation : OperationType) (amtSat : Z) (b : bucket) : result Z :=
  match Setting_GetRate io io' peerID asset operation b with
  | Err e => Err e
  | Ok rate => Ok (PPM_Compute (pr_premiumRate rate) amtSat)
  end.

(** ** Properties *)

Definition specified (a : AssetType) (o : OperationType) : Prop :=
  a ≠ AsserUnspecified ∧ o ≠ OperationUnspecified.

(** The key of a rate determines peer, asset and operation: the suffix after the
    peer has a fixed length. *)
Lemma rate_key_inj p1 a1 o1 p2 a2 o2 :
  rate_key p1 a1 o1 = rate_key p2 a2 o2 → p1 = p2 ∧ a1 = a2 ∧ o1 = o2.
Proof.
  unfold rate_key. intros [-> H]%append_inj_suffix.
  - destruct a1, o1, a2, o2; vm_compute in H; try discriminate; done.
  - by destruct a1, o1, a2, o2.
Qed.

(** The abstract rate table: what is stored for peer, asset and operation. *)
Definition rate_table : Type := string → AssetType → OperationType → option Z.

Definition represents (m : gmap string string) (T : rate_table) : Prop :=
  ∀ p a o, specified a o →
    m !! rate_key p a o = strconv.Itoa <$> T p a o ∧ (∀ v, T p a o = Some v → is_i64 v).

Definition table_set (T : rate_table) (p : string) (a : AssetType) (o : OperationType)
    (v : option Z) : rate_table := λ p' a' o',
  if bool_decide (p' = p ∧ a' = a ∧ o' = o) then v else T p' a' o'.

(** The rate in force: the peer's, else the stored default, else the built-in. *)
Definition effective_rate (T : rate_table) (p : string) (a : AssetType) (o : OperationType)
    : Z :=
  default (default (default 0 (DefaultPremiumRate a ≫= λ f, f o))
             (T defaultPeerID a o)) (T p a o).

Lemma NewPremiumRate_specified a o r :
  specified a o → NewPremiumRate a o r = Ok (mkPremiumRate a o r).
Proof. intros [??]. unfold NewPremiumRate. by rewrite !bool_decide_false. Qed.

Lemma represents_update m T p a o v v' :
  represents m T → v' = strconv.Itoa <$> v → (∀ z, v = Some z → is_i64 z) →
  represents (partial_alter (λ _, v') (rate_key p a o) m) (table_set T p a o v).
Proof.
  intros Hrep -> Hv p' a' o' Hs. unfold table_set.
  case_bool_decide as Heq.
  - destruct Heq as (-> & -> & ->). by rewrite lookup_partial_alter_eq.
  - rewrite lookup_partial_alter_ne; [by apply Hrep|].
    intros (-> & -> & ->)%rate_key_inj. naive_solver.
Qed.

Lemma Store_GetRate_represents m T p a o :
  represents m T → specified a o →
  Store_GetRate None p a o (Some m) =
    match T p a o with
    | Some v => Ok (mkPremiumRate a o (NewPPM v))
    | None => Err ErrRateNotFound
    end.
Proof.
  intros Hrep Hs. destruct (Hrep p a o Hs) as [Hm Hi]. unfold Store_GetRate. rewrite Hm.
  destruct (T p a o) as [v|]; cbn; [|done].
  rewrite strconv.Atoi_Itoa by auto. by apply NewPremiumRate_specified.
Qed.

Lemma builtin_rate a o :
  specified a o → ∃ f v, DefaultPremiumRate a = Some f ∧ f o = Some v.
Proof. intros [??]. destruct a, o; try done; eauto. Qed.

(** The premium store implements the abstract rate table: storing and
    deleting a rate through the bbolt bucket, with its textual keys and values,
    are the table updates for that peer, asset and operation alone, and a
    successful lookup always yields the peer's rate, else the stored default,
    else the built-in default of premium.go. *)
Theorem premium_store_refines_table m T peer rate asset operation :
  represents m T →
  specified (pr_asset rate) (pr_operation rate) →
  is_i64 (ppmValue (pr_premiumRate rate)) →
  specified asset operation →
  (∃ m', Setting_SetRate None peer rate (Some m) = (Some m', None) ∧
     represents m' (table_set T peer (pr_asset rate) (pr_operation rate)
                      (Some (ppmValue (pr_premiumRate rate))))) ∧
  (∃ m', Setting_DeleteRate None peer asset operation (Some m) = (Some m', None) ∧
     represents m' (table_set T peer asset operation None)) ∧
  Setting_GetRate None None peer asset operation (Some m) =
    Ok (mkPremiumRate asset operation (NewPPM (effective_rate T peer asset operation))).
Proof.
  intros Hrep Hr Hi Hs. split_and!.
  - eexists. split; [done|]. apply represents_update; [done..|]. by intros ? [= <-].
  - eexists. split; [done|]. by apply represents_update.
  - unfold Setting_GetRate, Setting_GetDefaultRate, Store_GetDefaultRate, effective_rate.
    rewrite !(Store_GetRate_represents m T) by done.
    destruct (builtin_rate asset operation Hs) as (f & v & Hf & Hv).
    destruct (T peer asset operation); [done|].
    destruct (T defaultPeerID asset operation); [done|].
    cbn. rewrite Hf. cbn. rewrite Hv. by apply NewPremiumRate_specified.
Qed.

Example premium_store_refines_table_witness :
  Setting_GetRate None None "02aa" LBTC SwapOut (Some ∅) =
  Ok (mkPremiumRate LBTC SwapOut (NewPPM 1000)).
Proof.
  apply (premium_store_refines_table ∅ (λ _ _ _, None) "02aa"
           (mkPremiumRate BTC SwapIn (NewPPM 5)) LBTC SwapOut).
  - intros p a o _. split; [apply lookup_empty|done].
  - done.
  - vm_compute. split; congruence.
  - done.
Defined.

(** Within int64, a premium is the exact parts-per-million share of the
    amount rounded toward zero, it grows with the rate, and for a rate of at
    most 100 percent in either direction it never exceeds the amount. *)
Theorem premium_compute_exact amtSat ppm :
  0 ≤ amtSat < 2 ^ 63 → is_i64 (amtSat * ppm) →
  PPM_Compute (NewPPM ppm) amtSat = (amtSat * ppm) ÷ premiumRateParts ∧
  (Z.abs ppm ≤ premiumRateParts → Z.abs (PPM_Compute (NewPPM ppm) amtSat) ≤ amtSat) ∧
  (∀ ppm', is_i64 (amtSat * ppm') → ppm ≤ ppm' →
     PPM_Compute (NewPPM ppm) amtSat ≤ PPM_Compute (NewPPM ppm') amtSat).
Proof.
  intros Ha Hp.
  assert (∀ q, is_i64 (amtSat * q) →
    PPM_Compute (NewPPM q) amtSat = (amtSat * q) ÷ premiumRateParts) as Hexact.
  { intros q Hq. unfold PPM_Compute, premiumRateParts in *. cbn.
    rewrite (i64_small amtSat) by (unfold is_i64; lia).
    rewrite (i64_small (amtSat * q)) by done.
    apply i64_small. unfold is_i64 in *.
    pose proof (Z.quot_le_mono (amtSat * q) (2 ^ 63 - 1) 1000000).
    pose proof (Z.quot_le_mono (- 2 ^ 63) (amtSat * q) 1000000).
    change ((2 ^ 63 - 1) ÷ 1000000) with 9223372036854 in *.
    change (- 2 ^ 63 ÷ 1000000) with (-9223372036854) in *. lia. }
  split_and!; [by apply Hexact|..].
  - rewrite Hexact by done. intros Habs. unfold premiumRateParts in *.
    rewrite <- Z.quot_abs by done. rewrite Z.abs_mul, (Z.abs_eq amtSat) by lia.
    change (Z.abs 1000000) with 1000000.
    apply Z.quot_le_upper_bound; nia.
  - intros ppm' Hp' Hle. rewrite !Hexact by done.
    apply Z.quot_le_mono; unfold premiumRateParts; nia.
Qed.

Example premium_compute_exact_witness :
  PPM_Compute (NewPPM 2000) 1000000 = 2000.
Proof.
  destruct (premium_compute_exact 1000000 2000) as [H _];
    [lia|vm_compute; split; congruence|exact H].
Defined.
