(* ===== verification/SwapData.v ===== *)
(** * The data of a swap (src/swap/swap.go, src/swap/messages.go)

    The swap id, the seven peer messages with their validation and the way each
    is recorded in the swap, the [SwapData] record and its getters.  A nil
    pointer is [None]; a getter that dereferences a pointer without checking it
    returns an [option], [None] standing for the Go panic. *)

From S2P Require Import Prelude GoLib Messages.

(** ** Swap ids: [type SwapId [32]byte] *)
Definition SwapId : Type := string.

Definition SwapId_wf (id : SwapId) : Prop := String.length id = 32%nat.

(** [SwapId.String], nil-safe. *)
Definition SwapId_String (s : option SwapId) : string :=
  match s with None => "" | Some id => hex.EncodeToString id end.

(** [Short]: [s.String()[:6]], which panics on a nil id. *)
Definition SwapId_Short (s : option SwapId) : option string :=
  let str := SwapId_String s in
  if bool_decide (6 ≤ String.length str)%nat then Some (String.substring 0 6 str) else None.

Definition ParseSwapIdFromString (str : string) : result SwapId :=
  match hex.DecodeString str with
  | (_, Some err) => Err err
  | (data, None) =>
      if bool_decide (String.length data = 32%nat) then Ok data
      else Err (ErrText "can not decode string: invalid length")
  end.

(** [SwapId.FromString] overwrites the array only on success. *)
Definition SwapId_FromString (str : string) (s : SwapId) : SwapId * option error :=
  match ParseSwapIdFromString str with
  | Ok data => (data, None)
  | Err e => (s, Some e)
  end.

(** ** Chains (src/swap/services.go) *)
Definition btc_chain : string := "btc".
Definition l_btc_chain : string := "lbtc".

(** ** Enumerations *)
Inductive SwapType := SWAPTYPE_NONE | SWAPTYPE_IN | SWAPTYPE_OUT.
Inductive SwapRole := SWAPROLE_NONE | SWAPROLE_SENDER | SWAPROLE_RECEIVER.
Inductive InvoiceType := INVOICE_CLAIM | INVOICE_FEE | INVOICE_OTHER (n : Z).

#[export] Instance SwapType_eq_dec : EqDecision SwapType.
Proof. solve_decision. Defined.
#[export] Instance SwapRole_eq_dec : EqDecision SwapRole.
Proof. solve_decision. Defined.
#[export] Instance InvoiceType_eq_dec : EqDecision InvoiceType.
Proof. solve_decision. Defined.

Definition SwapType_String (s : SwapType) : string :=
  match s with SWAPTYPE_OUT => "swap-out" | SWAPTYPE_IN => "swap-in" | _ => "" end.
Definition SwapType_JsonFieldValue (s : SwapType) : string :=
  match s with
  | SWAPTYPE_OUT => "swap_out" | SWAPTYPE_IN => "swap_in" | _ => "unknown_swap_type"
  end.
Definition SwapRole_String (s : SwapRole) : string :=
  match s with SWAPROLE_SENDER => "sender" | SWAPROLE_RECEIVER => "receiver" | _ => "" end.
Definition InvoiceType_String (i : InvoiceType) : string :=
  match i with INVOICE_CLAIM => "claim" | INVOICE_FEE => "fee" | _ => "" end.

(** ** States and events (src/swap/states.go)

    Go represents both as strings; [Default] is the empty state. *)
Inductive StateType :=
  | Default
  (* shared *)
  | State_SendCancel | State_SwapCanceled | State_WaitCsv
  | State_ClaimedCsv | State_ClaimedPreimage | State_ClaimedCoop
  (* swap-out sender *)
  | State_SwapOutSender_CreateSwap | State_SwapOutSender_SendRequest
  | State_SwapOutSender_AwaitAgreement | State_SwapOutSender_PayFeeInvoice
  | State_SwapOutSender_AwaitTxBroadcastedMessage
  | State_SwapOutSender_AwaitTxConfirmation
  | State_SwapOutSender_ValidateTxAndPayClaimInvoice
  | State_SwapOutSender_ClaimSwap | State_SwapOutSender_SendPrivkey
  | State_SwapOutSender_SendCoopClose
  (* swap-out receiver *)
  | State_SwapOutReceiver_CreateSwap | State_SwapOutReceiver_SendFeeInvoice
  | State_SwapOutReceiver_AwaitFeeInvoicePayment
  | State_SwapOutReceiver_BroadcastOpeningTx
  | State_SwapOutReceiver_SendTxBroadcastedMessage
  | State_SwapOutReceiver_AwaitClaimInvoicePayment
  | State_SwapOutReceiver_ClaimSwapCsv | State_SwapOutReceiver_ClaimSwapCoop
  (* swap-in sender *)
  | State_SwapInSender_CreateSwap | State_SwapInSender_SendRequest
  | State_SwapInSender_AwaitAgreement | State_SwapInSender_BroadcastOpeningTx
  | State_SwapInSender_SendTxBroadcastedMessage
  | State_SwapInSender_AwaitClaimPayment
  | State_SwapInSender_ClaimSwapCsv | State_SwapInSender_ClaimSwapCoop
  (* swap-in receiver *)
  | State_SwapInReceiver_CreateSwap | State_SwapInReceiver_SendAgreement
  | State_SwapInReceiver_AwaitTxBroadcastedMessage
  | State_SwapInReceiver_AwaitTxConfirmation
  | State_SwapInReceiver_ValidateTxAndPayClaimInvoice
  | State_SwapInReceiver_ClaimSwap | State_SwapInReceiver_SendPrivkey
  | State_SwapInReceiver_SendCoopClose.

Inductive EventType :=
  | NoOp
  | Event_OnSwapOutStarted | Event_OnFeeInvoiceReceived
  | Event_OnTxOpenedMessage | Event_OnTxConfirmed
  | Event_OnRetry | Event_OnClaimedCsv
  | Event_OnSwapOutRequestReceived
  | Event_OnFeeInvoicePaid | Event_OnClaimInvoicePaid | Event_OnCsvPassed
  | Event_OnCancelReceived | Event_OnCoopCloseReceived
  | Event_OnTimeout
  | Event_ActionSucceeded
  | Event_SwapInSender_OnSwapInRequested | Event_SwapInSender_OnAgreementReceived
  | Event_ActionFailed
  | Event_SwapInReceiver_OnRequestReceived
  | Event_Done
  | Event_OnInvalid_Message.

#[export] Instance StateType_eq_dec : EqDecision StateType.
Proof. solve_decision. Defined.
#[export] Instance EventType_eq_dec : EqDecision EventType.
Proof. solve_decision. Defined.

(** ** Peer messages *)
Module SwapInRequestMessage.
Record t := mk {
  ProtocolVersion : Z;
  SwapId : option SwapId;
  Network : string;
  Asset : string;
  Scid : string;
  Amount : Z;
  Pubkey : string;
  PremiumLimit : Z;
}.
#[global] Instance eq_dec : EqDecision t.
Proof. solve_decision. Defined.
End SwapInRequestMessage.

Module SwapInAgreementMessage.
Record t := mk {
  ProtocolVersion : Z;
  SwapId : option SwapId;
  Pubkey : string;
  Premium : Z;
}.
#[global] Instance eq_dec : EqDecision t.
Proof. solve_decision. Defined.
End SwapInAgreementMessage.

Module SwapOutRequestMessage.
Record t := mk {
  ProtocolVersion : Z;
  SwapId : option SwapId;
  Asset : string;
  Network : string;
  Scid : string;
  Amount : Z;
  Pubkey : string;
  PremiumLimit : Z;
}.
#[global] Instance eq_dec : EqDecision t.
Proof. solve_decision. Defined.
End SwapOutRequestMessage.

Module SwapOutAgreementMessage.
Record t := mk {
  ProtocolVersion : Z;
  SwapId : option SwapId;
  Pubkey : string;
  Payreq : string;
  Premium : Z;
}.
#[global] Instance eq_dec : EqDecision t.
Proof. solve_decision. Defined.
End SwapOutAgreementMessage.

Module OpeningTxBroadcastedMessage.
Record t := mk {
  SwapId : option SwapId;
  Payreq : string;
  TxId : string;
  ScriptOut : Z;
  BlindingKey : string;
}.
#[global] Instance eq_dec : EqDecision t.
Proof. solve_decision. Defined.
End OpeningTxBroadcastedMessage.

Module CancelMessage.
Record t := mk { SwapId : option SwapId; Message : string }.
#[global] Instance eq_dec : EqDecision t.
Proof. solve_decision. Defined.
End CancelMessage.

Module CoopCloseMessage.
Record t := mk { SwapId : option SwapId; Message : string; Privkey : string }.
#[global] Instance eq_dec : EqDecision t.
Proof. solve_decision. Defined.
End CoopCloseMessage.

(** The values of the interface [PeerMessage]. *)
Inductive PeerMessage :=
  | MsgSwapInRequest (m : SwapInRequestMessage.t)
  | MsgSwapInAgreement (m : SwapInAgreementMessage.t)
  | MsgSwapOutRequest (m : SwapOutRequestMessage.t)
  | MsgSwapOutAgreement (m : SwapOutAgreementMessage.t)
  | MsgOpeningTxBroadcasted (m : OpeningTxBroadcastedMessage.t)
  | MsgCancel (m : CancelMessage.t)
  | MsgCoopClose (m : CoopCloseMessage.t).

#[export] Instance PeerMessage_eq_dec : EqDecision PeerMessage.
Proof. solve_decision. Defined.

Definition PeerMessage_MessageType (m : PeerMessage) : MessageType :=
  match m with
  | MsgSwapInRequest _ => MESSAGETYPE_SWAPINREQUEST
  | MsgSwapInAgreement _ => MESSAGETYPE_SWAPINAGREEMENT
  | MsgSwapOutRequest _ => MESSAGETYPE_SWAPOUTREQUEST
  | MsgSwapOutAgreement _ => MESSAGETYPE_SWAPOUTAGREEMENT
  | MsgOpeningTxBroadcasted _ => MESSAGETYPE_OPENINGTXBROADCASTED
  | MsgCancel _ => MESSAGETYPE_CANCELED
  | MsgCoopClose _ => MESSAGETYPE_COOPCLOSE
  end.

(** ** Validation (src/swap/messages.go) *)
Definition AlreadyExistsError : error :=
  ErrSentinel "swap.AlreadyExistsError" "Message already exists".
Definition InvalidNetworkError : error :=
  ErrSentinel "swap.InvalidNetworkError" "Invalid network".
Definition InvalidScidError : error := ErrSentinel "swap.InvalidScidError" "Invalid Scid".
Definition AssetOrNetworkSetError : error :=
  ErrSentinel "swap.AssetOrNetworkSetError" "Either asset or network must be set".
Definition NewInvalidLengthError (paramName : string) (expected actual : nat) : error :=
  ErrText ("Param " +:+ paramName +:+ " is of invalid length expected: " +:+
           strconv.Itoa (Z.of_nat expected) +:+ ", actual " +:+
           strconv.Itoa (Z.of_nat actual)).

Definition validateHexString (paramName hexString : string) (expectedLength : nat)
    : option error :=
  match hex.DecodeString hexString with
  | (_, Some err) => Some err
  | (data, None) =>
      if bool_decide (String.length data = expectedLength) then None
      else Some (NewInvalidLengthError paramName expectedLength (String.length data))
  end.

Definition validateNetwork (network : string) : option error :=
  if bool_decide (network ∈
       ["mainnet"; "testnet"; "testnet3"; "testnet4"; "signet"; "regtest"]) then None
  else Some InvalidNetworkError.

Definition validateAssetAndNetwork (asset network : string) : option error :=
  if bool_decide ((asset = "" ∧ network = "") ∨ (asset ≠ "" ∧ network ≠ ""))
  then Some AssetOrNetworkSetError
  else
    match (if bool_decide (asset ≠ "") then validateHexString "asset" asset 33 else None) with
    | Some err => Some err
    | None => if bool_decide (network ≠ "") then validateNetwork network else None
    end.

(** The three parts of the id are converted, and each conversion overwrites the
    error of the one before: only the error of the last part is looked at. *)
Definition validateScid (scid : string) : option error :=
  let prefix :=
    if strings.Contains scid "x" then Some "x"%char
    else if strings.Contains scid ":" then Some ":"%char else None in
  match prefix with
  | None => Some InvalidScidError
  | Some prefix =>
      match strings.Split scid prefix with
      | [p0; p1; p2] =>
          let err := strconv.Atoi p0 in
          let err := strconv.Atoi p1 in
          let err := strconv.Atoi p2 in
          match err with Err _ => Some InvalidScidError | Ok _ => None end
      | _ => Some InvalidScidError
      end
  end.

(** ** SwapData *)
Record SwapData := mkSwapData {
  SwapInRequest : option SwapInRequestMessage.t;
  SwapInAgreement : option SwapInAgreementMessage.t;
  SwapOutRequest : option SwapOutRequestMessage.t;
  SwapOutAgreement : option SwapOutAgreementMessage.t;
  OpeningTxBroadcasted : option OpeningTxBroadcastedMessage.t;
  CoopClose : option CoopCloseMessage.t;
  Cancel : option CancelMessage.t;
  CancelMessage : string;
  PeerNodeId : string;
  InitiatorNodeId : string;
  CreatedAt : Z;
  Role : SwapRole;
  FSMState : StateType;
  PrivkeyBytes : string;
  FeePreimage : string;
  OpeningTxFee : Z;
  OpeningTxHex : string;
  StartingBlockHeight : Z;
  ClaimTxId : string;
  ClaimPaymentHash : string;
  ClaimPreimage : string;
  StartingBlockHeightSet : bool;
  BlindingKeyHex : string;
  NextMessage : option string;
  NextMessageType : Z;
  LastErr : option error;
  LastErrString : string;
  toCancel : bool;
}.

#[export] Instance SwapData_eta : Eta SwapData := λ d, mkSwapData
  (SwapInRequest d) (SwapInAgreement d) (SwapOutRequest d) (SwapOutAgreement d)
  (OpeningTxBroadcasted d) (CoopClose d) (Cancel d) (CancelMessage d) (PeerNodeId d)
  (InitiatorNodeId d) (CreatedAt d) (Role d) (FSMState d) (PrivkeyBytes d)
  (FeePreimage d) (OpeningTxFee d) (OpeningTxHex d) (StartingBlockHeight d)
  (ClaimTxId d) (ClaimPaymentHash d) (ClaimPreimage d) (StartingBlockHeightSet d)
  (BlindingKeyHex d) (NextMessage d) (NextMessageType d) (LastErr d)
  (LastErrString d) (toCancel d).

#[export] Instance SwapData_eq_dec : EqDecision SwapData.
Proof. solve_decision. Defined.

(** The zero value of the struct. *)
Definition SwapData_zero : SwapData := {|
  SwapInRequest := None; SwapInAgreement := None; SwapOutRequest := None;
  SwapOutAgreement := None; OpeningTxBroadcasted := None; CoopClose := None;
  Cancel := None; CancelMessage := ""; PeerNodeId := ""; InitiatorNodeId := "";
  CreatedAt := 0; Role := SWAPROLE_NONE; FSMState := Default; PrivkeyBytes := "";
  FeePreimage := ""; OpeningTxFee := 0; OpeningTxHex := ""; StartingBlockHeight := 0;
  ClaimTxId := ""; ClaimPaymentHash := ""; ClaimPreimage := "";
  StartingBlockHeightSet := false; BlindingKeyHex := ""; NextMessage := None;
  NextMessageType := 0; LastErr := None; LastErrString := ""; toCancel := false |}.

Definition NewSwapData (privkey : string) (now : Z) (initiatorNodeId peerNodeId : string)
    : SwapData :=
  SwapData_zero <| PeerNodeId := peerNodeId |> <| InitiatorNodeId := initiatorNodeId |>
    <| PrivkeyBytes := privkey |> <| CreatedAt := now |> <| Role := SWAPROLE_SENDER |>.

Definition NewSwapDataFromRequest (privkey : string) (now : Z) (senderNodeId : string)
    : SwapData :=
  SwapData_zero <| PeerNodeId := senderNodeId |> <| InitiatorNodeId := senderNodeId |>
    <| CreatedAt := now |> <| PrivkeyBytes := privkey |> <| Role := SWAPROLE_RECEIVER |>.

(** *** Getters *)
Section getters.
Context (s : SwapData).

Definition GetId : option SwapId :=
  match SwapInRequest s, SwapOutRequest s, SwapInAgreement s, SwapOutAgreement s with
  | Some m, _, _, _ => SwapInRequestMessage.SwapId m
  | _, Some m, _, _ => SwapOutRequestMessage.SwapId m
  | _, _, Some m, _ => SwapInAgreementMessage.SwapId m
  | _, _, _, Some m => SwapOutAgreementMessage.SwapId m
  | _, _, _, _ => None
  end.

Definition GetProtocolVersion : Z :=
  match SwapInRequest s, SwapOutRequest s, SwapInAgreement s, SwapOutAgreement s with
  | Some m, _, _, _ => SwapInRequestMessage.ProtocolVersion m
  | _, Some m, _, _ => SwapOutRequestMessage.ProtocolVersion m
  | _, _, Some m, _ => SwapInAgreementMessage.ProtocolVersion m
  | _, _, _, Some m => SwapOutAgreementMessage.ProtocolVersion m
  | _, _, _, _ => 0
  end.

Definition GetType : SwapType :=
  match SwapInRequest s, SwapOutRequest s with
  | Some _, _ => SWAPTYPE_IN
  | _, Some _ => SWAPTYPE_OUT
  | _, _ => SWAPTYPE_NONE
  end.

Definition GetScid : string :=
  match SwapInRequest s, SwapOutRequest s with
  | Some m, _ => SwapInRequestMessage.Scid m
  | _, Some m => SwapOutRequestMessage.Scid m
  | _, _ => ""
  end.

Definition GetScidInBoltFormat : string :=
  match SwapInRequest s, SwapOutRequest s with
  | Some m, _ => strings.ReplaceAll (SwapInRequestMessage.Scid m) ":" "x"
  | _, Some m => strings.ReplaceAll (SwapOutRequestMessage.Scid m) ":" "x"
  | _, _ => ""
  end.

Definition GetAmount : Z :=
  match SwapInRequest s, SwapOutRequest s with
  | Some m, _ => SwapInRequestMessage.Amount m
  | _, Some m => SwapOutRequestMessage.Amount m
  | _, _ => 0
  end.

(** [uint64(int64(Amount) + Premium)], with the agreement dereferenced. *)
Definition GetClaimAmount : option Z :=
  match SwapInRequest s, SwapOutRequest s with
  | Some m, _ => Some (SwapInRequestMessage.Amount m)
  | _, Some m =>
      a ← SwapOutAgreement s;
      Some (u64 (i64 (i64 (SwapOutRequestMessage.Amount m) +
                      SwapOutAgreementMessage.Premium a)))
  | _, _ => Some 0
  end.

Definition GetOpeningTXAmount : option Z :=
  match SwapInRequest s, SwapOutRequest s with
  | Some m, _ =>
      a ← SwapInAgreement s;
      Some (u64 (i64 (i64 (SwapInRequestMessage.Amount m) +
                      SwapInAgreementMessage.Premium a)))
  | _, Some m => Some (SwapOutRequestMessage.Amount m)
  | _, _ => Some 0
  end.

Definition GetAsset : string :=
  match SwapInRequest s, SwapOutRequest s with
  | Some m, _ => SwapInRequestMessage.Asset m
  | _, Some m => SwapOutRequestMessage.Asset m
  | _, _ => ""
  end.

Definition GetPremium : Z :=
  match SwapInAgreement s, SwapOutAgreement s with
  | Some m, _ => SwapInAgreementMessage.Premium m
  | _, Some m => SwapOutAgreementMessage.Premium m
  | _, _ => 0
  end.

Definition GetNetwork : string :=
  match SwapInRequest s, SwapOutRequest s with
  | Some m, _ => SwapInRequestMessage.Network m
  | _, Some m => SwapOutRequestMessage.Network m
  | _, _ => ""
  end.

(** "lbtc" when only the asset is set, "btc" when only the network is. *)
Definition GetChain : string :=
  if bool_decide (GetAsset ≠ "" ∧ GetNetwork = "") then l_btc_chain
  else if bool_decide (GetAsset = "" ∧ GetNetwork ≠ "") then btc_chain
  else "".

Definition GetInvoiceExpiry : Z :=
  if bool_decide (GetChain = btc_chain) then 3600 * 24
  else if bool_decide (GetChain = l_btc_chain) then 3600 else 0.

Definition GetMakerPubkey : string :=
  match SwapInRequest s, SwapOutAgreement s with
  | Some m, _ => SwapInRequestMessage.Pubkey m
  | _, Some m => SwapOutAgreementMessage.Pubkey m
  | _, _ => ""
  end.

Definition GetTakerPubkey : string :=
  match SwapOutRequest s, SwapInAgreement s with
  | Some m, _ => SwapOutRequestMessage.Pubkey m
  | _, Some m => SwapInAgreementMessage.Pubkey m
  | _, _ => ""
  end.

Definition GetRequest : option PeerMessage :=
  match SwapInRequest s, SwapOutRequest s with
  | Some m, _ => Some (MsgSwapInRequest m)
  | _, Some m => Some (MsgSwapOutRequest m)
  | _, _ => None
  end.

Definition GetOpeningTxId : string :=
  match OpeningTxBroadcasted s with
  | Some m => OpeningTxBroadcastedMessage.TxId m
  | None => ""
  end.

Definition GetCancelMessage : string :=
  match Cancel s, LastErr s with
  | Some m, _ => CancelMessage.Message m
  | None, Some e => Error e
  | None, None => CancelMessage s
  end.
End getters.

Definition SetState (st : StateType) (s : SwapData) : SwapData := s <| FSMState := st |>.

(** [SwapData.HandleError]: records the error, keeps an earlier cancel message,
    and yields [Event_ActionFailed].  A nil error is recorded as no error. *)
Definition HandleError (err : option error) (s : SwapData) : SwapData * EventType :=
  let s := s <| LastErr := err |> in
  let s := match err with Some e => s <| LastErrString := Error e |> | None => s end in
  let s := if bool_decide (CancelMessage s = "")
           then s <| CancelMessage := LastErrString s |> else s in
  (s, Event_ActionFailed).

(** ** Event contexts: [Validate] and [ApplyToSwapData] of each message *)
Definition SwapInRequest_Validate (m : SwapInRequestMessage.t) : option error :=
  match validateHexString "pubkey" (SwapInRequestMessage.Pubkey m) 33 with
  | Some err => Some err
  | None =>
  match validateAssetAndNetwork (SwapInRequestMessage.Asset m)
          (SwapInRequestMessage.Network m) with
  | Some err => Some err
  | None =>
  match (if bool_decide (SwapInRequestMessage.Asset m ≠ "")
         then validateHexString "asset" (SwapInRequestMessage.Asset m) 33 else None) with
  | Some err => Some err
  | None =>
  match (if bool_decide (SwapInRequestMessage.Network m ≠ "")
         then validateNetwork (SwapInRequestMessage.Network m) else None) with
  | Some err => Some err
  | None => validateScid (SwapInRequestMessage.Scid m)
  end end end end.

Definition SwapOutRequest_Validate (m : SwapOutRequestMessage.t) : option error :=
  match validateHexString "pubkey" (SwapOutRequestMessage.Pubkey m) 33 with
  | Some err => Some err
  | None =>
  match validateAssetAndNetwork (SwapOutRequestMessage.Asset m)
          (SwapOutRequestMessage.Network m) with
  | Some err => Some err
  | None => validateScid (SwapOutRequestMessage.Scid m)
  end end.

Definition OpeningTxBroadcasted_Validate (swap : SwapData) (m : OpeningTxBroadcastedMessage.t)
    : option error :=
  match (if bool_decide (GetChain swap = l_btc_chain)
         then validateHexString "blinding_key" (OpeningTxBroadcastedMessage.BlindingKey m) 32
         else None) with
  | Some err => Some err
  | None => validateHexString "txId" (OpeningTxBroadcastedMessage.TxId m) 32
  end.

Definition Validate (m : PeerMessage) (swap : SwapData) : option error :=
  match m with
  | MsgSwapInRequest m => SwapInRequest_Validate m
  | MsgSwapInAgreement m =>
      validateHexString "pubkey" (SwapInAgreementMessage.Pubkey m) 33
  | MsgSwapOutRequest m => SwapOutRequest_Validate m
  | MsgSwapOutAgreement m =>
      validateHexString "pubkey" (SwapOutAgreementMessage.Pubkey m) 33
  | MsgOpeningTxBroadcasted m => OpeningTxBroadcasted_Validate swap m
  | MsgCancel m => None
  | MsgCoopClose m => validateHexString "privkey" (CoopCloseMessage.Privkey m) 32
  end.

Definition ApplyToSwapData (m : PeerMessage) (swap : SwapData) : result SwapData :=
  match m with
  | MsgSwapInRequest m =>
      match SwapInRequest swap with
      | Some _ => Err AlreadyExistsError
      | None => Ok (swap <| SwapInRequest := Some m |>)
      end
  | MsgSwapInAgreement m =>
      match SwapInAgreement swap with
      | Some _ => Err AlreadyExistsError
      | None => Ok (swap <| SwapInAgreement := Some m |>)
      end
  | MsgSwapOutRequest m =>
      match SwapOutRequest swap with
      | Some _ => Err AlreadyExistsError
      | None => Ok (swap <| SwapOutRequest := Some m |>)
      end
  | MsgSwapOutAgreement m =>
      match SwapOutAgreement swap with
      | Some _ => Err AlreadyExistsError
      | None => Ok (swap <| SwapOutAgreement := Some m |>)
      end
  | MsgOpeningTxBroadcasted m =>
      match OpeningTxBroadcasted swap with
      | Some _ => Err AlreadyExistsError
      | None => Ok (swap <| OpeningTxBroadcasted := Some m |>)
      end
  | MsgCancel m => Ok (swap <| Cancel := Some m |>)
  | MsgCoopClose m =>
      match CoopClose swap with
      | Some _ => Err AlreadyExistsError
      | None => Ok (swap <| CoopClose := Some m |>)
      end
  end.

(** ** Properties of swap ids *)
Lemma ParseSwapId_inv str id :
  ParseSwapIdFromString str = Ok id → hex.DecodeString str = (id, None) ∧ SwapId_wf id.
Proof.
  unfold ParseSwapIdFromString. destruct (hex.DecodeString str) as [data [e|]]; [done|].
  case_bool_decide; [|done]. by intros [= ->].
Qed.

(** Swap ids survive printing and parsing: the printed form of an id parses
    back to it exactly when the id has 32 bytes, ids are printed to different
    strings (so that the active swaps and the store, which are keyed by the
    printed form, keep them apart), and whatever is parsed is an id of 32 bytes
    written in 64 hexadecimal digits. *)
Theorem swapid_roundtrip :
  (∀ id, ParseSwapIdFromString (SwapId_String (Some id)) = Ok id ↔ SwapId_wf id) ∧
  (∀ id1 id2, SwapId_String (Some id1) = SwapId_String (Some id2) ↔ id1 = id2) ∧
  (∀ str, match ParseSwapIdFromString str with
          | Ok id => SwapId_wf id ∧ String.length str = 64%nat
          | Err _ => True
          end).
Proof.
  split_and!.
  - intros id. split; [by intros [_ H]%ParseSwapId_inv|]. intros Hid.
    unfold ParseSwapIdFromString. cbn [SwapId_String]. rewrite hex.decode_encode.
    by rewrite bool_decide_true.
  - intros id1 id2. split; [apply hex.encode_inj|by intros ->].
  - intros str. destruct (ParseSwapIdFromString str) as [id|] eqn:E; [|done].
    apply ParseSwapId_inv in E as [E Hid]. split; [done|].
    apply hex.decode_length in E. rewrite Hid in E. lia.
Qed.
