(* ===== verification/Timelock.v ===== *)
(** * Timelocks of a swap (src/swap/timelock.go)

    The chain- and version-dependent limits, and the two checks of actions.go
    that apply them: the claim invoice's final CLTV and amount, and the payment
    window that starts at the swap's recorded block height. *)

From S2P Require Import Prelude GoLib Messages SwapData.

Definition PEERSWAP_PROTOCOL_VERSION : Z := 7.
Definition legacyProtocolVersion : Z := 6.

Definition bitcoinSwapCSV : Z := 1008.
Definition bitcoinPaymentWindow : Z := bitcoinSwapCSV / 2.
Definition bitcoinInvoiceFinalCLTV : Z := bitcoinPaymentWindow - 1.
Definition legacyLiquidSwapCSV : Z := 60.
Definition legacyLiquidFinalCLTV : Z := legacyLiquidSwapCSV / 2 - 1.
Definition liquidSwapCSV : Z := 7 * 24 * 60.
Definition liquidPaymentWindow : Z := 60.
Definition liquidInvoiceFinalCLTV : Z := 29.
Definition liquidMaxTotalCLTVDelta : Z := 32.

Record timelockPolicy := mkTimelockPolicy {
  CSV : Z;
  PaymentWindow : Z;
  InvoiceFinalCLTV : Z;
  MaxTotalCLTVDelta : Z;
  AllowNewClaimPayment : bool;
}.

Definition timelockPolicy_zero : timelockPolicy := mkTimelockPolicy 0 0 0 0 false.

Definition ValidateTotalCLTVDelta (required limit : Z) : option error :=
  if negb (limit =? 0) && (limit <? required) then
    Some (ErrText ("invoice requires CLTV delta " +:+ strconv.Itoa required +:+
                   ", maximum is " +:+ strconv.Itoa limit))
  else None.

Definition unsupportedVersion (version : Z) : error :=
  ErrText ("unsupported protocol version: " +:+ strconv.Itoa version).

Definition getTimelockPolicy (s : SwapData) : result timelockPolicy :=
  let version := GetProtocolVersion s in
  if bool_decide (GetChain s = btc_chain) then
    if bool_decide (version ≠ legacyProtocolVersion ∧ version ≠ PEERSWAP_PROTOCOL_VERSION)
    then Err (unsupportedVersion version)
    else Ok {| CSV := bitcoinSwapCSV;
               PaymentWindow := bitcoinPaymentWindow;
               InvoiceFinalCLTV := bitcoinInvoiceFinalCLTV;
               MaxTotalCLTVDelta := 0;
               AllowNewClaimPayment := true |}
  else if bool_decide (GetChain s = l_btc_chain) then
    if bool_decide (version = legacyProtocolVersion) then
      Ok {| CSV := legacyLiquidSwapCSV;
            PaymentWindow := legacyLiquidSwapCSV / 2;
            InvoiceFinalCLTV := legacyLiquidFinalCLTV;
            MaxTotalCLTVDelta := 0;
            AllowNewClaimPayment := false |}
    else if bool_decide (version = PEERSWAP_PROTOCOL_VERSION) then
      Ok {| CSV := liquidSwapCSV;
            PaymentWindow := liquidPaymentWindow;
            InvoiceFinalCLTV := liquidInvoiceFinalCLTV;
            MaxTotalCLTVDelta := liquidMaxTotalCLTVDelta;
            AllowNewClaimPayment := true |}
    else Err (unsupportedVersion version)
  else Err (ErrText ("unsupported chain: " +:+ GetChain s)).

(** [GetInvoiceCltv] (swap.go). *)
Definition GetInvoiceCltv (s : SwapData) : Z :=
  match getTimelockPolicy s with
  | Err _ => 0
  | Ok policy => InvoiceFinalCLTV policy
  end.

(** ** Checks of the claim payment (src/swap/actions.go) *)
Definition validateClaimInvoice (paymentAmountMsat finalCLTVDelta claimAmountSat : Z)
    (policy : timelockPolicy) : option error :=
  if (finalCLTVDelta <? 0) || (InvoiceFinalCLTV policy <? u64 finalCLTVDelta) then
    Some (ErrText ("unsafe invoice cltv: " +:+ strconv.Itoa finalCLTVDelta +:+
                   ", maximum: " +:+ strconv.Itoa (InvoiceFinalCLTV policy)))
  else if negb (paymentAmountMsat =? u64 (claimAmountSat * 1000)) then
    Some (ErrText ("invoice amount does not equal swap amount, invoice amount: " +:+
                   strconv.Itoa paymentAmountMsat +:+ " msat, swap amount: " +:+
                   strconv.Itoa claimAmountSat +:+ " sat"))
  else None.

Definition checkPaymentWindow (swap : SwapData) (currentHeight : Z) (policy : timelockPolicy)
    : option error :=
  if negb (StartingBlockHeightSet swap) then
    Some (ErrText "could not get starting block height of the swap")
  else if currentHeight <? StartingBlockHeight swap then
    Some (ErrText ("current block height " +:+ strconv.Itoa currentHeight +:+
                   " is below swap starting height " +:+
                   strconv.Itoa (StartingBlockHeight swap)))
  else
    let deadline := u64 (StartingBlockHeight swap + PaymentWindow policy) in
    if deadline <=? currentHeight then
      Some (ErrText ("claim payment deadline exceeded: current height " +:+
                     strconv.Itoa currentHeight +:+ ", deadline " +:+ strconv.Itoa deadline))
    else None.

(** ** Properties *)

(** Every policy the code hands out. *)
Lemma getTimelockPolicy_cases s p :
  getTimelockPolicy s = Ok p →
  (GetChain s = btc_chain ∧
   (GetProtocolVersion s = 6 ∨ GetProtocolVersion s = 7) ∧
   p = mkTimelockPolicy 1008 504 503 0 true) ∨
  (GetChain s = l_btc_chain ∧ GetProtocolVersion s = 6 ∧
   p = mkTimelockPolicy 60 30 29 0 false) ∨
  (GetChain s = l_btc_chain ∧ GetProtocolVersion s = 7 ∧
   p = mkTimelockPolicy 10080 60 29 32 true).
Proof.
  unfold getTimelockPolicy, legacyProtocolVersion, PEERSWAP_PROTOCOL_VERSION.
  repeat case_bool_decide; intros [= <-]; try naive_solver.
  left. split_and!; [done|lia|done].
Qed.

Lemma checkPaymentWindow_None swap h p :
  is_u32 (StartingBlockHeight swap) → is_u32 (PaymentWindow p) →
  checkPaymentWindow swap h p = None ↔
  StartingBlockHeightSet swap = true ∧
  StartingBlockHeight swap ≤ h < StartingBlockHeight swap + PaymentWindow p.
Proof.
  unfold is_u32, checkPaymentWindow. intros Hs Hp.
  rewrite u64_small by (unfold is_u64; lia).
  destruct (StartingBlockHeightSet swap); cbn [negb]; [|naive_solver].
  destruct (Z.ltb_spec h (StartingBlockHeight swap)); [naive_solver lia|].
  destruct (Z.leb_spec (StartingBlockHeight swap + PaymentWindow p) h); naive_solver lia.
Qed.

Lemma validateClaimInvoice_None amt cltv claim p :
  is_i64 cltv →
  validateClaimInvoice amt cltv claim p = None ↔
  0 ≤ cltv ≤ InvoiceFinalCLTV p ∧ amt = u64 (claim * 1000).
Proof.
  unfold validateClaimInvoice, is_i64. intros Hc.
  destruct (Z.ltb_spec cltv 0); cbn [orb]; [naive_solver lia|].
  rewrite u64_small by (unfold is_u64; lia).
  destruct (Z.ltb_spec (InvoiceFinalCLTV p) cltv); [naive_solver lia|].
  destruct (Z.eqb_spec amt (u64 (claim * 1000))); cbn [negb]; naive_solver lia.
Qed.
