(* ===== verification/Policy.v ===== *)
(** * The swap policy (src/policy/policy.go)

    The policy record, the questions the swap service asks of it, and the
    operations that edit the policy file and reload it.  The mutex is held by
    every operation that touches the lists, so operations are atomic.

    The file is its content.  The file-system calls and the ini parser of
    go-flags are not part of the repository: [FileIO] carries the error each
    call may return (for a failed write, with the content it leaves behind) and
    the parser, a function from the default policy and the content. *)

From S2P Require Import Prelude GoLib.

Definition defaultReserveOnchainMsat : Z := 0.
Definition defaultMinSwapAmountMsat : Z := 100000000.

Record Policy := mkPolicy {
  path : string;
  ReserveOnchainMsat : Z;
  PeerAllowlist : list string;
  SuspiciousPeerList : list string;
  AcceptAllPeers : bool;
  MinSwapAmountMsat : Z;
  AllowNewSwaps : bool;
}.

#[export] Instance Policy_eta : Eta Policy := λ p, mkPolicy
  (path p) (ReserveOnchainMsat p) (PeerAllowlist p) (SuspiciousPeerList p)
  (AcceptAllPeers p) (MinSwapAmountMsat p) (AllowNewSwaps p).

Definition DefaultPolicy : Policy := {|
  path := "";
  ReserveOnchainMsat := defaultReserveOnchainMsat;
  PeerAllowlist := [];
  SuspiciousPeerList := [];
  AcceptAllPeers := false;
  MinSwapAmountMsat := defaultMinSwapAmountMsat;
  AllowNewSwaps := true |}.

(** ** Questions *)
Definition Policy_Get (p : Policy) : Policy := p <| path := "" |>.
Definition GetReserveOnchainMsat (p : Policy) : Z := ReserveOnchainMsat p.
Definition GetMinSwapAmountMsat (p : Policy) : Z := MinSwapAmountMsat p.
Definition NewSwapsAllowed (p : Policy) : bool := AllowNewSwaps p.
Definition IsPeerAllowed (p : Policy) (peer : string) : bool :=
  if AcceptAllPeers p then true else bool_decide (peer ∈ PeerAllowlist p).
Definition IsPeerSuspicious (p : Policy) (peer : string) : bool :=
  bool_decide (peer ∈ SuspiciousPeerList p).

(** ** The policy file *)
Record FileIO := mkFileIO {
  io_open : option error;                      (* os.Open, removeLineFromFile *)
  io_scan : option error;                      (* scanner.Err *)
  io_writefile : option (error * string);      (* os.WriteFile *)
  io_openappend : option error;                (* os.OpenFile, addLineToFile *)
  io_writestring : option (error * string);    (* file.WriteString *)
  io_reload : option error;                    (* os.Open, ReloadFile *)
  io_reopen : option error;                    (* os.OpenFile, ReloadFile *)
  ini_parse : Policy → string → result Policy; (* go-flags IniParser *)
}.

Definition fileIO_ok (parse : Policy → string → result Policy) : FileIO :=
  mkFileIO None None None None None None None parse.

Record PolicyState := mkPolicyState { conf : Policy; file : string }.
#[export] Instance PolicyState_eta : Eta PolicyState := λ s, mkPolicyState (conf s) (file s).

Definition newline : ascii := Ascii.ascii_of_nat 10.
Definition carriage_return : ascii := Ascii.ascii_of_nat 13.
Definition nl : string := String newline "".

Fixpoint dropCR (s : string) : string :=
  match s with
  | EmptyString => ""
  | String c EmptyString => if bool_decide (c = carriage_return) then "" else s
  | String c rest => String c (dropCR rest)
  end.

(** [bufio.ScanLines]: the lines without their end-of-line marker; an empty rest
    after the last newline is not a line. *)
Definition scan_lines (content : string) : list string :=
  let parts := strings.Split content newline in
  let parts := match last parts with
               | Some EmptyString => take (length parts - 1) parts
               | _ => parts
               end in
  dropCR <$> parts.

Definition unlines (ls : list string) : string :=
  foldr (λ l acc, l +:+ nl +:+ acc) "" ls.

Definition ErrNoPolicyFile : error :=
  ErrSentinel "policy.ErrNoPolicyFile" "no policy file given".
Definition ErrCreatePolicy (s : string) : error :=
  ErrTyped "policy.ErrCreatePolicy" ("policy could not be created: " +:+ s).
Definition ErrReloadPolicy (s : string) : error :=
  ErrTyped "policy.ErrReloadPolicy" ("policy could not be reloaded: " +:+ s).
Definition ErrNotAValidPublicKey (s : string) : error :=
  ErrTyped "policy.ErrNotAValidPublicKey" (s +:+ " is not a valid public key").

Definition addLineToFile (io : FileIO) (line : string) (st : PolicyState)
    : PolicyState * option error :=
  match io_openappend io with
  | Some e => (st, Some e)
  | None =>
      match io_writestring io with
      | Some (e, written) => (st <| file := written |>, Some e)
      | None => (st <| file := file st +:+ line +:+ nl |>, None)
      end
  end.

Definition removeLineFromFile (io : FileIO) (line : string) (st : PolicyState)
    : PolicyState * option error :=
  match io_open io with
  | Some e => (st, Some e)
  | None =>
      let kept := filter (λ l, l ≠ line) (scan_lines (file st)) in
      match io_scan io with
      | Some e => (st, Some e)
      | None =>
          match io_writefile io with
          | Some (e, written) => (st <| file := written |>, Some e)
          | None => (st <| file := unlines kept |>, None)
          end
      end
  end.

(** [create(r)]: the parser run over the default policy. *)
Definition create (io : FileIO) (content : string) : result Policy :=
  match ini_parse io DefaultPolicy content with
  | Err e => Err (ErrCreatePolicy (Error e))
  | Ok p => Ok p
  end.

(** [ReloadFile]: the new policy replaces the old one, its path included, before
    the path is put back. *)
Definition ReloadFile (io : FileIO) (st : PolicyState) : PolicyState * option error :=
  if bool_decide (path (conf st) = "") then (st, Some ErrNoPolicyFile)
  else
    let saved := path (conf st) in
    match io_reload io with
    | Some e => (st, Some (ErrReloadPolicy (Error e)))
    | None =>
        match create io (file st) with
        | Err e => (st, Some e)
        | Ok newp =>
            let st := st <| conf := newp |> in
            match io_reopen io with
            | Some e => (st, Some (ErrCreatePolicy (Error e)))
            | None => (st <| conf := conf st <| path := saved |> |>, None)
            end
        end
    end.

Fixpoint all_hex_lower (s : string) : bool :=
  match s with
  | EmptyString => true
  | String c rest =>
      match hex.fromHexChar c with
      | Some d => bool_decide (hex.digit d = c) && all_hex_lower rest
      | None => false
      end
  end.

(** The regular expression [^[0-9a-f]{66}?\z]. *)
Definition isValidPubkey (pubkey : string) : option error :=
  if bool_decide (String.length pubkey = 66%nat) && all_hex_lower pubkey then None
  else Some (ErrNotAValidPublicKey pubkey).

(** Sequencing of steps that stop at the first error. *)
Definition and_then (f g : PolicyState → PolicyState * option error) (st : PolicyState)
    : PolicyState * option error :=
  match f st with
  | (st, Some e) => (st, Some e)
  | (st, None) => g st
  end.

Definition DisableSwaps (io : FileIO) (st : PolicyState) : PolicyState * option error :=
  if negb (AllowNewSwaps (conf st)) then (st, None)
  else and_then (removeLineFromFile io "allow_new_swaps=true")
         (and_then (addLineToFile io "allow_new_swaps=false") (ReloadFile io)) st.

Definition EnableSwaps (io : FileIO) (st : PolicyState) : PolicyState * option error :=
  if AllowNewSwaps (conf st) then (st, None)
  else and_then (removeLineFromFile io "allow_new_swaps=false")
         (and_then (addLineToFile io "allow_new_swaps=true") (ReloadFile io)) st.

Definition AddToAllowlist (io : FileIO) (pubkey : string) (st : PolicyState)
    : PolicyState * option error :=
  if bool_decide (pubkey ∈ PeerAllowlist (conf st))
  then (st, Some (ErrText "peer is already whitelisted"))
  else if bool_decide (path (conf st) = "") then (st, Some ErrNoPolicyFile)
  else match isValidPubkey pubkey with
       | Some e => (st, Some e)
       | None => and_then (addLineToFile io ("allowlisted_peers=" +:+ pubkey))
                   (ReloadFile io) st
       end.

Definition AddToSuspiciousPeerList (io : FileIO) (pubkey : string) (st : PolicyState)
    : PolicyState * option error :=
  if bool_decide (pubkey ∈ SuspiciousPeerList (conf st))
  then (st, Some (ErrText "peer is already marked as suspicious"))
  else if bool_decide (path (conf st) = "") then (st, Some ErrNoPolicyFile)
  else match isValidPubkey pubkey with
       | Some e => (st, Some e)
       | None => and_then (addLineToFile io ("suspicious_peers=" +:+ pubkey))
                   (ReloadFile io) st
       end.

Definition RemoveFromAllowlist (io : FileIO) (pubkey : string) (st : PolicyState)
    : PolicyState * option error :=
  match isValidPubkey pubkey with
  | Some e => (st, Some e)
  | None =>
      if bool_decide (pubkey ∉ PeerAllowlist (conf st))
      then (st, Some (ErrText ("peer " +:+ pubkey +:+ " is not in allowlist")))
      else if bool_decide (path (conf st) = "") then (st, Some ErrNoPolicyFile)
      else and_then (removeLineFromFile io ("allowlisted_peers=" +:+ pubkey))
             (ReloadFile io) st
  end.

Definition RemoveFromSuspiciousPeerList (io : FileIO) (pubkey : string) (st : PolicyState)
    : PolicyState * option error :=
  match isValidPubkey pubkey with
  | Some e => (st, Some e)
  | None =>
      if bool_decide (pubkey ∉ SuspiciousPeerList (conf st))
      then (st, Some (ErrText ("peer " +:+ pubkey +:+ " is not in suspicious peer list")))
      else if bool_decide (path (conf st) = "") then (st, Some ErrNoPolicyFile)
      else and_then (removeLineFromFile io ("suspicious_peers=" +:+ pubkey))
             (ReloadFile io) st
  end.

(** ** Properties *)

(** The policy in memory is what the file says. *)
Definition synced (io : FileIO) (st : PolicyState) : Prop :=
  path (conf st) ≠ "" ∧ create io (file st) = Ok (conf st <| path := "" |>).

(** The content ends at a line boundary, so that an appended line stands alone. *)
Definition line_terminated (s : string) : Prop := s = "" ∨ ∃ t, s = t +:+ nl.

(** What go-flags documents of a list option in an ini file: every occurrence of
    the key appends its value to the option, and no other option changes. *)
Class IniParser (io : FileIO) := {
  ini_suspicious c p pk :
    line_terminated c → isValidPubkey pk = None → ini_parse io DefaultPolicy c = Ok p →
    ini_parse io DefaultPolicy (c +:+ ("suspicious_peers=" +:+ pk) +:+ nl) =
      Ok (p <| SuspiciousPeerList := SuspiciousPeerList p ++ [pk] |>);
  ini_allowlist c p pk :
    line_terminated c → isValidPubkey pk = None → ini_parse io DefaultPolicy c = Ok p →
    ini_parse io DefaultPolicy (c +:+ ("allowlisted_peers=" +:+ pk) +:+ nl) =
      Ok (p <| PeerAllowlist := PeerAllowlist p ++ [pk] |>);
}.

(** No file-system call fails. *)
Definition io_no_errors (io : FileIO) : Prop :=
  io_open io = None ∧ io_scan io = None ∧ io_writefile io = None ∧
  io_openappend io = None ∧ io_writestring io = None ∧
  io_reload io = None ∧ io_reopen io = None.

Lemma create_Ok io c p : create io c = Ok p ↔ ini_parse io DefaultPolicy c = Ok p.
Proof. unfold create. destruct (ini_parse io DefaultPolicy c); split; congruence. Qed.

(** Adding a line and reloading, when the parser reads the new content as [p']. *)
Lemma add_line_and_reload io st line p' :
  io_no_errors io → path (conf st) ≠ "" →
  ini_parse io DefaultPolicy (file st +:+ line +:+ nl) = Ok p' →
  and_then (addLineToFile io line) (ReloadFile io) st =
    (mkPolicyState (p' <| path := path (conf st) |>) (file st +:+ line +:+ nl), None).
Proof.
  intros (_ & _ & _ & H1 & H2 & H3 & H4) Hpath Hparse.
  unfold and_then, addLineToFile. rewrite H1, H2. unfold ReloadFile. cbn.
  rewrite bool_decide_false by done. rewrite H3.
  rewrite (proj2 (create_Ok io _ p') Hparse). by rewrite H4.
Qed.

Lemma synced_parse io st :
  synced io st → ini_parse io DefaultPolicy (file st) = Ok (conf st <| path := "" |>).
Proof. intros [_ H]. by apply create_Ok. Qed.

(** The suspicious list after a successful edit. *)
Lemma mark_suspicious_spec io `{!IniParser io} pubkey st :
  io_no_errors io → synced io st → line_terminated (file st) →
  isValidPubkey pubkey = None → pubkey ∉ SuspiciousPeerList (conf st) →
  ∃ st', AddToSuspiciousPeerList io pubkey st = (st', None) ∧
    synced io st' ∧ line_terminated (file st') ∧
    (∀ peer, IsPeerSuspicious (conf st') peer =
             bool_decide (peer = pubkey) || IsPeerSuspicious (conf st) peer) ∧
    conf st' <| SuspiciousPeerList := [] |> = conf st <| SuspiciousPeerList := [] |>.
Proof.
  intros Hio Hsync Hterm Hpk Hnew.
  pose proof (synced_parse io st Hsync) as Hparse.
  destruct Hsync as [Hpath _].
  pose proof (ini_suspicious (file st) _ pubkey Hterm Hpk Hparse) as Hparse'.
  eexists. split.
  { unfold AddToSuspiciousPeerList. rewrite !bool_decide_false by done.
    rewrite Hpk. by apply add_line_and_reload. }
  split; [|split; [|split]].
  - split; [done|]. by apply create_Ok.
  - right. exists (file st +:+ ("suspicious_peers=" +:+ pubkey)).
    symmetry. apply append_assoc.
  - intros peer. unfold IsPeerSuspicious. cbn.
    repeat case_bool_decide; set_solver.
  - by destruct st as [[]].
Qed.

(** Marking a peer suspicious through the policy file takes effect: with a
    policy in step with its file, a valid new key and no file-system error, the
    operation succeeds, the peer (and, of the others, exactly the ones that were)
    is suspicious, nothing else of the policy changes, and policy and file stay
    in step. *)
Theorem mark_suspicious_takes_effect io `{!IniParser io} pubkey st :
  io_no_errors io → synced io st → line_terminated (file st) →
  isValidPubkey pubkey = None → pubkey ∉ SuspiciousPeerList (conf st) →
  ∃ st', AddToSuspiciousPeerList io pubkey st = (st', None) ∧
    synced io st' ∧ line_terminated (file st') ∧
    (∀ peer, IsPeerSuspicious (conf st') peer =
             bool_decide (peer = pubkey) || IsPeerSuspicious (conf st) peer) ∧
    conf st' <| SuspiciousPeerList := [] |> = conf st <| SuspiciousPeerList := [] |>.
Proof. intros. by apply mark_suspicious_spec. Qed.

(** A parser of the line format the policy operations write, which meets
    [IniParser]. *)
Definition ini_line (p : Policy) (l : string) : Policy :=
  if String.prefix "suspicious_peers=" l
  then p <| SuspiciousPeerList := SuspiciousPeerList p ++
             [String.substring 17 (String.length l - 17) l] |>
  else if String.prefix "allowlisted_peers=" l
  then p <| PeerAllowlist := PeerAllowlist p ++
             [String.substring 18 (String.length l - 18) l] |>
  else if bool_decide (l = "allow_new_swaps=false") then p <| AllowNewSwaps := false |>
  else if bool_decide (l = "allow_new_swaps=true") then p <| AllowNewSwaps := true |>
  else p.
Definition ini_by_line (d : Policy) (content : string) : result Policy :=
  Ok (foldl ini_line d (scan_lines content)).

Lemma all_hex_lower_no_control s c :
  all_hex_lower s = true → hex.fromHexChar c = None → strings.Contains s c = false.
Proof.
  induction s as [|x s IH]; [done|]. cbn. intros Hs Hc.
  destruct (hex.fromHexChar x) eqn:Hx; [|done].
  apply andb_true_iff in Hs as [_ Hs]. rewrite IH by done.
  rewrite bool_decide_false by congruence. done.
Qed.

Lemma dropCR_id s : strings.Contains s carriage_return = false → dropCR s = s.
Proof.
  induction s as [|x s IH]; [done|]. cbn.
  intros [H1 H2]%orb_false_iff. destruct s; [by rewrite H1|]. by rewrite IH.
Qed.

Lemma scan_lines_snoc c l :
  line_terminated c → strings.Contains l newline = false →
  strings.Contains l carriage_return = false →
  scan_lines (c +:+ l +:+ nl) = scan_lines c ++ [l].
Proof.
  intros Hc Hn Hr.
  assert (∀ ps : list string, last (ps ++ [""]) = Some "") as Hlast
    by (intros; apply last_snoc).
  assert (∀ ps : list string, take (length (ps ++ [""]) - 1) (ps ++ [""]) = ps) as Htake.
  { intros ps. rewrite length_app, Nat.add_sub. apply take_app_length. }
  assert (∀ ps c', strings.Split c' newline = ps ++ [""] → scan_lines c' = dropCR <$> ps)
    as Hscan.
  { intros ps c' E. unfold scan_lines. by rewrite E, Hlast, Htake. }
  destruct Hc as [->|[t ->]].
  - rewrite (Hscan [l]); [by cbn; rewrite dropCR_id|].
    change ("" +:+ l +:+ nl) with (l +:+ nl).
    unfold nl. by rewrite strings.Split_app, strings.Split_none.
  - rewrite (Hscan (strings.Split t newline ++ [l])).
    + rewrite (Hscan (strings.Split t newline)).
      * by rewrite fmap_app; cbn; rewrite dropCR_id.
      * unfold nl. by rewrite strings.Split_app.
    + rewrite append_assoc. unfold nl.
      change (String newline "" +:+ l +:+ String newline "")
        with (String newline (l +:+ String newline "")).
      rewrite strings.Split_app, strings.Split_app, (strings.Split_none l) by done.
      by rewrite <- app_assoc.
Qed.

Lemma valid_pubkey_line prefix pk c :
  isValidPubkey pk = None → strings.Contains prefix c = false →
  hex.fromHexChar c = None → strings.Contains (prefix +:+ pk) c = false.
Proof.
  unfold isValidPubkey. intros Hpk Hp Hc. rewrite strings.Contains_app, Hp.
  destruct (all_hex_lower pk) eqn:E; [by apply all_hex_lower_no_control|].
  by rewrite andb_false_r in Hpk.
Qed.

Lemma substring_all s : String.substring 0 (String.length s) s = s.
Proof. induction s as [|c s IH]; cbn; [done|]. by rewrite IH. Qed.

Lemma prefix_app s t : String.prefix s (s +:+ t) = true.
Proof.
  induction s as [|c s IH]; [by destruct t|].
  change ((if ascii_dec c c then String.prefix s (s +:+ t) else false) = true).
  by destruct (ascii_dec c c).
Qed.

Lemma ini_line_suspicious p pk :
  ini_line p ("suspicious_peers=" +:+ pk) =
    p <| SuspiciousPeerList := SuspiciousPeerList p ++ [pk] |>.
Proof.
  unfold ini_line. rewrite prefix_app, append_length.
  change (String.length "suspicious_peers=") with 17%nat.
  replace (17 + String.length pk - 17)%nat with (String.length pk) by lia.
  change (String.substring 17 (String.length pk) ("suspicious_peers=" +:+ pk))
    with (String.substring 0 (String.length pk) pk).
  by rewrite substring_all.
Qed.

Lemma ini_line_allowlist p pk :
  ini_line p ("allowlisted_peers=" +:+ pk) =
    p <| PeerAllowlist := PeerAllowlist p ++ [pk] |>.
Proof.
  unfold ini_line. rewrite (prefix_app "allowlisted_peers="), append_length.
  change (String.length "allowlisted_peers=") with 18%nat.
  replace (18 + String.length pk - 18)%nat with (String.length pk) by lia.
  change (String.substring 18 (String.length pk) ("allowlisted_peers=" +:+ pk))
    with (String.substring 0 (String.length pk) pk).
  by rewrite substring_all.
Qed.

#[export] Instance ini_by_line_spec : IniParser (fileIO_ok ini_by_line).
Proof.
  split; intros c p pk Hc Hpk; cbn; unfold ini_by_line; intros [= <-].
  all: rewrite scan_lines_snoc by (done || by apply valid_pubkey_line).
  all: rewrite foldl_app; cbn [foldl].
  - by rewrite ini_line_suspicious.
  - by rewrite ini_line_allowlist.
Qed.

Example mark_suspicious_takes_effect_witness :
  let pk := hex.EncodeToString "0123456789abcdef0123456789abcdef0" in
  ∃ st', AddToSuspiciousPeerList (fileIO_ok ini_by_line) pk
           (mkPolicyState (DefaultPolicy <| path := "policy.conf" |>) "") = (st', None) ∧
         IsPeerSuspicious (conf st') pk = true.
Proof.
  intros pk.
  destruct (mark_suspicious_takes_effect (fileIO_ok ini_by_line) pk
    (mkPolicyState (DefaultPolicy <| path := "policy.conf" |>) ""))
    as (st' & H & _ & _ & Hs & _).
  - by repeat split.
  - by split.
  - by left.
  - by vm_compute.
  - by apply not_elem_of_nil.
  - exists st'. split; [exact H|]. rewrite Hs. by rewrite bool_decide_true.
Defined.
