(* ===== verification/Env.v ===== *)
(** * The services a swap uses (src/swap/services.go)

    The interfaces [LightningClient], [Messenger], [Wallet], [Validator] and
    [TxWatcher] are implemented by the lightning node, the wallets and the
    chain watchers.  A [Call] is one invocation of a method of these interfaces
    (or of the random source, the clock, the timer and the database file), with
    [answer] the type of what it returns.  The environment answers a call by
    [ask], which sees every earlier call and its answer: it stands for every
    possible behaviour of the outside, and a theorem that holds for all [Env]
    holds whatever the services do.

    The parts of the services that are code of this repository and keep state
    (swap store, requested-swaps store, policy, premium rates, message senders)
    are components of [World]; [World] also records the calls made so far. *)

From S2P Require Import Prelude GoLib Messages Premium Policy SwapData Timelock.

(** ** Parameters of the on-chain services *)
Record OpeningParams := mkOpeningParams {
  op_TakerPubkey : string;
  op_MakerPubkey : string;
  op_ClaimPaymentHash : string;
  op_Amount : Z;
  op_CSV : Z;
  op_BlindingKey : option string;
}.

Record ClaimParams := mkClaimParams {
  cp_Preimage : string;
  cp_Signer : string;
  cp_OpeningTxHex : string;
}.

#[export] Instance OpeningParams_eq_dec : EqDecision OpeningParams.
Proof. solve_decision. Defined.
#[export] Instance ClaimParams_eq_dec : EqDecision ClaimParams.
Proof. solve_decision. Defined.

(** What [CreateOpeningTransaction] returns, and what the three calls that
    create a spending transaction return. *)
Record OpeningTx := mkOpeningTx {
  ot_txHex : string; ot_address : string; ot_txId : string; ot_fee : Z; ot_vout : Z }.
Record SpendingTx := mkSpendingTx { sp_txId : string; sp_txHex : string; sp_address : string }.
Record DecodedPayreq := mkDecoded {
  dp_paymentHash : string; dp_amountMsat : Z; dp_finalCLTVDelta : Z }.

(** The triple of services [getOnChainServices] selects. *)
Inductive Chain := Bitcoin | Liquid.
#[export] Instance Chain_eq_dec : EqDecision Chain.
Proof. solve_decision. Defined.

(** ** Calls *)
Inductive Call :=
  (* LightningClient *)
  | DecodePayreq (payreq : string)
  | GetPayreq (msatAmount : Z) (preimage swapId memo : string) (invoiceType : InvoiceType)
      (expirySeconds expiryCltv : Z)
  | PayInvoiceViaChannel (payreq channel : string)
  | AddPaymentNotifier (swapId payreq : string) (invoiceType : InvoiceType)
  | RebalancePayment (payreq channel : string) (maxTotalCLTVDelta : Z)
  | RecoverClaimPayment (payreq : string)
  | CanSpend (amountMsat : Z)
  | Implementation
  | SpendableMsat (scid : string)
  | ReceivableMsat (scid : string)
  | ProbePayment (scid : string) (amountMsat : Z)
  (* Messenger *)
  | SendMessage (peerId message : string) (messageType : Z)
  (* TxWatcher *)
  | AddWaitForConfirmationTx (ch : Chain) (swapID txID : string)
      (vout startingHeight paymentWindow : Z) (scriptpubkey : string)
  | AddWaitForCsvTx (ch : Chain) (swapID txID : string)
      (vout startingHeight csv : Z) (scriptpubkey : string)
  | GetBlockHeight (ch : Chain)
  (* Validator *)
  | ValidateTx (ch : Chain) (swapParams : OpeningParams) (txHex : string)
  (* Wallet *)
  | SetLabel (ch : Chain) (txID address label : string)
  | CreateOpeningTransaction (ch : Chain) (swapParams : OpeningParams)
  | CreatePreimageSpendingTransaction (ch : Chain) (swapParams : OpeningParams)
      (claimParams : ClaimParams)
  | CreateCsvSpendingTransaction (ch : Chain) (swapParams : OpeningParams)
      (claimParams : ClaimParams)
  | CreateCoopSpendingTransaction (ch : Chain) (swapParams : OpeningParams)
      (claimParams : ClaimParams) (takerSigner : string)
  | GetOutputScript (ch : Chain) (params : OpeningParams)
  | GetFlatOpeningTXFee (ch : Chain)
  | GetWalletAsset (ch : Chain)
  | GetWalletNetwork (ch : Chain)
  | GetOnchainBalance (ch : Chain)
  (* random source, clock, timer *)
  | RandPreimage
  | RandPrivateKey
  | RandSwapId
  | TimeNow
  | AddNewTimeOut (seconds : Z) (id : string)
  (** how often the ticker of the payment loop is selected before its deadline *)
  | PaymentTicks
  (* the bbolt database and the policy file *)
  | DbBegin (writable : bool)
  | DbPut (key : string)
  | DbCommit
  | DbPremium
  | PolicyFile.

Definition answer (c : Call) : Type :=
  match c with
  | DecodePayreq _ => result DecodedPayreq
  | GetPayreq _ _ _ _ _ _ _ | PayInvoiceViaChannel _ _ | RebalancePayment _ _ _
  | RecoverClaimPayment _ => result string
  | AddPaymentNotifier _ _ _ | AddWaitForConfirmationTx _ _ _ _ _ _ _
  | AddWaitForCsvTx _ _ _ _ _ _ _ | AddNewTimeOut _ _ => unit
  | CanSpend _ | SendMessage _ _ _ | SetLabel _ _ _ _
  | DbBegin _ | DbPut _ | DbCommit => option error
  | DbPremium => option error * option error
  | Implementation | GetWalletAsset _ | GetWalletNetwork _ | RandSwapId => string
  | SpendableMsat _ | ReceivableMsat _ | GetBlockHeight _ | GetFlatOpeningTXFee _
  | GetOnchainBalance _ => result Z
  | ProbePayment _ _ => result (bool * string)
  | ValidateTx _ _ _ => result bool
  | CreateOpeningTransaction _ _ => result OpeningTx
  | CreatePreimageSpendingTransaction _ _ _ | CreateCsvSpendingTransaction _ _ _
  | CreateCoopSpendingTransaction _ _ _ _ => result SpendingTx
  | GetOutputScript _ _ | RandPreimage | RandPrivateKey => result string
  | TimeNow => Z
  | PaymentTicks => nat
  | PolicyFile => FileIO
  end.

(** A call with its answer, and the record of a run: newest first. *)
Definition Entry : Type := sigT answer.
Definition entry (c : Call) (a : answer c) : Entry := existT c a.
Definition call_of (e : Entry) : Call := projT1 e.
Definition History : Type := list Entry.

(** ** The environment

    Besides the answers: the elliptic-curve library, the hash, the json codec
    of the messages ([Ok None] is the json value null decoded into a nil
    pointer), and which chains are enabled. *)
Class Env := mkEnv {
  PrivKeyFromBytes : string → string;
  PubKey : string → string;
  sha256 : string → string;
  json_Marshal : PeerMessage → result string;
  json_SwapInRequest : string → result (option SwapInRequestMessage.t);
  json_SwapInAgreement : string → result (option SwapInAgreementMessage.t);
  json_SwapOutRequest : string → result (option SwapOutRequestMessage.t);
  json_SwapOutAgreement : string → result (option SwapOutAgreementMessage.t);
  json_OpeningTxBroadcasted : string → result (option OpeningTxBroadcastedMessage.t);
  json_Cancel : string → result (option CancelMessage.t);
  json_CoopClose : string → result (option CoopCloseMessage.t);
  bitcoinEnabled : bool;
  liquidEnabled : bool;
  ask : History → ∀ c : Call, answer c;
}.

(** ** The world *)

(** A swap as the store keeps it: the fields of [SwapStateMachine] and
    [SwapData] that are part of the json; [LastErr], [toCancel] and the counters
    are not. *)
Record StoredSwap := mkStored {
  st_SwapId : option SwapId;
  st_Data : SwapData;
  st_Type : SwapType;
  st_Role : SwapRole;
  st_Previous : StateType;
  st_Current : StateType;
}.

#[export] Instance StoredSwap_eq_dec : EqDecision StoredSwap.
Proof. solve_decision. Defined.

Record RequestedSwap := mkRequestedSwap {
  rs_Asset : string;
  rs_AmountSat : Z;
  rs_Type : SwapType;
  rs_RejectionReason : string;
}.

#[export] Instance RequestedSwap_eq_dec : EqDecision RequestedSwap.
Proof. solve_decision. Defined.

Record World := mkWorld {
  hist : History;
  swaps : option (gmap string StoredSwap);
  requested : gmap string (list RequestedSwap);
  policy : PolicyState;
  rates : bucket;
  senders : gmap string RedundantMessenger;
}.

#[export] Instance World_eta : Eta World := λ w, mkWorld
  (hist w) (swaps w) (requested w) (policy w) (rates w) (senders w).

(** Code that uses the services runs over the world and a local state [D]. *)
Notation "'Svc' D" := (M (World * D)) (at level 10).

Section services.
Context `{!Env} {D : Type}.

Definition record (c : Call) (w : World) : World :=
  w <| hist := entry c (ask (hist w) c) :: hist w |>.

Definition call (c : Call) : Svc D (answer c) :=
  λ '(w, d), Ret (record c w, d) (ask (hist w) c).

Definition getl : Svc D D := gets snd.
Definition setl (f : D → D) : Svc D () := modify (λ '(w, d), (w, f d)).
Definition getw {A} (f : World → A) : Svc D A := gets (f ∘ fst).
Definition setw (f : World → World) : Svc D () := modify (λ '(w, d), (f w, d)).
End services.

(** Run code over a part of the local state. *)
Definition zoom {D T A} (get : D → T) (put : T → D → D) (m : Svc T A) : Svc D A :=
  λ '(w, d),
    match m (w, get d) with
    | Ret (w', t) a => Ret (w', put t d) a
    | Panic (w', t) => Panic (w', put t d)
    | NoFuel (w', t) => NoFuel (w', put t d)
    end.

(** ** Errors of the package *)
Definition ErrMinimumSwapSize (u : Z) : error :=
  ErrTyped "swap.ErrMinimumSwapSize"
    ("a minimum swap amount of " +:+ strconv.Itoa u +:+ " msat is required").
Definition PeerNotAllowedError (s : string) : error :=
  ErrTyped "swap.PeerNotAllowedError" ("peer " +:+ s +:+ " is not on allowlist").
Definition PeerIsSuspiciousError (s : string) : error :=
  ErrTyped "swap.PeerIsSuspiciousError" ("peer " +:+ s +:+ " is on suspicious peer list").
Definition WrongAssetError (e : string) : error :=
  ErrTyped "swap.WrongAssetError" ("unallowed asset: " +:+ e).

Definition getOnChainServices (asset : string) : result Chain :=
  if bool_decide (asset = "") then Err (ErrText "missing asset")
  else if bool_decide (asset = btc_chain) then Ok Bitcoin
  else if bool_decide (asset = l_btc_chain) then Ok Liquid
  else Err (WrongAssetError asset).

(** [Validator.GetCSVHeight] (onchain/bitcoin.go, onchain/liquid.go). *)
Definition BitcoinCsv : Z := 1008.
Definition LiquidCsv : Z := 60.
Definition GetCSVHeight (ch : Chain) : Z :=
  match ch with Bitcoin => BitcoinCsv | Liquid => LiquidCsv end.

(** ** Labels of on-chain transactions (src/labels/labels.go) *)
Definition peerswapLabel (kind swapID : string) : string :=
  "peerswap -- " +:+ kind +:+ "(swap id=" +:+ swapID +:+ ")".
Definition labels_Opening : string → string := peerswapLabel "Opening".
Definition labels_ClaimByInvoice : string → string := peerswapLabel "ClaimByInvoice".
Definition labels_ClaimByCoop : string → string := peerswapLabel "ClaimByCoop".
Definition labels_ClaimByCsv : string → string := peerswapLabel "ClaimByCsv".

(** ** Preimages (src/lightning/preimage.go): arrays of 32 bytes *)
Definition zero_preimage : string := Nat.iter 32 (String "000") "".

Definition MakePreimage (newPreimage : string) : string * option error :=
  if bool_decide (String.length newPreimage = 32%nat) then (newPreimage, None)
  else (zero_preimage,
        Some (ErrText ("invalid preimage length of " +:+
                       strconv.Itoa (Z.of_nat (String.length newPreimage)) +:+ ", want 32"))).

Definition MakePreimageFromStr (newPreimage : string) : string * option error :=
  if bool_decide (String.length newPreimage = 64%nat) then
    match hex.DecodeString newPreimage with
    | (_, Some e) => (zero_preimage, Some e)
    | (preimage, None) => MakePreimage preimage
    end
  else (zero_preimage,
        Some (ErrText ("invalid preimage string length of " +:+
                       strconv.Itoa (Z.of_nat (String.length newPreimage)) +:+ ", want 64"))).

Section getters.
Context `{!Env} (s : SwapData).

(** [preimage.Hash().String()]. *)
Definition HashString (preimage : string) : string := hex.EncodeToString (sha256 preimage).

Definition GetPaymentHash : string :=
  if bool_decide (ClaimPaymentHash s ≠ "") then ClaimPaymentHash s
  else if bool_decide (ClaimPreimage s ≠ "") then
    HashString (fst (MakePreimageFromStr (ClaimPreimage s)))
  else "".

(** The key of [BlindingKey] in [GetOpeningParams]: the message's, else the
    swap's own. *)
Definition opening_blinding_key : option string :=
  let own :=
    if bool_decide (BlindingKeyHex s ≠ "")
    then Some (PrivKeyFromBytes (fst (hex.DecodeString (BlindingKeyHex s)))) else None in
  match OpeningTxBroadcasted s with
  | Some m =>
      if bool_decide (OpeningTxBroadcastedMessage.BlindingKey m ≠ "")
      then Some (PrivKeyFromBytes
                   (fst (hex.DecodeString (OpeningTxBroadcastedMessage.BlindingKey m))))
      else own
  | None => own
  end.

(** [GetOpeningParams]; [None] where [GetOpeningTXAmount] panics. *)
Definition GetOpeningParams : option OpeningParams :=
  let policy := match getTimelockPolicy s with Ok p => p | Err _ => timelockPolicy_zero end in
  amount ← GetOpeningTXAmount s;
  Some {| op_TakerPubkey := GetTakerPubkey s;
          op_MakerPubkey := GetMakerPubkey s;
          op_ClaimPaymentHash := GetPaymentHash;
          op_Amount := amount;
          op_CSV := CSV policy;
          op_BlindingKey := opening_blinding_key |}.

Definition GetClaimParams : ClaimParams :=
  {| cp_Preimage := ClaimPreimage s;
     cp_Signer := PrivKeyFromBytes (PrivkeyBytes s);
     cp_OpeningTxHex := OpeningTxHex s |}.

(** [hex.EncodeToString(s.GetPrivkey().PubKey().SerializeCompressed())]. *)
Definition own_pubkey : string :=
  hex.EncodeToString (PubKey (PrivKeyFromBytes (PrivkeyBytes s))).
End getters.

(** [MarshalPeerswapMessage]: a nil message marshals to null, and then its
    [MessageType] method panics. *)
Definition MarshalPeerswapMessage `{!Env} {S} (msg : option PeerMessage)
    : M S (result (string * Z)) :=
  m ← deref msg;
  match json_Marshal m with
  | Err e => mret (Err e)
  | Ok b => mret (Ok (b, PeerMessage_MessageType m))
  end.

(** [premium.Setting.Compute] with the errors of its (at most two) reads of the
    database. *)
Definition ps_Compute `{!Env} {D} (peerID : string) (asset : AssetType)
    (operation : OperationType) (amtSat : Z) : Svc D (result Z) :=
  ios ← call DbPremium;
  b ← getw rates;
  mret (Setting_Compute (fst ios) (snd ios) peerID asset operation amtSat b).

(** ** Extensions of the record of calls *)
Inductive hist_ext (P : Entry → Prop) (h : History) : History → Prop :=
  | hist_ext_refl : hist_ext P h h
  | hist_ext_cons e h' : P e → hist_ext P h h' → hist_ext P h (e :: h').
#[export] Hint Constructors hist_ext : go.

Lemma hist_ext_trans P h1 h2 h3 : hist_ext P h1 h2 → hist_ext P h2 h3 → hist_ext P h1 h3.
Proof. intros H1. induction 1; eauto with go. Qed.

Lemma hist_ext_mono (P Q : Entry → Prop) h h' :
  (∀ e, P e → Q e) → hist_ext P h h' → hist_ext Q h h'.
Proof. intros HPQ. induction 1; eauto with go. Qed.

Lemma hist_ext_iff P h h' : hist_ext P h h' ↔ ∃ new, h' = new ++ h ∧ Forall P new.
Proof.
  split.
  - induction 1 as [|e h' He _ (new & -> & Hnew)]; [by exists []|].
    exists (e :: new). auto.
  - intros (new & -> & Hnew). induction Hnew; cbn; eauto with go.
Qed.

(** ** Reasoning about calls *)
Section call_rules.
Context `{!Env} {D : Type}.

Lemma wp_call c (Q : answer c → World * D → Prop) R w d :
  Q (ask (hist w) c) (record c w, d) → wp (call c) Q R (w, d).
Proof. done. Qed.
Lemma wp_getl (Q : D → World * D → Prop) R w d : Q d (w, d) → wp getl Q R (w, d).
Proof. done. Qed.
Lemma wp_setl f (Q : () → World * D → Prop) R w d : Q () (w, f d) → wp (setl f) Q R (w, d).
Proof. done. Qed.
Lemma wp_getw {A} (f : World → A) (Q : A → World * D → Prop) R w d :
  Q (f w) (w, d) → wp (getw f) Q R (w, d).
Proof. done. Qed.
Lemma wp_setw f (Q : () → World * D → Prop) R w d : Q () (f w, d) → wp (setw f) Q R (w, d).
Proof. done. Qed.
Lemma wp_zoom {T A} (get : D → T) put (m : Svc T A) (Q : A → World * D → Prop)
    (R : stop → World * D → Prop) w d :
  wp m (λ a '(w', t), Q a (w', put t d)) (λ k '(w', t), R k (w', put t d)) (w, get d) →
  wp (zoom get put m) Q R (w, d).
Proof. unfold wp, zoom. by destruct (m (w, get d)) as [[]|[]|[]]. Qed.
Lemma wp_Marshal {S} (msg : option PeerMessage) (Q : result (string * Z) → S → Prop) R s :
  (msg = None → R Panicked s) →
  (∀ m e, msg = Some m → json_Marshal m = Err e → Q (Err e) s) →
  (∀ m b, msg = Some m → json_Marshal m = Ok b → Q (Ok (b, PeerMessage_MessageType m)) s) →
  wp (MarshalPeerswapMessage msg) Q R s.
Proof.
  unfold MarshalPeerswapMessage, wp. intros HN HE HO. destruct msg as [m|]; [|by apply HN].
  cbn. unfold mbind, M_bind. cbn. destruct (json_Marshal m) eqn:E; cbn; eauto.
Qed.
End call_rules.

(** One step of a [wp] goal over the world: [wp_step] and the rules above. *)
Ltac svc_step :=
  lazymatch goal with
  | |- wp (call ?c) ?Q _ (?w, ?d) =>
      change (Q (ask (hist w) c) (record c w, d)); cbv beta
  | |- wp getl ?Q _ (?w, ?d) => change (Q d (w, d)); cbv beta
  | |- wp (setl ?f) ?Q _ (?w, ?d) => change (Q () (w, f d)); cbv beta
  | |- wp (getw ?f) ?Q _ (?w, ?d) => change (Q (f w) (w, d)); cbv beta
  | |- wp (setw ?f) ?Q _ (?w, ?d) => change (Q () (f w, d)); cbv beta
  | |- wp (zoom _ _ _) _ _ _ => apply wp_zoom
  | |- wp (MarshalPeerswapMessage _) _ _ _ => apply wp_Marshal; intros
  | _ => wp_step; cbv beta
  end.

Lemma getOnChainServices_Ok asset ch :
  getOnChainServices asset = Ok ch →
  (asset = btc_chain ∧ ch = Bitcoin) ∨ (asset = l_btc_chain ∧ ch = Liquid).
Proof.
  unfold getOnChainServices. repeat case_bool_decide; intros [= <-]; auto.
Qed.

Lemma GetChain_services s :
  GetChain s = "" ∨ is_ok (getOnChainServices (GetChain s)) = true.
Proof. unfold GetChain. repeat case_bool_decide; auto. Qed.
