(* ===== verification/Demo.v ===== *)
(** * A concrete environment

    One lightning node, wallet and watcher that answer every call: invoices are
    the printed amount, payments succeed and reveal a fixed preimage, blocks
    stand at height 100.  It is the environment of the worked examples that show
    the hypotheses of the properties can hold; no property is about it. *)

From S2P Require Import Prelude GoLib Messages Premium Policy SwapData Timelock Env.

Definition demo_key : string := "0123456789abcdef0123456789abcdef".
Definition demo_hex32 : string := hex.EncodeToString demo_key.
Definition demo_pub : string := hex.EncodeToString (demo_key +:+ "0").

Definition demo_params (c : Call) : answer c :=
  match c with
  | DecodePayreq p =>
      Ok (mkDecoded demo_hex32 (match strconv.Atoi p with Ok n => n | Err _ => 0 end) 29)
  | GetPayreq amt _ _ _ _ _ _ => Ok (strconv.Itoa amt)
  | PayInvoiceViaChannel _ _ => Ok demo_hex32
  | AddPaymentNotifier _ _ _ => ()
  | RebalancePayment _ _ _ => Ok demo_hex32
  | RecoverClaimPayment _ => Ok demo_hex32
  | CanSpend _ => None
  | Implementation => "DEMO"
  | SpendableMsat _ => Ok (10 ^ 12)
  | ReceivableMsat _ => Ok (10 ^ 12)
  | ProbePayment _ _ => Ok (true, "")
  | SendMessage _ _ _ => None
  | AddWaitForConfirmationTx _ _ _ _ _ _ _ => ()
  | AddWaitForCsvTx _ _ _ _ _ _ _ => ()
  | GetBlockHeight _ => Ok 100
  | ValidateTx _ _ _ => Ok true
  | SetLabel _ _ _ _ => None
  | CreateOpeningTransaction _ _ => Ok (mkOpeningTx "hex" "addr" demo_hex32 100 0)
  | CreatePreimageSpendingTransaction _ _ _ => Ok (mkSpendingTx "claim" "hex" "addr")
  | CreateCsvSpendingTransaction _ _ _ => Ok (mkSpendingTx "csv" "hex" "addr")
  | CreateCoopSpendingTransaction _ _ _ _ => Ok (mkSpendingTx "coop" "hex" "addr")
  | GetOutputScript _ _ => Ok "script"
  | GetFlatOpeningTXFee _ => Ok 300
  | GetWalletAsset _ => demo_pub
  | GetWalletNetwork _ => "regtest"
  | GetOnchainBalance _ => Ok (10 ^ 9)
  | RandPreimage => Ok demo_key
  | RandPrivateKey => Ok demo_key
  | RandSwapId => demo_key
  | TimeNow => 0
  | AddNewTimeOut _ _ => ()
  | PaymentTicks => 3%nat
  | DbBegin _ => None
  | DbPut _ => None
  | DbCommit => None
  | DbPremium => (None, None)
  | PolicyFile => fileIO_ok ini_by_line
  end.

Definition demo_env (answers : History → ∀ c : Call, answer c) : Env := {|
  PrivKeyFromBytes := λ b, b;
  PubKey := λ k, k +:+ "0";
  sha256 := λ b, b;
  json_Marshal := λ _, Ok "json";
  json_SwapInRequest := λ _, Ok None;
  json_SwapInAgreement := λ _, Ok None;
  json_SwapOutRequest := λ _, Ok None;
  json_SwapOutAgreement := λ _, Ok None;
  json_OpeningTxBroadcasted := λ _, Ok None;
  json_Cancel := λ b, Ok (Some (CancelMessage.mk (Some b) "cancel"));
  json_CoopClose := λ _, Ok None;
  bitcoinEnabled := true;
  liquidEnabled := true;
  ask := answers |}.

(** All calls succeed. *)
Definition demo : Env := demo_env (λ _, demo_params).

(** The world before the first swap: empty stores, every peer allowed. *)
Definition demo_world : World := {|
  hist := []; swaps := Some ∅; requested := ∅;
  policy := mkPolicyState (DefaultPolicy <| path := "policy.conf" |> <| AcceptAllPeers := true |>
              <| MinSwapAmountMsat := 1000 |>) "";
  rates := Some ∅; senders := ∅ |}.
