(* ===== verification/Store.v ===== *)
(** * The swap store and the requested-swaps store (src/swap/store.go)

    Both are buckets of the bbolt database, held by [World].  A transaction may
    fail at [Begin], [Put] or [Commit], as the environment says; a transaction
    that does not commit leaves the bucket as it was.  The file also holds the
    record of the state machine (src/swap/fsm.go), which is what the swap store
    keeps, and the summary of the requested swaps (src/swap/requestedswaps.go). *)

From stdpp Require Import sorting.
From S2P Require Import Prelude GoLib Messages Premium Policy SwapData Timelock Env.

(** ** The state machine record (fsm.go)

    The table [States] is not a field: the constructors and the [FromStore]
    functions set it from the type and the role (see Fsm).  [mutex], [stateMutex]
    and [stateChange] order concurrent calls; every operation here is one
    critical section. *)
Record SwapStateMachine := mkMachine {
  sm_SwapId : option SwapId;
  sm_Data : SwapData;
  sm_Type : SwapType;
  sm_Role : SwapRole;
  sm_Previous : StateType;
  sm_Current : StateType;
  sm_retries : Z;
}.

#[export] Instance SwapStateMachine_eta : Eta SwapStateMachine := λ s, mkMachine
  (sm_SwapId s) (sm_Data s) (sm_Type s) (sm_Role s) (sm_Previous s) (sm_Current s)
  (sm_retries s).

(** The json of a machine, and the machine read back. *)
Definition to_stored (sm : SwapStateMachine) : StoredSwap := {|
  st_SwapId := sm_SwapId sm;
  st_Data := sm_Data sm <| LastErr := None |> <| toCancel := false |>;
  st_Type := sm_Type sm;
  st_Role := sm_Role sm;
  st_Previous := sm_Previous sm;
  st_Current := sm_Current sm |}.

Definition from_stored (st : StoredSwap) : SwapStateMachine := {|
  sm_SwapId := st_SwapId st;
  sm_Data := st_Data st;
  sm_Type := st_Type st;
  sm_Role := st_Role st;
  sm_Previous := st_Previous st;
  sm_Current := st_Current st;
  sm_retries := 0 |}.

(** ** bboltStore *)
Definition ErrDoesNotExist : error := ErrSentinel "swap.ErrDoesNotExist" "does not exist".
Definition ErrAlreadyExists : error := ErrSentinel "swap.ErrAlreadyExists" "swap already exist".
Definition ErrDataNotAvailable : error :=
  ErrSentinel "swap.ErrDataNotAvailable" "data not in store".
Definition errBucketNil : error := ErrText "bucket nil".

(** [h2b]: the bytes decoded before the first invalid digit. *)
Definition h2b (str : string) : string := fst (hex.DecodeString str).

(** [b.ForEach] visits the keys in byte order. *)
Definition key_le {V} (a b : string * V) : Prop := String.leb (fst a) (fst b) = true.
#[export] Instance key_le_dec {V} (a b : string * V) : Decision (key_le a b).
Proof. unfold key_le. apply _. Defined.
Definition for_each {V} (m : gmap string V) : list V :=
  snd <$> merge_sort key_le (map_to_list m).

Section store.
Context `{!Env} {D : Type}.

(** The bucket inside a transaction; [k] runs in it. *)
Definition with_bucket {A} (writable : bool)
    (k : gmap string StoredSwap → Svc D (result A)) : Svc D (result A) :=
  do? call (DbBegin writable) else e => mret (Err e) in
  b ← getw swaps;
  match b with
  | None => mret (Err errBucketNil)
  | Some m => k m
  end.

(** [b.Put] and [tx.Commit]. *)
Definition put_commit (key : string) (v : StoredSwap) : Svc D (option error) :=
  do? call (DbPut key) else e => mret (Some e) in
  do? call DbCommit else e => mret (Some e) in
  setw (λ w, w <| swaps := insert key v <$> swaps w |>);;
  mret None.

Definition result_err {A} (r : result A) : option error :=
  match r with Ok _ => None | Err e => Some e end.

Definition GetById (s : string) : Svc D (result SwapStateMachine) :=
  with_bucket false (λ m,
    match m !! h2b s with
    | None => mret (Err ErrDoesNotExist)
    | Some v => mret (Ok (from_stored v))
    end).

Definition idExists (id : string) : Svc D (result bool) :=
  r ← GetById id;
  match r with
  | Ok _ => mret (Ok true)
  | Err e => if bool_decide (e = ErrDoesNotExist) then mret (Ok false) else mret (Err e)
  end.

Definition write_swap (swap : SwapStateMachine) : Svc D (option error) :=
  r ← with_bucket true (λ _,
    e ← put_commit (h2b (SwapId_String (sm_SwapId swap))) (to_stored swap);
    mret (match e with Some e => Err e | None => Ok () end));
  mret (result_err r).

Definition Create (swap : SwapStateMachine) : Svc D (option error) :=
  let? exists_ := idExists (SwapId_String (sm_SwapId swap)) else e => mret (Some e) in
  if (exists_ : bool) then mret (Some ErrAlreadyExists) else write_swap swap.

Definition Update (swap : SwapStateMachine) : Svc D (option error) :=
  let? exists_ := idExists (SwapId_String (sm_SwapId swap)) else e => mret (Some e) in
  if (exists_ : bool) then write_swap swap else mret (Some ErrDoesNotExist).

Definition UpdateData (swap : SwapStateMachine) : Svc D (option error) :=
  err ← Update swap;
  if bool_decide (err = Some ErrDoesNotExist) then Create swap else mret err.

Definition GetData (id : string) : Svc D (result SwapStateMachine) :=
  r ← GetById id;
  match r with
  | Err e => if bool_decide (e = ErrDoesNotExist) then mret (Err ErrDataNotAvailable)
             else mret (Err e)
  | Ok swap => mret (Ok swap)
  end.

Definition DeleteById (s : string) : Svc D (option error) :=
  r ← with_bucket true (λ _,
    do? call (DbPut (h2b s)) else e => mret (Err e) in
    do? call DbCommit else e => mret (Err e) in
    setw (λ w, w <| swaps := delete (h2b s) <$> swaps w |>);;
    mret (Ok ()));
  mret (result_err r).

Definition ListAll : Svc D (result (list SwapStateMachine)) :=
  with_bucket false (λ m, mret (Ok (from_stored <$> for_each m))).

Definition ListAllByPeer (peer : string) : Svc D (result (list SwapStateMachine)) :=
  with_bucket false (λ m,
    mret (Ok (filter (λ s, PeerNodeId (sm_Data s) = peer) (from_stored <$> for_each m)))).

(** ** requestedSwapsStore *)
Definition requested_Add (id : string) (reqswap : RequestedSwap) : Svc D (option error) :=
  do? call (DbBegin true) else e => mret (Some e) in
  b ← getw requested;
  let reqswaps := match b !! id with None => [reqswap] | Some l => l ++ [reqswap] end in
  do? call (DbPut id) else e => mret (Some e) in
  do? call DbCommit else e => mret (Some e) in
  setw (λ w, w <| requested := <[id := reqswaps]> (requested w) |>);;
  mret None.

Definition requested_GetAll : Svc D (result (gmap string (list RequestedSwap))) :=
  do? call (DbBegin false) else e => mret (Err e) in
  b ← getw requested;
  mret (Ok b).

(** A missing key unmarshals nil bytes, which is an error. *)
Definition requested_Get (id : string) : Svc D (result (list RequestedSwap)) :=
  do? call (DbBegin false) else e => mret (Err e) in
  b ← getw requested;
  match b !! id with
  | None => mret (Err (ErrText "unexpected end of JSON input"))
  | Some l => mret (Ok l)
  end.
End store.

(** ** requestedswaps.go *)
Record JsonAssetRequest := mkAssetRequest { TotalAmountSat : Z; NRequests : Z }.
Record JsonEntry := mkJsonEntry {
  NodeId : string;
  Requests : gmap string (gmap string JsonAssetRequest);
}.

#[export] Instance JsonAssetRequest_eq_dec : EqDecision JsonAssetRequest.
Proof. solve_decision. Defined.

(** One round of the inner loop of [RequestedSwapsPrinter.Get]. *)
Definition add_request (req : gmap string (gmap string JsonAssetRequest)) (r : RequestedSwap)
    : gmap string (gmap string JsonAssetRequest) :=
  let ty := SwapType_JsonFieldValue (rs_Type r) in
  let byAsset := default ∅ (req !! ty) in
  let a := match byAsset !! rs_Asset r with
           | None => mkAssetRequest (rs_AmountSat r) 1
           | Some a => mkAssetRequest (u64 (TotalAmountSat a + rs_AmountSat r))
                                      (u64 (NRequests a + 1))
           end in
  <[ty := <[rs_Asset r := a]> byAsset]> req.

Definition summarise (nodeId : string) (l : list RequestedSwap) : JsonEntry :=
  mkJsonEntry nodeId (foldl add_request ∅ l).

Definition Printer_Get `{!Env} {D} : Svc D (result (list JsonEntry)) :=
  r ← requested_GetAll;
  match r with
  | Err e => mret (Err (ErrWrap ("error reading requested swaps: " +:+ Error e) e))
  | Ok m => mret (Ok ((λ kv, summarise (fst kv) (snd kv)) <$> map_to_list m))
  end.

(** ** Properties *)

Lemma h2b_String id : h2b (SwapId_String (Some id)) = id.
Proof. unfold h2b. cbn. by rewrite hex.decode_encode. Qed.

(** The machine a store round trip gives back. *)
Lemma stored_roundtrip sm :
  from_stored (to_stored sm) =
    sm <| sm_Data := sm_Data sm <| LastErr := None |> <| toCancel := false |> |>
       <| sm_retries := 0 |>.
Proof. done. Qed.

Lemma to_from_stored sm : to_stored (from_stored (to_stored sm)) = to_stored sm.
Proof. done. Qed.

(** What [UpdateData] does to the world, calls aside. *)
Definition store_put (swap : SwapStateMachine) (w w' : World) : Prop :=
  swaps w' = <[h2b (SwapId_String (sm_SwapId swap)) := to_stored swap]> <$> swaps w ∧
  is_Some (swaps w).

(** Only calls to the database were made. *)
Definition is_db (c : Call) : bool :=
  match c with DbBegin _ | DbPut _ | DbCommit => true | _ => false end.

Record same_state (w w' : World) : Prop := {
  same_rest : w' = w <| hist := hist w' |>;
  same_hist : hist_ext (λ e, is_db (call_of e) = true) (hist w) (hist w');
}.

Section store_properties.
Context `{!Env} {D : Type}.
Implicit Types (w : World) (d : D) (R : stop → World * D → Prop).

Lemma same_state_refl w : same_state w w.
Proof. split; [by destruct w|constructor]. Qed.
Lemma same_state_record c w w' :
  is_db c = true → same_state w w' → same_state w (record c w').
Proof.
  intros Hc [Hr Hh]. split; [by rewrite Hr|]. cbn. by constructor.
Qed.
Lemma same_state_trans w1 w2 w3 : same_state w1 w2 → same_state w2 w3 → same_state w1 w3.
Proof.
  intros [H1 H1'] [H2 H2']. split; [by rewrite H2, H1|by eapply hist_ext_trans].
Qed.
Lemma same_state_swaps w w' : same_state w w' → swaps w' = swaps w.
Proof. by intros [-> _]. Qed.
(** The machine was put, and nothing else changed. *)
Lemma put_after_same_state swap w1 w2 w3 :
  same_state w1 w2 → store_put swap w2 w3 → same_state w2 (w3 <| swaps := swaps w2 |>) →
  store_put swap w1 w3 ∧ same_state w1 (w3 <| swaps := swaps w1 |>).
Proof.
  intros H1 [H2 H3] H4. pose proof (same_state_swaps _ _ H1) as E.
  unfold store_put. rewrite E in H2, H3, H4. split; [done|].
  by eapply same_state_trans.
Qed.
#[local] Hint Resolve same_state_refl : go.
#[local] Hint Extern 1 (same_state _ (record _ _)) =>
  apply same_state_record; [reflexivity|] : go.

Lemma wp_with_bucket {A} b k (Q : result A → World * D → Prop) R w d :
  (∀ e w', same_state w w' → Q (Err e) (w', d)) →
  (∀ m w', same_state w w' → swaps w = Some m → wp (k m) Q R (w', d)) →
  wp (with_bucket b k) Q R (w, d).
Proof.
  intros HE HK. unfold with_bucket. do 2 svc_step.
  destruct (ask (hist w) (DbBegin b)) as [e|]; [by apply HE; eauto with go|].
  do 2 svc_step. cbn. destruct (swaps w) as [m|] eqn:E.
  - apply HK; eauto with go.
  - apply HE; eauto with go.
Qed.

(** Reads leave everything but the record of calls alone. *)
Lemma wp_idExists id (Q : result bool → World * D → Prop) R w d :
  (∀ r w', same_state w w' → Q r (w', d)) → wp (idExists id) Q R (w, d).
Proof.
  intros HQ. unfold idExists, GetById. wp_step. apply wp_with_bucket.
  - intros e w' Hw. case_bool_decide; by apply HQ.
  - intros m w' Hw Hm. destruct (m !! h2b id); [by apply HQ|].
    apply wp_ret. case_bool_decide; by apply HQ.
Qed.

Lemma wp_write_swap swap (Q : option error → World * D → Prop) R w d :
  (∀ e w', same_state w w' → Q (Some e) (w', d)) →
  (∀ w', store_put swap w w' → same_state w (w' <| swaps := swaps w |>) → Q None (w', d)) →
  wp (write_swap swap) Q R (w, d).
Proof.
  intros HE HO. unfold write_swap. wp_step. apply wp_with_bucket.
  - intros e w' Hw. by apply HE.
  - intros m w' Hw Hm. wp_step. unfold put_commit. do 2 svc_step.
    destruct (ask _ _) as [e|]; [apply HE; eauto with go|].
    do 2 svc_step.
    destruct (ask _ _) as [e|]; [apply HE; eauto with go|].
    do 2 svc_step. apply HO.
    + unfold store_put. cbn. rewrite (same_state_swaps _ _ Hw), Hm. by eauto.
    + change (same_state w (record DbCommit
        (record (DbPut (h2b (SwapId_String (sm_SwapId swap)))) w') <| swaps := swaps w |>)).
      rewrite <- (same_state_swaps _ _ Hw).
      change (same_state w (record DbCommit
        (record (DbPut (h2b (SwapId_String (sm_SwapId swap)))) (w' <| swaps := swaps w' |>)))).
      replace (w' <| swaps := swaps w' |>) with w' by (by destruct w').
      eauto with go.
Qed.

Lemma wp_store_write (create : bool) swap (Q : option error → World * D → Prop) R w d :
  (∀ e w', same_state w w' → Q (Some e) (w', d)) →
  (∀ w', store_put swap w w' → same_state w (w' <| swaps := swaps w |>) → Q None (w', d)) →
  wp (if create then Create swap else Update swap) Q R (w, d).
Proof.
  intros HE HO.
  assert (∀ w', same_state w w' → wp (write_swap swap) Q R (w', d)) as Hwrite.
  { intros w' Hw. apply wp_write_swap.
    - intros e w'' Hw'. eapply HE, same_state_trans; eauto.
    - intros w'' H1 H2. destruct (put_after_same_state swap w w' w''); auto. }
  destruct create; unfold Create, Update; wp_step; apply wp_idExists; intros [[]|e] w' Hw; eauto using wp_ret.
Qed.

(** [UpdateData] either fails and changes nothing, or puts the machine. *)
Lemma wp_UpdateData swap (Q : option error → World * D → Prop) R w d :
  (∀ e w', same_state w w' → Q (Some e) (w', d)) →
  (∀ w', store_put swap w w' → same_state w (w' <| swaps := swaps w |>) → Q None (w', d)) →
  wp (UpdateData swap) Q R (w, d).
Proof.
  intros HE HO. unfold UpdateData. wp_step.
  apply (wp_store_write false); intros.
  - case_bool_decide; [|by apply wp_ret, HE].
    apply (wp_store_write true); intros.
    + eapply HE, same_state_trans; eauto.
    + by edestruct (put_after_same_state swap w); eauto.
  - by apply HO.
Qed.
End store_properties.

Lemma GetById_run `{!Env} {D} id m w (d : D) :
  ask (hist w) (DbBegin false) = None → swaps w = Some m →
  GetById id (w, d) =
    Ret (record (DbBegin false) w, d)
        (match m !! h2b id with None => Err ErrDoesNotExist | Some v => Ok (from_stored v) end).
Proof.
  intros Ha Hm. unfold GetById, with_bucket, mbind, M_bind. cbn. rewrite Ha. cbn.
  rewrite Hm. by destruct (m !! h2b id).
Qed.

(** Storing a swap and reading it back: when [UpdateData] succeeded and the
    read transaction can be opened, [GetData] returns the machine that was
    stored, less the fields that are not part of the json; every other swap of
    the store is as it was. *)
Theorem store_update_get `{!Env} {D} swap id w w1 (d d1 : D) :
  sm_SwapId swap = Some id →
  UpdateData swap (w, d) = Ret (w1, d1) None →
  ask (hist w1) (DbBegin false) = None →
  GetData (SwapId_String (Some id)) (w1, d1) =
    Ret (record (DbBegin false) w1, d1) (Ok (from_stored (to_stored swap))) ∧
  ∀ id', id' ≠ id → (swaps w1 ≫= (!!) id') = (swaps w ≫= (!!) id').
Proof.
  intros Hid Hupd Hask.
  assert (store_put swap w w1) as [Hput [m Hm]].
  { eapply (wp_elim (UpdateData swap) (λ r '(w', _), r = None → store_put swap w w')
      any_stop) in Hupd; [by apply Hupd|].
    apply wp_UpdateData; intros; auto; done. }
  rewrite Hid, h2b_String, Hm in Hput. split.
  - unfold GetData, mbind, M_bind. erewrite GetById_run by (exact Hput || done).
    rewrite h2b_String, lookup_insert_eq. done.
  - intros id' Hne. rewrite Hput, Hm. cbn. by rewrite lookup_insert_ne.
Qed.

(** The summary a list of requests should have under a type and an asset. *)
Definition request_totals (ty asset : string) (l : list RequestedSwap)
    : option JsonAssetRequest :=
  match filter (λ r, SwapType_JsonFieldValue (rs_Type r) = ty ∧ rs_Asset r = asset) l with
  | [] => None
  | l => Some (mkAssetRequest (u64 (foldr Z.add 0 (rs_AmountSat <$> l)))
                              (u64 (Z.of_nat (length l))))
  end.

Lemma u64_add_l a b : u64 (u64 a + b) = u64 (a + b).
Proof. apply Zplus_mod_idemp_l. Qed.

Lemma foldr_add_app l1 l2 :
  foldr Z.add 0 (l1 ++ l2) = foldr Z.add 0 l1 + foldr Z.add 0 l2.
Proof. induction l1 as [|a l1 IH]; [done|]. change (a + foldr Z.add 0 (l1 ++ l2) = a + foldr Z.add 0 l1 + foldr Z.add 0 l2). rewrite IH. lia. Qed.

Lemma request_totals_snoc ty asset l r :
  is_u64 (rs_AmountSat r) →
  request_totals ty asset (l ++ [r]) =
    if decide (SwapType_JsonFieldValue (rs_Type r) = ty ∧ rs_Asset r = asset) then
      match request_totals ty asset l with
      | None => Some (mkAssetRequest (rs_AmountSat r) 1)
      | Some a => Some (mkAssetRequest (u64 (TotalAmountSat a + rs_AmountSat r))
                                       (u64 (NRequests a + 1)))
      end
    else request_totals ty asset l.
Proof.
  intros Hr. unfold request_totals. rewrite filter_app, filter_cons, filter_nil.
  destruct (decide _) as [Hd|]; [|by rewrite app_nil_r].
  destruct (filter _ l) as [|x l'] eqn:E.
  - cbn. rewrite Z.add_0_r, u64_small by done. done.
  - change ((x :: l') ++ [r]) with (x :: (l' ++ [r])). cbn [TotalAmountSat NRequests].
    rewrite !u64_add_l. f_equal. f_equal.
    + f_equal. rewrite !fmap_cons, fmap_app. cbn [foldr fmap list_fmap].
      change (rs_AmountSat x + foldr Z.add 0 ((rs_AmountSat <$> l') ++ [rs_AmountSat r]) =
              rs_AmountSat x + foldr Z.add 0 (rs_AmountSat <$> l') + rs_AmountSat r).
      rewrite foldr_add_app. cbn. lia.
    + f_equal. cbn [length]. rewrite length_app. cbn. lia.
Qed.

(** The summary of the rejected requests of a peer is exact: under every swap
    type and asset it holds the sum of the requested amounts and the number of
    requests (modulo 2^64), and nothing where there was no request. *)
Theorem requested_summary_exact nodeId l ty asset :
  Forall (λ r, is_u64 (rs_AmountSat r)) l →
  (Requests (summarise nodeId l) !! ty ≫= (!!) asset) = request_totals ty asset l.
Proof.
  unfold summarise. cbn [Requests].
  induction l as [|r l IH] using rev_ind; intros Hl; [done|].
  apply Forall_app in Hl as [Hl Hr]. inversion_clear Hr as [|? ? Hr1 _].
  rewrite request_totals_snoc by exact Hr1. rewrite <- (IH Hl). rewrite foldl_app. cbn [foldl].
  set (req := foldl add_request ∅ l). unfold add_request.
  destruct (decide (SwapType_JsonFieldValue (rs_Type r) = ty)) as [->|Hty].
  - rewrite lookup_insert_eq. cbn.
    destruct (decide (rs_Asset r = asset)) as [->|Ha].
    + rewrite lookup_insert_eq, decide_True by done.
      destruct (req !! ty); cbn; [by destruct (_ !! asset)|by rewrite lookup_empty].
    + rewrite lookup_insert_ne, decide_False by naive_solver.
      destruct (req !! ty); cbn; [done|by rewrite lookup_empty].
  - rewrite lookup_insert_ne, decide_False by naive_solver. done.
Qed.

Example requested_summary_exact_witness :
  (Requests (summarise "p" [mkRequestedSwap "btc" 5 SWAPTYPE_IN "x";
                            mkRequestedSwap "btc" 7 SWAPTYPE_IN "y"]) !! "swap_in"
     ≫= (!!) "btc") = Some (mkAssetRequest 12 2).
Proof.
  rewrite requested_summary_exact.
  - vm_compute. reflexivity.
  - by repeat constructor.
Defined.
