(* ===== verification/Actions.v ===== *)
(** * The actions of the swap state machines (src/swap/actions.go)

    [Action] has one constructor per action type of the source, wrappers carry
    their [next] action, and [Execute] is its method [Execute]: it runs over the
    world and the swap's data, and returns the next event.  A nil dereference is
    a panic. *)

From S2P Require Import Prelude GoLib Messages Premium Policy SwapData Timelock Env Store.

Inductive Action :=
  | CheckRequestWrapperAction (next : Action)
  | SwapInReceiverInitAction
  | ClaimSwapTransactionWithPreimageAction
  | CheckPremiumAmount (next : Action)
  | CreateAndBroadcastOpeningTransaction
  | StopSendMessageWithRetryWrapperAction (next : Action)
  | AwaitPaymentOrCsvAction
  | AwaitFeeInvoicePayment
  | AwaitCsvAction
  | SetBlindingKeyActionWrapper (next : Action)
  | CreateSwapOutFromRequestAction
  | ClaimSwapTransactionWithCsv
  | ClaimSwapTransactionCoop
  | SendCancelAction
  | TakerSendPrivkeyAction
  | CreateSwapRequestAction
  | SendMessageAction
  | SendMessageWithRetryAction
  | PayFeeInvoiceAction
  | AwaitTxConfirmationAction
  | ValidateTxAndPayClaimInvoiceAction
  | SetStartingBlockHeightAction
  | NoOpAction
  | NoOpDoneAction
  | CancelAction
  | AddSuspiciousPeerAction (next : Action).

#[export] Instance Action_eq_dec : EqDecision Action.
Proof. solve_decision. Defined.

Section actions.
Context `{!Env}.
Abbreviation Act := (Svc SwapData EventType).

(** [return swap.HandleError(err)]. *)
Definition handle (err : option error) : Act :=
  s ← getl;
  let '(s', ev) := HandleError err s in
  setl (λ _, s');; mret ev.
Definition fail_with (err : error) : Act := handle (Some err).
Definition fail_text (msg : string) : Act := fail_with (ErrText msg).

(** Services of the swap's chain, or the failing action. *)
Definition with_chain (k : Chain → Act) : Act :=
  s ← getl;
  match getOnChainServices (GetChain s) with
  | Err e => fail_with e
  | Ok ch => k ch
  end.

Definition with_timelock (k : timelockPolicy → Act) : Act :=
  s ← getl;
  match getTimelockPolicy s with
  | Err e => fail_with e
  | Ok p => k p
  end.

(** [swap.NextMessage, swap.NextMessageType = MarshalPeerswapMessage(msg)]. *)
Definition set_next_message (msg : option PeerMessage) (k : Act) : Act :=
  let? r := MarshalPeerswapMessage msg else e => fail_with e in
  setl (λ s, s <| NextMessage := Some (fst r) |> <| NextMessageType := snd r |>);;
  k.

(** The timer of ten minutes set by the first action of every role. *)
Definition start_timeout : Svc SwapData () :=
  setl (λ s, s <| toCancel := true |>);;
  s ← getl;
  call (AddNewTimeOut 600 (SwapId_String (GetId s))).

(** *** Checks of an incoming request *)

(** [services.requestedSwapsStore.Add(...)], its error dropped. *)
Definition add_rejection : Svc SwapData () :=
  s ← getl;
  requested_Add (PeerNodeId s)
    {| rs_Asset := GetChain s; rs_AmountSat := GetAmount s; rs_Type := GetType s;
       rs_RejectionReason := CancelMessage s |};;
  mret ().

Definition reject (msg : string) (err : error) : Act :=
  setl (λ s, s <| CancelMessage := msg |>);;
  add_rejection;;
  fail_with err.

(** The rejections that also assign [swap.LastErr] first. *)
Definition reject_unsupported (msg : string) : Act :=
  setl (λ s, s <| LastErr := Some (ErrText msg) |>);;
  reject msg (ErrText msg).

Definition check_request (next : Act) : Act :=
  pol ← getw (λ w, conf (policy w));
  if negb (NewSwapsAllowed pol) then reject_unsupported "swaps are disabled" else
  s ← getl;
  if bool_decide (GetChain s = l_btc_chain) && negb liquidEnabled then
    reject_unsupported "lbtc swaps are not supported" else
  if bool_decide (GetChain s = btc_chain) && negb bitcoinEnabled then
    reject_unsupported "btc swaps are not supported" else
  if negb (GetProtocolVersion s =? PEERSWAP_PROTOCOL_VERSION) then
    reject "incompatible peerswap version" (ErrText "incompatible peerswap version") else
  if u64 (GetAmount s * 1000) <? GetMinSwapAmountMsat pol then
    let msg := Error (ErrMinimumSwapSize (GetMinSwapAmountMsat pol)) in
    reject msg (ErrText msg) else
  with_chain (λ ch,
  asset ← (if bool_decide (GetAsset s ≠ "") then call (GetWalletAsset ch)
           else mret (GetAsset s) : Svc SwapData string);
  if bool_decide (GetAsset s ≠ "" ∧ GetAsset s ≠ asset) then
    let msg := "invalid liquid asset " +:+ GetAsset s in
    reject msg (ErrText msg) else
  network ← (if bool_decide (GetNetwork s ≠ "") then call (GetWalletNetwork ch)
             else mret (GetNetwork s) : Svc SwapData string);
  if bool_decide (GetNetwork s ≠ "" ∧ GetNetwork s ≠ network) then
    let msg := "invalid bitcoin network " +:+ GetNetwork s in
    reject msg (ErrText msg) else
  if negb (IsPeerAllowed pol (PeerNodeId s)) then
    reject ("peer " +:+ PeerNodeId s +:+ " not allowed to request swaps")
      (PeerNotAllowedError (PeerNodeId s)) else
  if IsPeerSuspicious pol (PeerNodeId s) then
    reject ("peer " +:+ PeerNodeId s +:+ " not allowed to request swaps")
      (PeerIsSuspiciousError (PeerNodeId s)) else
  next).

(** *** Creating and answering a request *)
Definition setLiquidPaymentWindowAnchor : Svc SwapData (option error) :=
  s ← getl;
  if bool_decide (GetChain s ≠ l_btc_chain ∨ GetProtocolVersion s ≠ PEERSWAP_PROTOCOL_VERSION)
  then mret None
  else
    match getOnChainServices (GetChain s) with
    | Err e => mret (Some e)
    | Ok ch =>
        let? height := call (GetBlockHeight ch) else e => mret (Some e) in
        setl (λ s, s <| StartingBlockHeight := height |> <| StartingBlockHeightSet := true |>);;
        mret None
    end.

Definition chain_asset (s : SwapData) : AssetType :=
  if bool_decide (GetChain s = l_btc_chain) then LBTC else BTC.

Definition exec_SwapInReceiverInit : Act :=
  do? setLiquidPaymentWindowAnchor else e => fail_with e in
  s ← getl;
  let? premiumValue := ps_Compute (PeerNodeId s) (chain_asset s) SwapIn (GetAmount s)
    else e => fail_with e in
  let agreementMessage :=
    SwapInAgreementMessage.mk PEERSWAP_PROTOCOL_VERSION (GetId s) (own_pubkey s)
      premiumValue in
  setl (λ s, s <| SwapInAgreement := Some agreementMessage |>);;
  set_next_message (Some (MsgSwapInAgreement agreementMessage)) (
  start_timeout;;
  mret Event_ActionSucceeded).

Definition exec_CreateSwapRequest : Act :=
  do? setLiquidPaymentWindowAnchor else e => fail_with e in
  s ← getl;
  set_next_message (GetRequest s) (
  start_timeout;;
  mret Event_ActionSucceeded).

Definition memo (s : SwapData) (t : InvoiceType) : string :=
  "peerswap " +:+ GetChain s +:+ " " +:+ InvoiceType_String t +:+ " " +:+
  GetScidInBoltFormat s +:+ " " +:+ SwapId_String (GetId s).

Definition exec_SetBlindingKey (next : Act) : Act :=
  s ← getl;
  if bool_decide (GetChain s = l_btc_chain) then
    let? blindingKey := call RandPrivateKey else e => fail_with e in
    setl (λ s, s <| BlindingKeyHex := hex.EncodeToString blindingKey |>);;
    next
  else next.

Definition exec_CreateSwapOutFromRequest : Act :=
  with_chain (λ ch,
  let? openingFee := call (GetFlatOpeningTXFee ch) else e => fail_with e in
  let? walletBalance := call (GetOnchainBalance ch) else e => fail_with e in
  s ← getl;
  if walletBalance <? u64 (GetAmount s + openingFee) then
    fail_text "insufficient walletbalance" else
  let? feepreimage := call RandPreimage else e => fail_with e in
  let? feeInvoice :=
    call (GetPayreq (u64 (openingFee * 1000)) (hex.EncodeToString feepreimage)
            (SwapId_String (GetId s)) (memo s INVOICE_FEE) INVOICE_FEE 600 0)
    else e => fail_with e in
  let? premiumValue := ps_Compute (PeerNodeId s) (chain_asset s) SwapOut (GetAmount s)
    else e => fail_with e in
  let message :=
    SwapOutAgreementMessage.mk PEERSWAP_PROTOCOL_VERSION (GetId s) (own_pubkey s)
      feeInvoice premiumValue in
  setl (λ s, s <| SwapOutAgreement := Some message |>);;
  set_next_message (Some (MsgSwapOutAgreement message)) (
  start_timeout;;
  mret Event_ActionSucceeded)).

(** *** Messages *)
Definition exec_SendCancel : Act :=
  s ← getl;
  let? r := MarshalPeerswapMessage
      (Some (MsgCancel (CancelMessage.mk (GetId s) (CancelMessage s))))
    else e => fail_with e in
  do? call (SendMessage (PeerNodeId s) (fst r) (snd r)) else e => fail_with e in
  mret Event_ActionSucceeded.

Definition exec_TakerSendPrivkey : Act :=
  s ← getl;
  set_next_message
    (Some (MsgCoopClose (CoopCloseMessage.mk (GetId s) (CancelMessage s)
                           (hex.EncodeToString (PrivkeyBytes s))))) (
  mret Event_ActionSucceeded).

Definition exec_SendMessage : Act :=
  s ← getl;
  match NextMessage s with
  | None => fail_text "swap.NextMessage is nil"
  | Some msg =>
      do? call (SendMessage (PeerNodeId s) msg (NextMessageType s)) else e => fail_with e in
      mret Event_ActionSucceeded
  end.

(** The error of the first send is dropped: the messenger then has no
    goroutine that repeats the message (see [Redundant_SendMessage]). *)
Definition exec_SendMessageWithRetry : Act :=
  s ← getl;
  match NextMessage s with
  | None => fail_text "swap.NextMessage is nil"
  | Some msg =>
      let id := SwapId_String (GetId s) in
      ms ← getw senders;
      match Manager_AddSender id NewRedundantMessenger ms with
      | (_, Some e) => fail_with e
      | (ms, None) =>
          first ← call (SendMessage (PeerNodeId s) msg (NextMessageType s));
          let '(rm, _) := Redundant_SendMessage first
            (mkOutgoing (PeerNodeId s) msg (NextMessageType s)) NewRedundantMessenger in
          setw (λ w, w <| senders := <[id := rm]> ms |>);;
          mret Event_ActionSucceeded
      end
  end.

Definition remove_sender : Svc SwapData () :=
  s ← getl;
  setw (λ w, w <| senders := Manager_RemoveSender (SwapId_String (GetId s)) (senders w) |>).

Definition exec_StopSendMessageWithRetry (next : Act) : Act := remove_sender;; next.
Definition exec_NoOpDone : Act := remove_sender;; mret Event_Done.

Definition exec_Cancel : Act :=
  setl (λ s, match LastErr s with
             | Some e => s <| LastErrString := Error e |>
             | None => s
             end);;
  mret Event_Done.

(** *** The opening transaction *)
Definition premium_too_high (premium limit : Z) : error :=
  ErrText ("premium amt too high: " +:+ strconv.Itoa premium +:+ ", limit : " +:+
           strconv.Itoa limit).

(** The error of the last branch prints the whole struct; the dump is left
    out. *)
Definition exec_CheckPremiumAmount (next : Act) : Act :=
  s ← getl;
  match SwapInAgreement s, SwapOutAgreement s with
  | Some a, _ =>
      req ← deref (SwapInRequest s);
      if SwapInRequestMessage.PremiumLimit req <? SwapInAgreementMessage.Premium a
      then fail_with (premium_too_high (SwapInAgreementMessage.Premium a)
                        (SwapInRequestMessage.PremiumLimit req))
      else next
  | None, Some a =>
      req ← deref (SwapOutRequest s);
      if SwapOutRequestMessage.PremiumLimit req <? SwapOutAgreementMessage.Premium a
      then fail_with (premium_too_high (SwapOutAgreementMessage.Premium a)
                        (SwapOutRequestMessage.PremiumLimit req))
      else next
  | None, None => fail_text "unexpected swap data"
  end.

(** A label error is logged only; [Short] panics without an id. *)
Definition set_label (ch : Chain) (txId address : string) (label : string → string)
    : Svc SwapData () :=
  s ← getl;
  short ← deref (SwapId_Short (GetId s));
  call (SetLabel ch txId address (label short));;
  mret ().

Definition exec_CreateAndBroadcastOpeningTransaction : Act :=
  with_chain (λ ch,
  s ← getl;
  match OpeningTxBroadcasted s with
  | Some _ => mret Event_ActionSucceeded
  | None =>
  let? preimage := call RandPreimage else e => fail_with e in
  setl (λ s, s <| ClaimPreimage := hex.EncodeToString preimage |>);;
  with_timelock (λ policy,
  s ← getl;
  claimAmount ← deref (GetClaimAmount s);
  let? payreq :=
    call (GetPayreq (u64 (claimAmount * 1000)) (hex.EncodeToString preimage)
            (SwapId_String (GetId s)) (memo s INVOICE_CLAIM) INVOICE_CLAIM
            (GetInvoiceExpiry s) (GetInvoiceCltv s))
    else e => fail_with e in
  blindingKey ← (if bool_decide (GetChain s = l_btc_chain) then
                   p ← deref (GetOpeningParams s);
                   k ← deref (op_BlindingKey p);
                   mret (Some k)
                 else mret None : Svc SwapData (option string));
  openingAmount ← deref (GetOpeningTXAmount s);
  let? tx :=
    call (CreateOpeningTransaction ch
            {| op_TakerPubkey := GetTakerPubkey s;
               op_MakerPubkey := GetMakerPubkey s;
               op_ClaimPaymentHash := HashString preimage;
               op_Amount := openingAmount;
               op_CSV := CSV policy;
               op_BlindingKey := blindingKey |})
    else e => fail_with e in
  set_label ch (ot_txId tx) (ot_address tx) labels_Opening;;
  let? startingHeight := call (GetBlockHeight ch) else e => fail_with e in
  setl (λ s, s <| StartingBlockHeight := startingHeight |>);;
  setl (λ s,
    if bool_decide (GetChain s = l_btc_chain ∧
                    GetProtocolVersion s = PEERSWAP_PROTOCOL_VERSION)
    then s <| StartingBlockHeightSet := true |> else s);;
  setl (λ s, s <| OpeningTxHex := ot_txHex tx |>);;
  let message :=
    OpeningTxBroadcastedMessage.mk (GetId s) payreq (ot_txId tx) (ot_vout tx)
      (match blindingKey with Some k => hex.EncodeToString k | None => "" end) in
  setl (λ s, s <| OpeningTxBroadcasted := Some message |>);;
  set_next_message (Some (MsgOpeningTxBroadcasted message)) (
  mret Event_ActionSucceeded))
  end).

(** *** Waiting *)
Definition wait_for_csv (ch : Chain) : Act :=
  with_timelock (λ policy,
  s ← getl;
  params ← deref (GetOpeningParams s);
  let? wantScript := call (GetOutputScript ch params) else e => fail_with e in
  m ← deref (OpeningTxBroadcasted s);
  call (AddWaitForCsvTx ch (SwapId_String (GetId s)) (OpeningTxBroadcastedMessage.TxId m)
          (OpeningTxBroadcastedMessage.ScriptOut m) (StartingBlockHeight s) (CSV policy)
          wantScript);;
  mret NoOp).

Definition exec_AwaitPaymentOrCsv : Act :=
  with_chain (λ ch,
  s ← getl;
  m ← deref (OpeningTxBroadcasted s);
  call (AddPaymentNotifier (SwapId_String (GetId s)) (OpeningTxBroadcastedMessage.Payreq m)
          INVOICE_CLAIM);;
  wait_for_csv ch).

Definition exec_AwaitCsv : Act := with_chain wait_for_csv.

Definition exec_AwaitFeeInvoicePayment : Act :=
  s ← getl;
  m ← deref (SwapOutAgreement s);
  call (AddPaymentNotifier (SwapId_String (GetId s)) (SwapOutAgreementMessage.Payreq m)
          INVOICE_FEE);;
  mret NoOp.

(** *** Claiming *)
Definition exec_ClaimSwapTransactionWithPreimage : Act :=
  with_chain (λ ch,
  s ← getl;
  if bool_decide (ClaimTxId s = "") then
    params ← deref (GetOpeningParams s);
    let? tx := call (CreatePreimageSpendingTransaction ch params (GetClaimParams s))
      else e => mret Event_OnRetry in
    setl (λ s, s <| ClaimTxId := sp_txId tx |>);;
    set_label ch (sp_txId tx) (sp_address tx) labels_ClaimByInvoice;;
    mret Event_ActionSucceeded
  else mret Event_ActionSucceeded).

Definition exec_ClaimSwapTransactionWithCsv : Act :=
  s ← getl;
  match getOnChainServices (GetChain s) with
  | Err e => fail_with e;; mret Event_OnRetry
  | Ok ch =>
      if bool_decide (ClaimTxId s = "") then
        params ← deref (GetOpeningParams s);
        let? tx := call (CreateCsvSpendingTransaction ch params (GetClaimParams s))
          else e => (fail_with e;; mret Event_OnRetry) in
        setl (λ s, s <| ClaimTxId := sp_txId tx |>);;
        set_label ch (sp_txId tx) (sp_address tx) labels_ClaimByCsv;;
        mret Event_ActionSucceeded
      else mret Event_ActionSucceeded
  end.

Definition exec_ClaimSwapTransactionCoop : Act :=
  with_chain (λ ch,
  s ← getl;
  coop ← deref (CoopClose s);
  match hex.DecodeString (CoopCloseMessage.Privkey coop) with
  | (_, Some e) => fail_with e
  | (takerKeyBytes, None) =>
      if bool_decide (ClaimTxId s = "") then
        params ← deref (GetOpeningParams s);
        let? tx := call (CreateCoopSpendingTransaction ch params (GetClaimParams s)
                           (PrivKeyFromBytes takerKeyBytes))
          else e => fail_with e in
        setl (λ s, s <| ClaimTxId := sp_txId tx |>);;
        set_label ch (sp_txId tx) (sp_address tx) labels_ClaimByCoop;;
        mret Event_ActionSucceeded
      else mret Event_ActionSucceeded
  end).

(** *** Paying *)
Definition exec_PayFeeInvoice : Act :=
  with_chain (λ ch,
  s ← getl;
  agreement ← deref (SwapOutAgreement s);
  let? inv := call (DecodePayreq (SwapOutAgreementMessage.Payreq agreement))
    else e => fail_with e in
  request ← deref (SwapOutRequest s);
  let? sp := call (SpendableMsat (SwapOutRequestMessage.Scid request))
    else e => fail_with e in
  let msatAmt := dp_amountMsat inv in
  let requiredBalance := u64 (u64 (SwapOutRequestMessage.Amount request * 1000) + msatAmt) in
  if sp <? requiredBalance then
    fail_text ("not enough spendable msat: " +:+ strconv.Itoa sp +:+ ", expected: " +:+
               strconv.Itoa requiredBalance) else
  let? probe := call (ProbePayment (SwapOutRequestMessage.Scid request) requiredBalance)
    else e => fail_with e in
  if negb (fst probe : bool) then
    fail_text ("the prepayment probe was unsuccessful: " +:+ snd probe) else
  let openingTxFee := msatAmt / 1000 in
  setl (λ s, s <| OpeningTxFee := openingTxFee |>);;
  let? expectedFee := call (GetFlatOpeningTXFee ch) else e => fail_with e in
  let maxExpected := float64.to_uint64 (float64.mul (float64.rnd53 expectedFee) 3) in
  if maxExpected <? openingTxFee then
    fail_text ("Fee is too damn high. Max expected: " +:+ strconv.Itoa maxExpected +:+
               " Received " +:+ strconv.Itoa openingTxFee) else
  let? preimage := call (PayInvoiceViaChannel (SwapOutAgreementMessage.Payreq agreement)
                           (GetScid s))
    else e => fail_with e in
  setl (λ s, s <| FeePreimage := preimage |>);;
  mret Event_ActionSucceeded).

(** The invoice's final CLTV and amount, on either chain; the outer [None] is
    the panic of [GetClaimAmount]. *)
Definition check_claim_invoice (ch : Chain) (s : SwapData) (policy : timelockPolicy)
    (inv : DecodedPayreq) (payreq : string) : option (option error) :=
  if bool_decide (GetChain s = btc_chain) then
    let safetyLimit := GetCSVHeight ch / 2 in
    if safetyLimit <? dp_finalCLTVDelta inv then
      Some (Some (ErrText ("unsafe invoice cltv: " +:+
                     strconv.Itoa (dp_finalCLTVDelta inv) +:+
                     ", expected below: " +:+ strconv.Itoa safetyLimit)))
    else
      claimAmount ← GetClaimAmount s;
      if negb (dp_amountMsat inv =? u64 (claimAmount * 1000)) then
        Some (Some (ErrText ("invoice amount does not equal swap amount, invoice: " +:+
                     payreq +:+ ", swap " +:+ strconv.Itoa claimAmount)))
      else Some None
  else
    claimAmount ← GetClaimAmount s;
    Some (validateClaimInvoice (dp_amountMsat inv) (dp_finalCLTVDelta inv) claimAmount
            policy).

(** The payment window when the confirmation is awaited. *)
Definition check_await_height (ch : Chain) (s : SwapData) (policy : timelockPolicy)
    (height : Z) : option error :=
  if bool_decide (GetChain s = btc_chain) then
    if StartingBlockHeight s =? 0 then
      Some (ErrText "could not get starting block height of the swap.")
    else if u32 (StartingBlockHeight s + GetCSVHeight ch / 2) <=? height then
      Some (ErrText "exceeded safe swap range.")
    else None
  else checkPaymentWindow s height policy.

Definition exec_AwaitTxConfirmation : Act :=
  with_chain (λ ch,
  with_timelock (λ policy,
  s ← getl;
  if negb (AllowNewClaimPayment policy) then
    if bool_decide (OpeningTxHex s = "") then
      fail_text "claim payments are disabled for legacy swaps"
    else
      m ← deref (OpeningTxBroadcasted s);
      let? preimage := call (RecoverClaimPayment (OpeningTxBroadcastedMessage.Payreq m))
        else e => fail_with (ErrWrap ("recover legacy claim payment: " +:+ Error e) e) in
      setl (λ s, s <| ClaimPreimage := preimage |>);;
      mret Event_OnTxConfirmed
  else
  m ← deref (OpeningTxBroadcasted s);
  let payreq := OpeningTxBroadcastedMessage.Payreq m in
  let? inv := call (DecodePayreq payreq) else e => fail_with e in
  invoiceErr ← deref (check_claim_invoice ch s policy inv payreq);
  match invoiceErr with
  | Some e => fail_with e
  | None =>
  setl (λ s, s <| ClaimPaymentHash := dp_paymentHash inv |>);;
  let? height := call (GetBlockHeight ch)
    else e => fail_text "could not get block height." in
  s ← getl;
  match check_await_height ch s policy height with
  | Some e => fail_with e
  | None =>
  params ← deref (GetOpeningParams s);
  let? wantScript := call (GetOutputScript ch params) else e => fail_with e in
  call (AddWaitForConfirmationTx ch (SwapId_String (GetId s))
          (OpeningTxBroadcastedMessage.TxId m) (OpeningTxBroadcastedMessage.ScriptOut m)
          (StartingBlockHeight s) (PaymentWindow policy) wantScript);;
  mret NoOp
  end end)).

(** The check of every round of the payment loop; a nil error is passed to
    [HandleError] where the Bitcoin limit is passed. *)
Definition check_pay_height (ch : Chain) (s : SwapData) (policy : timelockPolicy) (now : Z)
    : option (option error) :=
  if bool_decide (GetChain s = btc_chain) &&
     (GetCSVHeight ch / 2 <? u32 (now - StartingBlockHeight s)) then Some None
  else if bool_decide (GetChain s = l_btc_chain) then
    match checkPaymentWindow s now policy with
    | Some e => Some (Some e)
    | None => None
    end
  else None.

(** [ticks] rounds of the ticker, then the deadline of the context. *)
Fixpoint pay_loop (ch : Chain) (policy : timelockPolicy) (ticks : nat)
    (payErr : option error) : Act :=
  match ticks with
  | O => fail_text ("could not pay invoice: timeout, last err: " +:+
                    match payErr with Some e => Error e | None => "<nil>" end)
  | S ticks =>
      let? now := call (GetBlockHeight ch) else e => fail_with e in
      s ← getl;
      match check_pay_height ch s policy now with
      | Some err => handle err
      | None =>
          m ← deref (OpeningTxBroadcasted s);
          r ← call (RebalancePayment (OpeningTxBroadcastedMessage.Payreq m) (GetScid s)
                      (MaxTotalCLTVDelta policy));
          match r with
          | Err e => pay_loop ch policy ticks (Some e)
          | Ok preimage =>
              setl (λ s, s <| ClaimPreimage := preimage |>);;
              mret Event_ActionSucceeded
          end
      end
  end.

Definition exec_ValidateTxAndPayClaimInvoice : Act :=
  with_chain (λ ch,
  with_timelock (λ policy,
  s ← getl;
  params ← deref (GetOpeningParams s);
  let? ok := call (ValidateTx ch params (OpeningTxHex s)) else e => fail_with e in
  if negb (ok : bool) then fail_text "tx is not valid" else
  if negb (AllowNewClaimPayment policy) then
    if bool_decide (ClaimPreimage s ≠ "") then mret Event_ActionSucceeded
    else
      m ← deref (OpeningTxBroadcasted s);
      let? preimage := call (RecoverClaimPayment (OpeningTxBroadcastedMessage.Payreq m))
        else e => fail_with (ErrWrap ("recover legacy claim payment: " +:+ Error e) e) in
      setl (λ s, s <| ClaimPreimage := preimage |>);;
      mret Event_ActionSucceeded
  else
  ticks ← call PaymentTicks;
  pay_loop ch policy ticks None)).

(** Failures of this action set [LastErr] without [HandleError]. *)
Definition fail_plain (e : error) (cancel : bool) : Act :=
  setl (λ s, s <| LastErr := Some e |>);;
  setl (λ s, if cancel then s <| CancelMessage := Error e |> else s);;
  mret Event_ActionFailed.

Definition exec_SetStartingBlockHeight : Act :=
  s ← getl;
  match getOnChainServices (GetChain s) with
  | Err e => fail_plain e false
  | Ok ch =>
      let? now := call (GetBlockHeight ch) else e => fail_plain e false in
      if bool_decide (GetChain s = l_btc_chain ∧
                      GetProtocolVersion s = PEERSWAP_PROTOCOL_VERSION) then
        match getTimelockPolicy s with
        | Err e => fail_plain e false
        | Ok policy =>
            match checkPaymentWindow s now policy with
            | Some e => fail_plain e true
            | None => mret NoOp
            end
        end
      else if StartingBlockHeight s =? 0 then
        setl (λ s, s <| StartingBlockHeight := now |>);; mret NoOp
      else if u32 (StartingBlockHeight s + GetCSVHeight ch / 2) <=? now then
        fail_plain (ErrText "too close to csv") true
      else mret NoOp
  end.

(** *** Terminal actions *)
Definition exec_AddSuspiciousPeer (next : Act) : Act :=
  s ← getl;
  io ← call PolicyFile;
  setw (λ w, w <| policy := fst (AddToSuspiciousPeerList io (PeerNodeId s) (policy w)) |>);;
  next.

Fixpoint Execute (a : Action) : Act :=
  match a with
  | CheckRequestWrapperAction next => check_request (Execute next)
  | SwapInReceiverInitAction => exec_SwapInReceiverInit
  | ClaimSwapTransactionWithPreimageAction => exec_ClaimSwapTransactionWithPreimage
  | CheckPremiumAmount next => exec_CheckPremiumAmount (Execute next)
  | CreateAndBroadcastOpeningTransaction => exec_CreateAndBroadcastOpeningTransaction
  | StopSendMessageWithRetryWrapperAction next =>
      exec_StopSendMessageWithRetry (Execute next)
  | AwaitPaymentOrCsvAction => exec_AwaitPaymentOrCsv
  | AwaitFeeInvoicePayment => exec_AwaitFeeInvoicePayment
  | AwaitCsvAction => exec_AwaitCsv
  | SetBlindingKeyActionWrapper next => exec_SetBlindingKey (Execute next)
  | CreateSwapOutFromRequestAction => exec_CreateSwapOutFromRequest
  | ClaimSwapTransactionWithCsv => exec_ClaimSwapTransactionWithCsv
  | ClaimSwapTransactionCoop => exec_ClaimSwapTransactionCoop
  | SendCancelAction => exec_SendCancel
  | TakerSendPrivkeyAction => exec_TakerSendPrivkey
  | CreateSwapRequestAction => exec_CreateSwapRequest
  | SendMessageAction => exec_SendMessage
  | SendMessageWithRetryAction => exec_SendMessageWithRetry
  | PayFeeInvoiceAction => exec_PayFeeInvoice
  | AwaitTxConfirmationAction => exec_AwaitTxConfirmation
  | ValidateTxAndPayClaimInvoiceAction => exec_ValidateTxAndPayClaimInvoice
  | SetStartingBlockHeightAction => exec_SetStartingBlockHeight
  | NoOpAction => mret NoOp
  | NoOpDoneAction => exec_NoOpDone
  | CancelAction => exec_Cancel
  | AddSuspiciousPeerAction next => exec_AddSuspiciousPeer (Execute next)
  end.
End actions.
