(* ===== verification/ActionProofs.v ===== *)
(** * What every action guarantees

    One lemma, [Execute_spec], says of each action which events it can return,
    which calls it can make, and which fields of the swap it leaves alone.  The
    theorems about the state machine are proved from it. *)

From S2P Require Import Prelude GoLib Messages Premium Policy SwapData Timelock Env Store.
From S2P Require Import Actions.

(** ** Events and calls of an action *)
Fixpoint events_of (a : Action) : list EventType :=
  match a with
  | CheckRequestWrapperAction next | CheckPremiumAmount next
  | SetBlindingKeyActionWrapper next => Event_ActionFailed :: events_of next
  | StopSendMessageWithRetryWrapperAction next | AddSuspiciousPeerAction next => events_of next
  | ClaimSwapTransactionWithPreimageAction =>
      [Event_ActionSucceeded; Event_OnRetry; Event_ActionFailed]
  | ClaimSwapTransactionWithCsv => [Event_ActionSucceeded; Event_OnRetry]
  | AwaitPaymentOrCsvAction | AwaitCsvAction | SetStartingBlockHeightAction =>
      [NoOp; Event_ActionFailed]
  | AwaitFeeInvoicePayment | NoOpAction => [NoOp]
  | AwaitTxConfirmationAction => [NoOp; Event_ActionFailed; Event_OnTxConfirmed]
  | NoOpDoneAction | CancelAction => [Event_Done]
  | SwapInReceiverInitAction | CreateAndBroadcastOpeningTransaction
  | CreateSwapOutFromRequestAction | ClaimSwapTransactionCoop | SendCancelAction
  | TakerSendPrivkeyAction | CreateSwapRequestAction | SendMessageAction
  | SendMessageWithRetryAction | PayFeeInvoiceAction
  | ValidateTxAndPayClaimInvoiceAction => [Event_ActionSucceeded; Event_ActionFailed]
  end.

(** The action under its wrappers. *)
Fixpoint base (a : Action) : Action :=
  match a with
  | CheckRequestWrapperAction next | CheckPremiumAmount next
  | SetBlindingKeyActionWrapper next | StopSendMessageWithRetryWrapperAction next
  | AddSuspiciousPeerAction next => base next
  | a => a
  end.

(** The calls that move money, publish transactions, talk to the peer or
    register callbacks, with the actions that may make them; queries and
    bookkeeping are open to every action. *)
Definition may_call (a : Action) (c : Call) : bool :=
  match c with
  | RebalancePayment _ _ _ => bool_decide (a = ValidateTxAndPayClaimInvoiceAction)
  | RecoverClaimPayment _ =>
      bool_decide (a ∈ [AwaitTxConfirmationAction; ValidateTxAndPayClaimInvoiceAction])
  | PayInvoiceViaChannel _ _ => bool_decide (a = PayFeeInvoiceAction)
  | GetPayreq _ _ _ _ _ _ _ =>
      bool_decide (a ∈ [CreateSwapOutFromRequestAction; CreateAndBroadcastOpeningTransaction])
  | CreateOpeningTransaction _ _ => bool_decide (a = CreateAndBroadcastOpeningTransaction)
  | CreatePreimageSpendingTransaction _ _ _ =>
      bool_decide (a = ClaimSwapTransactionWithPreimageAction)
  | CreateCsvSpendingTransaction _ _ _ => bool_decide (a = ClaimSwapTransactionWithCsv)
  | CreateCoopSpendingTransaction _ _ _ _ => bool_decide (a = ClaimSwapTransactionCoop)
  | AddWaitForConfirmationTx _ _ _ _ _ _ _ => bool_decide (a = AwaitTxConfirmationAction)
  | AddWaitForCsvTx _ _ _ _ _ _ _ =>
      bool_decide (a ∈ [AwaitPaymentOrCsvAction; AwaitCsvAction])
  | AddPaymentNotifier _ _ _ =>
      bool_decide (a ∈ [AwaitPaymentOrCsvAction; AwaitFeeInvoicePayment])
  | SendMessage _ _ _ =>
      bool_decide (a ∈ [SendMessageAction; SendMessageWithRetryAction; SendCancelAction])
  | _ => true
  end.

(** ** Fields no action changes, and fields an action sets once *)
Record data_kept (d d' : SwapData) : Prop := {
  kept_SwapInRequest : SwapInRequest d' = SwapInRequest d;
  kept_SwapOutRequest : SwapOutRequest d' = SwapOutRequest d;
  kept_Cancel : Cancel d' = Cancel d;
  kept_CoopClose : CoopClose d' = CoopClose d;
  kept_PeerNodeId : PeerNodeId d' = PeerNodeId d;
  kept_InitiatorNodeId : InitiatorNodeId d' = InitiatorNodeId d;
  kept_CreatedAt : CreatedAt d' = CreatedAt d;
  kept_Role : Role d' = Role d;
  kept_FSMState : FSMState d' = FSMState d;
  kept_PrivkeyBytes : PrivkeyBytes d' = PrivkeyBytes d;
  kept_OpeningTx m : OpeningTxBroadcasted d = Some m → OpeningTxBroadcasted d' = Some m;
  kept_ClaimTxId : ClaimTxId d ≠ "" → ClaimTxId d' = ClaimTxId d;
}.

Lemma data_kept_refl d : data_kept d d.
Proof. by split. Qed.
Lemma data_kept_trans d1 d2 d3 : data_kept d1 d2 → data_kept d2 d3 → data_kept d1 d3.
Proof.
  intros [] []. split; [congruence..|naive_solver|].
  intros Hc. assert (ClaimTxId d2 ≠ "") by (by rewrite kept_ClaimTxId0).
  rewrite kept_ClaimTxId1 by done. auto.
Qed.

(** The chain, the channel and the other facts of the request follow. *)
Lemma kept_getters d d' : data_kept d d' →
  GetChain d' = GetChain d ∧ GetScid d' = GetScid d ∧ GetAmount d' = GetAmount d ∧
  GetType d' = GetType d ∧ GetRequest d' = GetRequest d.
Proof.
  intros H. unfold GetChain, GetAsset, GetNetwork, GetScid, GetAmount, GetType, GetRequest.
  by rewrite (kept_SwapInRequest _ _ H), (kept_SwapOutRequest _ _ H).
Qed.

Definition act_rel (P : Call → bool) (s s' : World * SwapData) : Prop :=
  data_kept (snd s) (snd s') ∧
  swaps (fst s') = swaps (fst s) ∧ rates (fst s') = rates (fst s) ∧
  hist_ext (λ e, P (call_of e) = true) (hist (fst s)) (hist (fst s')).

Lemma act_rel_refl P s : act_rel P s s.
Proof. unfold act_rel. eauto using data_kept_refl with go. Qed.
Lemma act_rel_trans P s1 s2 s3 : act_rel P s1 s2 → act_rel P s2 s3 → act_rel P s1 s3.
Proof.
  intros (A1 & A2 & A3 & A4) (B1 & B2 & B3 & B4). unfold act_rel.
  split_and!; [by eapply data_kept_trans|congruence|congruence|by eapply hist_ext_trans].
Qed.
Lemma act_rel_call `{!Env} P c s w d :
  P c = true → act_rel P s (w, d) → act_rel P s (record c w, d).
Proof.
  intros Hc (A1 & A2 & A3 & A4). unfold act_rel. cbn in *. eauto with go.
Qed.
Lemma act_rel_world P s w w' d :
  hist w' = hist w → swaps w' = swaps w → rates w' = rates w →
  act_rel P s (w, d) → act_rel P s (w', d).
Proof.
  intros E1 E2 E3 (A1 & A2 & A3 & A4). unfold act_rel. cbn in *. rewrite E1, E2, E3. auto.
Qed.
Lemma act_rel_data P s w d d' :
  data_kept d d' → act_rel P s (w, d) → act_rel P s (w, d').
Proof.
  intros Hd (A1 & A2 & A3 & A4). unfold act_rel. cbn in *.
  eauto using data_kept_trans.
Qed.

(** ** The specification of a run of an action

    [act_ok P E s m]: started in a state related to [s], [m] returns an event of
    [E] in a state related to [s], or panics in one. *)
Definition act_ok `{!Env} {A} (P : Call → bool) (s : World * SwapData) (E : A → Prop)
    (m : Svc SwapData A) (w : World) (d : SwapData) : Prop :=
  act_rel P s (w, d) →
  wp m (λ a s', E a ∧ act_rel P s s') (λ k s', k = Panicked ∧ act_rel P s s') (w, d).

Section rules.
Context {EV : Env} (P : Call → bool) (s : World * SwapData).

Lemma act_ret {A} (E : A → Prop) a w d : E a → act_ok P s E (mret a) w d.
Proof. by intros ? ?. Qed.
Lemma act_bind {A B} (E : A → Prop) (E' : B → Prop) (m : Svc SwapData A) k w d :
  act_ok P s E m w d → (∀ a w' d', E a → act_ok P s E' (k a) w' d') →
  act_ok P s E' (m ≫= k) w d.
Proof.
  intros Hm Hk Hs. apply wp_bind. eapply wp_mono; [by apply Hm| |done].
  cbn. intros a [w' d'] [Ha Hs']. by eapply Hk.
Qed.
Lemma act_getl {B} (E : B → Prop) k w d :
  act_ok P s E (k d) w d → act_ok P s E (getl ≫= k) w d.
Proof. intros H Hs. apply wp_bind. svc_step. by apply H. Qed.
Lemma act_getw {A B} (f : World → A) (E : B → Prop) k w d :
  act_ok P s E (k (f w)) w d → act_ok P s E (getw f ≫= k) w d.
Proof. intros H Hs. apply wp_bind. svc_step. by apply H. Qed.
Lemma act_setl {B} f (E : B → Prop) k w d :
  data_kept d (f d) → act_ok P s E (k ()) w (f d) → act_ok P s E (setl f ≫= k) w d.
Proof. intros Hf H Hs. apply wp_bind. svc_step. apply H. by eapply act_rel_data. Qed.
Lemma act_setw {B} f (E : B → Prop) k w d :
  hist (f w) = hist w → swaps (f w) = swaps w → rates (f w) = rates w →
  act_ok P s E (k ()) (f w) d → act_ok P s E (setw f ≫= k) w d.
Proof. intros ? ? ? H Hs. apply wp_bind. svc_step. apply H. by eapply act_rel_world. Qed.
Lemma act_call {B} c (E : B → Prop) k w d :
  P c = true → (∀ a, act_ok P s E (k a) (record c w) d) →
  act_ok P s E (call c ≫= k) w d.
Proof. intros Hc H Hs. apply wp_bind. svc_step. apply H. by apply act_rel_call. Qed.
Lemma act_call_end c (E : answer c → Prop) w d :
  P c = true → E (ask (hist w) c) → act_ok P s E (call c) w d.
Proof. intros Hc H Hs. svc_step. split; [done|]. by apply act_rel_call. Qed.
Lemma act_deref {A B} (o : option A) (E : B → Prop) k w d :
  (∀ a, o = Some a → act_ok P s E (k a) w d) → act_ok P s E (deref o ≫= k) w d.
Proof. intros H Hs. do 2 wp_step; [by apply H|done]. Qed.
Lemma act_ret_bind {A B} (a : A) (E : B → Prop) k w d :
  act_ok P s E (k a) w d → act_ok P s E (mret a ≫= k) w d.
Proof. done. Qed.
Lemma act_bind_assoc {A B C} (m : Svc SwapData A) (k : A → Svc SwapData B)
    (k' : B → Svc SwapData C) (E : C → Prop) w d :
  act_ok P s E (m ≫= λ a, k a ≫= k') w d → act_ok P s E ((m ≫= k) ≫= k') w d.
Proof.
  intros H Hs. specialize (H Hs). unfold wp, mbind, M_bind in *. by destruct (m (w, d)).
Qed.
Lemma act_panic {A} (E : A → Prop) w d : act_ok P s E panic w d.
Proof. by intros ?. Qed.
Lemma act_marshal {B} msg (E : B → Prop) k w d :
  (∀ r, act_ok P s E (k r) w d) → act_ok P s E (MarshalPeerswapMessage msg ≫= k) w d.
Proof. intros H Hs. apply wp_bind. svc_step; [done| |]; by apply H. Qed.
Lemma act_weaken {A} (E E' : A → Prop) m w d :
  (∀ a, E a → E' a) → act_ok P s E m w d → act_ok P s E' m w d.
Proof. intros HE H Hs. eapply wp_mono; [by apply H| |done]. naive_solver. Qed.
End rules.

(** Apply the rules along the structure of an action. *)
Ltac act_step :=
  lazymatch goal with
  | |- act_ok _ _ _ (mret _) _ _ => apply act_ret
  | |- act_ok _ _ _ panic _ _ => apply act_panic
  | |- act_ok _ _ _ (mret _ ≫= _) _ _ => apply act_ret_bind
  | |- act_ok _ _ _ ((_ ≫= _) ≫= _) _ _ => apply act_bind_assoc
  | |- act_ok _ _ _ (getl ≫= _) _ _ => apply act_getl
  | |- act_ok _ _ _ (getw _ ≫= _) _ _ => apply act_getw
  | |- act_ok _ _ _ (setl _ ≫= _) _ _ => apply act_setl
  | |- act_ok _ _ _ (setw _ ≫= _) _ _ => apply act_setw; [reflexivity..|]
  | |- act_ok ?P ?s ?E (call ?c ≫= ?k) ?w ?d =>
      refine (act_call P s c E k w d _ _); [reflexivity|intros ?]
  | |- act_ok _ _ _ (deref _ ≫= _) _ _ => apply act_deref; intros ? ?
  | |- act_ok _ _ _ (MarshalPeerswapMessage _ ≫= _) _ _ => apply act_marshal; intros ?
  | |- act_ok _ _ _ (match ?x with _ => _ end) _ _ => destruct x eqn:?
  | |- act_ok _ _ _ ((match ?x with _ => _ end) ≫= _) _ _ => destruct x eqn:?
  | |- act_ok _ _ _ (let '(_, _) := ?x in _) _ _ => destruct x eqn:?
  end.

(** ** Shared steps of the actions *)
Section shared.
Context {EV : Env} (P : Call → bool) (s : World * SwapData).

(** [data_kept] of an update of other fields. *)
Lemma HandleError_kept e d : data_kept d (HandleError e d).1.
Proof. unfold HandleError. destruct e; cbn; case_bool_decide; by split. Qed.

Lemma act_handle (E : EventType → Prop) e w d :
  E Event_ActionFailed → act_ok P s E (handle e) w d.
Proof.
  intros HE. unfold handle. act_step. pose proof (HandleError_kept e d) as Hk.
  destruct (HandleError e d) as [d' ev] eqn:Eq.
  assert (ev = Event_ActionFailed) as -> by (by injection Eq).
  act_step; [exact Hk|]. by act_step.
Qed.

Lemma act_set_next_message (E : EventType → Prop) msg k w d :
  E Event_ActionFailed → (∀ w' d', act_ok P s E k w' d') →
  act_ok P s E (set_next_message msg k) w d.
Proof.
  intros HE Hk. unfold set_next_message. repeat act_step.
  - by split.
  - apply Hk.
  - by apply act_handle.
Qed.

Lemma act_with_chain (E : EventType → Prop) k w d :
  E Event_ActionFailed →
  (∀ ch, getOnChainServices (GetChain d) = Ok ch → act_ok P s E (k ch) w d) →
  act_ok P s E (with_chain k) w d.
Proof. intros HE Hk. unfold with_chain. repeat act_step; [by apply Hk|by apply act_handle]. Qed.

Lemma act_with_timelock (E : EventType → Prop) k w d :
  E Event_ActionFailed → (∀ p, getTimelockPolicy d = Ok p → act_ok P s E (k p) w d) →
  act_ok P s E (with_timelock k) w d.
Proof.
  intros HE Hk. unfold with_timelock. repeat act_step; [by apply Hk|by apply act_handle].
Qed.

(** A step that only queries or keeps books, followed by the rest. *)
Lemma act_then {A B} (E : B → Prop) (m : Svc SwapData A) k w d :
  act_ok P s (λ _, True) m w d → (∀ a w' d', act_ok P s E (k a) w' d') →
  act_ok P s E (m ≫= k) w d.
Proof. intros Hm Hk. eapply act_bind; [exact Hm|auto]. Qed.
End shared.

(** Calls that every action may make. *)
Definition permits (P : Call → bool) : Prop :=
  ∀ c, may_call NoOpAction c = true → P c = true.

Section bookkeeping.
Context {EV : Env} (P : Call → bool) (s : World * SwapData) (HP : permits P).

Lemma act_query {B} c (E : B → Prop) k w d :
  may_call NoOpAction c = true → (∀ a, act_ok P s E (k a) (record c w) d) →
  act_ok P s E (call c ≫= k) w d.
Proof. intros Hc. apply act_call. by apply HP. Qed.

Ltac query_step :=
  lazymatch goal with
  | |- act_ok _ _ ?E (call ?c ≫= ?k) ?w ?d =>
      refine (act_query c E k w d _ _); [reflexivity|intros ?]
  | |- act_ok _ _ _ (call _) _ _ =>
      apply act_call_end; [apply HP; reflexivity|done]
  | _ => act_step
  end.
Ltac query := repeat query_step; try done; try (by split).

Lemma act_start_timeout w d : act_ok P s (λ _, True) start_timeout w d.
Proof. unfold start_timeout. query. Qed.
Lemma act_requested_Add id r w d : act_ok P s (λ _, True) (requested_Add id r) w d.
Proof. unfold requested_Add. query. Qed.
Lemma act_add_rejection w d : act_ok P s (λ _, True) add_rejection w d.
Proof.
  unfold add_rejection. act_step. apply act_then; [apply act_requested_Add|]. query.
Qed.
Lemma act_remove_sender w d : act_ok P s (λ _, True) remove_sender w d.
Proof. unfold remove_sender. act_step. intros Hs. svc_step. by split. Qed.
Lemma act_set_label {B} ch txId addr l (E : B → Prop) k w d :
  (∀ w', act_ok P s E (k ()) w' d) → act_ok P s E (set_label ch txId addr l ≫= k) w d.
Proof. intros Hk. unfold set_label. query. Qed.
Lemma act_ps_Compute p a o amt w d : act_ok P s (λ _, True) (ps_Compute p a o amt) w d.
Proof. unfold ps_Compute. query. Qed.
Lemma act_anchor w d : act_ok P s (λ _, True) setLiquidPaymentWindowAnchor w d.
Proof. unfold setLiquidPaymentWindowAnchor. query. Qed.
Lemma act_reject (E : EventType → Prop) msg e w d :
  E Event_ActionFailed → act_ok P s E (reject msg e) w d.
Proof.
  intros HE. unfold reject. act_step; [by split|].
  apply act_then; [apply act_add_rejection|]. intros. by apply act_handle.
Qed.
Lemma act_reject_unsupported (E : EventType → Prop) msg w d :
  E Event_ActionFailed → act_ok P s E (reject_unsupported msg) w d.
Proof. intros HE. unfold reject_unsupported. act_step; [by split|]. by apply act_reject. Qed.

(** The request checks run [next] in a state that differs only in the record
    of calls, or fail. *)
Lemma act_check_request (E : EventType → Prop) next w d :
  E Event_ActionFailed → (∀ w', act_ok P s E next w' d) →
  act_ok P s E (check_request next) w d.
Proof.
  intros HE Hnext. unfold check_request. act_step.
  repeat lazymatch goal with
         | |- act_ok _ _ _ (reject_unsupported _) _ _ => apply act_reject_unsupported
         | |- act_ok _ _ _ (reject _ _) _ _ => apply act_reject
         | |- act_ok _ _ _ (with_chain _) _ _ => apply act_with_chain; [|intros ? ?]
         | |- act_ok _ _ _ next _ _ => apply Hnext
         | |- E _ => exact HE
         | _ => query_step
         end.
Qed.
End bookkeeping.

(** ** Every action meets its specification *)
Lemma may_call_permits a : permits (may_call a).
Proof. intros c. by destruct c. Qed.
#[export] Hint Resolve may_call_permits : go.

(** An update of fields that are not kept, or of a field seen to be unset. *)
Ltac solve_kept :=
  first [ by split
        | by repeat case_match; split
        | repeat match goal with
                 | H : bool_decide _ = true |- _ => apply bool_decide_eq_true in H
                 end;
          repeat case_match; split; cbn in *; first [done | congruence] ].

(** [act_step] with the lemmas above; leaves the data and event obligations. *)
Ltac action_step :=
  lazymatch goal with
  | |- act_ok _ _ _ (fail_with _) _ _ => apply act_handle
  | |- act_ok _ _ _ (fail_text _) _ _ => apply act_handle
  | |- act_ok _ _ _ (handle _) _ _ => apply act_handle
  | |- act_ok _ _ _ (with_chain _) _ _ => apply act_with_chain; [|intros ? ?]
  | |- act_ok _ _ _ (with_timelock _) _ _ => apply act_with_timelock; [|intros ? ?]
  | |- act_ok _ _ _ (set_next_message _ _) _ _ => apply act_set_next_message; [|intros ? ?]
  | |- act_ok _ _ _ (start_timeout ≫= _) _ _ =>
      apply act_then; [by apply act_start_timeout, may_call_permits|intros ? ? ?]
  | |- act_ok _ _ _ (remove_sender ≫= _) _ _ =>
      apply act_then; [by apply act_remove_sender|intros ? ? ?]
  | |- act_ok _ _ _ (set_label _ _ _ _ ≫= _) _ _ =>
      apply act_set_label; [by apply may_call_permits|intros ?]
  | |- act_ok _ _ _ (ps_Compute _ _ _ _ ≫= _) _ _ =>
      apply act_then; [by apply act_ps_Compute, may_call_permits|intros ? ? ?]
  | |- act_ok _ _ _ (setLiquidPaymentWindowAnchor ≫= _) _ _ =>
      apply act_then; [by apply act_anchor, may_call_permits|intros ? ? ?]
  | |- act_ok _ _ _ (fail_with _ ≫= _) _ _ =>
      apply act_then; [by apply act_handle|intros ? ? ?]
  | |- _ ∈ _ => by_eval
  | |- data_kept _ _ => solve_kept
  | _ => act_step
  end.

Definition action_spec {EV : Env} (a : Action) (m : Svc SwapData EventType) : Prop :=
  ∀ s w d, act_ok (may_call (base a)) s (λ ev, ev ∈ events_of a) m w d.

Section specs.
Context {EV : Env}.

Lemma SwapInReceiverInit_spec : action_spec SwapInReceiverInitAction exec_SwapInReceiverInit.
Proof. intros s w d. unfold exec_SwapInReceiverInit. repeat action_step. Qed.
Lemma CreateSwapRequest_spec : action_spec CreateSwapRequestAction exec_CreateSwapRequest.
Proof. intros s w d. unfold exec_CreateSwapRequest. repeat action_step. Qed.
Lemma CreateSwapOut_spec :
  action_spec CreateSwapOutFromRequestAction exec_CreateSwapOutFromRequest.
Proof. intros s w d. unfold exec_CreateSwapOutFromRequest. repeat action_step. Qed.
Lemma SendCancel_spec : action_spec SendCancelAction exec_SendCancel.
Proof. intros s w d. unfold exec_SendCancel. repeat action_step. Qed.
Lemma TakerSendPrivkey_spec : action_spec TakerSendPrivkeyAction exec_TakerSendPrivkey.
Proof. intros s w d. unfold exec_TakerSendPrivkey. repeat action_step. Qed.
Lemma SendMessage_spec : action_spec SendMessageAction exec_SendMessage.
Proof. intros s w d. unfold exec_SendMessage. repeat action_step. Qed.
Lemma SendMessageWithRetry_spec :
  action_spec SendMessageWithRetryAction exec_SendMessageWithRetry.
Proof. intros s w d. unfold exec_SendMessageWithRetry. repeat action_step. Qed.
Lemma NoOpDone_spec : action_spec NoOpDoneAction exec_NoOpDone.
Proof. intros s w d. unfold exec_NoOpDone. repeat action_step. Qed.
Lemma Cancel_spec : action_spec CancelAction exec_Cancel.
Proof. intros s w d. unfold exec_Cancel. repeat action_step. Qed.

Lemma CreateAndBroadcast_spec :
  action_spec CreateAndBroadcastOpeningTransaction exec_CreateAndBroadcastOpeningTransaction.
Proof.
  intros s w d. unfold exec_CreateAndBroadcastOpeningTransaction. repeat action_step.
Qed.
Lemma AwaitPaymentOrCsv_spec : action_spec AwaitPaymentOrCsvAction exec_AwaitPaymentOrCsv.
Proof. intros s w d. unfold exec_AwaitPaymentOrCsv, wait_for_csv. repeat action_step. Qed.
Lemma AwaitCsv_spec : action_spec AwaitCsvAction exec_AwaitCsv.
Proof.
  intros s w d. unfold exec_AwaitCsv. action_step; [by_eval|].
  unfold wait_for_csv. repeat action_step.
Qed.
Lemma AwaitFeeInvoicePayment_spec :
  action_spec AwaitFeeInvoicePayment exec_AwaitFeeInvoicePayment.
Proof. intros s w d. unfold exec_AwaitFeeInvoicePayment. repeat action_step. Qed.
Lemma ClaimPreimage_spec :
  action_spec ClaimSwapTransactionWithPreimageAction exec_ClaimSwapTransactionWithPreimage.
Proof. intros s w d. unfold exec_ClaimSwapTransactionWithPreimage. repeat action_step. Qed.
Lemma ClaimCsv_spec :
  action_spec ClaimSwapTransactionWithCsv exec_ClaimSwapTransactionWithCsv.
Proof. intros s w d. unfold exec_ClaimSwapTransactionWithCsv. repeat action_step. Qed.
Lemma ClaimCoop_spec : action_spec ClaimSwapTransactionCoop exec_ClaimSwapTransactionCoop.
Proof. intros s w d. unfold exec_ClaimSwapTransactionCoop. repeat action_step. Qed.
Lemma PayFeeInvoice_spec : action_spec PayFeeInvoiceAction exec_PayFeeInvoice.
Proof. intros s w d. unfold exec_PayFeeInvoice. repeat action_step. Qed.
Lemma AwaitTxConfirmation_spec :
  action_spec AwaitTxConfirmationAction exec_AwaitTxConfirmation.
Proof. intros s w d. unfold exec_AwaitTxConfirmation. repeat action_step. Qed.
Lemma pay_loop_spec ch p n e : action_spec ValidateTxAndPayClaimInvoiceAction
  (pay_loop ch p n e).
Proof.
  revert e. induction n as [|n IH]; intros e s w d; cbn [pay_loop].
  - repeat action_step.
  - repeat first [action_step | apply IH].
Qed.
Lemma ValidateTxAndPay_spec :
  action_spec ValidateTxAndPayClaimInvoiceAction exec_ValidateTxAndPayClaimInvoice.
Proof.
  intros s w d. unfold exec_ValidateTxAndPayClaimInvoice.
  repeat first [action_step | apply pay_loop_spec].
Qed.
Lemma SetStartingBlockHeight_spec :
  action_spec SetStartingBlockHeightAction exec_SetStartingBlockHeight.
Proof.
  intros s w d. unfold exec_SetStartingBlockHeight, fail_plain. repeat action_step.
Qed.
End specs.

Lemma act_weaken_events {EV : Env} P s (l l' : list EventType) m w d :
  l ⊆ l' → act_ok P s (λ ev, ev ∈ l) m w d → act_ok P s (λ ev, ev ∈ l') m w d.
Proof. intros Hl. apply act_weaken. set_solver. Qed.

(** Every action returns one of its events, makes only calls it may make, and
    keeps the fields of [data_kept]; the only way it stops early is a panic. *)
Lemma Execute_act_ok {EV : Env} a : action_spec a (Execute a).
Proof.
  induction a; intros s w d; cbn [Execute base events_of].
  - apply act_check_request; [apply may_call_permits|set_solver|].
    intros w'. eapply act_weaken_events; [|apply IHa]. set_solver.
  - apply SwapInReceiverInit_spec.
  - apply ClaimPreimage_spec.
  - assert (∀ w d, act_ok (may_call (base a)) s
        (λ ev, ev ∈ Event_ActionFailed :: events_of a) (Execute a) w d) as Hnext.
    { intros. eapply act_weaken_events; [|apply IHa]. set_solver. }
    unfold exec_CheckPremiumAmount.
    repeat first [apply Hnext | act_step | apply act_handle; set_solver].
  - apply CreateAndBroadcast_spec.
  - unfold exec_StopSendMessageWithRetry. action_step. apply IHa.
  - apply AwaitPaymentOrCsv_spec.
  - apply AwaitFeeInvoicePayment_spec.
  - apply AwaitCsv_spec.
  - assert (∀ w d, act_ok (may_call (base a)) s
        (λ ev, ev ∈ Event_ActionFailed :: events_of a) (Execute a) w d) as Hnext.
    { intros. eapply act_weaken_events; [|apply IHa]. set_solver. }
    unfold exec_SetBlindingKey. repeat act_step.
    + solve_kept.
    + apply Hnext.
    + apply act_handle. set_solver.
    + apply Hnext.
  - apply CreateSwapOut_spec.
  - apply ClaimCsv_spec.
  - apply ClaimCoop_spec.
  - apply SendCancel_spec.
  - apply TakerSendPrivkey_spec.
  - apply CreateSwapRequest_spec.
  - apply SendMessage_spec.
  - apply SendMessageWithRetry_spec.
  - apply PayFeeInvoice_spec.
  - apply AwaitTxConfirmation_spec.
  - apply ValidateTxAndPay_spec.
  - apply SetStartingBlockHeight_spec.
  - apply act_ret. set_solver.
  - apply NoOpDone_spec.
  - apply Cancel_spec.
  - unfold exec_AddSuspiciousPeer. repeat first [apply IHa | act_step].
Qed.

Lemma Execute_spec {EV : Env} a s :
  wp (Execute a)
    (λ ev s', ev ∈ events_of a ∧ act_rel (may_call (base a)) s s')
    (λ k s', k = Panicked ∧ act_rel (may_call (base a)) s s') s.
Proof. destruct s as [w d]. apply Execute_act_ok, act_rel_refl. Qed.
