(* ===== verification/Fsm.v ===== *)
(** * The swap state machine (src/swap/fsm.go and the four state tables)

    [States] are the tables of swap_out_sender.go, swap_out_receiver.go,
    swap_in_sender.go and swap_in_receiver.go, entry by entry.  [SendEvent]
    applies a message to the swap, stores the machine and then runs the loop of
    transitions and actions; [Recover] resumes a machine read from the store. *)

From S2P Require Import Prelude GoLib Messages Premium Policy SwapData Timelock Env Store.
From S2P Require Import Actions.

(** ** Tables *)
Definition Events : Type := list (EventType * StateType).

Record State := mkState {
  state_Action : option Action;
  state_Events : Events;
  FailOnrecover : bool;
}.

Definition States : Type := list (StateType * State).

(** The entry of a Go map literal. *)
Fixpoint assoc {K V} `{EqDecision K} (k : K) (l : list (K * V)) : option V :=
  match l with
  | [] => None
  | (k', v) :: l => if bool_decide (k = k') then Some v else assoc k l
  end.

Definition getSwapOutSenderStates : States := [
  (Default, mkState None
     [(Event_OnSwapOutStarted, State_SwapOutSender_CreateSwap)] false);
  (State_SwapOutSender_CreateSwap, mkState (Some CreateSwapRequestAction)
     [(Event_ActionSucceeded, State_SwapOutSender_SendRequest);
      (Event_ActionFailed, State_SwapCanceled)] true);
  (State_SwapOutSender_SendRequest, mkState (Some SendMessageAction)
     [(Event_ActionFailed, State_SwapCanceled);
      (Event_ActionSucceeded, State_SwapOutSender_AwaitAgreement)] true);
  (State_SwapOutSender_AwaitAgreement, mkState (Some NoOpAction)
     [(Event_OnCancelReceived, State_SwapCanceled);
      (Event_OnTimeout, State_SendCancel);
      (Event_OnFeeInvoiceReceived, State_SwapOutSender_PayFeeInvoice);
      (Event_OnInvalid_Message, State_SendCancel);
      (Event_ActionFailed, State_SwapCanceled)] true);
  (State_SwapOutSender_PayFeeInvoice, mkState (Some (CheckPremiumAmount PayFeeInvoiceAction))
     [(Event_ActionFailed, State_SendCancel);
      (Event_ActionSucceeded, State_SwapOutSender_AwaitTxBroadcastedMessage)] true);
  (State_SwapOutSender_AwaitTxBroadcastedMessage, mkState (Some SetStartingBlockHeightAction)
     [(Event_OnCancelReceived, State_SwapCanceled);
      (Event_OnTxOpenedMessage, State_SwapOutSender_AwaitTxConfirmation);
      (Event_ActionFailed, State_SwapOutSender_SendPrivkey);
      (Event_OnInvalid_Message, State_SendCancel)] false);
  (State_SendCancel, mkState (Some SendCancelAction)
     [(Event_ActionSucceeded, State_SwapCanceled);
      (Event_ActionFailed, State_SwapCanceled)] false);
  (State_SwapOutSender_AwaitTxConfirmation, mkState (Some AwaitTxConfirmationAction)
     [(Event_ActionFailed, State_SwapOutSender_SendPrivkey);
      (Event_OnTxConfirmed, State_SwapOutSender_ValidateTxAndPayClaimInvoice)] false);
  (State_SwapOutSender_ValidateTxAndPayClaimInvoice,
     mkState (Some ValidateTxAndPayClaimInvoiceAction)
     [(Event_ActionFailed, State_SwapOutSender_SendPrivkey);
      (Event_ActionSucceeded, State_SwapOutSender_ClaimSwap)] false);
  (State_SwapOutSender_ClaimSwap, mkState (Some ClaimSwapTransactionWithPreimageAction)
     [(Event_ActionSucceeded, State_ClaimedPreimage);
      (Event_OnRetry, State_SwapOutSender_ClaimSwap);
      (Event_OnTimeout, State_SwapOutSender_SendPrivkey)] false);
  (State_SwapOutSender_SendPrivkey, mkState (Some TakerSendPrivkeyAction)
     [(Event_ActionFailed, State_SendCancel);
      (Event_ActionSucceeded, State_SwapOutSender_SendCoopClose)] false);
  (State_SwapOutSender_SendCoopClose, mkState (Some SendMessageAction)
     [(Event_ActionFailed, State_SendCancel);
      (Event_ActionSucceeded, State_ClaimedCoop)] false);
  (State_SwapCanceled, mkState (Some CancelAction) [] false);
  (State_ClaimedPreimage, mkState (Some NoOpDoneAction) [] false);
  (State_ClaimedCoop, mkState (Some NoOpDoneAction) [] false) ].

Definition getSwapOutReceiverStates : States := [
  (Default, mkState None
     [(Event_OnSwapOutRequestReceived, State_SwapOutReceiver_CreateSwap);
      (Event_OnInvalid_Message, State_SendCancel)] false);
  (State_SwapOutReceiver_CreateSwap,
     mkState (Some (CheckRequestWrapperAction
                      (SetBlindingKeyActionWrapper CreateSwapOutFromRequestAction)))
     [(Event_ActionSucceeded, State_SwapOutReceiver_SendFeeInvoice);
      (Event_ActionFailed, State_SendCancel)] true);
  (State_SwapOutReceiver_SendFeeInvoice, mkState (Some SendMessageAction)
     [(Event_ActionFailed, State_SendCancel);
      (Event_ActionSucceeded, State_SwapOutReceiver_AwaitFeeInvoicePayment)] false);
  (State_SwapOutReceiver_AwaitFeeInvoicePayment, mkState (Some AwaitFeeInvoicePayment)
     [(Event_OnFeeInvoicePaid, State_SwapOutReceiver_BroadcastOpeningTx);
      (Event_OnCancelReceived, State_SwapCanceled);
      (Event_ActionFailed, State_SendCancel)] true);
  (State_SwapOutReceiver_BroadcastOpeningTx,
     mkState (Some CreateAndBroadcastOpeningTransaction)
     [(Event_ActionSucceeded, State_SwapOutReceiver_SendTxBroadcastedMessage);
      (Event_ActionFailed, State_SendCancel)] false);
  (State_SwapOutReceiver_SendTxBroadcastedMessage, mkState (Some SendMessageWithRetryAction)
     [(Event_ActionSucceeded, State_SwapOutReceiver_AwaitClaimInvoicePayment);
      (Event_ActionFailed, State_WaitCsv)] false);
  (State_SwapOutReceiver_AwaitClaimInvoicePayment, mkState (Some AwaitPaymentOrCsvAction)
     [(Event_OnClaimInvoicePaid, State_ClaimedPreimage);
      (Event_OnCancelReceived, State_WaitCsv);
      (Event_OnCoopCloseReceived, State_SwapOutReceiver_ClaimSwapCoop);
      (Event_OnCsvPassed, State_SwapOutReceiver_ClaimSwapCsv);
      (Event_OnInvalid_Message, State_WaitCsv)] false);
  (State_SwapOutReceiver_ClaimSwapCoop,
     mkState (Some (StopSendMessageWithRetryWrapperAction ClaimSwapTransactionCoop))
     [(Event_ActionSucceeded, State_ClaimedCoop);
      (Event_ActionFailed, State_WaitCsv)] false);
  (State_WaitCsv, mkState (Some (StopSendMessageWithRetryWrapperAction AwaitCsvAction))
     [(Event_OnCsvPassed, State_SwapOutReceiver_ClaimSwapCsv);
      (Event_OnCoopCloseReceived, State_SwapOutReceiver_ClaimSwapCoop)] false);
  (State_SwapOutReceiver_ClaimSwapCsv,
     mkState (Some (StopSendMessageWithRetryWrapperAction ClaimSwapTransactionWithCsv))
     [(Event_ActionSucceeded, State_ClaimedCsv);
      (Event_OnRetry, State_SwapOutReceiver_ClaimSwapCsv)] false);
  (State_SendCancel, mkState (Some SendCancelAction)
     [(Event_ActionSucceeded, State_SwapCanceled);
      (Event_ActionFailed, State_SwapCanceled)] false);
  (State_SwapCanceled, mkState (Some CancelAction) [] false);
  (State_ClaimedCsv, mkState (Some (AddSuspiciousPeerAction NoOpDoneAction)) [] false);
  (State_ClaimedPreimage, mkState (Some NoOpDoneAction) [] false);
  (State_ClaimedCoop, mkState (Some NoOpDoneAction) [] false) ].

Definition getSwapInSenderStates : States := [
  (Default, mkState None
     [(Event_SwapInSender_OnSwapInRequested, State_SwapInSender_CreateSwap)] false);
  (State_SwapInSender_CreateSwap,
     mkState (Some (SetBlindingKeyActionWrapper CreateSwapRequestAction))
     [(Event_ActionSucceeded, State_SwapInSender_SendRequest);
      (Event_ActionFailed, State_SwapCanceled)] true);
  (State_SwapInSender_SendRequest, mkState (Some SendMessageAction)
     [(Event_ActionSucceeded, State_SwapInSender_AwaitAgreement);
      (Event_ActionFailed, State_SwapCanceled)] false);
  (State_SwapInSender_AwaitAgreement, mkState (Some NoOpAction)
     [(Event_OnCancelReceived, State_SwapCanceled);
      (Event_OnTimeout, State_SendCancel);
      (Event_SwapInSender_OnAgreementReceived, State_SwapInSender_BroadcastOpeningTx);
      (Event_OnInvalid_Message, State_SendCancel)] false);
  (State_SwapInSender_BroadcastOpeningTx,
     mkState (Some (CheckPremiumAmount CreateAndBroadcastOpeningTransaction))
     [(Event_ActionSucceeded, State_SwapInSender_SendTxBroadcastedMessage);
      (Event_ActionFailed, State_SendCancel)] false);
  (State_SwapInSender_SendTxBroadcastedMessage, mkState (Some SendMessageWithRetryAction)
     [(Event_ActionSucceeded, State_SwapInSender_AwaitClaimPayment);
      (Event_ActionFailed, State_WaitCsv)] false);
  (State_SwapInSender_AwaitClaimPayment, mkState (Some AwaitPaymentOrCsvAction)
     [(Event_OnClaimInvoicePaid, State_ClaimedPreimage);
      (Event_OnCsvPassed, State_SwapInSender_ClaimSwapCsv);
      (Event_OnCancelReceived, State_WaitCsv);
      (Event_OnCoopCloseReceived, State_SwapInSender_ClaimSwapCoop);
      (Event_OnInvalid_Message, State_WaitCsv)] false);
  (State_SwapInSender_ClaimSwapCsv,
     mkState (Some (StopSendMessageWithRetryWrapperAction ClaimSwapTransactionWithCsv))
     [(Event_ActionSucceeded, State_ClaimedCsv);
      (Event_OnRetry, State_SwapInSender_ClaimSwapCsv)] false);
  (State_SwapInSender_ClaimSwapCoop,
     mkState (Some (StopSendMessageWithRetryWrapperAction ClaimSwapTransactionCoop))
     [(Event_ActionSucceeded, State_ClaimedCoop);
      (Event_ActionFailed, State_WaitCsv)] false);
  (State_WaitCsv, mkState (Some (StopSendMessageWithRetryWrapperAction AwaitCsvAction))
     [(Event_OnCsvPassed, State_SwapInSender_ClaimSwapCsv);
      (Event_OnCoopCloseReceived, State_SwapInSender_ClaimSwapCoop)] false);
  (State_SendCancel, mkState (Some SendCancelAction)
     [(Event_ActionSucceeded, State_SwapCanceled);
      (Event_ActionFailed, State_SwapCanceled)] false);
  (State_SwapCanceled, mkState (Some CancelAction) [] false);
  (State_ClaimedPreimage, mkState (Some NoOpDoneAction) [] false);
  (State_ClaimedCsv, mkState (Some (AddSuspiciousPeerAction NoOpDoneAction)) [] false);
  (State_ClaimedCoop, mkState (Some NoOpDoneAction) [] false) ].

Definition getSwapInReceiverStates : States := [
  (Default, mkState None
     [(Event_SwapInReceiver_OnRequestReceived, State_SwapInReceiver_CreateSwap);
      (Event_OnInvalid_Message, State_SendCancel)] false);
  (State_SwapInReceiver_CreateSwap,
     mkState (Some (CheckRequestWrapperAction SwapInReceiverInitAction))
     [(Event_ActionSucceeded, State_SwapInReceiver_SendAgreement);
      (Event_ActionFailed, State_SendCancel)] true);
  (State_SwapInReceiver_SendAgreement, mkState (Some SendMessageAction)
     [(Event_ActionSucceeded, State_SwapInReceiver_AwaitTxBroadcastedMessage);
      (Event_ActionFailed, State_SendCancel)] false);
  (State_SwapInReceiver_AwaitTxBroadcastedMessage, mkState (Some SetStartingBlockHeightAction)
     [(Event_OnTxOpenedMessage, State_SwapInReceiver_AwaitTxConfirmation);
      (Event_OnCancelReceived, State_SwapCanceled);
      (Event_ActionFailed, State_SwapInReceiver_SendPrivkey);
      (Event_OnInvalid_Message, State_SendCancel);
      (Event_OnTimeout, State_SwapInReceiver_SendPrivkey)] false);
  (State_SwapInReceiver_AwaitTxConfirmation,
     mkState (Some (StopSendMessageWithRetryWrapperAction AwaitTxConfirmationAction))
     [(Event_OnTxConfirmed, State_SwapInReceiver_ValidateTxAndPayClaimInvoice);
      (Event_ActionFailed, State_SwapInReceiver_SendPrivkey);
      (Event_OnCancelReceived, State_SwapInReceiver_SendPrivkey)] false);
  (State_SwapInReceiver_ValidateTxAndPayClaimInvoice,
     mkState (Some ValidateTxAndPayClaimInvoiceAction)
     [(Event_ActionSucceeded, State_SwapInReceiver_ClaimSwap);
      (Event_ActionFailed, State_SwapInReceiver_SendPrivkey)] false);
  (State_SwapInReceiver_SendPrivkey, mkState (Some TakerSendPrivkeyAction)
     [(Event_ActionFailed, State_SendCancel);
      (Event_ActionSucceeded, State_SwapInReceiver_SendCoopClose)] false);
  (State_SwapInReceiver_SendCoopClose, mkState (Some SendMessageAction)
     [(Event_ActionSucceeded, State_ClaimedCoop);
      (Event_ActionFailed, State_SendCancel)] false);
  (State_SwapInReceiver_ClaimSwap, mkState (Some ClaimSwapTransactionWithPreimageAction)
     [(Event_ActionSucceeded, State_ClaimedPreimage);
      (Event_OnRetry, State_SwapInReceiver_ClaimSwap)] false);
  (State_ClaimedPreimage, mkState (Some NoOpDoneAction) [] false);
  (State_SendCancel, mkState (Some SendCancelAction)
     [(Event_ActionSucceeded, State_SwapCanceled);
      (Event_ActionFailed, State_SwapCanceled)] false);
  (State_SwapCanceled, mkState (Some CancelAction) [] false);
  (State_ClaimedCoop, mkState (Some NoOpDoneAction) [] false) ].

(** The table of a machine: what [new...FSM] and [...FromStore] assign for its
    type and role; nil for any other pair. *)
Definition states_for (ty : SwapType) (role : SwapRole) : States :=
  match ty, role with
  | SWAPTYPE_OUT, SWAPROLE_SENDER => getSwapOutSenderStates
  | SWAPTYPE_OUT, SWAPROLE_RECEIVER => getSwapOutReceiverStates
  | SWAPTYPE_IN, SWAPROLE_SENDER => getSwapInSenderStates
  | SWAPTYPE_IN, SWAPROLE_RECEIVER => getSwapInReceiverStates
  | _, _ => []
  end.
Definition sm_States (sm : SwapStateMachine) : States := states_for (sm_Type sm) (sm_Role sm).

(** ** Transitions *)
Definition ErrEventRejected : error := ErrSentinel "swap.ErrEventRejected" "event rejected".
Definition ErrFsmConfig : error := ErrSentinel "swap.ErrFsmConfig" "fsm config invalid".

Definition next_state (states : States) (current : StateType) (event : EventType)
    : option StateType :=
  s ← assoc current states; assoc event (state_Events s).

Definition action_of (states : States) (st : StateType) : option Action :=
  s ← assoc st states; state_Action s.

Definition getNextState (sm : SwapStateMachine) (event : EventType) : result StateType :=
  match next_state (sm_States sm) (sm_Current sm) event with
  | Some next => Ok next
  | None => Err ErrEventRejected
  end.

Definition EventIsValid (sm : SwapStateMachine) (event : EventType) : bool :=
  match getNextState sm event with
  | Err _ => false
  | Ok nextState => bool_decide (is_Some (action_of (sm_States sm) nextState))
  end.

Definition finished (st : StateType) : bool :=
  match st with
  | State_ClaimedCsv | State_SwapCanceled | State_ClaimedPreimage | State_ClaimedCoop => true
  | _ => false
  end.
Definition IsFinished (sm : SwapStateMachine) : bool := finished (sm_Current sm).

(** ** Backoff *)
Definition exponentialBackoffBase : Z := 1000.
Definition exponentialBackoffCap : Z := 20000.

(** [int(math.Pow(2, float64(n)))] for a non-negative [n], with the amd64
    conversion out of range. *)
Definition pow2_int (n : Z) : Z := if 63 <=? n then - 2 ^ 63 else 2 ^ n.
Definition backoff_limit (retries : Z) : Z :=
  Z.min (i64 (exponentialBackoffBase * pow2_int retries)) exponentialBackoffCap.

Section fsm.
Context `{!Env}.
Abbreviation Fsm := (Svc SwapStateMachine).

(** Run an action over the data of the machine. *)
Definition on_data {A} (m : Svc SwapData A) : Fsm A :=
  zoom sm_Data (λ d sm, sm <| sm_Data := d |>) m.

(** [exponentialBackoffAndJitter]: [rand.Intn] panics on a bound that is not
    positive; the sleep itself has no effect on the state. *)
Definition exponentialBackoffAndJitter : Fsm () :=
  sm ← getl;
  if backoff_limit (sm_retries sm) <=? 0 then panic else mret ().

(** [logSwapInfo] prints; only [printFeeInvoiceInfo] uses a service. *)
Definition printFeeInvoiceInfo : Fsm () :=
  sm ← getl;
  match SwapOutAgreement (sm_Data sm) with
  | None => mret ()
  | Some a => call (DecodePayreq (SwapOutAgreementMessage.Payreq a));; mret ()
  end.

Definition logSwapInfo : Fsm () :=
  sm ← getl;
  if bool_decide (sm_Current sm = State_SwapOutSender_AwaitTxBroadcastedMessage ∧
                  sm_Previous sm = State_SwapOutSender_PayFeeInvoice)
  then printFeeInvoiceInfo else mret ().

Definition enter (nextState : StateType) (sm : SwapStateMachine) : SwapStateMachine :=
  sm <| sm_Previous := sm_Current sm |> <| sm_Current := nextState |>
     <| sm_Data := SetState nextState (sm_Data sm) |>.

Definition store_machine : Fsm (option error) := sm ← getl; UpdateData sm.

(** The loop of [SendEvent]. *)
Fixpoint run_events (fuel : nat) (event : EventType) : Fsm (bool * option error) :=
  match fuel with
  | O => nofuel
  | S fuel =>
      sm ← getl;
      match getNextState sm event with
      | Err _ => mret (false, Some ErrEventRejected)
      | Ok nextState =>
          match action_of (sm_States sm) nextState with
          | None => mret (false, Some ErrFsmConfig)
          | Some action =>
              setl (enter nextState);;
              logSwapInfo;;
              nextEvent ← on_data (Execute action);
              do? store_machine else e => mret (false, Some e) in
              match nextEvent with
              | Event_Done => mret (true, None)
              | NoOp => mret (false, None)
              | Event_OnRetry =>
                  setl (λ sm, sm <| sm_retries := sm_retries sm + 1 |>);;
                  exponentialBackoffAndJitter;;
                  sm ← getl;
                  if 20 <? sm_retries sm then
                    setl (λ sm, sm <| sm_retries := 0 |>);;
                    mret (false, None)
                  else run_events fuel nextEvent
              | _ => run_events fuel nextEvent
              end
          end
      end
  end.

(** Enough for every table (see [SendEvent_terminates]). *)
Definition loop_fuel : nat := 64.

(** [SendEvent(event, nil)]. *)
Definition SendEvent_nil (event : EventType) : Fsm (bool * option error) :=
  if bool_decide (event = Event_Done) then mret (true, None)
  else
    do? store_machine else e => mret (false, Some e) in
    run_events loop_fuel event.

Definition SendEvent (event : EventType) (eventCtx : option PeerMessage)
    : Fsm (bool * option error) :=
  match eventCtx with
  | None => SendEvent_nil event
  | Some m =>
      if bool_decide (event = Event_Done) then mret (true, None)
      else
        sm ← getl;
        match Validate m (sm_Data sm) with
        | Some _ => SendEvent_nil Event_OnInvalid_Message
        | None =>
            match ApplyToSwapData m (sm_Data sm) with
            | Err e =>
                mret (bool_decide (event = Event_OnSwapOutStarted ∨
                                   event = Event_SwapInSender_OnSwapInRequested), Some e)
            | Ok d =>
                setl (λ sm, sm <| sm_Data := d |>);;
                do? store_machine else e => mret (false, Some e) in
                run_events loop_fuel event
            end
        end
  end.

Definition Recover : Fsm (bool * option error) :=
  sm ← getl;
  match assoc (sm_Current sm) (sm_States sm) with
  | None => mret (false, Some (ErrText "unknown state"))
  | Some st =>
      match state_Action st with
      | None => mret (false, Some ErrFsmConfig)
      | Some action =>
          if FailOnrecover st then SendEvent_nil Event_ActionFailed
          else
            nextEvent ← on_data (Execute action);
            do? store_machine else e => mret (false, Some e) in
            if bool_decide (nextEvent = NoOp) then mret (false, None)
            else SendEvent_nil nextEvent
      end
  end.

(** ** Constructors *)
Definition new_machine (id : option SwapId) (ty : SwapType) (role : SwapRole) (d : SwapData)
    : SwapStateMachine := mkMachine id d ty role Default Default 0.

(** [newSwapOutSenderFSM], [newSwapInSenderFSM]: a random id, the swap's key
    and the time; [getRandomPrivkey] returns nil on an error, and serializing
    the nil key panics. *)
Definition newSenderFSM {D} (ty : SwapType) (initiatorNodeId peerNodeId : string)
    : Svc D SwapStateMachine :=
  id ← call RandSwapId;
  k ← call RandPrivateKey;
  match k with
  | Err _ => panic
  | Ok privkey =>
      now ← call TimeNow;
      mret (new_machine (Some id) ty SWAPROLE_SENDER
              (NewSwapData privkey now initiatorNodeId peerNodeId))
  end.

(** [newSwapOutReceiverFSM], [newSwapInReceiverFSM]. *)
Definition newReceiverFSM {D} (ty : SwapType) (swapId : option SwapId) (peer : string)
    : Svc D SwapStateMachine :=
  now ← call TimeNow;
  k ← call RandPrivateKey;
  match k with
  | Err _ => panic
  | Ok privkey =>
      mret (new_machine swapId ty SWAPROLE_RECEIVER
              (NewSwapDataFromRequest privkey now peer))
  end.
End fsm.
