(* ===== verification/FsmProofs.v ===== *)
(** * Properties of the state machine

    [run_events_rule] is the induction principle of the loop of [SendEvent]: an
    invariant of "this event is about to be processed in this state" that every
    transition preserves.  The theorems on termination, completeness of the
    tables, persistence and immutability are instances of it. *)

From S2P Require Import Prelude GoLib Messages Premium Policy SwapData Timelock Env Demo Store.
From S2P Require Import Actions ActionProofs Fsm.

(** The machine after entering a state and running its action. *)
Definition after (n : StateType) (sm : SwapStateMachine) (d : SwapData) : SwapStateMachine :=
  enter n sm <| sm_Data := d |>.

(** The machine was stored and nothing else changed. *)
Definition stored (sm : SwapStateMachine) (w w' : World) : Prop :=
  store_put sm w w' ∧ same_state w (w' <| swaps := swaps w |>).

Section loop.
Context {EV : Env}.
Abbreviation St := (World * SwapStateMachine)%type.

(** What a transition to [n] with action [a] may do. *)
Definition moved (n : StateType) (a : Action) (w : World) (sm : SwapStateMachine)
    (w' : World) (d : SwapData) : Prop :=
  act_rel (may_call (base a)) (w, SetState n (sm_Data sm)) (w', d).

(** Logging the transition may decode the fee invoice. *)
Definition is_decode (c : Call) : bool :=
  match c with DecodePayreq _ => true | _ => false end.
Definition logged (w w' : World) : Prop :=
  hist_ext (λ e, is_decode (call_of e) = true) (hist w) (hist w') ∧
  w' <| hist := hist w |> = w.

Lemma wp_logSwapInfo w sm (Q : () → St → Prop) R :
  (∀ w', logged w w' → Q () (w', sm)) → wp logSwapInfo Q R (w, sm).
Proof.
  intros HQ. assert (logged w w) as H0 by (split; [constructor|by destruct w]).
  unfold logSwapInfo, printFeeInvoiceInfo. do 2 svc_step.
  case_bool_decide; [|by apply wp_ret, HQ].
  do 2 svc_step. destruct (SwapOutAgreement (sm_Data sm)); [|by apply wp_ret, HQ].
  do 2 svc_step. apply wp_ret, HQ. split; [|by destruct w].
  by apply (hist_ext_cons _ _ _ (hist w)); [|constructor].
Qed.

Lemma logged_act_rel a w w' d : logged w w' → act_rel (may_call a) (w, d) (w', d).
Proof.
  intros [Hh Hw]. split; [apply data_kept_refl|]. cbn [fst snd].
  split; [by rewrite <- Hw|]. split; [by rewrite <- Hw|].
  eapply hist_ext_mono; [|exact Hh]. intros e. cbn beta. by destruct (call_of e).
Qed.

(** The rules take a further property [X] of the runs of the actions, with the
    event that was returned ([None] for a panic). *)
Context (X : Action → option EventType → World * SwapData → World * SwapData → Prop)
        (HX : ∀ a s, wp (Execute a) (λ ev, X a (Some ev) s) (λ _, X a None s) s).

Definition moved_x (n : StateType) (a : Action) (o : option EventType) (w : World)
    (sm : SwapStateMachine) (w' : World) (d : SwapData) : Prop :=
  moved n a w sm w' d ∧
  ∃ w1, logged w w1 ∧ X a o (w1, SetState n (sm_Data sm)) (w', d).

Lemma Execute_spec_x a s :
  wp (Execute a)
    (λ ev s', ev ∈ events_of a ∧ act_rel (may_call (base a)) s s' ∧ X a (Some ev) s s')
    (λ k s', k = Panicked ∧ act_rel (may_call (base a)) s s' ∧ X a None s s') s.
Proof.
  pose proof (Execute_spec a s) as H1. pose proof (HX a s) as H2. unfold wp in *.
  destruct (Execute a s); naive_solver.
Qed.

Lemma wp_transition {A} n a w sm (k : EventType → Svc SwapStateMachine A)
    (Q : A → St → Prop) (R : stop → St → Prop) :
  (∀ ev w' d, ev ∈ events_of a → moved_x n a (Some ev) w sm w' d →
     wp (k ev) Q R (w', after n sm d)) →
  (∀ w' d, moved_x n a None w sm w' d → R Panicked (w', after n sm d)) →
  wp (setl (enter n);; logSwapInfo;; ev ← on_data (Execute a); k ev) Q R (w, sm).
Proof.
  intros HQ HR. do 3 svc_step. apply wp_logSwapInfo.
  intros w1 H1. pose proof (logged_act_rel (base a) _ _ (SetState n (sm_Data sm)) H1) as H1'.
  svc_step. unfold on_data. svc_step.
  eapply wp_mono; [apply Execute_spec_x|..].
  - intros ev [w' d] (Hev & Hrel & Hx). apply HQ; [done|].
    split; [by eapply act_rel_trans|eauto].
  - intros k' [w' d] (-> & Hrel & Hx). apply HR. split; [by eapply act_rel_trans|eauto].
Qed.

Section rule.
Context (Inv : nat → EventType → World → SwapStateMachine → Prop)
        (Q : bool * option error → St → Prop) (R : stop → St → Prop).

(** What follows a stored transition that returned [ev]. *)
Definition continues (fuel : nat) (ev : EventType) (w : World) (sm : SwapStateMachine)
    : Prop :=
  match ev with
  | Event_Done => Q (true, None) (w, sm)
  | NoOp => Q (false, None) (w, sm)
  | Event_OnRetry =>
      if backoff_limit (sm_retries sm + 1) <=? 0
      then R Panicked (w, sm <| sm_retries := sm_retries sm + 1 |>)
      else if 20 <? sm_retries sm + 1 then Q (false, None) (w, sm <| sm_retries := 0 |>)
      else Inv fuel ev w (sm <| sm_retries := sm_retries sm + 1 |>)
  | ev => Inv fuel ev w sm
  end.

Lemma run_events_rule_x :
  (∀ ev w sm, Inv 0 ev w sm → R OutOfFuel (w, sm)) →
  (∀ f ev w sm, Inv (S f) ev w sm →
     next_state (sm_States sm) (sm_Current sm) ev = None →
     Q (false, Some ErrEventRejected) (w, sm)) →
  (∀ f ev w sm n, Inv (S f) ev w sm →
     next_state (sm_States sm) (sm_Current sm) ev = Some n →
     action_of (sm_States sm) n = None → Q (false, Some ErrFsmConfig) (w, sm)) →
  (∀ f ev w sm n a w1 d, Inv (S f) ev w sm →
     next_state (sm_States sm) (sm_Current sm) ev = Some n →
     action_of (sm_States sm) n = Some a → moved_x n a None w sm w1 d →
     R Panicked (w1, after n sm d)) →
  (∀ f ev w sm n a w1 d ev', Inv (S f) ev w sm →
     next_state (sm_States sm) (sm_Current sm) ev = Some n →
     action_of (sm_States sm) n = Some a → moved_x n a (Some ev') w sm w1 d →
     ev' ∈ events_of a →
     (∀ e w2, same_state w1 w2 → Q (false, Some e) (w2, after n sm d)) ∧
     (∀ w2, stored (after n sm d) w1 w2 → continues f ev' w2 (after n sm d))) →
  ∀ fuel ev w sm, Inv fuel ev w sm → wp (run_events fuel ev) Q R (w, sm).
Proof.
  intros Hfuel Hrej Hcfg Hpanic Hstep fuel. induction fuel as [|fuel IH]; intros ev w sm HI.
  - by eapply Hfuel.
  - cbn [run_events]. do 2 svc_step. unfold getNextState.
    destruct (next_state _ _ ev) as [n|] eqn:En; [|by eapply wp_ret, Hrej].
    destruct (action_of _ n) as [a|] eqn:Ea; [|by eapply wp_ret, Hcfg].
    apply wp_transition.
    2:{ intros. by eapply Hpanic. }
    intros ev' w1 d Hev' Hm.
    destruct (Hstep fuel ev w sm n a w1 d ev' HI En Ea Hm Hev') as [Herr Hok].
    svc_step. unfold store_machine. do 2 svc_step. apply wp_UpdateData.
    + intros e w2 Hs. apply wp_ret. by apply Herr.
    + intros w2 Hp Hs. specialize (Hok w2 (conj Hp Hs)).
      destruct ev'; try (by apply IH); try done.
      do 2 svc_step. unfold exponentialBackoffAndJitter. do 3 svc_step. cbn in Hok |- *.
      destruct (backoff_limit _ <=? 0); [done|]. svc_step. do 2 svc_step. cbn.
      destruct (20 <? _); [by do 2 svc_step|by apply IH].
Qed.
End rule.
End loop.

(** The rule without a further property. *)
Lemma run_events_rule {EV : Env} (Inv : nat → EventType → World → SwapStateMachine → Prop)
    (Q : bool * option error → World * SwapStateMachine → Prop)
    (R : stop → World * SwapStateMachine → Prop) :
  (∀ ev w sm, Inv 0%nat ev w sm → R OutOfFuel (w, sm)) →
  (∀ f ev w sm, Inv (S f) ev w sm →
     next_state (sm_States sm) (sm_Current sm) ev = None →
     Q (false, Some ErrEventRejected) (w, sm)) →
  (∀ f ev w sm n, Inv (S f) ev w sm →
     next_state (sm_States sm) (sm_Current sm) ev = Some n →
     action_of (sm_States sm) n = None → Q (false, Some ErrFsmConfig) (w, sm)) →
  (∀ f ev w sm n a w1 d, Inv (S f) ev w sm →
     next_state (sm_States sm) (sm_Current sm) ev = Some n →
     action_of (sm_States sm) n = Some a → moved n a w sm w1 d →
     R Panicked (w1, after n sm d)) →
  (∀ f ev w sm n a w1 d ev', Inv (S f) ev w sm →
     next_state (sm_States sm) (sm_Current sm) ev = Some n →
     action_of (sm_States sm) n = Some a → moved n a w sm w1 d → ev' ∈ events_of a →
     (∀ e w2, same_state w1 w2 → Q (false, Some e) (w2, after n sm d)) ∧
     (∀ w2, stored (after n sm d) w1 w2 → continues Inv Q R f ev' w2 (after n sm d))) →
  ∀ fuel ev w sm, Inv fuel ev w sm → wp (run_events fuel ev) Q R (w, sm).
Proof.
  intros Hf Hr Hc Hp Hs. apply run_events_rule_x with (X := λ _ _ _ _, True); try done.
  - intros a s. unfold wp. by destruct (Execute a s).
  - intros * ? ? ? [? _]. eauto.
  - intros * ? ? ? [? _] ?. eauto.
Qed.

(** ** Facts of the tables, by evaluation *)

(** Events an action can return that make the loop go on. *)
Definition goes_on (ev : EventType) : bool :=
  match ev with NoOp | Event_Done | Event_OnRetry => false | _ => true end.

Definition internal_next (states : States) (st : StateType) : list StateType :=
  match action_of states st with
  | Some a => omap (next_state states st) (filter goes_on (events_of a))
  | None => []
  end.

(** Length of the longest chain of transitions without an outside event. *)
Fixpoint height (depth : nat) (states : States) (st : StateType) : nat :=
  match depth with
  | O => O
  | S depth => S (max_list (height depth states <$> internal_next states st))
  end.
Definition rank (states : States) (st : StateType) : nat := height 16 states st.

Definition ranked (states : States) : bool :=
  forallb (λ '(st, s),
    bool_decide (1 ≤ rank states st ≤ 16)%nat &&
    match state_Action s with
    | Some a =>
        forallb (λ ev,
          match next_state states st ev with
          | Some n => if goes_on ev then bool_decide (rank states n < rank states st)%nat
                      else bool_decide (rank states n ≤ rank states st)%nat
          | None => true
          end) (events_of a)
    | None => true
    end) states.

(** Every transition leads to a state of the table that has an action. *)
Definition closed (states : States) : bool :=
  forallb (λ '(_, s),
    forallb (λ '(_, n), bool_decide (is_Some (action_of states n))) (state_Events s)) states.

Definition all_machines : list (SwapType * SwapRole) :=
  t ← [SWAPTYPE_NONE; SWAPTYPE_IN; SWAPTYPE_OUT];
  r ← [SWAPROLE_NONE; SWAPROLE_SENDER; SWAPROLE_RECEIVER];
  mret (t, r).

Lemma all_machines_elem ty role : (ty, role) ∈ all_machines.
Proof. destruct ty, role; by_eval. Qed.

(** A boolean fact of all tables, from its evaluation. *)
Lemma for_all_tables (P : States → bool) :
  forallb (λ '(ty, role), P (states_for ty role)) all_machines = true →
  ∀ ty role, P (states_for ty role) = true.
Proof.
  intros H ty role. rewrite forallb_forall in H.
  apply (H (ty, role)). apply list_elem_of_In, all_machines_elem.
Qed.

Lemma tables_ranked ty role : ranked (states_for ty role) = true.
Proof. apply for_all_tables. by vm_compute. Qed.
Lemma tables_closed ty role : closed (states_for ty role) = true.
Proof. apply for_all_tables. by vm_compute. Qed.

Lemma assoc_elem {K V} `{EqDecision K} (k : K) (l : list (K * V)) v :
  assoc k l = Some v → (k, v) ∈ l.
Proof.
  induction l as [|[k' v'] l IH]; cbn; [done|].
  case_bool_decide; [intros [= ->]; subst; left|right; auto].
Qed.

Lemma forallb_elem {A} (f : A → bool) l x : forallb f l = true → x ∈ l → f x = true.
Proof. rewrite forallb_forall. intros H Hx. by apply H, list_elem_of_In. Qed.

Lemma closed_spec states st ev n :
  closed states = true → next_state states st ev = Some n → is_Some (action_of states n).
Proof.
  unfold next_state. intros Hc (s & Hs & Hn)%bind_Some.
  apply assoc_elem in Hs, Hn.
  pose proof (forallb_elem _ _ _ Hc Hs) as He. cbn in He.
  pose proof (forallb_elem _ _ _ He Hn) as He'. by apply bool_decide_eq_true in He'.
Qed.

Lemma ranked_spec states st a :
  ranked states = true → action_of states st = Some a →
  (1 ≤ rank states st ≤ 16)%nat ∧
  ∀ ev n, ev ∈ events_of a → next_state states st ev = Some n →
    (rank states n ≤ rank states st)%nat ∧
    (goes_on ev = true → rank states n < rank states st)%nat.
Proof.
  unfold action_of. intros Hr (s & Hs & Ha)%bind_Some.
  apply assoc_elem in Hs. pose proof (forallb_elem _ _ _ Hr Hs) as He. cbn beta iota in He.
  apply andb_true_iff in He as [H1%bool_decide_eq_true H2]. split; [done|].
  intros ev n Hev Hn. rewrite Ha in H2. pose proof (forallb_elem _ _ _ H2 Hev) as H3.
  cbn beta in H3. rewrite Hn in H3. clear H2. rename H3 into H2. destruct (goes_on ev); apply bool_decide_eq_true in H2; [lia|].
  split; [done|by intros [=]].
Qed.

(** ** The tables cover the results of the actions *)

(** States whose action can fail with no transition for the failure. *)
Definition may_strand : list StateType :=
  [State_SwapInSender_AwaitClaimPayment; State_SwapOutReceiver_AwaitClaimInvoicePayment;
   State_WaitCsv; State_SwapInReceiver_ClaimSwap; State_SwapOutSender_ClaimSwap].

Definition handled (states : States) : bool :=
  forallb (λ '(st, s),
    match state_Action s with
    | Some a =>
        forallb (λ ev,
          bool_decide (ev ∈ [NoOp; Event_Done]) ||
          bool_decide (is_Some (next_state states st ev)) ||
          bool_decide (ev = Event_ActionFailed ∧ st ∈ may_strand)) (events_of a)
    | None => true
    end) states.
Lemma tables_handled ty role : handled (states_for ty role) = true.
Proof. apply for_all_tables. by vm_compute. Qed.

(** The tables cover what the actions return: in every state of every role,
    whatever the services answer, the event returned by the action of the state
    ends the loop or has a transition, with one kind of exception: the actions of
    the five states that wait for the CSV or claim the output can fail although
    their states do not accept the failure, and the machine then stays there. *)
Theorem results_are_handled {EV : Env} ty role st a w d s' ev :
  action_of (states_for ty role) st = Some a → Execute a (w, d) = Ret s' ev →
  ev = NoOp ∨ ev = Event_Done ∨ is_Some (next_state (states_for ty role) st ev) ∨
  (ev = Event_ActionFailed ∧ st ∈ may_strand).
Proof.
  intros (s & Hs%assoc_elem & Ha)%bind_Some Hrun.
  destruct (wp_elim _ _ _ _ _ _ (Execute_spec a (w, d)) Hrun) as [Hev _].
  pose proof (forallb_elem _ _ _ (tables_handled ty role) Hs) as H. cbn beta iota in H.
  rewrite Ha in H. pose proof (forallb_elem _ _ _ H Hev) as He. cbn beta in He.
  apply orb_true_iff in He as [[He|He]%orb_true_iff|He]; apply bool_decide_eq_true in He; [|auto..].
  set_solver.
Qed.

(** One transition by some event. *)
Definition can_step (states : States) (st n : StateType) : Prop :=
  ∃ ev, next_state states st ev = Some n.

Fixpoint can_finish (depth : nat) (states : States) (st : StateType) : bool :=
  finished st ||
  match depth with
  | O => false
  | S depth =>
      existsb (λ ev, match next_state states st ev with
                     | Some n => can_finish depth states n
                     | None => false
                     end) (match assoc st states with
                           | Some s => fst <$> state_Events s
                           | None => []
                           end)
  end.

Lemma can_finish_sound depth states st :
  can_finish depth states st = true → ∃ n, rtc (can_step states) st n ∧ finished n = true.
Proof.
  revert st. induction depth as [|depth IH]; intros st; cbn;
    (destruct (finished st) eqn:Hf; [intros _; exists st; split; [apply rtc_refl|done]|]); [done|].
  intros (ev & _ & Hn)%existsb_exists. destruct (next_state states st ev) as [n|] eqn:E; [|done].
  destruct (IH n Hn) as (m & Hm & Hfin). exists m. split; [|done].
  eapply rtc_l; [by exists ev|done].
Qed.

Lemma tables_finish ty role :
  forallb (λ '(st, _), can_finish 16 (states_for ty role) st) (states_for ty role) = true.
Proof. apply (for_all_tables (λ s, forallb (λ '(st, _), can_finish 16 s st) s)). by vm_compute. Qed.

(** C38. No state is a trap: from every state of every role some sequence of events
    leads to a final state. *)
Theorem no_trap_states ty role st :
  is_Some (assoc st (states_for ty role)) →
  ∃ n, rtc (can_step (states_for ty role)) st n ∧ finished n = true.
Proof.
  intros [s Hs%assoc_elem]. apply (can_finish_sound 16).
  exact (forallb_elem _ _ _ (tables_finish ty role) Hs).
Qed.

(** ** SendEvent in terms of its loop *)
Section send.
Context {EV : Env}.
Abbreviation St := (World * SwapStateMachine)%type.

(** To prove a postcondition of [SendEvent], prove it of the early returns and
    of the loop, started in the machine as stored. *)
Lemma wp_SendEvent_nil event w sm (Q : bool * option error → St → Prop) R :
  (event = Event_Done → Q (true, None) (w, sm)) →
  (event ≠ Event_Done → ∀ e w', same_state w w' → Q (false, Some e) (w', sm)) →
  (event ≠ Event_Done → ∀ w', stored sm w w' → wp (run_events loop_fuel event) Q R (w', sm)) →
  wp (SendEvent_nil event) Q R (w, sm).
Proof.
  intros HD HE HL. unfold SendEvent_nil. case_bool_decide; [by apply wp_ret, HD|].
  unfold store_machine. do 3 svc_step. apply wp_UpdateData.
  - intros. apply wp_ret. by apply HE.
  - intros w' ? ?. by apply HL.
Qed.

Lemma wp_SendEvent event ctx w sm (Q : bool * option error → St → Prop) R :
  (ctx = None → wp (SendEvent_nil event) Q R (w, sm)) →
  (event = Event_Done → Q (true, None) (w, sm)) →
  (∀ m e, ctx = Some m → event ≠ Event_Done → Validate m (sm_Data sm) = Some e →
     wp (SendEvent_nil Event_OnInvalid_Message) Q R (w, sm)) →
  (∀ m e b, ctx = Some m → ApplyToSwapData m (sm_Data sm) = Err e → Q (b, Some e) (w, sm)) →
  (∀ m d, ctx = Some m → event ≠ Event_Done → Validate m (sm_Data sm) = None →
     ApplyToSwapData m (sm_Data sm) = Ok d → wp (SendEvent_nil event) Q R (w, sm <| sm_Data := d |>)) →
  wp (SendEvent event ctx) Q R (w, sm).
Proof.
  intros HN HD HV HA HO. unfold SendEvent. destruct ctx as [m|]; [|by apply HN].
  case_bool_decide as Hev; [by apply wp_ret, HD|]. do 2 svc_step.
  destruct (Validate m (sm_Data sm)) eqn:Ev; [by eapply HV|].
  destruct (ApplyToSwapData m (sm_Data sm)) as [d|e] eqn:Ea; [|by eapply wp_ret, HA].
  specialize (HO m d eq_refl Hev Ev Ea). unfold SendEvent_nil in HO.
  rewrite bool_decide_false in HO by done. by do 2 svc_step.
Qed.

Lemma wp_Recover_x X
    (HX : ∀ a s, wp (Execute a) (λ ev, X a (Some ev) s) (λ _, X a None s) s) w sm (Q : bool * option error → St → Prop) R :
  (∀ e, Q (false, Some e) (w, sm)) →
  wp (SendEvent_nil Event_ActionFailed) Q R (w, sm) →
  (∀ a w1 d, action_of (sm_States sm) (sm_Current sm) = Some a →
     act_rel (may_call (base a)) (w, sm_Data sm) (w1, d) →
     X a None (w, sm_Data sm) (w1, d) → R Panicked (w1, sm <| sm_Data := d |>)) →
  (∀ a ev w1 d, action_of (sm_States sm) (sm_Current sm) = Some a → ev ∈ events_of a →
     act_rel (may_call (base a)) (w, sm_Data sm) (w1, d) →
     X a (Some ev) (w, sm_Data sm) (w1, d) →
     (∀ e w2, same_state w1 w2 → Q (false, Some e) (w2, sm <| sm_Data := d |>)) ∧
     (∀ w2, stored (sm <| sm_Data := d |>) w1 w2 →
        if bool_decide (ev = NoOp) then Q (false, None) (w2, sm <| sm_Data := d |>)
        else wp (SendEvent_nil ev) Q R (w2, sm <| sm_Data := d |>))) →
  wp Recover Q R (w, sm).
Proof.
  intros HE HF HP HS. unfold Recover. do 2 svc_step.
  destruct (assoc (sm_Current sm) (sm_States sm)) as [st|] eqn:Est; [|by apply wp_ret].
  destruct (state_Action st) as [a|] eqn:Ea; [|by apply wp_ret].
  assert (action_of (sm_States sm) (sm_Current sm) = Some a) as Hact.
  { unfold action_of. by rewrite Est. }
  destruct (FailOnrecover st); [done|].
  svc_step. unfold on_data. svc_step. eapply wp_mono; [apply (Execute_spec_x X HX)|..].
  2:{ intros k [w1 d] (-> & Hrel & Hx). by eapply HP. }
  intros ev [w1 d] (Hev & Hrel & Hx). destruct (HS a ev w1 d Hact Hev Hrel Hx) as [Herr Hok].
  svc_step. unfold store_machine. do 2 svc_step. apply wp_UpdateData.
  - intros e w2 Hs. by apply wp_ret, Herr.
  - intros w2 Hp Hs. specialize (Hok w2 (conj Hp Hs)).
    case_bool_decide; [by apply wp_ret|done].
Qed.

Lemma wp_Recover w sm (Q : bool * option error → St → Prop) R :
  (∀ e, Q (false, Some e) (w, sm)) →
  wp (SendEvent_nil Event_ActionFailed) Q R (w, sm) →
  (∀ a w1 d, action_of (sm_States sm) (sm_Current sm) = Some a →
     act_rel (may_call (base a)) (w, sm_Data sm) (w1, d) →
     R Panicked (w1, sm <| sm_Data := d |>)) →
  (∀ a ev w1 d, action_of (sm_States sm) (sm_Current sm) = Some a → ev ∈ events_of a →
     act_rel (may_call (base a)) (w, sm_Data sm) (w1, d) →
     (∀ e w2, same_state w1 w2 → Q (false, Some e) (w2, sm <| sm_Data := d |>)) ∧
     (∀ w2, stored (sm <| sm_Data := d |>) w1 w2 →
        if bool_decide (ev = NoOp) then Q (false, None) (w2, sm <| sm_Data := d |>)
        else wp (SendEvent_nil ev) Q R (w2, sm <| sm_Data := d |>))) →
  wp Recover Q R (w, sm).
Proof.
  intros HE HF HP HS. apply wp_Recover_x with (X := λ _ _ _ _, True); eauto.
  intros a s. unfold wp. by destruct (Execute a s).
Qed.
End send.

(** ** Termination *)
Section termination.
Context {EV : Env}.

(** The fuel an event needs in a state. *)
Definition enough (fuel : nat) (ev : EventType) (w : World) (sm : SwapStateMachine) : Prop :=
  0 ≤ sm_retries sm ≤ 20 ∧ (1 ≤ fuel)%nat ∧
  ∀ n, next_state (sm_States sm) (sm_Current sm) ev = Some n →
    (rank (sm_States sm) n + Z.to_nat (20 - sm_retries sm) + 1 ≤ fuel)%nat.

Definition retries_ok (_ : bool * option error) (s : World * SwapStateMachine) : Prop :=
  0 ≤ sm_retries (snd s) ≤ 20.

Lemma enough_step f ev w sm n a w' d ev' :
  enough (S f) ev w sm → next_state (sm_States sm) (sm_Current sm) ev = Some n →
  action_of (sm_States sm) n = Some a → ev' ∈ events_of a →
  continues enough retries_ok only_panic f ev' w' (after n sm d).
Proof.
  intros (Hr & _ & Hn) En Ea Hev'. specialize (Hn n En).
  destruct (ranked_spec _ _ _ (tables_ranked _ _) Ea) as [Hrk Hdec].
  assert (goes_on ev' = true → enough f ev' w' (after n sm d)) as Hgo.
  { intros Hg. split; [done|]. split; [unfold sm_States in *; lia|]. intros n' Hn'.
    destruct (Hdec ev' n' Hev' Hn') as [_ Hlt]. specialize (Hlt Hg). cbn in *.
    unfold sm_States in *. cbn in *. lia. }
  unfold continues. destruct ev'; try (by apply Hgo); try done.
  destruct (backoff_limit _ <=? 0); [done|]. destruct (Z.ltb_spec 20 (sm_retries (after n sm d) + 1)); [done|].
  cbn in *. split; [cbn; lia|]. unfold sm_States in *. cbn. split; [lia|]. intros n' Hn'.
  destruct (Hdec _ n' Hev' Hn') as [Hle _]. lia.
Qed.

Lemma run_events_terminates ev w sm :
  0 ≤ sm_retries sm ≤ 20 → wp (run_events loop_fuel ev) retries_ok only_panic (w, sm).
Proof.
  intros Hr. apply run_events_rule with (Inv := enough).
  - intros ? ? ? (_ & ? & _). lia.
  - by intros ? ? ? ? [].
  - by intros ? ? ? ? ? [].
  - done.
  - intros f ev0 w0 sm0 n a w1 d ev' HI En Ea _ Hev'. split.
    + intros. by destruct HI.
    + intros w2 _. by eapply enough_step.
  - split; [done|]. split; [unfold loop_fuel; lia|]. intros n Hn.
    destruct (closed_spec _ _ _ _ (tables_closed _ _) Hn) as [a Ha].
    destruct (ranked_spec _ _ _ (tables_ranked _ _) Ha) as [Hb _].
    unfold sm_States in *. unfold loop_fuel. lia.
Qed.

Lemma SendEvent_nil_terminates ev w sm :
  0 ≤ sm_retries sm ≤ 20 → wp (SendEvent_nil ev) retries_ok only_panic (w, sm).
Proof. intros Hr. apply wp_SendEvent_nil; [done..|]. intros. by apply run_events_terminates. Qed.
End termination.

(** C25. [SendEvent] and [Recover] terminate: for a machine of any role in any
    state, any event, any message and whatever the services answer, the loop of
    transitions ends within its fuel (the state tables have no cycle of internal
    events except the retries, of which there are at most 20), and the retry
    counter stays within its bounds, so that the same holds of the next call. *)
Theorem SendEvent_terminates {EV : Env} w sm event ctx :
  0 ≤ sm_retries sm ≤ 20 →
  (match SendEvent event ctx (w, sm) with
   | Ret (_, sm') _ => 0 ≤ sm_retries sm' ≤ 20
   | Panic _ => True
   | NoFuel _ => False
   end) ∧
  (match Recover (w, sm) with
   | Ret (_, sm') _ => 0 ≤ sm_retries sm' ≤ 20
   | Panic _ => True
   | NoFuel _ => False
   end).
Proof.
  intros Hr.
  assert (∀ m : Svc SwapStateMachine (bool * option error),
    wp m retries_ok only_panic (w, sm) →
    match m (w, sm) with
    | Ret (_, sm') _ => 0 ≤ sm_retries sm' ≤ 20
    | Panic _ => True | NoFuel _ => False end) as Helim.
  { intros m. unfold wp. by destruct (m (w, sm)) as [[]|[]|[]]. }
  split; apply Helim.
  - apply wp_SendEvent; intros; try done; by apply SendEvent_nil_terminates.
  - apply wp_Recover; [done|by apply SendEvent_nil_terminates|done|].
    intros a ev w1 d _ _ _. split; [done|]. intros w2 _.
    case_bool_decide; [done|by apply SendEvent_nil_terminates].
Qed.

(** ** Which states end a swap *)
Definition done_is_finished (states : States) : bool :=
  forallb (λ '(st, s),
    match state_Action s with
    | Some a => implb (bool_decide (Event_Done ∈ events_of a)) (finished st)
    | None => true
    end) states.

Lemma tables_done ty role : done_is_finished (states_for ty role) = true.
Proof. apply for_all_tables. by vm_compute. Qed.

Lemma done_spec states st a :
  done_is_finished states = true → action_of states st = Some a →
  Event_Done ∈ events_of a → finished st = true.
Proof.
  unfold action_of. intros Hd (s & Hs & Ha)%bind_Some Hev. apply assoc_elem in Hs.
  pose proof (forallb_elem _ _ _ Hd Hs) as He. cbn beta iota in He. rewrite Ha in He.
  by rewrite bool_decide_true in He.
Qed.

Section done.
Context {EV : Env}.

Definition done_finished (r : bool * option error) (s : World * SwapStateMachine) : Prop :=
  r = (true, None) → IsFinished (snd s) = true.

Lemma run_events_done fuel ev w sm : wp (run_events fuel ev) done_finished any_stop (w, sm).
Proof.
  apply run_events_rule with (Inv := λ _ _ _ _, True); try done.
  intros f ev0 w0 sm0 n a w1 d ev' _ En Ea _ Hev'. split; [done|]. intros w2 _.
  unfold continues. destruct ev'; try done.
  - by repeat case_match.
  - intros _. eapply done_spec; [apply tables_done|exact Ea|done].
Qed.

Lemma SendEvent_nil_done ev w sm :
  ev ≠ Event_Done → wp (SendEvent_nil ev) done_finished any_stop (w, sm).
Proof. intros He. apply wp_SendEvent_nil; [done..|]. intros. apply run_events_done. Qed.
End done.

(** A swap is reported done only in a final state: when [SendEvent] (of an
    event other than [Event_Done]) or [Recover] returns true and no error, the
    machine is canceled or claimed, so a swap that is dropped from the active
    swaps never needs another event. *)
Theorem done_means_finished {EV : Env} w sm w' sm' event ctx :
  event ≠ Event_Done →
  (SendEvent event ctx (w, sm) = Ret (w', sm') (true, None) ∨
   Recover (w, sm) = Ret (w', sm') (true, None)) →
  IsFinished sm' = true.
Proof.
  intros Hev [Hrun|Hrun]; revert Hrun.
  - intros Hrun. refine (wp_elim _ done_finished any_stop _ _ _ _ Hrun eq_refl).
    apply wp_SendEvent; intros; try done; by apply SendEvent_nil_done.
  - intros Hrun. refine (wp_elim _ done_finished any_stop _ _ _ _ Hrun eq_refl).
    apply wp_Recover; [done|by apply SendEvent_nil_done|done|].
    intros a ev w1 d Ha Hin _. split; [done|]. intros w2 _. case_bool_decide; [done|].
    destruct (decide (ev = Event_Done)) as [->|]; [|by apply SendEvent_nil_done].
    apply wp_SendEvent_nil; [|done..]. intros _ _.
    eapply done_spec; [apply tables_done|exact Ha|done].
Qed.

(** ** Persistence *)

(** The store holds the machine as it is in memory. *)
Definition is_stored (sm : SwapStateMachine) (w : World) : Prop :=
  (swaps w ≫= (!!) (h2b (SwapId_String (sm_SwapId sm)))) = Some (to_stored sm).

Lemma stored_is_stored sm w w' : stored sm w w' → is_stored sm w'.
Proof.
  intros [[Hs [m Hm]] _]. unfold is_stored. rewrite Hs, Hm. cbn. by rewrite lookup_insert_eq.
Qed.

Section persistence.
Context {EV : Env}.

Definition persisted (r : bool * option error) (s : World * SwapStateMachine) : Prop :=
  snd r = None → is_stored (snd s) (fst s).

Lemma run_events_persisted fuel ev w sm :
  wp (run_events fuel ev) persisted any_stop (w, sm).
Proof.
  apply run_events_rule with (Inv := λ _ _ _ _, True); try done.
  intros f ev0 w0 sm0 n a w1 d ev' _ En Ea _ Hev'. split; [done|].
  intros w2 Hs%stored_is_stored.
  assert (∀ b, persisted (b, None) (w2, after n sm0 d)) by (by intros b _).
  unfold continues. destruct ev'; try done.
  repeat case_match; [exact I|by intros _|exact I].
Qed.

Lemma SendEvent_nil_persisted ev w sm :
  ev ≠ Event_Done ∨ is_stored sm w → wp (SendEvent_nil ev) persisted any_stop (w, sm).
Proof.
  intros H. apply wp_SendEvent_nil; [|done|].
  - by intros -> _; destruct H.
  - intros. apply run_events_persisted.
Qed.
End persistence.

(** Nothing is lost on success: when [SendEvent] (of an event other than
    [Event_Done]) or [Recover] returns without an error, the database holds the
    machine exactly as it is in memory (the fields that are not part of the json
    aside), so that a restart resumes from the state that was reached. *)
Theorem SendEvent_persists {EV : Env} w sm w' sm' event ctx b :
  event ≠ Event_Done →
  (SendEvent event ctx (w, sm) = Ret (w', sm') (b, None) ∨
   Recover (w, sm) = Ret (w', sm') (b, None)) →
  (swaps w' ≫= (!!) (h2b (SwapId_String (sm_SwapId sm')))) = Some (to_stored sm').
Proof.
  intros Hev [Hrun|Hrun]; refine (wp_elim _ persisted any_stop _ _ _ _ Hrun eq_refl).
  - apply wp_SendEvent; intros; try done; apply SendEvent_nil_persisted; auto.
  - apply wp_Recover; [done|apply SendEvent_nil_persisted; auto|done|].
    intros a ev w1 d _ _ _. split; [done|]. intros w2 Hs%stored_is_stored.
    case_bool_decide; [by intros _|apply SendEvent_nil_persisted; auto].
Qed.

(** ** What was agreed stays *)

(** The facts of a swap that are fixed once they are known. *)
Record facts_kept (sm sm' : SwapStateMachine) : Prop := {
  facts_id : sm_SwapId sm' = sm_SwapId sm;
  facts_type : sm_Type sm' = sm_Type sm;
  facts_role : sm_Role sm' = sm_Role sm;
  facts_peer : PeerNodeId (sm_Data sm') = PeerNodeId (sm_Data sm);
  facts_initiator : InitiatorNodeId (sm_Data sm') = InitiatorNodeId (sm_Data sm);
  facts_key : PrivkeyBytes (sm_Data sm') = PrivkeyBytes (sm_Data sm);
  facts_in_request m :
    SwapInRequest (sm_Data sm) = Some m → SwapInRequest (sm_Data sm') = Some m;
  facts_out_request m :
    SwapOutRequest (sm_Data sm) = Some m → SwapOutRequest (sm_Data sm') = Some m;
  facts_opening m :
    OpeningTxBroadcasted (sm_Data sm) = Some m → OpeningTxBroadcasted (sm_Data sm') = Some m;
  facts_coop m : CoopClose (sm_Data sm) = Some m → CoopClose (sm_Data sm') = Some m;
  facts_claim :
    ClaimTxId (sm_Data sm) ≠ "" → ClaimTxId (sm_Data sm') = ClaimTxId (sm_Data sm);
  facts_state : FSMState (sm_Data sm) = sm_Current sm → FSMState (sm_Data sm') = sm_Current sm';
}.

Lemma facts_refl sm : facts_kept sm sm.
Proof. by split. Qed.
Lemma facts_trans sm1 sm2 sm3 : facts_kept sm1 sm2 → facts_kept sm2 sm3 → facts_kept sm1 sm3.
Proof.
  intros [] []. split; [congruence..|naive_solver|naive_solver|naive_solver|naive_solver| |auto].
  intros Hc. assert (ClaimTxId (sm_Data sm2) ≠ "") by (by rewrite facts_claim0).
  rewrite facts_claim1 by done. auto.
Qed.
Lemma facts_data sm d : data_kept (sm_Data sm) d → facts_kept sm (sm <| sm_Data := d |>).
Proof. intros []. split; cbn; try done; congruence. Qed.
Lemma facts_entered n sm d :
  data_kept (SetState n (sm_Data sm)) d → facts_kept sm (after n sm d).
Proof. intros []. split; cbn in *; try done; congruence. Qed.
Lemma facts_after {EV : Env} n a w sm w' d : moved n a w sm w' d → facts_kept sm (after n sm d).
Proof. intros [Hd _]. by apply facts_entered. Qed.
Lemma facts_retries sm r : facts_kept sm (sm <| sm_retries := r |>).
Proof. by split. Qed.
Lemma facts_apply m sm d :
  ApplyToSwapData m (sm_Data sm) = Ok d → facts_kept sm (sm <| sm_Data := d |>).
Proof.
  destruct m; cbn; repeat case_match; intros [= <-]; split; cbn; congruence.
Qed.
#[export] Hint Resolve facts_refl : go.

(** A reflexive and transitive relation on machines that every transition
    respects holds between the machine before and after [SendEvent]. *)
Class MachineRel {EV : Env} (K : SwapStateMachine → SwapStateMachine → Prop) := {
  mrel_refl sm : K sm sm;
  mrel_trans sm1 sm2 sm3 : K sm1 sm2 → K sm2 sm3 → K sm1 sm3;
  mrel_after n a w sm w' d : moved n a w sm w' d → K sm (after n sm d);
  mrel_data sm d : data_kept (sm_Data sm) d → K sm (sm <| sm_Data := d |>);
  mrel_retries sm r : K sm (sm <| sm_retries := r |>);
}.

#[export] Instance facts_MachineRel {EV : Env} : MachineRel facts_kept.
Proof.
  split; eauto using facts_refl, facts_trans, facts_after, facts_data, facts_retries.
Qed.

(** The requests as they are: what [SendEvent] without a request keeps. *)
Record requests_kept (sm sm' : SwapStateMachine) : Prop := {
  req_id : sm_SwapId sm' = sm_SwapId sm;
  req_peer : PeerNodeId (sm_Data sm') = PeerNodeId (sm_Data sm);
  req_in : SwapInRequest (sm_Data sm') = SwapInRequest (sm_Data sm);
  req_out : SwapOutRequest (sm_Data sm') = SwapOutRequest (sm_Data sm);
}.
#[export] Instance requests_MachineRel {EV : Env} : MachineRel requests_kept.
Proof.
  split.
  - by split.
  - intros sm1 sm2 sm3 [] []. split; congruence.
  - intros n a w sm w' d [[] _]. by split.
  - intros sm d []. by split.
  - by split.
Qed.

Section facts.
Context {EV : Env} {K : SwapStateMachine → SwapStateMachine → Prop} {HK : MachineRel K}.
Context (sm0 : SwapStateMachine).

Definition keeps (_ : bool * option error) (s : World * SwapStateMachine) : Prop :=
  K sm0 (snd s).
Definition keeps_stop (_ : stop) (s : World * SwapStateMachine) : Prop := K sm0 (snd s).

Lemma run_events_keeps fuel ev w sm :
  K sm0 sm → wp (run_events fuel ev) keeps keeps_stop (w, sm).
Proof.
  intros H0. apply run_events_rule with (Inv := λ _ _ _ sm, K sm0 sm); try done.
  - intros f ev0 w0 sm1 n a w1 d HI En Ea Hm.
    change (K sm0 (after n sm1 d)). by eapply mrel_trans, mrel_after.
  - intros f ev0 w0 sm1 n a w1 d ev' HI En Ea Hm Hev'.
    assert (K sm0 (after n sm1 d)) as Ha by (by eapply mrel_trans, mrel_after).
    split; [done|]. intros w2 _. unfold continues.
    destruct ev'; try done.
    assert (∀ r, K sm0 (after n sm1 d <| sm_retries := r |>)) as Hr.
    { intros r. eapply mrel_trans; [exact Ha|apply mrel_retries]. }
    repeat case_match; by apply Hr.
Qed.

Lemma SendEvent_nil_keeps ev w sm :
  K sm0 sm → wp (SendEvent_nil ev) keeps keeps_stop (w, sm).
Proof. intros H0. apply wp_SendEvent_nil; [done..|]. intros. by apply run_events_keeps. Qed.

Lemma SendEvent_keeps ev ctx w sm :
  (∀ m d, ctx = Some m → ApplyToSwapData m (sm_Data sm) = Ok d →
     K sm (sm <| sm_Data := d |>)) →
  K sm0 sm → wp (SendEvent ev ctx) keeps keeps_stop (w, sm).
Proof.
  intros Happly H0.
  apply wp_SendEvent; intros; try done; apply SendEvent_nil_keeps; [done..|].
  eapply mrel_trans; eauto.
Qed.

Lemma Recover_keeps w sm : K sm0 sm → wp Recover keeps keeps_stop (w, sm).
Proof.
  intros H0. apply wp_Recover; [done|by apply SendEvent_nil_keeps|..].
  - intros a w1 d _ [Hd _]. change (K sm0 (sm <| sm_Data := d |>)).
    by eapply mrel_trans, mrel_data.
  - intros a ev w1 d _ _ [Hd _].
    assert (K sm0 (sm <| sm_Data := d |>)) by (by eapply mrel_trans, mrel_data).
    split; [done|]. intros. case_bool_decide; [done|by apply SendEvent_nil_keeps].
Qed.
End facts.

(** C26. What was agreed cannot be changed: no event, message or recovery, and no
    answer of a service, changes the id, peer, key, type or role of a swap, a
    request, opening-transaction or coop-close message that was recorded, or the
    id of a claim transaction; and the state recorded in the data stays the
    state of the machine.  (A panic included.) *)
Theorem agreed_facts_immutable {EV : Env} w sm event ctx :
  (match SendEvent event ctx (w, sm) with
   | Ret (_, sm') _ | Panic (_, sm') | NoFuel (_, sm') => facts_kept sm sm'
   end) ∧
  (match Recover (w, sm) with
   | Ret (_, sm') _ | Panic (_, sm') | NoFuel (_, sm') => facts_kept sm sm'
   end).
Proof.
  split.
  - assert (wp (SendEvent event ctx) (keeps (K := facts_kept) sm)
      (keeps_stop (K := facts_kept) sm) (w, sm)) as H.
    { apply SendEvent_keeps; [|apply facts_refl]. intros. by eapply facts_apply. }
    unfold wp in H. by destruct (SendEvent event ctx (w, sm)) as [[]|[]|[]].
  - pose proof (Recover_keeps sm w sm (facts_refl sm)) as H. unfold wp in H.
    by destruct (Recover (w, sm)) as [[]|[]|[]].
Qed.

Lemma run_events_rejected {EV : Env} fuel ev w sm :
  next_state (sm_States sm) (sm_Current sm) ev = None →
  run_events (S fuel) ev (w, sm) = Ret (w, sm) (false, Some ErrEventRejected).
Proof.
  intros Hn. cbn [run_events]. unfold mbind, M_bind. cbn. unfold getNextState. by rewrite Hn.
Qed.

(** An event the current state does not accept is harmless: without a
    message, or with one that passes validation, [SendEvent] returns an error,
    touches nothing but the database, and leaves the machine as it was, except
    that a message that could be recorded has been recorded. *)
Theorem rejected_event_harmless {EV : Env} w sm event ctx :
  event ≠ Event_Done →
  next_state (sm_States sm) (sm_Current sm) event = None →
  (∀ m, ctx = Some m → Validate m (sm_Data sm) = None) →
  ∃ w' sm' b e, SendEvent event ctx (w, sm) = Ret (w', sm') (b, Some e) ∧
    hist_ext (λ c, is_db (call_of c) = true) (hist w) (hist w') ∧
    (sm' = sm ∨ ∃ m d, ctx = Some m ∧ ApplyToSwapData m (sm_Data sm) = Ok d ∧
                       sm' = sm <| sm_Data := d |>).
Proof.
  intros Hev Hnext Hval.
  set (Q (sm1 : SwapStateMachine) := λ (r : bool * option error) (s : World * SwapStateMachine),
    snd s = sm1 ∧ is_Some (snd r) ∧
    hist_ext (λ c, is_db (call_of c) = true) (hist w) (hist (fst s))).
  assert (∀ sm1, sm_Current sm1 = sm_Current sm → sm_States sm1 = sm_States sm →
    wp (SendEvent_nil event) (Q sm1) no_stop (w, sm1)) as Hnil.
  { intros sm1 Hc Hs. apply wp_SendEvent_nil; [done| |].
    - intros _ e w' [_ Hh]. split; [done|]. split; [by eexists|exact Hh].
    - intros _ w' [_ [_ Hh]]. change loop_fuel with (S 63). unfold wp.
      rewrite run_events_rejected by (by rewrite Hs, Hc).
      split; [done|]. split; [by eexists|exact Hh]. }
  assert (wp (SendEvent event ctx) (λ r s, ∃ sm1, Q sm1 r s ∧
    (sm1 = sm ∨ ∃ m d, ctx = Some m ∧ ApplyToSwapData m (sm_Data sm) = Ok d ∧
                       sm1 = sm <| sm_Data := d |>)) no_stop (w, sm)) as H.
  { apply wp_SendEvent.
    - intros ->. eapply wp_mono; [apply (Hnil sm); reflexivity| |done]. intros. exists sm. auto.
    - done.
    - intros m e Hm _ Hv. by rewrite (Hval m Hm) in Hv.
    - intros. exists sm. split; [|by left]. split; [done|]. split; [by eexists|constructor].
    - intros m d Hm _ _ Ha. eapply wp_mono; [apply (Hnil (sm <| sm_Data := d |>)); reflexivity| |done].
      intros r s HQ. eexists. split; [exact HQ|]. right. eauto. }
  unfold wp in H. destruct (SendEvent event ctx (w, sm)) as [[w' sm'] [b e]|[]|[]]; [|done..].
  destruct H as (sm1 & (E & [e' He] & Hh) & Hor). cbn in *. subst. eauto 10.
Qed.
