(* ===== verification/Safety.v ===== *)
(** * Safety of whole runs of a machine

    A [region] is a set of states that no event leaves.  In a region a machine
    only makes calls of the region's actions, over any sequence of events,
    messages, recoveries and notifications, whatever the services answer and
    whatever other swaps do in between.  The theorems pick the regions that
    matter: after the key was disclosed, after the claim invoice was paid, after
    the opening transaction was announced, and the final states. *)

From S2P Require Import Prelude GoLib Messages Premium Policy SwapData Timelock Env Demo Store.
From S2P Require Import Actions ActionProofs Fsm FsmProofs.

(** ** Runs

    One step of a machine in some world: an event with or without a message, a
    recovery, or one of the assignments the service makes to its data outside
    [SendEvent] ([OnTxConfirmed], the timeout callback). *)
Inductive machine_step {EV : Env}
    : World * SwapStateMachine → World * SwapStateMachine → Prop :=
  | step_event ev ctx s s' r : SendEvent ev ctx s = Ret s' r → machine_step s s'
  | step_recover s s' r : Recover s = Ret s' r → machine_step s s'
  | step_tx_hex w sm h :
      machine_step (w, sm) (w, sm <| sm_Data := sm_Data sm <| OpeningTxHex := h |> |>)
  | step_last_err w sm e :
      machine_step (w, sm) (w, sm <| sm_Data := sm_Data sm <| LastErr := e |> |>)
  | step_to_cancel w sm :
      machine_step (w, sm) (w, sm <| sm_Data := sm_Data sm <| toCancel := false |> |>).

(** A run and the calls it made, newest first.  The world of each step is
    arbitrary: other swaps and components may have changed it. *)
Inductive machine_run {EV : Env} : SwapStateMachine → History → SwapStateMachine → Prop :=
  | run_nil sm : machine_run sm [] sm
  | run_step sm h sm1 w w' sm2 new :
      machine_run sm h sm1 → machine_step (w, sm1) (w', sm2) →
      hist w' = new ++ hist w → machine_run sm (new ++ h) sm2.

(** ** Regions *)
Definition region_closed (states : States) (region : list StateType) : bool :=
  forallb (λ st,
    match assoc st states with
    | Some s => forallb (λ '(_, n), bool_decide (n ∈ region)) (state_Events s)
    | None => true
    end) region.

Definition region_actions (states : States) (region : list StateType) : list Action :=
  omap (action_of states) region.

(** The calls the actions of the region may make, and the database. *)
Definition region_calls (states : States) (region : list StateType) (c : Call) : bool :=
  is_db c || existsb (λ a, may_call (base a) c) (region_actions states region).

Lemma region_next states region st ev n :
  region_closed states region = true → st ∈ region →
  next_state states st ev = Some n → n ∈ region.
Proof.
  unfold next_state. intros Hc Hst (s & Hs & Hn)%bind_Some. apply assoc_elem in Hn.
  pose proof (forallb_elem _ _ _ Hc Hst) as He. cbn beta in He. rewrite Hs in He.
  pose proof (forallb_elem _ _ _ He Hn) as He'. by apply bool_decide_eq_true in He'.
Qed.

Lemma region_may_call states region st a c :
  st ∈ region → action_of states st = Some a → may_call (base a) c = true →
  region_calls states region c = true.
Proof.
  intros Hst Ha Hc. unfold region_calls. apply orb_true_iff. right.
  apply existsb_exists. exists a. split; [|done].
  apply list_elem_of_In, list_elem_of_omap. eauto.
Qed.

Section region.
Context {EV : Env} (ty : SwapType) (role : SwapRole) (region : list StateType).
Context (Hclosed : region_closed (states_for ty role) region = true).

Definition in_region (sm : SwapStateMachine) : Prop :=
  sm_Type sm = ty ∧ sm_Role sm = role ∧ sm_Current sm ∈ region.

(** The calls made since [h0] are calls of the region. *)
Definition quiet (h0 h : History) : Prop :=
  hist_ext (λ e, region_calls (states_for ty role) region (call_of e) = true) h0 h.

Definition in_region_since (h0 : History) (s : World * SwapStateMachine) : Prop :=
  in_region (snd s) ∧ quiet h0 (hist (fst s)).

Lemma quiet_db h0 w w' : quiet h0 (hist w) → same_state w w' → quiet h0 (hist w').
Proof.
  intros H [_ Hh]. eapply hist_ext_trans; [exact H|].
  eapply hist_ext_mono; [|exact Hh]. intros e He. unfold region_calls. by rewrite He.
Qed.
Lemma quiet_stored h0 sm w w' : quiet h0 (hist w) → stored sm w w' → quiet h0 (hist w').
Proof. intros H [_ Hs]. exact (quiet_db h0 w (w' <| swaps := swaps w |>) H Hs). Qed.
Lemma quiet_act h0 st a w d w' d' :
  st ∈ region → action_of (states_for ty role) st = Some a → quiet h0 (hist w) →
  act_rel (may_call (base a)) (w, d) (w', d') → quiet h0 (hist w').
Proof.
  intros Hst Ha H (_ & _ & _ & Hh). eapply hist_ext_trans; [exact H|].
  eapply hist_ext_mono; [|exact Hh]. intros e He. by eapply region_may_call.
Qed.

Lemma in_region_states sm : in_region sm → sm_States sm = states_for ty role.
Proof. intros (<- & <- & _). done. Qed.

Lemma run_events_region h0 fuel ev w sm :
  in_region_since h0 (w, sm) →
  wp (run_events fuel ev) (λ _, in_region_since h0) any_stop (w, sm).
Proof.
  intros H0.
  apply run_events_rule with (Inv := λ _ _ w sm, in_region_since h0 (w, sm)); try done.
  intros f ev0 w0 sm0 n a w1 d ev' [HI HQ] En Ea Hm Hev'. cbn [fst snd] in *.
  rewrite (in_region_states _ HI) in En, Ea. destruct HI as (Ht & Hr & Hc).
  assert (n ∈ region) as Hn by (by eapply region_next).
  assert (quiet h0 (hist w1)) as HQ1 by (by eapply quiet_act).
  assert (∀ w2 r, quiet h0 (hist w2) →
    in_region_since h0 (w2, after n sm0 d <| sm_retries := r |>)) as Hin by done.
  split.
  - intros e w2 Hs. by eapply (Hin w2 (sm_retries sm0)), quiet_db.
  - intros w2 Hs. pose proof (quiet_stored _ _ _ _ HQ1 Hs) as HQ2.
    unfold continues. destruct ev'; try (by apply (Hin w2 (sm_retries sm0))).
    repeat case_match; [exact I| |]; by apply Hin.
Qed.

Lemma SendEvent_nil_region h0 ev w sm :
  in_region_since h0 (w, sm) →
  wp (SendEvent_nil ev) (λ _, in_region_since h0) any_stop (w, sm).
Proof.
  intros [HI HQ]. apply wp_SendEvent_nil.
  - done.
  - intros _ e w' Hs. split; [done|by eapply quiet_db].
  - intros _ w' Hs. apply run_events_region. split; [done|by eapply quiet_stored].
Qed.

Lemma SendEvent_region h0 ev ctx w sm :
  in_region_since h0 (w, sm) →
  wp (SendEvent ev ctx) (λ _, in_region_since h0) any_stop (w, sm).
Proof.
  intros H0. apply wp_SendEvent; intros; try done; by apply SendEvent_nil_region.
Qed.

Lemma Recover_region h0 w sm :
  in_region_since h0 (w, sm) → wp Recover (λ _, in_region_since h0) any_stop (w, sm).
Proof.
  intros [HI HQ]. apply wp_Recover; [done|by apply SendEvent_nil_region|done|].
  intros a ev w1 d Ha _ Hrel. cbn [fst snd] in *.
  rewrite (in_region_states _ HI) in Ha. pose proof HI as (Ht & Hr & Hc).
  assert (quiet h0 (hist w1)) as HQ1 by (by eapply quiet_act). split.
  - intros e w2 Hs. split; [done|by eapply quiet_db].
  - intros w2 Hs.
    assert (in_region_since h0 (w2, sm <| sm_Data := d |>)) as H2.
    { split; [done|by eapply quiet_stored]. }
    case_bool_decide; [done|by apply SendEvent_nil_region].
Qed.

Lemma machine_step_region w sm w' sm' :
  in_region sm → machine_step (w, sm) (w', sm') →
  in_region sm' ∧ quiet (hist w) (hist w').
Proof.
  intros HI Hstep.
  assert (in_region_since (hist w) (w, sm)) as H0 by (split; [done|constructor]).
  inversion Hstep as [? ? ? ? ? Hrun|? ? ? Hrun| | |]; subst.
  - exact (wp_elim _ _ _ _ _ _ (SendEvent_region _ _ _ _ _ H0) Hrun).
  - exact (wp_elim _ _ _ _ _ _ (Recover_region _ _ _ H0) Hrun).
  - split; [done|constructor].
  - split; [done|constructor].
  - split; [done|constructor].
Qed.

(** A run that starts in the region stays there and makes its calls only. *)
Lemma machine_run_region sm h sm' :
  in_region sm → machine_run sm h sm' →
  in_region sm' ∧ Forall (λ e, region_calls (states_for ty role) region (call_of e) = true) h.
Proof.
  intros HI. induction 1 as [sm|sm h sm1 w w' sm2 new _ IH Hstep Hnew]; [done|].
  destruct (IH HI) as [HI1 Hh]. destruct (machine_step_region _ _ _ _ HI1 Hstep) as [HI2 HQ].
  split; [done|]. apply hist_ext_iff in HQ as (new' & E & Hnew').
  rewrite E in Hnew. apply app_inv_tail in Hnew as <-. by apply Forall_app.
Qed.
End region.

(** ** Kinds of calls *)
Definition is_payment (c : Call) : bool :=
  match c with
  | RebalancePayment _ _ _ | PayInvoiceViaChannel _ _ | RecoverClaimPayment _ => true
  | _ => false
  end.
Definition is_opening (c : Call) : bool :=
  match c with CreateOpeningTransaction _ _ => true | _ => false end.
Definition is_refund (c : Call) : bool :=
  match c with
  | CreateCsvSpendingTransaction _ _ _ | CreateCoopSpendingTransaction _ _ _ _ => true
  | _ => false
  end.
Definition is_preimage_claim (c : Call) : bool :=
  match c with CreatePreimageSpendingTransaction _ _ _ => true | _ => false end.
Definition is_message (c : Call) : bool :=
  match c with SendMessage _ _ _ => true | _ => false end.
(** Any call that is not a query or bookkeeping. *)
Definition is_critical (c : Call) : bool := negb (may_call NoOpAction c).

(** Calls of a closed region have a property of calls that is checked on its
    actions. *)
Ltac region_check := intros c; destruct c; vm_compute; congruence.

Definition taker (sm : SwapStateMachine) : Prop :=
  (sm_Type sm = SWAPTYPE_OUT ∧ sm_Role sm = SWAPROLE_SENDER) ∨
  (sm_Type sm = SWAPTYPE_IN ∧ sm_Role sm = SWAPROLE_RECEIVER).
Definition maker (sm : SwapStateMachine) : Prop :=
  (sm_Type sm = SWAPTYPE_OUT ∧ sm_Role sm = SWAPROLE_RECEIVER) ∨
  (sm_Type sm = SWAPTYPE_IN ∧ sm_Role sm = SWAPROLE_SENDER).

(** A consequence of a region for runs: the form the theorems use. *)
Lemma region_consequence {EV : Env} ty role region (bad : Call → bool) sm h sm' :
  region_closed (states_for ty role) region = true →
  (∀ c, region_calls (states_for ty role) region c = true → bad c = false) →
  sm_Type sm = ty → sm_Role sm = role → sm_Current sm ∈ region →
  machine_run sm h sm' →
  sm_Current sm' ∈ region ∧ Forall (λ e, bad (call_of e) = false) h.
Proof.
  intros Hc Hb Ht Hr Hin Hrun.
  destruct (machine_run_region ty role region Hc sm h sm') as [(_ & _ & H) Hf]; [done..|].
  split; [done|]. eapply Forall_impl; [exact Hf|]. cbn. auto.
Qed.

(** States from which a taker that discloses its key cannot come back. *)
Definition key_disclosed : list StateType :=
  [State_SwapOutSender_SendPrivkey; State_SwapOutSender_SendCoopClose;
   State_SwapInReceiver_SendPrivkey; State_SwapInReceiver_SendCoopClose;
   State_SendCancel; State_SwapCanceled; State_ClaimedCoop].

(** C8. A taker that gives up its key never pays: from the moment a taker
    enters the state that discloses its private key (which lets the maker take
    the opening output back at once), no event, message or recovery makes it pay
    an invoice or look for one it paid, and it ends canceled or coop-closed. *)
Theorem key_disclosed_never_pays {EV : Env} sm h sm' :
  taker sm → sm_Current sm ∈ key_disclosed → machine_run sm h sm' →
  sm_Current sm' ∈ key_disclosed ∧ Forall (λ e, is_payment (call_of e) = false) h.
Proof.
  intros [[Ht Hr]|[Ht Hr]] Hin Hrun.
  - apply (region_consequence SWAPTYPE_OUT SWAPROLE_SENDER key_disclosed is_payment sm);
      [by vm_compute|region_check|done..].
  - apply (region_consequence SWAPTYPE_IN SWAPROLE_RECEIVER key_disclosed is_payment sm);
      [by vm_compute|region_check|done..].
Qed.

(** A swap-in receiver that paid the claim invoice keeps its key: once it is
    claiming the opening transaction it sends no message at all any more, over
    any events, and it ends by claiming with the preimage. *)
Theorem swap_in_receiver_keeps_key {EV : Env} sm h sm' :
  sm_Type sm = SWAPTYPE_IN → sm_Role sm = SWAPROLE_RECEIVER →
  sm_Current sm = State_SwapInReceiver_ClaimSwap → machine_run sm h sm' →
  sm_Current sm' ∈ [State_SwapInReceiver_ClaimSwap; State_ClaimedPreimage] ∧
  Forall (λ e, is_message (call_of e) = false) h.
Proof.
  intros Ht Hr Hc Hrun.
  apply (region_consequence SWAPTYPE_IN SWAPROLE_RECEIVER _ is_message sm);
    [by vm_compute|region_check|done..| |done].
  rewrite Hc. by_eval.
Qed.

(** States of a maker whose opening transaction was announced. *)
Definition announced : list StateType :=
  [State_SwapOutReceiver_SendTxBroadcastedMessage;
   State_SwapOutReceiver_AwaitClaimInvoicePayment;
   State_SwapOutReceiver_ClaimSwapCsv; State_SwapOutReceiver_ClaimSwapCoop;
   State_SwapInSender_SendTxBroadcastedMessage; State_SwapInSender_AwaitClaimPayment;
   State_SwapInSender_ClaimSwapCsv; State_SwapInSender_ClaimSwapCoop;
   State_WaitCsv; State_ClaimedCsv; State_ClaimedPreimage; State_ClaimedCoop].

(** C7. A maker never abandons an announced opening transaction: from then on it
    is never canceled, creates no second opening transaction and pays nothing;
    when it is finished, the swap was claimed by the taker's payment, by the CSV
    refund or cooperatively. *)
Theorem announced_never_abandoned {EV : Env} sm h sm' :
  maker sm → sm_Current sm ∈ announced → machine_run sm h sm' →
  sm_Current sm' ∈ announced ∧
  Forall (λ e, is_opening (call_of e) || is_payment (call_of e) = false) h ∧
  (IsFinished sm' = true →
   sm_Current sm' ∈ [State_ClaimedCsv; State_ClaimedPreimage; State_ClaimedCoop]).
Proof.
  intros Hm Hin Hrun.
  assert (sm_Current sm' ∈ announced ∧
          Forall (λ e, is_opening (call_of e) || is_payment (call_of e) = false) h) as [H1 H2].
  { destruct Hm as [[Ht Hr]|[Ht Hr]].
    - apply (region_consequence SWAPTYPE_OUT SWAPROLE_RECEIVER announced
        (λ c, is_opening c || is_payment c) sm); [by vm_compute|region_check|done..].
    - apply (region_consequence SWAPTYPE_IN SWAPROLE_SENDER announced
        (λ c, is_opening c || is_payment c) sm); [by vm_compute|region_check|done..]. }
  split; [done|]. split; [done|]. unfold IsFinished. revert H1. generalize (sm_Current sm').
  refine (proj1 (Forall_forall (λ st, finished st = true → st ∈ _) announced) _). by_eval.
Qed.

(** Final states are final: a finished machine of any role never changes its
    state again, and nothing that happens to it pays, publishes, sends or
    registers anything. *)
Theorem finished_is_final {EV : Env} sm h sm' :
  IsFinished sm = true → machine_run sm h sm' →
  sm_Current sm' = sm_Current sm ∧ Forall (λ e, is_critical (call_of e) = false) h.
Proof.
  unfold IsFinished. intros Hf Hrun.
  assert (sm_Current sm' ∈ [sm_Current sm] ∧
          Forall (λ e, is_critical (call_of e) = false) h) as [H1 H2].
  { apply (region_consequence (sm_Type sm) (sm_Role sm) [sm_Current sm] is_critical sm);
      [| |done..| |done].
    - destruct (sm_Type sm), (sm_Role sm), (sm_Current sm); (discriminate || reflexivity).
    - intros c. destruct (sm_Type sm), (sm_Role sm), (sm_Current sm); try discriminate;
        destruct c; vm_compute; congruence.
    - by apply list_elem_of_singleton. }
  by apply list_elem_of_singleton in H1.
Qed.

(** The roles are separated: from its creation, whatever happens, a maker
    never pays an invoice and never claims with a preimage, and a taker never
    creates an opening transaction or a refund; only the swap-out sender pays a
    fee invoice. *)
Theorem roles_separated {EV : Env} sm h sm' :
  sm_Current sm = Default → machine_run sm h sm' →
  (maker sm → Forall (λ e, is_payment (call_of e) || is_preimage_claim (call_of e) = false) h) ∧
  (taker sm → Forall (λ e, is_opening (call_of e) || is_refund (call_of e) = false) h) ∧
  (sm_Type sm ≠ SWAPTYPE_OUT ∨ sm_Role sm ≠ SWAPROLE_SENDER →
   Forall (λ e, match call_of e with PayInvoiceViaChannel _ _ => False | _ => True end) h).
Proof.
  intros Hc Hrun.
  assert (∀ bad : Call → bool,
    (∀ c, region_calls (states_for (sm_Type sm) (sm_Role sm))
            (Default :: (states_for (sm_Type sm) (sm_Role sm)).*1) c = true → bad c = false) →
    Forall (λ e, bad (call_of e) = false) h) as Hall.
  { intros bad Hbad.
    apply (region_consequence (sm_Type sm) (sm_Role sm)
             (Default :: (states_for (sm_Type sm) (sm_Role sm)).*1) bad sm h sm');
      [|exact Hbad|done..| |done].
    - apply (for_all_tables (λ s, region_closed s (Default :: s.*1))). by vm_compute.
    - rewrite Hc. left. }
  split; [|split].
  - intros [[Ht Hr]|[Ht Hr]]; rewrite Ht, Hr in Hall;
      apply (Hall (λ c, is_payment c || is_preimage_claim c)); region_check.
  - intros [[Ht Hr]|[Ht Hr]]; rewrite Ht, Hr in Hall;
      apply (Hall (λ c, is_opening c || is_refund c)); region_check.
  - intros Hne. eapply Forall_impl.
    + apply (Hall (λ c, match c with PayInvoiceViaChannel _ _ => true | _ => false end)).
      intros c. destruct (sm_Type sm), (sm_Role sm); try (by destruct Hne);
        destruct c; vm_compute; congruence.
    + intros e. cbn beta. by destruct (call_of e); intros H; try discriminate H.
Qed.
