(* ===== verification/Payments.v ===== *)
(** * When money moves

    The guards of the actions that pay an invoice, publish the opening
    transaction or register the confirmation watch: every such call is made only
    after the checks of the source, on the data of this very swap and with the
    answers of the services recorded just before. *)

From S2P Require Import Prelude GoLib Messages Premium Policy SwapData Timelock Env Demo Store.
From S2P Require Import Actions ActionProofs.

(** Every entry of [h] made since [h0] satisfies [P] together with the record of
    the calls before it. *)
Inductive made_when (P : Entry → History → Prop) (h0 : History) : History → Prop :=
  | made_none : made_when P h0 h0
  | made_cons e h : P e h → made_when P h0 h → made_when P h0 (e :: h).
#[export] Hint Constructors made_when : go.

Lemma made_when_spec P h0 h :
  made_when P h0 h →
  ∀ post e pre, h = post ++ e :: pre → suffix h0 pre → P e pre.
Proof.
  induction 1 as [|e' h He Hh IH]; intros post e pre E Hs.
  - exfalso. apply suffix_length in Hs. subst. rewrite length_app in Hs. cbn in Hs. lia.
  - destruct post as [|e'' post]; injection E as <- E; [by subst|by eapply IH].
Qed.

Lemma made_when_mono (P P' : Entry → History → Prop) h0 h :
  (∀ e pre, P e pre → P' e pre) → made_when P h0 h → made_when P' h0 h.
Proof. intros HP. induction 1; constructor; auto. Qed.

Section guards.
Context {EV : Env}.
Abbreviation St := (World * SwapData)%type.

(** The history part of a postcondition, the same for a panic. *)
Definition since (P : Entry → History → Prop) (h0 : History) (s : St) : Prop :=
  made_when P h0 (hist (fst s)).
Definition made {A} (P : Entry → History → Prop) (h0 : History) (m : Svc SwapData A)
    (w : World) (d : SwapData) : Prop :=
  wp m (λ _, since P h0) (λ _, since P h0) (w, d).

Lemma made_handle P h0 e w d : made_when P h0 (hist w) → made P h0 (handle e) w d.
Proof.
  intros H. unfold made, handle. do 2 svc_step.
  destruct (HandleError e d) as [d' ev]. by do 2 svc_step.
Qed.
End guards.

(** A first step that leaves the state alone. *)
Lemma wp_bind_pure {S A B} (m : M S A) (k : A → M S B) Q R s :
  wp m (λ _ s', s' = s) R s → (∀ a, wp (k a) Q R s) → wp (m ≫= k) Q R s.
Proof.
  intros Hm Hk. apply wp_bind. eapply wp_mono; [exact Hm| |done]. by intros a s' ->.
Qed.

Lemma recorded {EV : Env} c a w : ask (hist w) c = a → entry c a ∈ hist (record c w).
Proof. intros <-. left. Qed.
Lemma still_recorded {EV : Env} c e w : e ∈ hist w → e ∈ hist (record c w).
Proof. by right. Qed.

(** ** The claim invoice *)
Section claim_payment.
Context {EV : Env}.

(** A payment of the claim invoice of [d] is in order after [pre], for an action
    that began with the calls [h0]: new payments are allowed for the swap, it pays
    the recorded invoice over the swap's own channel with the total CLTV limit of
    the policy, the block height was read just before and is inside the window,
    and the opening transaction was validated, since [h0], against the swap's own
    parameters. *)
Definition payment_in_order (h0 : History) (d : SwapData) (payreq scid : string) (delta : Z)
    (pre : History) : Prop :=
  ∃ ch policy params msg now new,
    getOnChainServices (GetChain d) = Ok ch ∧
    getTimelockPolicy d = Ok policy ∧ AllowNewClaimPayment policy = true ∧
    delta = MaxTotalCLTVDelta policy ∧ scid = GetScid d ∧
    OpeningTxBroadcasted d = Some msg ∧ payreq = OpeningTxBroadcastedMessage.Payreq msg ∧
    pre = entry (GetBlockHeight ch) (Ok now) :: new ++ h0 ∧
    check_pay_height ch d policy now = None ∧
    GetOpeningParams d = Some params ∧
    entry (ValidateTx ch params (OpeningTxHex d)) (Ok true) ∈ new.

Definition claim_guard (h0 : History) (d : SwapData) (e : Entry) (pre : History) : Prop :=
  match call_of e with
  | RebalancePayment payreq scid delta => payment_in_order h0 d payreq scid delta pre
  | _ => True
  end.

Lemma pay_loop_guarded d ch policy params h0 ticks payErr w :
  getOnChainServices (GetChain d) = Ok ch → getTimelockPolicy d = Ok policy →
  AllowNewClaimPayment policy = true → GetOpeningParams d = Some params →
  (∃ new, hist w = new ++ h0 ∧ entry (ValidateTx ch params (OpeningTxHex d)) (Ok true) ∈ new) →
  made_when (claim_guard h0 d) h0 (hist w) →
  made (claim_guard h0 d) h0 (pay_loop ch policy ticks payErr) w d.
Proof.
  intros Hch Hpol Hallow Hpar. revert w payErr.
  induction ticks as [|ticks IH]; intros w payErr Hval Hh; cbn [pay_loop].
  - by apply made_handle.
  - unfold made. do 2 svc_step.
    destruct (ask (hist w) (GetBlockHeight ch)) as [now|e] eqn:Enow;
      [|by apply made_handle; constructor].
    do 2 svc_step. destruct (check_pay_height ch d policy now) eqn:Ech;
      [by apply made_handle; constructor|].
    do 2 svc_step.
    2:{ by constructor. }
    destruct Hval as (new & Hnew & Hval).
    assert (made_when (claim_guard h0 d) h0 (hist (record (RebalancePayment
      (OpeningTxBroadcastedMessage.Payreq a) (GetScid d) (MaxTotalCLTVDelta policy))
        (record (GetBlockHeight ch) w)))) as Hpaid.
    { constructor; [|by constructor]. exists ch, policy, params, a, now, new.
      split_and!; try done. cbn. by rewrite Enow, Hnew. }
    do 2 svc_step. destruct (ask _ (RebalancePayment _ _ _)) as [preimage|e].
    + by do 2 svc_step.
    + apply IH; [|exact Hpaid]. cbn. rewrite Hnew.
      eexists (_ :: _ :: new). split; [done|]. by do 2 right.
Qed.
End claim_payment.

(** Every payment of the validate-and-pay action is in order. *)
Lemma claim_made {EV : Env} w d :
  made (claim_guard (hist w) d) (hist w) (Execute ValidateTxAndPayClaimInvoiceAction) w d.
Proof.
  unfold made. cbn [Execute]. unfold exec_ValidateTxAndPayClaimInvoice, with_chain.
  assert (made_when (claim_guard (hist w) d) (hist w) (hist w)) as H0 by constructor.
  do 2 svc_step. destruct (getOnChainServices (GetChain d)) as [ch|e] eqn:Hch;
    [|by apply made_handle].
  unfold with_timelock. do 2 svc_step.
  destruct (getTimelockPolicy d) as [policy|e] eqn:Hpol; [|by apply made_handle].
  do 4 svc_step; [|exact H0].
  do 2 svc_step.
  destruct (ask (hist w) (ValidateTx ch a (OpeningTxHex d))) as [ok|e] eqn:Eok;
    [|by apply made_handle; constructor].
  destruct ok; cbn [negb]; [|by apply made_handle; constructor].
  destruct (AllowNewClaimPayment policy) eqn:Hallow; cbn [negb].
  - do 2 svc_step. eapply pay_loop_guarded; eauto.
    + cbn. rewrite Eok. eexists [_; _]. split; [done|]. right. left.
    + by repeat constructor.
  - case_bool_decide; [by constructor|]. do 2 svc_step; [|by constructor].
    do 2 svc_step. destruct (ask _ (RecoverClaimPayment _)).
    + by do 2 svc_step; repeat constructor.
    + by apply made_handle; repeat constructor.
Qed.

(** ** Timelocks *)

(** What the two checks mean for a payment at height [now]. *)
Lemma claim_settles_before_refund ch d policy inv payreq now :
  getOnChainServices (GetChain d) = Ok ch → getTimelockPolicy d = Ok policy →
  AllowNewClaimPayment policy = true →
  check_claim_invoice ch d policy inv payreq = Some None →
  check_pay_height ch d policy now = None →
  is_u32 (StartingBlockHeight d) → is_u32 now → is_i64 (dp_finalCLTVDelta inv) →
  StartingBlockHeight d ≤ now →
  (ch = Bitcoin ∧ MaxTotalCLTVDelta policy = 0 ∧ dp_finalCLTVDelta inv ≤ 504 ∧
   now + dp_finalCLTVDelta inv ≤ StartingBlockHeight d + CSV policy) ∨
  (ch = Liquid ∧ now < StartingBlockHeight d + 60 ∧ 0 ≤ dp_finalCLTVDelta inv ≤ 29 ∧
   MaxTotalCLTVDelta policy = 32 ∧
   ∀ r, 0 ≤ r ≤ 313 →
     now + MaxTotalCLTVDelta policy * r < StartingBlockHeight d + CSV policy).
Proof.
  intros Hch Hpol Hallow Hinv Hpay Hs Hn Hc Hle.
  destruct (getTimelockPolicy_cases d policy Hpol) as
    [(E & _ & ->)|[(E & _ & ->)|(E & _ & ->)]]; cbn in Hallow; [|done|].
  - left. apply getOnChainServices_Ok in Hch as [[_ ->]|[E' _]]; [|by rewrite E in E'].
    split; [done|]. revert Hinv Hpay. unfold check_claim_invoice, check_pay_height.
    rewrite bool_decide_true by done. cbn [GetCSVHeight]. unfold BitcoinCsv.
    destruct (Z.ltb_spec (1008 / 2) (dp_finalCLTVDelta inv)); [done|]. intros _.
    destruct (Z.ltb_spec (1008 / 2) (u32 (now - StartingBlockHeight d))); [done|]. intros _.
    assert (u32 (now - StartingBlockHeight d) = now - StartingBlockHeight d) as E32.
    { apply u32_small. unfold is_u32 in *. lia. }
    change (1008 / 2) with 504 in *. cbn [CSV MaxTotalCLTVDelta]. lia.
  - right. apply getOnChainServices_Ok in Hch as [[E' _]|[_ ->]]; [by rewrite E in E'|].
    split; [done|]. revert Hinv Hpay. unfold check_claim_invoice, check_pay_height.
    rewrite (bool_decide_false (GetChain d = btc_chain)) by (by rewrite E).
    rewrite (bool_decide_true (GetChain d = l_btc_chain)) by done. cbn [andb].
    intros (amt & _ & Hval)%bind_Some. injection Hval as Hval.
    apply validateClaimInvoice_None in Hval as [Hcl _]; [|done].
    destruct (checkPaymentWindow d now _) eqn:Hw; [done|]. intros _.
    apply checkPaymentWindow_None in Hw as [_ Hw]; [|done|cbn; unfold is_u32; lia].
    cbn in *. split_and!; try lia.
Qed.

(** The limits of a payment that passed both checks, for what the client adds to the
    final CLTV see Settlement: when the claim invoice was accepted and the payment
    is made at height [now] inside the window, then on Bitcoin the final CLTV ends
    at most at height [start + CSV]; on Liquid the payment is made in the first 60 blocks after the
    anchor, and even with the total CLTV limit of 32 Bitcoin blocks of up to 313
    Liquid blocks each it is settled before the CSV of 10080 blocks. *)
Theorem payment_before_refund ch d policy inv payreq now :
  getOnChainServices (GetChain d) = Ok ch → getTimelockPolicy d = Ok policy →
  AllowNewClaimPayment policy = true →
  check_claim_invoice ch d policy inv payreq = Some None →
  check_pay_height ch d policy now = None →
  is_u32 (StartingBlockHeight d) → is_u32 now → is_i64 (dp_finalCLTVDelta inv) →
  StartingBlockHeight d ≤ now →
  (ch = Bitcoin ∧
   now + dp_finalCLTVDelta inv ≤ StartingBlockHeight d + CSV policy) ∨
  (ch = Liquid ∧ now < StartingBlockHeight d + 60 ∧ 0 ≤ dp_finalCLTVDelta inv ≤ 29 ∧
   MaxTotalCLTVDelta policy = 32 ∧
   ∀ r, 0 ≤ r ≤ 313 →
     now + MaxTotalCLTVDelta policy * r < StartingBlockHeight d + CSV policy).
Proof.
  intros Hch Hpol Hallow Hinv Hpay Hs Hn Hc Hle.
  destruct (claim_settles_before_refund ch d policy inv payreq now Hch Hpol Hallow Hinv Hpay Hs Hn Hc Hle)
    as [(? & _ & _ & ?)|?]; [by left|by right].
Qed.

(** ** The confirmation watch *)
Section watch.
Context {EV : Env}.

(** The confirmation of the opening transaction of [d] is awaited after [pre]
    only when the claim invoice was decoded and accepted, and the height read
    last is inside the window. *)
Definition watch_guard (d : SwapData) (e : Entry) (pre : History) : Prop :=
  match call_of e with
  | AddWaitForConfirmationTx ch id txid vout start window script =>
      ∃ policy msg inv height params,
        getOnChainServices (GetChain d) = Ok ch ∧ getTimelockPolicy d = Ok policy ∧
        AllowNewClaimPayment policy = true ∧
        OpeningTxBroadcasted d = Some msg ∧
        id = SwapId_String (GetId d) ∧ txid = OpeningTxBroadcastedMessage.TxId msg ∧
        vout = OpeningTxBroadcastedMessage.ScriptOut msg ∧
        start = StartingBlockHeight d ∧ window = PaymentWindow policy ∧
        entry (DecodePayreq (OpeningTxBroadcastedMessage.Payreq msg)) (Ok inv) ∈ pre ∧
        check_claim_invoice ch d policy inv (OpeningTxBroadcastedMessage.Payreq msg)
          = Some None ∧
        entry (GetBlockHeight ch) (Ok height) ∈ pre ∧
        check_await_height ch d policy height = None ∧
        entry (GetOutputScript ch params) (Ok script) ∈ pre ∧
        GetOpeningParams (d <| ClaimPaymentHash := dp_paymentHash inv |>) = Some params
  | _ => True
  end.
End watch.

(** Every watch of the await-confirmation action is in order. *)
Lemma watch_made {EV : Env} w d :
  made (watch_guard d) (hist w) (Execute AwaitTxConfirmationAction) w d.
Proof.
  unfold made. cbn [Execute]. unfold exec_AwaitTxConfirmation, with_chain.
  assert (made_when (watch_guard d) (hist w) (hist w)) as H0 by constructor.
  do 2 svc_step. destruct (getOnChainServices (GetChain d)) as [ch|e] eqn:Hch;
    [|by apply made_handle].
  unfold with_timelock. do 2 svc_step.
  destruct (getTimelockPolicy d) as [policy|e] eqn:Hpol; [|by apply made_handle].
  do 2 svc_step. destruct (AllowNewClaimPayment policy) eqn:Hallow; cbn [negb].
  2:{ case_bool_decide; [by apply made_handle|]. do 2 svc_step; [|done].
      do 2 svc_step. destruct (ask _ (RecoverClaimPayment _)).
      - by do 2 svc_step; repeat constructor.
      - by apply made_handle; repeat constructor. }
  do 2 svc_step; [|done]. rename a into msg.
  do 2 svc_step. destruct (ask _ (DecodePayreq _)) as [inv|e] eqn:Einv;
    [|by apply made_handle; repeat constructor].
  do 2 svc_step; [|by repeat constructor]. rename a into invErr.
  destruct invErr; [by apply made_handle; repeat constructor|].
  do 4 svc_step. destruct (ask _ (GetBlockHeight ch)) as [height|e] eqn:Eh;
    [|by apply made_handle; repeat constructor].
  do 2 svc_step. destruct (check_await_height _ _ _ _) eqn:Ecw;
    [by apply made_handle; repeat constructor|].
  do 2 svc_step; [|by repeat constructor]. rename a into params.
  do 2 svc_step. destruct (ask _ (GetOutputScript _ _)) as [script|e] eqn:Es;
    [|by apply made_handle; repeat constructor].
  do 2 svc_step. apply wp_ret. constructor; [|by repeat constructor].
  exists policy, msg, inv, height, params. split_and!; try done; eauto using
    recorded, still_recorded.
Qed.

(** ** The fee invoice *)

(** [uint64(float64(fee) * 3)] is exact for fees below 2^51 sat. *)
Lemma max_fee_exact fee :
  0 ≤ fee < 2 ^ 51 → float64.to_uint64 (float64.mul (float64.rnd53 fee) 3) = fee * 3.
Proof.
  intros Hf. rewrite (float64.rnd53_exact fee) by lia.
  unfold float64.mul, float64.to_uint64. rewrite float64.rnd53_exact by lia.
  destruct (Z.ltb_spec (fee * 3) (2 ^ 64)); lia.
Qed.

(** The fee invoice of [d] is paid after [pre] only when it was decoded, the
    channel can carry swap and fee, a probe of that amount succeeded, and the
    fee is at most three times the wallet's own estimate. *)
Definition fee_guard {EV : Env} (d : SwapData) (e : Entry) (pre : History) : Prop :=
  match call_of e with
  | PayInvoiceViaChannel payreq scid =>
      ∃ ch agreement request inv sp msg expected,
        getOnChainServices (GetChain d) = Ok ch ∧
        SwapOutAgreement d = Some agreement ∧ SwapOutRequest d = Some request ∧
        payreq = SwapOutAgreementMessage.Payreq agreement ∧ scid = GetScid d ∧
        entry (DecodePayreq payreq) (Ok inv) ∈ pre ∧
        entry (SpendableMsat (SwapOutRequestMessage.Scid request)) (Ok sp) ∈ pre ∧
        let required := u64 (u64 (SwapOutRequestMessage.Amount request * 1000) +
                             dp_amountMsat inv) in
        required ≤ sp ∧
        entry (ProbePayment (SwapOutRequestMessage.Scid request) required) (Ok (true, msg))
          ∈ pre ∧
        entry (GetFlatOpeningTXFee ch) (Ok expected) ∈ pre ∧
        (0 ≤ expected < 2 ^ 51 → dp_amountMsat inv / 1000 ≤ 3 * expected)
  | _ => True
  end.

(** Every payment of the pay-fee action is in order. *)
Lemma fee_made {EV : Env} w d :
  made (fee_guard d) (hist w) (Execute PayFeeInvoiceAction) w d.
Proof.
  unfold made. cbn [Execute]. unfold exec_PayFeeInvoice, with_chain.
  assert (made_when (fee_guard d) (hist w) (hist w)) as H0 by constructor.
  do 2 svc_step. destruct (getOnChainServices (GetChain d)) as [ch|e] eqn:Hch;
    [|by apply made_handle].
  do 4 svc_step; [|done]. rename a into agreement.
  do 2 svc_step. destruct (ask _ (DecodePayreq _)) as [inv|e] eqn:Einv;
    [|by apply made_handle; repeat constructor].
  do 2 svc_step; [|by repeat constructor]. rename a into request.
  do 2 svc_step. destruct (ask _ (SpendableMsat _)) as [sp|e] eqn:Esp;
    [|by apply made_handle; repeat constructor].
  destruct (Z.ltb_spec sp (u64 (u64 (SwapOutRequestMessage.Amount request * 1000) +
    dp_amountMsat inv))); [by apply made_handle; repeat constructor|].
  do 2 svc_step. destruct (ask _ (ProbePayment _ _)) as [[success msg]|e] eqn:Epr;
    [|by apply made_handle; repeat constructor].
  destruct success; cbn [negb fst snd]; [|by apply made_handle; repeat constructor].
  do 4 svc_step. destruct (ask _ (GetFlatOpeningTXFee ch)) as [expected|e] eqn:Ef;
    [|by apply made_handle; repeat constructor].
  destruct (Z.ltb_spec (float64.to_uint64 (float64.mul (float64.rnd53 expected) 3))
    (dp_amountMsat inv / 1000)) as [|Hfee]; [by apply made_handle; repeat constructor|].
  do 2 svc_step.
  match goal with |- context [ask ?h (PayInvoiceViaChannel ?p ?c)] =>
    assert (fee_guard d (entry (PayInvoiceViaChannel p c) (ask h (PayInvoiceViaChannel p c))) h)
      as Hguard end.
  { exists ch, agreement, request, inv, sp, msg, expected. cbv zeta.
    split_and!; try done; eauto 10 using recorded, still_recorded.
    intros Hr. rewrite max_fee_exact in Hfee by done. lia. }
  destruct (ask _ (PayInvoiceViaChannel _ _)) as [preimage|e].
  - do 2 svc_step. apply wp_ret. constructor; [exact Hguard|by repeat constructor].
  - apply made_handle. constructor; [exact Hguard|by repeat constructor].
Qed.

(** ** The opening transaction *)
Lemma GetInvoiceCltv_Ok d policy :
  getTimelockPolicy d = Ok policy → GetInvoiceCltv d = InvoiceFinalCLTV policy.
Proof. unfold GetInvoiceCltv. by intros ->. Qed.

Section opening.
Context {EV : Env}.

(** The opening transaction of [d] as it must be: it pays the agreed amount to
    the two keys of the swap, under the CSV of the policy, locked to the hash
    of a preimage that was drawn for this transaction and is the preimage of
    the claim invoice issued for the claim amount. *)
Definition opening_at (start : History) (d : SwapData) (e : Entry) (pre : History) : Prop :=
  match call_of e with
  | CreateOpeningTransaction ch p =>
      ∃ policy preimage payreq amount claim,
        OpeningTxBroadcasted d = None ∧
        getOnChainServices (GetChain d) = Ok ch ∧ getTimelockPolicy d = Ok policy ∧
        GetOpeningTXAmount d = Some amount ∧ GetClaimAmount d = Some claim ∧
        op_TakerPubkey p = GetTakerPubkey d ∧ op_MakerPubkey p = GetMakerPubkey d ∧
        op_Amount p = amount ∧ op_CSV p = CSV policy ∧
        op_ClaimPaymentHash p = HashString preimage ∧
        pre = entry (GetPayreq (u64 (claim * 1000)) (hex.EncodeToString preimage)
                (SwapId_String (GetId d)) (memo d INVOICE_CLAIM) INVOICE_CLAIM
                (GetInvoiceExpiry d) (InvoiceFinalCLTV policy)) (Ok payreq)
              :: entry RandPreimage (Ok preimage) :: start
  | _ => True
  end.
(** The same of an action that began some time after [h0]. *)
Definition opening_guard (h0 : History) (d : SwapData) (e : Entry) (pre : History) : Prop :=
  ∃ new, opening_at (new ++ h0) d e pre.

(** The transaction is the third call of the broadcast action. *)
Lemma opening_made w d :
  made (opening_at (hist w) d) (hist w) exec_CreateAndBroadcastOpeningTransaction w d.
Proof.
  assert (made_when (opening_at (hist w) d) (hist w) (hist w)) as H0 by constructor.
  unfold made, exec_CreateAndBroadcastOpeningTransaction, with_chain.
  do 2 svc_step. destruct (getOnChainServices (GetChain d)) as [ch|e] eqn:Hch;
    [|by apply made_handle].
  do 2 svc_step. destruct (OpeningTxBroadcasted d) eqn:Hopen; [by apply wp_ret|].
  do 2 svc_step. destruct (ask _ RandPreimage) as [preimage|e] eqn:Ep;
    [|by apply made_handle; constructor].
  do 2 svc_step. unfold with_timelock. do 2 svc_step.
  change (getTimelockPolicy (d <| ClaimPreimage := hex.EncodeToString preimage |>))
    with (getTimelockPolicy d).
  destruct (getTimelockPolicy d) as [policy|e] eqn:Hpol; [|by apply made_handle; constructor].
  do 4 svc_step; [|by constructor]. rename a into claim.
  do 2 svc_step. destruct (ask _ (GetPayreq _ _ _ _ _ _ _)) as [payreq|e] eqn:Einv;
    [|by apply made_handle; repeat constructor].
  apply wp_bind_pure.
  { case_bool_decide; [|done].
    do 2 svc_step; [|by repeat constructor]. by do 2 svc_step; [|repeat constructor]. }
  { intros bk. do 2 svc_step; [|by repeat constructor]. rename a into amount.
    do 2 svc_step.
    match goal with |- context [ask ?h (CreateOpeningTransaction ?c ?p)] =>
      assert (opening_at (hist w) d (entry (CreateOpeningTransaction c p)
                (ask h (CreateOpeningTransaction c p))) h) as Hguard end.
    { exists policy, preimage, payreq, amount, claim.
      split_and!; try done. rewrite <- (GetInvoiceCltv_Ok d policy Hpol), <- Einv, <- Ep.
      done. }
    destruct (ask _ (CreateOpeningTransaction _ _)) as [tx|e].
    2:{ apply made_handle. constructor; [exact Hguard|by repeat constructor]. }
    unfold set_label. do 5 svc_step; [|by repeat constructor]. do 5 svc_step.
    destruct (ask _ (GetBlockHeight ch)) as [height|e];
      [|by apply made_handle; repeat constructor].
    do 8 svc_step. unfold set_next_message.
    do 2 svc_step; by repeat constructor. }
Qed.

(** The bound a swap-in sender asked for. *)
Definition within_limit (d : SwapData) (req : SwapInRequestMessage.t) (e : Entry)
    (pre : History) : Prop :=
  match call_of e with
  | CreateOpeningTransaction _ p =>
      op_Amount p ≤ SwapInRequestMessage.Amount req + SwapInRequestMessage.PremiumLimit req
  | _ => True
  end.
End opening.

(** A swap-in sender never locks up more than it offered: the opening
    transaction of its broadcast action (the premium check and then the
    broadcast) is at most the amount plus the premium limit of its own request,
    whatever premium the peer answered, as long as the premium is not so
    negative that the sum leaves the range of its type. *)
Theorem premium_limit_enforced {EV : Env} w d req agreement :
  SwapInRequest d = Some req → SwapInAgreement d = Some agreement →
  is_i64 (SwapInRequestMessage.Amount req + SwapInRequestMessage.PremiumLimit req) →
  is_i64 (SwapInRequestMessage.Amount req) →
  0 ≤ SwapInRequestMessage.Amount req + SwapInAgreementMessage.Premium agreement →
  match Execute (CheckPremiumAmount CreateAndBroadcastOpeningTransaction) (w, d) with
  | Ret (w', _) _ | Panic (w', _) | NoFuel (w', _) =>
      made_when (within_limit d req) (hist w) (hist w')
  end.
Proof.
  intros Hreq Hagr Hlim Hamt Hneg.
  assert (made (within_limit d req) (hist w)
    (Execute (CheckPremiumAmount CreateAndBroadcastOpeningTransaction)) w d) as H.
  { unfold made. cbn [Execute]. unfold exec_CheckPremiumAmount. do 2 svc_step.
    rewrite Hagr, Hreq. do 2 svc_step; [|done].
    assert (a = req) as -> by congruence.
    destruct (Z.ltb_spec (SwapInRequestMessage.PremiumLimit req)
      (SwapInAgreementMessage.Premium agreement)); [apply made_handle; constructor|].
    pose proof (opening_made w d) as Ho. unfold made in Ho.
    assert (∀ e pre, opening_at (hist w) d e pre → within_limit d req e pre) as Himp.
    { intros e pre. unfold opening_at, within_limit. destruct (call_of e); try done.
      intros (policy & preimage & payreq & amount & claim & _ & _ & _ & Ha & _ & _ & _ &
        Hop & _). rewrite Hop. unfold GetOpeningTXAmount in Ha. rewrite Hreq, Hagr in Ha.
      injection Ha as <-. rewrite (i64_small (SwapInRequestMessage.Amount req)) by done.
      unfold is_i64 in *. rewrite i64_small by (unfold is_i64; lia).
      rewrite u64_small by (unfold is_u64; lia). lia. }
    eapply wp_mono; [exact Ho|..]; intros; by eapply made_when_mono. }
  unfold made, wp in H. by destruct (Execute _ (w, d)) as [[]|[]|[]].
Qed.
