(* ===== verification/Guards.v ===== *)
(** * The guards hold in every step of a machine

    Payments says when the actions may pay, publish or watch.  Here the guards
    are lifted through the wrappers of the actions and through the loop of
    [SendEvent] and [Recover]: whatever event, message or recovery a machine is
    given, every critical call it makes satisfies the guard for the data the
    machine had at that moment.  Where the data are those at the start of the
    step, because only the first action can make the call, they are named:
    [SendEvent_first] and [Recover_first]. *)

From S2P Require Import Prelude GoLib Messages Premium Policy SwapData Timelock Env Demo Store.
From S2P Require Import Actions ActionProofs Fsm FsmProofs Safety Payments.

Lemma made_when_trans P h0 h1 h2 :
  made_when P h0 h1 → made_when P h1 h2 → made_when P h0 h2.
Proof. intros H1. induction 1; auto with go. Qed.

(** ** Through the wrappers

    A property of the runs of an action that survives quiet steps before it holds
    of the action under any wrappers when it holds of the action itself. *)
Section wrappers.
Context {EV : Env} (Φ : option EventType → World * SwapData → World * SwapData → Prop).
Abbreviation quietly := (act_rel (may_call NoOpAction)).
Context (Hquiet : ∀ s s', quietly s s' → Φ (Some Event_ActionFailed) s s' ∧ Φ None s s').
Context (Hbefore : ∀ o s s1 s2, quietly s s1 → Φ o s1 s2 → Φ o s s2).

Abbreviation always m s := (wp m (λ ev, Φ (Some ev) s) (λ _, Φ None s)).

(** What only makes quiet calls and fails. *)
Lemma quiet_ok s (m : Svc SwapData EventType) w d :
  act_ok (may_call NoOpAction) s (λ ev, ev = Event_ActionFailed) m w d →
  quietly s (w, d) → always m s (w, d).
Proof. intros Hm H. eapply wp_mono; [by apply Hm|..]; intros ? ? [-> Hs]; by apply Hquiet. Qed.

Lemma quiet_handle s e w d : quietly s (w, d) → always (handle e) s (w, d).
Proof. apply quiet_ok. by apply act_handle. Qed.
Lemma quiet_reject s msg e w d : quietly s (w, d) → always (reject msg e) s (w, d).
Proof. apply quiet_ok. by apply act_reject; [apply may_call_permits|]. Qed.
Lemma quiet_reject_unsupported s msg w d :
  quietly s (w, d) → always (reject_unsupported msg) s (w, d).
Proof. apply quiet_ok. by apply act_reject_unsupported; [apply may_call_permits|]. Qed.

Lemma quiet_check_request s next w d :
  quietly s (w, d) → (∀ w1, quietly s (w1, d) → always next s (w1, d)) →
  always (check_request next) s (w, d).
Proof.
  intros H0 Hnext. unfold check_request. do 2 svc_step.
  destruct (negb _); [by apply quiet_reject_unsupported|]. do 2 svc_step.
  destruct (_ && _); [by apply quiet_reject_unsupported|].
  destruct (_ && _); [by apply quiet_reject_unsupported|].
  destruct (negb _); [by apply quiet_reject|]. destruct (_ <? _); [by apply quiet_reject|].
  unfold with_chain. do 2 svc_step.
  destruct (getOnChainServices _) as [ch|e]; [|by apply quiet_handle].
  case_bool_decide; do 2 svc_step.
  all: repeat first
    [ case_bool_decide
    | by apply quiet_reject; repeat apply act_rel_call
    | by apply Hnext; repeat apply act_rel_call
    | destruct (negb _)
    | destruct (IsPeerSuspicious _ _)
    | svc_step ].
Qed.

Lemma Execute_wrapped a :
  (∀ s, always (Execute (base a)) s s) → ∀ s, always (Execute a) s s.
Proof.
  intros Hbase. induction a; try exact Hbase.
  all: specialize (IHa Hbase); intros [w d]; cbn [Execute].
  all: assert (∀ w1 d1, quietly (w, d) (w1, d1) → always (Execute a) (w, d) (w1, d1)) as Hnext
    by (intros w1 d1 H1; eapply wp_mono; [apply IHa|..]; intros ? ?; by apply Hbefore).
  - apply quiet_check_request; [apply act_rel_refl|]. intros. by apply Hnext.
  - unfold exec_CheckPremiumAmount. do 2 svc_step.
    destruct (SwapInAgreement d), (SwapOutAgreement d);
      try (do 2 svc_step; [|apply Hquiet, act_rel_refl]; destruct (_ <? _));
      first [apply quiet_handle, act_rel_refl | apply Hnext, act_rel_refl].
  - unfold exec_StopSendMessageWithRetry, remove_sender. do 4 svc_step.
    apply Hnext. by apply (act_rel_world _ _ w); [..|apply act_rel_refl].
  - unfold exec_SetBlindingKey. do 2 svc_step. case_bool_decide; [|apply Hnext, act_rel_refl].
    do 2 svc_step. destruct (ask _ RandPrivateKey).
    + do 2 svc_step. apply Hnext. apply (act_rel_data _ _ _ d); [by split|].
      by apply act_rel_call, act_rel_refl.
    + by apply quiet_handle, act_rel_call, act_rel_refl.
  - unfold exec_AddSuspiciousPeer. do 6 svc_step. apply Hnext.
    by apply (act_rel_world _ _ (record PolicyFile w)); [..|apply act_rel_call, act_rel_refl].
Qed.
End wrappers.

Lemma base_base a : base (base a) = base a.
Proof. by induction a. Qed.

Section lift.
Context {EV : Env} (G : SwapData → Entry → History → Prop) (kind : Call → bool).
(** The guard is about the calls of the kind only, none of which is a query or
    bookkeeping, and it holds for the actions without wrappers. *)
Context (Hother : ∀ d e pre, kind (call_of e) = false → G d e pre).
Context (Hquiet : ∀ c, kind c = true → may_call NoOpAction c = false).
Context (Hbase : ∀ a w d, base a = a → made (G d) (hist w) (Execute a) w d).

(** The guard for the data of the swap at the moment of the call. *)
Definition kept_guard (d : SwapData) (e : Entry) (pre : History) : Prop :=
  ∃ d1, data_kept d d1 ∧ G d1 e pre.
Definition action_guarded (a : Action) (o : option EventType) (s s' : World * SwapData)
    : Prop :=
  made_when (kept_guard (snd s)) (hist (fst s)) (hist (fst s')).

Lemma other_call d e pre : may_call NoOpAction (call_of e) = true → G d e pre.
Proof.
  intros He. apply Hother.
  destruct (kind (call_of e)) eqn:E; [|done]. apply Hquiet in E. congruence.
Qed.

Lemma quiet_made (P : Entry → History → Prop) h h' :
  (∀ e pre, may_call NoOpAction (call_of e) = true → P e pre) →
  hist_ext (λ e, may_call NoOpAction (call_of e) = true) h h' → made_when P h h'.
Proof. intros HP. induction 1; constructor; auto. Qed.

Lemma Execute_guarded a s :
  wp (Execute a) (λ ev, action_guarded a (Some ev) s) (λ _, action_guarded a None s) s.
Proof.
  assert (∀ d e pre, may_call NoOpAction (call_of e) = true → kept_guard d e pre) as Hk.
  { intros d e pre He. exists d. split; [apply data_kept_refl|by apply other_call]. }
  revert s. apply (Execute_wrapped (action_guarded a)).
  - intros s s' (_ & _ & _ & Hh). split; by apply quiet_made; [apply Hk|].
  - intros o [w d] [w1 d1] s2 (Hd & _ & _ & Hh) H. cbn in Hd, Hh.
    eapply made_when_trans; [by apply quiet_made; [apply Hk|exact Hh]|].
    eapply made_when_mono; [|exact H]. intros e pre (d2 & Hd2 & HG).
    exists d2. split; [by eapply data_kept_trans|done].
  - intros [w d].
    eapply wp_mono; [apply (Hbase (base a)), base_base|..];
      (intros ? s' Hs; eapply made_when_mono; [|exact Hs]; intros e pre HG;
       exists d; split; [apply data_kept_refl|done]).
Qed.

(** ** Through the machine *)
Definition step_guard (sm : SwapStateMachine) (e : Entry) (pre : History) : Prop :=
  ∃ sm1, facts_kept sm sm1 ∧ G (sm_Data sm1) e pre.

Context (sm0 : SwapStateMachine) (h0 : History).
Abbreviation guarded w := (made_when (step_guard sm0) h0 (hist w)).
Definition all_guarded {A} (_ : A) (s : World * SwapStateMachine) : Prop := guarded (fst s).

Lemma guarded_ext w w' :
  hist_ext (λ e, may_call NoOpAction (call_of e) = true) (hist w) (hist w') →
  guarded w → guarded w'.
Proof.
  intros Hh H. eapply made_when_trans; [exact H|]. apply quiet_made; [|exact Hh].
  intros e pre He. exists sm0. split; [apply facts_refl|by apply other_call].
Qed.

Lemma guarded_same w w' : same_state w w' → guarded w → guarded w'.
Proof.
  intros [_ Hh]. apply guarded_ext. eapply hist_ext_mono; [|exact Hh].
  intros e. cbn beta. by destruct (call_of e).
Qed.
Lemma guarded_stored sm w w' : stored sm w w' → guarded w → guarded w'.
Proof. intros [_ Hs]. exact (guarded_same w (w' <| swaps := swaps w |>) Hs). Qed.

(** The action of a state the machine enters or recovers. *)
Lemma guarded_action sm w d w' :
  (∀ d1, data_kept d d1 → ∃ sm1, facts_kept sm sm1 ∧ sm_Data sm1 = d1) →
  facts_kept sm0 sm → guarded w →
  made_when (kept_guard d) (hist w) (hist w') → guarded w'.
Proof.
  intros Hd Hsm H Hm. eapply made_when_trans; [exact H|].
  eapply made_when_mono; [|exact Hm]. intros e pre (d1 & Hd1 & HG).
  destruct (Hd d1 Hd1) as (sm1 & Hk & <-). exists sm1. split; [by eapply facts_trans|done].
Qed.

Lemma entered_guarded n sm w w1 w' :
  facts_kept sm0 sm → guarded w → logged w w1 →
  made_when (kept_guard (SetState n (sm_Data sm))) (hist w1) (hist w') → guarded w'.
Proof.
  intros Hsm H [Hl _] Hx. eapply (guarded_action sm w1); [|done| |exact Hx].
  - intros d1 Hd1. exists (after n sm d1). split; [by apply facts_entered|done].
  - eapply guarded_ext; [|exact H]. eapply hist_ext_mono; [|exact Hl].
    intros e. cbn beta. by destruct (call_of e).
Qed.

Lemma run_events_guarded fuel ev w sm :
  facts_kept sm0 sm → guarded w →
  wp (run_events fuel ev) all_guarded (λ _, all_guarded ()) (w, sm).
Proof.
  intros H1 H2.
  apply (run_events_rule_x action_guarded Execute_guarded
    (λ _ _ w sm, facts_kept sm0 sm ∧ guarded w));
    [by intros ? ? ? []|by intros ? ? ? ? []|by intros ? ? ? ? ? []| | |done].
  - intros f ev0 w0 sm1 n a w1 d [HI HG] _ _ [_ (w0' & Hl & Hx)]. by eapply entered_guarded.
  - intros f ev0 w0 sm1 n a w1 d ev' [HI HG] _ _ [Hm (w0' & Hl & Hx)] _.
    assert (guarded w1) as HG1 by (by eapply entered_guarded).
    assert (facts_kept sm0 (after n sm1 d)) as Hf by (by eapply facts_trans, facts_after).
    split; [intros e w2 Hs; by eapply guarded_same|].
    intros w2 Hs. pose proof (guarded_stored _ _ _ Hs HG1) as HG2. unfold continues.
    destruct ev'; try (by split); try exact HG2.
    repeat case_match; try exact HG2.
    split; [by eapply facts_trans, facts_retries|exact HG2].
Qed.

Lemma SendEvent_nil_guarded ev w sm :
  facts_kept sm0 sm → guarded w →
  wp (SendEvent_nil ev) all_guarded (λ _, all_guarded ()) (w, sm).
Proof.
  intros H1 H2. apply wp_SendEvent_nil.
  - by intros _.
  - intros _ e w' Hs. by eapply guarded_same.
  - intros _ w' Hs. apply run_events_guarded; [done|by eapply guarded_stored].
Qed.

Lemma SendEvent_guarded ev ctx w :
  guarded w → wp (SendEvent ev ctx) all_guarded (λ _, all_guarded ()) (w, sm0).
Proof.
  intros H. apply wp_SendEvent; intros; try done;
    apply SendEvent_nil_guarded; eauto using facts_refl, facts_apply.
Qed.

Lemma Recover_guarded w :
  guarded w → wp Recover all_guarded (λ _, all_guarded ()) (w, sm0).
Proof.
  intros H.
  assert (∀ a o w1 d, action_guarded a o (w, sm_Data sm0) (w1, d) → guarded w1) as Hact.
  { intros a o w1 d Hx. eapply (guarded_action sm0 w); [|apply facts_refl|done|exact Hx].
    intros d1 Hd1. exists (sm0 <| sm_Data := d1 |>). split; [by apply facts_data|done]. }
  apply (wp_Recover_x action_guarded Execute_guarded).
  - done.
  - by apply SendEvent_nil_guarded; [apply facts_refl|].
  - intros a w1 d _ _ Hx. by eapply Hact.
  - intros a ev w1 d _ _ [Hd _] Hx. specialize (Hact _ _ _ _ Hx). split.
    + intros e w2 Hs. by eapply guarded_same.
    + intros w2 Hs. pose proof (guarded_stored _ _ _ Hs Hact).
      case_bool_decide; [done|]. apply SendEvent_nil_guarded; [by apply facts_data|done].
Qed.
End lift.

(** A guard over everything a machine does: the form of the theorems. *)
Definition always_guarded {EV : Env} (G : SwapData → Entry → History → Prop) : Prop :=
  ∀ w sm event ctx,
    (match SendEvent event ctx (w, sm) with
     | Ret (w', _) _ | Panic (w', _) | NoFuel (w', _) =>
         made_when (step_guard G sm) (hist w) (hist w')
     end) ∧
    (match Recover (w, sm) with
     | Ret (w', _) _ | Panic (w', _) | NoFuel (w', _) =>
         made_when (step_guard G sm) (hist w) (hist w')
     end).

(** It is enough to check the one action that makes the calls. *)
Lemma guard_lift {EV : Env} G kind act :
  (∀ d e pre, kind (call_of e) = false → G d e pre) →
  (∀ c, kind c = true → may_call NoOpAction c = false) →
  (∀ a c, base a = a → kind c = true → may_call a c = true → a = act) →
  (∀ w d, made (G d) (hist w) (Execute act) w d) →
  always_guarded G.
Proof.
  intros Hother Hquiet Hact Hmade w sm event ctx.
  assert (∀ a w d, base a = a → made (G d) (hist w) (Execute a) w d) as Hbase.
  { intros a w0 d Ha. destruct (decide (a = act)) as [->|Hne]; [done|].
    assert (∀ s', act_rel (may_call a) (w0, d) s' → since (G d) (hist w0) s') as Hq.
    { intros s' (_ & _ & _ & Hh). unfold since. induction Hh as [|e h He _ IH]; constructor; [|done].
      apply Hother. destruct (kind (call_of e)) eqn:E; [|done].
      by destruct Hne; eapply Hact. }
    eapply wp_mono; [apply Execute_spec|..]; rewrite Ha; intros ? s' [_ Hs]; by apply Hq. }
  split.
  - pose proof (SendEvent_guarded G kind Hother Hquiet Hbase sm (hist w) event ctx w
      (made_none _ _)) as H.
    unfold wp, all_guarded in H. by destruct (SendEvent event ctx (w, sm)) as [[]|[]|[]].
  - pose proof (Recover_guarded G kind Hother Hquiet Hbase sm (hist w) w (made_none _ _)) as H.
    unfold wp, all_guarded in H. by destruct (Recover (w, sm)) as [[]|[]|[]].
Qed.

Ltac lift_guard := intros a c _ Hk Hc; destruct c; try discriminate Hk;
  by apply bool_decide_eq_true in Hc.

(** The opening transaction is watched only for a swap worth paying: a machine
    registers the confirmation watch (after which a confirmation leads to the
    payment) only when the invoice it will pay was decoded, its amount and final
    CLTV were accepted, and the current height is inside the window; the watch is
    for the announced output and the script of the swap's own parameters, bound
    to the invoice's payment hash. *)
Theorem confirmation_watch_guarded {EV : Env} : always_guarded watch_guard.
Proof.
  apply (guard_lift watch_guard
    (λ c, match c with AddWaitForConfirmationTx _ _ _ _ _ _ _ => true | _ => false end)
    AwaitTxConfirmationAction).
  - intros d e pre. unfold watch_guard. by destruct (call_of e).
  - by intros [].
  - lift_guard.
  - apply watch_made.
Qed.

(** The fee of a swap-out is paid only when it is reasonable and the swap can
    go through: every fee payment of a machine is for the invoice of the
    agreement over the swap's channel, after the channel was found to have room
    for swap and fee and was probed for that sum, and the fee is at most three
    times what our own wallet estimates. *)
Theorem fee_payment_guarded {EV : Env} : always_guarded fee_guard.
Proof.
  apply (guard_lift fee_guard
    (λ c, match c with PayInvoiceViaChannel _ _ => true | _ => false end)
    PayFeeInvoiceAction).
  - intros d e pre. unfold fee_guard. by destruct (call_of e).
  - by intros [].
  - lift_guard.
  - apply fee_made.
Qed.

(** ** The first action of a step

    Some calls are made by one action only, and the states of that action are
    entered only from outside: by the event a step begins with.  Such a call is
    therefore made by the first action of the step, whose data is the one the
    machine had when the step began, with the message of the event in it. *)

(** The data the event of a step is processed with. *)
Definition received (ctx : option PeerMessage) (d : SwapData) : SwapData :=
  match ctx with
  | Some m =>
      match Validate m d, ApplyToSwapData m d with
      | None, Ok d' => d'
      | _, _ => d
      end
  | None => d
  end.

Section first.
Context {EV : Env} (kind : Call → bool) (crit src : list StateType) (evs : list EventType).
(** What the calls of an action that begins with the calls [h] on the data [d] satisfy. *)
Context (G : History → SwapData → Entry → History → Prop) (inert : SwapData → Prop).
Context (X : Action → option EventType → World * SwapData → World * SwapData → Prop)
        (HX : ∀ a s, wp (Execute a) (λ ev, X a (Some ev) s) (λ _, X a None s) s).
Context (Hquiet : ∀ c, kind c = true → may_call NoOpAction c = false).
(** Other states make no such call, and these ones make them under the guard. *)
Context (Hother : ∀ ty role st a c, action_of (states_for ty role) st = Some a → st ∉ crit →
  may_call (base a) c = true → kind c = false).
Context (Hcrit : ∀ ty role st a o s s', action_of (states_for ty role) st = Some a → st ∈ crit →
  X a o s s' → made_when (G (hist (fst s)) (snd s)) (hist (fst s)) (hist (fst s'))).
(** How they are entered; an action that enters them leaves data that allows no such call. *)
Context (Henter : ∀ ty role st ev n, next_state (states_for ty role) st ev = Some n → n ∈ crit →
  st ∈ src ∧ ev ∈ evs).
Context (Hfail : Forall (λ ev, ev ∉ evs) [Event_OnInvalid_Message; Event_ActionFailed]).
Context (Hinert : ∀ ty role st a ev s s', action_of (states_for ty role) st = Some a →
  ev ∈ events_of a → st ∈ src → ev ∈ evs → X a (Some ev) s s' → inert (snd s')).
Context (Hnone : ∀ n d h e pre, inert d → G h (SetState n d) e pre → kind (call_of e) = false).

Section step.
Context (P : Entry → History → Prop) (h0 : History).
Context (HP : ∀ e pre, kind (call_of e) = false → P e pre).
Abbreviation since_start w := (made_when P h0 (hist w) ∧ suffix h0 (hist w)).
Definition first_made {A} (_ : A) (s : World * SwapStateMachine) : Prop := since_start (fst s).

(** The event may enter a critical state only on data for which the guard gives [P]. *)
Definition allowed (d : SwapData) : Prop :=
  inert d ∨ ∀ h n e pre, suffix h0 h → G h (SetState n d) e pre → P e pre.
Definition may_enter (sm : SwapStateMachine) (ev : EventType) : Prop :=
  ∀ n, next_state (sm_States sm) (sm_Current sm) ev = Some n → n ∈ crit → allowed (sm_Data sm).

Lemma since_quiet w w' :
  hist_ext (λ e, kind (call_of e) = false) (hist w) (hist w') → since_start w → since_start w'.
Proof.
  intros Hh [H1 H2]. split.
  - eapply made_when_trans; [exact H1|]. induction Hh as [|e h He _ IH]; constructor; auto.
  - apply hist_ext_iff in Hh as (new & -> & _). by apply suffix_app_r.
Qed.
Lemma not_kind c : may_call NoOpAction c = true → kind c = false.
Proof. intros H. destruct (kind c) eqn:E; [|done]. apply Hquiet in E. congruence. Qed.
Lemma since_same w w' : same_state w w' → since_start w → since_start w'.
Proof.
  intros [_ Hh]. apply since_quiet. eapply hist_ext_mono; [|exact Hh].
  intros e. cbn beta. intros He. apply not_kind. by destruct (call_of e).
Qed.
Lemma since_stored sm w w' : stored sm w w' → since_start w → since_start w'.
Proof. intros [_ Hs]. exact (since_same w (w' <| swaps := swaps w |>) Hs). Qed.
Lemma since_logged w w' : logged w w' → since_start w → since_start w'.
Proof.
  intros [Hl _]. apply since_quiet. eapply hist_ext_mono; [|exact Hl].
  intros e. cbn beta. intros He. apply not_kind. by destruct (call_of e).
Qed.

(** The run of the action of a state. *)
Lemma since_action ty role st a o w d w' d' :
  action_of (states_for ty role) st = Some a →
  act_rel (may_call (base a)) (w, d) (w', d') → X a o (w, d) (w', d') →
  (st ∈ crit → ∀ e pre, G (hist w) d e pre → P e pre) →
  since_start w → since_start w'.
Proof.
  intros Ha (_ & _ & _ & Hh) Hx HG Hw. cbn [fst snd] in *. destruct (decide (st ∈ crit)) as [Hst|Hst].
  - split.
    + eapply made_when_trans; [apply Hw|]. eapply made_when_mono; [by apply HG|].
      exact (Hcrit ty role st a o _ _ Ha Hst Hx).
    + apply hist_ext_iff in Hh as (new & -> & _). by apply suffix_app_r, Hw.
  - eapply since_quiet; [|exact Hw]. eapply hist_ext_mono; [|exact Hh].
    intros e He. by eapply Hother.
Qed.

(** After an action no critical state is entered, or the data is inert. *)
Lemma may_enter_after ty role st a ev s w' sm' :
  action_of (states_for ty role) st = Some a → ev ∈ events_of a →
  X a (Some ev) s (w', sm_Data sm') → sm_States sm' = states_for ty role → sm_Current sm' = st → may_enter sm' ev.
Proof.
  intros Ha Hin Hx Es Ec n Hn Hc. rewrite Es, Ec in Hn.
  destruct (Henter _ _ _ _ _ Hn Hc) as [Hst Hev]. left.
  exact (Hinert _ _ _ _ _ _ _ Ha Hin Hst Hev Hx).
Qed.

Definition ran (a : Action) (o : option EventType) (s s' : World * SwapData) : Prop :=
  act_rel (may_call (base a)) s s' ∧ X a o s s'.
Lemma Execute_ran a s : wp (Execute a) (λ ev, ran a (Some ev) s) (λ _, ran a None s) s.
Proof.
  eapply wp_mono; [apply (Execute_spec_x X HX)|..]; intros ? ? (_ & ? & ?); by split.
Qed.

Lemma since_moved n a o ev w sm w1 d :
  may_enter sm ev → next_state (sm_States sm) (sm_Current sm) ev = Some n →
  action_of (sm_States sm) n = Some a → moved_x ran n a o w sm w1 d →
  since_start w → since_start w1.
Proof.
  intros He Hn Ha [_ (w0 & Hl & Hrel & Hx)] Hw.
  pose proof (since_logged _ _ Hl Hw) as Hw0.
  eapply since_action; [exact Ha|exact Hrel|exact Hx| |exact Hw0].
  intros Hc e pre HG. destruct (He n Hn Hc) as [Hi|Hi].
  - by eapply HP, Hnone.
  - eapply Hi; [|exact HG]. apply Hw0.
Qed.

Lemma run_events_first fuel ev w sm :
  may_enter sm ev → since_start w → wp (run_events fuel ev) first_made (λ _, first_made ()) (w, sm).
Proof.
  intros H1 H2.
  apply (run_events_rule_x ran Execute_ran (λ _ ev w sm, may_enter sm ev ∧ since_start w));
    [by intros ? ? ? []|by intros ? ? ? ? []|by intros ? ? ? ? ? []| | |done].
  - intros f ev0 w0 sm0 n a w1 d [He Hw] Hn Ha Hm. by eapply since_moved.
  - intros f ev0 w0 sm0 n a w1 d ev' [He Hw] Hn Ha Hm Hin.
    pose proof (since_moved _ _ _ _ _ _ _ _ He Hn Ha Hm Hw) as H.
    assert (∀ r, may_enter (after n sm0 d <| sm_retries := r |>) ev') as Hnext.
    { destruct Hm as [_ (w2 & _ & _ & Hx)]. intros r.
      exact (may_enter_after _ _ _ _ _ _ _ (after n sm0 d <| sm_retries := r |>) Ha Hin Hx eq_refl eq_refl). }
    split; [intros e w2 Hs; by eapply since_same|].
    intros w2 Hs. pose proof (since_stored _ _ _ Hs H). unfold continues.
    destruct ev'; try done; try (by split; [apply (Hnext (sm_retries sm0))|]).
    repeat case_match; try done.
Qed.

Lemma SendEvent_nil_first ev w sm :
  may_enter sm ev → since_start w → wp (SendEvent_nil ev) first_made (λ _, first_made ()) (w, sm).
Proof.
  intros H1 H2. apply wp_SendEvent_nil.
  - by intros _.
  - intros _ e w' Hs. by eapply since_same.
  - intros _ w' Hs. by eapply run_events_first, since_stored.
Qed.

Lemma may_enter_fail sm ev : ev ∉ evs → may_enter sm ev.
Proof. intros He n Hn Hc. by destruct (Henter _ _ _ _ _ Hn Hc). Qed.
End step.

(** The calls of a step that begins with an event, or with a recovery. *)
Definition event_guard (sm : SwapStateMachine) (event : EventType) (ctx : option PeerMessage)
    (h0 : History) (e : Entry) (pre : History) : Prop :=
  kind (call_of e) = true →
  sm_Current sm ∈ src ∧ event ∈ evs ∧
  ∃ h n, suffix h0 h ∧ G h (SetState n (received ctx (sm_Data sm))) e pre.
Definition recover_guard (sm : SwapStateMachine) (h0 : History) (e : Entry) (pre : History) : Prop :=
  kind (call_of e) = true → sm_Current sm ∈ crit ∧ G h0 (sm_Data sm) e pre.

Lemma SendEvent_first event ctx w sm :
  match SendEvent event ctx (w, sm) with
  | Ret (w', _) _ | Panic (w', _) | NoFuel (w', _) =>
      made_when (event_guard sm event ctx (hist w)) (hist w) (hist w')
  end.
Proof.
  set (P := event_guard sm event ctx (hist w)).
  assert (∀ e pre, kind (call_of e) = false → P e pre) as HP.
  { intros e pre E E'. congruence. }
  assert (made_when P (hist w) (hist w) ∧ suffix (hist w) (hist w)) as H0 by (split; [constructor|done]).
  assert (∀ d, d = received ctx (sm_Data sm) → may_enter P (hist w) (sm <| sm_Data := d |>) event)
    as Henter'.
  { intros d -> n Hn Hc. destruct (Henter _ _ _ _ _ Hn Hc) as [Hs He]. right.
    intros h n' e pre Hh HG _. split; [done|]. split; [done|]. by exists h, n'. }
  assert (wp (SendEvent event ctx) (first_made P (hist w)) (λ _, first_made P (hist w) ())
    (w, sm)) as H.
  { apply wp_SendEvent; try done.
    - intros ->. apply SendEvent_nil_first; [done| |done]. destruct sm. by apply Henter'.
    - intros. apply SendEvent_nil_first; [done| |done]. apply may_enter_fail.
      by inversion Hfail.
    - intros m d -> Hev Hv Ha. apply SendEvent_nil_first; [done| |done]. apply Henter'.
      unfold received. by rewrite Hv, Ha. }
  unfold wp, first_made in H. by destruct (SendEvent event ctx (w, sm)) as [[] ?|[]|[]]; destruct H.
Qed.

Lemma Recover_first w sm :
  match Recover (w, sm) with
  | Ret (w', _) _ | Panic (w', _) | NoFuel (w', _) =>
      made_when (recover_guard sm (hist w)) (hist w) (hist w')
  end.
Proof.
  set (P := recover_guard sm (hist w)).
  assert (∀ e pre, kind (call_of e) = false → P e pre) as HP.
  { intros e pre E E'. congruence. }
  assert (made_when P (hist w) (hist w) ∧ suffix (hist w) (hist w)) as H0 by (split; [constructor|done]).
  assert (∀ a o w1 d, action_of (sm_States sm) (sm_Current sm) = Some a →
    ran a o (w, sm_Data sm) (w1, d) → first_made P (hist w) () (w1, sm <| sm_Data := d |>)) as Hact.
  { intros a o w1 d Ha [Hrel Hx]. eapply since_action; [done|exact Ha|exact Hrel|exact Hx| |exact H0].
    intros Hc e pre HG _. by split. }
  assert (wp Recover (first_made P (hist w)) (λ _, first_made P (hist w) ()) (w, sm)) as H.
  { apply (wp_Recover_x ran Execute_ran).
    - done.
    - apply SendEvent_nil_first; [done| |done]. apply may_enter_fail.
      inversion Hfail as [|? ? _ Hf]. by inversion Hf.
    - intros a w1 d Ha _ Hx. by eapply Hact.
    - intros a ev w1 d Ha Hin _ Hx. pose proof (Hact _ _ _ _ Ha Hx) as H1. split.
      + intros e w2 Hs. by eapply since_same.
      + intros w2 Hs. pose proof (since_stored P (hist w) HP _ _ _ Hs H1).
        case_bool_decide; [done|]. apply SendEvent_nil_first; [done| |done].
        destruct Hx as [_ Hx].
        exact (may_enter_after _ _ _ _ _ _ _ _ _ (sm <| sm_Data := d |>) Ha Hin Hx eq_refl eq_refl). }
  unfold wp, first_made in H. by destruct (Recover (w, sm)) as [[] ?|[]|[]]; destruct H.
Qed.
End first.

(** ** The opening transaction *)
Definition broadcasting : list StateType :=
  [State_SwapOutReceiver_BroadcastOpeningTx; State_SwapInSender_BroadcastOpeningTx].
Definition before_opening : list StateType :=
  [State_SwapOutReceiver_AwaitFeeInvoicePayment; State_SwapInSender_AwaitAgreement].
Definition opening_events : list EventType :=
  [Event_OnFeeInvoicePaid; Event_SwapInSender_OnAgreementReceived].

(** The states that broadcast, how they are entered, and that no action enters them. *)
Definition opening_tables (states : States) : bool :=
  forallb (λ '(st, s),
    match state_Action s with
    | Some a =>
        bool_decide (base a = CreateAndBroadcastOpeningTransaction ↔ st ∈ broadcasting) &&
        implb (bool_decide (st ∈ broadcasting))
          (bool_decide (a ∈ [CreateAndBroadcastOpeningTransaction;
                             CheckPremiumAmount CreateAndBroadcastOpeningTransaction])) &&
        forallb (λ ev, bool_decide (ev ∉ opening_events)) (events_of a)
    | None => true
    end &&
    forallb (λ '(ev, n), implb (bool_decide (n ∈ broadcasting))
      (bool_decide (st ∈ before_opening ∧ ev ∈ opening_events))) (state_Events s)) states.
Lemma tables_opening ty role : opening_tables (states_for ty role) = true.
Proof. apply for_all_tables. by vm_compute. Qed.

Lemma opening_action ty role st a :
  action_of (states_for ty role) st = Some a →
  (base a = CreateAndBroadcastOpeningTransaction ↔ st ∈ broadcasting) ∧
  (st ∈ broadcasting → a ∈ [CreateAndBroadcastOpeningTransaction;
     CheckPremiumAmount CreateAndBroadcastOpeningTransaction]) ∧
  ∀ ev, ev ∈ events_of a → ev ∉ opening_events.
Proof.
  intros (s & Hs%assoc_elem & Ha)%bind_Some.
  pose proof (forallb_elem _ _ _ (tables_opening ty role) Hs) as H. cbn beta iota in H.
  rewrite Ha in H. apply andb_true_iff in H as [[[H1 H2]%andb_true_iff H3]%andb_true_iff _].
  apply bool_decide_eq_true in H1. split; [done|]. split.
  - intros Hst. rewrite bool_decide_true in H2 by done. by apply bool_decide_eq_true in H2.
  - intros ev Hev. pose proof (forallb_elem _ _ _ H3 Hev) as H. by apply bool_decide_eq_true in H.
Qed.
Lemma opening_entry ty role st ev n :
  next_state (states_for ty role) st ev = Some n → n ∈ broadcasting →
  st ∈ before_opening ∧ ev ∈ opening_events.
Proof.
  unfold next_state. intros (s & Hs%assoc_elem & Hn%assoc_elem)%bind_Some Hb.
  pose proof (forallb_elem _ _ _ (tables_opening ty role) Hs) as H. cbn beta iota in H.
  apply andb_true_iff in H as [_ H]. pose proof (forallb_elem _ _ _ H Hn) as H'.
  cbn beta iota in H'. rewrite bool_decide_true in H' by done. by apply bool_decide_eq_true in H'.
Qed.

Section opening_guarded.
Context {EV : Env}.

Definition opens (a : Action) (_ : option EventType) (s s' : World * SwapData) : Prop :=
  a ∈ [CreateAndBroadcastOpeningTransaction; CheckPremiumAmount CreateAndBroadcastOpeningTransaction] →
  made_when (opening_at (hist (fst s)) (snd s)) (hist (fst s)) (hist (fst s')).

Lemma Execute_opens a s :
  wp (Execute a) (λ ev, opens a (Some ev) s) (λ _, opens a None s) s.
Proof.
  destruct (decide (a ∈ [CreateAndBroadcastOpeningTransaction;
    CheckPremiumAmount CreateAndBroadcastOpeningTransaction])) as [Ha|Ha].
  2:{ unfold wp. destruct (Execute a s); by intros ?. }
  destruct s as [w d]. cut (made (opening_at (hist w) d) (hist w) (Execute a) w d).
  { intros H. eapply wp_mono; [exact H|..]; by intros ? ? ? ?. }
  set_unfold in Ha. destruct Ha as [->|[->|[]]]; cbn [Execute]; [apply opening_made|].
  unfold made, exec_CheckPremiumAmount. do 2 svc_step.
  destruct (SwapInAgreement d), (SwapOutAgreement d);
    try (do 2 svc_step; [|constructor]; destruct (_ <? _));
    first [apply made_handle; constructor | apply opening_made].
Qed.
End opening_guarded.

(** An opening transaction of a step that begins with an event. *)
Definition event_opening {EV : Env} (sm : SwapStateMachine) (event : EventType)
    (ctx : option PeerMessage) (h0 : History) (e : Entry) (pre : History) : Prop :=
  is_opening (call_of e) = true →
  sm_Current sm ∈ before_opening ∧ event ∈ opening_events ∧
  opening_guard h0 (received ctx (sm_Data sm)) e pre.
(** One of a recovery. *)
Definition recover_opening {EV : Env} (sm : SwapStateMachine) (h0 : History) (e : Entry)
    (pre : History) : Prop :=
  is_opening (call_of e) = true →
  sm_Current sm ∈ broadcasting ∧ opening_guard h0 (sm_Data sm) e pre.

Lemma opening_calls {EV : Env} w sm event ctx :
  (match SendEvent event ctx (w, sm) with
   | Ret (w', _) _ | Panic (w', _) | NoFuel (w', _) =>
       made_when (event_guard is_opening before_opening opening_events opening_at sm event ctx (hist w))
         (hist w) (hist w')
   end) ∧
  (match Recover (w, sm) with
   | Ret (w', _) _ | Panic (w', _) | NoFuel (w', _) =>
       made_when (recover_guard is_opening broadcasting opening_at sm (hist w)) (hist w) (hist w')
   end).
Proof.
  assert (∀ ty role st a c, action_of (states_for ty role) st = Some a → st ∉ broadcasting →
    may_call (base a) c = true → is_opening c = false) as H1.
  { intros ty role st a c [Ha _]%opening_action Hst Hc. destruct c; try done.
    apply bool_decide_eq_true in Hc. by apply Ha in Hc. }
  assert (∀ ty role st a o s s', action_of (states_for ty role) st = Some a → st ∈ broadcasting →
    opens a o s s' → made_when (opening_at (hist s.1) s.2) (hist s.1) (hist s'.1)) as H2.
  { intros ty role st a o s s' (_ & Ha & _)%opening_action Hst Hx. by apply Hx, Ha. }
  assert (∀ ty role st a ev (s s' : World * SwapData), action_of (states_for ty role) st = Some a →
    ev ∈ events_of a → st ∈ before_opening → ev ∈ opening_events →
    opens a (Some ev) s s' → False) as H3.
  { intros ty role st a ev s s' (_ & _ & Ha)%opening_action Hev _ Hev' _. by apply (Ha ev). }
  assert (∀ c, is_opening c = true → may_call NoOpAction c = false) as H4 by (by intros []).
  assert (Forall (λ ev, ev ∉ opening_events) [Event_OnInvalid_Message; Event_ActionFailed]) as H5
    by by_eval.
  split.
  - by apply (SendEvent_first is_opening broadcasting before_opening opening_events opening_at
      (λ _, False) opens Execute_opens H4 H1 H2 opening_entry H5 H3).
  - by apply (Recover_first is_opening broadcasting before_opening opening_events opening_at
      (λ _, False) opens Execute_opens H4 H1 H2 opening_entry H5 H3).
Qed.

(** C5. The opening transaction is the one that was agreed: whatever event, message
    or recovery a machine is given, it creates one only when it waits for the fee
    payment or the agreement and gets it, or when it recovers in the broadcasting
    state; and then only when none was recorded for the swap, with the amount
    agreed in the data the machine has at that moment, the two keys of that data
    and the CSV of its chain and version, locked to the hash of the fresh preimage
    for which the step has just issued the claim invoice over the claim amount. *)
Theorem opening_transaction_sound {EV : Env} w sm event ctx :
  (match SendEvent event ctx (w, sm) with
   | Ret (w', _) _ | Panic (w', _) | NoFuel (w', _) =>
       made_when (event_opening sm event ctx (hist w)) (hist w) (hist w')
   end) ∧
  (match Recover (w, sm) with
   | Ret (w', _) _ | Panic (w', _) | NoFuel (w', _) =>
       made_when (recover_opening sm (hist w)) (hist w) (hist w')
   end).
Proof.
  destruct (opening_calls w sm event ctx) as [H1 H2].
  assert (∀ h n d e pre, opening_at h (SetState n d) e pre → opening_at h d e pre) as Hset by done.
  split.
  - destruct (SendEvent _ _ _) as [[]|[]|[]]; (eapply made_when_mono; [|exact H1]);
      intros e pre H Hk; destruct (H Hk) as (Hst & Hev & h & n & [new ->] & HG);
      (split; [done|]; split; [done|]; exists new; by eapply Hset).
  - destruct (Recover _) as [[]|[]|[]]; (eapply made_when_mono; [|exact H2]);
      intros e pre H Hk; destruct (H Hk) as (Hst & HG); (split; [done|]; by exists []).
Qed.
