(* ===== verification/Publishing.v ===== *)
(** * One opening transaction per swap

    While the daemon runs (any events and messages, any answers of the services,
    any number of database errors, but no restart), a machine publishes at most
    one opening transaction: its table enters the broadcasting state at most
    once, and the action of that state makes the call at most once. *)

From S2P Require Import Prelude GoLib Messages Premium Policy SwapData Timelock Env Demo Store.
From S2P Require Import Actions ActionProofs Fsm FsmProofs Safety Payments Guards.

Definition openings (h : list Entry) : nat :=
  length (filter (λ e, is_opening (call_of e) = true) h).

Lemma openings_cons e h :
  openings (e :: h) = ((if is_opening (call_of e) then 1 else 0) + openings h)%nat.
Proof. unfold openings. rewrite filter_cons. by destruct (is_opening (call_of e)). Qed.
Lemma openings_app h1 h2 : openings (h1 ++ h2) = (openings h1 + openings h2)%nat.
Proof. unfold openings. by rewrite filter_app, length_app. Qed.

Lemma openings_ext (P : Entry → Prop) h h' :
  (∀ e, P e → is_opening (call_of e) = false) → hist_ext P h h' → openings h' = openings h.
Proof.
  intros HP. induction 1 as [|e h' He _ IH]; [done|].
  by rewrite openings_cons, (HP e He), IH.
Qed.

(** The broadcast action, by the position of its call. *)
Lemma opening_at_once {EV : Env} d h0 h :
  made_when (opening_at h0 d) h0 h → ∃ new, h = new ++ h0 ∧ (openings new ≤ 1)%nat.
Proof.
  induction 1 as [|e h He _ (new & -> & Hn)].
  - exists []. split; [done|]. cbn. lia.
  - exists (e :: new). split; [done|]. rewrite openings_cons. revert He.
    unfold opening_at. destruct (call_of e); cbn; try (intros; lia).
    intros (policy & preimage & payreq & amount & claim & H).
    destruct H as (_ & _ & _ & _ & _ & _ & _ & _ & _ & _ & Hpre).
    change (?x :: ?y :: h0) with ([x; y] ++ h0) in Hpre.
    apply app_inv_tail in Hpre as ->. rewrite !openings_cons. cbn. lia.
Qed.

Definition publishes (a : Action) : bool :=
  bool_decide (base a = CreateAndBroadcastOpeningTransaction).

Section once.
Context {EV : Env}.

Definition at_most (k : nat) (s s' : World * SwapData) : Prop :=
  (openings (hist (fst s')) ≤ k + openings (hist (fst s)))%nat.
Definition action_once (a : Action) (_ : option EventType)
    : World * SwapData → World * SwapData → Prop :=
  at_most (if publishes a then 1 else 0).

Lemma Execute_once a s :
  wp (Execute a) (λ ev, action_once a (Some ev) s) (λ _, action_once a None s) s.
Proof.
  assert (∀ s s', act_rel (may_call NoOpAction) s s' →
    openings (hist (fst s')) = openings (hist (fst s))) as Hq.
  { intros ? ? (_ & _ & _ & Hh). eapply openings_ext; [|exact Hh]. intros e. cbn beta.
    by destruct (call_of e). }
  revert s. apply (Execute_wrapped (action_once a)).
  - intros s s' H. unfold action_once, at_most. rewrite (Hq s s' H). lia.
  - intros o s s1 s2 H. unfold action_once, at_most. by rewrite (Hq s s1 H).
  - intros s. unfold action_once, publishes. case_bool_decide as Hb.
    + rewrite Hb. destruct s as [w d]. cbn [Execute].
      eapply wp_mono; [apply opening_made|..];
        (intros ? s' (new & Hs & Hn)%opening_at_once; unfold at_most; cbn [fst];
         rewrite Hs, openings_app; lia).
    + eapply wp_mono; [apply Execute_spec|..];
        (intros ? s' [_ (_ & _ & _ & Hh)]; unfold at_most; cbn;
         erewrite openings_ext; [done| |exact Hh]; intros e; cbn beta;
         rewrite base_base; destruct (call_of e); cbn; try done; by intros ?%bool_decide_eq_true).
Qed.

(** ** The budget of a machine *)

(** States from which the broadcasting state is not entered any more. *)
Definition past_opening : list StateType :=
  [State_SwapOutReceiver_BroadcastOpeningTx; State_SwapInSender_BroadcastOpeningTx;
   State_SendCancel; State_SwapCanceled] ++ announced.

Definition opening_discipline (states : States) : bool :=
  forallb (λ '(st, s), forallb (λ '(_, n),
    match action_of states n with
    | Some a => if publishes a
                then bool_decide (st ∉ past_opening) && bool_decide (n ∈ past_opening)
                else negb (bool_decide (st ∈ past_opening)) || bool_decide (n ∈ past_opening)
    | None => true
    end) (state_Events s)) states.

Lemma tables_disciplined ty role : opening_discipline (states_for ty role) = true.
Proof. destruct ty, role; by vm_compute. Qed.

Definition budget (st : StateType) : nat := if bool_decide (st ∈ past_opening) then 0 else 1.

Lemma budget_step ty role st ev n a :
  next_state (states_for ty role) st ev = Some n →
  action_of (states_for ty role) n = Some a →
  ((if publishes a then 1 else 0) + budget n ≤ budget st)%nat.
Proof.
  pose proof (tables_disciplined ty role) as Hd. unfold next_state.
  intros (s & Hs%assoc_elem & Hn%assoc_elem)%bind_Some Ha.
  pose proof (forallb_elem _ _ _ Hd Hs) as He. cbn beta iota in He.
  pose proof (forallb_elem _ _ _ He Hn) as H. cbn beta iota in H. rewrite Ha in H.
  unfold budget. destruct (publishes a).
  - apply andb_true_iff in H as [H1%bool_decide_eq_true H2%bool_decide_eq_true].
    rewrite bool_decide_true, bool_decide_false by done. done.
  - repeat case_bool_decide; try done; lia.
Qed.

(** ** Events *)
Section events.
Context (N : nat).

(** Published so far, plus what the state still allows. *)
Definition within (w : World) (sm : SwapStateMachine) : Prop :=
  (openings (hist w) + budget (sm_Current sm) ≤ N)%nat.
Definition result_within {A} (_ : A) (s : World * SwapStateMachine) : Prop :=
  within (fst s) (snd s).

Lemma within_hist w w' sm :
  hist_ext (λ e, may_call NoOpAction (call_of e) = true) (hist w) (hist w') →
  within w sm → within w' sm.
Proof.
  intros Hh. unfold within. erewrite (openings_ext _ (hist w) (hist w')); [done| |exact Hh].
  intros e. cbn beta. by destruct (call_of e).
Qed.
Lemma within_same w w' sm : same_state w w' → within w sm → within w' sm.
Proof.
  intros [_ Hh]. apply within_hist. eapply hist_ext_mono; [|exact Hh].
  intros e. cbn beta. by destruct (call_of e).
Qed.
Lemma within_stored sm0 w w' sm : stored sm0 w w' → within w sm → within w' sm.
Proof. intros [_ Hs]. exact (within_same w (w' <| swaps := swaps w |>) sm Hs). Qed.

Lemma within_moved n a o w sm ev w1 d :
  within w sm → next_state (sm_States sm) (sm_Current sm) ev = Some n →
  action_of (sm_States sm) n = Some a → moved_x action_once n a o w sm w1 d →
  within w1 (after n sm d).
Proof.
  intros HI Hn Ha [_ (w0 & [Hl _] & Hx)].
  pose proof (budget_step _ _ _ _ _ _ Hn Ha) as Hb.
  assert (within w0 sm) as H0.
  { eapply within_hist; [|exact HI]. eapply hist_ext_mono; [|exact Hl].
    intros e. cbn beta. by destruct (call_of e). }
  unfold within, action_once, at_most in *. cbn in *. lia.
Qed.

Lemma run_events_within fuel ev w sm :
  within w sm → wp (run_events fuel ev) result_within any_stop (w, sm).
Proof.
  apply (run_events_rule_x action_once Execute_once (λ _ _ w sm, within w sm)); try done.
  intros f ev0 w0 sm1 n a w1 d ev' HI Hn Ha Hm _.
  pose proof (within_moved _ _ _ _ _ _ _ _ HI Hn Ha Hm) as H1. split.
  - intros e w2 Hs. by eapply within_same.
  - intros w2 Hs. pose proof (within_stored _ _ _ _ Hs H1) as H2. unfold continues.
    destruct ev'; try exact H2. repeat case_match; [exact I|exact H2|exact H2].
Qed.

Lemma SendEvent_nil_within ev w sm :
  within w sm → wp (SendEvent_nil ev) result_within any_stop (w, sm).
Proof.
  intros H. apply wp_SendEvent_nil.
  - by intros _.
  - intros _ e w' Hs. by eapply within_same.
  - intros _ w' Hs. by apply run_events_within, (within_stored _ _ _ _ Hs).
Qed.

Lemma SendEvent_within ev ctx w sm :
  within w sm → wp (SendEvent ev ctx) result_within any_stop (w, sm).
Proof.
  intros H. apply wp_SendEvent; intros; try done; by apply SendEvent_nil_within.
Qed.
End events.
End once.

(** The run of a machine while the daemon is up, with the calls it made, newest
    first: events with or without messages, in any world, and any assignment to
    its data in between (the service makes some). *)
Inductive uptime_run {EV : Env} : SwapStateMachine → History → SwapStateMachine → Prop :=
  | up_nil sm : uptime_run sm [] sm
  | up_event sm h sm1 ev ctx w w' sm2 r new :
      uptime_run sm h sm1 → SendEvent ev ctx (w, sm1) = Ret (w', sm2) r →
      hist w' = new ++ hist w → uptime_run sm (new ++ h) sm2
  | up_assign sm h sm1 d :
      uptime_run sm h sm1 → uptime_run sm h (sm1 <| sm_Data := d |>).

(** C6. One opening transaction: while the daemon runs, a machine publishes at most
    one opening transaction, whatever events and messages it is given, whatever
    the services answer and however often the database fails. *)
Theorem published_at_most_once {EV : Env} sm h sm' :
  uptime_run sm h sm' → (openings h ≤ 1)%nat.
Proof.
  intros Hrun. assert (openings h + budget (sm_Current sm') ≤ budget (sm_Current sm))%nat as H.
  { induction Hrun as [sm|sm h sm1 ev ctx w w' sm2 r new _ IH Hs Hn|sm h sm1 d _ IH].
    - cbn. lia.
    - pose proof (wp_elim _ _ _ _ _ _ (SendEvent_within _ ev ctx w sm1 (le_n _)) Hs) as H.
      unfold result_within, within in H. cbn in H. rewrite Hn, openings_app in H.
      rewrite openings_app. lia.
    - done. }
  unfold budget in H. repeat case_bool_decide; lia.
Qed.
