(* ===== verification/Acceptance.v ===== *)
(** * What a taker pays is what it accepted

    The invoice of the opening message is decoded and accepted in one state and
    paid in a later one, after the confirmation of the opening transaction.  Here
    the two are joined over whole runs: when the confirmation is reported only for
    a registered watch, every claim payment is for an invoice that was accepted
    for the swap as it is at the payment, and the opening transaction validated
    just before is locked to the payment hash of that very invoice. *)

From S2P Require Import Prelude GoLib Messages Premium Policy SwapData Timelock Env Demo Store.
From S2P Require Import Actions ActionProofs Fsm FsmProofs Safety Payments Guards.

(** ** Accepted invoices *)

(** The terms an accepted invoice was checked against. *)
Record terms_kept (d d' : SwapData) : Prop := {
  terms_in : SwapInRequest d' = SwapInRequest d;
  terms_out : SwapOutRequest d' = SwapOutRequest d;
  terms_opening m : OpeningTxBroadcasted d = Some m → OpeningTxBroadcasted d' = Some m;
  terms_agreement a : SwapOutAgreement d = Some a → SwapOutAgreement d' = Some a;
  terms_hash : ClaimPaymentHash d' = ClaimPaymentHash d;
}.

Lemma terms_refl d : terms_kept d d.
Proof. by split. Qed.
Lemma terms_trans d1 d2 d3 : terms_kept d1 d2 → terms_kept d2 d3 → terms_kept d1 d3.
Proof. intros [] []. split; [congruence..|naive_solver|naive_solver|congruence]. Qed.
Lemma terms_handle e d : terms_kept d (HandleError e d).1.
Proof. unfold HandleError. destruct e; cbn; case_bool_decide; by split. Qed.

Lemma terms_chain d d' : terms_kept d d' → GetChain d' = GetChain d.
Proof. intros [E1 E2 _ _ _]. unfold GetChain, GetAsset, GetNetwork. by rewrite E1, E2. Qed.
Lemma terms_policy d d' : terms_kept d d' → getTimelockPolicy d' = getTimelockPolicy d.
Proof.
  intros H. unfold getTimelockPolicy. rewrite (terms_chain d d' H). destruct H as [E1 E2 _ _ _].
  unfold GetProtocolVersion, GetChain, GetAsset, GetNetwork. rewrite E1, E2.
  by destruct (SwapInRequest d), (SwapOutRequest d).
Qed.
Lemma terms_claim d d' c :
  terms_kept d d' → GetClaimAmount d = Some c → GetClaimAmount d' = Some c.
Proof.
  intros [E1 E2 _ Ha _]. unfold GetClaimAmount. rewrite E1, E2.
  destruct (SwapInRequest d); [done|]. destruct (SwapOutRequest d); [|done].
  intros (a & Hs & Hc)%bind_Some. by rewrite (Ha a Hs).
Qed.
Lemma terms_invoice ch d d' policy inv p :
  terms_kept d d' → check_claim_invoice ch d policy inv p = Some None →
  check_claim_invoice ch d' policy inv p = Some None.
Proof.
  intros H. unfold check_claim_invoice. rewrite (terms_chain d d' H).
  case_bool_decide; [destruct (_ <? _); [done|]|];
    intros (c & Hc & Hv)%bind_Some; by rewrite (terms_claim d d' c H Hc).
Qed.

(** The recorded invoice of [d] was decoded, according to [h], and accepted for
    the terms of [d], and its payment hash is the one the swap is bound to. *)
Definition checked (h : History) (d : SwapData) : Prop :=
  ∃ ch policy msg inv,
    getOnChainServices (GetChain d) = Ok ch ∧ getTimelockPolicy d = Ok policy ∧
    OpeningTxBroadcasted d = Some msg ∧
    entry (DecodePayreq (OpeningTxBroadcastedMessage.Payreq msg)) (Ok inv) ∈ h ∧
    check_claim_invoice ch d policy inv (OpeningTxBroadcastedMessage.Payreq msg) = Some None ∧
    ClaimPaymentHash d = dp_paymentHash inv.
(** So it was, if the swap is one that may be paid. *)
Definition accepted (h : History) (d : SwapData) : Prop :=
  ∀ policy, getTimelockPolicy d = Ok policy → AllowNewClaimPayment policy = true → checked h d.

Lemma checked_terms h new d d' : terms_kept d d' → checked h d → checked (new ++ h) d'.
Proof.
  intros H (ch & policy & msg & inv & H1 & H2 & H3 & H4 & H5 & H6).
  exists ch, policy, msg, inv. rewrite (terms_chain d d' H), (terms_policy d d' H).
  split_and!; try done.
  - by apply H.
  - apply elem_of_app. by right.
  - by eapply terms_invoice.
  - by rewrite (terms_hash d d' H).
Qed.
Lemma checked_more h1 h2 d : checked h1 d → checked (h1 ++ h2) d.
Proof.
  intros (ch & policy & msg & inv & H1 & H2 & H3 & H4 & H5 & H6).
  exists ch, policy, msg, inv. split_and!; try done. apply elem_of_app. by left.
Qed.
Lemma accepted_terms h new d d' : terms_kept d d' → accepted h d → accepted (new ++ h) d'.
Proof.
  intros H Ha policy Hp Hn. rewrite (terms_policy d d' H) in Hp.
  by eapply checked_terms, Ha.
Qed.

Definition is_watch (e : Entry) : bool :=
  match call_of e with AddWaitForConfirmationTx _ _ _ _ _ _ _ => true | _ => false end.
Definition watched (h : History) : Prop := Exists (λ e, is_watch e = true) h.

Lemma watched_app h1 h2 : watched (h1 ++ h2) ↔ watched h1 ∨ watched h2.
Proof. apply Exists_app. Qed.
Lemma unwatched (P : Entry → Prop) h h' :
  (∀ e, P e → is_watch e = false) → hist_ext P h h' →
  ∃ new, h' = new ++ h ∧ ¬ watched new.
Proof.
  intros HP (new & -> & Hn)%hist_ext_iff. exists new. split; [done|].
  intros (e & He & Hw)%Exists_exists. rewrite Forall_forall in Hn.
  rewrite (HP e (Hn e He)) in Hw. done.
Qed.

(** ** The actions *)
Section actions.
Context {EV : Env}.

(** The run of the action that awaits the confirmation leaves the terms alone and
    registers nothing, or it accepted the invoice. *)
Definition awaits (o : option EventType) (s s' : World * SwapData) : Prop :=
  ∃ new, hist (fst s') = new ++ hist (fst s) ∧
    (terms_kept (snd s) (snd s') ∧ ¬ watched new ∨ checked new (snd s')) ∧
    (o = Some Event_OnTxConfirmed →
     ∀ policy, getTimelockPolicy (snd s') = Ok policy → AllowNewClaimPayment policy = false).

Lemma awaits_unchecked o h w d w' d' :
  hist w' = h ++ hist w → terms_kept d d' → ¬ watched h → o ≠ Some Event_OnTxConfirmed →
  awaits o (w, d) (w', d').
Proof. intros. exists h. split; [done|]. split; [by left|done]. Qed.
Lemma awaits_checked o h w d w' d' :
  hist w' = h ++ hist w → checked h d' → o ≠ Some Event_OnTxConfirmed →
  awaits o (w, d) (w', d').
Proof. intros. exists h. split; [done|]. split; [by right|done]. Qed.

(** A failure after the calls [h], before and after the invoice was accepted. *)
Lemma awaits_fail h e w d w' d' :
  hist w' = h ++ hist w →
  (terms_kept d d' ∧ ¬ watched h) ∨ checked h d' →
  wp (handle e) (λ ev, awaits (Some ev) (w, d)) (λ _, awaits None (w, d)) (w', d').
Proof.
  intros Hh Hd. unfold handle. do 2 svc_step. pose proof (terms_handle e d') as Ht.
  assert ((HandleError e d').2 = Event_ActionFailed) as Hev by done.
  destruct (HandleError e d') as [d2 ev]. cbn in Ht, Hev. subst ev. do 2 svc_step. apply wp_ret.
  destruct Hd as [[Hd Hw]|Hd].
  - by eapply awaits_unchecked; [|eapply terms_trans|..].
  - eapply awaits_checked; [exact Hh| |done]. by apply (checked_terms h [] d' d2).
Qed.

Ltac unseen := let H := fresh in intros H; repeat (apply Exists_cons in H as [H|H]; [done|]);
  by apply Exists_nil in H.

Ltac before := left; split; [apply terms_refl|unseen].

Ltac in_calls := match goal with
  Hck : ∀ new, _ → checked new _, Einv : _ = Ok _ |- _ =>
    apply Hck; rewrite <- Einv; repeat (apply list_elem_of_here || apply list_elem_of_further) end.

Lemma await_awaits s :
  wp (Execute AwaitTxConfirmationAction) (λ ev, awaits (Some ev) s) (λ _, awaits None s) s.
Proof.
  destruct s as [w d]. cbn [Execute]. unfold exec_AwaitTxConfirmation, with_chain.
  assert (¬ watched []) as Hw0 by (by intros H%Exists_nil).
  do 2 svc_step. destruct (getOnChainServices (GetChain d)) as [ch|e] eqn:Hch;
    [|by apply (awaits_fail []); auto using terms_refl].
  unfold with_timelock. do 2 svc_step.
  destruct (getTimelockPolicy d) as [policy|e] eqn:Hpol;
    [|by apply (awaits_fail []); auto using terms_refl].
  do 2 svc_step. destruct (AllowNewClaimPayment policy) eqn:Hallow; cbn [negb].
  2:{ case_bool_decide; [by apply (awaits_fail []); auto using terms_refl|].
      do 2 svc_step; [|by apply (awaits_unchecked _ []); auto using terms_refl].
      do 2 svc_step.
      destruct (ask _ (RecoverClaimPayment _)).
      - do 3 svc_step. eexists [_]. split; [done|]. split.
        + left. split; [by split|unseen].
        + intros _ p' Hp'. change (getTimelockPolicy d = Ok p') in Hp'. congruence.
      - eapply (awaits_fail [_]); [done|]. before. }
  do 2 svc_step; [|by apply (awaits_unchecked _ []); auto using terms_refl]. rename a into msg.
  do 2 svc_step. destruct (ask _ (DecodePayreq _)) as [inv|e] eqn:Einv.
  2:{ eapply (awaits_fail [_]); [done|]. before. }
  do 2 svc_step.
  2:{ eapply (awaits_unchecked _ [_]); [done|apply terms_refl|unseen|done]. }
  rename a into invErr.
  destruct invErr as [e|].
  { eapply (awaits_fail [_]); [done|]. before. }
  do 2 svc_step.
  assert (∀ new, entry (DecodePayreq (OpeningTxBroadcastedMessage.Payreq msg)) (Ok inv) ∈ new →
    checked new (d <| ClaimPaymentHash := dp_paymentHash inv |>)) as Hck.
  { intros new Hin. by exists ch, policy, msg, inv. }
  do 2 svc_step. destruct (ask _ (GetBlockHeight ch)) as [height|e] eqn:Eh.
  2:{ eapply (awaits_fail [_; _]); [done|]. right. in_calls. }
  do 2 svc_step. destruct (check_await_height _ _ _ _) eqn:Ecw.
  { eapply (awaits_fail [_; _]); [done|]. right. in_calls. }
  do 2 svc_step.
  2:{ eapply (awaits_checked _ [_; _]); [done| |done]. in_calls. }
  rename a into params.
  do 2 svc_step. destruct (ask _ (GetOutputScript _ _)) as [script|e] eqn:Es.
  2:{ eapply (awaits_fail [_; _; _]); [done|]. right. in_calls. }
  do 2 svc_step. apply wp_ret. eapply (awaits_checked _ [_; _; _; _]); [done| |done].
  in_calls.
Qed.

(** The action that pays leaves the terms alone. *)
Definition keeps_terms (d : SwapData) (s : World * SwapData) : Prop := terms_kept d (snd s).

Lemma handle_terms e w d : wp (handle e) (λ _, keeps_terms d) (λ _, keeps_terms d) (w, d).
Proof.
  unfold handle. do 2 svc_step. pose proof (terms_handle e d) as Ht.
  destruct (HandleError e d) as [d2 ev]. by do 2 svc_step.
Qed.

Lemma pay_loop_terms ch policy ticks payErr w d :
  wp (pay_loop ch policy ticks payErr) (λ _, keeps_terms d) (λ _, keeps_terms d) (w, d).
Proof.
  revert w payErr. induction ticks as [|ticks IH]; intros w payErr; cbn [pay_loop].
  - apply handle_terms.
  - do 2 svc_step. destruct (ask _ (GetBlockHeight ch)); [|apply handle_terms].
    do 2 svc_step. destruct (check_pay_height _ _ _ _); [apply handle_terms|].
    do 2 svc_step; [|apply terms_refl]. do 2 svc_step.
    destruct (ask _ (RebalancePayment _ _ _)); [by do 3 svc_step|apply IH].
Qed.

Lemma validate_terms w d :
  wp (Execute ValidateTxAndPayClaimInvoiceAction) (λ _, keeps_terms d) (λ _, keeps_terms d) (w, d).
Proof.
  cbn [Execute]. unfold exec_ValidateTxAndPayClaimInvoice, with_chain, with_timelock.
  do 2 svc_step. destruct (getOnChainServices _); [|apply handle_terms].
  do 2 svc_step. destruct (getTimelockPolicy _); [|apply handle_terms].
  do 4 svc_step; [|apply terms_refl]. do 2 svc_step.
  destruct (ask _ (ValidateTx _ _ _)) as [[]|]; cbn [negb]; [|apply handle_terms..].
  destruct (negb _); [|do 2 svc_step; apply pay_loop_terms].
  case_bool_decide; [by apply wp_ret|].
  do 2 svc_step; [|apply terms_refl]. do 2 svc_step.
  destruct (ask _ (RecoverClaimPayment _)); [by do 3 svc_step|apply handle_terms].
Qed.

Definition pays (s s' : World * SwapData) : Prop :=
  terms_kept (snd s) (snd s') ∧
  made_when (claim_guard (hist (fst s)) (snd s)) (hist (fst s)) (hist (fst s')).

Lemma validate_pays s :
  wp (Execute ValidateTxAndPayClaimInvoiceAction) (λ _, pays s) (λ _, pays s) s.
Proof.
  destruct s as [w d]. pose proof (validate_terms w d) as H1. pose proof (claim_made w d) as H2.
  unfold made, wp in *. destruct (Execute _ (w, d)); by split.
Qed.

(** What the two actions do, as the tables have them. *)
Definition acceptance (a : Action) (o : option EventType) (s s' : World * SwapData) : Prop :=
  match a with
  | AwaitTxConfirmationAction
  | StopSendMessageWithRetryWrapperAction AwaitTxConfirmationAction => awaits o s s'
  | ValidateTxAndPayClaimInvoiceAction => pays s s'
  | _ => True
  end.

Lemma Execute_acceptance a s :
  wp (Execute a) (λ ev, acceptance a (Some ev) s) (λ _, acceptance a None s) s.
Proof.
  assert (∀ m : Svc SwapData EventType, wp m (λ _ _, True) (λ _ _, True) s) as Htop.
  { intros m. unfold wp. by destruct (m s). }
  destruct a; try apply Htop.
  - destruct a; try apply Htop. destruct s as [w d]. cbn [Execute acceptance].
    unfold exec_StopSendMessageWithRetry, remove_sender. do 4 svc_step.
    match goal with |- wp _ _ _ (?w1, _) => exact (await_awaits (w1, d)) end.
  - apply await_awaits.
  - apply validate_pays.
Qed.
End actions.

(** ** The tables *)
Definition awaiting : list StateType :=
  [State_SwapOutSender_AwaitTxConfirmation; State_SwapInReceiver_AwaitTxConfirmation].
Definition paying_claim : list StateType :=
  [State_SwapOutSender_ValidateTxAndPayClaimInvoice;
   State_SwapInReceiver_ValidateTxAndPayClaimInvoice].
(** The states from the confirmation on. *)
Definition watching : list StateType :=
  awaiting ++ paying_claim ++
  [State_SwapOutSender_ClaimSwap; State_SwapInReceiver_ClaimSwap;
   State_SwapOutSender_SendPrivkey; State_SwapInReceiver_SendPrivkey;
   State_SwapOutSender_SendCoopClose; State_SwapInReceiver_SendCoopClose;
   State_SendCancel; State_SwapCanceled; State_ClaimedPreimage; State_ClaimedCoop].

(** Which actions the states have. *)
Definition acceptance_actions (states : States) : bool :=
  forallb (λ '(st, s),
    match state_Action s with
    | Some a =>
        if bool_decide (st ∈ awaiting) then
          bool_decide (a ∈ [AwaitTxConfirmationAction;
                            StopSendMessageWithRetryWrapperAction AwaitTxConfirmationAction])
        else if bool_decide (st ∈ paying_claim) then
          bool_decide (a = ValidateTxAndPayClaimInvoiceAction)
        else bool_decide (base a ∉ [AwaitTxConfirmationAction;
                                    ValidateTxAndPayClaimInvoiceAction])
    | None => true
    end) states.
(** How the states are entered: the awaiting ones from before the confirmation,
    the paying ones from the awaiting ones with the confirmation. *)
Definition acceptance_entries (states : States) : bool :=
  forallb (λ '(st, s), forallb (λ '(ev, n),
    implb (bool_decide (n ∈ awaiting)) (bool_decide (st ∉ watching)) &&
    implb (bool_decide (n ∈ paying_claim))
          (bool_decide (st ∈ awaiting ∧ ev = Event_OnTxConfirmed)) &&
    implb (bool_decide (st ∈ watching)) (bool_decide (n ∈ watching)))
    (state_Events s)) states.

Lemma tables_actions ty role : acceptance_actions (states_for ty role) = true.
Proof. apply for_all_tables. by vm_compute. Qed.
Lemma tables_entries ty role : acceptance_entries (states_for ty role) = true.
Proof. apply for_all_tables. by vm_compute. Qed.

Lemma action_cases ty role st a :
  action_of (states_for ty role) st = Some a →
  (st ∈ awaiting ∧ base a = AwaitTxConfirmationAction ∧
   ∀ (EV : Env) o s s', acceptance a o s s' → awaits o s s') ∨
  (st ∈ paying_claim ∧ (st ∉ awaiting) ∧ a = ValidateTxAndPayClaimInvoiceAction) ∨
  ((st ∉ awaiting) ∧ (st ∉ paying_claim) ∧
   base a ∉ [AwaitTxConfirmationAction; ValidateTxAndPayClaimInvoiceAction]).
Proof.
  intros (s & Hs%assoc_elem & Ha)%bind_Some.
  pose proof (forallb_elem _ _ _ (tables_actions ty role) Hs) as H. cbn beta iota in H.
  rewrite Ha in H. repeat case_bool_decide; try done; [left|right; left|right; right]; auto.
  split; [done|]. set_unfold. by destruct_or!; subst.
Qed.

Lemma entry_cases ty role st ev n :
  next_state (states_for ty role) st ev = Some n →
  (n ∈ awaiting → st ∉ watching) ∧
  (n ∈ paying_claim → st ∈ awaiting ∧ ev = Event_OnTxConfirmed) ∧
  (st ∈ watching → n ∈ watching).
Proof.
  unfold next_state. intros (s & Hs%assoc_elem & Hn%assoc_elem)%bind_Some.
  pose proof (forallb_elem _ _ _ (tables_entries ty role) Hs) as He. cbn beta iota in He.
  pose proof (forallb_elem _ _ _ He Hn) as H. cbn beta iota in H.
  repeat case_bool_decide; cbn in H; try done.
Qed.

(** ** What holds of a machine between its steps

    [h] are the calls of the run so far: a watch was registered only from the
    awaiting state on, where the invoice is then accepted, and a machine that is
    paying has accepted it. *)
Record bound (h : History) (st : StateType) (d : SwapData) : Prop := {
  bound_watch : watched h → st ∈ watching;
  bound_await : st ∈ awaiting → watched h → accepted h d;
  bound_pay : st ∈ paying_claim → accepted h d;
}.

Lemma bound_quiet h new st d d' :
  ¬ watched new → terms_kept d d' → bound h st d → bound (new ++ h) st d'.
Proof.
  intros Hw Ht [H1 H2 H3].
  assert (watched (new ++ h) → watched h) as Hold by (intros [?|?]%watched_app; tauto).
  split; eauto using accepted_terms.
Qed.

(** A confirmation that is about to be processed is one of an accepted invoice. *)
Definition confirmable (h : History) (o : option EventType) (st : StateType) (d : SwapData)
    : Prop :=
  o = Some Event_OnTxConfirmed → st ∈ awaiting → accepted h d.

Section step.
Context {EV : Env} (h hw : History).

(** In the world [w] of a step that started with the history [hw]. *)
Definition holds (o : option EventType) (w : World) (st : StateType) (d : SwapData) : Prop :=
  ∃ new, hist w = new ++ hw ∧ bound (new ++ h) st d ∧ confirmable (new ++ h) o st d.

(** Queries and bookkeeping. *)
Lemma holds_quiet (P : Entry → Prop) o w w' st d d' :
  (∀ e, P e → is_watch e = false) → hist_ext P (hist w) (hist w') →
  terms_kept d d' → holds o w st d → holds o w' st d'.
Proof.
  intros HP Hh Ht (new & Hn & Hb & Hc).
  destruct (unwatched P _ _ HP Hh) as (new' & Hn' & Hw').
  exists (new' ++ new). rewrite Hn', Hn, <- !(assoc_L (++)). split; [done|].
  split; [by eapply bound_quiet|]. intros Ho Hst. by eapply accepted_terms, Hc.
Qed.
Lemma holds_event o o' w st d :
  (o' = Some Event_OnTxConfirmed → st ∉ awaiting ∨ o = o') → holds o w st d → holds o' w st d.
Proof.
  intros Ho (new & Hn & Hb & Hc). exists new.
  split; [done|]. split; [done|].
  intros E Hst. destruct (Ho E) as [?| ->]; [done|by apply Hc].
Qed.

Lemma holds_none o w st d : holds o w st d → holds None w st d.
Proof. apply holds_event. by intros. Qed.

(** The three kinds of actions. *)
Lemma holds_awaits o w st d w' d' :
  st ∈ awaiting → awaits o (w, d) (w', d') → holds None w st d → holds o w' st d'.
Proof.
  intros Hst (new' & Hn' & Hk & Hconf) (new & Hn & [H1 H2 H3] & _). cbn [fst snd] in *.
  exists (new' ++ new). rewrite Hn', Hn, <- !(assoc_L (++)). split; [done|].
  split; [split|].
  - intros _. apply elem_of_app. by left.
  - intros _ Hw policy Hpol Hallow. destruct Hk as [[Ht Hnw]|Hck]; [|by apply checked_more].
    apply watched_app in Hw as [?|Hw]; [done|].
    by apply (accepted_terms (new ++ h) new' d d' Ht (H2 Hst Hw) policy).
  - intros Hpay. destruct Hk as [[Ht _]|Hck]; [by eapply accepted_terms, H3|].
    intros policy _ _. by apply checked_more.
  - intros Ho _ policy Hpol Hallow. by rewrite (Hconf Ho policy Hpol) in Hallow.
Qed.

Lemma holds_pays w st d w' d' o :
  st ∉ awaiting → terms_kept d d' →
  hist_ext (λ e, may_call ValidateTxAndPayClaimInvoiceAction (call_of e) = true)
    (hist w) (hist w') →
  holds None w st d → holds o w' st d'.
Proof.
  intros Hna Ht Hh H. apply (holds_event None); [by left|].
  eapply holds_quiet; [|exact Hh|exact Ht|exact H].
  intros e. cbn beta. unfold is_watch. by destruct (call_of e).
Qed.

Lemma holds_other a w st d w' d' o :
  st ∉ awaiting → st ∉ paying_claim →
  base a ∉ [AwaitTxConfirmationAction; ValidateTxAndPayClaimInvoiceAction] →
  hist_ext (λ e, may_call (base a) (call_of e) = true) (hist w) (hist w') →
  holds None w st d → holds o w' st d'.
Proof.
  intros Hna Hnp Hbase Hh (new & Hn & [H1 _ _] & _).
  assert (∃ new', hist w' = new' ++ hist w ∧ ¬ watched new') as (new' & Hn' & Hw').
  { eapply unwatched; [|exact Hh]. intros e. cbn beta. unfold is_watch.
    destruct (call_of e); try done. intros ?%bool_decide_eq_true. set_solver. }
  exists (new' ++ new). rewrite Hn', Hn, <- !(assoc_L (++)). split; [done|].
  split; [split; try done|by intros _ ?].
  intros [?|?]%watched_app; [done|auto].
Qed.

Lemma holds_action ty role st a o w d w' d' :
  action_of (states_for ty role) st = Some a →
  act_rel (may_call (base a)) (w, d) (w', d') → acceptance a o (w, d) (w', d') →
  holds None w st d → holds o w' st d'.
Proof.
  intros Ha (_ & _ & _ & Hh) Hx H. cbn [fst snd] in *.
  destruct (action_cases ty role st a Ha) as [(Hst & Hb & Haw)|[(Hst & Hna & ->)|(H1 & H2 & H3)]].
  - eapply holds_awaits; [done|by apply (Haw EV)|done].
  - destruct Hx as [Ht _]. by eapply holds_pays.
  - by eapply holds_other.
Qed.

(** ** The machine *)
Abbreviation St := (World * SwapStateMachine)%type.
Definition holds_at (o : option EventType) (w : World) (sm : SwapStateMachine) : Prop :=
  holds o w (sm_Current sm) (sm_Data sm).
Definition holds_after {A} (_ : A) (s : St) : Prop := holds_at None (fst s) (snd s).

Lemma holds_same o w w' st d : same_state w w' → holds o w st d → holds o w' st d.
Proof.
  intros [_ Hh]. eapply holds_quiet; [|exact Hh|apply terms_refl].
  intros e. cbn beta. unfold is_watch. by destruct (call_of e).
Qed.
Lemma holds_stored sm o w w' st d : stored sm w w' → holds o w st d → holds o w' st d.
Proof. intros [_ Hs]. exact (holds_same o w (w' <| swaps := swaps w |>) st d Hs). Qed.

(** Entering a state. *)
Lemma holds_enter ty role ev w st d n w' :
  next_state (states_for ty role) st ev = Some n → logged w w' →
  holds (Some ev) w st d → holds None w' n (SetState n d).
Proof.
  intros Hn [Hl _] H. destruct (entry_cases ty role st ev n Hn) as (E1 & E2 & E3).
  eapply (holds_quiet _ None w w' n d); [|exact Hl|by split|].
  { intros e. cbn beta. unfold is_watch. by destruct (call_of e). }
  destruct H as (new & Hw & [H1 H2 H3] & Hc). exists new.
  split; [done|]. split; [|by intros ?]. split.
  - auto.
  - intros Ha Hwt. by destruct (E1 Ha (H1 Hwt)).
  - intros [Hst ->]%E2. by apply Hc.
Qed.

Definition accepting (a : Action) (o : option EventType) (s s' : World * SwapData) : Prop :=
  act_rel (may_call (base a)) s s' ∧ acceptance a o s s'.
Lemma Execute_accepting a s :
  wp (Execute a) (λ ev, accepting a (Some ev) s) (λ _, accepting a None s) s.
Proof.
  eapply wp_mono; [apply (Execute_spec_x acceptance Execute_acceptance)|..];
    intros ? ? (_ & ? & ?); by split.
Qed.

Lemma holds_moved n a o ev w sm w' d :
  next_state (sm_States sm) (sm_Current sm) ev = Some n →
  action_of (sm_States sm) n = Some a → moved_x accepting n a o w sm w' d →
  holds_at (Some ev) w sm → holds_at o w' (after n sm d).
Proof.
  intros Hn Ha [_ (w1 & Hl & Hrel & Hx)] H.
  eapply holds_action; [exact Ha|exact Hrel|exact Hx|].
  by eapply holds_enter.
Qed.

Lemma run_events_holds fuel ev w sm :
  holds_at (Some ev) w sm → wp (run_events fuel ev) holds_after any_stop (w, sm).
Proof.
  apply (run_events_rule_x accepting Execute_accepting (λ _ ev w sm, holds_at (Some ev) w sm)).
  - done.
  - intros f ev0 w0 sm0 H _. by eapply holds_none.
  - intros f ev0 w0 sm0 n H _ _. by eapply holds_none.
  - done.
  - intros f ev0 w0 sm0 n a w1 d ev' H Hn Ha Hm _.
    pose proof (holds_moved _ _ _ _ _ _ _ _ Hn Ha Hm H) as H1. split.
    + intros e w2 Hs. by eapply holds_none, holds_same.
    + intros w2 Hs. pose proof (holds_stored _ _ _ _ _ _ Hs H1) as H2. unfold continues.
      destruct ev'; try exact H2; try (by eapply holds_none).
      repeat case_match; [done|by eapply holds_none|exact H2].
Qed.

Lemma SendEvent_nil_holds ev w sm :
  holds_at (Some ev) w sm → wp (SendEvent_nil ev) holds_after any_stop (w, sm).
Proof.
  intros H. apply wp_SendEvent_nil.
  - intros _. by eapply holds_none.
  - intros _ e w' Hs. by eapply holds_none, holds_same.
  - intros _ w' Hs. by eapply run_events_holds, holds_stored.
Qed.

Definition is_request (m : PeerMessage) : bool :=
  match m with MsgSwapInRequest _ | MsgSwapOutRequest _ => true | _ => false end.

Lemma terms_apply m d d' :
  is_request m = false → ApplyToSwapData m d = Ok d' → terms_kept d d'.
Proof. destruct m; cbn; try done; repeat case_match; intros _ [= <-]; split; cbn; congruence. Qed.

Lemma SendEvent_holds ev ctx w sm :
  holds_at (Some ev) w sm →
  (∀ m, ctx = Some m → is_request m = true → sm_Current sm ∉ watching) →
  wp (SendEvent ev ctx) holds_after any_stop (w, sm).
Proof.
  intros H Hreq. apply wp_SendEvent.
  - intros _. by apply SendEvent_nil_holds.
  - intros _. by eapply holds_none.
  - intros _ _ _ _ _. apply SendEvent_nil_holds. by eapply holds_event, H.
  - intros. by eapply holds_none.
  - intros m d -> _ _ Hd. apply SendEvent_nil_holds. destruct (is_request m) eqn:Em.
    + specialize (Hreq m eq_refl Em). destruct H as (new & Hn & [H1 _ _] & _).
      exists new. assert ((sm_Current sm ∉ awaiting) ∧ (sm_Current sm ∉ paying_claim)) as [Ha Hpy].
      { split; intros Hin; apply Hreq, elem_of_app; [by left|]. right. apply elem_of_app. by left. }
      split; [done|]. split; [by split|]. by intros _ ?.
    + destruct H as (new & Hn & Hb & Hc). pose proof (terms_apply _ _ _ Em Hd) as Ht.
      assert (¬ watched []) as Hw by (by intros ?%Exists_nil). exists new. split; [done|].
      split; [by apply (bound_quiet (new ++ h) [] _ (sm_Data sm))|].
      intros Ho Hst. by apply (accepted_terms (new ++ h) [] (sm_Data sm)), Hc.
Qed.

Lemma Recover_holds w sm :
  holds_at None w sm → wp Recover holds_after any_stop (w, sm).
Proof.
  intros H. apply (wp_Recover_x accepting Execute_accepting).
  - done.
  - apply SendEvent_nil_holds. by eapply holds_event, H.
  - done.
  - intros a ev w1 d Ha _ _ [Hrel Hx].
    pose proof (holds_action _ _ _ _ _ _ _ _ _ Ha Hrel Hx H) as H1. split.
    + intros e w2 Hs. by eapply holds_none, holds_same.
    + intros w2 Hs. pose proof (holds_stored _ _ _ _ _ _ Hs H1) as H2.
      case_bool_decide; [by eapply holds_none|by apply SendEvent_nil_holds].
Qed.
End step.

(** ** Runs

    The confirmation is reported only for a watch the machine registered (the
    transaction watchers report nothing else), and the request that starts a swap
    is given to a new machine only (the service creates the machine for it). *)
Definition may_receive (h : History) (sm : SwapStateMachine) (ev : EventType)
    (ctx : option PeerMessage) : Prop :=
  (ev = Event_OnTxConfirmed → watched h) ∧
  (∀ m, ctx = Some m → is_request m = true → sm_Current sm = Default).

(** The run of a machine with its calls, newest first: such events, recoveries,
    and the assignments the service makes to the data, in any worlds. *)
Inductive confirmed_run {EV : Env} : SwapStateMachine → History → SwapStateMachine → Prop :=
  | confirmed_nil sm : confirmed_run sm [] sm
  | confirmed_event sm h sm1 ev ctx w w' sm2 r new :
      confirmed_run sm h sm1 → may_receive h sm1 ev ctx →
      SendEvent ev ctx (w, sm1) = Ret (w', sm2) r → hist w' = new ++ hist w →
      confirmed_run sm (new ++ h) sm2
  | confirmed_recover sm h sm1 w w' sm2 r new :
      confirmed_run sm h sm1 →
      Recover (w, sm1) = Ret (w', sm2) r → hist w' = new ++ hist w →
      confirmed_run sm (new ++ h) sm2
  | confirmed_assign sm h sm1 tx e c :
      confirmed_run sm h sm1 →
      confirmed_run sm h (sm1 <| sm_Data := sm_Data sm1 <| OpeningTxHex := tx |>
                                 <| LastErr := e |> <| toCancel := c |> |>).

Section runs.
Context {EV : Env}.

Lemma bound_start h sm w o :
  bound h (sm_Current sm) (sm_Data sm) → (o = Some Event_OnTxConfirmed → watched h) →
  holds_at h (hist w) o w sm.
Proof.
  intros Hb Ho. exists []. split; [done|]. split; [done|].
  intros E Hst. by apply (bound_await _ _ _ Hb), Ho.
Qed.

Lemma may_receive_request h sm ev ctx m :
  may_receive h sm ev ctx → ctx = Some m → is_request m = true → sm_Current sm ∉ watching.
Proof. intros [_ Hr] E Em. rewrite (Hr m E Em). by_eval. Qed.

Lemma holds_bound h w w' sm new :
  holds_at h (hist w) None w' sm → hist w' = new ++ hist w →
  bound (new ++ h) (sm_Current sm) (sm_Data sm).
Proof.
  intros (new' & E & Hb & _) E'. rewrite E in E'. by apply app_inv_tail in E' as <-.
Qed.

Lemma confirmed_run_bound sm h sm1 :
  sm_Current sm ∉ paying_claim → confirmed_run sm h sm1 →
  bound h (sm_Current sm1) (sm_Data sm1).
Proof.
  intros Hst. induction 1 as [sm|sm h sm1 ev ctx w w' sm2 r new _ IH [Hc Hr] Hs Hn
    |sm h sm1 w w' sm2 r new _ IH Hs Hn|sm h sm1 tx e c _ IH]; [|specialize (IH Hst)..].
  - assert (¬ watched []) by (by intros ?%Exists_nil). by split.
  - assert (holds_at h (hist w) (Some ev) w sm1) as H0
      by (apply bound_start; naive_solver).
    eapply holds_bound; [|exact Hn].
    refine (wp_elim _ _ _ _ _ _ (SendEvent_holds _ _ ev ctx w sm1 H0 _) Hs).
    intros m. by apply (may_receive_request h sm1 ev ctx).
  - assert (holds_at h (hist w) None w sm1) as H0 by (by apply bound_start).
    eapply holds_bound; [|exact Hn].
    exact (wp_elim _ _ _ _ _ _ (Recover_holds _ _ w sm1 H0) Hs).
  - assert (¬ watched []) by (by intros ?%Exists_nil).
    by apply (bound_quiet h [] _ (sm_Data sm1)).
Qed.

End runs.

(** ** Claim payments *)
Section payments.
Context {EV : Env}.

Definition is_claim (c : Call) : bool :=
  match c with RebalancePayment _ _ _ => true | _ => false end.

(** The action that awaits the confirmation reports it itself only for a swap that
    may not be paid. *)
Definition unpayable (d : SwapData) : Prop :=
  ∀ policy, getTimelockPolicy d = Ok policy → AllowNewClaimPayment policy = false.

Lemma confirming_action ty role st a ev :
  action_of (states_for ty role) st = Some a → st ∈ awaiting → ev ∈ [Event_OnTxConfirmed] →
  ∀ s s', acceptance a (Some ev) s s' → unpayable (snd s').
Proof.
  intros Ha Hst ->%list_elem_of_singleton s s' Hx policy Hp.
  destruct (action_cases ty role st a Ha) as [(_ & _ & Haw)|[(_ & Hna & _)|(Hna & _)]]; [|done..].
  destruct (Haw EV _ _ _ Hx) as (_ & _ & _ & Hc). by apply Hc.
Qed.

Lemma claim_calls w sm event ctx :
  (match SendEvent event ctx (w, sm) with
   | Ret (w', _) _ | Panic (w', _) | NoFuel (w', _) =>
       made_when (event_guard is_claim awaiting [Event_OnTxConfirmed] claim_guard sm event ctx (hist w))
         (hist w) (hist w')
   end) ∧
  (match Recover (w, sm) with
   | Ret (w', _) _ | Panic (w', _) | NoFuel (w', _) =>
       made_when (recover_guard is_claim paying_claim claim_guard sm (hist w)) (hist w) (hist w')
   end).
Proof.
  assert (∀ c, is_claim c = true → may_call NoOpAction c = false) as H1 by (by intros []).
  assert (∀ ty role st a c, action_of (states_for ty role) st = Some a → st ∉ paying_claim →
    may_call (base a) c = true → is_claim c = false) as H2.
  { intros ty role st a c Ha Hst Hc. destruct c; try done. apply bool_decide_eq_true in Hc.
    destruct (action_cases ty role st a Ha) as [(_ & Hb & _)|[(? & _)|(_ & _ & Hb)]]; [|done|].
    - by rewrite Hb in Hc.
    - set_solver. }
  assert (∀ ty role st a o s s', action_of (states_for ty role) st = Some a → st ∈ paying_claim →
    acceptance a o s s' → made_when (claim_guard (hist s.1) s.2) (hist s.1) (hist s'.1)) as H3.
  { intros ty role st a o s s' Ha Hst Hx.
    destruct (action_cases ty role st a Ha) as [(Hst' & _)|[(_ & _ & ->)|(_ & ? & _)]]; [|apply Hx|done].
    exfalso. revert Hst Hst'. clear. by destruct st; by_eval. }
  assert (∀ ty role st ev n, next_state (states_for ty role) st ev = Some n → n ∈ paying_claim →
    st ∈ awaiting ∧ ev ∈ [Event_OnTxConfirmed]) as H4.
  { intros ty role st ev n Hn Hc. destruct (entry_cases _ _ _ _ _ Hn) as (_ & He & _).
    destruct (He Hc) as [? ->]. by split; [|left]. }
  assert (Forall (λ ev, ev ∉ [Event_OnTxConfirmed]) [Event_OnInvalid_Message; Event_ActionFailed])
    as H5 by by_eval.
  assert (∀ n d h e pre, unpayable d → claim_guard h (SetState n d) e pre →
    is_claim (call_of e) = false) as H6.
  { intros n d h e pre Hu. unfold claim_guard. destruct (call_of e); try done.
    intros (ch & policy & ? & ? & ? & ? & _ & Hp & Hallow & _).
    change (getTimelockPolicy d = Ok policy) in Hp. by rewrite (Hu policy Hp) in Hallow. }
  assert (∀ ty role st a ev (s s' : World * SwapData), action_of (states_for ty role) st = Some a →
    ev ∈ events_of a → st ∈ awaiting → ev ∈ [Event_OnTxConfirmed] →
    acceptance a (Some ev) s s' → unpayable (snd s')) as H7.
  { intros ty role st a ev s s' Ha _ Hst Hev. by eapply confirming_action. }
  split.
  - by apply (SendEvent_first is_claim paying_claim awaiting [Event_OnTxConfirmed] claim_guard
      unpayable acceptance Execute_acceptance H1 H2 H3 H4 H5 H7 H6).
  - by apply (Recover_first is_claim paying_claim awaiting [Event_OnTxConfirmed] claim_guard
      unpayable acceptance Execute_acceptance H1 H2 H3 H4 H5 H7 H6).
Qed.

(** A claim payment of a step that begins with an event. *)
Definition event_claim (sm : SwapStateMachine) (event : EventType) (ctx : option PeerMessage)
    (h0 : History) (e : Entry) (pre : History) : Prop :=
  match call_of e with
  | RebalancePayment payreq scid delta =>
      sm_Current sm ∈ awaiting ∧ event = Event_OnTxConfirmed ∧
      payment_in_order h0 (received ctx (sm_Data sm)) payreq scid delta pre
  | _ => True
  end.
(** One of a recovery. *)
Definition recover_claim (sm : SwapStateMachine) (h0 : History) (e : Entry) (pre : History) : Prop :=
  match call_of e with
  | RebalancePayment payreq scid delta =>
      sm_Current sm ∈ paying_claim ∧ payment_in_order h0 (sm_Data sm) payreq scid delta pre
  | _ => True
  end.

Lemma in_order_earlier h0 h d payreq scid delta pre :
  suffix h0 h → payment_in_order h d payreq scid delta pre →
  payment_in_order h0 d payreq scid delta pre.
Proof.
  intros [new0 ->] (ch & policy & params & msg & now & new & H1 & H2 & H3 & H4 & H5 & H6 & H7
    & -> & H8 & H9 & H10).
  exists ch, policy, params, msg, now, (new ++ new0). rewrite (assoc_L (++)).
  split_and!; try done. apply elem_of_app. by left.
Qed.

Lemma event_claim_made sm event ctx h0 e pre :
  event_guard is_claim awaiting [Event_OnTxConfirmed] claim_guard sm event ctx h0 e pre →
  event_claim sm event ctx h0 e pre.
Proof.
  unfold event_guard, claim_guard, event_claim. destruct (call_of e); try done.
  intros H. destruct (H eq_refl) as (Hst & ->%list_elem_of_singleton & h & n & Hh & Hord).
  split; [done|]. split; [done|]. by eapply in_order_earlier.
Qed.
Lemma recover_claim_made sm h0 e pre :
  recover_guard is_claim paying_claim claim_guard sm h0 e pre → recover_claim sm h0 e pre.
Proof.
  unfold recover_guard, claim_guard, recover_claim. destruct (call_of e); try done.
  intros H. by apply H.
Qed.

Lemma claims_in_order w sm event ctx :
  (match SendEvent event ctx (w, sm) with
   | Ret (w', _) _ | Panic (w', _) | NoFuel (w', _) =>
       made_when (event_claim sm event ctx (hist w)) (hist w) (hist w')
   end) ∧
  (match Recover (w, sm) with
   | Ret (w', _) _ | Panic (w', _) | NoFuel (w', _) =>
       made_when (recover_claim sm (hist w)) (hist w) (hist w')
   end).
Proof.
  destruct (claim_calls w sm event ctx) as [H1 H2]. split.
  - destruct (SendEvent _ _ _) as [[]|[]|[]]; (eapply made_when_mono; [|exact H1]);
      apply event_claim_made.
  - destruct (Recover _) as [[]|[]|[]]; (eapply made_when_mono; [|exact H2]);
      apply recover_claim_made.
Qed.

(** ** Over a run *)

(** A claim payment in a step with the data [d], in a run with the calls [h], when
    the step starts with the history [hw] of the world. *)
Definition atomic_payment (d : SwapData) (h hw : History) (e : Entry) (pre : History) : Prop :=
  match call_of e with
  | RebalancePayment payreq scid delta =>
      ∃ ch policy inv params,
        payment_in_order hw d payreq scid delta pre ∧
        getOnChainServices (GetChain d) = Ok ch ∧ getTimelockPolicy d = Ok policy ∧
        entry (DecodePayreq payreq) (Ok inv) ∈ h ∧
        check_claim_invoice ch d policy inv payreq = Some None ∧
        GetOpeningParams d = Some params ∧
        entry (ValidateTx ch params (OpeningTxHex d)) (Ok true) ∈ pre ∧
        (dp_paymentHash inv ≠ "" → op_ClaimPaymentHash params = dp_paymentHash inv)
  | _ => True
  end.

Lemma opening_params_hash d params :
  GetOpeningParams d = Some params → op_ClaimPaymentHash params = GetPaymentHash d.
Proof. by intros (amount & _ & [= <-])%bind_Some. Qed.

Lemma accepted_atomic d h hw e pre payreq scid delta :
  call_of e = RebalancePayment payreq scid delta →
  payment_in_order hw d payreq scid delta pre → accepted h d → atomic_payment d h hw e pre.
Proof.
  intros Hcall Hord Hacc. unfold atomic_payment. rewrite Hcall.
  pose proof Hord as (ch & policy & params & msg & now & new & Hch & Hpol & Hallow & _ & _ & Hm & ->
    & -> & _ & Hpar & Hval).
  destruct (Hacc policy Hpol Hallow) as
    (ch' & policy' & msg' & inv & Hch' & Hpol' & Hm' & Hdec & Hinv & Hhash).
  assert (ch' = ch) as -> by congruence. assert (policy' = policy) as -> by congruence.
  assert (msg' = msg) as -> by congruence. exists ch, policy, inv, params. split_and!; try done.
  - right. apply elem_of_app. by left.
  - intros Hne. rewrite (opening_params_hash d params Hpar). unfold GetPaymentHash.
    rewrite Hhash. by rewrite bool_decide_true.
Qed.

(** The message of an event leaves the terms of a swap that was started alone. *)
Lemma received_terms ctx d :
  (∀ m, ctx = Some m → is_request m = false) → terms_kept d (received ctx d).
Proof.
  intros Hreq. unfold received. destruct ctx as [m|]; [|apply terms_refl].
  destruct (Validate m d); [apply terms_refl|].
  destruct (ApplyToSwapData m d) eqn:E; [|apply terms_refl]. by eapply terms_apply; [apply Hreq|].
Qed.

(** Every claim payment of a step in such a run is of an accepted invoice. *)
Lemma run_pays_accepted sm h sm1 w ev ctx :
  sm_Current sm ∉ paying_claim → confirmed_run sm h sm1 → may_receive h sm1 ev ctx →
  (match SendEvent ev ctx (w, sm1) with
   | Ret (w', _) _ | Panic (w', _) | NoFuel (w', _) =>
       made_when (atomic_payment (received ctx (sm_Data sm1)) h (hist w)) (hist w) (hist w')
   end) ∧
  (match Recover (w, sm1) with
   | Ret (w', _) _ | Panic (w', _) | NoFuel (w', _) =>
       made_when (atomic_payment (sm_Data sm1) h (hist w)) (hist w) (hist w')
   end).
Proof.
  intros Hst Hrun [Hc Hr]. pose proof (confirmed_run_bound _ _ _ Hst Hrun) as Hb.
  destruct (claims_in_order w sm1 ev ctx) as [Hs Hrec].
  assert (∀ e pre, event_claim sm1 ev ctx (hist w) e pre →
    atomic_payment (received ctx (sm_Data sm1)) h (hist w) e pre) as H1.
  { intros e pre. unfold event_claim. destruct (call_of e) eqn:Ee;
      try (unfold atomic_payment; by rewrite Ee).
    intros (Hcur & -> & Hord). eapply accepted_atomic; [exact Ee|exact Hord|].
    apply (accepted_terms h [] (sm_Data sm1)).
    - apply received_terms. intros m Hm. destruct (is_request m) eqn:Em; [|done].
      rewrite (Hr m Hm Em) in Hcur. revert Hcur. clear. by_eval.
    - apply (bound_await _ _ _ Hb Hcur). by apply Hc. }
  assert (∀ e pre, recover_claim sm1 (hist w) e pre →
    atomic_payment (sm_Data sm1) h (hist w) e pre) as H2.
  { intros e pre. unfold recover_claim. destruct (call_of e) eqn:Ee;
      try (unfold atomic_payment; by rewrite Ee).
    intros [Hcur Hord]. eapply accepted_atomic; [exact Ee|exact Hord|].
    by apply (bound_pay _ _ _ Hb). }
  split.
  - destruct (SendEvent _ _ _) as [[]|[]|[]]; by (eapply made_when_mono; [|exact Hs]).
  - destruct (Recover _) as [[]|[]|[]]; by (eapply made_when_mono; [|exact Hrec]).
Qed.
End payments.

(** C1. The claim invoice is paid only when it is safe: whatever event, message or
    recovery a machine is given and whatever the services answer, it pays a claim
    invoice only when it awaits the confirmation of the opening transaction and is
    told of it, or when it recovers in the paying state; and every payment is in
    order for the data the machine has at that moment: the recorded invoice is
    paid over the swap's own channel with the total CLTV limit of its policy,
    directly after the block height was read and found inside the payment window
    of the swap's own starting height, and after the validator accepted, in the
    same step, the opening transaction for the swap's own parameters; a legacy
    Liquid swap is never paid. *)
Theorem claim_payment_guarded {EV : Env} w sm event ctx :
  (match SendEvent event ctx (w, sm) with
   | Ret (w', _) _ | Panic (w', _) | NoFuel (w', _) =>
       made_when (event_claim sm event ctx (hist w)) (hist w) (hist w')
   end) ∧
  (match Recover (w, sm) with
   | Ret (w', _) _ | Panic (w', _) | NoFuel (w', _) =>
       made_when (recover_claim sm (hist w)) (hist w) (hist w')
   end).
Proof. apply claims_in_order. Qed.

(** C2. The swap is atomic for the taker: over any run of a machine in which a
    confirmation is reported only for a watch it registered, every payment of a
    claim invoice, in whatever step it is made, is of an invoice the machine
    decoded earlier in the run and accepted for the swap as it is at the payment;
    and the opening transaction validated before the payment is locked to the
    payment hash of that very invoice, so that the preimage the payment buys
    spends the output. *)
Theorem paid_invoice_unlocks_output {EV : Env} sm h sm1 w ev ctx :
  sm_Current sm ∉ paying_claim → confirmed_run sm h sm1 → may_receive h sm1 ev ctx →
  (match SendEvent ev ctx (w, sm1) with
   | Ret (w', _) _ | Panic (w', _) | NoFuel (w', _) =>
       made_when (atomic_payment (received ctx (sm_Data sm1)) h (hist w)) (hist w) (hist w')
   end) ∧
  (match Recover (w, sm1) with
   | Ret (w', _) _ | Panic (w', _) | NoFuel (w', _) =>
       made_when (atomic_payment (sm_Data sm1) h (hist w)) (hist w) (hist w')
   end).
Proof. apply run_pays_accepted. Qed.
