(* ===== verification/Requests.v ===== *)
(** * Accepting requests

    The checks of an incoming request ([CheckRequestWrapperAction]) against a
    table of rules, and what the CSV refund means for later requests of the same
    peer. *)

From S2P Require Import Prelude GoLib Messages Premium Policy SwapData Timelock Env Demo Store.
From S2P Require Import Actions ActionProofs Fsm FsmProofs Payments.

(** ** The rules, in order

    A rule that applies rejects with a message for the peer and an error; the
    rule of the chain has no message of its own and is not recorded. *)
Record Rejection := mkRejection {
  rej_message : option string;
  rej_error : error;
}.

Definition rejection (msg : string) : Rejection := mkRejection (Some msg) (ErrText msg).

Definition not_allowed (peer : string) : string :=
  "peer " +:+ peer +:+ " not allowed to request swaps".

(** [wallet_asset] and [wallet_network] are what the chain's wallet answers. *)
Definition request_rules `{!Env} (pol : Policy) (wallet_asset wallet_network : string)
    (s : SwapData) : list (bool * Rejection) :=
  [ (negb (NewSwapsAllowed pol), rejection "swaps are disabled");
    (bool_decide (GetChain s = l_btc_chain) && negb liquidEnabled,
     rejection "lbtc swaps are not supported");
    (bool_decide (GetChain s = btc_chain) && negb bitcoinEnabled,
     rejection "btc swaps are not supported");
    (negb (GetProtocolVersion s =? PEERSWAP_PROTOCOL_VERSION),
     rejection "incompatible peerswap version");
    (u64 (GetAmount s * 1000) <? GetMinSwapAmountMsat pol,
     rejection (Error (ErrMinimumSwapSize (GetMinSwapAmountMsat pol))));
    (bool_decide (GetChain s = ""), mkRejection None (ErrText "missing asset"));
    (bool_decide (GetAsset s ≠ "" ∧ GetAsset s ≠ wallet_asset),
     rejection ("invalid liquid asset " +:+ GetAsset s));
    (bool_decide (GetNetwork s ≠ "" ∧ GetNetwork s ≠ wallet_network),
     rejection ("invalid bitcoin network " +:+ GetNetwork s));
    (negb (IsPeerAllowed pol (PeerNodeId s)),
     mkRejection (Some (not_allowed (PeerNodeId s))) (PeerNotAllowedError (PeerNodeId s)));
    (IsPeerSuspicious pol (PeerNodeId s),
     mkRejection (Some (not_allowed (PeerNodeId s))) (PeerIsSuspiciousError (PeerNodeId s))) ].

Definition first_rejection (rules : list (bool * Rejection)) : option Rejection :=
  snd <$> head (filter (λ r, fst r = true) rules).

(** What the wallet of the swap's chain answers in a world. *)
Definition wallet_ids `{!Env} (w : World) (s : SwapData) : string * string :=
  let ch := if bool_decide (GetChain s = l_btc_chain) then Liquid else Bitcoin in
  (ask (hist w) (GetWalletAsset ch), ask (hist w) (GetWalletNetwork ch)).

Definition verdict `{!Env} (w : World) (s : SwapData) : option Rejection :=
  first_rejection
    (request_rules (conf (policy w)) (fst (wallet_ids w s)) (snd (wallet_ids w s)) s).

(** The record of a rejection in the requested-swaps store. *)
Definition rejection_record (s : SwapData) (msg : string) : RequestedSwap :=
  mkRequestedSwap (GetChain s) (GetAmount s) (GetType s) msg.

Definition with_record (s : SwapData) (msg : string) (m : gmap string (list RequestedSwap))
    : gmap string (list RequestedSwap) :=
  <[PeerNodeId s := default [] (m !! PeerNodeId s) ++ [rejection_record s msg]]> m.

(** Putting a record of the peer [id] in the store, with the calls [new], newest first:
    it is put, in one transaction, or the database refused one of the calls, after
    which there is none, and the store is as it was. *)
Inductive recording (id : string) (m m' : gmap string (list RequestedSwap))
    : History → gmap string (list RequestedSwap) → Prop :=
  | recorded_put :
      recording id m m' [entry DbCommit None; entry (DbPut id) None; entry (DbBegin true) None] m'
  | begin_refused e :
      recording id m m' [entry (DbBegin true) (Some e)] m
  | put_refused e :
      recording id m m' [entry (DbPut id) (Some e); entry (DbBegin true) None] m
  | commit_refused e :
      recording id m m' [entry DbCommit (Some e); entry (DbPut id) None; entry (DbBegin true) None] m.

Definition is_wallet_query (c : Call) : bool :=
  match c with GetWalletAsset _ | GetWalletNetwork _ => true | _ => false end.

(** ** The checks follow the rules *)
Lemma first_rejection_cons b r rules :
  first_rejection ((b, r) :: rules) = if b then Some r else first_rejection rules.
Proof. unfold first_rejection. rewrite filter_cons. by destruct b. Qed.

Lemma GetChain_cases s :
  (GetChain s = l_btc_chain ∧ GetAsset s ≠ "" ∧ GetNetwork s = "") ∨
  (GetChain s = btc_chain ∧ GetAsset s = "" ∧ GetNetwork s ≠ "") ∨ GetChain s = "".
Proof. unfold GetChain. repeat case_bool_decide; tauto. Qed.

Section checks.
Context {EV : Env}.

(** The outcome of a rejected request: the swap fails with the error and the message of
    the rejection, which is recorded for the peer as the last thing that is done. *)
Definition rejected (w : World) (d : SwapData) (rej : Rejection)
    (o : outcome (World * SwapData) EventType) : Prop :=
  match o with
  | Ret (w', d') ev =>
      ev = Event_ActionFailed ∧ LastErr d' = Some (rej_error rej) ∧
      match rej_message rej with
      | Some msg =>
          CancelMessage d' = msg ∧
          ∃ queries new, hist w' = new ++ queries ++ hist w ∧
            forallb (λ e, is_wallet_query (call_of e)) queries = true ∧
            recording (PeerNodeId d) (requested w) (with_record d msg (requested w)) new (requested w')
      | None => hist w' = hist w ∧ requested w' = requested w
      end ∧
      policy w' = policy w ∧ swaps w' = swaps w ∧ senders w' = senders w
  | _ => False
  end.

(** The world but for the record of calls and the requested swaps. *)
Definition same_but_requested (w w' : World) : Prop :=
  policy w' = policy w ∧ swaps w' = swaps w ∧ senders w' = senders w.

Lemma wp_requested_Add id r w (d : SwapData) (Q : option error → World * SwapData → Prop) R :
  (∀ o new w', same_but_requested w w' → hist w' = new ++ hist w →
     recording id (requested w) (<[id := default [] (requested w !! id) ++ [r]]> (requested w))
       new (requested w') → Q o (w', d)) →
  wp (requested_Add id r) Q R (w, d).
Proof.
  intros HQ. unfold requested_Add. do 2 svc_step.
  destruct (ask _ (DbBegin true)) as [e|] eqn:E1.
  { eapply wp_ret, (HQ _ [_]); [done|done|]. rewrite E1. constructor. }
  do 4 svc_step. destruct (ask _ (DbPut id)) as [e|] eqn:E2.
  { eapply wp_ret, (HQ _ [_; _]); [done|done|]. rewrite E2, E1. constructor. }
  do 2 svc_step. destruct (ask _ DbCommit) as [e|] eqn:E3.
  { eapply wp_ret, (HQ _ [_; _; _]); [done|done|]. rewrite E3, E2, E1. constructor. }
  do 2 svc_step. eapply wp_ret, (HQ _ [_; _; _]); [done|done|].
  rewrite E3, E2, E1. cbn. destruct (requested w !! id); constructor.
Qed.

(** The world after queries of the wallet. *)
Definition after_queries (w w0 : World) : Prop :=
  same_but_requested w w0 ∧ requested w0 = requested w ∧
  ∃ queries, hist w0 = queries ++ hist w ∧ forallb (λ e, is_wallet_query (call_of e)) queries = true.
Lemma no_queries w : after_queries w w.
Proof. split; [by repeat split|]. split; [done|]. by exists []. Qed.

(** The end of a rejection, with the message already set. *)
Lemma wp_record_and_fail w d d1 w0 err :
  CancelMessage d1 ≠ "" → data_kept d d1 → after_queries w w0 →
  wp (add_rejection;; fail_with err)
    (λ ev s', rejected w d (mkRejection (Some (CancelMessage d1)) err) (Ret s' ev))
    no_stop (w0, d1).
Proof.
  intros Hmsg Hk ((W1 & W2 & W3) & Hr & queries & Hq & Hall). unfold add_rejection. do 4 svc_step.
  apply wp_requested_Add. intros o new w1 (P1 & P2 & P3) Hn P4. apply wp_ret.
  unfold fail_with, handle. do 2 svc_step.
  destruct (kept_getters d d1 Hk) as (K1 & _ & K2 & K3 & _).
  rewrite K1, K2, K3, Hr, (kept_PeerNodeId _ _ Hk) in P4.
  unfold HandleError. rewrite bool_decide_false by done. do 2 svc_step. apply wp_ret.
  split; [done|]. split; [done|]. cbn [rej_message]. split.
  - split; [done|]. exists queries, new. by rewrite Hn, Hq.
  - split_and!; congruence.
Qed.

Lemma reject_run w d d0 w0 msg err :
  msg ≠ "" → data_kept d d0 → after_queries w w0 →
  rejected w d (mkRejection (Some msg) err) (reject msg err (w0, d0)).
Proof.
  intros Hmsg Hk Hw.
  assert (data_kept d (d0 <| CancelMessage := msg |>)) as Hk'.
  { eapply data_kept_trans; [exact Hk|by split]. }
  pose proof (wp_record_and_fail w d _ w0 err (Hmsg : CancelMessage
    (d0 <| CancelMessage := msg |>) ≠ "") Hk' Hw) as H.
  change (reject msg err (w0, d0)) with
    ((add_rejection;; fail_with err) (w0, d0 <| CancelMessage := msg |>)).
  unfold wp in H.
  destruct ((add_rejection;; fail_with err) (w0, _)); [exact H|destruct H|destruct H].
Qed.

Lemma reject_unsupported_run w d msg :
  msg ≠ "" → rejected w d (rejection msg) (reject_unsupported msg (w, d)).
Proof.
  intros Hmsg. apply (reject_run w d (d <| LastErr := Some (ErrText msg) |>) w msg).
  - exact Hmsg.
  - by split.
  - apply no_queries.
Qed.
Lemma reject_after w w0 d msg err :
  msg ≠ "" → after_queries w w0 →
  rejected w d (mkRejection (Some msg) err) (reject msg err (w0, d)).
Proof. intros. apply reject_run; [done|apply data_kept_refl|done..]. Qed.
Lemma reject_now w d msg err :
  msg ≠ "" → rejected w d (mkRejection (Some msg) err) (reject msg err (w, d)).
Proof. intros. apply reject_after; [done|apply no_queries]. Qed.
End checks.

Lemma with_chain_Ok {EV : Env} k w d ch :
  getOnChainServices (GetChain d) = Ok ch → with_chain k (w, d) = k ch (w, d).
Proof. intros H. unfold with_chain, mbind, M_bind. cbn [getl gets snd]. by rewrite H. Qed.
Lemma with_chain_Err {EV : Env} k w d e :
  getOnChainServices (GetChain d) = Err e → with_chain k (w, d) = fail_with e (w, d).
Proof. intros H. unfold with_chain, mbind, M_bind. cbn [getl gets snd]. by rewrite H. Qed.

Lemma after_query {EV : Env} c w : is_wallet_query c = true → after_queries w (record c w).
Proof. intros Hc. split; [by repeat split|]. split; [done|]. eexists [_]. split; [done|]. cbn. by rewrite Hc. Qed.

Lemma request_rules_answer {EV : Env} w d next :
  match verdict w d with
  | Some rej => rejected w d rej (Execute (CheckRequestWrapperAction next) (w, d))
  | None =>
      ∃ c, (c = GetWalletAsset Liquid ∨ c = GetWalletNetwork Bitcoin) ∧
        Execute (CheckRequestWrapperAction next) (w, d) = Execute next (record c w, d)
  end.
Proof.
  cbn [Execute]. generalize (Execute next). clear next. intros next.
  unfold verdict, request_rules. unfold check_request, mbind, M_bind. cbn [getw gets fst].
  unfold compose. cbn [fst].
  rewrite first_rejection_cons. destruct (negb (NewSwapsAllowed _));
    [by apply reject_unsupported_run|]. cbn [getl gets snd].
  rewrite first_rejection_cons.
  destruct (bool_decide (GetChain d = l_btc_chain) && _); [by apply reject_unsupported_run|].
  rewrite first_rejection_cons.
  destruct (bool_decide (GetChain d = btc_chain) && _); [by apply reject_unsupported_run|].
  rewrite first_rejection_cons.
  destruct (negb (GetProtocolVersion d =? _)); [by apply reject_now|].
  rewrite first_rejection_cons.
  destruct (u64 (GetAmount d * 1000) <? _); [by apply reject_now|].
  rewrite first_rejection_cons. unfold wallet_ids.
  destruct (GetChain_cases d) as [(E & Ha & Hn)|[(E & Ha & Hn)|E]].
  - rewrite (with_chain_Ok _ _ _ Liquid) by (by rewrite E).
    rewrite (bool_decide_false (GetChain d = "")) by (by rewrite E).
    rewrite (bool_decide_true (GetChain d = l_btc_chain)) by done.
    rewrite (bool_decide_true (GetAsset d ≠ "")) by done.
    rewrite (bool_decide_false (GetNetwork d ≠ "")) by (by intros []).
    cbn [fst snd call].
    rewrite first_rejection_cons.
    destruct (bool_decide (GetAsset d ≠ "" ∧ _)); [by apply reject_after; [|apply after_query]|].
    rewrite first_rejection_cons.
    rewrite !(bool_decide_false (GetNetwork d ≠ "" ∧ _)) by (by intros [[] _]).
    cbn [mret M_ret]. rewrite (bool_decide_false (GetNetwork d ≠ "" ∧ _)) by (by intros [[] _]).
    rewrite first_rejection_cons.
    destruct (negb (IsPeerAllowed _ _)); [by apply reject_after; [|apply after_query]|].
    rewrite first_rejection_cons.
    destruct (IsPeerSuspicious _ _); [by apply reject_after; [|apply after_query]|].
    cbn. eauto.
  - rewrite (with_chain_Ok _ _ _ Bitcoin) by (by rewrite E).
    rewrite (bool_decide_false (GetChain d = "")) by (by rewrite E).
    rewrite (bool_decide_false (GetChain d = l_btc_chain)) by (by rewrite E).
    rewrite (bool_decide_false (GetAsset d ≠ "")) by (by intros []).
    rewrite (bool_decide_true (GetNetwork d ≠ "")) by done.
    cbn [fst snd call mret M_ret].
    rewrite first_rejection_cons.
    rewrite !(bool_decide_false (GetAsset d ≠ "" ∧ _)) by (by intros [[] _]).
    rewrite first_rejection_cons. cbn [call].
    destruct (bool_decide (GetNetwork d ≠ "" ∧ _)); [by apply reject_after; [|apply after_query]|].
    rewrite first_rejection_cons.
    destruct (negb (IsPeerAllowed _ _)); [by apply reject_after; [|apply after_query]|].
    rewrite first_rejection_cons.
    destruct (IsPeerSuspicious _ _); [by apply reject_after; [|apply after_query]|].
    cbn. eauto.
  - rewrite (with_chain_Err _ _ _ (ErrText "missing asset")) by (by rewrite E).
    rewrite (bool_decide_true (GetChain d = "")) by done.
    unfold fail_with, handle, mbind, M_bind. cbn [getl gets snd HandleError setl modify mret M_ret].
    by repeat split; case_bool_decide.
Qed.

(** C23. A request is answered by the rules: the request checks reject exactly
    when a rule of the table applies (swaps disabled, chain not enabled, wrong
    version, amount below the minimum, no chain, foreign asset or network, peer
    not allowed, peer suspicious, in this order); then the swap fails with the
    rule's error and message, and the last thing done is to put the rejection in
    the store of requested swaps, appended to those of the peer, in one
    transaction; only if the database refuses a call of it is the store left as it
    was; otherwise the wrapped action runs, on the swap as it was, after nothing
    but a query of the wallet. *)
Theorem request_answered_by_rules {EV : Env} w d next :
  match verdict w d with
  | Some rej => rejected w d rej (Execute (CheckRequestWrapperAction next) (w, d))
  | None =>
      ∃ c, (c = GetWalletAsset Liquid ∨ c = GetWalletNetwork Bitcoin) ∧
        Execute (CheckRequestWrapperAction next) (w, d) = Execute next (record c w, d)
  end.
Proof. apply request_rules_answer. Qed.

(** ** After a CSV refund *)
Lemma suspicious_rejected {EV : Env} w d :
  IsPeerSuspicious (conf (policy w)) (PeerNodeId d) = true → is_Some (verdict w d).
Proof.
  intros Hs. unfold verdict, request_rules, first_rejection. rewrite Hs.
  match goal with |- context [filter ?P ?l] => assert (filter P l ≠ []) as Hne end.
  { intros E. eapply (filter_nil_not_elem_of _ _ (true, _)) in E; [|done].
    apply E. do 9 right. left. }
  by destruct (filter _ _); [|eexists].
Qed.

(** A CSV refund bars the peer: when the maker had to take its opening
    output back by CSV, the last action marks the peer as suspicious in the
    policy, in memory and in the file (given a working file and a parser that
    reads what was written); and under that policy every later swap request of
    the peer, whatever it asks for, is rejected. *)
Theorem csv_refund_bars_peer {EV : Env} w d io :
  ask (hist w) PolicyFile = io → IniParser io → io_no_errors io →
  synced io (policy w) → line_terminated (file (policy w)) →
  isValidPubkey (PeerNodeId d) = None →
  PeerNodeId d ∉ SuspiciousPeerList (conf (policy w)) →
  ∃ w', Execute (AddSuspiciousPeerAction NoOpDoneAction) (w, d) = Ret (w', d) Event_Done ∧
    IsPeerSuspicious (conf (policy w')) (PeerNodeId d) = true ∧ synced io (policy w') ∧
    ∀ w2 d2 next, policy w2 = policy w' → PeerNodeId d2 = PeerNodeId d →
      ∃ rej, rejected w2 d2 rej (Execute (CheckRequestWrapperAction next) (w2, d2)).
Proof.
  intros Hio Hini Hok Hsync Hterm Hpk Hnew.
  destruct (mark_suspicious_spec io (PeerNodeId d) (policy w) Hok Hsync Hterm Hpk Hnew)
    as (st' & Hadd & Hsync' & _ & Hsus & _).
  assert (IsPeerSuspicious (conf st') (PeerNodeId d) = true) as Hbad.
  { rewrite Hsus, bool_decide_true by done. done. }
  eexists. split; [|split; [|split]].
  - cbn [Execute]. unfold exec_AddSuspiciousPeer, exec_NoOpDone, remove_sender, mbind, M_bind.
    cbn [getl gets snd call setw modify mret M_ret]. reflexivity.
  - cbn. by rewrite Hio, Hadd.
  - cbn. by rewrite Hio, Hadd.
  - cbn. rewrite Hio, Hadd. cbn [fst]. intros w2 d2 next Hpol Hpeer.
    assert (is_Some (verdict w2 d2)) as [rej Hrej].
    { apply suspicious_rejected. by rewrite Hpol, Hpeer. }
    exists rej. pose proof (request_rules_answer w2 d2 next) as H. by rewrite Hrej in H.
Qed.
