(* ===== verification/Service.v ===== *)
(** * The swap service (src/swap/service.go)

    [SwapService] keeps the active swaps by id and the last message type logged
    per swap.  Its methods create machines, route peer messages, payments,
    confirmations and timeouts to them, and recover stored swaps.  A method runs
    to its end before the next starts; [machine_run] (Safety) is the view of one
    machine while others run. *)

From S2P Require Import Prelude GoLib Messages Premium Policy SwapData Timelock Env Store.
From S2P Require Import Actions Fsm.

Record SwapService := mkService {
  activeSwaps : gmap string SwapStateMachine;
  lastMsgLog : gmap string string;
}.

#[export] Instance SwapService_eta : Eta SwapService := λ s,
  mkService (activeSwaps s) (lastMsgLog s).

Definition NewSwapService : SwapService := mkService ∅ ∅.

Definition ErrSwapDoesNotExist : error :=
  ErrSentinel "swap.ErrSwapDoesNotExist" "swap does not exist".
Definition ActiveSwapError (channelId swapId : string) : error :=
  ErrTyped "swap.ActiveSwapError"
    ("already has an active swap on channel " +:+ channelId +:+ ": " +:+ swapId).
Definition ErrReceivedMessageFromUnexpectedPeer (peerId : string) (swapId : option SwapId)
    : error :=
  ErrText ("received a message from an unexpected peer, peerId: " +:+ peerId +:+
           ", swapId: " +:+ SwapId_String swapId).

(** The active swap on a channel, as the loop of [lockSwap] finds it. *)
Definition active_on (channelId : string) (m : gmap string SwapStateMachine) : option string :=
  fst <$> head (filter (λ kv, GetScid (sm_Data (snd kv)) = channelId) (map_to_list m)).

Section service.
Context `{!Env}.
Abbreviation Srv := (Svc SwapService).

Definition GetActiveSwap (swapId : string) : Srv (result SwapStateMachine) :=
  s ← getl;
  match activeSwaps s !! swapId with
  | Some swap => mret (Ok swap)
  | None => mret (Err ErrSwapDoesNotExist)
  end.

Definition RemoveActiveSwap (swapId : string) : Srv () :=
  setl (λ s, mkService (delete swapId (activeSwaps s)) (delete swapId (lastMsgLog s))).

Definition lockSwap (swapId channelId : string) (fsm : SwapStateMachine)
    : Srv (option error) :=
  s ← getl;
  match active_on channelId (activeSwaps s) with
  | Some id => mret (Some (ActiveSwapError channelId id))
  | None =>
      setl (λ s, s <| activeSwaps := <[swapId := fsm]> (activeSwaps s) |>);;
      mret None
  end.

(** Run a method of the machine that the map holds under [key]; the map holds a
    pointer, so the entry is the machine as the method leaves it. *)
Definition on_machine {A} (key : string) (sm : SwapStateMachine)
    (m : Svc SwapStateMachine A) : Srv A :=
  zoom (λ _, sm) (λ sm' s, s <| activeSwaps := <[key := sm']> (activeSwaps s) |>) m.

(** [if done { s.RemoveActiveSwap(swap.SwapId.String()) }]. *)
Definition remove_if (done : bool) (sm : SwapStateMachine) : Srv () :=
  if done then RemoveActiveSwap (SwapId_String (sm_SwapId sm)) else mret ().

(** The body the event handlers share. *)
Definition deliver (swapId : string) (event : EventType) (ctx : option PeerMessage)
    : Srv (option error) :=
  let? swap := GetActiveSwap swapId else e => mret (Some e) in
  r ← on_machine swapId swap (SendEvent event ctx);
  match r with
  | (_, Some e) => mret (Some e)
  | (done, None) => remove_if done swap;; mret None
  end.

Definition OnSwapInAgreementReceived (msg : SwapInAgreementMessage.t) : Srv (option error) :=
  deliver (SwapId_String (SwapInAgreementMessage.SwapId msg))
    Event_SwapInSender_OnAgreementReceived (Some (MsgSwapInAgreement msg)).
Definition OnSwapOutAgreementReceived (message : SwapOutAgreementMessage.t)
    : Srv (option error) :=
  deliver (SwapId_String (SwapOutAgreementMessage.SwapId message))
    Event_OnFeeInvoiceReceived (Some (MsgSwapOutAgreement message)).
Definition OnFeeInvoiceNotification (swapId : SwapId) : Srv (option error) :=
  deliver (SwapId_String (Some swapId)) Event_OnFeeInvoicePaid None.
Definition OnClaimInvoiceNotification (swapId : SwapId) : Srv (option error) :=
  deliver (SwapId_String (Some swapId)) Event_OnClaimInvoicePaid None.
Definition OnTxOpenedMessage (message : OpeningTxBroadcastedMessage.t)
    : Srv (option error) :=
  deliver (SwapId_String (OpeningTxBroadcastedMessage.SwapId message))
    Event_OnTxOpenedMessage (Some (MsgOpeningTxBroadcasted message)).
Definition OnCancelReceived (swapId : option SwapId) (cancelMsg : CancelMessage.t)
    : Srv (option error) :=
  deliver (SwapId_String swapId) Event_OnCancelReceived (Some (MsgCancel cancelMsg)).
Definition OnCoopCloseReceived (swapId : option SwapId)
    (coopCloseMessage : CoopCloseMessage.t) : Srv (option error) :=
  deliver (SwapId_String swapId) Event_OnCoopCloseReceived
    (Some (MsgCoopClose coopCloseMessage)).

(** [SenderOnTxConfirmed] removes the swap whether it is done or not. *)
Definition SenderOnTxConfirmed (swapId : string) : Srv (option error) :=
  let? swap := GetActiveSwap swapId else e => mret (Some e) in
  r ← on_machine swapId swap (SendEvent Event_OnTxConfirmed None);
  match r with
  | (_, Some e) => mret (Some e)
  | (done, None) =>
      remove_if done swap;;
      RemoveActiveSwap (SwapId_String (sm_SwapId swap));;
      mret None
  end.

(** [OnTxConfirmed]: on an error of the watcher the machine is told to fail
    (with [LastErr] set to the nil [err] of the lookup), and the confirmation
    is sent all the same. *)
Definition OnTxConfirmed (swapId txHex : string) (gotErr : option error)
    : Srv (option error) :=
  let? swap := GetActiveSwap swapId else e => mret (Some e) in
  swap ← (match gotErr with
          | None => mret swap
          | Some _ =>
              let swap := swap <| sm_Data := sm_Data swap <| LastErr := None |> |> in
              r ← on_machine swapId swap
                    (r ← SendEvent Event_ActionFailed None; sm ← getl; mret (fst r, sm));
              remove_if (fst r) swap;;
              mret (snd r)
          end : Srv SwapStateMachine);
  let swap := swap <| sm_Data := sm_Data swap <| OpeningTxHex := txHex |> |> in
  s ← getl;
  r ← (if bool_decide (is_Some (activeSwaps s !! swapId))
       then on_machine swapId swap (SendEvent Event_OnTxConfirmed None)
       else zoom (λ _, swap) (λ _ s, s) (SendEvent Event_OnTxConfirmed None));
  match r with
  | (_, Some e) => if bool_decide (e = ErrEventRejected) then mret None else mret (Some e)
  | (done, None) => remove_if done swap;; mret None
  end.

Definition OnCsvPassed (swapId : string) : Srv (option error) :=
  let? swap := GetActiveSwap swapId
    else e => (if errors_Is e ErrSwapDoesNotExist then mret None else mret (Some e)) in
  r ← on_machine swapId swap (SendEvent Event_OnCsvPassed None);
  match r with
  | (_, Some e) => if bool_decide (e = ErrEventRejected) then mret None else mret (Some e)
  | (done, None) => remove_if done swap;; mret None
  end.

(** The callback of [createTimeoutCallback]. *)
Definition timeoutCallback (swapId : string) : Srv () :=
  let? swap := GetActiveSwap swapId else e => mret () in
  let swap := swap <| sm_Data := sm_Data swap <| toCancel := false |> |> in
  r ← on_machine swapId swap (SendEvent Event_OnTimeout None);
  match r with
  | (_, Some _) => mret ()
  | (done, None) => remove_if done swap
  end.

Definition OnPayment (swapIdStr : string) (invoiceType : InvoiceType) : Srv () :=
  match ParseSwapIdFromString swapIdStr with
  | Err _ => mret ()
  | Ok swapId =>
      match invoiceType with
      | INVOICE_FEE => OnFeeInvoiceNotification swapId;; mret ()
      | INVOICE_CLAIM => OnClaimInvoiceNotification swapId;; mret ()
      | INVOICE_OTHER _ => mret ()
      end
  end.

(** ** Requests of the peer *)

(** Tell the peer why we do not swap.  The error that is returned is the one of
    marshalling: the [err] of the reason is shadowed. *)
Definition tell_cancel (peerId : string) (swapId : option SwapId) (msg : string)
    : Srv (option error) :=
  r ← MarshalPeerswapMessage (Some (MsgCancel (CancelMessage.mk swapId msg)));
  match r with
  | Ok (msgBytes, msgType) =>
      call (SendMessage peerId msgBytes msgType);; mret None
  | Err e => call (SendMessage peerId "" 0);; mret (Some e)
  end.

Definition tell_error (peerId : string) (swapId : option SwapId) (err : error)
    : Srv (option error) :=
  impl ← call Implementation;
  tell_cancel peerId swapId ("from the " +:+ impl +:+ " peer: " +:+ Error err).

Definition unacceptable_premium (premiumValue limit : Z) : error :=
  ErrText ("unacceptable premium: " +:+ strconv.Itoa premiumValue +:+ ", limit: " +:+
           strconv.Itoa limit).

Definition request_asset (network : string) : AssetType :=
  if bool_decide (network = "") then LBTC else BTC.

(** Lock the new machine and start it with the request. *)
Definition start_swap (swapId : option SwapId) (peerId scid : string) (ty : SwapType)
    (event : EventType) (message : PeerMessage) (remove_on_error : bool)
    : Srv (option error) :=
  swap ← newReceiverFSM ty swapId peerId;
  do? lockSwap (SwapId_String (sm_SwapId swap)) scid swap
    else err => tell_cancel peerId swapId (Error err) in
  r ← on_machine (SwapId_String (sm_SwapId swap)) swap (SendEvent event (Some message));
  match r with
  | (done, None) => remove_if done swap;; mret None
  | (done, Some e) => remove_if (done && remove_on_error) swap;; mret (Some e)
  end.

Definition OnSwapInRequestReceived (swapId : option SwapId) (peerId : string)
    (message : SwapInRequestMessage.t) : Srv (option error) :=
  let amt := SwapInRequestMessage.Amount message in
  let amtMsat := u64 (amt * 1000) in
  let scid := SwapInRequestMessage.Scid message in
  let? premiumValue := ps_Compute peerId
      (request_asset (SwapInRequestMessage.Network message)) SwapIn amt
    else e => mret (Some e) in
  if SwapInRequestMessage.PremiumLimit message <? premiumValue then
    tell_error peerId swapId
      (unacceptable_premium premiumValue (SwapInRequestMessage.PremiumLimit message)) else
  do? call (CanSpend amtMsat) else e => tell_error peerId swapId e in
  let? sp := call (SpendableMsat scid) else e => tell_error peerId swapId e in
  if sp <? amtMsat then
    tell_error peerId swapId
      (ErrText ("exceeding spendable amount_msat: " +:+ strconv.Itoa sp)) else
  let? probe := call (ProbePayment scid amtMsat) else e => tell_error peerId swapId e in
  if negb (fst probe : bool) then
    tell_cancel peerId swapId ("The prepayment probe was unsuccessful." +:+ snd probe) else
  start_swap swapId peerId scid SWAPTYPE_IN Event_SwapInReceiver_OnRequestReceived
    (MsgSwapInRequest message) true.

Definition OnSwapOutRequestReceived (swapId : option SwapId) (peerId : string)
    (message : SwapOutRequestMessage.t) : Srv (option error) :=
  let amt := SwapOutRequestMessage.Amount message in
  let scid := SwapOutRequestMessage.Scid message in
  let? premiumValue := ps_Compute peerId
      (request_asset (SwapOutRequestMessage.Network message)) SwapOut amt
    else e => mret (Some e) in
  if SwapOutRequestMessage.PremiumLimit message <? premiumValue then
    tell_error peerId swapId
      (unacceptable_premium premiumValue (SwapOutRequestMessage.PremiumLimit message)) else
  let? rs := call (ReceivableMsat scid) else e => tell_error peerId swapId e in
  if rs <? u64 (amt * 1000) then
    tell_error peerId swapId
      (ErrText ("exceeding receivable amount_msat: " +:+ strconv.Itoa rs)) else
  start_swap swapId peerId scid SWAPTYPE_OUT Event_OnSwapOutRequestReceived
    (MsgSwapOutRequest message) false.

(** ** Starting a swap *)

(** Balance less fee of the chain's wallet; the difference is a uint64. *)
Definition estimateMaximumSwapAmountSat (chain : string) : Srv (result Z) :=
  match (if bool_decide (chain = l_btc_chain) then Some Liquid
         else if bool_decide (chain = btc_chain) then Some Bitcoin else None) with
  | None => mret (Err (ErrText "invalid chain"))
  | Some ch =>
      let? balance := call (GetOnchainBalance ch) else e => mret (Err e) in
      let? estimatedFee := call (GetFlatOpeningTXFee ch) else e => mret (Err e) in
      mret (Ok (u64 (balance - estimatedFee)))
  end.

(** The checks both kinds of swap start with. *)
Definition check_start (peer : string) (amtSat : Z) (k : Srv (result SwapStateMachine))
    : Srv (result SwapStateMachine) :=
  pol ← getw (λ w, conf (policy w));
  if negb (NewSwapsAllowed pol) then mret (Err (ErrText "swaps are disabled")) else
  if IsPeerSuspicious pol peer then mret (Err (PeerIsSuspiciousError peer)) else
  if u64 (amtSat * 1000) <? GetMinSwapAmountMsat pol
  then mret (Err (ErrMinimumSwapSize (GetMinSwapAmountMsat pol))) else
  do? call (CanSpend (u64 (amtSat * 1000))) else e => mret (Err e) in
  k.

(** The elements asset and the bitcoin network of the request. *)
Definition chain_ids (chain : string) : Srv (result (string * string)) :=
  if bool_decide (chain = l_btc_chain) then
    asset ← call (GetWalletAsset Liquid); mret (Ok ((asset : string), ""))
  else if bool_decide (chain = btc_chain) then
    network ← call (GetWalletNetwork Bitcoin); mret (Ok ("", (network : string)))
  else mret (Err (ErrText "invalid chain")).

(** Send the request to the new machine; the caller gets the machine. *)
Definition start_sender (swap : SwapStateMachine) (event : EventType)
    (request : PeerMessage) : Srv (result SwapStateMachine) :=
  r ← on_machine (SwapId_String (sm_SwapId swap)) swap
        (r ← SendEvent event (Some request); sm ← getl; mret (r, sm));
  match fst r with
  | (_, Some e) => mret (Err e)
  | (done, None) => remove_if done swap;; mret (Ok (snd r))
  end.

Definition SwapOut_start (peer chain channelId initiator : string)
    (amtSat premiumLimitRatePpm : Z) : Srv (result SwapStateMachine) :=
  check_start peer amtSat (
  let? sp := call (SpendableMsat channelId) else e => mret (Err e) in
  if sp <? u64 (amtSat * 1000)
  then mret (Err (ErrText ("exceeding spendable amount_msat: " +:+ strconv.Itoa sp))) else
  swap ← newSenderFSM SWAPTYPE_OUT initiator peer;
  do? lockSwap (SwapId_String (sm_SwapId swap)) channelId swap else e => mret (Err e) in
  let? ids := chain_ids chain else e => mret (Err e) in
  start_sender swap Event_OnSwapOutStarted (MsgSwapOutRequest
    {| SwapOutRequestMessage.ProtocolVersion := PEERSWAP_PROTOCOL_VERSION;
       SwapOutRequestMessage.SwapId := sm_SwapId swap;
       SwapOutRequestMessage.Asset := fst ids;
       SwapOutRequestMessage.Network := snd ids;
       SwapOutRequestMessage.Scid := channelId;
       SwapOutRequestMessage.Amount := amtSat;
       SwapOutRequestMessage.Pubkey := own_pubkey (sm_Data swap);
       SwapOutRequestMessage.PremiumLimit :=
         PPM_Compute (NewPPM premiumLimitRatePpm) amtSat |})).

Definition SwapIn_start (peer chain channelId initiator : string)
    (amtSat premiumLimitRatePPM : Z) : Srv (result SwapStateMachine) :=
  check_start peer amtSat (
  let? rs := call (ReceivableMsat channelId) else e => mret (Err e) in
  if rs <? u64 (amtSat * 1000)
  then mret (Err (ErrText ("exceeding receivable amount_msat: " +:+ strconv.Itoa rs))) else
  let? maximum := estimateMaximumSwapAmountSat chain else e => mret (Err e) in
  if maximum <? amtSat
  then mret (Err (ErrText ("exceeding maximum swap amount: " +:+ strconv.Itoa maximum))) else
  let? ids := chain_ids chain else e => mret (Err e) in
  swap ← newSenderFSM SWAPTYPE_IN initiator peer;
  do? lockSwap (SwapId_String (sm_SwapId swap)) channelId swap else e => mret (Err e) in
  start_sender swap Event_SwapInSender_OnSwapInRequested (MsgSwapInRequest
    {| SwapInRequestMessage.ProtocolVersion := PEERSWAP_PROTOCOL_VERSION;
       SwapInRequestMessage.SwapId := sm_SwapId swap;
       SwapInRequestMessage.Network := snd ids;
       SwapInRequestMessage.Asset := fst ids;
       SwapInRequestMessage.Scid := channelId;
       SwapInRequestMessage.Amount := amtSat;
       SwapInRequestMessage.Pubkey := own_pubkey (sm_Data swap);
       SwapInRequestMessage.PremiumLimit :=
         PPM_Compute (NewPPM premiumLimitRatePPM) amtSat |})).

(** ** Incoming messages *)
Definition logMsg (swapId msgTypeString : string) : Srv () :=
  setl (λ s, s <| lastMsgLog := <[swapId := msgTypeString]> (lastMsgLog s) |>).

Definition isMessageSenderExpectedPeer (senderId : string) (swapId : option SwapId)
    : Srv (result bool) :=
  let? swap := GetActiveSwap (SwapId_String swapId) else e => mret (Err e) in
  mret (Ok (bool_decide (PeerNodeId (sm_Data swap) = senderId))).

(** Decode, log, check the sender, handle: the cases of [OnMessageReceived]
    that belong to a running swap. *)
Definition from_peer {T} (r : result (option T)) (get_id : T → option SwapId)
    (peerId msgTypeString : string) (handle : T → Srv (option error))
    : Srv (option error) :=
  match r with
  | Err e => mret (Some e)
  | Ok msg =>
      msg ← deref msg;
      logMsg (SwapId_String (get_id msg)) msgTypeString;;
      let? ok := isMessageSenderExpectedPeer peerId (get_id msg) else e => mret (Some e) in
      if (ok : bool) then handle msg
      else mret (Some (ErrReceivedMessageFromUnexpectedPeer peerId (get_id msg)))
  end.

(** The two requests, which start a swap. *)
Definition from_requester {T} (r : result (option T)) (get_id : T → option SwapId)
    (msgTypeString : string) (handle : T → Srv (option error)) : Srv (option error) :=
  match r with
  | Err e => mret (Some e)
  | Ok msg =>
      msg ← deref msg;
      logMsg (SwapId_String (get_id msg)) msgTypeString;;
      handle msg
  end.

Definition OnMessageReceived (peerId msgTypeString payload : string) : Srv (option error) :=
  if bool_decide (100 * 1024 < String.length payload)%nat
  then mret (Some (ErrText "Payload is unexpectedly large")) else
  match PeerswapCustomMessageType msgTypeString with
  | Err err => if is_not_peerswap_message err then mret None else mret (Some err)
  | Ok msgType =>
      if bool_decide (msgType = MESSAGETYPE_SWAPOUTREQUEST) then
        from_requester (json_SwapOutRequest payload) SwapOutRequestMessage.SwapId
          msgTypeString
          (λ msg, OnSwapOutRequestReceived (SwapOutRequestMessage.SwapId msg) peerId msg)
      else if bool_decide (msgType = MESSAGETYPE_SWAPOUTAGREEMENT) then
        from_peer (json_SwapOutAgreement payload) SwapOutAgreementMessage.SwapId
          peerId msgTypeString OnSwapOutAgreementReceived
      else if bool_decide (msgType = MESSAGETYPE_OPENINGTXBROADCASTED) then
        from_peer (json_OpeningTxBroadcasted payload) OpeningTxBroadcastedMessage.SwapId
          peerId msgTypeString OnTxOpenedMessage
      else if bool_decide (msgType = MESSAGETYPE_CANCELED) then
        from_peer (json_Cancel payload) CancelMessage.SwapId peerId msgTypeString
          (λ msg, OnCancelReceived (CancelMessage.SwapId msg) msg)
      else if bool_decide (msgType = MESSAGETYPE_SWAPINREQUEST) then
        from_requester (json_SwapInRequest payload) SwapInRequestMessage.SwapId
          msgTypeString
          (λ msg, OnSwapInRequestReceived (SwapInRequestMessage.SwapId msg) peerId msg)
      else if bool_decide (msgType = MESSAGETYPE_SWAPINAGREEMENT) then
        from_peer (json_SwapInAgreement payload) SwapInAgreementMessage.SwapId
          peerId msgTypeString OnSwapInAgreementReceived
      else if bool_decide (msgType = MESSAGETYPE_COOPCLOSE) then
        from_peer (json_CoopClose payload) CoopCloseMessage.SwapId peerId msgTypeString
          (λ msg, OnCoopCloseReceived (CoopCloseMessage.SwapId msg) msg)
      else mret None
  end.

(** ** Recovery and queries *)

(** The body of the goroutine of [RecoverSwaps] for one stored swap. *)
Definition recover_swap (swap : SwapStateMachine) : Srv () :=
  if IsFinished swap then mret ()
  else
    let id := SwapId_String (sm_SwapId swap) in
    do? lockSwap id (GetScid (sm_Data swap)) swap else e => mret () in
    r ← on_machine id swap Recover;
    match r with
    | (_, Some _) => mret ()
    | (done, None) => remove_if done swap
    end.

Fixpoint recover_all (l : list SwapStateMachine) : Srv () :=
  match l with
  | [] => mret ()
  | swap :: l => recover_swap swap;; recover_all l
  end.

(** The goroutines run one after the other, in the order of the store. *)
Definition RecoverSwaps : Srv (option error) :=
  let? l := ListAll else e => mret (Some e) in
  recover_all l;; mret None.

Definition HasActiveSwaps : Srv (result bool) :=
  let? l := ListAll else e => mret (Err e) in
  mret (Ok (existsb (negb ∘ IsFinished) l)).

Definition ListActiveSwaps : Srv (result (list SwapStateMachine)) :=
  let? l := ListAll else e => mret (Err e) in
  mret (Ok (filter (λ sm, IsFinished sm = false) l)).

Definition ListSwaps : Srv (result (list SwapStateMachine)) := ListAll.
Definition ListSwapsByPeer (peer : string) : Srv (result (list SwapStateMachine)) :=
  ListAllByPeer peer.
Definition GetSwap (swapId : string) : Srv (result SwapStateMachine) := GetData swapId.

Definition ResendLastMessage (swapId : string) : Srv (option error) :=
  let? swap := GetActiveSwap swapId else e => mret (Some e) in
  r ← on_machine swapId swap
        (ev ← on_data (Execute SendMessageAction); sm ← getl; mret (ev, LastErr (sm_Data sm)));
  if bool_decide (fst r = Event_ActionFailed) then mret (snd r) else mret None.
End service.
