(* ===== verification/ServiceProofs.v ===== *)
(** * Properties of the swap service

    The invariant of the active swaps ([service_ok]: a swap is filed under its
    own id, and no two swaps share a channel) is preserved by every operation of
    the service; a message moves a swap only when it comes from the swap's
    peer. *)

From S2P Require Import Prelude GoLib Messages Premium Policy SwapData Timelock Env Demo Store.
From S2P Require Import Actions ActionProofs Fsm FsmProofs Service.

Definition scid_of (sm : SwapStateMachine) : string := GetScid (sm_Data sm).

Definition active_ok (m : gmap string SwapStateMachine) : Prop :=
  (∀ key sm, m !! key = Some sm → key = SwapId_String (sm_SwapId sm)) ∧
  (∀ k1 k2 sm1 sm2, m !! k1 = Some sm1 → m !! k2 = Some sm2 → k1 ≠ k2 →
     scid_of sm1 ≠ "" → scid_of sm1 ≠ scid_of sm2).
Definition service_ok (s : SwapService) : Prop := active_ok (activeSwaps s).

(** ** The map of active swaps *)
Lemma active_on_None channelId m :
  active_on channelId m = None → ∀ key sm, m !! key = Some sm → scid_of sm ≠ channelId.
Proof.
  unfold active_on. intros H key sm Hk Hc.
  destruct (filter _ (map_to_list m)) as [|kv l] eqn:E; [|done].
  assert ((key, sm) ∈ filter (λ kv : string * SwapStateMachine,
    GetScid (sm_Data kv.2) = channelId) (map_to_list m)) as Hin.
  { apply list_elem_of_filter. split; [done|]. by apply elem_of_map_to_list. }
  rewrite E in Hin. by apply not_elem_of_nil in Hin.
Qed.

Lemma active_on_Some channelId m id :
  active_on channelId m = Some id →
  ∃ sm, m !! id = Some sm ∧ scid_of sm = channelId.
Proof.
  unfold active_on. destruct (filter _ (map_to_list m)) as [|[k sm] l] eqn:E; [done|].
  intros [= <-]. exists sm.
  assert ((k, sm) ∈ filter (λ kv : string * SwapStateMachine,
    GetScid (sm_Data kv.2) = channelId) (map_to_list m)) as Hin by (rewrite E; left).
  apply list_elem_of_filter in Hin as [Hc Hin]. by apply elem_of_map_to_list in Hin.
Qed.

Lemma active_ok_delete m key : active_ok m → active_ok (delete key m).
Proof.
  intros [H1 H2]. split.
  - intros k sm [_ Hk]%lookup_delete_Some. eauto.
  - intros k1 k2 sm1 sm2 [_ E1]%lookup_delete_Some [_ E2]%lookup_delete_Some. eauto.
Qed.

(** Filing a machine whose channel, if it has one, no other swap uses. *)
Lemma active_ok_insert m sm :
  active_ok m →
  (∀ k sm', m !! k = Some sm' → k ≠ SwapId_String (sm_SwapId sm) → scid_of sm ≠ "" →
     scid_of sm' ≠ scid_of sm) →
  active_ok (<[SwapId_String (sm_SwapId sm) := sm]> m).
Proof.
  intros [H1 H2] Hfree. split.
  - intros k sm' [[<- <-]|[_ Hk]]%lookup_insert_Some; eauto.
  - intros k1 k2 sm1 sm2 [[<- <-]|[N1 E1]]%lookup_insert_Some
      [[<- <-]|[N2 E2]]%lookup_insert_Some Hne Hs; [done|..|eauto].
    + intros E. by eapply Hfree; eauto.
    + intros E. rewrite E in Hs. eapply Hfree; eauto.
Qed.

(** Updating a machine that is filed and keeps its channel and id. *)
Lemma active_ok_update m key sm sm' :
  active_ok m → m !! key = Some sm → requests_kept sm sm' →
  active_ok (<[key := sm']> m).
Proof.
  intros Hok Hk [Hid _ Hin Hout].
  assert (key = SwapId_String (sm_SwapId sm')) as -> by (rewrite Hid; by eapply Hok).
  apply active_ok_insert; [done|]. intros k sm'' Hk'' Hne Hs E.
  assert (scid_of sm' = scid_of sm) as Hsc.
  { unfold scid_of, GetScid. by rewrite Hin, Hout. }
  destruct Hok as [_ H2]. eapply (H2 k _ sm'' sm Hk'' Hk Hne); congruence.
Qed.

(** ** Operations of the service *)
Section ops.
Context {EV : Env}.
Abbreviation St := (World * SwapService)%type.

(** [m] keeps the invariant. *)
Definition keeps_ok {A} (m : Svc SwapService A) : Prop :=
  ∀ w s, service_ok s → wp m (λ _ s', service_ok (snd s')) any_stop (w, s).

Lemma ok_ret {A} (a : A) : keeps_ok (mret a).
Proof. by intros w s. Qed.
Lemma ok_bind {A B} (m : Svc SwapService A) (k : A → Svc SwapService B) :
  keeps_ok m → (∀ a, keeps_ok (k a)) → keeps_ok (m ≫= k).
Proof.
  intros Hm Hk w s Hs. svc_step. eapply wp_mono; [by apply Hm| |done].
  intros a [w' s'] Hs'. by apply Hk.
Qed.
Lemma ok_call c : keeps_ok (call c).
Proof. by intros w s. Qed.
Lemma ok_getw {A} (f : World → A) : keeps_ok (getw f).
Proof. by intros w s. Qed.
Lemma ok_marshal msg : keeps_ok (MarshalPeerswapMessage msg).
Proof. intros w s Hs. svc_step; done. Qed.
Lemma ok_deref {A} (o : option A) : keeps_ok (deref o).
Proof. intros w s Hs. by wp_step. Qed.
Lemma ok_remove id : keeps_ok (RemoveActiveSwap id).
Proof. intros w s Hs. unfold RemoveActiveSwap. svc_step. by apply active_ok_delete. Qed.
Lemma ok_remove_if b sm : keeps_ok (remove_if b sm).
Proof. destruct b; [apply ok_remove|apply ok_ret]. Qed.
Lemma ok_log id t : keeps_ok (logMsg id t).
Proof. by intros w s Hs. Qed.
Lemma ok_get id : keeps_ok (GetActiveSwap id).
Proof. intros w s Hs. unfold GetActiveSwap. do 2 svc_step. by destruct (_ !! id). Qed.

(** A machine taken from the map, changed outside its requests, and run. *)
Lemma ok_on_active {A B} id (f : SwapStateMachine → SwapStateMachine)
    (m : SwapStateMachine → Svc SwapStateMachine A)
    (k : SwapStateMachine → A → Svc SwapService B) (kerr : error → Svc SwapService B) :
  (∀ sm, requests_kept sm (f sm)) →
  (∀ sm0 w sm, requests_kept sm0 sm →
     wp (m sm0) (λ _ s', requests_kept sm0 (snd s')) any_stop (w, sm)) →
  (∀ sm a, keeps_ok (k sm a)) → (∀ e, keeps_ok (kerr e)) →
  keeps_ok (let? swap := GetActiveSwap id else e => kerr e in
            r ← on_machine id (f swap) (m swap); k swap r).
Proof.
  intros Hf Hm Hk He w s Hs. svc_step. unfold GetActiveSwap. do 2 svc_step.
  destruct (activeSwaps s !! id) as [sm|] eqn:E; [|by apply He].
  apply wp_ret. svc_step. unfold on_machine. svc_step.
  eapply wp_mono; [apply (Hm sm); apply Hf| |by intros ? [] ?].
  intros a [w' sm'] Hk'. apply Hk. cbn in *. by eapply active_ok_update.
Qed.

(** [SendEvent] without a request keeps the requests. *)
Definition not_request (ctx : option PeerMessage) : Prop :=
  match ctx with Some (MsgSwapInRequest _) | Some (MsgSwapOutRequest _) => False | _ => True end.

Lemma apply_keeps_requests m sm d :
  not_request (Some m) → ApplyToSwapData m (sm_Data sm) = Ok d →
  requests_kept sm (sm <| sm_Data := d |>).
Proof. destruct m; cbn; try done; repeat case_match; intros _ [= <-]; by split. Qed.

Lemma SendEvent_requests ev ctx sm0 w sm :
  not_request ctx → requests_kept sm0 sm →
  wp (SendEvent ev ctx) (λ _ s', requests_kept sm0 (snd s')) any_stop (w, sm).
Proof.
  intros Hctx H0. eapply wp_mono; [apply (SendEvent_keeps (K := requests_kept) sm0)|..]; try done.
  intros m d -> Ha. by apply (apply_keeps_requests m).
Qed.

(** The world-only parts of the service. *)
Lemma ok_world {A} (m : Svc SwapService A) :
  (∀ w s, wp m (λ _ s', snd s' = s) any_stop (w, s)) → keeps_ok m.
Proof. intros Hm w s Hs. eapply wp_mono; [apply Hm| |done]. by intros a [w' s'] ->. Qed.
Lemma ok_ps_Compute p a o amt : keeps_ok (ps_Compute p a o amt).
Proof. apply ok_world. intros w s. unfold ps_Compute. by repeat svc_step. Qed.
Lemma ok_ListAll : keeps_ok ListAll.
Proof.
  apply ok_world. intros w s. unfold ListAll. apply wp_with_bucket; by intros.
Qed.
End ops.

#[export] Hint Resolve ok_ret ok_call ok_getw ok_marshal ok_deref ok_remove ok_remove_if ok_log
  ok_get ok_ps_Compute ok_ListAll : go.

#[export] Hint Extern 1 (keeps_ok (call ?c)) => exact (ok_call c) : go.

(** Split a service operation into its parts. *)
Ltac ok_step :=
  lazymatch goal with
  | |- keeps_ok (_ ≫= _) => apply ok_bind; [|intros ?]
  | |- keeps_ok (match ?x with _ => _ end) => destruct x
  | |- keeps_ok _ => solve [eauto with go]
  end.

Section new_swaps.
Context {EV : Env}.

(** The channel [scid] is free for the swap under [key]. *)
Definition reserved (key scid : string) (s : SwapService) : Prop :=
  service_ok s ∧
  ∀ k sm, activeSwaps s !! k = Some sm → k ≠ key → scid_of sm ≠ scid.

Lemma wp_lockSwap sm scid w s (Q : option error → World * SwapService → Prop) R :
  service_ok s → (scid_of sm = "" ∨ scid_of sm = scid) →
  (∀ e, Q (Some e) (w, s)) →
  (∀ s', reserved (SwapId_String (sm_SwapId sm)) scid s' → Q None (w, s')) →
  wp (lockSwap (SwapId_String (sm_SwapId sm)) scid sm) Q R (w, s).
Proof.
  intros Hs Hsm HE HO. unfold lockSwap. do 2 svc_step.
  destruct (active_on scid (activeSwaps s)) eqn:E; [by apply wp_ret|].
  pose proof (active_on_None _ _ E) as Hfree.
  do 2 svc_step. apply wp_ret, HO. split.
  - apply active_ok_insert; [done|]. intros k sm' Hk _ Hne.
    destruct Hsm as [? | <-]; [done|]. by eapply Hfree.
  - intros k sm' Hk Hne. cbn in Hk. rewrite lookup_insert_ne in Hk by done. by eapply Hfree.
Qed.

(** What a run may do to a machine that was given the channel [scid]. *)
Definition takes_channel (sm : SwapStateMachine) (scid : string) (sm' : SwapStateMachine)
    : Prop :=
  sm_SwapId sm' = sm_SwapId sm ∧ (scid_of sm' = "" ∨ scid_of sm' = scid).

Lemma wp_on_reserved {A} sm scid (m : Svc SwapStateMachine A) w s
    (Q : A → World * SwapService → Prop) :
  reserved (SwapId_String (sm_SwapId sm)) scid s →
  wp m (λ _ s', takes_channel sm scid (snd s')) any_stop (w, sm) →
  (∀ a w' s', service_ok s' → Q a (w', s')) →
  wp (on_machine (SwapId_String (sm_SwapId sm)) sm m) Q any_stop (w, s).
Proof.
  intros [Hs Hfree] Hm HQ. unfold on_machine. svc_step.
  eapply wp_mono; [exact Hm| |by intros ? [] ?].
  intros a [w' sm'] [Hid Hsc]. apply HQ. unfold service_ok. cbn in *. rewrite <- Hid.
  apply active_ok_insert; [done|]. intros k sm'' Hk Hne Hn.
  rewrite Hid in Hne. destruct Hsc as [? | ->]; [done|]. by eapply Hfree.
Qed.

Definition message_scid (m : PeerMessage) : option string :=
  match m with
  | MsgSwapInRequest r => Some (SwapInRequestMessage.Scid r)
  | MsgSwapOutRequest r => Some (SwapOutRequestMessage.Scid r)
  | _ => None
  end.

(** A fresh machine takes the channel of its request, or none. *)
Lemma SendEvent_takes ev msg scid sm w :
  SwapInRequest (sm_Data sm) = None → SwapOutRequest (sm_Data sm) = None →
  message_scid msg = Some scid →
  wp (SendEvent ev (Some msg)) (λ _ s', takes_channel sm scid (snd s')) any_stop (w, sm).
Proof.
  intros Hin Hout Hscid.
  assert (∀ sm0 sm', requests_kept sm0 sm' → takes_channel sm scid sm0 →
    takes_channel sm scid sm') as Hkept.
  { intros sm0 sm' [Hid _ H1 H2] [Hid0 Hs0]. split; [congruence|].
    unfold scid_of, GetScid in *. by rewrite H1, H2. }
  assert (takes_channel sm scid sm) as Hsm.
  { split; [done|]. left. unfold scid_of, GetScid. by rewrite Hin, Hout. }
  assert (∀ ev sm1, takes_channel sm scid sm1 →
    wp (SendEvent_nil ev) (λ _ s', takes_channel sm scid (snd s')) any_stop (w, sm1)) as Hnil.
  { intros ev' sm1 H1. eapply wp_mono;
      [apply (SendEvent_nil_keeps (K := requests_kept) sm1), mrel_refl| |done].
    intros r [w' sm'] Hk. by eapply Hkept. }
  apply wp_SendEvent; try done.
  - intros. by apply Hnil.
  - intros m d [= <-] _ _ Ha. apply Hnil. split; [by destruct sm|]. right.
    destruct msg; cbn in *; try done; rewrite ?Hin, ?Hout in Ha;
      injection Ha as <-; injection Hscid as <-; unfold scid_of, GetScid; cbn;
      by rewrite ?Hin.
Qed.

Lemma ok_tell_cancel p id msg : keeps_ok (tell_cancel p id msg).
Proof. unfold tell_cancel. repeat ok_step. Qed.
Lemma ok_tell_error p id e : keeps_ok (tell_error p id e).
Proof. unfold tell_error. ok_step; [auto with go|apply ok_tell_cancel]. Qed.

Lemma start_swap_ok swapId peerId scid ty ev msg b :
  message_scid msg = Some scid →
  keeps_ok (start_swap swapId peerId scid ty ev msg b).
Proof.
  intros Hscid w s Hs. unfold start_swap, newReceiverFSM.
  do 5 svc_step. destruct (ask _ RandPrivateKey) as [privkey|e]; [|done].
  svc_step. cbv beta. svc_step. apply (wp_lockSwap (new_machine _ _ _ _)); [done|by left|..].
  - intros e. by apply ok_tell_cancel.
  - intros s' Hr. svc_step. eapply wp_on_reserved; [exact Hr|by apply SendEvent_takes|].
    intros [done [e|]] w' s'' Hs''; apply ok_bind; auto with go.
Qed.

Lemma start_sender_ok sm scid ev msg w s :
  reserved (SwapId_String (sm_SwapId sm)) scid s →
  SwapInRequest (sm_Data sm) = None → SwapOutRequest (sm_Data sm) = None →
  message_scid msg = Some scid →
  wp (start_sender sm ev msg) (λ _ s', service_ok (snd s')) any_stop (w, s).
Proof.
  intros Hr Hin Hout Hscid. unfold start_sender. svc_step.
  eapply wp_on_reserved; [exact Hr|..].
  - svc_step. eapply wp_mono; [by apply SendEvent_takes| |done].
    intros r [w' sm'] H. by do 2 svc_step.
  - intros [[done [e|]] sm'] w' s'' Hs''; [by apply wp_ret|].
    apply ok_bind; auto with go.
Qed.

(** Before the machine of a new swap is filed, only the world changes. *)
Lemma check_start_ok peer amt k : keeps_ok k → keeps_ok (check_start peer amt k).
Proof. intros Hk. unfold check_start. repeat ok_step; done. Qed.
Lemma wp_chain_ids chain w s (Q : result (string * string) → World * SwapService → Prop) R :
  (∀ r w', Q r (w', s)) → wp (chain_ids chain) Q R (w, s).
Proof. intros HQ. unfold chain_ids. by repeat case_bool_decide; repeat svc_step. Qed.
Lemma wp_newSenderFSM ty i p w s (Q : SwapStateMachine → World * SwapService → Prop) :
  (∀ id d w', SwapInRequest d = None → SwapOutRequest d = None →
     Q (new_machine (Some id) ty SWAPROLE_SENDER d) (w', s)) →
  wp (newSenderFSM ty i p) Q any_stop (w, s).
Proof.
  intros HQ. unfold newSenderFSM. do 4 svc_step.
  destruct (ask _ RandPrivateKey); [|done]. do 2 svc_step. by apply wp_ret, HQ.
Qed.

Lemma SwapOut_start_ok peer chain ch i amt lim :
  keeps_ok (SwapOut_start peer chain ch i amt lim).
Proof.
  unfold SwapOut_start. apply check_start_ok.
  apply ok_bind; [auto with go|intros [sp|e]; [|apply ok_ret]].
  destruct (sp <? _); [apply ok_ret|].
  intros w s Hs. svc_step. apply wp_newSenderFSM. intros id d w1 Hin Hout.
  svc_step. apply (wp_lockSwap (new_machine _ _ _ _)); [done| |by intros; apply wp_ret|].
  { left. unfold scid_of, GetScid. cbn. by rewrite Hin, Hout. }
  intros s' Hr. svc_step. apply wp_chain_ids. intros [ids|e] w2; [|by apply wp_ret, Hr].
  by eapply start_sender_ok.
Qed.

Lemma SwapIn_start_ok peer chain ch i amt lim :
  keeps_ok (SwapIn_start peer chain ch i amt lim).
Proof.
  unfold SwapIn_start. apply check_start_ok.
  apply ok_bind; [auto with go|intros [rs|e]; [|apply ok_ret]].
  destruct (rs <? _); [apply ok_ret|].
  apply ok_bind; [unfold estimateMaximumSwapAmountSat; repeat ok_step|].
  intros [mx|e]; [|apply ok_ret]. destruct (mx <? _); [apply ok_ret|].
  intros w s Hs. svc_step. apply wp_chain_ids. intros [ids|e] w1; [|by apply wp_ret].
  svc_step. apply wp_newSenderFSM. intros id d w2 Hin Hout.
  svc_step. apply (wp_lockSwap (new_machine _ _ _ _)); [done| |by intros; apply wp_ret|].
  { left. unfold scid_of, GetScid. cbn. by rewrite Hin, Hout. }
  intros s' Hr. by eapply start_sender_ok.
Qed.

Lemma recover_swap_ok sm : keeps_ok (recover_swap sm).
Proof.
  intros w s Hs. unfold recover_swap. destruct (IsFinished sm); [by apply wp_ret|].
  svc_step. apply (wp_lockSwap sm); [done|by right|by intros; apply wp_ret|].
  intros s' Hr. svc_step. eapply wp_on_reserved; [exact Hr|..].
  - eapply wp_mono; [apply (Recover_keeps (K := requests_kept) sm), mrel_refl| |done].
    intros r [w' sm'] [Hid _ H1 H2]. split; [done|]. right.
    unfold scid_of, GetScid. cbn in *. by rewrite H1, H2.
  - intros [done [e|]] w' s'' Hs''; [by apply wp_ret|by apply ok_remove_if].
Qed.

Lemma RecoverSwaps_ok : keeps_ok RecoverSwaps.
Proof.
  unfold RecoverSwaps. repeat ok_step.
  induction a as [|sm l IH]; [apply ok_ret|]. apply ok_bind; [apply recover_swap_ok|done].
Qed.
End new_swaps.

(** ** The service as a transition system *)

(** The entry points of the service. *)
Inductive ServiceOp :=
  | OpSwapOut (peer chain channelId initiator : string) (amtSat limitPpm : Z)
  | OpSwapIn (peer chain channelId initiator : string) (amtSat limitPpm : Z)
  | OpMessage (peerId msgType payload : string)
  | OpTxConfirmed (swapId txHex : string) (gotErr : option error)
  | OpCsvPassed (swapId : string)
  | OpTimeout (swapId : string)
  | OpPayment (swapId : string) (invoiceType : InvoiceType)
  | OpSenderTxConfirmed (swapId : string)
  | OpResend (swapId : string)
  | OpRecover.

Definition run_op `{!Env} (op : ServiceOp) : Svc SwapService () :=
  match op with
  | OpSwapOut p c ch i a l => SwapOut_start p c ch i a l;; mret ()
  | OpSwapIn p c ch i a l => SwapIn_start p c ch i a l;; mret ()
  | OpMessage p t b => OnMessageReceived p t b;; mret ()
  | OpTxConfirmed id h e => OnTxConfirmed id h e;; mret ()
  | OpCsvPassed id => OnCsvPassed id;; mret ()
  | OpTimeout id => timeoutCallback id
  | OpPayment id t => OnPayment id t
  | OpSenderTxConfirmed id => SenderOnTxConfirmed id;; mret ()
  | OpResend id => ResendLastMessage id;; mret ()
  | OpRecover => RecoverSwaps;; mret ()
  end.

(** States of the service after any sequence of operations, in a world that
    other parts of the daemon may change between them. *)
Inductive service_reachable `{!Env} : SwapService → Prop :=
  | reach_new : service_reachable NewSwapService
  | reach_op s op w w' s' :
      service_reachable s → run_op op (w, s) = Ret (w', s') () → service_reachable s'.

Section invariant.
Context {EV : Env}.

Lemma kept_id sm : requests_kept sm sm.
Proof. by split. Qed.

Lemma deliver_ok id ev ctx : not_request ctx → keeps_ok (deliver id ev ctx).
Proof.
  intros Hctx. unfold deliver.
  apply (ok_on_active id (λ sm, sm) (λ _, SendEvent ev ctx)).
  - apply kept_id.
  - intros. by apply SendEvent_requests.
  - intros sm [done [e|]]; repeat ok_step.
  - auto with go.
Qed.

Lemma SenderOnTxConfirmed_ok id : keeps_ok (SenderOnTxConfirmed id).
Proof.
  apply (ok_on_active id (λ sm, sm) (λ _, SendEvent Event_OnTxConfirmed None)).
  - apply kept_id.
  - intros. by apply SendEvent_requests.
  - intros sm [done [e|]]; repeat ok_step.
  - auto with go.
Qed.

Lemma OnCsvPassed_ok id : keeps_ok (OnCsvPassed id).
Proof.
  apply (ok_on_active id (λ sm, sm) (λ _, SendEvent Event_OnCsvPassed None)).
  - apply kept_id.
  - intros. by apply SendEvent_requests.
  - intros sm [done [e|]]; repeat ok_step.
  - intros e. repeat ok_step.
Qed.

Lemma timeoutCallback_ok id : keeps_ok (timeoutCallback id).
Proof.
  apply (ok_on_active id (λ sm, sm <| sm_Data := sm_Data sm <| toCancel := false |> |>)
           (λ _, SendEvent Event_OnTimeout None)
           (λ swap r, match r with
              | (_, Some _) => mret ()
              | (done, None) =>
                  remove_if done (swap <| sm_Data := sm_Data swap <| toCancel := false |> |>)
              end)).
  - by split.
  - intros. by apply SendEvent_requests.
  - intros sm [done [e|]]; repeat ok_step.
  - auto with go.
Qed.

Lemma ResendLastMessage_ok id : keeps_ok (ResendLastMessage id).
Proof.
  apply (ok_on_active id (λ sm, sm) (λ _,
    ev ← on_data (Execute SendMessageAction); sm ← getl; mret (ev, LastErr (sm_Data sm)))).
  - apply kept_id.
  - intros sm0 w sm [H1 H2 H3 H4]. svc_step. unfold on_data. svc_step.
    eapply wp_mono; [apply Execute_spec| |by intros ? [] ?].
    intros ev [w' d] [_ [[] _]]. do 3 svc_step. cbn in *. split; cbn; congruence.
  - intros sm r. repeat ok_step.
  - auto with go.
Qed.

Lemma OnTxConfirmed_ok id h e : keeps_ok (OnTxConfirmed id h e).
Proof.
  intros w s Hs. unfold OnTxConfirmed. svc_step. unfold GetActiveSwap. do 2 svc_step.
  destruct (activeSwaps s !! id) as [sm|] eqn:E; [|by apply wp_ret].
  apply wp_ret. svc_step.
  (* the machine and the service before the confirmation is sent *)
  assert (∀ w1 s1 sm1, service_ok s1 →
    (∀ sm2, activeSwaps s1 !! id = Some sm2 → requests_kept sm2 sm1) →
    wp (s ← getl;
        r ← (if bool_decide (is_Some (activeSwaps s !! id))
             then on_machine id (sm1 <| sm_Data := sm_Data sm1 <| OpeningTxHex := h |> |>)
                    (SendEvent Event_OnTxConfirmed None)
             else zoom (λ _, sm1 <| sm_Data := sm_Data sm1 <| OpeningTxHex := h |> |>)
                    (λ _ s, s) (SendEvent Event_OnTxConfirmed None));
        match r with
        | (_, Some e) =>
            if bool_decide (e = ErrEventRejected) then mret None else mret (Some e)
        | (done, None) =>
            remove_if done (sm1 <| sm_Data := sm_Data sm1 <| OpeningTxHex := h |> |>);;
            mret None
        end) (λ _ s', service_ok (snd s')) any_stop (w1, s1)) as Hrest.
  { intros w1 s1 sm1 Hs1 Hreq. do 3 svc_step.
    assert (∀ w2 s2 (r : bool * option error), service_ok s2 →
      wp (match r with
          | (_, Some e) =>
              if bool_decide (e = ErrEventRejected) then mret None else mret (Some e)
          | (done, None) =>
              remove_if done (sm1 <| sm_Data := sm_Data sm1 <| OpeningTxHex := h |> |>);;
              mret None
          end) (λ _ s', service_ok (snd s')) any_stop (w2, s2)) as Hend.
    { intros w2 s2 [done [e'|]] Hs2; [by case_bool_decide; apply wp_ret|].
      apply ok_bind; auto with go. }
    case_bool_decide as Hin.
    - destruct Hin as [sm2 E2]. unfold on_machine. svc_step.
      eapply wp_mono; [apply (SendEvent_requests _ _ sm2)|..]; [done| | |by intros ? [] ?].
      + destruct (Hreq sm2 E2) as [H1 H2 H3 H4]. by split.
      + intros r [w2 sm3] H3. apply Hend. by eapply active_ok_update.
    - svc_step. eapply wp_mono; [apply (SendEvent_requests _ _ sm1)|..];
        [done|by split| |by intros ? [] ?].
      intros r [w2 sm3] _. by apply Hend. }
  destruct e as [e|].
  2:{ apply wp_ret. apply Hrest; [done|]. intros sm2 E2.
      assert (sm2 = sm) as -> by congruence. apply kept_id. }
  svc_step. unfold on_machine. svc_step. svc_step.
  eapply wp_mono; [apply (SendEvent_requests _ _ sm)|..]; [done|by split| |by intros ? [] ?].
  intros r [w1 sm1] H1. do 3 svc_step. cbn [fst snd].
  assert (service_ok (s <| activeSwaps := <[id := sm1]> (activeSwaps s) |>)) as Hs1
    by (by eapply active_ok_update).
  destruct (fst r); unfold remove_if.
  - unfold RemoveActiveSwap. do 2 svc_step. apply wp_ret. apply Hrest.
    + by apply active_ok_delete.
    + cbn. intros sm2 [Hne E2]%lookup_delete_Some.
      destruct Hs as [Hk _]. by rewrite <- (Hk id sm E) in Hne.
  - svc_step. do 2 apply wp_ret. apply Hrest; [done|]. cbn. intros sm2.
    rewrite lookup_insert_eq. intros [= <-]. apply kept_id.
Qed.
End invariant.

Section messages.
Context {EV : Env}.

Lemma OnPayment_ok id t : keeps_ok (OnPayment id t).
Proof.
  unfold OnPayment, OnFeeInvoiceNotification, OnClaimInvoiceNotification.
  repeat first [ok_step | by apply deliver_ok].
Qed.

Lemma ok_isExpected p id : keeps_ok (isMessageSenderExpectedPeer p id).
Proof. unfold isMessageSenderExpectedPeer. repeat ok_step. Qed.

Lemma from_peer_ok {T} (r : result (option T)) get_id p t h :
  (∀ msg, keeps_ok (h msg)) → keeps_ok (from_peer r get_id p t h).
Proof.
  intros Hh. unfold from_peer.
  repeat first [apply Hh | apply ok_isExpected | ok_step].
Qed.
Lemma from_requester_ok {T} (r : result (option T)) get_id t h :
  (∀ msg, keeps_ok (h msg)) → keeps_ok (from_requester r get_id t h).
Proof. intros Hh. unfold from_requester. repeat first [apply Hh | ok_step]. Qed.

Lemma OnSwapInRequestReceived_ok id p m : keeps_ok (OnSwapInRequestReceived id p m).
Proof.
  unfold OnSwapInRequestReceived.
  repeat first [apply ok_tell_error | apply ok_tell_cancel | by apply start_swap_ok | ok_step].
Qed.
Lemma OnSwapOutRequestReceived_ok id p m : keeps_ok (OnSwapOutRequestReceived id p m).
Proof.
  unfold OnSwapOutRequestReceived.
  repeat first [apply ok_tell_error | apply ok_tell_cancel | by apply start_swap_ok | ok_step].
Qed.

Lemma OnMessageReceived_ok p t b : keeps_ok (OnMessageReceived p t b).
Proof.
  unfold OnMessageReceived. case_bool_decide; [apply ok_ret|].
  destruct (PeerswapCustomMessageType t) as [ty|e]; [|repeat ok_step].
  case_bool_decide.
  { apply from_requester_ok. intros. apply OnSwapOutRequestReceived_ok. }
  do 3 (case_bool_decide; [apply from_peer_ok; intros; by apply deliver_ok|]).
  case_bool_decide.
  { apply from_requester_ok. intros. apply OnSwapInRequestReceived_ok. }
  do 2 (case_bool_decide; [apply from_peer_ok; intros; by apply deliver_ok|]).
  apply ok_ret.
Qed.

Lemma run_op_ok op : keeps_ok (run_op op).
Proof.
  destruct op; cbn [run_op]; try (apply ok_bind; [|intros ?; apply ok_ret]);
    auto using SwapOut_start_ok, SwapIn_start_ok, OnMessageReceived_ok, OnTxConfirmed_ok,
      OnCsvPassed_ok, timeoutCallback_ok, OnPayment_ok, SenderOnTxConfirmed_ok,
      ResendLastMessage_ok, RecoverSwaps_ok.
Qed.
End messages.

(** C22. One swap per channel: after any sequence of operations of the service
    (swaps started, messages of any peer, payments, confirmations, timeouts and
    recoveries, with whatever the services answer), every active swap is filed
    under its own id and no two active swaps use the same channel. *)
Theorem one_swap_per_channel {EV : Env} s :
  service_reachable s →
  (∀ key sm, activeSwaps s !! key = Some sm → key = SwapId_String (sm_SwapId sm)) ∧
  (∀ k1 k2 sm1 sm2, activeSwaps s !! k1 = Some sm1 → activeSwaps s !! k2 = Some sm2 →
     k1 ≠ k2 → GetScid (sm_Data sm1) ≠ "" →
     GetScid (sm_Data sm1) ≠ GetScid (sm_Data sm2)).
Proof.
  intros Hr. change (service_ok s). induction Hr as [|s op w w' s' _ IH Hrun].
  - by split.
  - exact (wp_elim _ _ _ _ _ _ (run_op_ok op w s IH) Hrun).
Qed.

(** ** Who can move a swap *)
Section sender.
Context {EV : Env}.

(** The swaps of other peers than [p] are as they were, and no other call was
    made. *)
Definition others_untouched (p : string) (s s' : SwapService) : Prop :=
  ∀ key sm, activeSwaps s !! key = Some sm → PeerNodeId (sm_Data sm) ≠ p →
    activeSwaps s' !! key = Some sm.

Lemma untouched_same p s s' : activeSwaps s' = activeSwaps s → others_untouched p s s'.
Proof. unfold others_untouched. by intros ->. Qed.

Lemma deliver_others p id ev ctx w s sm :
  service_ok s → activeSwaps s !! id = Some sm → PeerNodeId (sm_Data sm) = p →
  wp (deliver id ev ctx) (λ _ s', others_untouched p s (snd s')) any_stop (w, s).
Proof.
  intros [Hkeys _] E Hp. unfold deliver. svc_step. unfold GetActiveSwap. do 2 svc_step.
  rewrite E. apply wp_ret. svc_step. unfold on_machine. svc_step.
  eapply wp_mono with (R := any_stop) (Q := λ _ _, True); [|..|by intros ? [] ?].
  { unfold wp. by destruct (SendEvent ev ctx (w, sm)). }
  intros [done [e|]] [w' sm'] _.
  - apply wp_ret. intros key sm0 Hk Hne. cbn.
    rewrite lookup_insert_ne; [done|]. intros <-. congruence.
  - svc_step. unfold remove_if. destruct done; unfold RemoveActiveSwap; repeat svc_step;
      intros key sm0 Hk Hne; cbn.
    + rewrite <- (Hkeys id sm E).
      rewrite lookup_delete_ne, lookup_insert_ne; [done|..]; intros <-; congruence.
    + rewrite lookup_insert_ne; [done|]. intros <-. congruence.
Qed.

Lemma from_peer_others {T} (r : result (option T)) get_id p t h w s :
  service_ok s →
  (∀ msg w s0 sm, service_ok s0 → activeSwaps s0 !! SwapId_String (get_id msg) = Some sm →
     PeerNodeId (sm_Data sm) = p →
     wp (h msg) (λ _ s', others_untouched p s0 (snd s')) any_stop (w, s0)) →
  wp (from_peer r get_id p t h) (λ _ s', others_untouched p s (snd s')) any_stop (w, s).
Proof.
  intros Hs Hh. unfold from_peer.
  destruct r as [msg|e]; [|by apply wp_ret, untouched_same].
  do 2 svc_step; [|done]. rename a into m. unfold logMsg. do 3 svc_step.
  unfold isMessageSenderExpectedPeer. svc_step. unfold GetActiveSwap. do 2 svc_step. cbn.
  destruct (activeSwaps s !! SwapId_String (get_id m)) as [sm|] eqn:E;
    [|do 2 apply wp_ret; by apply untouched_same].
  do 2 apply wp_ret. case_bool_decide; [|by apply wp_ret, untouched_same].
  match goal with |- wp _ _ _ (_, ?s1) => by eapply (Hh m _ s1 sm) end.
Qed.
End sender.

(** The message types that belong to a running swap. *)
Definition swap_message_types : list MessageType :=
  [MESSAGETYPE_SWAPOUTAGREEMENT; MESSAGETYPE_OPENINGTXBROADCASTED; MESSAGETYPE_CANCELED;
   MESSAGETYPE_SWAPINAGREEMENT; MESSAGETYPE_COOPCLOSE].

(** Only the peer of a swap can move it: a message about a running swap
    (agreement, opening transaction, cancel, coop close) from peer [p] leaves
    every active swap with another peer exactly as it was, whatever swap id and
    content the message carries. *)
Theorem only_the_peer_moves_a_swap {EV : Env} p t payload ty w s w' s' r :
  service_ok s → PeerswapCustomMessageType t = Ok ty → ty ∈ swap_message_types →
  OnMessageReceived p t payload (w, s) = Ret (w', s') r →
  ∀ key sm, activeSwaps s !! key = Some sm → PeerNodeId (sm_Data sm) ≠ p →
    activeSwaps s' !! key = Some sm.
Proof.
  intros Hs Hty Hin Hrun. change (others_untouched p s (w', s').2).
  refine (wp_elim (OnMessageReceived p t payload)
    (λ _ s', others_untouched p s (snd s')) any_stop _ _ _ _ Hrun).
  unfold OnMessageReceived. case_bool_decide; [by apply wp_ret, untouched_same|]. rewrite Hty.
  assert (ty ≠ MESSAGETYPE_SWAPOUTREQUEST ∧ ty ≠ MESSAGETYPE_SWAPINREQUEST) as [H1 H2].
  { split; intros ->; apply (bool_decide_pack _) in Hin; by vm_compute in Hin. }
  rewrite (bool_decide_false _ H1), (bool_decide_false _ H2).
  do 5 (case_bool_decide;
    [apply from_peer_others; [done|]; intros; by eapply deliver_others|]).
  by apply wp_ret, untouched_same.
Qed.

(** ** The json value null *)
Definition is_nil {T} (r : result (option T)) : bool :=
  match r with Ok None => true | _ => false end.

(** The payload of a message of this type decodes into a nil pointer. *)
Definition decodes_to_nil `{!Env} (ty : MessageType) (payload : string) : bool :=
  if bool_decide (ty = MESSAGETYPE_SWAPOUTREQUEST) then is_nil (json_SwapOutRequest payload)
  else if bool_decide (ty = MESSAGETYPE_SWAPOUTAGREEMENT) then
    is_nil (json_SwapOutAgreement payload)
  else if bool_decide (ty = MESSAGETYPE_OPENINGTXBROADCASTED) then
    is_nil (json_OpeningTxBroadcasted payload)
  else if bool_decide (ty = MESSAGETYPE_CANCELED) then is_nil (json_Cancel payload)
  else if bool_decide (ty = MESSAGETYPE_SWAPINREQUEST) then is_nil (json_SwapInRequest payload)
  else if bool_decide (ty = MESSAGETYPE_SWAPINAGREEMENT) then
    is_nil (json_SwapInAgreement payload)
  else if bool_decide (ty = MESSAGETYPE_COOPCLOSE) then is_nil (json_CoopClose payload)
  else false.

Lemma from_peer_nil {EV : Env} {T} (r : result (option T)) get_id p t h (s : World * SwapService) :
  is_nil r = true → from_peer r get_id p t h s = Panic s.
Proof. by destruct r as [[m|]|e]. Qed.
Lemma from_requester_nil {EV : Env} {T} (r : result (option T)) get_id t h
    (s : World * SwapService) :
  is_nil r = true → from_requester r get_id t h s = Panic s.
Proof. by destruct r as [[m|]|e]. Qed.

(** A message whose payload is the json value null crashes the daemon: any
    peer can send it, since it is decoded into a nil pointer that is used before
    the sender is looked at. *)
Theorem null_message_crashes {EV : Env} p t payload ty (s : World * SwapService) :
  PeerswapCustomMessageType t = Ok ty → (String.length payload ≤ 100 * 1024)%nat →
  decodes_to_nil ty payload = true → OnMessageReceived p t payload s = Panic s.
Proof.
  intros Hty Hlen. unfold OnMessageReceived. rewrite bool_decide_false by lia. rewrite Hty.
  unfold decodes_to_nil. repeat case_bool_decide; auto using from_peer_nil, from_requester_nil; done.
Qed.
