(* ===== verification/MessageCodec.v ===== *)
(** * The messages on the wire (src/swap/messages.go, src/swap/swap.go, src/swap/service.go)

    The fields of the seven message structs, as JsonStruct prints and stores them.
    [codec] puts this codec into an [Env], where the rest of the development leaves it
    open; it satisfies the interface [MessageCodec]: what one node marshals the other
    one reads back, and whatever is read back is well formed. *)

From S2P Require Import Prelude GoLib Messages Premium Policy SwapData Timelock Env Store.
From S2P Require Import Demo Actions Fsm Service ServiceProofs Json JsonStruct.
Import utf8.

(** ** Swap ids *)
Section swap_ids.
Context {T : Type} (struct name : string).
(** [SwapId.UnmarshalJSON], which is not called for null; the decoder of the message puts
    its field into the error of the inner [Unmarshal]. *)
Definition SwapId_UnmarshalJSON (v : json) : result SwapId :=
  match v with
  | JStr s => ParseSwapIdFromString s
  | _ => Err (UnmarshalTypeError (value_kind v) (field_place struct name) "string")
  end.
(** [SwapId.MarshalJSON], which is not called for a nil pointer. *)
Definition SwapId_MarshalJSON (id : option SwapId) : json :=
  match id with None => JNull | Some _ => JStr (SwapId_String id) end.
Definition swapId_field (get : T → option SwapId) (set : option SwapId → T → T) : Field T :=
  mkField name
    (λ v t, match v with
            | JNull => Done (set None t)
            | _ => match SwapId_UnmarshalJSON v with
                   | Ok id => Done (set (Some id) t)
                   | Err e => GivenUp e
                   end
            end)
    (λ t, SwapId_MarshalJSON (get t)) (λ _, false)
    (λ t, match get t with Some id => SwapId_wf id | None => True end).

End swap_ids.

Section swap_id_laws.
Context {T : Type} (struct name : string).
Lemma swapId_lawful get set : Lawful (swapId_field struct name get set) (λ t t0 : T, set (get t) t0).
Proof.
  split; intros t.
  - intros t0 Hok. cbn in *. destruct (get t) as [id|]; [|done]. cbn.
    unfold ParseSwapIdFromString. rewrite hex.decode_encode. by rewrite bool_decide_true.
  - cbn. intros _. destruct (get t) as [id|]; [|done]. apply valid_hex.
  - cbn. destruct (get t); cbn; lia.
Qed.
Lemma swapId_stored get set v (t t' : T) :
  f_set (swapId_field struct name get set) v t = Done t' →
  ∃ id, match id with Some id => SwapId_wf id | None => True end ∧ t' = set id t.
Proof.
  destruct v as [| | |s| |]; cbn; intros H; simplify_eq; [by exists None|].
  unfold ParseSwapIdFromString in H. destruct (hex.DecodeString s) as [id [e|]]; [done|].
  case_bool_decide; [|done]. injection H as [= <-]. by exists (Some id).
Qed.
End swap_id_laws.
#[export] Hint Resolve swapId_lawful : lawful.
Ltac stored_other H ::=
  lazymatch type of H with
  | f_set (swapId_field _ _ _ _) _ _ = _ => apply swapId_stored in H as (? & ? & ->)
  end.

(** ** The seven messages: their fields in the order of the structs

    The tags are those of the source; [Payreq] of SwapOutAgreementMessage has none. *)
Module SwapInRequestCodec.
Import SwapInRequestMessage.
Definition struct : string := "SwapInRequestMessage".
#[export] Instance eta : Eta t := λ m, mk (ProtocolVersion m) (SwapId m) (Network m) (Asset m) (Scid m) (Amount m) (Pubkey m) (PremiumLimit m).
Definition zero : t := mk 0 None "" "" "" 0 "" 0.
Definition fields : list (Field t) := [
  uint_field struct "protocol_version" 8 ProtocolVersion (λ x m, m <| ProtocolVersion := x |>);
  swapId_field struct "swap_id" SwapId (λ x m, m <| SwapId := x |>);
  string_field struct "network" Network (λ x m, m <| Network := x |>);
  string_field struct "asset" Asset (λ x m, m <| Asset := x |>);
  string_field struct "scid" Scid (λ x m, m <| Scid := x |>);
  uint_field struct "amount" 64 Amount (λ x m, m <| Amount := x |>);
  string_field struct "pubkey" Pubkey (λ x m, m <| Pubkey := x |>);
  int64_field struct "acceptable_premium" PremiumLimit (λ x m, m <| PremiumLimit := x |>)].
End SwapInRequestCodec.
Module SwapInAgreementCodec.
Import SwapInAgreementMessage.
Definition struct : string := "SwapInAgreementMessage".
#[export] Instance eta : Eta t := λ m, mk (ProtocolVersion m) (SwapId m) (Pubkey m) (Premium m).
Definition zero : t := mk 0 None "" 0.
Definition fields : list (Field t) := [
  uint_field struct "protocol_version" 8 ProtocolVersion (λ x m, m <| ProtocolVersion := x |>);
  swapId_field struct "swap_id" SwapId (λ x m, m <| SwapId := x |>);
  string_field struct "pubkey" Pubkey (λ x m, m <| Pubkey := x |>);
  int64_field struct "premium" Premium (λ x m, m <| Premium := x |>)].
End SwapInAgreementCodec.
Module SwapOutRequestCodec.
Import SwapOutRequestMessage.
Definition struct : string := "SwapOutRequestMessage".
#[export] Instance eta : Eta t := λ m, mk (ProtocolVersion m) (SwapId m) (Asset m) (Network m) (Scid m) (Amount m) (Pubkey m) (PremiumLimit m).
Definition zero : t := mk 0 None "" "" "" 0 "" 0.
Definition fields : list (Field t) := [
  uint_field struct "protocol_version" 8 ProtocolVersion (λ x m, m <| ProtocolVersion := x |>);
  swapId_field struct "swap_id" SwapId (λ x m, m <| SwapId := x |>);
  string_field struct "asset" Asset (λ x m, m <| Asset := x |>);
  string_field struct "network" Network (λ x m, m <| Network := x |>);
  string_field struct "scid" Scid (λ x m, m <| Scid := x |>);
  uint_field struct "amount" 64 Amount (λ x m, m <| Amount := x |>);
  string_field struct "pubkey" Pubkey (λ x m, m <| Pubkey := x |>);
  int64_field struct "acceptable_premium" PremiumLimit (λ x m, m <| PremiumLimit := x |>)].
End SwapOutRequestCodec.
Module SwapOutAgreementCodec.
Import SwapOutAgreementMessage.
Definition struct : string := "SwapOutAgreementMessage".
#[export] Instance eta : Eta t := λ m, mk (ProtocolVersion m) (SwapId m) (Pubkey m) (Payreq m) (Premium m).
Definition zero : t := mk 0 None "" "" 0.
Definition fields : list (Field t) := [
  uint_field struct "protocol_version" 8 ProtocolVersion (λ x m, m <| ProtocolVersion := x |>);
  swapId_field struct "swap_id" SwapId (λ x m, m <| SwapId := x |>);
  string_field struct "pubkey" Pubkey (λ x m, m <| Pubkey := x |>);
  string_field struct "Payreq" Payreq (λ x m, m <| Payreq := x |>);
  int64_field struct "premium" Premium (λ x m, m <| Premium := x |>)].
End SwapOutAgreementCodec.
Module OpeningTxBroadcastedCodec.
Import OpeningTxBroadcastedMessage.
Definition struct : string := "OpeningTxBroadcastedMessage".
#[export] Instance eta : Eta t := λ m, mk (SwapId m) (Payreq m) (TxId m) (ScriptOut m) (BlindingKey m).
Definition zero : t := mk None "" "" 0 "".
Definition fields : list (Field t) := [
  swapId_field struct "swap_id" SwapId (λ x m, m <| SwapId := x |>);
  string_field struct "payreq" Payreq (λ x m, m <| Payreq := x |>);
  string_field struct "tx_id" TxId (λ x m, m <| TxId := x |>);
  uint_field struct "script_out" 32 ScriptOut (λ x m, m <| ScriptOut := x |>);
  string_field struct "blinding_key" BlindingKey (λ x m, m <| BlindingKey := x |>)].
End OpeningTxBroadcastedCodec.
Module CancelCodec.
Import CancelMessage.
Definition struct : string := "CancelMessage".
#[export] Instance eta : Eta t := λ m, mk (SwapId m) (Message m).
Definition zero : t := mk None "".
Definition fields : list (Field t) := [
  swapId_field struct "swap_id" SwapId (λ x m, m <| SwapId := x |>);
  string_field struct "message" Message (λ x m, m <| Message := x |>)].
End CancelCodec.
Module CoopCloseCodec.
Import CoopCloseMessage.
Definition struct : string := "CoopCloseMessage".
#[export] Instance eta : Eta t := λ m, mk (SwapId m) (Message m) (Privkey m).
Definition zero : t := mk None "" "".
Definition fields : list (Field t) := [
  swapId_field struct "swap_id" SwapId (λ x m, m <| SwapId := x |>);
  string_field struct "message" Message (λ x m, m <| Message := x |>);
  string_field struct "privkey" Privkey (λ x m, m <| Privkey := x |>)].
End CoopCloseCodec.

(** What is sent: [MarshalPeerswapMessage] gets a struct or a pointer to one. *)
Definition Marshal_message (m : PeerMessage) : string :=
  match m with
  | MsgSwapInRequest m => Marshal SwapInRequestCodec.fields m
  | MsgSwapInAgreement m => Marshal SwapInAgreementCodec.fields m
  | MsgSwapOutRequest m => Marshal SwapOutRequestCodec.fields m
  | MsgSwapOutAgreement m => Marshal SwapOutAgreementCodec.fields m
  | MsgOpeningTxBroadcasted m => Marshal OpeningTxBroadcastedCodec.fields m
  | MsgCancel m => Marshal CancelCodec.fields m
  | MsgCoopClose m => Marshal CoopCloseCodec.fields m
  end.
Definition message_ok (m : PeerMessage) : Prop :=
  match m with
  | MsgSwapInRequest m => fields_ok SwapInRequestCodec.fields m
  | MsgSwapInAgreement m => fields_ok SwapInAgreementCodec.fields m
  | MsgSwapOutRequest m => fields_ok SwapOutRequestCodec.fields m
  | MsgSwapOutAgreement m => fields_ok SwapOutAgreementCodec.fields m
  | MsgOpeningTxBroadcasted m => fields_ok OpeningTxBroadcastedCodec.fields m
  | MsgCancel m => fields_ok CancelCodec.fields m
  | MsgCoopClose m => fields_ok CoopCloseCodec.fields m
  end.

(** The environment [E] with this codec. *)
Definition codec (E : Env) : Env := {|
  PrivKeyFromBytes := @PrivKeyFromBytes E; PubKey := @PubKey E; sha256 := @sha256 E;
  json_Marshal := λ m, Ok (Marshal_message m);
  json_SwapInRequest := Unmarshal SwapInRequestCodec.fields ("swap." +:+ SwapInRequestCodec.struct) SwapInRequestCodec.zero;
  json_SwapInAgreement := Unmarshal SwapInAgreementCodec.fields ("swap." +:+ SwapInAgreementCodec.struct) SwapInAgreementCodec.zero;
  json_SwapOutRequest := Unmarshal SwapOutRequestCodec.fields ("swap." +:+ SwapOutRequestCodec.struct) SwapOutRequestCodec.zero;
  json_SwapOutAgreement := Unmarshal SwapOutAgreementCodec.fields ("swap." +:+ SwapOutAgreementCodec.struct) SwapOutAgreementCodec.zero;
  json_OpeningTxBroadcasted := Unmarshal OpeningTxBroadcastedCodec.fields ("swap." +:+ OpeningTxBroadcastedCodec.struct) OpeningTxBroadcastedCodec.zero;
  json_Cancel := Unmarshal CancelCodec.fields ("swap." +:+ CancelCodec.struct) CancelCodec.zero;
  json_CoopClose := Unmarshal CoopCloseCodec.fields ("swap." +:+ CoopCloseCodec.struct) CoopCloseCodec.zero;
  bitcoinEnabled := @bitcoinEnabled E; liquidEnabled := @liquidEnabled E; ask := @ask E |}.

(** ** The interface the swap service relies on *)

(** A message of a type as [OnMessageReceived] reads it. *)
Definition Unmarshal_message {EV : Env} (ty : MessageType) (b : string) : result (option PeerMessage) :=
  let msg {T} (c : T → PeerMessage) (r : result (option T)) : result (option PeerMessage) :=
    match r with Ok m => Ok (c <$> m) | Err e => Err e end in
  if bool_decide (ty = MESSAGETYPE_SWAPOUTREQUEST) then msg MsgSwapOutRequest (json_SwapOutRequest b)
  else if bool_decide (ty = MESSAGETYPE_SWAPOUTAGREEMENT) then msg MsgSwapOutAgreement (json_SwapOutAgreement b)
  else if bool_decide (ty = MESSAGETYPE_OPENINGTXBROADCASTED) then
    msg MsgOpeningTxBroadcasted (json_OpeningTxBroadcasted b)
  else if bool_decide (ty = MESSAGETYPE_CANCELED) then msg MsgCancel (json_Cancel b)
  else if bool_decide (ty = MESSAGETYPE_SWAPINREQUEST) then msg MsgSwapInRequest (json_SwapInRequest b)
  else if bool_decide (ty = MESSAGETYPE_SWAPINAGREEMENT) then msg MsgSwapInAgreement (json_SwapInAgreement b)
  else if bool_decide (ty = MESSAGETYPE_COOPCLOSE) then msg MsgCoopClose (json_CoopClose b)
  else Ok None.

Lemma message_roundtrip (E : Env) (m : PeerMessage) :
  message_ok m →
  Unmarshal_message (EV := codec E) (PeerMessage_MessageType m) (Marshal_message m) = Ok (Some m).
Proof.
  intros Hok. destruct m as [m|m|m|m|m|m|m]; cbn in Hok.
  all: unfold Unmarshal_message, PeerMessage_MessageType; cbn [codec json_SwapOutRequest
    json_SwapOutAgreement json_OpeningTxBroadcasted json_Cancel json_SwapInRequest json_SwapInAgreement
    json_CoopClose Marshal_message].
  all: repeat first [rewrite bool_decide_true by done | rewrite bool_decide_false by done].
  all: erewrite Unmarshal_Marshal; [done|lawful|names|names|done|by destruct m].
Qed.

Lemma message_sound (E : Env) ty b m :
  Unmarshal_message (EV := codec E) ty b = Ok (Some m) → message_ok m ∧ PeerMessage_MessageType m = ty.
Proof.
  unfold Unmarshal_message. cbn [codec json_SwapOutRequest json_SwapOutAgreement
    json_OpeningTxBroadcasted json_Cancel json_SwapInRequest json_SwapInAgreement json_CoopClose].
  repeat case_bool_decide; try done.
  all: destruct (Unmarshal _ _ _ _) as [[x|]|e] eqn:Ex; try done.
  all: intros [= <-]; cbn [message_ok PeerMessage_MessageType]; split; [|done].
  all: revert Ex; apply Unmarshal_sound; [all_sound|zero_ok].
Qed.

(** What two nodes rely on: messages can be marshalled, arrive as they were sent,
    and whatever arrives is well formed and of the type it came with. *)
Class MessageCodec (EV : Env) : Prop := {
  codec_marshals m : ∃ b, json_Marshal m = Ok b;
  codec_roundtrip m b : message_ok m → json_Marshal m = Ok b →
    Unmarshal_message (PeerMessage_MessageType m) b = Ok (Some m);
  codec_sound ty b m : Unmarshal_message ty b = Ok (Some m) →
    message_ok m ∧ PeerMessage_MessageType m = ty;
}.
#[export] Instance codec_MessageCodec (E : Env) : MessageCodec (codec E).
Proof.
  split.
  - intros m. by eexists.
  - intros m b Hm [= <-]. by apply message_roundtrip.
  - intros ty b m. apply message_sound.
Qed.

(** ** Between two services *)
Section delivery.
Context {EV : Env}.

(** What [OnMessageReceived] does with a message once it is read. *)
Definition handle_message (peerId t : string) (m : PeerMessage) : Svc SwapService (option error) :=
  match m with
  | MsgSwapOutRequest m => from_requester (Ok (Some m)) SwapOutRequestMessage.SwapId t
      (λ msg, OnSwapOutRequestReceived (SwapOutRequestMessage.SwapId msg) peerId msg)
  | MsgSwapOutAgreement m => from_peer (Ok (Some m)) SwapOutAgreementMessage.SwapId peerId t
      OnSwapOutAgreementReceived
  | MsgOpeningTxBroadcasted m => from_peer (Ok (Some m)) OpeningTxBroadcastedMessage.SwapId peerId t
      OnTxOpenedMessage
  | MsgCancel m => from_peer (Ok (Some m)) CancelMessage.SwapId peerId t
      (λ msg, OnCancelReceived (CancelMessage.SwapId msg) msg)
  | MsgSwapInRequest m => from_requester (Ok (Some m)) SwapInRequestMessage.SwapId t
      (λ msg, OnSwapInRequestReceived (SwapInRequestMessage.SwapId msg) peerId msg)
  | MsgSwapInAgreement m => from_peer (Ok (Some m)) SwapInAgreementMessage.SwapId peerId t
      OnSwapInAgreementReceived
  | MsgCoopClose m => from_peer (Ok (Some m)) CoopCloseMessage.SwapId peerId t
      (λ msg, OnCoopCloseReceived (CoopCloseMessage.SwapId msg) msg)
  end.

Lemma OnMessageReceived_reads p t ty payload m :
  PeerswapCustomMessageType t = Ok ty → (String.length payload ≤ 100 * 1024)%nat →
  Unmarshal_message ty payload = Ok (Some m) → OnMessageReceived p t payload = handle_message p t m.
Proof.
  intros Hty Hlen. unfold OnMessageReceived. rewrite bool_decide_false by lia. rewrite Hty. unfold Unmarshal_message.
  repeat case_bool_decide; try done.
  all: match goal with |- match ?r with _ => _ end = _ → _ => destruct r as [[x|]|e]; try done end.
  all: by intros [= <-].
Qed.

Lemma message_type_read m :
  PeerswapCustomMessageType (MessageTypeToHexString (PeerMessage_MessageType m)) =
  Ok (PeerMessage_MessageType m).
Proof. by destruct m. Qed.

(** A message that was sent is handled as it was, unless it is too large. *)
Lemma sent_is_handled {MC : MessageCodec EV} p m b :
  json_Marshal m = Ok b → message_ok m → (String.length b ≤ 100 * 1024)%nat →
  let t := MessageTypeToHexString (PeerMessage_MessageType m) in
  OnMessageReceived p t b = handle_message p t m.
Proof.
  intros Hb Hm Hlen. apply OnMessageReceived_reads with (PeerMessage_MessageType m);
    [apply message_type_read|done|by apply codec_roundtrip].
Qed.
End delivery.

(** C39. The messages survive the wire.  The json of each of the seven messages, with the
    keys of its struct, is read back as exactly the same message if its strings are
    UTF-8, its numbers fit their types and its swap id has 32 bytes; it is handed as such
    to the handler of its type by [OnMessageReceived], from whatever peer it comes.  And
    whatever bytes arrive: a message that is read from them has these properties, so
    that the next node reads what this one would send again. *)
Theorem messages_survive_the_wire (E : Env) :
  (∀ m, message_ok m →
    Unmarshal_message (EV := codec E) (PeerMessage_MessageType m) (Marshal_message m) = Ok (Some m) ∧
    ((String.length (Marshal_message m) ≤ 100 * 1024)%nat → ∀ p s,
      let t := MessageTypeToHexString (PeerMessage_MessageType m) in
      OnMessageReceived (H := codec E) p t (Marshal_message m) s = handle_message (EV := codec E) p t m s)) ∧
  (∀ ty b m, Unmarshal_message (EV := codec E) ty b = Ok (Some m) →
    message_ok m ∧ Unmarshal_message (EV := codec E) ty (Marshal_message m) = Ok (Some m)).
Proof.
  split.
  - intros m Hm. split; [by apply message_roundtrip|]. intros Hlen p s. cbv zeta.
    by rewrite (sent_is_handled (EV := codec E) p m (Marshal_message m)).
  - intros ty b m H. apply message_sound in H as [Hm <-]. split; [done|by apply message_roundtrip].
Qed.

(** The json value null is read as no message, and its handler crashes: for every type,
    from any peer, in any state. *)
Theorem null_payload_crashes (E : Env) p m (s : World * SwapService) :
  OnMessageReceived (H := codec E) p (MessageTypeToHexString (PeerMessage_MessageType m)) "null" s = Panic s.
Proof.
  apply (null_message_crashes (EV := codec E) _ _ _ (PeerMessage_MessageType m)).
  - apply message_type_read.
  - apply Nat.leb_le. by vm_compute.
  - by destruct m.
Qed.
(** A key of any case is accepted, the last one of several counts, what is unknown is
    skipped, and null leaves a field as it is. *)
Example cancel_ex (E : Env) :
  Unmarshal_message (EV := codec E) MESSAGETYPE_CANCELED
    (doc "{'mesSage':'a','other':[{}],'MESSAGE' : 'b\u00e9\n','message':null}") =
  Ok (Some (MsgCancel (CancelMessage.mk None ("b" +:+ bytes [195; 169; 10])))).
Proof. vm_compute. reflexivity. Qed.
Example agreement_ex (E : Env) :
  Unmarshal_message (EV := codec E) MESSAGETYPE_SWAPOUTAGREEMENT (doc "{'protocol_version':256,'payreq':'x'}") =
  Err (ErrTyped "json.UnmarshalTypeError"
    "json: cannot unmarshal number 256 into Go struct field SwapOutAgreementMessage.protocol_version of type uint8").
Proof. vm_compute. reflexivity. Qed.
Example swap_id_ex (E : Env) :
  Unmarshal_message (EV := codec E) MESSAGETYPE_SWAPINAGREEMENT (doc "{'swap_id':5,'premium':1}") =
  Err (ErrTyped "json.UnmarshalTypeError"
    "json: cannot unmarshal number into Go struct field SwapInAgreementMessage.swap_id of type string").
Proof. vm_compute. reflexivity. Qed.
(** [Payreq] has no tag: it goes over the wire under the name of the field. *)
Example payreq_key (E : Env) :
  Marshal_message (MsgSwapOutAgreement (SwapOutAgreementMessage.mk 5 None "02" "lnbc1" (-7))) =
  doc "{'protocol_version':5,'swap_id':null,'pubkey':'02','Payreq':'lnbc1','premium':-7}".
Proof. vm_compute. reflexivity. Qed.

Example messages_survive_the_wire_witness :
  let m := MsgSwapOutAgreement (SwapOutAgreementMessage.mk 5 (Some demo_key) demo_pub "lnbc1<>" (-7)) in
  Unmarshal_message (EV := codec demo) MESSAGETYPE_SWAPOUTAGREEMENT (Marshal_message m) = Ok (Some m).
Proof.
  intros m. refine (proj1 (proj1 (messages_survive_the_wire demo) m _)). zero_ok.
Defined.
