(* ===== verification/Scenarios.v ===== *)
(** * Worked runs

    Complete runs of the machines and of the service in the environment of
    Demo: the happy paths of a taker and of a maker, and the runs that show
    where the code does not do what its comments promise.  Everything here is
    evaluated. *)

From S2P Require Import Prelude GoLib Messages Premium Policy SwapData Timelock Env Demo Store.
From S2P Require Import Actions ActionProofs Fsm FsmProofs Safety Service ServiceProofs.

(** A script of events for one machine. *)
Fixpoint run_script `{!Env} (script : list (EventType * option PeerMessage))
    (s : World * SwapStateMachine) : option (World * SwapStateMachine) :=
  match script with
  | [] => Some s
  | (ev, ctx) :: script =>
      match SendEvent ev ctx s with
      | Ret s' _ => run_script script s'
      | _ => None
      end
  end.

Lemma machine_run_app {EV : Env} sm1 h1 sm2 h2 sm3 :
  machine_run sm1 h1 sm2 → machine_run sm2 h2 sm3 → machine_run sm1 (h2 ++ h1) sm3.
Proof.
  intros H1. induction 1 as [|sm h sm3 w w' sm4 new _ IH Hs Hn]; [done|].
  rewrite <- (assoc_L (++)). eapply run_step; eauto.
Qed.

(** [SendEvent] only adds to the record of calls. *)
Lemma SendEvent_hist {EV : Env} ev ctx w sm w' sm' r :
  SendEvent ev ctx (w, sm) = Ret (w', sm') r → ∃ new, hist w' = new ++ hist w.
Proof.
  intros Hrun.
  set (region := sm_Current sm :: Default :: (states_for (sm_Type sm) (sm_Role sm)).*1).
  assert (region_closed (states_for (sm_Type sm) (sm_Role sm)) region = true) as Hc.
  { subst region. destruct (sm_Type sm), (sm_Role sm), (sm_Current sm); by vm_compute. }
  destruct (machine_step_region _ _ region Hc w sm w' sm') as [_ Hq].
  - split; [done|]. split; [done|left].
  - by eapply step_event.
  - apply hist_ext_iff in Hq as (new & -> & _). eauto.
Qed.

Lemma script_run {EV : Env} script w sm w' sm' :
  run_script script (w, sm) = Some (w', sm') →
  ∃ h, hist w' = h ++ hist w ∧ machine_run sm h sm'.
Proof.
  revert w sm. induction script as [|[ev ctx] script IH]; intros w sm.
  - intros [= <- <-]. exists []. split; [done|constructor].
  - cbn. destruct (SendEvent ev ctx (w, sm)) as [[w1 sm1] r| |] eqn:E; [|done..].
    intros (h & Hh & Hrun)%IH. destruct (SendEvent_hist _ _ _ _ _ _ _ E) as [new Hnew].
    exists (h ++ new). rewrite Hh, Hnew. split; [by rewrite (assoc_L (++))|].
    eapply machine_run_app; [|exact Hrun]. rewrite <- (app_nil_r new).
    eapply run_step; [constructor|by eapply step_event|done].
Qed.

(** ** Messages and machines of the examples *)
Definition id1 : SwapId := demo_key.
Definition peer1 : string := demo_pub.
Definition scid1 : string := "100x1x0".

Definition out_request : SwapOutRequestMessage.t := {|
  SwapOutRequestMessage.ProtocolVersion := 7; SwapOutRequestMessage.SwapId := Some id1;
  SwapOutRequestMessage.Asset := ""; SwapOutRequestMessage.Network := "regtest";
  SwapOutRequestMessage.Scid := scid1; SwapOutRequestMessage.Amount := 100000;
  SwapOutRequestMessage.Pubkey := demo_pub; SwapOutRequestMessage.PremiumLimit := 1000 |}.
Definition out_agreement : SwapOutAgreementMessage.t := {|
  SwapOutAgreementMessage.ProtocolVersion := 7; SwapOutAgreementMessage.SwapId := Some id1;
  SwapOutAgreementMessage.Pubkey := demo_pub; SwapOutAgreementMessage.Payreq := "300000";
  SwapOutAgreementMessage.Premium := 200 |}.
Definition opening_message : OpeningTxBroadcastedMessage.t := {|
  OpeningTxBroadcastedMessage.SwapId := Some id1;
  OpeningTxBroadcastedMessage.Payreq := "100200000";
  OpeningTxBroadcastedMessage.TxId := demo_hex32;
  OpeningTxBroadcastedMessage.ScriptOut := 0;
  OpeningTxBroadcastedMessage.BlindingKey := "" |}.
Definition in_agreement : SwapInAgreementMessage.t := {|
  SwapInAgreementMessage.ProtocolVersion := 7; SwapInAgreementMessage.SwapId := Some id1;
  SwapInAgreementMessage.Pubkey := demo_pub; SwapInAgreementMessage.Premium := 0 |}.

Definition out_sender : SwapStateMachine :=
  new_machine (Some id1) SWAPTYPE_OUT SWAPROLE_SENDER (NewSwapData demo_key 0 "me" peer1).
Definition out_receiver : SwapStateMachine :=
  new_machine (Some id1) SWAPTYPE_OUT SWAPROLE_RECEIVER (NewSwapDataFromRequest demo_key 0 peer1).

Definition taker_script : list (EventType * option PeerMessage) :=
  [ (Event_OnSwapOutStarted, Some (MsgSwapOutRequest out_request));
    (Event_OnFeeInvoiceReceived, Some (MsgSwapOutAgreement out_agreement));
    (Event_OnTxOpenedMessage, Some (MsgOpeningTxBroadcasted opening_message));
    (Event_OnTxConfirmed, None) ].
Definition maker_script : list (EventType * option PeerMessage) :=
  [ (Event_OnSwapOutRequestReceived, Some (MsgSwapOutRequest out_request));
    (Event_OnFeeInvoicePaid, None);
    (Event_OnClaimInvoicePaid, None) ].

Definition end_state `{!Env} (script : list (EventType * option PeerMessage))
    (sm : SwapStateMachine) : option StateType :=
  (λ s, sm_Current (snd s)) <$> run_script script (demo_world, sm).

(** A swap-out, seen from both sides, ends claimed by the preimage. *)
Example taker_happy_path :
  end_state (H := demo) taker_script out_sender = Some State_ClaimedPreimage.
Proof. vm_compute. reflexivity. Qed.
Example maker_happy_path :
  end_state (H := demo) maker_script out_receiver = Some State_ClaimedPreimage.
Proof. vm_compute. reflexivity. Qed.

(** ** Where the code and its comments part

    The environments below answer like [demo] except for one call. *)
Definition claim_fails : Env := demo_env (λ _ c,
  match c with
  | CreatePreimageSpendingTransaction _ _ _ => Err (ErrText "no fee estimate")
  | c => demo_params c
  end).
Definition node_goes_down : Env := demo_env (λ h c,
  match c with
  | GetBlockHeight _ =>
      if existsb (λ e, is_opening (call_of e)) h then Err (ErrText "node is down") else Ok 100
  | c => demo_params c
  end).

Definition is_paid (e : Entry) : bool :=
  match e with
  | existT (RebalancePayment _ _ _) (Ok _) => true
  | _ => false
  end.
Definition is_coopclose (e : Entry) : bool :=
  match call_of e with
  | SendMessage _ _ t => bool_decide (t = MESSAGETYPE_COOPCLOSE)
  | _ => false
  end.
Definition is_published (e : Entry) : bool :=
  match e with
  | existT (CreateOpeningTransaction _ _) (Ok _) => true
  | _ => false
  end.
Definition is_csv_watch (e : Entry) : bool :=
  match call_of e with AddWaitForCsvTx _ _ _ _ _ _ _ => true | _ => false end.

(** The run of a script from the empty world, as a run of the machine. *)
Lemma script_witness {EV : Env} script sm (P : History → SwapStateMachine → bool) :
  match run_script script (demo_world, sm) with
  | Some (w', sm') => P (hist w') sm'
  | None => false
  end = true →
  ∃ h sm', machine_run sm h sm' ∧ P h sm' = true.
Proof.
  destruct (run_script script (demo_world, sm)) as [[w' sm']|] eqn:E; [|done].
  intros HP. apply script_run in E as (h & Hh & Hrun).
  exists h, sm'. split; [done|]. by rewrite Hh, app_nil_r in HP.
Qed.

Definition late_timeout_script : list (EventType * option PeerMessage) :=
  taker_script ++ [(Event_OnTimeout, None)].

(** The calls of the part of the record after the first call that satisfies [p]
    (in time). *)
Fixpoint after_first (p : Entry → bool) (h : History) : History :=
  match h with
  | [] => []
  | e :: h =>
      if existsb p h then e :: after_first p h else []
  end.

(** A swap-out sender that paid the claim invoice can still give its key
    away: [State_SwapOutSender_ClaimSwap] accepts the timeout of the request,
    which nothing cancels; when the claim transaction cannot be made at once,
    the timeout sends the private key to the maker and the swap ends as
    [State_ClaimedCoop], the invoice paid and the output given back. *)
Theorem paid_taker_can_disclose_key :
  ∃ h sm', machine_run (EV := claim_fails) out_sender h sm' ∧
    sm_Current sm' = State_ClaimedCoop ∧
    existsb is_paid h = true ∧ existsb is_coopclose (after_first is_paid h) = true.
Proof.
  destruct (script_witness (EV := claim_fails) late_timeout_script out_sender
    (λ h sm', bool_decide (sm_Current sm' = State_ClaimedCoop) && existsb is_paid h &&
              existsb is_coopclose (after_first is_paid h)))
    as (h & sm' & Hrun & [[Hst%bool_decide_eq_true Hp]%andb_true_iff Hc]%andb_true_iff);
    [by vm_compute|]. exists h, sm'. auto.
Qed.

(** A maker can be canceled after it published the opening transaction: when
    the block height cannot be read after the transaction was created, the swap
    ends as [State_SwapCanceled] with the output on the chain and no watch for
    the CSV refund. *)
Theorem published_maker_can_be_canceled :
  ∃ h sm', machine_run (EV := node_goes_down) out_receiver h sm' ∧
    sm_Current sm' = State_SwapCanceled ∧
    existsb is_published h = true ∧ existsb is_csv_watch h = false.
Proof.
  destruct (script_witness (EV := node_goes_down) (take 2 maker_script) out_receiver
    (λ h sm', bool_decide (sm_Current sm' = State_SwapCanceled) && existsb is_published h &&
              negb (existsb is_csv_watch h)))
    as (h & sm' & Hrun & [[Hst%bool_decide_eq_true Hp]%andb_true_iff Hc%negb_true_iff]%andb_true_iff);
    [by vm_compute|]. exists h, sm'. auto.
Qed.

(** A message that no state accepts can still crash the daemon: a swap-out
    sender that awaits its agreement rejects a swap-in agreement of its peer,
    but has recorded it; the swap-out agreement that follows then makes the
    premium check read the missing swap-in request. *)
Theorem stray_agreement_crashes :
  match run_script (H := demo) (take 1 taker_script) (demo_world, out_sender) with
  | None => False
  | Some s =>
      match SendEvent (H := demo) Event_SwapInSender_OnAgreementReceived
              (Some (MsgSwapInAgreement in_agreement)) s with
      | Ret s' (_, Some e) =>
          e = ErrEventRejected ∧ sm_Current (snd s') = sm_Current (snd s) ∧
          ∃ s'', SendEvent (H := demo) Event_OnFeeInvoiceReceived
                   (Some (MsgSwapOutAgreement out_agreement)) s' = Panic s''
      | _ => False
      end
  end.
Proof. vm_compute. split; [reflexivity|]. split; [reflexivity|]. eexists. reflexivity. Qed.

(** A swap-out of ours that waits for its agreement, in the service. *)
Definition busy_service : option (World * SwapService) :=
  '(w, sm) ← run_script (H := demo) (take 1 taker_script) (demo_world, out_sender);
  Some (w, mkService {[SwapId_String (Some id1) := sm]} ∅).
Definition reusing_request : SwapOutRequestMessage.t := {|
  SwapOutRequestMessage.ProtocolVersion := 7; SwapOutRequestMessage.SwapId := Some id1;
  SwapOutRequestMessage.Asset := ""; SwapOutRequestMessage.Network := "regtest";
  SwapOutRequestMessage.Scid := "200x1x0"; SwapOutRequestMessage.Amount := 100000;
  SwapOutRequestMessage.Pubkey := demo_pub; SwapOutRequestMessage.PremiumLimit := 1000 |}.

(** A request can take the place of a running swap: the id of a swap is
    chosen by the requester and [lockSwap] looks at the channel only, so a
    request of another peer on another channel with the id of a running swap
    replaces that swap in the service and in the database. *)
Theorem request_can_replace_swap :
  match busy_service with
  | None => False
  | Some (w, s) =>
      (PeerNodeId ∘ sm_Data <$> activeSwaps s !! SwapId_String (Some id1)) = Some peer1 ∧
      match OnSwapOutRequestReceived (H := demo) (Some id1) "other peer" reusing_request (w, s) with
      | Ret (w', s') r =>
          r = None ∧
          (PeerNodeId ∘ sm_Data <$> activeSwaps s' !! SwapId_String (Some id1)) =
            Some "other peer" ∧
          size (activeSwaps s') = 1%nat ∧
          (PeerNodeId ∘ st_Data <$> (swaps w' ≫= (!!) id1)) = Some "other peer"
      | _ => False
      end
  end.
Proof. vm_compute. repeat split. Qed.
