(* ===== verification/Witnesses.v ===== *)
(** * Concrete instances of the properties

    Each property with hypotheses is applied once, to a concrete machine, swap or
    service in the environment of Demo, so that its hypotheses are seen to hold
    together. *)

From S2P Require Import Prelude GoLib Messages Premium Policy SwapData Timelock Env Demo Store.
From S2P Require Import Actions ActionProofs Fsm FsmProofs Safety Payments Guards Publishing.
From S2P Require Import Acceptance.
From S2P Require Import Requests Service ServiceProofs Scenarios.

(** The state after a computation that returned. *)
Definition state_after {S A} (s : S) (o : outcome S A) : S :=
  match o with Ret s' _ => s' | Panic s' => s' | NoFuel s' => s' end.

(** A machine of the examples put into a state. *)
Definition at_state (st : StateType) (sm : SwapStateMachine) : SwapStateMachine :=
  sm <| sm_Current := st |>.

Definition in_receiver : SwapStateMachine :=
  new_machine (Some id1) SWAPTYPE_IN SWAPROLE_RECEIVER (NewSwapDataFromRequest demo_key 0 peer1).

(** ** The store *)
Definition stored_world : World :=
  fst (state_after (demo_world, ()) (UpdateData (H := demo) out_sender (demo_world, ()))).

Example store_update_get_witness :
  GetData (H := demo) (SwapId_String (Some id1)) (stored_world, ()) =
    Ret (record (H := demo) (DbBegin false) stored_world, ())
      (Ok (from_stored (to_stored out_sender))).
Proof.
  apply (store_update_get (H := demo) out_sender id1 demo_world stored_world () ()).
  - reflexivity.
  - vm_compute. reflexivity.
  - reflexivity.
Defined.

(** ** The machine *)
Example SendEvent_terminates_witness :
  match SendEvent (H := demo) Event_OnSwapOutStarted (Some (MsgSwapOutRequest out_request))
          (demo_world, out_sender) with
  | NoFuel _ => False
  | _ => True
  end.
Proof.
  pose proof (SendEvent_terminates (EV := demo) demo_world out_sender Event_OnSwapOutStarted
    (Some (MsgSwapOutRequest out_request))) as [H _]; [by vm_compute|].
  destruct (SendEvent (H := demo) _ _ _) as [[]| |]; [exact I|exact I|exact H].
Defined.

Definition last_step : World * SwapStateMachine :=
  match run_script (H := demo) (take 2 maker_script) (demo_world, out_receiver) with
  | Some s => s
  | None => (demo_world, out_receiver)
  end.
Definition last_result : World * SwapStateMachine :=
  state_after last_step (SendEvent (H := demo) Event_OnClaimInvoicePaid None last_step).

Example done_means_finished_witness : IsFinished (snd last_result) = true.
Proof.
  apply (done_means_finished (EV := demo) (fst last_step) (snd last_step) (fst last_result)
    (snd last_result) Event_OnClaimInvoicePaid None); [done|].
  left. vm_compute. reflexivity.
Defined.

Example SendEvent_persists_witness :
  (swaps (fst last_result) ≫= (!!) (h2b (SwapId_String (sm_SwapId (snd last_result))))) =
    Some (to_stored (snd last_result)).
Proof.
  apply (SendEvent_persists (EV := demo) (fst last_step) (snd last_step) (fst last_result)
    (snd last_result) Event_OnClaimInvoicePaid None true); [done|].
  left. vm_compute. reflexivity.
Defined.

Example rejected_event_harmless_witness :
  ∃ w' sm' b e, SendEvent (H := demo) Event_OnFeeInvoicePaid None (demo_world, out_sender) =
    Ret (w', sm') (b, Some e) ∧ sm' = out_sender.
Proof.
  destruct (rejected_event_harmless (EV := demo) demo_world out_sender Event_OnFeeInvoicePaid None)
    as (w' & sm' & b & e & H1 & _ & H2); [done|by vm_compute|done|].
  exists w', sm', b, e. split; [exact H1|].
  destruct H2 as [H2|(m & d & Hm & _)]; [exact H2|discriminate Hm].
Defined.

(** ** Runs *)

(** A swap-out sender that decided to disclose its key, and its run to the end. *)
Definition disclosing : SwapStateMachine := at_state State_SwapOutSender_SendPrivkey out_sender.

Example key_disclosed_never_pays_witness :
  ∃ h sm', machine_run (EV := demo) disclosing h sm' ∧
    Forall (λ e, is_payment (call_of e) = false) h.
Proof.
  destruct (script_witness (EV := demo) [(Event_ActionFailed, None)] disclosing
    (λ _ _, true)) as (h & sm' & Hrun & _); [by vm_compute|].
  exists h, sm'. split; [exact Hrun|].
  apply (key_disclosed_never_pays (EV := demo) disclosing h sm'); [by left|left|exact Hrun].
Defined.

Example swap_in_receiver_keeps_key_witness :
  ∃ h sm', machine_run (EV := claim_fails)
      (at_state State_SwapInReceiver_ClaimSwap in_receiver) h sm' ∧
    Forall (λ e, is_message (call_of e) = false) h.
Proof.
  destruct (script_witness (EV := claim_fails) [(Event_OnTimeout, None)]
    (at_state State_SwapInReceiver_ClaimSwap in_receiver)
    (λ _ _, true)) as (h & sm' & Hrun & _); [by vm_compute|].
  exists h, sm'. split; [exact Hrun|].
  by apply (swap_in_receiver_keeps_key (EV := claim_fails)
    (at_state State_SwapInReceiver_ClaimSwap in_receiver) h sm').
Defined.

(** The maker of the example awaits the payment; a cancel message of the peer. *)
Example announced_never_abandoned_witness :
  ∃ h sm', machine_run (EV := demo) (snd last_step) h sm' ∧ sm_Current sm' ∈ announced.
Proof.
  destruct (script_witness (EV := demo)
    [(Event_OnCancelReceived, Some (MsgCancel (CancelMessage.mk (Some id1) "stop")))]
    (snd last_step) (λ _ _, true)) as (h & sm' & Hrun & _); [by vm_compute|].
  exists h, sm'. split; [exact Hrun|].
  apply (announced_never_abandoned (EV := demo) (snd last_step) h sm');
    [left; by vm_compute|right; left|exact Hrun].
Defined.

Example finished_is_final_witness :
  ∃ h sm', machine_run (EV := demo) (at_state State_SwapCanceled out_sender) h sm' ∧
    sm_Current sm' = State_SwapCanceled.
Proof.
  destruct (script_witness (EV := demo) [(Event_OnTxConfirmed, None)]
    (at_state State_SwapCanceled out_sender)
    (λ _ _, true)) as (h & sm' & Hrun & _); [by vm_compute|].
  exists h, sm'. split; [exact Hrun|].
  by apply (finished_is_final (EV := demo) (at_state State_SwapCanceled out_sender) h sm').
Defined.

Example roles_separated_witness :
  ∃ h sm', machine_run (EV := demo) out_sender h sm' ∧
    existsb is_paid h = true ∧
    Forall (λ e, is_opening (call_of e) || is_refund (call_of e) = false) h.
Proof.
  destruct (script_witness (EV := demo) taker_script out_sender (λ h _, existsb is_paid h))
    as (h & sm' & Hrun & Hp); [by vm_compute|].
  exists h, sm'. split; [exact Hrun|]. split; [exact Hp|].
  apply (roles_separated (EV := demo) out_sender h sm'); [done|exact Hrun|by left].
Defined.

(** ** Payments *)

(** The taker's swap when the opening transaction was announced at height 100. *)
Definition paying : SwapData :=
  NewSwapData demo_key 0 "me" peer1 <| SwapOutRequest := Some out_request |>
    <| SwapOutAgreement := Some out_agreement |>
    <| OpeningTxBroadcasted := Some opening_message |> <| StartingBlockHeight := 100 |>.

Definition btc_policy : timelockPolicy := mkTimelockPolicy 1008 504 503 0 true.

Example payment_before_refund_witness :
  604 + 504 ≤ StartingBlockHeight paying + CSV btc_policy.
Proof.
  destruct (payment_before_refund Bitcoin paying btc_policy
    (mkDecoded demo_hex32 100200000 504) "100200000" 604) as [[_ H]|[H _]].
  1-5: by vm_compute.
  1-4: by vm_compute; try (split; congruence); try congruence.
  - exact H.
  - discriminate H.
Defined.

(** A swap-in of ours over 100000 sat, premium limit 1000, agreed premium 0. *)
Definition in_request : SwapInRequestMessage.t := {|
  SwapInRequestMessage.ProtocolVersion := 7; SwapInRequestMessage.SwapId := Some id1;
  SwapInRequestMessage.Network := "regtest"; SwapInRequestMessage.Asset := "";
  SwapInRequestMessage.Scid := scid1; SwapInRequestMessage.Amount := 100000;
  SwapInRequestMessage.Pubkey := demo_pub; SwapInRequestMessage.PremiumLimit := 1000 |}.
Definition agreed_in : SwapData :=
  NewSwapData demo_key 0 "me" peer1 <| SwapInRequest := Some in_request |>
    <| SwapInAgreement := Some in_agreement |>.
Definition broadcast_result : World * SwapData :=
  state_after (demo_world, agreed_in)
    (Execute (H := demo) (CheckPremiumAmount CreateAndBroadcastOpeningTransaction)
      (demo_world, agreed_in)).

Example premium_limit_enforced_witness :
  existsb is_published (hist (fst broadcast_result)) = true ∧
  made_when (within_limit agreed_in in_request) [] (hist (fst broadcast_result)).
Proof.
  split; [by vm_compute|].
  pose proof (premium_limit_enforced (EV := demo) demo_world agreed_in in_request in_agreement)
    as H.
  unfold broadcast_result, state_after.
  destruct (Execute (H := demo) _ (demo_world, agreed_in)) as [[w' d'] ev|[w' d']|[w' d']];
    cbn [fst]; apply H; by vm_compute; try (split; congruence); try congruence.
Defined.

(** ** The service *)
Definition start_op : ServiceOp := OpSwapOut peer1 btc_chain scid1 "me" 100000 5000.
Definition started : World * SwapService :=
  state_after (demo_world, NewSwapService)
    (run_op (H := demo) start_op (demo_world, NewSwapService)).

Example one_swap_per_channel_witness :
  (GetScid ∘ sm_Data <$> activeSwaps (snd started) !! SwapId_String (Some id1)) = Some scid1 ∧
  ∀ key sm, activeSwaps (snd started) !! key = Some sm → key = SwapId_String (sm_SwapId sm).
Proof.
  split; [by vm_compute|].
  apply (one_swap_per_channel (EV := demo) (snd started)).
  apply (reach_op (H := demo) NewSwapService start_op demo_world (fst started) (snd started));
    [apply reach_new|]. vm_compute. reflexivity.
Defined.

(** A stranger cancels the swap by its id. *)
Definition one_active : SwapService :=
  mkService {[SwapId_String (Some id1) := out_sender]} ∅.
Definition stranger_cancels : outcome (World * SwapService) (option error) :=
  OnMessageReceived (H := demo) "stranger" (MessageTypeToHexString MESSAGETYPE_CANCELED) id1
    (demo_world, one_active).

Example only_the_peer_moves_a_swap_witness :
  activeSwaps (snd (state_after (demo_world, one_active) stranger_cancels))
    !! SwapId_String (Some id1) = Some out_sender.
Proof.
  apply (only_the_peer_moves_a_swap (EV := demo) "stranger"
    (MessageTypeToHexString MESSAGETYPE_CANCELED) id1 MESSAGETYPE_CANCELED demo_world one_active
    (fst (state_after (demo_world, one_active) stranger_cancels))
    (snd (state_after (demo_world, one_active) stranger_cancels))
    (Some (ErrReceivedMessageFromUnexpectedPeer "stranger" (Some id1)))).
  - split.
    + intros key sm. cbn [one_active activeSwaps].
      intros [<- <-]%lookup_singleton_Some. reflexivity.
    + intros k1 k2 sm1 sm2. cbn [one_active activeSwaps].
      intros [<- _]%lookup_singleton_Some [<- _]%lookup_singleton_Some H. by destruct H.
  - by vm_compute.
  - do 2 right. left.
  - vm_compute. reflexivity.
  - apply lookup_singleton_Some. done.
  - by vm_compute.
Defined.

(** ** Requests *)
Definition policed_world : World :=
  demo_world <| policy := mkPolicyState (DefaultPolicy <| path := "policy.conf" |>) "" |>.

Example csv_refund_bars_peer_witness :
  ∃ w', Execute (H := demo) (AddSuspiciousPeerAction NoOpDoneAction) (policed_world, paying) =
          Ret (w', paying) Event_Done ∧
    IsPeerSuspicious (conf (policy w')) peer1 = true.
Proof.
  destruct (csv_refund_bars_peer (EV := demo) policed_world paying (fileIO_ok ini_by_line))
    as (w' & H1 & H2 & _).
  - reflexivity.
  - apply ini_by_line_spec.
  - by repeat split.
  - by split.
  - by left.
  - by vm_compute.
  - by apply not_elem_of_nil.
  - exists w'. split; [exact H1|exact H2].
Defined.

Example null_message_crashes_witness :
  OnMessageReceived (H := demo) "anyone" (MessageTypeToHexString MESSAGETYPE_SWAPINREQUEST)
    "null" (demo_world, one_active) = Panic (demo_world, one_active).
Proof.
  apply (null_message_crashes (EV := demo) _ _ _ MESSAGETYPE_SWAPINREQUEST).
  - by vm_compute.
  - change (String.length "null") with 4%nat. lia.
  - by vm_compute.
Defined.

Example results_are_handled_witness :
  is_Some (next_state (states_for SWAPTYPE_OUT SWAPROLE_SENDER)
             State_SwapOutSender_AwaitTxConfirmation Event_ActionFailed).
Proof.
  destruct (results_are_handled (EV := demo) SWAPTYPE_OUT SWAPROLE_SENDER
    State_SwapOutSender_AwaitTxConfirmation AwaitTxConfirmationAction demo_world
    (SwapData_zero)
    (state_after (demo_world, SwapData_zero)
       (Execute (H := demo) AwaitTxConfirmationAction (demo_world, SwapData_zero)))
    Event_ActionFailed) as [H|[H|[H|[_ H]]]].
  - by vm_compute.
  - vm_compute. reflexivity.
  - discriminate H.
  - discriminate H.
  - exact H.
  - by apply (bool_decide_pack _) in H; vm_compute in H.
Defined.

Example no_trap_states_witness :
  ∃ n, rtc (can_step (states_for SWAPTYPE_OUT SWAPROLE_SENDER))
         State_SwapOutSender_ClaimSwap n ∧ finished n = true.
Proof. apply no_trap_states. vm_compute. eauto. Defined.

Definition publishing : World * SwapStateMachine :=
  match run_script (H := demo) (take 1 maker_script) (demo_world, out_receiver) with
  | Some s => s
  | None => (demo_world, out_receiver)
  end.

Example published_at_most_once_witness :
  ∃ h sm', uptime_run (EV := demo) (snd publishing) h sm' ∧ openings h = 1%nat ∧
    (openings h ≤ 1)%nat.
Proof.
  set (o := SendEvent (H := demo) Event_OnFeeInvoicePaid None publishing).
  set (s' := state_after publishing o).
  assert (uptime_run (EV := demo) (snd publishing)
    (take (length (hist (fst s')) - length (hist (fst publishing))) (hist (fst s')) ++ [])
    (snd s')) as Hrun.
  { eapply (up_event (EV := demo) (snd publishing) [] (snd publishing) Event_OnFeeInvoicePaid None
      (fst publishing) (fst s') (snd s') (false, None)); [apply up_nil|..].
    - vm_compute. reflexivity.
    - vm_compute. reflexivity. }
  eexists _, _. split; [exact Hrun|]. split; [by vm_compute|].
  exact (published_at_most_once (EV := demo) _ _ _ Hrun).
Defined.

(** A script without requests and confirmations continues a run. *)
Lemma script_confirmed {EV : Env} script sm0 w sm w' sm' :
  confirmed_run sm0 (hist w) sm →
  Forall (λ '(ev, ctx), ev ≠ Event_OnTxConfirmed ∧
            ∀ m, ctx = Some m → is_request m = false) script →
  run_script script (w, sm) = Some (w', sm') → confirmed_run sm0 (hist w') sm'.
Proof.
  revert w sm. induction script as [|[ev ctx] script IH]; intros w sm Hrun Hs.
  - by intros [= <- <-].
  - apply Forall_cons in Hs as [[Hev Hctx] Hs]. cbn.
    destruct (SendEvent ev ctx (w, sm)) as [[w1 sm1] r| |] eqn:E; [|done..].
    destruct (SendEvent_hist _ _ _ _ _ _ _ E) as [new Hnew].
    apply IH; [|done]. rewrite Hnew. eapply confirmed_event; [exact Hrun| |exact E|exact Hnew].
    split; [done|]. intros m Hm Hr. by rewrite (Hctx m Hm) in Hr.
Qed.

(** The taker when its swap was confirmed, and after the payment. *)
Definition first_out : World * SwapStateMachine :=
  state_after (demo_world, out_sender)
    (SendEvent (H := demo) Event_OnSwapOutStarted (Some (MsgSwapOutRequest out_request))
       (demo_world, out_sender)).
Definition awaiting_out : World * SwapStateMachine :=
  match run_script (H := demo) (take 2 (drop 1 taker_script)) first_out with
  | Some s => s
  | None => first_out
  end.

Lemma awaiting_run :
  confirmed_run (EV := demo) out_sender (hist (fst awaiting_out)) (snd awaiting_out).
Proof.
  apply (script_confirmed (EV := demo) (take 2 (drop 1 taker_script)) _
    (fst first_out) (snd first_out)).
  - rewrite <- (app_nil_r (hist (fst first_out))).
    eapply (confirmed_event (EV := demo) _ _ _ Event_OnSwapOutStarted
      (Some (MsgSwapOutRequest out_request)) demo_world (fst first_out)); [constructor|..].
    + split; [done|]. by intros.
    + vm_compute. reflexivity.
    + vm_compute. reflexivity.
  - cbn [taker_script take drop].
    by repeat (apply Forall_cons; split; [split; [done|by intros ? [= <-]]|]).
  - vm_compute. reflexivity.
Qed.
Lemma awaiting_may : may_receive (hist (fst awaiting_out)) (snd awaiting_out) Event_OnTxConfirmed None.
Proof.
  split; [|done]. intros _. apply Exists_exists.
  assert (existsb is_watch (hist (fst awaiting_out)) = true) as (e & He & Hw)%existsb_exists
    by (by vm_compute).
  exists e. split; [by apply list_elem_of_In|exact Hw].
Qed.
Lemma awaiting_pays :
  match SendEvent (H := demo) Event_OnTxConfirmed None awaiting_out with
  | Ret (w', _) _ => existsb is_paid (hist w') | _ => false end = true.
Proof. by vm_compute. Qed.

Example paid_invoice_unlocks_output_witness :
  ∃ h w w' r, confirmed_run (EV := demo) out_sender h (snd awaiting_out) ∧
    SendEvent (H := demo) Event_OnTxConfirmed None (w, snd awaiting_out) = Ret w' r ∧
    existsb is_paid (hist (fst w')) = true ∧
    made_when (atomic_payment (EV := demo) (sm_Data (snd awaiting_out)) h (hist w)) (hist w)
      (hist (fst w')).
Proof.
  pose proof awaiting_run as Hrun. pose proof awaiting_may as Hrec. pose proof awaiting_pays as Hpaid.
  destruct awaiting_out as [w sm]. cbn [fst snd] in *.
  assert (sm_Current out_sender ∉ paying_claim) as Hst by by_eval.
  destruct (paid_invoice_unlocks_output (EV := demo) out_sender (hist w) sm w
    Event_OnTxConfirmed None Hst Hrun Hrec) as [H _].
  destruct (SendEvent _ _ _) as [[w' sm'] r| |] eqn:E; [|done..].
  exists (hist w), w, (w', sm'), r. by split.
Defined.
