(* ===== verification/Oracle.v ===== *)
(** * Programs that ask the outside world

    The watchers, the fee estimators and the capability sync talk to nodes whose
    answers are not under the control of the program.  [Oracle] is an arbitrary
    function from the record of all questions so far to the answer of the next
    one; a program over [IO S] threads that record and its own state [S].  A
    callback of the program into another component is a question too, so that
    what the program reports is part of the record, and a guarantee about reports
    is a property of the record ([asked_when]). *)

From S2P Require Import Prelude.

Lemma list_filter_true {X} (P : X → Prop) `{∀ x, Decision (P x)} (l : list X) :
  (∀ x, x ∈ l → P x) → filter P l = l.
Proof.
  induction l as [|x l IH]; [done|]. intros HP. rewrite filter_cons_True by (apply HP; left).
  f_equal. apply IH. intros y Hy. apply HP. by right.
Qed.

Lemma elem_of_suffix {X} (x : X) l l' : x ∈ l → suffix l l' → x ∈ l'.
Proof. intros Hx [k ->]. apply elem_of_app. by right. Qed.

Section oracle.
Context {Q : Type} {A : Q → Type}.

Definition Event : Type := sigT A.
Definition Trace : Type := list Event.
Definition event (q : Q) (a : A q) : Event := existT q a.
Definition question (e : Event) : Q := projT1 e.

Lemma event_inj `{!EqDecision Q} q a a' : event q a = event q a' → a = a'.
Proof. apply (Eqdep_dec.inj_pair2_eq_dec _ (λ x y, decide (x = y))). Qed.

(** The answer to the next question, given the record, newest first. *)
Class Oracle := reply : Trace → ∀ q, A q.

Definition IO (S X : Type) : Type := M (Trace * S) X.

Definition query `{!Oracle} {S} (q : Q) : IO S (A q) := λ '(t, s),
  Ret (event q (reply t q) :: t, s) (reply t q).
Definition look {S} : IO S S := λ '(t, s), Ret (t, s) s.
Definition update {S} (f : S → S) : IO S () := λ '(t, s), Ret (t, f s) ().

(** Run over a part of the state. *)
Definition focus {S T X} (get : S → T) (put : T → S → S) (m : IO T X) : IO S X := λ '(t, s),
  match m (t, get s) with
  | Ret (t', r) x => Ret (t', put r s) x
  | Panic (t', r) => Panic (t', put r s)
  | NoFuel (t', r) => NoFuel (t', put r s)
  end.

Lemma wp_focus {S T X} (get : S → T) put (m : IO T X) (P : X → Trace * S → Prop) R t s :
  wp m (λ x '(t', r), P x (t', put r s)) (λ k '(t', r), R k (t', put r s)) (t, get s) →
  wp (focus get put m) P R (t, s).
Proof. unfold wp, focus. by destruct (m (t, get s)) as [[]|[]|[]]. Qed.

(** [asked_when P t0 t]: [t] extends [t0], and every event since satisfies [P]
    together with the record before it. *)
Inductive asked_when (P : Event → Trace → Prop) (t0 : Trace) : Trace → Prop :=
  | asked_none : asked_when P t0 t0
  | asked_cons e t : P e t → asked_when P t0 t → asked_when P t0 (e :: t).

Lemma asked_trans P t0 t1 t2 : asked_when P t0 t1 → asked_when P t1 t2 → asked_when P t0 t2.
Proof. intros H1. induction 1; by try constructor. Qed.
Lemma asked_mono (P P' : Event → Trace → Prop) t0 t :
  (∀ e pre, P e pre → P' e pre) → asked_when P t0 t → asked_when P' t0 t.
Proof. intros HP. induction 1; constructor; auto. Qed.
Lemma asked_suffix P t0 t : asked_when P t0 t → suffix t0 t.
Proof. induction 1; [done|by apply suffix_cons_r]. Qed.
Lemma asked_elem P t e : asked_when P [] t → e ∈ t → ∃ pre, P e pre ∧ suffix pre t.
Proof.
  induction 1 as [|e' t He _ IH]; [by intros ?%elem_of_nil|].
  intros [->|Hin]%elem_of_cons.
  - exists t. split; [done|]. by apply suffix_cons_r.
  - destruct (IH Hin) as (pre & ? & ?). exists pre. split; [done|]. by apply suffix_cons_r.
Qed.

Lemma asked_new P t0 t :
  asked_when P t0 t → ∃ new, t = new ++ t0 ∧ ∀ e, e ∈ new → ∃ pre, P e pre.
Proof.
  induction 1 as [|e t He _ (new & -> & IH)].
  - exists []. split; [done|]. by intros e ?%elem_of_nil.
  - exists (e :: new). split; [done|]. intros e' [->|Hin]%elem_of_cons; eauto.
Qed.

(** Every event since is related to the record before it. *)
Lemma asked_at P t0 t :
  asked_when P t0 t → ∃ new, t = new ++ t0 ∧
    ∀ e, e ∈ new → ∃ pre, P e (pre ++ t0) ∧ suffix pre new.
Proof.
  induction 1 as [|e t He _ (new & -> & IH)].
  - exists []. split; [done|]. by intros e ?%elem_of_nil.
  - exists (e :: new). split; [done|]. intros e' [->|Hin]%elem_of_cons.
    + exists new. split; [done|]. by apply suffix_cons_r.
    + destruct (IH e' Hin) as (pre & ? & ?). exists pre. split; [done|]. by apply suffix_cons_r.
Qed.

(** Program rules. *)
Section rules.
Context `{!Oracle} {S : Type}.
Lemma wp_query q (P : A q → Trace * S → Prop) R t s :
  P (reply t q) (event q (reply t q) :: t, s) → wp (query q) P R (t, s).
Proof. done. Qed.
Lemma wp_look (P : S → Trace * S → Prop) R t s : P s (t, s) → wp look P R (t, s).
Proof. done. Qed.
Lemma wp_update f (P : () → Trace * S → Prop) R t s : P () (t, f s) → wp (update f) P R (t, s).
Proof. done. Qed.
End rules.
End oracle.
Arguments event_inj {Q A _ q a a'}.
Arguments Event {Q} A.
Arguments Trace {Q} A.
Arguments Oracle {Q} A.
Arguments IO {Q} A S X.
#[export] Hint Constructors asked_when : go.
#[export] Hint Resolve wp_query wp_look wp_update : go.

(** One step of a [wp] goal over the record. *)
Ltac io_step :=
  lazymatch goal with
  | |- wp (query ?q) ?P _ (?t, ?s) => change (P (reply t q) (event q (reply t q) :: t, s))
  | |- wp look ?P _ (?t, ?s) => change (P s (t, s))
  | |- wp (update ?f) ?P _ (?t, ?s) => change (P tt (t, f s))
  | |- wp (focus _ _ _) _ _ _ => apply wp_focus
  | _ => wp_step
  end; cbv beta.

(** ** Questions of a part

    A part of the program with questions of its own runs inside a program whose
    questions include them: [to] embeds the questions, [up] and [down] their answers. *)
Section relay.
Context {Q1 Q2 : Type} {A1 : Q1 → Type} {A2 : Q2 → Type}.

Class Relay := {
  to : Q1 → Q2;
  up : ∀ q, A1 q → A2 (to q);
  down : ∀ q, A2 (to q) → A1 q;
  down_up : ∀ q a, down q (up q a) = a;
}.
Context {RL : Relay}.

Definition relayed (e : Event A1) : Event A2 := event (to (projT1 e)) (up _ (projT2 e)).
(** What the part is told, when [t] is the record before it starts. *)
Definition relay_reply `{!Oracle A2} (t : Trace A2) : Oracle A1 := λ t1 q,
  down q (reply ((relayed <$> t1) ++ t) (to q)).
Definition via `{!Oracle A2} {S X} (m : Oracle A1 → IO A1 S X) : IO A2 S X := λ '(t, s),
  match m (relay_reply t) ([], s) with
  | Ret (t1, s') x => Ret ((relayed <$> t1) ++ t, s') x
  | Panic (t1, s') => Panic ((relayed <$> t1) ++ t, s')
  | NoFuel (t1, s') => NoFuel ((relayed <$> t1) ++ t, s')
  end.

Lemma wp_via `{!Oracle A2} {S X} (m : Oracle A1 → IO A1 S X) (P : X → Trace A2 * S → Prop) R t s :
  wp (m (relay_reply t)) (λ x '(t1, s'), P x ((relayed <$> t1) ++ t, s'))
    (λ k '(t1, s'), R k ((relayed <$> t1) ++ t, s')) ([], s) →
  wp (via m) P R (t, s).
Proof. unfold wp, via. by destruct (m (relay_reply t) ([], s)) as [[]|[]|[]]. Qed.
End relay.
Arguments Relay {Q1 Q2} A1 A2.

(** ** The libraries for chain data

    The daemon leaves hashes, scripts and digests to btcd and to crypto/sha256. *)

(** Parsing and printing of transaction hashes, parsing of scripts, and SHA-256. *)
Class ChainLib := {
  Hash : Type;
  Hash_eq_dec : EqDecision Hash;
  NewHashFromStr : string → result Hash;
  Hash_String : Hash → string;
  ParsePkScript : string → result string;
  sha256_Sum256 : string → string;
}.
#[export] Existing Instance Hash_eq_dec.

