(* ===== verification/Watcher.v ===== *)
(** * The transaction watcher over a node's rpc (src/txwatcher)

    [IsTxInRange] and [IsTxInMempoolOrRange] look for a transaction,
    [on_block] is one round of [observationLoop], [HandleCsvTx] one round of the
    CSV watch.  The goroutines of the watcher interleave freely: a block reaches
    each loop as a send that is delivered at any later time ([watcher_step]).
    Times, the log and the exit of the process when the node rejects the cookie
    are left out. *)

From S2P Require Import Prelude GoLib Oracle.

Module Rpc.

(** The fields of [TxOutResp] that are read. *)
Record TxOutResp := mkTxOut {
  BestBlockHash : string;
  Confirmations : Z;
}.

(** [BlockchainRpc], and the two callbacks the watcher is given. *)
Inductive Call :=
  | GetBlockHeight
  | GetTxOut (txid : string) (vout : Z)
  | GetBlockHash (height : Z)
  | GetRawtransactionWithBlockHash (txId blockHash : string)
  | txCallback (swapId txHex : string) (err : option error)
  | csvPassedCallback (swapId : string).

#[export] Instance Call_eq_dec : EqDecision Call.
Proof. solve_decision. Defined.

Definition answer (c : Call) : Type :=
  match c with
  | GetBlockHeight => result Z
  | GetTxOut _ _ => result (option TxOutResp)
  | GetBlockHash _ | GetRawtransactionWithBlockHash _ _ => result string
  | txCallback _ _ _ | csvPassedCallback _ => option error
  end.
End Rpc.
Import Rpc.

Definition ErrNotFound : error := ErrSentinel "txwatcher.ErrNotFound" "not found".
Definition ErrUnconfirmed : error := ErrSentinel "txwatcher.ErrUnconfirmed" "unconfirmed".
Definition ErrOutOfSync : error := ErrSentinel "txwatcher.ErrOutOfSync" "out of sync".
Definition ErrBlockHashMismatch : error :=
  ErrSentinel "txwatcher.ErrBlockHashMismatch" "block hash mismatch".

(** ** State *)
Record SwapTxInfo := mkSwapTxInfo {
  TxId : string;
  TxVout : Z;
  StartingBlockHeight : Z;
  Csv : Z;
}.

(** The arguments and the local variable of one [observationLoop]. *)
Record Observation := mkObservation {
  ob_swapId : string;
  ob_txId : string;
  ob_vout : Z;
  ob_startingHeight : Z;
  ob_safetyLimit : Z;
  ob_lastHeight : Z;
}.
#[export] Instance eta_Observation : Eta Observation := λ o,
  mkObservation (ob_swapId o) (ob_txId o) (ob_vout o) (ob_startingHeight o)
    (ob_safetyLimit o) (ob_lastHeight o).

(** [observerLoopList] holds the channel of the loop of a swap; a loop is known
    by the number it was started with.  [sends] are the blocks on their way;
    [lastHeight] and [lastHash] are the variables of [StartBlockWatcher]. *)
Record TxWatcher := mkTxWatcher {
  csvtxWatchList : gmap string SwapTxInfo;
  observerLoopList : gmap string nat;
  loops : gmap nat Observation;
  started : nat;
  sends : list (nat * Z);
  lastHeight : Z;
  lastHash : string;
}.
#[export] Instance eta_TxWatcher : Eta TxWatcher := λ w,
  mkTxWatcher (csvtxWatchList w) (observerLoopList w) (loops w) (started w) (sends w)
    (lastHeight w) (lastHash w).

Definition NewBlockchainRpcTxWatcher : TxWatcher := mkTxWatcher ∅ ∅ ∅ 0 [] 0 "".

Section watcher.
Context {OR : Oracle answer} (requiredConfs : Z).
Abbreviation Io := (IO answer).

(** ** Looking for a transaction *)

(** The loop of [IsTxInRange]; the counter is a uint32. *)
Fixpoint range_loop {S} (fuel : nat) (txId : string) (i endBlock : Z)
    : Io S (result (string * Z)) :=
  match fuel with
  | O => nofuel
  | Datatypes.S fuel =>
      if i <=? endBlock then
        let? h := query (GetBlockHash i) else e => mret (Err e) in
        r ← query (GetRawtransactionWithBlockHash txId h);
        match r with
        | Ok rtx => if bool_decide (rtx ≠ "") then mret (Ok (rtx, i))
                    else range_loop fuel txId (u32 (i + 1)) endBlock
        | Err _ => range_loop fuel txId (u32 (i + 1)) endBlock
        end
      else mret (Err ErrNotFound)
  end.

Definition IsTxInRange {S} (txId : string) (startBlock endBlock : Z)
    : Io S (result (string * Z)) :=
  if endBlock <? startBlock then
    mret (Err (ErrText ("expected start_block < end_block: " +:+ strconv.Itoa startBlock +:+
                        " < " +:+ strconv.Itoa endBlock +:+ " ")))
  else range_loop (Z.to_nat (endBlock - startBlock + 2)) txId startBlock endBlock.

Definition IsTxInMempoolOrRange {S} (txId : string) (startHeight vout : Z)
    : Io S (result (string * Z)) :=
  let? ctmp := query GetBlockHeight
    else e => mret (Err (ErrText ("could not get current block height: " +:+ Error e))) in
  let current := u32 ctmp in
  let? bHash := query (GetBlockHash current)
    else e => mret (Err (ErrText ("could not get current block hash: " +:+ Error e))) in
  let? txInfo := query (GetTxOut txId vout)
    else e => mret (Err (ErrText ("error calling gettxout(" +:+ txId +:+ ", " +:+
                                  strconv.Itoa vout +:+ "): " +:+ Error e))) in
  match txInfo with
  | None => IsTxInRange txId startHeight current
  | Some info =>
      if bool_decide (BestBlockHash info ≠ bHash) then mret (Err ErrOutOfSync)
      else if Confirmations info =? 0 then mret (Err ErrUnconfirmed)
      else if Confirmations info =? 1 then
        let? rtx := query (GetRawtransactionWithBlockHash txId bHash)
          else e => mret (Err ErrBlockHashMismatch) in
        mret (Ok (rtx, current))
      else
        let first := u32 (current + 1 - Confirmations info) in
        let? txBlockHash := query (GetBlockHash first)
          else e => mret (Err (ErrText ("could not get current block hash: " +:+ Error e))) in
        let? rtx := query (GetRawtransactionWithBlockHash txId txBlockHash)
          else e => mret (Err ErrBlockHashMismatch) in
        mret (Ok (rtx, first))
  end.

(** ** The observation of an opening transaction *)
Definition callbackAndLog {S} (swapId rawTx : string) (err : option error) : Io S () :=
  query (txCallback swapId rawTx err);; mret ().

Definition exceeded_csv_limit : error := ErrText "exceeded csv limit".

(** One round of [observationLoop], for a block that was received; whether the
    loop returns. *)
Definition on_block (height : Z) : Io Observation bool :=
  o ← look;
  let current := height in
  if current <=? ob_lastHeight o then mret false
  else
    update (λ o, o <| ob_lastHeight := current |>);;
    if u32 (ob_startingHeight o + ob_safetyLimit o) <=? current then
      callbackAndLog (ob_swapId o) "" (Some exceeded_csv_limit);; mret true
    else
      r ← IsTxInMempoolOrRange (ob_txId o) (ob_startingHeight o) (ob_vout o);
      match r with
      | Err e =>
          if errors_Is e ErrNotFound then mret false
          else if errors_Is e ErrUnconfirmed then mret false
          else if errors_Is e ErrOutOfSync then mret false
          else callbackAndLog (ob_swapId o) "" (Some e);; mret true
      | Ok (rawTx, firstSeen) =>
          if u32 (ob_startingHeight o + ob_safetyLimit o) <? firstSeen then
            callbackAndLog (ob_swapId o) "" (Some exceeded_csv_limit);; mret true
          else if requiredConfs <=? u32 (current - u32 (firstSeen - 1)) then
            callbackAndLog (ob_swapId o) rawTx None;; mret true
          else mret false
      end.

(** [AddWaitForConfirmationTx]: start a loop and send it the current height (0
    when the node does not answer). *)
Definition AddWaitForConfirmationTx (swapId txId : string)
    (vout startingBlockheight paymentWindow : Z) : Io TxWatcher () :=
  w ← look;
  let id := started w in
  update (λ w, w <| loops := <[id := mkObservation swapId txId vout startingBlockheight
                                  paymentWindow 0]> (loops w) |>
                 <| started := Datatypes.S (started w) |>
                 <| observerLoopList := <[swapId := id]> (observerLoopList w) |>);;
  h ← query GetBlockHeight;
  let height := match h with Ok h => h | Err _ => 0 end in
  update (λ w, w <| sends := sends w ++ [(id, u32 height)] |>).

(** Loop [id] receives [height]; when it returns it removes the entry of its swap
    from the list, whichever loop the entry is for. *)
Definition receive (id : nat) (height : Z) : Io TxWatcher () :=
  w ← look;
  match loops w !! id with
  | None => mret ()
  | Some o =>
      finished ← focus (λ _, o) (λ o w, w <| loops := <[id := o]> (loops w) |>)
                   (on_block height);
      if (finished : bool) then
        update (λ w, w <| loops := delete id (loops w) |>
                       <| observerLoopList := delete (ob_swapId o) (observerLoopList w) |>)
      else mret ()
  end.

(** ** The CSV watch *)

(** [txWatchList], which is never filled, is left out. *)
Definition TxClaimed (swaps : list string) (w : TxWatcher) : TxWatcher :=
  w <| csvtxWatchList := foldr delete (csvtxWatchList w) swaps |>.

(** One round over the entries in the order the map yields them; the swaps that
    were reported are collected.  The callback is set before the watcher is
    started. *)
Fixpoint csv_round (order : list (string * SwapTxInfo)) : Io TxWatcher (list string) :=
  match order with
  | [] => mret []
  | (k, v) :: order =>
      r ← query (GetTxOut (TxId v) (TxVout v));
      match r with
      | Err _ | Ok None => csv_round order
      | Ok (Some res) =>
          if Confirmations res <? Csv v then csv_round order
          else
            e ← query (csvPassedCallback k);
            match e with
            | Some _ => csv_round order
            | None => toRemove ← csv_round order; mret (k :: toRemove)
            end
      end
  end.

Definition HandleCsvTx (order : list (string * SwapTxInfo)) : Io TxWatcher () :=
  toRemove ← csv_round order;
  update (TxClaimed toRemove).

Definition checkTxAboveCsvHight {S} (txId : string) (vout csv : Z) : Io S (result bool) :=
  let? res := query (GetTxOut txId vout) else e => mret (Err e) in
  match res with
  | None => mret (Err (ErrText "empty gettxout response"))
  | Some res => mret (Ok (csv <=? Confirmations res))
  end.

Definition AddWaitForCsvTx (swapId txId : string) (vout startingBlockheight csv : Z)
    : Io TxWatcher () :=
  let watch := update (λ w, w <| csvtxWatchList :=
    <[swapId := mkSwapTxInfo txId vout startingBlockheight csv]> (csvtxWatchList w) |>) in
  above ← checkTxAboveCsvHight txId vout csv;
  match above with
  | Ok true =>
      e ← query (csvPassedCallback swapId);
      match e with None => mret () | Some _ => watch end
  | _ => watch
  end.

(** A new block: it is sent to every loop of the list, and the CSV watch runs. *)
Definition new_block (nb : Z) (order : list (string * SwapTxInfo)) : Io TxWatcher () :=
  update (λ w, w <| sends := sends w ++
    ((λ id, (id, u32 nb)) <$> (map_to_list (observerLoopList w)).*2) |>);;
  HandleCsvTx order.

Definition ErrCookieAuthFailed : string := "Authorization failed: Incorrect user or password".

(** A failed call leaves the zero value; the process exits when the node rejects
    the cookie. *)
Definition or_exit {S T} (zero : T) (r : result T) : Io S T :=
  match r with
  | Ok x => mret x
  | Err e => if bool_decide (Error e = ErrCookieAuthFailed) then panic else mret zero
  end.

(** One tick of [StartBlockWatcher] and the receipt of what it sends. *)
Definition block_tick (order : list (string * SwapTxInfo)) : Io TxWatcher () :=
  h ← query GetBlockHeight;
  nextHeight ← or_exit 0 h;
  b ← query (GetBlockHash (u32 nextHeight));
  nextHash ← or_exit "" b;
  w ← look;
  if (lastHeight w <? nextHeight) || bool_decide (nextHash ≠ lastHash w) then
    update (λ w, w <| lastHeight := nextHeight |> <| lastHash := nextHash |>);;
    new_block nextHeight order
  else mret ().
End watcher.

(** ** Runs of the watcher *)
Inductive Watch :=
  | ConfirmationWatch (swapId txId : string) (vout startingHeight window : Z)
  | CsvWatch (swapId txId : string) (vout csv : Z).

(** The registrations, the record of questions and the state after any
    interleaving of ticks, deliveries of blocks to the loops, and registrations. *)
Inductive watcher_run {OR : Oracle answer} (requiredConfs : Z)
    : list Watch → Trace answer → TxWatcher → Prop :=
  | run_start : watcher_run requiredConfs [] [] NewBlockchainRpcTxWatcher
  | run_confirmation_watch regs t w id tx vout start window t' w' :
      watcher_run requiredConfs regs t w →
      AddWaitForConfirmationTx id tx vout start window (t, w) = Ret (t', w') () →
      watcher_run requiredConfs (ConfirmationWatch id tx vout start window :: regs) t' w'
  | run_csv_watch regs t w id tx vout start csv t' w' :
      watcher_run requiredConfs regs t w →
      AddWaitForCsvTx id tx vout start csv (t, w) = Ret (t', w') () →
      watcher_run requiredConfs (CsvWatch id tx vout csv :: regs) t' w'
  | run_tick regs t w order t' w' :
      watcher_run requiredConfs regs t w → order ≡ₚ map_to_list (csvtxWatchList w) →
      block_tick order (t, w) = Ret (t', w') () → watcher_run requiredConfs regs t' w'
  | run_receive regs t w l1 id h l2 t' w' :
      watcher_run requiredConfs regs t w → sends w = l1 ++ (id, h) :: l2 →
      receive requiredConfs id h (t, w <| sends := l1 ++ l2 |>) = Ret (t', w') () →
      watcher_run requiredConfs regs t' w'
  | run_claimed regs t w swaps :
      watcher_run requiredConfs regs t w →
      watcher_run requiredConfs regs t (TxClaimed swaps w).
