(* ===== verification/WatcherProofs.v ===== *)
(** * What the transaction watcher reports

    Over any interleaving of blocks, loops and registrations and any answers of
    the node, a confirmation or a passed CSV is reported only for a registered
    watch and only on the evidence the node gave ([reports_sound]); the CSV watch
    loses nothing; the search in a range of blocks ends.  The
    last section shows what the arithmetic of the confirmations misses. *)

From S2P Require Import Prelude GoLib Oracle Watcher.
Import Rpc.

(** ** Evidence in the record *)
Definition answered (t : Trace answer) (c : Call) (a : answer c) : Prop := event c a ∈ t.

(** The node named a block at height [h] and found the transaction in it. *)
Definition seen_at (tx raw : string) (h : Z) (t : Trace answer) : Prop :=
  ∃ bh, answered t (GetBlockHash h) (Ok bh) ∧
        answered t (GetRawtransactionWithBlockHash tx bh) (Ok raw).
(** The node reported the height. *)
Definition announced (h : Z) (t : Trace answer) : Prop :=
  ∃ z, answered t GetBlockHeight (Ok z) ∧ h = u32 z.

Lemma seen_more tx raw h t t' : suffix t t' → seen_at tx raw h t → seen_at tx raw h t'.
Proof. intros [k ->] (bh & H1 & H2). exists bh. split; apply elem_of_app; by right. Qed.
Lemma announced_more h t t' : suffix t t' → announced h t → announced h t'.
Proof. intros [k ->] (z & H1 & H2). exists z. split; [|done]. apply elem_of_app. by right. Qed.

Definition is_report (c : Call) : bool :=
  match c with txCallback _ _ _ | csvPassedCallback _ => true | _ => false end.
Definition no_report (e : Event answer) (_ : Trace answer) : Prop := is_report (question e) = false.

(** ** The search *)
Section search.
Context {OR : Oracle answer} {S : Type}.

(** A search makes no report, changes nothing, and what it returns was seen in it. *)
Definition searched (txId : string) (t : Trace answer) (s : S) (r : result (string * Z))
    '((t', s') : Trace answer * S) : Prop :=
  s' = s ∧ asked_when no_report t t' ∧
  ∀ raw h, r = Ok (raw, h) → ∃ new, t' = new ++ t ∧ seen_at txId raw h new.

Lemma searched_err txId t s e t' s' :
  s' = s → asked_when no_report t t' → searched txId t s (Err e) (t', s').
Proof. by intros -> H. Qed.
Lemma searched_ok txId t s raw h bh new t1 s' :
  s' = s → asked_when no_report t (new ++ t1) → suffix t t1 →
  answered new (GetBlockHash h) (Ok bh) →
  answered new (GetRawtransactionWithBlockHash txId bh) (Ok raw) →
  searched txId t s (Ok (raw, h)) (new ++ t1, s').
Proof.
  intros -> H [k ->] H1 H2. split; [done|]. split; [done|]. intros ? ? [= <- <-].
  exists (new ++ k). split; [by rewrite (assoc_L (++))|].
  exists bh. split; apply elem_of_app; by left.
Qed.

Ltac asked := repeat first [assumption | apply asked_none | apply asked_cons; [done|]].
Ltac recorded := unfold answered;
  match goal with E : reply _ _ = Ok ?x |- event _ (Ok ?x) ∈ _ => rewrite <- E end;
  repeat (apply list_elem_of_here || apply list_elem_of_further).

Lemma range_loop_searched fuel txId i endBlock t0 t s :
  asked_when no_report t0 t →
  wp (range_loop fuel txId i endBlock) (searched txId t0 s) any_stop (t, s).
Proof.
  revert i t. induction fuel as [|fuel IH]; intros i t Ht; cbn [range_loop]; [done|].
  destruct (i <=? endBlock); [|by apply wp_ret, searched_err].
  do 2 io_step. destruct (reply t (GetBlockHash i)) as [h|e] eqn:Eh;
    [|apply wp_ret, searched_err; [done|by asked]].
  do 2 io_step.
  destruct (reply _ (GetRawtransactionWithBlockHash txId h)) as [rtx|e] eqn:Er;
    [|apply IH; by asked].
  case_bool_decide; [|apply IH; by asked].
  apply wp_ret, (searched_ok _ _ _ _ _ h [_; _] t);
    [done|by asked|by eapply asked_suffix|by recorded|by recorded].
Qed.

Lemma IsTxInMempoolOrRange_searched txId start vout t s :
  wp (IsTxInMempoolOrRange txId start vout) (searched txId t s) any_stop (t, s).
Proof.
  unfold IsTxInMempoolOrRange. do 2 io_step.
  destruct (reply t GetBlockHeight) as [ctmp|e] eqn:Ec;
    [|apply wp_ret, searched_err; [done|by asked]].
  do 2 io_step. destruct (reply _ (GetBlockHash _)) as [bh|e] eqn:Eb;
    [|apply wp_ret, searched_err; [done|by asked]].
  do 2 io_step. destruct (reply _ (GetTxOut _ _)) as [[info|]|e] eqn:Ei.
  3:{ apply wp_ret, searched_err; [done|by asked]. }
  2:{ unfold IsTxInRange. destruct (_ <? _); [apply wp_ret, searched_err; [done|by asked]|].
      apply range_loop_searched. by asked. }
  case_bool_decide; [apply wp_ret, searched_err; [done|by asked]|].
  destruct (_ =? 0); [apply wp_ret, searched_err; [done|by asked]|].
  destruct (_ =? 1).
  - do 2 io_step. destruct (reply _ (GetRawtransactionWithBlockHash _ _)) eqn:Er;
      [|apply wp_ret, searched_err; [done|by asked]].
    apply wp_ret, (searched_ok _ _ _ _ _ bh [_; _; _; _] t);
      [done|by asked|done|by recorded|by recorded].
  - do 2 io_step. destruct (reply _ (GetBlockHash (u32 (u32 ctmp + 1 - _)))) as [bh'|e] eqn:Eb';
      [|apply wp_ret, searched_err; [done|by asked]].
    do 2 io_step. destruct (reply _ (GetRawtransactionWithBlockHash _ _)) eqn:Er;
      [|apply wp_ret, searched_err; [done|by asked]].
    apply wp_ret, (searched_ok _ _ _ _ _ bh' [_; _; _; _; _] t);
      [done|by asked|done|by recorded|by recorded].
Qed.
End search.

(** ** What a report needs *)
Section reports.
Context {OR : Oracle answer} (requiredConfs : Z).

Definition report_guard (regs : list Watch) (e : Event answer) (pre : Trace answer) : Prop :=
  match question e with
  | txCallback id _ _ =>
      ∃ tx vout start window, ConfirmationWatch id tx vout start window ∈ regs
  | csvPassedCallback id =>
      ∃ tx vout csv res pre',
        CsvWatch id tx vout csv ∈ regs ∧
        pre = event (GetTxOut tx vout) (Ok (Some res)) :: pre' ∧ csv ≤ Confirmations res
  | _ => True
  end.

Lemma report_guard_mono regs regs' e pre :
  regs ⊆ regs' → report_guard regs e pre → report_guard regs' e pre.
Proof.
  intros Hs. unfold report_guard. destruct (question e); try done.
  - intros (tx & vout & start & window & H). exists tx, vout, start, window. auto.
  - intros (tx & vout & csv & res & pre' & H & ?). exists tx, vout, csv, res, pre'. auto.
Qed.
Lemma no_report_guard regs e pre : no_report e pre → report_guard regs e pre.
Proof. unfold no_report, report_guard. destruct (question e); intros H; done || discriminate H. Qed.

(** A loop of a registered watch. *)
Definition loop_of (regs : list Watch) (o : Observation) : Prop :=
  ConfirmationWatch (ob_swapId o) (ob_txId o) (ob_vout o) (ob_startingHeight o)
    (ob_safetyLimit o) ∈ regs ∧ 0 ≤ ob_lastHeight o.

(** A height on its way to a loop; 0 stands for none. *)
Definition heard (t : Trace answer) (h : Z) : Prop := h = 0 ∨ announced h t.

Lemma on_block_reports regs h t0 t o :
  loop_of regs o → heard t h → asked_when (report_guard regs) t0 t →
  wp (on_block requiredConfs h)
    (λ _ '(t', o'), asked_when (report_guard regs) t0 t' ∧ suffix t t' ∧ loop_of regs o' ∧
       ob_swapId o' = ob_swapId o)
    any_stop (t, o).
Proof.
  intros [Hreg Hlast] Hh Ht. unfold on_block. do 2 io_step.
  destruct (Z.leb_spec h (ob_lastHeight o)); [by apply wp_ret|].
  assert (announced h t) as Hann by (destruct Hh; [lia|done]).
  do 2 io_step. assert (0 ≤ h) as H0 by lia.
  assert (loop_of regs (o <| ob_lastHeight := h |>)) as Hloop by done.
  assert (∀ t1 raw e a, asked_when (report_guard regs) t0 t1 →
    asked_when (report_guard regs) t0 (event (txCallback (ob_swapId o) raw e) a :: t1)) as Hfail.
  { intros t1 raw e a H1. constructor; [|done].
    by exists (ob_txId o), (ob_vout o), (ob_startingHeight o), (ob_safetyLimit o). }
  unfold callbackAndLog.
  destruct (Z.leb_spec (u32 (ob_startingHeight o + ob_safetyLimit o)) h).
  { do 4 io_step. split; [by apply Hfail|]. split; [by apply suffix_cons_r|done]. }
  io_step. eapply wp_mono; [apply IsTxInMempoolOrRange_searched| |done].
  intros r [t1 o1] (-> & Hq & _). pose proof (asked_suffix _ _ _ Hq) as Hsuf.
  assert (asked_when (report_guard regs) t0 t1) as Ht1.
  { eapply asked_trans; [exact Ht|]. eapply asked_mono; [|exact Hq].
    intros. by apply no_report_guard. }
  destruct r as [[raw first]|e].
  2:{ repeat (case_match; [by apply wp_ret|]). do 4 io_step.
      split; [by apply Hfail|]. split; [by apply suffix_cons_r|done]. }
  destruct (Z.ltb_spec (u32 (ob_startingHeight o + ob_safetyLimit o)) first).
  { do 4 io_step. split; [by apply Hfail|]. split; [by apply suffix_cons_r|done]. }
  destruct (Z.leb_spec requiredConfs (u32 (h - u32 (first - 1)))); [|by apply wp_ret].
  do 4 io_step. split; [by apply Hfail|]. split; [by apply suffix_cons_r|done].
Qed.

(** A confirmation of a loop that received the height [h], with its questions [new]. *)
Definition is_confirmation (e : Event answer) : option (string * string) :=
  match question e with txCallback id raw None => Some (id, raw) | _ => None end.
Definition unconfirming (e : Event answer) (_ : Trace answer) : Prop := is_confirmation e = None.
Definition confirmed_in (o : Observation) (h : Z) (new : Trace answer) (raw : string) : Prop :=
  ∃ firstSeen, seen_at (ob_txId o) raw firstSeen new ∧
    h < u32 (ob_startingHeight o + ob_safetyLimit o) ∧
    firstSeen ≤ u32 (ob_startingHeight o + ob_safetyLimit o) ∧
    (firstSeen ≤ h + 1 → requiredConfs ≤ h - firstSeen + 1).

(** What wraps around in uint32 is larger than what the blocks show only for a block
    two or more ahead. *)
Lemma enough_confirmations h firstSeen :
  requiredConfs ≤ u32 (h - u32 (firstSeen - 1)) → firstSeen ≤ h + 1 →
  requiredConfs ≤ h - firstSeen + 1.
Proof.
  intros Hc Hle. assert (u32 (h - u32 (firstSeen - 1)) = u32 (h - firstSeen + 1)) as E.
  { unfold u32. rewrite Zminus_mod_idemp_r. f_equal. lia. }
  rewrite E in Hc. etrans; [exact Hc|]. unfold u32. apply Z.mod_le; lia.
Qed.

Lemma unconfirming_new t0 t :
  asked_when no_report t0 t → ∃ new, t = new ++ t0 ∧ ∀ e, e ∈ new → is_confirmation e = None.
Proof.
  intros (new & -> & Hn)%asked_new. exists new. split; [done|]. intros e (pre & He)%Hn.
  revert He. unfold no_report, is_confirmation. by destruct (question e).
Qed.

Lemma on_block_confirms h t o :
  wp (on_block requiredConfs h)
    (λ _ '(t', o'), ∃ new, t' = new ++ t ∧ ∀ e id raw, e ∈ new → is_confirmation e = Some (id, raw) →
       id = ob_swapId o ∧ ob_lastHeight o < h ∧ confirmed_in o h new raw)
    any_stop (t, o).
Proof.
  unfold on_block. do 2 io_step.
  destruct (Z.leb_spec h (ob_lastHeight o)) as [|Hlast].
  { apply wp_ret. exists []. split; [done|]. by intros ? ? ? ?%elem_of_nil. }
  do 2 io_step. unfold callbackAndLog.
  assert (∀ e id raw, e ∈ ([] : Trace answer) → is_confirmation e = Some (id, raw) → False) as Hnil
    by (by intros ? ? ? ?%elem_of_nil).
  assert (∀ new err a e id raw, (∀ e, e ∈ new → is_confirmation e = None) →
    e ∈ event (txCallback (ob_swapId o) "" (Some err)) a :: new → is_confirmation e = Some (id, raw) →
    False) as Hfail.
  { intros new err a e id raw Hn [->|He]%elem_of_cons; [done|]. by rewrite (Hn e He). }
  destruct (Z.leb_spec (u32 (ob_startingHeight o + ob_safetyLimit o)) h).
  { do 4 io_step. eexists [_]. split; [done|]. intros e id raw He Hc. exfalso.
    eapply (Hfail [] exceeded_csv_limit); [|exact He|exact Hc]. by intros ? ?%elem_of_nil. }
  io_step. eapply wp_mono; [apply IsTxInMempoolOrRange_searched| |done].
  intros r [t1 o1] (-> & Hq & Hok). apply unconfirming_new in Hq as (new & -> & Hn).
  assert (∀ e id raw, e ∈ new → is_confirmation e = Some (id, raw) → False) as Hquiet.
  { intros e id raw He. by rewrite (Hn e He). }
  destruct r as [[raw first]|e].
  2:{ repeat (case_match; [apply wp_ret; exists new; split; [done|]; intros ? ? ? He Hc;
        by destruct (Hquiet _ _ _ He Hc)|]).
      do 4 io_step. eexists (_ :: new). split; [done|]. intros ? ? ? He Hc. exfalso.
      by eapply (Hfail new); [|exact He|exact Hc]. }
  destruct (Z.ltb_spec (u32 (ob_startingHeight o + ob_safetyLimit o)) first).
  { do 4 io_step. eexists (_ :: new). split; [done|]. intros ? ? ? He Hc. exfalso.
    by eapply (Hfail new); [|exact He|exact Hc]. }
  destruct (Z.leb_spec requiredConfs (u32 (h - u32 (first - 1)))) as [Hconf|].
  2:{ apply wp_ret. exists new. split; [done|]. intros ? ? ? He Hc. by destruct (Hquiet _ _ _ He Hc). }
  do 4 io_step. eexists (_ :: new). split; [done|]. intros e id raw' He Hc.
  apply elem_of_cons in He as [->|He]; [|by destruct (Hquiet _ _ _ He Hc)].
  injection Hc as <- <-. split; [done|]. split; [done|].
  destruct (Hok raw first eq_refl) as (new' & E & Hseen). apply app_inv_tail in E as <-.
  exists first. split; [by eapply seen_more, Hseen; apply suffix_cons_r|].
  split; [done|]. split; [done|]. by apply enough_confirmations.
Qed.

(** ** The state of the watcher *)
Record watcher_ok (regs : list Watch) (t : Trace answer) (w : TxWatcher) : Prop := {
  ok_loops i o : loops w !! i = Some o → loop_of regs o;
  ok_sends i h : (i, h) ∈ sends w → heard t h;
  ok_csv k v : csvtxWatchList w !! k = Some v →
    CsvWatch k (TxId v) (TxVout v) (Csv v) ∈ regs;
  ok_reports : asked_when (report_guard regs) [] t;
}.

Lemma watcher_ok_more regs regs' t t' w :
  regs ⊆ regs' → suffix t t' → asked_when (report_guard regs') [] t' →
  watcher_ok regs t w → watcher_ok regs' t' w.
Proof.
  intros Hr Ht Hg [H1 H2 H3 _]. split; [| | |done].
  - intros i o Hi. destruct (H1 i o Hi). by split; [apply Hr|].
  - intros i h Hi. destruct (H2 i h Hi); [by left|right]. by eapply announced_more.
  - intros. by apply Hr, H3.
Qed.

Lemma TxClaimed_ok regs t w swaps : watcher_ok regs t w → watcher_ok regs t (TxClaimed swaps w).
Proof.
  intros [H1 H2 H3 H4]. split; try done. cbn. intros k v Hk. apply H3. revert Hk.
  induction swaps as [|s swaps IH]; cbn; [done|]. by intros [_ ?]%lookup_delete_Some; auto.
Qed.

(** The CSV round, for entries of registered watches. *)
Lemma csv_round_reports regs order t w :
  (∀ k v, (k, v) ∈ order → CsvWatch k (TxId v) (TxVout v) (Csv v) ∈ regs) →
  asked_when (report_guard regs) [] t →
  wp (csv_round order)
    (λ _ '(t', w'), w' = w ∧ suffix t t' ∧ asked_when (report_guard regs) [] t') any_stop (t, w).
Proof.
  revert t. induction order as [|[k v] order IH]; intros t Hregs Ht; cbn [csv_round].
  { by apply wp_ret. }
  assert (∀ k v, (k, v) ∈ order → CsvWatch k (TxId v) (TxVout v) (Csv v) ∈ regs) as Hregs'
    by (intros; apply Hregs; by right).
  assert (∀ t1, suffix t t1 → asked_when (report_guard regs) [] t1 →
    wp (csv_round order)
      (λ _ '(t', w'), w' = w ∧ suffix t t' ∧ asked_when (report_guard regs) [] t')
      any_stop (t1, w)) as Hnext.
  { intros t1 H1 H2. eapply wp_mono; [by apply IH| |done].
    intros _ [t2 w2] (-> & ? & ?). split; [done|]. split; [by etrans|done]. }
  do 2 io_step.
  assert (asked_when (report_guard regs) []
    (event (GetTxOut (TxId v) (TxVout v)) (reply t (GetTxOut (TxId v) (TxVout v))) :: t)) as Ht1
    by (by constructor).
  assert (suffix t (event (GetTxOut (TxId v) (TxVout v))
    (reply t (GetTxOut (TxId v) (TxVout v))) :: t)) as Hs1 by (by apply suffix_cons_r).
  destruct (reply t (GetTxOut (TxId v) (TxVout v))) as [[res|]|e]; [|by apply Hnext..].
  destruct (Z.ltb_spec (Confirmations res) (Csv v)); [by apply Hnext|].
  do 2 io_step.
  assert (∀ a, asked_when (report_guard regs) [] (event (csvPassedCallback k) a ::
    event (GetTxOut (TxId v) (TxVout v)) (Ok (Some res)) :: t)) as Ht2.
  { intros a. constructor; [|done]. exists (TxId v), (TxVout v), (Csv v), res, t.
    split; [apply Hregs; left|]. split; [done|lia]. }
  destruct (reply _ (csvPassedCallback k)).
  - apply Hnext; [by do 2 apply suffix_cons_r|apply Ht2].
  - io_step. eapply wp_mono; [apply Hnext; [by do 2 apply suffix_cons_r|apply Ht2]| |done].
    intros l [t2 w2] ?. by apply wp_ret.
Qed.

Lemma HandleCsvTx_ok regs t w order :
  order ≡ₚ map_to_list (csvtxWatchList w) → watcher_ok regs t w →
  wp (HandleCsvTx order) (λ _ '(t', w'), watcher_ok regs t' w') any_stop (t, w).
Proof.
  intros Ho H. unfold HandleCsvTx. io_step.
  eapply wp_mono; [apply (csv_round_reports regs order t w)| |done].
  - intros k v Hin. rewrite Ho, elem_of_map_to_list in Hin. by eapply ok_csv.
  - apply H.
  - intros l [t1 w1] (-> & Hs & Hg). io_step. apply TxClaimed_ok.
    by eapply watcher_ok_more.
Qed.

Lemma new_block_ok regs t w nb order :
  announced (u32 nb) t ∨ nb = 0 →
  order ≡ₚ map_to_list (csvtxWatchList w) → watcher_ok regs t w →
  wp (new_block nb order) (λ _ '(t', w'), watcher_ok regs t' w') any_stop (t, w).
Proof.
  intros Hnb Ho [H1 H2 H3 H4]. unfold new_block. do 2 io_step. apply HandleCsvTx_ok; [done|].
  split; try done. cbn. intros i h [Hin|Hin]%elem_of_app; [by eapply H2|].
  apply list_elem_of_fmap in Hin as (id & [= -> ->] & _).
  destruct Hnb as [?| ->]; [by right|by left].
Qed.

Lemma wp_or_exit {S T} (zero : T) (r : result T) (P : T → Trace answer * S → Prop) s :
  (∀ x, r = Ok x → P x s) → (∀ e, r = Err e → P zero s) → wp (or_exit zero r) P any_stop s.
Proof. intros H1 H2. destruct r; cbn; [by apply H1|]. case_bool_decide; [done|by eapply H2]. Qed.

(** A question that is not a report. *)
Lemma ok_asked regs t w q a : is_report q = false → watcher_ok regs t w →
  watcher_ok regs (event q a :: t) w.
Proof.
  intros Hq H. eapply watcher_ok_more; [done|by apply suffix_cons_r| |done].
  constructor; [by apply no_report_guard|apply H].
Qed.

Lemma block_tick_ok regs t w order :
  order ≡ₚ map_to_list (csvtxWatchList w) → watcher_ok regs t w →
  wp (block_tick order) (λ _ '(t', w'), watcher_ok regs t' w') any_stop (t, w).
Proof.
  intros Ho H. unfold block_tick. do 2 io_step.
  set (t1 := event GetBlockHeight (reply t GetBlockHeight) :: t).
  assert (watcher_ok regs t1 w) as H1 by (by apply ok_asked). io_step.
  assert (∀ nb, announced (u32 nb) t1 ∨ nb = 0 →
    wp (b ← query (GetBlockHash (u32 nb)); nextHash ← or_exit "" b; w ← look;
        if (lastHeight w <? nb) || bool_decide (nextHash ≠ lastHash w) then
          update (λ w, w <| lastHeight := nb |> <| lastHash := nextHash |>);; new_block nb order
        else mret ()) (λ _ '(t', w'), watcher_ok regs t' w') any_stop (t1, w)) as Hrest.
  { intros nb Hnb. do 2 io_step. set (t2 := event (GetBlockHash _) _ :: t1).
    assert (watcher_ok regs t2 w) as H2 by (by apply ok_asked). io_step.
    assert (announced (u32 nb) t2 ∨ nb = 0) as Hnb2.
    { destruct Hnb; [left|by right]. eapply announced_more; [|done]. by apply suffix_cons_r. }
    apply wp_or_exit; intros; do 2 io_step; (destruct (_ || _); [|by apply wp_ret]);
      do 2 io_step; (apply new_block_ok; [done|done|]); by destruct H2. }
  apply wp_or_exit; [|by intros; apply Hrest; right].
  intros h Eh. apply Hrest. left. exists h. split; [|done].
  unfold answered. rewrite <- Eh. left.
Qed.

Lemma receive_ok regs t w id h :
  heard t h → watcher_ok regs t w →
  wp (receive requiredConfs id h) (λ _ '(t', w'), watcher_ok regs t' w') any_stop (t, w).
Proof.
  intros Hh H. unfold receive. do 2 io_step. destruct (loops w !! id) as [o|] eqn:Ho;
    [|by apply wp_ret].
  pose proof (ok_loops _ _ _ H id o Ho) as Hloop. do 2 io_step.
  eapply wp_mono; [exact (on_block_reports regs h [] t o Hloop Hh (ok_reports _ _ _ H))| |].
  2:{ by intros ? []. }
  intros fin [t1 o1] (Hg & Hs & Hl & _).
  assert (watcher_ok regs t1 (w <| loops := <[id := o1]> (loops w) |>)) as H1.
  { eapply (watcher_ok_more regs regs t t1) in H as [H1 H2 H3 _]; try done.
    split; try done. cbn. intros i o' [[<- <-]|[_ Hi]]%lookup_insert_Some; [done|by eapply H1]. }
  destruct fin; [|by apply wp_ret]. io_step. destruct H1 as [H1 H2 H3 H4]. split; try done.
  cbn. intros i o' [_ Hi]%lookup_delete_Some. by eapply H1.
Qed.

Lemma receive_confirms t w id h :
  wp (receive requiredConfs id h)
    (λ _ '(t', w'), ∃ new, t' = new ++ t ∧ ∀ e sid raw, e ∈ new → is_confirmation e = Some (sid, raw) →
       ∃ o, loops w !! id = Some o ∧ ob_swapId o = sid ∧ ob_lastHeight o < h ∧ confirmed_in o h new raw)
    any_stop (t, w).
Proof.
  unfold receive. do 2 io_step. destruct (loops w !! id) as [o|] eqn:Ho.
  2:{ apply wp_ret. exists []. split; [done|]. by intros ? ? ? ?%elem_of_nil. }
  do 2 io_step. eapply wp_mono; [apply on_block_confirms| |by intros ? []].
  intros fin [t1 o1] (new & -> & Hn).
  assert (∃ new', new ++ t = new' ++ t ∧ ∀ e sid raw, e ∈ new' → is_confirmation e = Some (sid, raw) →
    ∃ o0, Some o = Some o0 ∧ ob_swapId o0 = sid ∧ ob_lastHeight o0 < h ∧ confirmed_in o0 h new' raw) as Hres.
  { exists new. split; [done|]. intros e sid raw He Hc. destruct (Hn e sid raw He Hc) as (-> & ? & ?).
    by exists o. }
  destruct fin; [io_step|apply wp_ret]; exact Hres.
Qed.

Lemma watcher_run_ok regs t w : watcher_run requiredConfs regs t w → watcher_ok regs t w.
Proof.
  assert (∀ regs t w (m : IO answer TxWatcher ()) t' w',
    wp m (λ _ '(t', w'), watcher_ok regs t' w') any_stop (t, w) →
    m (t, w) = Ret (t', w') () → watcher_ok regs t' w') as Helim.
  { intros r t0 w0 m t' w' Hwp Hm. exact (wp_elim _ _ _ _ _ _ Hwp Hm). }
  induction 1 as [|regs t w id tx vout start window t' w' _ IH Hm
    |regs t w id tx vout start csv t' w' _ IH Hm|regs t w order t' w' _ IH Ho Hm
    |regs t w l1 id h l2 t' w' _ IH Hl Hm|regs t w swaps _ IH].
  - split; cbn; [done|by intros ? ? ?%elem_of_nil|done|constructor].
  - eapply Helim, Hm. unfold AddWaitForConfirmationTx. do 6 io_step. io_step.
    set (q := event _ _).
    assert (watcher_ok (ConfirmationWatch id tx vout start window :: regs) (q :: t) w)
      as [H1 H2 H3 H4].
    { apply ok_asked; [done|]. eapply watcher_ok_more; [|done| |done].
      - by apply list_subseteq_cons.
      - eapply asked_mono; [|apply IH]. intros. eapply report_guard_mono; [|done].
        by apply list_subseteq_cons. }
    split; try done; cbn.
    + intros i o [[<- <-]|[_ Hi]]%lookup_insert_Some; [|by eapply H1]. split; [left|done].
    + intros i h [Hin|Hin]%elem_of_app; [by eapply H2|].
      apply list_elem_of_singleton in Hin as [= -> ->]. subst q.
      destruct (reply t GetBlockHeight) as [z|]; [|by left]. right. exists z.
      split; [left|done].
  - eapply Helim, Hm. unfold AddWaitForCsvTx, checkTxAboveCsvHight.
    set (regs' := CsvWatch id tx vout csv :: regs).
    assert (watcher_ok regs' t w) as H0.
    { eapply watcher_ok_more; [|done| |done]; [by apply list_subseteq_cons|].
      eapply asked_mono; [|apply IH]. intros. eapply report_guard_mono; [|done].
      by apply list_subseteq_cons. }
    assert (∀ t1, watcher_ok regs' t1 w → watcher_ok regs' t1 (w <| csvtxWatchList :=
      <[id := mkSwapTxInfo tx vout start csv]> (csvtxWatchList w) |>)) as Hwatch.
    { intros t1 [H1 H2 H3 H4]. split; try done. cbn.
      intros k v [[<- <-]|[_ Hk]]%lookup_insert_Some; [left|by apply H3]. }
    do 3 io_step. set (q := event _ _).
    assert (watcher_ok regs' (q :: t) w) as H1 by (by apply ok_asked). subst q.
    destruct (reply t (GetTxOut tx vout)) as [[res|]|e]; [|by do 2 io_step; apply Hwatch..].
    io_step. destruct (Z.leb_spec csv (Confirmations res)); [|by io_step; apply Hwatch].
    do 2 io_step.
    assert (∀ a, watcher_ok regs' (event (csvPassedCallback id) a ::
      event (GetTxOut tx vout) (Ok (Some res)) :: t) w) as H2.
    { intros a. eapply watcher_ok_more; [done|by apply suffix_cons_r| |exact H1].
      constructor; [|apply H1]. exists tx, vout, csv, res, t. split; [left|by split]. }
    destruct (reply _ (csvPassedCallback id)); io_step; [by apply Hwatch|done].
  - by eapply Helim, Hm; apply block_tick_ok.
  - eapply Helim, Hm. apply receive_ok.
    + eapply ok_sends; [exact IH|]. rewrite Hl. apply elem_of_app. right. left.
    + destruct IH as [H1 H2 H3 H4]. split; try done. cbn. intros i h' Hin. apply (H2 i).
      rewrite Hl. apply elem_of_app. rewrite elem_of_cons. apply elem_of_app in Hin. tauto.
  - by apply TxClaimed_ok.
Qed.
(** ** Where confirmations come from *)

(** In the state [w] of a run the height [h] is delivered to the loop [id], which asks
    [new]. *)
Definition delivered (regs : list Watch) (t : Trace answer) (w : TxWatcher) (id : nat) (h : Z)
    (new : Trace answer) : Prop :=
  watcher_run requiredConfs regs t w ∧
  ∃ l1 l2 w', sends w = l1 ++ (id, h) :: l2 ∧
    receive requiredConfs id h (t, w <| sends := l1 ++ l2 |>) = Ret (new ++ t, w') ().

Lemma delivered_confirms regs t w id h new e sid raw :
  delivered regs t w id h new → e ∈ new → is_confirmation e = Some (sid, raw) →
  ∃ o, loops w !! id = Some o ∧ ob_swapId o = sid ∧
    ConfirmationWatch sid (ob_txId o) (ob_vout o) (ob_startingHeight o) (ob_safetyLimit o) ∈ regs ∧
    announced h t ∧ confirmed_in o h new raw.
Proof.
  intros (Hrun%watcher_run_ok & l1 & l2 & w' & Hs & Hm) He Hc.
  pose proof (wp_elim _ _ _ _ _ _ (receive_confirms t (w <| sends := l1 ++ l2 |>) id h) Hm)
    as (new' & E & Hn).
  apply app_inv_tail in E as <-. destruct (Hn e sid raw He Hc) as (o & Ho & <- & Hlast & Hconf).
  destruct (ok_loops _ _ _ Hrun id o Ho) as [Hreg H0]. exists o. do 3 (split; [done|]).
  split; [|done]. destruct (ok_sends _ _ _ Hrun id h) as [->|]; [|lia|done].
  rewrite Hs. apply elem_of_app. right. left.
Qed.

Ltac unconfirmed_asks := repeat (constructor; [reflexivity|]).

Lemma csv_round_unconfirming order t (w : TxWatcher) t0 :
  asked_when unconfirming t0 t →
  wp (csv_round order) (λ _ '(t', _), asked_when unconfirming t0 t') any_stop (t, w).
Proof.
  revert t. induction order as [|[k v] order IH]; intros t Ht; cbn [csv_round]; [done|].
  do 2 io_step. destruct (reply t _) as [[res|]|e]; [|by apply IH; constructor..].
  destruct (_ <? _); [by apply IH; constructor|]. do 2 io_step.
  destruct (reply _ (csvPassedCallback k)); [apply IH; by repeat constructor|].
  io_step. eapply wp_mono; [apply IH; by repeat constructor| |done]. by intros l [t1 w1] ?.
Qed.
Lemma HandleCsvTx_unconfirming order t w t0 :
  asked_when unconfirming t0 t →
  wp (HandleCsvTx order) (λ _ '(t', _), asked_when unconfirming t0 t') any_stop (t, w).
Proof.
  intros Ht. unfold HandleCsvTx. io_step.
  eapply wp_mono; [by apply csv_round_unconfirming| |done]. intros l [t1 w1] ?. by io_step.
Qed.

Lemma block_tick_unconfirming order t w :
  wp (block_tick order) (λ _ '(t', _), asked_when unconfirming t t') any_stop (t, w).
Proof.
  unfold block_tick. do 3 io_step.
  apply wp_or_exit; intros; do 3 io_step; (apply wp_or_exit; intros; do 2 io_step;
    (destruct (_ || _); [|apply wp_ret; by repeat constructor]);
    do 2 io_step; unfold new_block; do 2 io_step;
    apply HandleCsvTx_unconfirming; by repeat constructor).
Qed.

(** Every confirmation of a run was reported by a loop a height was delivered to. *)
Lemma confirmations_delivered regs t w e :
  watcher_run requiredConfs regs t w → e ∈ t → is_Some (is_confirmation e) →
  ∃ regs0 t0 w0 id h new, delivered regs0 t0 w0 id h new ∧ e ∈ new ∧
    regs0 ⊆ regs ∧ suffix (new ++ t0) t.
Proof.
  intros Hrun He Hc.
  assert (∀ t0 t (m : IO answer TxWatcher ()) w0 w',
    wp m (λ _ '(t', _), asked_when unconfirming t0 t') any_stop (t, w0) →
    ∀ t', m (t, w0) = Ret (t', w') () → e ∈ t' → e ∈ t0) as Hquiet.
  { intros t0 t1 m w0 w' Hm t' E He'. pose proof (wp_elim _ _ _ _ _ _ Hm E) as Hq. cbn in Hq.
    apply asked_new in Hq as (new & -> & Hn). apply elem_of_app in He' as [He'|He']; [|done].
    destruct (Hn e He') as (pre & Hu). red in Hu. rewrite Hu in Hc. by destruct Hc. }
  assert (∀ regs regs' t t', regs ⊆ regs' → suffix t t' →
    (∃ regs0 t0 w0 id h new, delivered regs0 t0 w0 id h new ∧ e ∈ new ∧
       regs0 ⊆ regs ∧ suffix (new ++ t0) t) →
    ∃ regs0 t0 w0 id h new, delivered regs0 t0 w0 id h new ∧ e ∈ new ∧
       regs0 ⊆ regs' ∧ suffix (new ++ t0) t') as Hmore.
  { intros r r' t1 t2 Hr Ht (regs0 & t0 & w0 & id & h & new & H1 & H2 & H3 & H4).
    exists regs0, t0, w0, id, h, new. split_and!; [done|done|by etrans|by etrans]. }
  assert (∀ t0 t (m : IO answer TxWatcher ()) w0 w',
    wp m (λ _ '(t', _), asked_when unconfirming t0 t') any_stop (t, w0) →
    ∀ t', m (t, w0) = Ret (t', w') () → suffix t0 t') as Hsuf.
  { intros t0 t1 m w0 w' Hm t' E. pose proof (wp_elim _ _ _ _ _ _ Hm E) as Hq. cbn in Hq. by eapply asked_suffix. }
  induction Hrun as [|regs t w id tx vout start window t' w' _ IH Hm
    |regs t w id tx vout start csv t' w' _ IH Hm|regs t w order t' w' _ IH Ho Hm
    |regs t w l1 id h l2 t' w' Hrun IH Hl Hm|regs t w swaps _ IH]; [| | | | |by apply IH].
  - by apply elem_of_nil in He.
  - assert (wp (AddWaitForConfirmationTx id tx vout start window)
      (λ _ '(t', _), asked_when unconfirming t t') any_stop (t, w)) as Hwp.
    { unfold AddWaitForConfirmationTx. do 7 io_step. by repeat constructor. }
    eapply Hmore; [by apply list_subseteq_cons|by eapply Hsuf, Hm|]. eapply IH, Hquiet; eauto.
  - assert (wp (AddWaitForCsvTx id tx vout start csv)
      (λ _ '(t', _), asked_when unconfirming t t') any_stop (t, w)) as Hwp.
    { unfold AddWaitForCsvTx, checkTxAboveCsvHight. do 3 io_step.
      destruct (reply t _) as [[res|]|e']; [|do 2 io_step; by repeat constructor..].
      io_step. destruct (_ <=? _); [|io_step; by repeat constructor]. do 2 io_step.
      destruct (reply _ (csvPassedCallback id)); io_step; by repeat constructor. }
    eapply Hmore; [by apply list_subseteq_cons|by eapply Hsuf, Hm|]. eapply IH, Hquiet; eauto.
  - pose proof (block_tick_unconfirming order t w) as Hwp.
    eapply Hmore; [done|by eapply Hsuf, Hm|]. eapply IH, Hquiet; eauto.
  - destruct (wp_elim _ _ _ _ _ _ (receive_confirms t (w <| sends := l1 ++ l2 |>) id h) Hm)
      as (new & -> & _).
    apply elem_of_app in He as [He|He].
    + exists regs, t, w, id, h, new. split_and!; try done. split; [done|]. by exists l1, l2, w'.
    + eapply Hmore; [done| |by apply IH]. by apply suffix_app_r.
Qed.
End reports.

(** C17. The transaction watcher reports only what the node showed, over any
    interleaving of blocks, observation loops and registrations and any answers of
    the node.  When a height [h], which the node announced, is delivered to a loop,
    the loop reports a confirmation only for its own registered watch and for a
    transaction that the node, during this very delivery, found in a block it named;
    [h] and that block are inside the window of the watch, and at height [h] the
    block has the required number of confirmations unless it lies two or more blocks
    after [h] (the node moved on between the delivery and the search; see
    [late_block_is_reported]).  Every confirmation ever reported comes from such a
    delivery; a failure is reported only for a registered watch; and a passed CSV
    only directly after the node answered with at least the CSV's confirmations for
    the watched output. *)
Theorem reports_sound {OR : Oracle answer} requiredConfs :
  (∀ regs t w id h new sid raw a,
     delivered requiredConfs regs t w id h new → event (txCallback sid raw None) a ∈ new →
     ∃ o, loops w !! id = Some o ∧ ob_swapId o = sid ∧
       ConfirmationWatch sid (ob_txId o) (ob_vout o) (ob_startingHeight o) (ob_safetyLimit o) ∈ regs ∧
       announced h t ∧ confirmed_in requiredConfs o h new raw) ∧
  (∀ regs t w post e pre, watcher_run requiredConfs regs t w → t = post ++ e :: pre →
     match question e with
     | txCallback _ _ None =>
         ∃ regs0 t0 w0 id h new, delivered requiredConfs regs0 t0 w0 id h new ∧ e ∈ new ∧
           regs0 ⊆ regs ∧ suffix (new ++ t0) t
     | txCallback id _ (Some _) =>
         ∃ tx vout start window, ConfirmationWatch id tx vout start window ∈ regs
     | csvPassedCallback id =>
         ∃ tx vout csv res pre',
           CsvWatch id tx vout csv ∈ regs ∧
           pre = event (GetTxOut tx vout) (Ok (Some res)) :: pre' ∧ csv ≤ Confirmations res
     | _ => True
     end).
Proof.
  split.
  - intros regs t w id h new sid raw a Hd He. by apply (delivered_confirms _ _ _ _ _ _ _ _ _ raw Hd He).
  - intros regs t w post e pre Hrun ->. pose proof (ok_reports _ _ _ (watcher_run_ok _ _ _ _ Hrun)) as Hg.
    assert (report_guard regs e pre) as He.
    { clear Hrun. induction post as [|e' post IH]; inversion Hg; auto. }
    revert He. unfold report_guard. destruct (question e) as [| | | |sid raw [err|]|] eqn:Eq; try done.
    intros _. eapply confirmations_delivered; [exact Hrun|apply elem_of_app; right; left|].
    unfold is_confirmation. by rewrite Eq.
Qed.

(** ** The CSV watch loses nothing *)
Section csv_exact.
Context {OR : Oracle answer}.

Definition passed (new : Trace answer) (k : string) : Prop :=
  answered new (csvPassedCallback k) None.

(** The entry was looked at: its output was asked for, and the swap was reported directly
    after that exactly when the output was mature. *)
Definition attended (k : string) (v : SwapTxInfo) (asked : Trace answer) : Prop :=
  ∃ a, match a with
       | Ok (Some res) =>
           if Confirmations res <? Csv v then asked = [event (GetTxOut (TxId v) (TxVout v)) a]
           else ∃ e, asked = [event (csvPassedCallback k) e; event (GetTxOut (TxId v) (TxVout v)) a]
       | _ => asked = [event (GetTxOut (TxId v) (TxVout v)) a]
       end.
(** All that was asked: for every entry in turn. *)
Inductive attended_all : list (string * SwapTxInfo) → Trace answer → Prop :=
  | attended_none : attended_all [] []
  | attended_next k v order asked new :
      attended k v asked → attended_all order new → attended_all ((k, v) :: order) (new ++ asked).

Lemma attended_all_elem order new k v :
  attended_all order new → (k, v) ∈ order → ∃ post asked pre, new = post ++ asked ++ pre ∧ attended k v asked.
Proof.
  induction 1 as [|k' v' order asked new Ha _ IH]; [by intros ?%elem_of_nil|].
  intros [[= -> ->]|Hin]%elem_of_cons; [exists new, asked, []; by rewrite app_nil_r|].
  destruct (IH Hin) as (post & asked' & pre & -> & Ha'). exists post, asked', (pre ++ asked). by rewrite <- !assoc_L by apply _.
Qed.

(** What a round over [order] does, when it found [l] and asked [new]. *)
Definition round_done (order : list (string * SwapTxInfo)) (l : list string)
    (new : Trace answer) : Prop :=
  (∀ k, k ∈ l ↔ passed new k) ∧ attended_all order new.

Lemma round_done_cons order l new asked k v (b : bool) :
  round_done order l new → attended k v asked →
  (∀ k', passed asked k' ↔ k' = k ∧ b = true) →
  round_done ((k, v) :: order) (if b then k :: l else l) (new ++ asked).
Proof.
  intros (H1 & H2) Ha Hp. split; [|by constructor]. intros k'.
  assert (passed (new ++ asked) k' ↔ passed new k' ∨ passed asked k') as -> by apply elem_of_app.
  rewrite Hp, <- H1. destruct b; [rewrite elem_of_cons|]; naive_solver.
Qed.

Lemma csv_round_done order t (w : TxWatcher) :
  wp (csv_round order)
    (λ l '(t', w'), w' = w ∧ ∃ new, t' = new ++ t ∧ round_done order l new) no_stop (t, w).
Proof.
  revert t. induction order as [|[k v] order IH]; intros t; cbn [csv_round].
  { apply wp_ret. split; [done|]. exists []. split; [done|].
    split; [|constructor]. intros k. split; by intros ?%elem_of_nil. }
  assert (∀ t1 asked (b : bool), t1 = asked ++ t → attended k v asked →
    (∀ k', passed asked k' ↔ k' = k ∧ b = true) →
    wp (csv_round order) (λ l '(t', w'), w' = w ∧ ∃ new, t' = new ++ t ∧
      round_done ((k, v) :: order) (if b then k :: l else l) new) no_stop (t1, w)) as Hnext.
  { intros t1 asked b -> Ha Hp. eapply wp_mono; [apply IH| |done].
    intros l [t2 w2] (-> & new & -> & Hd). split; [done|].
    exists (new ++ asked). split; [by rewrite (assoc_L (++))|]. by apply round_done_cons. }
  do 2 io_step. set (a := reply t (GetTxOut (TxId v) (TxVout v))).
  assert (∀ k', passed [event (GetTxOut (TxId v) (TxVout v)) a] k' ↔ k' = k ∧ false = true) as Hp.
  { intros k'. split; [|by intros []]. by intros ?%list_elem_of_singleton. }
  destruct a as [[res|]|e] eqn:Ea; cycle 1.
  { eapply (Hnext _ [_] false); [done|by exists (Ok None)|exact Hp]. }
  { eapply (Hnext _ [_] false); [done|by exists (Err e)|exact Hp]. }
  destruct (Confirmations res <? Csv v) eqn:Em.
  { eapply (Hnext _ [_] false); [done|exists (Ok (Some res)); by rewrite Em|exact Hp]. }
  do 2 io_step. set (c := reply _ (csvPassedCallback k)).
  assert (attended k v [event (csvPassedCallback k) c;
    event (GetTxOut (TxId v) (TxVout v)) (Ok (Some res))]) as Hatt.
  { exists (Ok (Some res)). rewrite Em. by exists c. }
  assert (∀ k' (b : bool), (c = None ↔ b = true) → passed [event (csvPassedCallback k) c;
    event (GetTxOut (TxId v) (TxVout v)) (Ok (Some res))] k' ↔ k' = k ∧ b = true) as Hpass.
  { intros k' b Hb. unfold passed, answered. rewrite elem_of_cons, list_elem_of_singleton. split.
    - intros [E|E]; [|by discriminate (f_equal question E)].
      pose proof (f_equal question E) as Eq. cbn in Eq. injection Eq as ->. split; [done|].
      apply Hb. by apply event_inj in E.
    - intros [-> Hb']. left. by rewrite (proj2 Hb Hb'). }
  destruct c as [err|] eqn:Ec.
  - eapply (Hnext _ [_; _] false); [done|exact Hatt|]. intros k'. by apply Hpass.
  - io_step. eapply wp_mono;
      [eapply (Hnext _ [_; _] true); [done|exact Hatt|]; intros k'; by apply Hpass| |done].
    intros l [t2 w2] H2. by apply wp_ret.
Qed.
End csv_exact.

Lemma foldr_delete_lookup {V} (m : gmap string V) l k v :
  foldr delete m l !! k = Some v ↔ m !! k = Some v ∧ k ∉ l.
Proof.
  induction l as [|x l IH]; cbn.
  - split; [|by intros []]. intros ?. split; [done|]. apply not_elem_of_nil.
  - rewrite lookup_delete_Some, IH, not_elem_of_cons. naive_solver.
Qed.

(** C34. The CSV watch loses nothing: a round over the watched swaps, in whatever
    order the map yields them, always ends; it asks the node for the output of
    every one of them in turn, reports a swap directly after the answer exactly when
    the output has the confirmations of its CSV, and afterwards watches exactly those
    it did not report successfully. *)
Theorem csv_watch_loses_nothing {OR : Oracle answer} order t w :
  order ≡ₚ map_to_list (csvtxWatchList w) →
  match HandleCsvTx order (t, w) with
  | Ret (t', w') _ => ∃ new, t' = new ++ t ∧ attended_all order new ∧
      (∀ k v, csvtxWatchList w !! k = Some v → ∃ post asked pre, new = post ++ asked ++ pre ∧ attended k v asked) ∧
      ∀ k v, csvtxWatchList w' !! k = Some v ↔
             csvtxWatchList w !! k = Some v ∧ ¬ passed new k
  | _ => False
  end.
Proof.
  intros Ho. assert (wp (HandleCsvTx order) (λ _ '(t', w'), ∃ new, t' = new ++ t ∧ attended_all order new ∧
      (∀ k v, csvtxWatchList w !! k = Some v → ∃ post asked pre, new = post ++ asked ++ pre ∧ attended k v asked) ∧
      ∀ k v, csvtxWatchList w' !! k = Some v ↔
             csvtxWatchList w !! k = Some v ∧ ¬ passed new k) no_stop (t, w)) as H.
  { unfold HandleCsvTx. io_step. eapply wp_mono; [apply csv_round_done| |done].
    intros l [t1 w1] (-> & new & -> & H1 & H2). io_step. exists new. split; [done|]. split; [done|]. split.
    - intros k v Hk%elem_of_map_to_list. eapply attended_all_elem; [exact H2|by rewrite Ho].
    - intros k v. cbn. by rewrite foldr_delete_lookup, H1. }
  unfold wp in H. by destruct (HandleCsvTx order (t, w)) as [[]|[]|[]].
Qed.

(** ** The search in a range *)
Section range.
Context {OR : Oracle answer} {S : Type} (txId : string).

(** The block at height [i] was looked at, and the transaction was not in it. *)
Definition not_in_block (t : Trace answer) (i : Z) : Prop :=
  ∃ bh a, answered t (GetBlockHash i) (Ok bh) ∧
    answered t (GetRawtransactionWithBlockHash txId bh) a ∧ ∀ raw, a = Ok raw → raw = "".

Definition range_result (startBlock endBlock : Z) (r : result (string * Z)) (t : Trace answer)
    : Prop :=
  match r with
  | Ok (raw, h) => startBlock ≤ h ≤ endBlock ∧ raw ≠ "" ∧ seen_at txId raw h t ∧
      ∀ i, startBlock ≤ i < h → not_in_block t i
  | Err e => e = ErrNotFound → ∀ i, startBlock ≤ i ≤ endBlock → not_in_block t i
  end.

Lemma range_loop_result fuel startBlock i endBlock t (s : S) :
  0 ≤ startBlock ≤ i → i ≤ endBlock + 1 → endBlock + 1 < 2 ^ 32 →
  (Z.to_nat (endBlock + 1 - i) < fuel)%nat →
  (∀ j, startBlock ≤ j < i → not_in_block t j) →
  wp (range_loop fuel txId i endBlock)
    (λ r '(t', s'), s' = s ∧ range_result startBlock endBlock r t' ∨
       s' = s ∧ ∃ e h, r = Err e ∧ answered t' (GetBlockHash h) (Err e)) no_stop (t, s).
Proof.
  revert i t. induction fuel as [|fuel IH]; intros i t Hi He Hw Hf Hn; [lia|].
  cbn [range_loop]. destruct (Z.leb_spec i endBlock) as [Hle|Hgt].
  2:{ apply wp_ret. left. split; [done|]. intros _ j Hj. apply Hn. lia. }
  do 2 io_step. destruct (reply t (GetBlockHash i)) as [bh|e] eqn:Eb.
  2:{ apply wp_ret. right. split; [done|]. exists e, i. split; [done|left]. }
  do 2 io_step. set (q := GetRawtransactionWithBlockHash txId bh). set (a := reply _ q).
  assert (answered (event q a :: event (GetBlockHash i) (Ok bh) :: t) (GetBlockHash i) (Ok bh))
    as Hb by (right; left).
  assert (∀ j, startBlock ≤ j < i →
    not_in_block (event q a :: event (GetBlockHash i) (Ok bh) :: t) j) as Hn'.
  { intros j Hj. destruct (Hn j Hj) as (bj & aj & ? & ? & ?).
    exists bj, aj. split_and!; [by do 2 right|by do 2 right|done]. }
  assert ((∀ raw, a = Ok raw → raw = "") →
    wp (range_loop fuel txId (u32 (i + 1)) endBlock)
    (λ r '(t', s'), s' = s ∧ range_result startBlock endBlock r t' ∨
       s' = s ∧ ∃ e h, r = Err e ∧ answered t' (GetBlockHash h) (Err e)) no_stop
    (event q a :: event (GetBlockHash i) (Ok bh) :: t, s)) as Hnext.
  { intros Ha. rewrite u32_small by (unfold is_u32; lia). apply IH; [lia..|].
    intros j Hj. destruct (decide (j = i)) as [->|]; [|apply Hn'; lia].
    exists bh, a. split; [done|]. split; [left|done]. }
  destruct a as [raw|e] eqn:Ea; [|by apply Hnext].
  case_bool_decide as Hraw; [|apply Hnext; intros ? [= <-]; by destruct (decide (raw = ""))].
  apply wp_ret. left. split; [done|]. split; [lia|]. split; [done|].
  split; [|done]. exists bh. split; [done|left].
Qed.
End range.

(** The search of a transaction in a range of blocks ends and is exact: for any
    range below the largest height it returns a block in which the node found the
    transaction, with no earlier block of the range containing it, or it says
    that the transaction was not found after it has looked at every block, or it
    passes on an error of the node. *)
Theorem range_search_exact {OR : Oracle answer} {S} txId startBlock endBlock t (s : S) :
  0 ≤ startBlock ≤ endBlock → endBlock < 2 ^ 32 - 1 →
  match IsTxInRange txId startBlock endBlock (t, s) with
  | Ret (t', s') r => s' = s ∧
      (range_result txId startBlock endBlock r t' ∨
       ∃ e h, r = Err e ∧ answered t' (GetBlockHash h) (Err e))
  | _ => False
  end.
Proof.
  intros Hr Hw. unfold IsTxInRange. destruct (Z.ltb_spec endBlock startBlock) as [|_]; [lia|].
  pose proof (range_loop_result txId (Z.to_nat (endBlock - startBlock + 2)) startBlock startBlock
    endBlock t s ltac:(lia) ltac:(lia) ltac:(lia) ltac:(lia) ltac:(lia)) as H.
  unfold wp in H. destruct (range_loop _ _ _ _ _) as [[]|[]|[]]; [|done..]. naive_solver.
Qed.

(** ** Confirmations of a block that is ahead

    The number of confirmations is the difference, in uint32, of the height the
    loop heard of and the height the search found.  The search asks the node
    again, so when the delivery of the height was slow the transaction can be in a
    block two or more ahead; the difference then wraps and exceeds every
    requirement. *)
Definition ahead_reply (t : Trace answer) (q : Call) : answer q :=
  match q with
  | GetBlockHeight =>
      Ok (if existsb (λ e, bool_decide (question e = GetBlockHeight)) t then 102 else 100)
  | GetTxOut _ _ => Ok (Some (mkTxOut "hash 102" 1))
  | GetBlockHash h => Ok ("hash " +:+ strconv.Itoa h)
  | GetRawtransactionWithBlockHash _ _ => Ok "raw"
  | txCallback _ _ _ | csvPassedCallback _ => None
  end.
Definition ahead : Oracle answer := ahead_reply.

(** A transaction with one confirmation can be reported as confirmed although
    three are required: there is a run in which the node mines two blocks between
    the height a loop is sent and the search of the loop, the transaction is in
    the second one, and the loop reports success at once. *)
Theorem late_block_is_reported :
  ∃ t w, watcher_run (OR := ahead) 3 [ConfirmationWatch "swap" "tx" 0 90 504]
           (event (txCallback "swap" "raw" None) None :: t) w ∧
         answered t (GetTxOut "tx" 0) (Ok (Some (mkTxOut "hash 102" 1))).
Proof.
  eexists _, _. split.
  - eapply (run_receive (OR := ahead) 3 _ _ _ [] 0 100 []).
    + eapply (run_confirmation_watch (OR := ahead) 3 []);
        [apply (run_start (OR := ahead))|]. vm_compute. reflexivity.
    + vm_compute. reflexivity.
    + vm_compute. reflexivity.
  - right. left.
Qed.
