(* ===== verification/Electrum.v ===== *)
(** * The Electrum watcher of Liquid (src/electrum, src/lwk/electrumtxwatcher.go)

    The server sends block headers; [acceptBlockHeight] lets only growing
    heights through, and each of them is shown to every registered observer by
    [Update].  Observers ask the server for the history of the output's script.
    Heights are int64, since the server uses zero and negative ones.  The
    resubscription, which only replaces the channel of the headers, the timeout of
    the first header and the log are left out; hashes and scripts of btcd are
    parameters ([ChainLib]).

    The last part is the client (client.go) through which the wallet kit and the watcher
    talk to the server: [electrum_client_careful]. *)

From S2P Require Import Prelude GoLib SwapData Service Oracle.

Module ElectrumRpc.

(** An entry of a script's history. *)
Record GetMempoolResult := mkMempoolResult {
  GHash : string;
  GHeight : Z;
}.

(** The requests of [electrum.RPC] that are used, and the two callbacks. *)
Inductive Call :=
  | GetHistory (scripthash : string)
  | GetRawTransaction (txHash : string)
  | confirmationCallback (swapId txHex : string) (err : option error)
  | csvCallback (swapId : string).

Definition answer (c : Call) : Type :=
  match c with
  | GetHistory _ => result (list (option GetMempoolResult))
  | GetRawTransaction _ => result string
  | confirmationCallback _ _ _ | csvCallback _ => option error
  end.

#[export] Instance ECall_eq_dec : EqDecision Call.
Proof. solve_decision. Defined.
End ElectrumRpc.
Import ElectrumRpc.

Section electrum.
Context `{!ChainLib} {OR : Oracle answer}.
Abbreviation Io := (IO answer).

(** [fmt.Sprintf("%X", b)]. *)
Definition upper_hex_digit (c : ascii) : ascii :=
  let n := nat_of_ascii c in if (97 <=? n)%nat then ascii_of_nat (n - 32) else c.
Fixpoint upper (s : string) : string :=
  match s with
  | EmptyString => EmptyString
  | String c s => String (upper_hex_digit c) (upper s)
  end.

(** [scriptPubKey.scriptHash]. *)
Definition scriptHash (script : string) : string :=
  upper (hex.EncodeToString (String.rev (sha256_Sum256 script))).

(** ** Observers *)
Inductive TXObserver :=
  | observeOpeningTX (swapID : SwapId) (txID : Hash) (scriptPubkey : string)
      (startingHeight paymentWindow : Z)
  | observeCSVTX (swapID : SwapId) (txID : Hash) (scriptPubkey : string) (csv : Z).

Definition GetSwapID (o : TXObserver) : SwapId :=
  match o with observeOpeningTX id _ _ _ _ | observeCSVTX id _ _ _ => id end.

(** The height of the first entry with the hash; a nil entry and one whose hash
    does not parse are skipped. *)
Fixpoint getHeight (hs : list (option GetMempoolResult)) (txID : Hash) : option Z :=
  match hs with
  | [] => None
  | None :: hs => getHeight hs txID
  | Some h :: hs =>
      match NewHashFromStr (GHash h) with
      | Err _ => getHeight hs txID
      | Ok hh => if bool_decide (hh = txID) then Some (GHeight h) else getHeight hs txID
      end
  end.

Definition hasConfirmations (txHeight tipHeight required : Z) : result bool :=
  if tipHeight <=? 0 then
    Err (ErrText ("invalid electrum tip height: " +:+ strconv.Itoa tipHeight))
  else if txHeight <=? 0 then Ok false
  else if tipHeight <? txHeight then
    Err (ErrText ("electrum transaction height " +:+ strconv.Itoa txHeight +:+
                  " is above tip height " +:+ strconv.Itoa tipHeight))
  else Ok (required <=? tipHeight - txHeight + 1).

Definition LiquidConfs : Z := 2.

(** [Callback] of both observers: whether the callback was called, and the error. *)
Definition Callback {S} (o : TXObserver) (currentHeight : Z) : Io S (bool * option error) :=
  match o with
  | observeOpeningTX id txID script startingHeight paymentWindow =>
      if currentHeight <=? 0 then
        mret (false, Some (ErrText ("invalid electrum tip height: " +:+
                                    strconv.Itoa currentHeight)))
      else
        let deadline := startingHeight + paymentWindow in
        if (currentHeight <? startingHeight) || (deadline <=? currentHeight) then
          e ← query (confirmationCallback (SwapId_String (Some id)) ""
                (Some (ErrText ("claim payment deadline exceeded: current height " +:+
                   strconv.Itoa currentHeight +:+ ", deadline " +:+ strconv.Itoa deadline))));
          mret (true, e)
        else
          let? hs := query (GetHistory (scriptHash script))
            else e => mret (false, Some (ErrWrap ("failed to get history: " +:+ Error e) e)) in
          match getHeight hs txID with
          | None => mret (false, None)
          | Some txHeight =>
              match hasConfirmations txHeight currentHeight LiquidConfs with
              | Err e => mret (false, Some e)
              | Ok false => mret (false, None)
              | Ok true =>
                  let? rawTx := query (GetRawTransaction (Hash_String txID))
                    else e => mret (false, None) in
                  e ← query (confirmationCallback (SwapId_String (Some id)) rawTx None);
                  mret (true, e)
              end
          end
  | observeCSVTX id txID script csv =>
      let? hs := query (GetHistory (scriptHash script))
        else e => mret (false, Some (ErrWrap ("failed to get history: " +:+ Error e) e)) in
      match getHeight hs txID with
      | None => mret (false, None)
      | Some txHeight =>
          match hasConfirmations txHeight currentHeight csv with
          | Err e => mret (false, Some e)
          | Ok false => mret (false, None)
          | Ok true =>
              e ← query (csvCallback (SwapId_String (Some id)));
              mret (true, e)
          end
      end
  end.

(** ** The subscriber *)
Definition Subscriber : Type := list TXObserver.

Definition Register (tx : TXObserver) (h : Subscriber) : Subscriber := h ++ [tx].
Definition Deregister (o : TXObserver) (h : Subscriber) : Subscriber :=
  filter (λ x, GetSwapID x ≠ GetSwapID o) h.

(** The loop of [Update] runs over the slice as it was; [Deregister] replaces the
    slice of the subscriber. *)
Fixpoint update_loop (observers : list TXObserver) (blockHeight : Z) : Io Subscriber () :=
  match observers with
  | [] => mret ()
  | observer :: rest =>
      r ← Callback observer blockHeight;
      (if fst r && match snd r with
                   | None => true
                   | Some e => errors_Is e ErrSwapDoesNotExist
                   end
       then Oracle.update (Deregister observer) else mret ());;
      update_loop rest blockHeight
  end.
Definition Update (blockHeight : Z) : Io Subscriber () :=
  observers ← look; update_loop observers blockHeight.

(** ** The watcher *)
Record electrumTxWatcher := mkElectrum {
  blockHeight : Z;
  terminalErr : option error;
  subscriber : Subscriber;
}.
#[export] Instance eta_electrum : Eta electrumTxWatcher := λ r,
  mkElectrum (blockHeight r) (terminalErr r) (subscriber r).
Definition NewElectrumTxWatcher : electrumTxWatcher := mkElectrum 0 None [].

(** [None] is a nil header. *)
Definition parseBlockHeight (blockHeader : option Z) : result Z :=
  match blockHeader with
  | None => Err (ErrText "electrum returned a nil block header")
  | Some h => if h <=? 0 then
                Err (ErrText ("electrum returned invalid block header height: " +:+
                              strconv.Itoa h))
              else Ok h
  end.

(** The state, and the height with whether it is new. *)
Definition acceptBlockHeight (blockHeader : option Z) (r : electrumTxWatcher)
    : electrumTxWatcher * result (Z * bool) :=
  match parseBlockHeight blockHeader with
  | Err e => (r, Err e)
  | Ok height =>
      match terminalErr r with
      | Some e => (r, Err e)
      | None =>
          if (0 <? blockHeight r) && (height <=? blockHeight r) then (r, Ok (height, false))
          else (r <| blockHeight := height |>, Ok (height, true))
      end
  end.

Definition fail (err : error) (r : electrumTxWatcher) : electrumTxWatcher :=
  match terminalErr r with
  | None => r <| terminalErr := Some err |>
  | Some _ => r
  end.

(** The arrival of a header in [StartWatchingTxs]; whether the loop goes on. *)
Definition on_header (blockHeader : option Z) : Io electrumTxWatcher bool :=
  r ← look;
  let '(r', res) := acceptBlockHeight blockHeader r in
  update (λ _, r');;
  match res with
  | Err e => update (fail e);; mret false
  | Ok (height, changed) =>
      if (changed : bool) then
        focus subscriber (λ s r, r <| subscriber := s |>) (Update height);; mret true
      else mret true
  end.

Definition GetBlockHeight (r : electrumTxWatcher) : result Z :=
  match terminalErr r with
  | Some e => Err (ErrWrap ("electrum transaction watcher stopped: " +:+ Error e) e)
  | None =>
      if blockHeight r <=? 0 then Err (ErrText "block height not confirmed")
      else if 2 ^ 32 - 1 <? blockHeight r then
        Err (ErrText ("block height exceeds uint32: " +:+ strconv.Itoa (blockHeight r)))
      else Ok (blockHeight r)
  end.

(** The watch of a swap, when its id, hash and script parse. *)
Definition new_observer (swapIDStr txIDStr scriptpubkey : string)
    (mk : SwapId → Hash → string → TXObserver) : option TXObserver :=
  match ParseSwapIdFromString swapIDStr, NewHashFromStr txIDStr, ParsePkScript scriptpubkey with
  | Ok swapID, Ok txID, Ok script => Some (mk swapID txID script)
  | _, _, _ => None
  end.
Definition AddWaitForConfirmationTx (swapIDStr txIDStr : string)
    (startingHeight paymentWindow : Z) (script : string) (r : electrumTxWatcher)
    : electrumTxWatcher :=
  match new_observer swapIDStr txIDStr script
          (λ id tx s, observeOpeningTX id tx s startingHeight paymentWindow) with
  | Some o => r <| subscriber := Register o (subscriber r) |>
  | None => r
  end.
Definition AddWaitForCsvTx (swapIDStr txIDStr : string) (csv : Z) (script : string)
    (r : electrumTxWatcher) : electrumTxWatcher :=
  match new_observer swapIDStr txIDStr script (λ id tx s, observeCSVTX id tx s csv) with
  | Some o => r <| subscriber := Register o (subscriber r) |>
  | None => r
  end.

(** Runs: the observers registered so far, the record of questions, the heights
    that were shown to the observers, newest first, the state, and whether the
    loop of the headers is still on. *)
Inductive electrum_run
    : list TXObserver → Trace answer → list Z → electrumTxWatcher → bool → Prop :=
  | electrum_start : electrum_run [] [] [] NewElectrumTxWatcher true
  | electrum_header regs t hs r hd t' r' go :
      electrum_run regs t hs r true → on_header hd (t, r) = Ret (t', r') go →
      electrum_run regs t' (if bool_decide (blockHeight r' = blockHeight r) then hs
                            else blockHeight r' :: hs) r' go
  | electrum_register regs t hs r go o :
      electrum_run regs t hs r go →
      electrum_run (o :: regs) t hs (r <| subscriber := Register o (subscriber r) |>) go.
End electrum.

(** ** The client (client.go)

    It holds one connection of the library, and dials again when a ping fails.  A
    connection is the number of the dial it came from.  The decision of the backoff
    library to go on is a question; a fee is what the server sent ([None] is the zero
    of an error), and a channel of headers is the connection it belongs to. *)
Module ElectrumClient.

Inductive Call :=
  | NewClientSSL (endpoint : string)
  | NewClientTCP (endpoint : string)
  | ClientPing (c : nat)
  | Shutdown (c : nat)
  | SubscribeHeadersOf (c : nat)
  | HistoryOf (c : nat) (scripthash : string)
  | RawTransactionOf (c : nat) (txHash : string)
  | BroadcastOn (c : nat) (rawTx : string)
  | FeeOf (c : nat) (target : Z)
  | NextBackOff.
Definition answer (Fee : Type) (c : Call) : Type :=
  match c with
  | NewClientSSL _ | NewClientTCP _ => result nat
  | ClientPing _ => option error
  | Shutdown _ => ()
  | SubscribeHeadersOf _ => result nat
  | HistoryOf _ _ => result (list (option GetMempoolResult))
  | RawTransactionOf _ _ => string * option error
  | BroadcastOn _ _ => result string
  | FeeOf _ _ => result Fee
  | NextBackOff => bool
  end.
#[export] Instance Call_eq_dec : EqDecision Call.
Proof. solve_decision. Defined.

Record electrumClient := mkClient { client : nat; endpoint : string; isTLS : bool }.
#[export] Instance eta_client : Eta electrumClient := λ c, mkClient (client c) (endpoint c) (isTLS c).

Section client.
Context {Fee : Type} {OR : Oracle (answer Fee)}.

Definition newClient {S} (endpoint : string) (isTLS : bool) : IO (answer Fee) S (result nat) :=
  if isTLS then query (NewClientSSL endpoint) else query (NewClientTCP endpoint).
Definition NewElectrumClient {S} (endpoint : string) (isTLS : bool)
    : IO (answer Fee) S (result electrumClient) :=
  let? ec := newClient endpoint isTLS else err => mret (Err err) in
  mret (Ok (mkClient ec endpoint isTLS)).

Abbreviation Io := (IO (answer Fee) electrumClient).
Definition connect : Io (option error) :=
  c ← look;
  let? ec := newClient (endpoint c) (isTLS c) else err => mret (Some err) in
  Oracle.update (λ c, c <| client := ec |>);; mret None.
Definition reconnect : Io (option error) :=
  c ← look;
  e ← query (ClientPing (client c));
  match e : option error with
  | Some err => connect
  | None => mret None
  end.
Definition Reboot : Io (option error) :=
  c ← look; query (Shutdown (client c));; connect.
Definition SubscribeHeaders : Io (result nat) :=
  c ← look; query (SubscribeHeadersOf (client c)).
Definition GetHistory (scripthash : string) : Io (result (list (option GetMempoolResult))) :=
  do? reconnect else err => mret (Err err) in
  c ← look; query (HistoryOf (client c) scripthash).

(** One attempt; the transaction of the last one is kept. *)
Definition raw_attempt (txHash rawTx : string) : Io (string * option error) :=
  do? reconnect else err => mret (rawTx, Some err) in
  c ← look; query (RawTransactionOf (client c) txHash).
Fixpoint retryWithBackoff (retries : nat) (operation : string → Io (string * option error))
    (rawTx : string) : Io (string * option error) :=
  '(rawTx, e) ← operation rawTx;
  match e with
  | None => mret (rawTx, None)
  | Some err =>
      if contains (Error err) "missing transaction" then
        match retries with
        | O => mret (rawTx, Some err)
        | Datatypes.S retries =>
            again ← query NextBackOff;
            if again : bool then retryWithBackoff retries operation rawTx else mret (rawTx, Some err)
        end
      else mret (rawTx, Some (ErrWrap ("permanent error: " +:+ Error err) err))
  end.
Definition maxRetries : nat := 10.
Definition GetRawTransaction (txHash : string) : Io (string * option error) :=
  retryWithBackoff maxRetries (raw_attempt txHash) "".
Definition BroadcastTransaction (rawTx : string) : Io (result string) :=
  do? reconnect else err => mret (Err err) in
  c ← look; query (BroadcastOn (client c) rawTx).
Definition GetFee (target : Z) : Io (result Fee) :=
  do? reconnect else err => mret (Err err) in
  c ← look; query (FeeOf (client c) target).
Definition Ping : Io (option error) := reconnect.

(** ** What the client guarantees *)

(** A request that expects an answer about the chain. *)
Definition request_on (q : Call) : option nat :=
  match q with
  | HistoryOf c _ | RawTransactionOf c _ | BroadcastOn c _ | FeeOf c _ => Some c
  | _ => None
  end.
(** The last question was answered by this connection, or made it. *)
Definition alive (c : nat) (pre : Trace (answer Fee)) : Prop :=
  ∃ e rest ep, pre = e :: rest ∧
    (e = event (ClientPing c) None ∨ e = event (NewClientSSL ep) (Ok c) ∨ e = event (NewClientTCP ep) (Ok c)).
(** A question of a client: a request goes over a live connection, a dial to its endpoint
    and over TLS as configured, and no connection is shut down. *)
Definition careful (k : electrumClient) (e : Event (answer Fee)) (pre : Trace (answer Fee)) : Prop :=
  match question e with
  | HistoryOf c _ | RawTransactionOf c _ | BroadcastOn c _ | FeeOf c _ => alive c pre
  | NewClientSSL ep => ep = endpoint k ∧ isTLS k = true
  | NewClientTCP ep => ep = endpoint k ∧ isTLS k = false
  | Shutdown _ => False
  | ClientPing _ | SubscribeHeadersOf _ | NextBackOff => True
  end.
Definition same_config (k k' : electrumClient) : Prop := endpoint k' = endpoint k ∧ isTLS k' = isTLS k.
Lemma careful_same k k' t t' : same_config k k' → asked_when (careful k') t t' → asked_when (careful k) t t'.
Proof.
  intros [He Ht]. apply asked_mono. intros e pre. unfold careful. by destruct (question e); rewrite ?He, ?Ht.
Qed.

(** How often the server was asked for a transaction. *)
Definition is_raw (e : Event (answer Fee)) : bool :=
  match question e with RawTransactionOf _ _ => true | _ => false end.
Definition attempts (t : list (Event (answer Fee))) : nat := length (filter (λ e, is_raw e = true) t).
Lemma attempts_other q a t : is_raw (event q a) = false → attempts (event q a :: t) = attempts t.
Proof. intros H. unfold attempts. rewrite filter_cons_False; [done|congruence]. Qed.

(** What [reconnect] leaves behind; without an error the connection is alive. *)
Definition connected t k (r : option error) '((t', k') : Trace (answer Fee) * electrumClient) : Prop :=
  same_config k k' ∧ asked_when (careful k) t t' ∧ attempts t' = attempts t ∧
  (r = None → alive (client k') t').
Lemma connect_spec t k : wp connect (connected t k) no_stop (t, k).
Proof.
  unfold connect, newClient. do 3 io_step. destruct (isTLS k) eqn:Etls; io_step.
  1: destruct (reply t (NewClientSSL (endpoint k))) as [c|e] eqn:E.
  3: destruct (reply t (NewClientTCP (endpoint k))) as [c|e] eqn:E.
  all: try do 3 io_step.
  all: (split; [done|]); (split; [constructor; [by split|constructor]|]);
    (split; [by apply attempts_other|]); intros H; try done; eexists _, _, _; (split; [done|]); auto.
Qed.
Lemma reconnect_spec t k : wp reconnect (connected t k) no_stop (t, k).
Proof.
  unfold reconnect. do 4 io_step. destruct (reply t (ClientPing (client k))) as [e|] eqn:E.
  - eapply wp_mono; [apply connect_spec| |done]. intros r [t' k'] (Hk & Ht & Hn & Hr). split; [done|].
    split; [eapply asked_trans; [|exact Ht]; by repeat constructor|]. split; [|done].
    rewrite Hn. by apply attempts_other.
  - apply wp_ret. split; [done|]. split; [by repeat constructor|]. split; [by apply attempts_other|].
    intros _. eexists _, _, "". split; [done|by left].
Qed.

(** What every operation of the client but [Reboot] leaves behind. *)
Definition served (t : Trace (answer Fee)) (k : electrumClient) {A} (_ : A)
    '((t', k') : Trace (answer Fee) * electrumClient) : Prop :=
  same_config k k' ∧ asked_when (careful k) t t'.
Lemma served_trans {A B} t k t1 k1 (a : A) (b : B) st :
  served t k a (t1, k1) → served t1 k1 b st → served t k b st.
Proof.
  destruct st as [t2 k2]. intros [[H1 H2] Ht1] [[H3 H4] Ht2]. split; [split; congruence|].
  eapply asked_trans; [exact Ht1|]. by eapply careful_same.
Qed.

(** A request that follows [reconnect]. *)
Lemma wp_on_connection {A} (m : nat → Io A) (f : error → A) (P : A → Trace (answer Fee) * electrumClient → Prop) t k :
  (∀ err t1 k1, connected t k (Some err) (t1, k1) → P (f err) (t1, k1)) →
  (∀ c t1 k1, connected t k None (t1, k1) → alive c t1 → c = client k1 → wp (m c) P no_stop (t1, k1)) →
  wp (do? reconnect else err => mret (f err) in c ← look; m (client c)) P no_stop (t, k).
Proof.
  intros Hf Hm. io_step. eapply wp_mono; [apply reconnect_spec| |done].
  intros [e|] [t1 k1] H; [apply wp_ret; by apply Hf|]. do 2 io_step. apply (Hm (client k1)); [done| |done].
  by apply H.
Qed.
Ltac one_request m f :=
  apply (wp_on_connection m f);
    [by intros err t1 k1 (? & ? & _); split|];
    intros c t1 k1 (? & ? & _) Hc ->; io_step; split; [done|]; by constructor.
Lemma GetHistory_served h t k : wp (GetHistory h) (served t k) no_stop (t, k).
Proof.
  unfold GetHistory.
  one_request (λ c, query (HistoryOf c h) : Io _) (λ err : error, Err err : result (list (option GetMempoolResult))).
Qed.
Lemma BroadcastTransaction_served tx t k : wp (BroadcastTransaction tx) (served t k) no_stop (t, k).
Proof.
  unfold BroadcastTransaction.
  one_request (λ c, query (BroadcastOn c tx) : Io _) (λ err : error, Err err : result string).
Qed.
Lemma GetFee_served n t k : wp (GetFee n) (served t k) no_stop (t, k).
Proof.
  unfold GetFee.
  one_request (λ c, query (FeeOf c n) : Io _) (λ err : error, Err err : result Fee).
Qed.

(** An attempt asks the server at most once, and without an error has its answer. *)
Definition fetched (txHash : string) (n : nat) (t : Trace (answer Fee)) (k : electrumClient)
    (r : string * option error) '((t', k') : Trace (answer Fee) * electrumClient) : Prop :=
  served t k r (t', k') ∧ (attempts t' ≤ n + attempts t)%nat ∧
  (snd r = None → ∃ c new, t' = event (RawTransactionOf c txHash) r :: new).
Lemma raw_attempt_spec tx raw t k : wp (raw_attempt tx raw) (fetched tx 1 t k) no_stop (t, k).
Proof.
  unfold raw_attempt.
  apply (wp_on_connection (λ c, query (RawTransactionOf c tx) : Io _) (λ err : error, (raw, Some err))).
  - intros err t1 k1 (Hk & Ht & Hn & _). split; [by split|]. split; [lia|done].
  - intros c t1 k1 (Hk & Ht & Hn & _) Hc ->. io_step. split; [split; [done|by constructor]|]. split.
    + unfold attempts in *. rewrite filter_cons_True by done. cbn [length]. lia.
    + intros _. by do 2 eexists.
Qed.
Lemma retry_spec n tx raw t k :
  wp (retryWithBackoff n (raw_attempt tx) raw) (fetched tx (1 + n) t k) no_stop (t, k).
Proof.
  revert raw t k. induction n as [|n IH]; intros raw t k; cbn [retryWithBackoff]; io_step;
    (eapply wp_mono; [apply raw_attempt_spec| |done]);
    intros [raw1 [e|]] [t1 k1] (Hs & Hn & Hr).
  1, 3: destruct (contains _ _).
  1, 2, 4: apply wp_ret; split; [done|split; [lia|done]].
  - do 2 io_step.
    assert (served t k (raw1, Some e) (event NextBackOff (reply t1 NextBackOff) :: t1, k1)) as Hs1
      by (destruct Hs; split; [done|by constructor]).
    assert (attempts (event NextBackOff (reply t1 NextBackOff) :: t1) = attempts t1) as Hn1
      by by apply attempts_other.
    destruct (reply t1 NextBackOff : bool).
    + eapply wp_mono; [apply IH| |done]. intros r [t2 k2] (Hs2 & Hn2 & Hr2).
      split; [by eapply served_trans|]. split; [lia|done].
    + apply wp_ret. split; [done|]. split; [lia|done].
  - apply wp_ret. split; [done|]. split; [lia|]. intros _. by apply Hr.
  - apply wp_ret. split; [done|]. split; [lia|]. intros _. by apply Hr.
Qed.

(** The requests of the interface [RPC] but [Reboot], and what each is answered with. *)
Inductive Request := RSubscribeHeaders | RGetHistory (scripthash : string) | RGetRawTransaction (txHash : string)
  | RBroadcastTransaction (rawTx : string) | RGetFee (target : Z) | RPing.
Definition Answer (r : Request) : Type :=
  match r with
  | RSubscribeHeaders => result nat
  | RGetHistory _ => result (list (option GetMempoolResult))
  | RGetRawTransaction _ => string * option error
  | RBroadcastTransaction _ => result string
  | RGetFee _ => result Fee
  | RPing => option error
  end.
Definition serve (r : Request) : Io (Answer r) :=
  match r with
  | RSubscribeHeaders => SubscribeHeaders
  | RGetHistory h => GetHistory h
  | RGetRawTransaction tx => GetRawTransaction tx
  | RBroadcastTransaction tx => BroadcastTransaction tx
  | RGetFee n => GetFee n
  | RPing => Ping
  end.
Lemma serve_served r t k : wp (serve r) (served t k) no_stop (t, k).
Proof.
  destruct r; cbn [serve].
  - unfold SubscribeHeaders. do 3 io_step. split; [done|]. by repeat constructor.
  - apply GetHistory_served.
  - eapply wp_mono; [apply retry_spec| |done]. by intros r [t' k'] [H _].
  - apply BroadcastTransaction_served.
  - apply GetFee_served.
  - eapply wp_mono; [apply reconnect_spec| |done]. by intros r [t' k'] (H1 & H2 & _).
Qed.
End client.
End ElectrumClient.

(** The client serves every request: it always returns, goes over a connection that
    answered a ping or was dialled just before, dials only its own endpoint and over TLS
    exactly as configured, and shuts no connection down.  A transaction is asked for at
    most eleven times, and is returned without an error only as the server sent it. *)
Theorem electrum_client_careful {Fee : Type} {OR : Oracle (ElectrumClient.answer Fee)}
    (r : ElectrumClient.Request) (txHash : string) (t : Trace (ElectrumClient.answer Fee))
    (k : ElectrumClient.electrumClient) :
  (∃ t' k' a, ElectrumClient.serve r (t, k) = Ret (t', k') a ∧ ElectrumClient.same_config k k' ∧
     asked_when (ElectrumClient.careful k) t t') ∧
  ∃ t' k' raw e, ElectrumClient.GetRawTransaction txHash (t, k) = Ret (t', k') (raw, e) ∧
    (ElectrumClient.attempts t' ≤ 11 + ElectrumClient.attempts t)%nat ∧
    (e = None → ∃ c, event (ElectrumClient.RawTransactionOf c txHash) (raw, None) ∈ t').
Proof.
  split.
  - destruct (wp_total _ _ _ (ElectrumClient.serve_served r t k)) as ([t' k'] & a & E & Hk & Ht).
    by exists t', k', a.
  - destruct (wp_total _ _ _ (ElectrumClient.retry_spec 10 txHash "" t k))
      as ([t' k'] & [raw e] & E & _ & Hn & Hr).
    exists t', k', raw, e. split; [exact E|]. split; [exact Hn|]. intros ->.
    destruct (Hr eq_refl) as (c & new & ->). exists c. left.
Qed.
