(* ===== verification/ElectrumProofs.v ===== *)
(** * What the Electrum watcher reports

    Observers are shown growing heights only, and report only inside the payment
    window and on enough confirmations ([electrum_reports_sound]); an observer
    stays registered until its swap took a report ([Update_exact]). *)

From Stdlib Require Import Sorted.
From S2P Require Import Prelude GoLib SwapData Service Oracle Electrum.
Import ElectrumRpc.

Section proofs.
Context {CL : ChainLib} {OR : Oracle answer}.

(** The server's history of the script shows the transaction with at least
    [required] confirmations below the tip. *)
Definition confirmed_in (t : Trace answer) (script : string) (txID : Hash) (tip required : Z)
    : Prop :=
  ∃ hs h, event (GetHistory (scriptHash script)) (Ok hs) ∈ t ∧ getHeight hs txID = Some h ∧
    0 < h ≤ tip ∧ required ≤ tip - h + 1.

Lemma hasConfirmations_true h tip required :
  hasConfirmations h tip required = Ok true → 0 < h ≤ tip ∧ required ≤ tip - h + 1.
Proof.
  unfold hasConfirmations.
  destruct (Z.leb_spec tip 0); [done|]. destruct (Z.leb_spec h 0); [done|].
  destruct (Z.ltb_spec tip h); [done|]. intros [= Hc%Z.leb_le]. lia.
Qed.

Definition report_guard (regs : list TXObserver) (tips : list Z) (e : Event answer)
    (pre : Trace answer) : Prop :=
  match question e with
  | confirmationCallback id raw None =>
      ∃ swapID txID script start window tip,
        observeOpeningTX swapID txID script start window ∈ regs ∧
        id = SwapId_String (Some swapID) ∧ tip ∈ tips ∧ start ≤ tip < start + window ∧
        confirmed_in pre script txID tip LiquidConfs ∧
        event (GetRawTransaction (Hash_String txID)) (Ok raw) ∈ pre
  | confirmationCallback id _ (Some _) =>
      ∃ swapID txID script start window tip,
        observeOpeningTX swapID txID script start window ∈ regs ∧
        id = SwapId_String (Some swapID) ∧ tip ∈ tips ∧ ¬ (start ≤ tip < start + window)
  | csvCallback id =>
      ∃ swapID txID script csv tip,
        observeCSVTX swapID txID script csv ∈ regs ∧ id = SwapId_String (Some swapID) ∧
        tip ∈ tips ∧ confirmed_in pre script txID tip csv
  | _ => True
  end.

Lemma electrum_guard_mono regs regs' tips tips' e pre :
  regs ⊆ regs' → tips ⊆ tips' → report_guard regs tips e pre → report_guard regs' tips' e pre.
Proof.
  intros Hr Ht. unfold report_guard. destruct (question e) as [| |? ? []|]; try done.
  - intros (i & x & s & a & b & tip & H1 & H2 & H3 & H4). exists i, x, s, a, b, tip. auto.
  - intros (i & x & s & a & b & tip & H1 & H2 & H3 & H4). exists i, x, s, a, b, tip. auto.
  - intros (i & x & s & a & tip & H1 & H2 & H3 & H4). exists i, x, s, a, tip. auto.
Qed.

(** ** One observer *)

Lemma Callback_reports {S} regs tips o tip t0 t (s : S) :
  o ∈ regs → tip ∈ tips → 0 < tip → asked_when (report_guard regs tips) t0 t →
  wp (Callback o tip)
    (λ _ '(t', s'), s' = s ∧ asked_when (report_guard regs tips) t0 t') no_stop (t, s).
Proof.
  intros Ho Htip Hpos Ht.
  assert (∀ q a t1, (∀ id raw err, q ≠ confirmationCallback id raw err) →
    (∀ id, q ≠ csvCallback id) → asked_when (report_guard regs tips) t0 t1 →
    asked_when (report_guard regs tips) t0 (event q a :: t1)) as Hask.
  { intros q a t1 H1 H2 H. constructor; [|done]. unfold report_guard.
    destruct q; try done; [by destruct (H1 swapId txHex err)|by destruct (H2 swapId)]. }
  unfold Callback. destruct o as [id txID script start window|id txID script csv].
  - destruct (Z.leb_spec tip 0) as [|_]; [lia|].
    destruct (Z.ltb_spec tip start); cbn [orb].
    { do 2 io_step. apply wp_ret. split; [done|]. constructor; [|done].
      exists id, txID, script, start, window, tip. split_and!; [done..|lia]. }
    destruct (Z.leb_spec (start + window) tip).
    { do 2 io_step. apply wp_ret. split; [done|]. constructor; [|done].
      exists id, txID, script, start, window, tip. split_and!; [done..|lia]. }
    do 2 io_step. destruct (reply t (GetHistory (scriptHash script))) as [hs|e] eqn:Eh;
      [|apply wp_ret; split; [done|by apply Hask]].
    destruct (getHeight hs txID) as [h|] eqn:Eg; [|apply wp_ret; split; [done|by apply Hask]].
    destruct (hasConfirmations h tip LiquidConfs) as [[]|] eqn:Ec;
      [|apply wp_ret; split; [done|by apply Hask]..].
    do 2 io_step. destruct (reply _ (GetRawTransaction _)) as [raw|e] eqn:Er;
      [|apply wp_ret; split; [done|by (apply Hask; [done..|by apply Hask])]].
    do 2 io_step. apply wp_ret. split; [done|]. constructor; [|by (apply Hask; [done..|by apply Hask])].
    exists id, txID, script, start, window, tip.
    split_and!; [done|done|done|lia|lia| |left].
    exists hs, h. split; [right; left|]. split; [done|]. by apply hasConfirmations_true.
  - do 2 io_step. destruct (reply t (GetHistory (scriptHash script))) as [hs|e] eqn:Eh;
      [|apply wp_ret; split; [done|by apply Hask]].
    destruct (getHeight hs txID) as [h|] eqn:Eg; [|apply wp_ret; split; [done|by apply Hask]].
    destruct (hasConfirmations h tip csv) as [[]|] eqn:Ec;
      [|apply wp_ret; split; [done|by apply Hask]..].
    do 2 io_step. apply wp_ret. split; [done|]. constructor; [|by apply Hask].
    exists id, txID, script, csv, tip. split_and!; try done.
    exists hs, h. split; [left|]. split; [done|]. by apply hasConfirmations_true.
Qed.

Lemma update_loop_reports regs tips tip obs t0 t h :
  (∀ o, o ∈ obs → o ∈ regs) → tip ∈ tips → 0 < tip → h ⊆ regs →
  asked_when (report_guard regs tips) t0 t →
  wp (update_loop obs tip)
    (λ _ '(t', h'), h' ⊆ regs ∧ asked_when (report_guard regs tips) t0 t') no_stop (t, h).
Proof.
  revert t h. induction obs as [|o obs IH]; intros t h Hobs Htip Hpos Hh Ht; cbn [update_loop];
    [by apply wp_ret|].
  io_step. eapply wp_mono; [apply (Callback_reports regs tips o tip t0)| |done];
    [apply Hobs; left|done..|].
  intros r [t1 h1] (-> & Ht1). io_step.
  assert (∀ h', h' ⊆ regs → wp (update_loop obs tip)
    (λ _ '(t', h'), h' ⊆ regs ∧ asked_when (report_guard regs tips) t0 t') no_stop (t1, h'))
    as Hnext by (intros; apply IH; try done; intros; apply Hobs; by right).
  destruct (_ && _); io_step; apply Hnext; [|done].
  intros x [_ Hx]%list_elem_of_filter. by apply Hh.
Qed.

(** ** Runs *)

Record electrum_ok (regs : list TXObserver) (t : Trace answer) (tips : list Z)
    (r : electrumTxWatcher) : Prop := {
  eok_subscriber : subscriber r ⊆ regs;
  eok_tips : StronglySorted Z.gt tips;
  eok_positive : Forall (λ h, 0 < h) tips;
  eok_height : blockHeight r = default 0 (head tips);
  eok_reports : asked_when (report_guard regs tips) [] t;
}.

Lemma blockHeight_focus (m : IO answer Subscriber ()) P R t r :
  wp m (λ x '(t', s), P x (t', r <| subscriber := s |>)) (λ _ _, False) (t, subscriber r) →
  wp (focus subscriber (λ s r, r <| subscriber := s |>) m) P R (t, r).
Proof. intros H. io_step. eapply wp_mono; [exact H|done|by intros ? []]. Qed.

Lemma on_header_ok regs t tips r hd :
  electrum_ok regs t tips r →
  wp (on_header hd)
    (λ _ '(t', r'), electrum_ok regs t' (if bool_decide (blockHeight r' = blockHeight r) then tips
                                         else blockHeight r' :: tips) r') no_stop (t, r).
Proof.
  intros H. pose proof H as [H1 H2 H3 H4 H5]. unfold on_header. do 2 io_step.
  unfold acceptBlockHeight, parseBlockHeight.
  assert (∀ e, electrum_ok regs t (if bool_decide (blockHeight (fail e r) = blockHeight r)
    then tips else blockHeight (fail e r) :: tips) (fail e r)) as Hfail.
  { intros e. unfold fail. destruct (terminalErr r); rewrite bool_decide_true by done; [done|].
    by split. }
  destruct hd as [h|]; [|do 4 io_step; apply Hfail].
  destruct (Z.leb_spec h 0); [do 4 io_step; apply Hfail|].
  destruct (terminalErr r) eqn:Et; [do 4 io_step; apply Hfail|].
  assert (blockHeight r < h → wp (focus subscriber (λ s r, r <| subscriber := s |>) (Update h);;
      mret true) (λ _ '(t', r'), electrum_ok regs t' (if bool_decide (blockHeight r' = blockHeight r)
        then tips else blockHeight r' :: tips) r') no_stop (t, r <| blockHeight := h |>)) as Hnew.
  { intros Hlt. io_step. apply blockHeight_focus. unfold Update. do 2 io_step.
    assert (tips ⊆ h :: tips) as Hsub by (by apply list_subseteq_cons).
    eapply wp_mono; [apply (update_loop_reports regs (h :: tips) h _ []);
      [exact H1|left|done|exact H1|]| |done].
    { eapply asked_mono; [|exact H5]. intros. eapply electrum_guard_mono; [reflexivity|exact Hsub|done]. }
    intros _ [t1 s1] [Hs1 Ht1]. io_step. rewrite bool_decide_false by (cbn; lia).
    split; cbn; try done; constructor; try done.
    destruct tips as [|x tips]; [constructor|]. rewrite H4 in Hlt. cbn in Hlt.
    inversion H2; subst. constructor; [lia|].
    eapply Forall_impl; [eassumption|]. cbn. lia. }
  destruct (Z.ltb_spec 0 (blockHeight r)) as [Hpos|Hpos]; cbn [andb].
  - destruct (Z.leb_spec h (blockHeight r)).
    + do 3 io_step. by rewrite bool_decide_true by done.
    + do 2 io_step. apply Hnew. lia.
  - do 2 io_step. apply Hnew. lia.
Qed.

Lemma electrum_run_ok regs t tips r go : electrum_run regs t tips r go → electrum_ok regs t tips r.
Proof.
  induction 1 as [|regs t tips r hd t' r' go _ IH Hm|regs t tips r go o _ [H1 H2 H3 H4 H5]].
  - split; cbn; done || constructor.
  - exact (wp_elim _ _ _ _ _ _ (on_header_ok _ _ _ _ hd IH) Hm).
  - split; try done; cbn.
    + intros x [Hx|Hx%list_elem_of_singleton]%elem_of_app; [right; by apply H1|subst; left].
    + eapply asked_mono; [|exact H5]. intros. eapply electrum_guard_mono; [|done..].
      by apply list_subseteq_cons.
Qed.

(** ** Which observers stay *)
Definition report_of (e : Event answer) : option (string * option error) :=
  match e with
  | existT (confirmationCallback id _ _) a => Some (id, a)
  | existT (csvCallback id) a => Some (id, a)
  | _ => None
  end.
Definition accepted_report (a : option error) : bool :=
  match a with None => true | Some e => errors_Is e ErrSwapDoesNotExist end.
(** The swap took a report, or does not exist any more. *)
Definition took (new : Trace answer) (id : SwapId) : bool :=
  existsb (λ e, match report_of e with
                | Some (i, a) => bool_decide (i = SwapId_String (Some id)) && accepted_report a
                | None => false
                end) new.

#[local] Arguments SwapId_String : simpl never.

Lemma took_app new new' id : took (new ++ new') id = took new id || took new' id.
Proof. apply existsb_app. Qed.

Lemma SwapId_String_decide a b :
  bool_decide (SwapId_String (Some a) = SwapId_String (Some b)) = bool_decide (b = a).
Proof.
  apply bool_decide_ext. split; [|by intros ->]. intros H. symmetry. by apply hex.encode_inj.
Qed.

(** A leaf of a [Callback] whose questions since the start are [l]. *)
Tactic Notation "leaf" hyp(H) uconstr(l) :=
  eapply (H _ l); [|reflexivity]; intros; cbn;
  rewrite ?SwapId_String_decide, ?orb_false_r, ?andb_false_r; reflexivity.

Lemma Callback_took {S} o tip t (s : S) :
  wp (Callback o tip)
    (λ r '(t', s'), s' = s ∧ ∃ new, t' = new ++ t ∧
       ∀ id, took new id = bool_decide (id = GetSwapID o) &&
               (fst r && accepted_report (snd r))) no_stop (t, s).
Proof.
  assert (∀ r new t', (∀ id, took new id = bool_decide (id = GetSwapID o) &&
      (fst r && accepted_report (snd r))) → t' = new ++ t →
    wp (mret r) (λ r '(t', s'), s' = s ∧ ∃ new, t' = new ++ t ∧
       ∀ id, took new id = bool_decide (id = GetSwapID o) &&
               (fst r && accepted_report (snd r))) no_stop (t', s)) as Hret.
  { intros. apply wp_ret. eauto. }
  unfold Callback. destruct o as [i txID script start window|i txID script csv];
    cbn [GetSwapID] in *.
  - destruct (_ <=? 0); [leaf Hret []|].
    destruct (_ || _); [do 2 io_step; leaf Hret [_]|].
    do 2 io_step. destruct (reply t _) as [hs|]; [|leaf Hret [_]].
    destruct (getHeight hs txID); [|leaf Hret [_]].
    destruct (hasConfirmations _ _ _) as [[]|]; [|leaf Hret [_]..].
    do 2 io_step. destruct (reply _ (GetRawTransaction _)) as [raw|]; [|leaf Hret [_; _]].
    do 2 io_step. leaf Hret [_; _; _].
  - do 2 io_step. destruct (reply t _) as [hs|]; [|leaf Hret [_]].
    destruct (getHeight hs txID); [|leaf Hret [_]].
    destruct (hasConfirmations _ _ _) as [[]|]; [|leaf Hret [_]..].
    do 2 io_step. leaf Hret [_; _].
Qed.

(** The loop leaves exactly the observers whose swap took no report. *)
Lemma update_loop_exact obs tip t h :
  wp (update_loop obs tip)
    (λ _ '(t', h'), ∃ new, t' = new ++ t ∧
       h' = filter (λ o, ¬ (took new (GetSwapID o) : bool)) h) no_stop (t, h).
Proof.
  revert t h. induction obs as [|o obs IH]; intros t h; cbn [update_loop].
  { apply wp_ret. exists []. split; [done|]. symmetry. apply list_filter_true. by intros ? ? []. }
  io_step. eapply wp_mono; [apply Callback_took| |done].
  intros [called err] [t1 h1] (-> & new & -> & Hnew). io_step. cbn [fst snd] in *.
  fold (accepted_report err).
  assert (∀ h', filter (λ x, ¬ (took new (GetSwapID x) : bool)) h = h' →
    wp (update_loop obs tip) (λ _ '(t', h'), ∃ new0, t' = new0 ++ t ∧
       h' = filter (λ o, ¬ (took new0 (GetSwapID o) : bool)) h) no_stop (new ++ t, h')) as Hnext.
  { intros h' <-. eapply wp_mono; [apply IH| |done].
    intros _ [t' h'] (new' & -> & ->). exists (new' ++ new). rewrite app_assoc. split; [done|].
    etrans; [eapply list_filter_filter|]. eapply list_filter_iff. intros x. rewrite took_app.
    destruct (took new' _), (took new _); cbn; tauto. }
  destruct (called && accepted_report err); io_step; apply Hnext.
  - eapply list_filter_iff. intros x. rewrite Hnew, andb_true_r. by rewrite bool_decide_spec.
  - eapply list_filter_true. intros x _. rewrite Hnew, andb_false_r. by intros [].
Qed.

(** [Update] always finishes, and keeps exactly the observers whose swap was
    given no report that it took during the pass: an observer that was not called
    back, or whose callback failed with another error than a missing swap, is
    kept and asked again at the next height.  With two observers of one swap, a
    report of either removes both. *)
Theorem Update_exact (tip : Z) (t : Trace answer) (h : Subscriber) :
  ∃ new, Update tip (t, h) =
    Ret (new ++ t, filter (λ o, ¬ (took new (GetSwapID o) : bool)) h) ().
Proof.
  destruct (wp_total _ _ _ (update_loop_exact h tip t h)) as ([t' h'] & [] & E & new & -> & ->).
  exists new. exact E.
Qed.

(** In every run of the Electrum watcher the heights shown to the observers are
    positive and strictly increasing, and every report is backed by a registered
    observer and one of these heights: a confirmed opening transaction is
    reported only inside the payment window, with two confirmations and the raw
    transaction of the server; a missed deadline only outside the window; a
    passed time lock only when the transaction has the confirmations of the
    observer. *)
Theorem electrum_reports_sound (regs : list TXObserver) (t : Trace answer) (tips : list Z)
    (r : electrumTxWatcher) (go : bool) :
  electrum_run regs t tips r go →
  StronglySorted Z.gt tips ∧ Forall (λ h, 0 < h) tips ∧ blockHeight r = default 0 (head tips) ∧
  (∀ id raw a, event (confirmationCallback id raw None) a ∈ t →
     ∃ swapID txID script start window tip,
       observeOpeningTX swapID txID script start window ∈ regs ∧
       id = SwapId_String (Some swapID) ∧ tip ∈ tips ∧ start ≤ tip < start + window ∧
       confirmed_in t script txID tip LiquidConfs ∧
       event (GetRawTransaction (Hash_String txID)) (Ok raw) ∈ t) ∧
  (∀ id raw e a, event (confirmationCallback id raw (Some e)) a ∈ t →
     ∃ swapID txID script start window tip,
       observeOpeningTX swapID txID script start window ∈ regs ∧
       id = SwapId_String (Some swapID) ∧ tip ∈ tips ∧ ¬ (start ≤ tip < start + window)) ∧
  (∀ id a, event (csvCallback id) a ∈ t →
     ∃ swapID txID script csv tip,
       observeCSVTX swapID txID script csv ∈ regs ∧ id = SwapId_String (Some swapID) ∧
       tip ∈ tips ∧ confirmed_in t script txID tip csv).
Proof.
  intros [_ H2 H3 H4 H5]%electrum_run_ok.
  assert (∀ pre script x tip n, suffix pre t → confirmed_in pre script x tip n →
    confirmed_in t script x tip n) as Hmono.
  { intros pre script x tip n Hs (hs & h & He & Hh). exists hs, h. split; [|done].
    by eapply elem_of_suffix. }
  split_and!; try done.
  - intros id raw a Hin. destruct (asked_elem _ _ _ H5 Hin) as (pre & Hg & Hs).
    destruct Hg as (i & x & s & st & w & tip & G1 & G2 & G3 & G4 & G5 & G6).
    exists i, x, s, st, w, tip. split_and!; try done; [lia|lia|by eapply Hmono|].
    by eapply elem_of_suffix.
  - intros id raw e a Hin. by destruct (asked_elem _ _ _ H5 Hin) as (pre & Hg & Hs).
  - intros id a Hin. destruct (asked_elem _ _ _ H5 Hin) as (pre & Hg & Hs).
    destruct Hg as (i & x & s & csv & tip & G1 & G2 & G3 & G4).
    exists i, x, s, csv, tip. split_and!; try done. by eapply Hmono.
Qed.
End proofs.
