(* ===== verification/LndWatcher.v ===== *)
(** * The watcher of an LND node (src/lnd/txwatcher.go)

    A watch is a subscription of the node: a goroutine reads its stream and hands
    one confirmation, or an error, to a second goroutine, which reports and ends.
    [recv_conf] and [recv_block] are what an item of a stream makes of a watch,
    in any order of the watches ([lnd_run]).  A stream that ends with io.EOF ends
    the reader only: the second goroutine waits for ever ([Lost]). *)

From S2P Require Import Prelude GoLib Env Oracle.

Definition BitcoinCsvSafetyLimit : Z := BitcoinCsv / 2.

Module LndRpc.

Inductive Call (TxHash : Type) :=
  | RegisterConfirmationsNtfn (txid : TxHash) (script : string) (numConfs heightHint : Z)
  | RegisterBlockEpochNtfn (height : Z)
  | GetInfo
  | confirmationCallback (swapId txHex : string) (err : option error)
  | csvPassedCallback (swapId : string).
#[global] Arguments RegisterConfirmationsNtfn {TxHash}.
#[global] Arguments RegisterBlockEpochNtfn {TxHash}.
#[global] Arguments GetInfo {TxHash}.
#[global] Arguments confirmationCallback {TxHash}.
#[global] Arguments csvPassedCallback {TxHash}.

(** A subscription is its error or its stream; [GetInfo] gives the best height. *)
Definition answer {TxHash} (c : Call TxHash) : Type :=
  match c with
  | RegisterConfirmationsNtfn _ _ _ _ | RegisterBlockEpochNtfn _ => option error
  | GetInfo => result Z
  | confirmationCallback _ _ _ | csvPassedCallback _ => option error
  end.

#[export] Instance LCall_eq_dec `{EqDecision TxHash} : EqDecision (Call TxHash).
Proof. solve_decision. Defined.

(** What [stream.Recv] of the confirmations returns. *)
Inductive ConfEvent :=
  | ConfEvent_Conf (rawTx : string) (blockHeight : Z)
  | ConfEvent_Reorg
  | ConfEvent_Other
  | ConfEvent_EOF
  | ConfEvent_Err (err : error).
End LndRpc.
Import LndRpc.

(** The two kinds of watch; a CSV watch that has its confirmation follows the
    blocks; [Lost] waits for a channel nobody sends to. *)
Inductive Watch :=
  | ConfWatch (swapId : string)
  | CsvWatch (swapId : string)
  | CsvBlocks (swapId : string) (confHeight : Z)
  | Lost (swapId : string).

Record TxWatcher := mkLnd {
  targetConfs : Z;
  targetCsv : Z;
  has_confirmationCallback : bool;
  has_csvPassedCallback : bool;
  confirmationWatchers : gset string;
  waitForCsvWatchers : gset string;
  watches : list Watch;
}.
#[export] Instance eta_lnd : Eta TxWatcher := λ t,
  mkLnd (targetConfs t) (targetCsv t) (has_confirmationCallback t) (has_csvPassedCallback t)
    (confirmationWatchers t) (waitForCsvWatchers t) (watches t).
Definition NewTxWatcher (targetConfirmation targetCsv : Z) : TxWatcher :=
  mkLnd targetConfirmation targetCsv false false ∅ ∅ [].
Definition AddConfirmationCallback (t : TxWatcher) : TxWatcher :=
  t <| has_confirmationCallback := true |>.
Definition AddCsvCallback (t : TxWatcher) : TxWatcher := t <| has_csvPassedCallback := true |>.

Section lnd.
Context {CL : ChainLib} {OR : Oracle (answer (TxHash:=Hash))}.
Abbreviation Io := (IO (answer (TxHash:=Hash)) TxWatcher).

Definition addTxWatcher (txId : string) (numConfs heightHint : Z) (script : string)
    : Io (option error) :=
  match NewHashFromStr txId with
  | Err e => mret (Some e)
  | Ok txIdHash => query (RegisterConfirmationsNtfn txIdHash script numConfs heightHint)
  end.

Definition start_watch (w : Watch) (t : TxWatcher) : TxWatcher :=
  t <| watches := watches t ++ [w] |>.

Definition AddWaitForConfirmationTx (swapId txId : string) (heightHint : Z) (script : string)
    : Io () :=
  t ← look;
  if bool_decide (swapId ∈ confirmationWatchers t) then mret ()
  else
    update (λ t, t <| confirmationWatchers := {[ swapId ]} ∪ confirmationWatchers t |>);;
    do? addTxWatcher txId (targetConfs t) heightHint script else e => mret () in
    update (start_watch (ConfWatch swapId)).

(** The mark goes into [confirmationWatchers], as it does in the code. *)
Definition AddWaitForCsvTx (swapId txId : string) (heightHint : Z) (script : string) : Io () :=
  t ← look;
  if bool_decide (swapId ∈ waitForCsvWatchers t) then mret ()
  else
    update (λ t, t <| confirmationWatchers := {[ swapId ]} ∪ confirmationWatchers t |>);;
    do? addTxWatcher txId 144 heightHint script else e => mret () in
    update (start_watch (CsvWatch swapId)).

Definition GetBlockHeight : Io (result Z) := query GetInfo.

(** The deferred deletions of the two goroutines. *)
Definition end_conf (swapId : string) (t : TxWatcher) : TxWatcher :=
  t <| confirmationWatchers := confirmationWatchers t ∖ {[ swapId ]} |>.
Definition end_csv (swapId : string) (t : TxWatcher) : TxWatcher :=
  t <| waitForCsvWatchers := waitForCsvWatchers t ∖ {[ swapId ]} |>.

(** The body of [case conf := <-confChan] of a confirmation watch; calling a nil
    [csvPassedCallback] panics. *)
Definition on_conf (swapId rawTx : string) (blockHeight : Z) : Io () :=
  let? currentHeight := GetBlockHeight else e => mret () in
  let confs := u32 (currentHeight - blockHeight + 1) in
  t ← look;
  if BitcoinCsvSafetyLimit <=? confs then
    if has_csvPassedCallback t then query (csvPassedCallback swapId);; mret () else panic
  else if has_confirmationCallback t then
    query (confirmationCallback swapId (hex.EncodeToString rawTx) None);; mret ()
  else mret ().

(** What an item of the confirmation stream makes of the watch; [None]: it has ended. *)
Definition recv_conf (w : Watch) (ev : ConfEvent) : Io (option Watch) :=
  match w, ev with
  | ConfWatch swapId, ConfEvent_EOF | CsvWatch swapId, ConfEvent_EOF =>
      mret (Some (Lost swapId))
  | ConfWatch _, ConfEvent_Reorg | CsvWatch _, ConfEvent_Reorg => mret (Some w)
  | ConfWatch swapId, ConfEvent_Conf rawTx blockHeight =>
      on_conf swapId rawTx blockHeight;; update (end_conf swapId);; mret None
  | ConfWatch swapId, _ => update (end_conf swapId);; mret None
  | CsvWatch swapId, ConfEvent_Conf rawTx blockHeight =>
      do? query (RegisterBlockEpochNtfn blockHeight)
        else e => (update (end_csv swapId);; mret None) in
      mret (Some (CsvBlocks swapId blockHeight))
  | CsvWatch swapId, _ => update (end_csv swapId);; mret None
  | _, _ => mret (Some w)
  end.

(** An item of the block stream: a height, or the end or an error of the stream. *)
Definition recv_block (w : Watch) (be : option Z) : Io (option Watch) :=
  match w, be with
  | CsvBlocks swapId _, None => update (end_csv swapId);; mret None
  | CsvBlocks swapId confHeight, Some height =>
      if BitcoinCsv <=? u32 (height - confHeight + 1) then
        t ← look;
        (if has_csvPassedCallback t then query (csvPassedCallback swapId);; mret () else mret ());;
        update (end_csv swapId);; mret None
      else mret (Some w)
  | _, _ => mret (Some w)
  end.

(** Replace or drop the watch at an index. *)
Definition put_watch (i : nat) (w : option Watch) (t : TxWatcher) : TxWatcher :=
  t <| watches := match w with
                  | Some w => <[i := w]> (watches t)
                  | None => delete i (watches t)
                  end |>.

Definition deliver_conf (i : nat) (ev : ConfEvent) : Io () :=
  t ← look;
  match watches t !! i with
  | Some w => w' ← recv_conf w ev; update (put_watch i w')
  | None => mret ()
  end.
Definition deliver_block (i : nat) (be : option Z) : Io () :=
  t ← look;
  match watches t !! i with
  | Some w => w' ← recv_block w be; update (put_watch i w')
  | None => mret ()
  end.

(** Runs, with the registrations that were asked for and the items that were
    delivered, each with the watch it was for. *)
Inductive Registration :=
  | wait_conf (swapId txId : string) (heightHint : Z) (script : string)
  | wait_csv (swapId txId : string) (heightHint : Z) (script : string).
Inductive Item :=
  | got_conf (w : option Watch) (ev : ConfEvent)
  | got_block (w : option Watch) (be : option Z).

Definition register (g : Registration) : Io () :=
  match g with
  | wait_conf id tx hint script => AddWaitForConfirmationTx id tx hint script
  | wait_csv id tx hint script => AddWaitForCsvTx id tx hint script
  end.
Definition deliver_at (i : nat) (ev : ConfEvent + option Z) : Io () :=
  match ev with inl ev => deliver_conf i ev | inr be => deliver_block i be end.
Definition item_at (i : nat) (ev : ConfEvent + option Z) (w : TxWatcher) : Item :=
  match ev with
  | inl ev => got_conf (watches w !! i) ev
  | inr be => got_block (watches w !! i) be
  end.

(** What has happened so far, and the state. *)
Record LndRun := mkRun {
  regs : list Registration;
  items : list Item;
  asked : Trace (answer (TxHash:=Hash));
  node : TxWatcher;
}.
Inductive lnd_step : LndRun → LndRun → Prop :=
  | lnd_conf_callback r l t w :
      lnd_step (mkRun r l t w) (mkRun r l t (AddConfirmationCallback w))
  | lnd_csv_callback r l t w : lnd_step (mkRun r l t w) (mkRun r l t (AddCsvCallback w))
  | lnd_register r l t w g t' w' :
      register g (t, w) = Ret (t', w') () → lnd_step (mkRun r l t w) (mkRun (g :: r) l t' w')
  | lnd_item r l t w i ev t' w' :
      deliver_at i ev (t, w) = Ret (t', w') () →
      lnd_step (mkRun r l t w) (mkRun r (item_at i ev w :: l) t' w').
Definition lnd_run (confs csv : Z) (s : LndRun) : Prop :=
  rtc lnd_step (mkRun [] [] [] (NewTxWatcher confs csv)) s.
End lnd.
