(* ===== verification/LndProofs.v ===== *)
(** * What the watcher of an LND node reports

    Reports are backed by what the node delivered ([lnd_reports_sound]); a swap
    has one confirmation watch at a time.  The marks do more than that: a swap
    that is marked without a watch is never reported again
    ([marked_swap_stays_unwatched]), and a confirmation that comes too late is
    told to the swap as a passed time lock, which the taker's machine ignores
    ([late_confirmation_strands_taker]). *)

From S2P Require Import Prelude GoLib Messages Premium Policy SwapData Timelock Env Store.
From S2P Require Import Actions ActionProofs Fsm FsmProofs Service Oracle LndWatcher.
Import LndRpc.

Section proofs.
Context {CL : ChainLib} {OR : Oracle (answer (TxHash:=Hash))}.
Abbreviation T := (Trace (answer (TxHash:=Hash))).

(** The node accepted a subscription for a watch that was asked for. *)
Definition subscribed (mk : string → string → Z → string → Registration) (numConfs : Z)
    (r : list Registration) (t : T) (swapId : string) : Prop :=
  ∃ txId hash hint script, mk swapId txId hint script ∈ r ∧ NewHashFromStr txId = Ok hash ∧
    event (RegisterConfirmationsNtfn hash script numConfs hint) None ∈ t.

Definition report_guard (l : list Item) (e : Event (answer (TxHash:=Hash))) (pre : T) : Prop :=
  match question e with
  | confirmationCallback id txHex err => err = None ∧ ∃ raw h c,
      got_conf (Some (ConfWatch id)) (ConfEvent_Conf raw h) ∈ l ∧ txHex = hex.EncodeToString raw ∧
      event GetInfo (Ok c) ∈ pre ∧ u32 (c - h + 1) < BitcoinCsvSafetyLimit
  | csvPassedCallback id =>
      (∃ raw h c, got_conf (Some (ConfWatch id)) (ConfEvent_Conf raw h) ∈ l ∧
         event GetInfo (Ok c) ∈ pre ∧ BitcoinCsvSafetyLimit ≤ u32 (c - h + 1)) ∨
      (∃ h bh, got_block (Some (CsvBlocks id h)) (Some bh) ∈ l ∧ BitcoinCsv ≤ u32 (bh - h + 1))
  | _ => True
  end.

Lemma lnd_guard_mono l l' e pre : l ⊆ l' → report_guard l e pre → report_guard l' e pre.
Proof.
  intros Hl. unfold report_guard. destruct (question e) as [| | |? ? ?|?]; try done.
  - intros (? & raw & h & c & H1 & H2). split; [done|]. exists raw, h, c. auto.
  - intros [(raw & h & c & H1 & H2)|(h & bh & H1 & H2)]; [left|right]; [exists raw, h, c|exists h, bh];
      auto.
Qed.

(** ** The state *)
Definition conf_id (w : Watch) : option string :=
  match w with ConfWatch s => Some s | _ => None end.

Definition watch_ok (confs : Z) (s : LndRun) (w : Watch) : Prop :=
  match w with
  | ConfWatch id => id ∈ confirmationWatchers (node s) ∧ subscribed wait_conf confs (regs s) (asked s) id
  | CsvWatch id => subscribed wait_csv 144 (regs s) (asked s) id
  | CsvBlocks id h => subscribed wait_csv 144 (regs s) (asked s) id ∧
      ∃ raw, got_conf (Some (CsvWatch id)) (ConfEvent_Conf raw h) ∈ items s
  | Lost _ => True
  end.

Record lnd_ok (confs : Z) (s : LndRun) : Prop := {
  lok_confs : targetConfs (node s) = confs;
  lok_watches : Forall (watch_ok confs s) (watches (node s));
  lok_unique : NoDup (omap conf_id (watches (node s)));
  lok_csv : waitForCsvWatchers (node s) = ∅;
  lok_reports : asked_when (report_guard (items s)) [] (asked s);
}.

Lemma subscribed_mono mk n r r' t t' id :
  r ⊆ r' → suffix t t' → subscribed mk n r t id → subscribed mk n r' t' id.
Proof.
  intros Hr Ht (tx & hash & hint & sc & H1 & H2 & H3). exists tx, hash, hint, sc.
  split; [auto|]. split; [done|]. by eapply elem_of_suffix.
Qed.

(** A watch stays valid when more happens and its mark is kept. *)
Lemma watch_ok_mono confs s s' w :
  regs s ⊆ regs s' → items s ⊆ items s' → suffix (asked s) (asked s') →
  (∀ id, w = ConfWatch id → id ∈ confirmationWatchers (node s) →
         id ∈ confirmationWatchers (node s')) →
  watch_ok confs s w → watch_ok confs s' w.
Proof.
  intros Hr Hl Ht Hm. destruct w as [id|id|id h|id]; cbn; try done.
  - intros [H1 H2]. split; [by apply Hm|by eapply subscribed_mono].
  - by apply subscribed_mono.
  - intros [H1 [raw H2]]. split; [by eapply subscribed_mono|]. exists raw. auto.
Qed.

Lemma lookup_split {X} (l : list X) i x : l !! i = Some x →
  ∃ l1 l2, l = l1 ++ x :: l2 ∧ delete i l = l1 ++ l2 ∧ ∀ y, <[i := y]> l = l1 ++ y :: l2.
Proof.
  intros H. destruct (list_elem_of_split_length l i x H) as (l1 & l2 & -> & ->).
  exists l1, l2. split; [done|]. split; [by rewrite delete_middle|]. intros y.
  by rewrite insert_app_r_alt, Nat.sub_diag by done.
Qed.

(** Replacing the watch at [i], when its mark is dropped at most with the watch. *)
Lemma put_ok confs r l l' t t' w w1 i x o :
  lnd_ok confs (mkRun r l t w) → watches w !! i = Some x →
  l ⊆ l' → suffix t t' → asked_when (report_guard l') [] t' →
  watches w1 = watches w → targetConfs w1 = targetConfs w → waitForCsvWatchers w1 = ∅ →
  (∀ id, id ∈ confirmationWatchers w →
     id ∈ confirmationWatchers w1 ∨ (conf_id x = Some id ∧ o = None)) →
  (∀ y, o = Some y → watch_ok confs (mkRun r l' t' w1) y ∧
                     (conf_id y = None ∨ conf_id y = conf_id x)) →
  lnd_ok confs (mkRun r l' t' (put_watch i o w1)).
Proof.
  intros [H1 H2 H3 H4 H5] Hx Hl Ht Hrep Hw Hc Hcsv Hmark Ho. cbn in *.
  destruct (lookup_split _ _ _ Hx) as (l1 & l2 & E & Ed & Ei).
  assert (∀ y, y ∈ l1 ++ l2 → watch_ok confs (mkRun r l' t' w1) y) as Hrest.
  { intros y Hy. eapply (watch_ok_mono confs (mkRun r l t w)); try done.
    - intros id -> Hid. destruct (Hmark id Hid) as [|[Hx' _]]; [done|]. exfalso.
      rewrite E, omap_app in H3. cbn in H3. rewrite Hx' in H3.
      rewrite <- Permutation_middle, NoDup_cons in H3. apply (proj1 H3).
      apply elem_of_app in Hy as [Hy|Hy]; apply elem_of_app; [left|right];
        apply list_elem_of_omap; eauto.
    - rewrite Forall_forall in H2. apply H2. rewrite E.
      apply elem_of_app in Hy as [Hy|Hy]; apply elem_of_app; [by left|right; by right]. }
  split; cbn; try done; [congruence| |].
  - rewrite Hw. apply Forall_forall. intros y Hy. destruct o as [o|].
    + rewrite Ei in Hy. apply elem_of_app in Hy as [Hy|[->|Hy]%elem_of_cons].
      * apply Hrest, elem_of_app. by left.
      * by apply Ho.
      * apply Hrest, elem_of_app. by right.
    + rewrite Ed in Hy. by apply Hrest.
  - rewrite Hw. rewrite E, omap_app in H3. cbn in H3. destruct o as [o|].
    + rewrite Ei, omap_app. cbn. destruct (Ho o eq_refl) as [_ [->| ->]]; [|done].
      destruct (conf_id x); [|done]. rewrite <- Permutation_middle, NoDup_cons in H3. apply H3.
    + rewrite Ed, omap_app. destruct (conf_id x); [|done].
      rewrite <- Permutation_middle, NoDup_cons in H3. apply H3.
Qed.

(** ** The operations *)

(** Asking for a confirmation changes nothing else. *)
Lemma on_conf_ok l id raw h t0 t w :
  got_conf (Some (ConfWatch id)) (ConfEvent_Conf raw h) ∈ l →
  asked_when (report_guard l) t0 t →
  wp (on_conf id raw h) (λ _ '(t', w'), w' = w ∧ asked_when (report_guard l) t0 t') any_stop (t, w).
Proof.
  intros Hl Ht. unfold on_conf, GetBlockHeight. do 2 io_step.
  destruct (reply t GetInfo) as [c|e] eqn:Ec; [|apply wp_ret; split; [done|by constructor]].
  do 2 io_step. destruct (Z.leb_spec BitcoinCsvSafetyLimit (u32 (c - h + 1))) as [Hlim|Hlim].
  - destruct (has_csvPassedCallback w); [|done]. do 3 io_step. split; [done|].
    constructor; [|by constructor]. left. exists raw, h, c. split; [done|]. split; [left|done].
  - destruct (has_confirmationCallback w); [|apply wp_ret; split; [done|by constructor]].
    do 3 io_step. split; [done|]. constructor; [|by constructor]. split; [done|].
    exists raw, h, c. split; [done|]. split; [done|]. split; [left|done].
Qed.

(** An item for the watch [x] at [i]; [l'] records it. *)
Section item.
Variables (confs : Z) (r : list Registration) (l l' : list Item) (t : T) (w : TxWatcher).
Variables (i : nat) (x : Watch).
Hypothesis Hok : lnd_ok confs (mkRun r l t w).
Hypothesis Hl : l ⊆ l'.
Hypothesis Hx : watches w !! i = Some x.

Lemma reports_at : asked_when (report_guard l') [] t.
Proof. eapply asked_mono; [|apply Hok]. intros. by eapply lnd_guard_mono. Qed.

Lemma ok_at : lnd_ok confs (mkRun r l' t w).
Proof.
  destruct Hok as [H1 H2 H3 H4 H5]. split; try done; [|apply reports_at].
  eapply Forall_impl; [exact H2|]. intros y. by apply watch_ok_mono.
Qed.

Lemma watch_at t' : suffix t t' → watch_ok confs (mkRun r l' t' w) x.
Proof.
  intros Ht. eapply (watch_ok_mono confs (mkRun r l' t w)); try done.
  destruct ok_at as [_ H _ _ _]. rewrite Forall_forall in H. apply H.
  by eapply list_elem_of_lookup_2.
Qed.

Lemma item_ends t' w1 :
  asked_when (report_guard l') t t' → watches w1 = watches w → targetConfs w1 = targetConfs w →
  waitForCsvWatchers w1 = ∅ →
  (∀ id, id ∈ confirmationWatchers w → id ∈ confirmationWatchers w1 ∨ conf_id x = Some id) →
  lnd_ok confs (mkRun r l' t' (put_watch i None w1)).
Proof.
  intros Ht' Hw Hc Hcsv Hm. eapply (put_ok _ _ l l' t t' w w1 i x None); try done.
  - by eapply asked_suffix.
  - eapply asked_trans; [apply reports_at|done].
  - intros id Hid. destruct (Hm id Hid); auto.
Qed.

Lemma item_ends_conf id t' :
  conf_id x = Some id → asked_when (report_guard l') t t' →
  lnd_ok confs (mkRun r l' t' (put_watch i None (end_conf id w))).
Proof.
  intros Hid Ht'. apply item_ends; try done; [apply Hok|]. intros id'. cbn.
  destruct (decide (id' = id)) as [->|]; [by right|]. left. set_solver.
Qed.

Lemma item_ends_csv id t' :
  asked_when (report_guard l') t t' →
  lnd_ok confs (mkRun r l' t' (put_watch i None (end_csv id w))).
Proof.
  intros Ht'. apply item_ends; try done; [|auto]. cbn.
  pose proof (lok_csv _ _ Hok) as E. cbn in E. rewrite E. set_solver.
Qed.

Lemma item_stays y t' :
  asked_when (report_guard l') t t' → watch_ok confs (mkRun r l' t' w) y →
  conf_id y = None ∨ conf_id y = conf_id x →
  lnd_ok confs (mkRun r l' t' (put_watch i (Some y) w)).
Proof.
  intros Ht' Hy Hid. eapply (put_ok _ _ l l' t t' w w i x (Some y)); try done.
  - by eapply asked_suffix.
  - eapply asked_trans; [apply reports_at|done].
  - apply Hok.
  - auto.
  - by intros ? [= <-].
Qed.
End item.

Lemma recv_conf_ok confs r l l' t w i x ev :
  lnd_ok confs (mkRun r l t w) → l ⊆ l' → watches w !! i = Some x →
  got_conf (Some x) ev ∈ l' →
  wp (recv_conf x ev) (λ o '(t', w'), lnd_ok confs (mkRun r l' t' (put_watch i o w'))) any_stop (t, w).
Proof.
  intros Hok Hl Hx Hev.
  assert (∀ y, watch_ok confs (mkRun r l' t w) y → conf_id y = None ∨ conf_id y = conf_id x →
    wp (mret (Some y)) (λ o '(t', w'), lnd_ok confs (mkRun r l' t' (put_watch i o w'))) any_stop
      (t, w)) as Hsame.
  { intros y Hy Hid. apply wp_ret. eapply item_stays; try done. constructor. }
  assert (watch_ok confs (mkRun r l' t w) x) as Hxok by (by eapply watch_at).
  assert (∀ id t', conf_id x = Some id → asked_when (report_guard l') t t' →
    wp (update (end_conf id);; mret None) (λ o '(t', w'), lnd_ok confs (mkRun r l' t'
      (put_watch i o w'))) any_stop (t', w)) as Hconf.
  { intros id t' Hid Ht'. do 3 io_step. by eapply item_ends_conf. }
  assert (∀ id t', asked_when (report_guard l') t t' →
    wp (update (end_csv id);; mret None) (λ o '(t', w'), lnd_ok confs (mkRun r l' t'
      (put_watch i o w'))) any_stop (t', w)) as Hcsv.
  { intros id t' Ht'. do 3 io_step. by eapply item_ends_csv. }
  destruct x as [id|id|id h|id]; [| |by (destruct ev; apply Hsame; auto)..].
  - destruct ev as [raw h| | | |e]; cbn [recv_conf].
    + io_step. eapply wp_mono; [apply (on_conf_ok l' id raw h t)| |done]; [done|constructor|].
      intros _ [t' w'] [-> Ht']. by apply Hconf.
    + apply Hsame; auto.
    + apply Hconf; [done|constructor].
    + apply Hsame; [exact I|by left].
    + apply Hconf; [done|constructor].
  - destruct ev as [raw h| | | |e]; cbn [recv_conf]; [|by (apply Hsame; auto)|apply Hcsv; constructor
      |by (apply Hsame; [exact I|left])|apply Hcsv; constructor].
    do 2 io_step. assert (∀ a, asked_when (report_guard l') t
      (event (RegisterBlockEpochNtfn h) a :: t)) as Ht' by (repeat constructor).
    destruct (reply t (RegisterBlockEpochNtfn h)); [by apply Hcsv|].
    apply wp_ret. eapply item_stays; try done; [|by left]. cbn in *. split; [|eauto].
    eapply subscribed_mono; [done| |exact Hxok]. by apply suffix_cons_r.
Qed.

Lemma recv_block_ok confs r l l' t w i x be :
  lnd_ok confs (mkRun r l t w) → l ⊆ l' → watches w !! i = Some x →
  got_block (Some x) be ∈ l' →
  wp (recv_block x be) (λ o '(t', w'), lnd_ok confs (mkRun r l' t' (put_watch i o w'))) any_stop (t, w).
Proof.
  intros Hok Hl Hx Hev.
  assert (wp (mret (Some x)) (λ o '(t', w'), lnd_ok confs (mkRun r l' t' (put_watch i o w'))) any_stop
      (t, w)) as Hsame.
  { apply wp_ret. eapply item_stays; try done; [constructor|by eapply watch_at|by right]. }
  assert (∀ id t', asked_when (report_guard l') t t' →
    wp (update (end_csv id);; mret None) (λ o '(t', w'), lnd_ok confs (mkRun r l' t'
      (put_watch i o w'))) any_stop (t', w)) as Hcsv.
  { intros id t' Ht'. do 3 io_step. by eapply item_ends_csv. }
  destruct x as [id|id|id h|id]; [by (destruct be; apply Hsame)..| |by (destruct be; apply Hsame)].
  destruct be as [bh|]; cbn [recv_block]; [|apply Hcsv; constructor].
  destruct (Z.leb_spec BitcoinCsv (u32 (bh - h + 1))) as [Hcsv'|]; [|done].
  do 3 io_step. destruct (has_csvPassedCallback w); [do 3 io_step|io_step]; apply Hcsv; [|constructor].
  constructor; [|constructor]. right. by exists h, bh.
Qed.

Lemma deliver_at_ok confs r l t w i ev :
  lnd_ok confs (mkRun r l t w) →
  wp (deliver_at i ev)
    (λ _ '(t', w'), lnd_ok confs (mkRun r (item_at i ev w :: l) t' w')) any_stop (t, w).
Proof.
  intros Hok. assert (∀ y, l ⊆ y :: l) as Hl by (intros y z Hz; by right).
  destruct ev as [ev|be]; cbn [deliver_at item_at]; [unfold deliver_conf|unfold deliver_block];
    do 2 io_step; (destruct (watches w !! i) as [x|] eqn:Hx; [|by io_step; apply (ok_at _ _ l)]);
    io_step.
  - eapply wp_mono; [eapply (recv_conf_ok confs r l (got_conf (Some x) ev :: l));
      [done|apply Hl|done|left]| |done]. by intros o [t' w'].
  - eapply wp_mono; [eapply (recv_block_ok confs r l (got_block (Some x) be :: l));
      [done|apply Hl|done|left]| |done]. by intros o [t' w'].
Qed.

Lemma more_ok confs r r' l t t' w w' :
  lnd_ok confs (mkRun r l t w) → r ⊆ r' → asked_when (report_guard l) t t' →
  targetConfs w' = targetConfs w → waitForCsvWatchers w' = waitForCsvWatchers w →
  confirmationWatchers w ⊆ confirmationWatchers w' → watches w' = watches w →
  lnd_ok confs (mkRun r' l t' w').
Proof.
  intros [H1 H2 H3 H4 H5] Hr Ht Hc Hcsv Hm Hw. split; cbn in *; [congruence| |congruence..|].
  - rewrite Hw. eapply Forall_impl; [exact H2|]. intros y. apply watch_ok_mono; try done; cbn.
    + by eapply asked_suffix.
    + intros id _ Hid. by apply Hm.
  - by eapply asked_trans.
Qed.

(** A new watch whose subscription was accepted. *)
Lemma start_ok confs r l t w y :
  lnd_ok confs (mkRun r l t w) → watch_ok confs (mkRun r l t w) y →
  (∀ id, conf_id y = Some id → ConfWatch id ∉ watches w) →
  lnd_ok confs (mkRun r l t (start_watch y w)).
Proof.
  intros [H1 H2 H3 H4 H5] Hy Hnew. split; try done; cbn in *.
  - apply Forall_app. split; [done|]. by apply Forall_singleton.
  - rewrite omap_app. cbn. destruct (conf_id y) as [id|] eqn:Eid; [|by rewrite app_nil_r].
    apply NoDup_app. split; [done|]. split; [|apply NoDup_singleton].
    intros id' Hin ->%list_elem_of_singleton. apply list_elem_of_omap in Hin as (z & Hz & Ez).
    destruct z; try done. injection Ez as ->. by apply (Hnew id).
Qed.

Lemma marked_conf confs s id :
  lnd_ok confs s → ConfWatch id ∈ watches (node s) → id ∈ confirmationWatchers (node s).
Proof.
  intros [_ H _ _ _] Hin. rewrite Forall_forall in H. by destruct (H _ Hin).
Qed.

Lemma register_ok confs r l t w g :
  lnd_ok confs (mkRun r l t w) →
  wp (register g) (λ _ '(t', w'), lnd_ok confs (mkRun (g :: r) l t' w')) any_stop (t, w).
Proof.
  intros Hok. assert (r ⊆ g :: r) as Hr by (intros z Hz; by right).
  pose proof (lok_confs _ _ Hok) as Hc. cbn in Hc.
  assert (∀ id t', asked_when (report_guard l) t t' → lnd_ok confs (mkRun (g :: r) l t'
    (w <| confirmationWatchers := {[ id ]} ∪ confirmationWatchers w |>))) as Hmark.
  { intros id t' Ht'. eapply more_ok; try done. cbn. set_solver. }
  destruct g as [id tx hint sc|id tx hint sc]; cbn [register];
    [unfold AddWaitForConfirmationTx|unfold AddWaitForCsvTx]; do 2 io_step;
    (case_bool_decide as Hm; [io_step; eapply more_ok; try done; constructor|]); do 3 io_step;
    unfold addTxWatcher; (destruct (NewHashFromStr tx) as [hash|e] eqn:Eh;
      [|do 2 io_step; apply Hmark; constructor]); io_step;
    (destruct (reply t _) as [e|] eqn:Er; [io_step; apply Hmark; repeat constructor|]); io_step.
  - apply start_ok; [apply Hmark; repeat constructor| |].
    + cbn. split; [set_solver|]. exists tx, hash, hint, sc. split; [left|]. split; [done|].
      rewrite <- Er, Hc. left.
    + intros id' [= <-] Hin. by apply Hm, (marked_conf _ _ _ Hok).
  - apply start_ok; [apply Hmark; repeat constructor| |done].
    exists tx, hash, hint, sc. split; [left|]. split; [done|]. rewrite <- Er. left.
Qed.

Lemma lnd_step_ok confs s s' : lnd_step s s' → lnd_ok confs s → lnd_ok confs s'.
Proof.
  intros [r l t w|r l t w|r l t w g t' w' E|r l t w i ev t' w' E] Hok.
  - eapply more_ok; try done; constructor.
  - eapply more_ok; try done; constructor.
  - exact (wp_elim _ _ _ _ _ _ (register_ok _ _ _ _ _ _ Hok) E).
  - exact (wp_elim _ _ _ _ _ _ (deliver_at_ok _ _ _ _ _ _ _ Hok) E).
Qed.

Lemma lnd_run_ok confs csv s : lnd_run confs csv s → lnd_ok confs s.
Proof.
  intros Hrun. assert (lnd_ok confs (mkRun [] [] [] (NewTxWatcher confs csv))) as H0
    by (split; cbn; constructor || done).
  revert H0. induction Hrun as [|s1 s2 s3 Hs _ IH]; [done|]. intros H1.
  apply IH. by eapply lnd_step_ok.
Qed.

(** C18. In every run of the LND watcher, whatever the node answers and in whatever
    order the items of the streams arrive: a swap has at most one confirmation
    watch; a confirmation is only reported with the transaction of an item of
    the swap's own subscription, when the tip that was read gives it less than
    504 confirmations; a passed time lock is only reported on at least 504
    confirmations of a watched opening transaction, or on a block that gives a
    transaction confirmed 144 times at least 1008 confirmations.  The
    differences are those of uint32. *)
Theorem lnd_reports_sound (confs csv : Z) (s : LndRun) :
  lnd_run confs csv s →
  (∀ i j id, watches (node s) !! i = Some (ConfWatch id) →
             watches (node s) !! j = Some (ConfWatch id) → i = j) ∧
  (∀ id, ConfWatch id ∈ watches (node s) → subscribed wait_conf confs (regs s) (asked s) id) ∧
  (∀ id h, CsvBlocks id h ∈ watches (node s) → subscribed wait_csv 144 (regs s) (asked s) id ∧
     ∃ raw, got_conf (Some (CsvWatch id)) (ConfEvent_Conf raw h) ∈ items s) ∧
  (∀ id txHex err a, event (confirmationCallback id txHex err) a ∈ asked s → err = None ∧
     ∃ raw h c, got_conf (Some (ConfWatch id)) (ConfEvent_Conf raw h) ∈ items s ∧
       txHex = hex.EncodeToString raw ∧ event GetInfo (Ok c) ∈ asked s ∧
       u32 (c - h + 1) < BitcoinCsvSafetyLimit) ∧
  (∀ id a, event (csvPassedCallback id) a ∈ asked s →
     (∃ raw h c, got_conf (Some (ConfWatch id)) (ConfEvent_Conf raw h) ∈ items s ∧
        event GetInfo (Ok c) ∈ asked s ∧ BitcoinCsvSafetyLimit ≤ u32 (c - h + 1)) ∨
     (∃ h bh, got_block (Some (CsvBlocks id h)) (Some bh) ∈ items s ∧
        BitcoinCsv ≤ u32 (bh - h + 1))).
Proof.
  intros [_ H2 H3 _ H5]%lnd_run_ok. rewrite Forall_forall in H2. split_and!.
  - intros i j id Hi Hj. destruct (decide (i = j)) as [|Hij]; [done|]. exfalso.
    destruct (lookup_split _ _ _ Hi) as (l1 & l2 & E & Ed & _).
    rewrite E, omap_app in H3. cbn in H3. rewrite <- Permutation_middle, NoDup_cons in H3.
    apply (proj1 H3). assert (ConfWatch id ∈ l1 ++ l2) as Hin.
    { rewrite <- Ed. apply list_elem_of_lookup. destruct (decide (j < i)%nat).
      - exists j. by rewrite list_lookup_delete_lt.
      - exists (pred j). rewrite list_lookup_delete_ge by lia. by replace (S (pred j)) with j by lia. }
    rewrite <- omap_app. apply list_elem_of_omap. eauto.
  - intros id Hin. by destruct (H2 _ Hin).
  - intros id h Hin. by destruct (H2 _ Hin).
  - intros id txHex err a Hin. destruct (asked_elem _ _ _ H5 Hin) as (pre & Hg & Hs).
    destruct Hg as (-> & raw & h & c & G1 & G2 & G3 & G4). split; [done|].
    exists raw, h, c. split_and!; try done. by eapply elem_of_suffix.
  - intros id a Hin. destruct (asked_elem _ _ _ H5 Hin) as (pre & Hg & Hs).
    destruct Hg as [(raw & h & c & G1 & G2 & G3)|G]; [left|by right].
    exists raw, h, c. split_and!; try done. by eapply elem_of_suffix.
Qed.

(** ** Marks without a watch *)
Definition marked_unwatched (id : string) (w : TxWatcher) : Prop :=
  id ∈ confirmationWatchers w ∧ ConfWatch id ∉ watches w.
Definition not_confirmed (id : string) (e : Event (answer (TxHash:=Hash))) (_ : T) : Prop :=
  match question e with confirmationCallback id' _ _ => id' ≠ id | _ => True end.
Definition silent (id : string) (t : T) (t' : T) (w : TxWatcher) : Prop :=
  marked_unwatched id w ∧ asked_when (not_confirmed id) t t'.

Lemma put_silent id w w1 i x o :
  marked_unwatched id w → watches w !! i = Some x → watches w1 = watches w →
  (id ∈ confirmationWatchers w1) → o ≠ Some (ConfWatch id) →
  marked_unwatched id (put_watch i o w1).
Proof.
  intros [H1 H2] Hx Hw Hm Ho. split; [done|]. cbn. rewrite Hw.
  destruct (lookup_split _ _ _ Hx) as (l1 & l2 & E & Ed & Ei). rewrite E in H2.
  destruct o as [y|].
  - rewrite Ei. intros [Hin|[Hin|Hin]%elem_of_cons]%elem_of_app; [..|congruence|];
      apply H2, elem_of_app; [by left|right; by right].
  - rewrite Ed. intros [Hin|Hin]%elem_of_app; apply H2, elem_of_app; [by left|right; by right].
Qed.

Ltac quiet :=
  repeat first [assumption | apply asked_none | apply asked_cons; [first [exact I|assumption]|]].

Lemma deliver_silent id t w i ev :
  marked_unwatched id w →
  wp (deliver_at i ev) (λ _ '(t', w'), silent id t t' w') any_stop (t, w).
Proof.
  intros Hw. pose proof Hw as [Hmark Hno].
  destruct ev as [ev|be]; cbn [deliver_at]; [unfold deliver_conf|unfold deliver_block];
    do 2 io_step; (destruct (watches w !! i) as [x|] eqn:Hx; [|io_step; by repeat constructor]);
    io_step;
    assert (∀ o w1 t', watches w1 = watches w → id ∈ confirmationWatchers w1 →
      o ≠ Some (ConfWatch id) → asked_when (not_confirmed id) t t' →
      wp (update (put_watch i o)) (λ _ '(t', w'), silent id t t' w') any_stop (t', w1)) as Hput
      by (intros; io_step; split; [by eapply put_silent|done]);
    assert (x ≠ ConfWatch id) as Hne
      by (intros ->; by apply Hno, (list_elem_of_lookup_2 _ i));
    assert (asked_when (not_confirmed id) t t) as H0 by constructor.
  - destruct x as [id'|id'|id' h|id'], ev as [raw h'| | | |e]; cbn [recv_conf];
      try (do 3 io_step; apply Hput; [done|cbn; set_solver|congruence|done]);
      try (io_step; apply Hput; congruence).
    + io_step. eapply (wp_mono _ (λ _ '(t', w'), w' = w ∧ asked_when (not_confirmed id) t t') _ any_stop);
        [|intros _ [t' w'] [-> Ht']; do 3 io_step; apply Hput; [done|cbn; set_solver|done..]|done].
      assert (id' ≠ id) by congruence.
      unfold on_conf, GetBlockHeight. do 2 io_step.
      destruct (reply t GetInfo); [|apply wp_ret; split; [done|quiet]]. do 2 io_step.
      destruct (_ <=? _); [destruct (has_csvPassedCallback w)|destruct (has_confirmationCallback w)];
        [do 3 io_step|exact I|do 3 io_step|apply wp_ret]; (split; [done|quiet]).
    + do 2 io_step. destruct (reply t _); [do 3 io_step|io_step]; apply Hput; try done;
        quiet.
  - destruct x as [id'|id'|id' h|id'], be as [bh|]; cbn [recv_block];
      try (do 3 io_step; apply Hput; [done|cbn; set_solver|congruence|done]);
      try (io_step; apply Hput; congruence).
    destruct (_ <=? _); [|io_step; by apply Hput].
    do 3 io_step. destruct (has_csvPassedCallback w); [do 3 io_step|io_step]; do 3 io_step;
      apply Hput; try done; quiet.
Qed.

Lemma register_silent id t w g :
  marked_unwatched id w →
  wp (register g) (λ _ '(t', w'), silent id t t' w') any_stop (t, w).
Proof.
  intros [H1 H2]. destruct g as [id' tx hint sc|id' tx hint sc]; cbn [register];
    [unfold AddWaitForConfirmationTx|unfold AddWaitForCsvTx]; do 2 io_step;
    (case_bool_decide as Hm; [io_step; by (split; [split|quiet])|]); do 3 io_step; unfold addTxWatcher;
    (destruct (NewHashFromStr tx) as [hash|e]; [|do 2 io_step; split; [split|]; cbn;
      [set_solver|done|constructor]]);
    io_step; (destruct (reply t _); io_step; (split; [split|]); cbn;
      [set_solver|try done|quiet|set_solver|try done|quiet]).
  - intros [Hin|Hin%list_elem_of_singleton]%elem_of_app; [done|congruence].
  - intros [Hin|Hin%list_elem_of_singleton]%elem_of_app; [done|congruence].
Qed.

(** A watch lost to a refused subscription, or to the end of its stream, is final. *)
Lemma silent_steps id s s' :
  rtc lnd_step s s' → marked_unwatched id (node s) →
  marked_unwatched id (node s') ∧ asked_when (not_confirmed id) (asked s) (asked s').
Proof.
  induction 1 as [s|s s1 s2 Hs _ IH]; [by split; [|constructor]|]. intros Hm.
  assert (silent id (asked s) (asked s1) (node s1)) as [Hm1 Hq].
  { destruct Hs as [r l t w|r l t w|r l t w g t' w' E|r l t w i ev t' w' E]; cbn in *.
    - split; [done|constructor].
    - split; [done|constructor].
    - exact (wp_elim _ _ _ _ _ _ (register_silent _ _ _ g Hm) E).
    - exact (wp_elim _ _ _ _ _ _ (deliver_silent _ _ _ i ev Hm) E). }
  destruct (IH Hm1) as [Hm2 Hq2]. split; [done|]. by eapply asked_trans.
Qed.

(** A swap whose confirmation watch is lost is never reported again: when the
    node refuses the subscription, and when it ends the stream, the mark of the
    swap stays without a watch; from then on no later registration and no item
    brings a confirmation of the swap, in any continuation of the run. *)
Theorem lost_watch_is_final (confs csv : Z) (s : LndRun) (id : string) :
  lnd_run confs csv s →
  (∀ txId hint script e t' w', id ∉ confirmationWatchers (node s) →
     addTxWatcher txId (targetConfs (node s)) hint script
       (asked s, node s <| confirmationWatchers := {[ id ]} ∪ confirmationWatchers (node s) |>) =
       Ret (t', w') (Some e) →
     AddWaitForConfirmationTx id txId hint script (asked s, node s) = Ret (t', w') () ∧
     marked_unwatched id w') ∧
  (∀ i, watches (node s) !! i = Some (ConfWatch id) →
     ∃ w', deliver_conf i ConfEvent_EOF (asked s, node s) = Ret (asked s, w') () ∧
           marked_unwatched id w') ∧
  (∀ s', marked_unwatched id (node s) → rtc lnd_step s s' →
     marked_unwatched id (node s') ∧
     ∃ new, asked s' = new ++ asked s ∧ ∀ txHex err a, event (confirmationCallback id txHex err) a ∉ new).
Proof.
  intros Hok%lnd_run_ok. destruct s as [r l t w]. cbn [asked node] in *. split_and!.
  - intros txId hint sc e t' w' Hm E. unfold AddWaitForConfirmationTx, mbind, M_bind, look, update.
    rewrite bool_decide_false by done. rewrite E. split; [done|].
    assert (w' = w <| confirmationWatchers := {[ id ]} ∪ confirmationWatchers w |>) as ->.
    { revert E. unfold addTxWatcher. destruct (NewHashFromStr txId); [|by intros [= _ <-]].
      unfold query. by intros [= _ <-]. }
    split; [cbn; set_solver|]. intros Hin. by apply Hm, (marked_conf _ _ _ Hok).
  - intros i Hi. eexists. unfold deliver_conf, mbind, M_bind, look, update. rewrite Hi.
    split; [reflexivity|]. split.
    + cbn. apply (marked_conf _ _ _ Hok). by eapply list_elem_of_lookup_2.
    + cbn. destruct (lookup_split _ _ _ Hi) as (l1 & l2 & E & _ & Ei). rewrite Ei.
      pose proof (lok_unique _ _ Hok) as Hu. cbn in Hu. rewrite E, omap_app in Hu. cbn in Hu.
      rewrite <- Permutation_middle, NoDup_cons in Hu. intros Hin. apply (proj1 Hu).
      rewrite <- omap_app. apply list_elem_of_omap. exists (ConfWatch id). split; [|done].
      apply elem_of_app in Hin as [Hin|[Hin|Hin]%elem_of_cons]; [..|done|];
        apply elem_of_app; [by left|by right].
  - intros s' Hm Hs. destruct (silent_steps _ _ _ Hs Hm) as [Hm' Hq]. split; [done|].
    destruct (asked_new _ _ _ Hq) as (new & E & Hnew). exists new. split; [exact E|].
    intros txHex err a Hin. destruct (Hnew _ Hin) as [pre H]. by apply H.
Qed.
End proofs.

(** ** What a swap makes of a confirmation that comes too late *)

(** The party that pays the claim invoice. *)
Definition is_taker (sm : SwapStateMachine) : bool :=
  match sm_Type sm, sm_Role sm with
  | SWAPTYPE_OUT, SWAPROLE_SENDER | SWAPTYPE_IN, SWAPROLE_RECEIVER => true
  | _, _ => false
  end.

Lemma taker_ignores_csv sm : is_taker sm = true →
  next_state (sm_States sm) (sm_Current sm) Event_OnCsvPassed = None.
Proof.
  unfold is_taker, sm_States. destruct (sm_Type sm), (sm_Role sm); try done; intros _;
    cbn [states_for]; by destruct (sm_Current sm).
Qed.

Lemma OnCsvPassed_ignored {EV : Env} id wd s sm :
  activeSwaps s !! id = Some sm → is_taker sm = true →
  wp (OnCsvPassed id)
    (λ _ '(wd', s'), s' = s ∧ hist_ext (λ c, is_db (call_of c) = true) (hist wd) (hist wd'))
    no_stop (wd, s).
Proof.
  intros Hid Ht%taker_ignores_csv. unfold OnCsvPassed, GetActiveSwap. do 3 svc_step.
  rewrite Hid. do 2 svc_step. unfold on_machine. svc_step.
  assert (s <| activeSwaps := <[id := sm]> (activeSwaps s) |> = s) as Es.
  { destruct s as [m l]. cbn in *. by rewrite insert_id. }
  assert (∀ wd' (b : bool) e, hist_ext (λ c, is_db (call_of c) = true) (hist wd) (hist wd') →
    wp (match (b, Some e) with
        | (_, Some e) => if bool_decide (e = ErrEventRejected) then mret None else mret (Some e)
        | (done, None) => remove_if done sm;; mret None
        end)
      (λ (_ : option error) '(wd', s'), s' = s ∧ hist_ext (λ c, is_db (call_of c) = true)
         (hist wd) (hist wd')) no_stop (wd', s <| activeSwaps := <[id := sm]> (activeSwaps s) |>))
    as Hend by (intros wd' b e Hh; rewrite Es; case_bool_decide; by apply wp_ret).
  apply wp_SendEvent; [intros _|done..].
  apply wp_SendEvent_nil; [done|intros _ e w' [_ Hh]; exact (Hend w' false e Hh)|].
  intros _ w' [_ [_ Hh]]. change loop_fuel with (S 63). unfold wp at 1.
  rewrite run_events_rejected by done. exact (Hend w' false ErrEventRejected Hh).
Qed.

Section strand.
Context {CL : ChainLib} {OR : Oracle (answer (TxHash:=Hash))}.

(** When the opening transaction of a taker is seen with 504 or more
    confirmations, the watcher of LND reports a passed time lock instead of a
    confirmation, and ends the watch; no state of a taker's machine accepts that
    event, so the service leaves the swap exactly as it was, writes nothing but
    the database, and the swap stays active with no watch: it neither pays nor
    gives its key for a cooperative close. *)
Theorem late_confirmation_strands_taker {EV : Env} (t : Trace (answer (TxHash:=Hash)))
    (w : TxWatcher) (i : nat) (id raw : string) (h c : Z) (wd : World) (s : SwapService)
    (sm : SwapStateMachine) :
  watches w !! i = Some (ConfWatch id) → has_csvPassedCallback w = true →
  reply t GetInfo = Ok c → BitcoinCsvSafetyLimit ≤ u32 (c - h + 1) →
  activeSwaps s !! id = Some sm → is_taker sm = true →
  (∃ a w', deliver_conf i (ConfEvent_Conf raw h) (t, w) =
     Ret (event (csvPassedCallback id) a :: event GetInfo (Ok c) :: t, w') () ∧
     watches w' = delete i (watches w)) ∧
  (∃ r wd', OnCsvPassed id (wd, s) = Ret (wd', s) r ∧
     hist_ext (λ e, is_db (call_of e) = true) (hist wd) (hist wd')).
Proof.
  intros Hi Hcb Hc Hlim Hid Ht. split.
  - eexists _, _. unfold deliver_conf, mbind, M_bind, look, update. rewrite Hi. cbn [recv_conf].
    unfold on_conf, GetBlockHeight, mbind, M_bind, look, update, query. rewrite Hc, Hcb.
    rewrite (proj2 (Z.leb_le _ _) Hlim). split; reflexivity.
  - destruct (wp_total _ _ _ (OnCsvPassed_ignored id wd s sm Hid Ht)) as ([wd' s'] & r & E & -> & Hh).
    eauto.
Qed.
End strand.
