(* ===== verification/WatchWitnesses.v ===== *)
(** * Concrete runs of the watchers

    Each property of the watchers that has hypotheses is applied to a short run
    against a node with fixed answers. *)

From Stdlib Require Import Sorted.
From S2P Require Import Prelude GoLib Messages Premium Policy SwapData Timelock Env Demo Store.
From S2P Require Import Actions Fsm Service Scenarios.
From S2P Require Import Oracle Watcher WatcherProofs Electrum ElectrumProofs.
From S2P Require Import LndWatcher LndProofs.

(** ** The rpc watcher *)

(** A node at height 100, with the transaction in block 95. *)
Definition steady_reply (t : Trace Rpc.answer) (q : Rpc.Call) : Rpc.answer q :=
  match q with
  | Rpc.GetBlockHeight => Ok 100
  | Rpc.GetTxOut _ _ => Ok (Some (Watcher.Rpc.mkTxOut "hash 100" 6))
  | Rpc.GetBlockHash h => Ok ("hash " +:+ strconv.Itoa h)
  | Rpc.GetRawtransactionWithBlockHash _ h =>
      if bool_decide (h = "hash 95") then Ok "raw" else Ok ""
  | Rpc.txCallback _ _ _ | Rpc.csvPassedCallback _ => None
  end.
Definition steady : Oracle Rpc.answer := steady_reply.
Definition steady_regs : list Watcher.Watch := [ConfirmationWatch "swap" "tx" 0 90 504].
(** The watch is registered, and the height of the registration is delivered. *)
Definition steady_registered : Trace Rpc.answer * Watcher.TxWatcher :=
  match Watcher.AddWaitForConfirmationTx (OR := steady) "swap" "tx" 0 90 504 ([], NewBlockchainRpcTxWatcher) with
  | Ret s _ | Panic s | NoFuel s => s
  end.
Definition steady_delivery : Trace Rpc.answer :=
  match receive (OR := steady) 3 0 100
    (fst steady_registered, snd steady_registered <| sends := [] |>) with
  | Ret s _ | Panic s | NoFuel s => take 6 (fst s)
  end.
Definition block_upto (limit : Z) (e : Event Rpc.answer) : bool :=
  match question e with Rpc.GetBlockHash h => h <=? limit | _ => true end.

Example reports_sound_witness :
  delivered (OR := steady) 3 steady_regs (fst steady_registered) (snd steady_registered) 0 100
    steady_delivery ∧
  event (Rpc.txCallback "swap" "raw" None) None ∈ steady_delivery ∧
  ∃ tx firstSeen, seen_at tx "raw" firstSeen steady_delivery ∧ 3 ≤ 100 - firstSeen + 1.
Proof.
  assert (delivered (OR := steady) 3 steady_regs (fst steady_registered) (snd steady_registered) 0 100
    steady_delivery) as Hd.
  { split.
    - eapply (run_confirmation_watch (OR := steady) 3 []); [apply (run_start (OR := steady))|].
      vm_compute. reflexivity.
    - eexists [], [], _. split; [vm_compute; reflexivity|]. vm_compute. reflexivity. }
  assert (event (Rpc.txCallback "swap" "raw" None) None ∈ steady_delivery) as He
    by (vm_compute; left).
  assert (forallb (block_upto 101) steady_delivery = true) as Hupto by (by vm_compute).
  split; [exact Hd|]. split; [exact He|].
  destruct (proj1 (reports_sound (OR := steady) 3) _ _ _ _ _ _ _ _ _ Hd He)
    as (o & _ & _ & _ & _ & first & Hseen & _ & _ & Hconf).
  exists (ob_txId o), first. split; [exact Hseen|]. apply Hconf.
  destruct Hseen as (bh & Hbh & _). rewrite forallb_forall in Hupto.
  apply list_elem_of_In in Hbh. specialize (Hupto _ Hbh). cbn in Hupto. apply Z.leb_le in Hupto. lia.
Defined.

(** A node that shows 1008 confirmations of any output, and any transaction at 95. *)
Definition deep_reply (t : Trace Rpc.answer) (q : Rpc.Call) : Rpc.answer q :=
  match q with
  | Rpc.GetBlockHeight => Ok 1100
  | Rpc.GetTxOut _ _ => Ok (Some (Watcher.Rpc.mkTxOut "hash 1100" 1008))
  | Rpc.GetBlockHash h => Ok (strconv.Itoa h)
  | Rpc.GetRawtransactionWithBlockHash _ h => if bool_decide (h = "95") then Ok "raw" else Ok ""
  | Rpc.txCallback _ _ _ | Rpc.csvPassedCallback _ => None
  end.
Definition deep : Oracle Rpc.answer := deep_reply.
Definition csv_watcher : Watcher.TxWatcher :=
  NewBlockchainRpcTxWatcher <| csvtxWatchList := {[ "swap" := mkSwapTxInfo "tx" 0 90 1008 ]} |>.

Example csv_watch_loses_nothing_witness :
  match HandleCsvTx (OR := deep) (map_to_list (csvtxWatchList csv_watcher)) ([] : Trace Rpc.answer, csv_watcher) with
  | Ret (t', w') _ => ∃ new, t' = new ++ [] ∧
      attended_all (map_to_list (csvtxWatchList csv_watcher)) new ∧
      (∀ k v, csvtxWatchList csv_watcher !! k = Some v →
              ∃ post asked pre, new = post ++ asked ++ pre ∧ attended k v asked) ∧
      ∀ k v, csvtxWatchList w' !! k = Some v ↔
             csvtxWatchList csv_watcher !! k = Some v ∧ ¬ passed new k
  | _ => False
  end ∧
  match HandleCsvTx (OR := deep) (map_to_list (csvtxWatchList csv_watcher)) ([] : Trace Rpc.answer, csv_watcher) with
  | Ret (_, w') _ => csvtxWatchList w' = ∅
  | _ => False
  end.
Proof.
  split; [|vm_compute; done].
  pose proof (csv_watch_loses_nothing (OR := deep) (map_to_list (csvtxWatchList csv_watcher)) []
    csv_watcher (reflexivity _)) as H. exact H.
Defined.

Example range_search_exact_witness :
  match IsTxInRange (OR := deep) "tx" 90 100 ([] : Trace Rpc.answer, ()) with
  | Ret (t', s') r => s' = () ∧
      (range_result "tx" 90 100 r t' ∨
       ∃ e h, r = Err e ∧ answered t' (Rpc.GetBlockHash h) (Err e))
  | _ => False
  end ∧
  match IsTxInRange (OR := deep) "tx" 90 100 ([] : Trace Rpc.answer, ()) with
  | Ret _ r => r = Ok ("raw", 95)
  | _ => False
  end.
Proof.
  split; [|vm_compute; done].
  exact (range_search_exact (OR := deep) "tx" 90 100 [] () ltac:(lia) ltac:(lia)).
Defined.

(** ** Libraries for the examples *)
Definition demo_chain : ChainLib := {|
  Hash := string;
  NewHashFromStr := λ s, if bool_decide (s = "") then Err (ErrText "empty hash") else Ok s;
  Hash_String := λ s, s;
  ParsePkScript := λ s, Ok s;
  sha256_Sum256 := λ s, s;
|}.

(** ** The Electrum watcher *)
Definition electrum_reply (t : Trace ElectrumRpc.answer) (q : ElectrumRpc.Call)
    : ElectrumRpc.answer q :=
  match q with
  | ElectrumRpc.GetHistory _ => Ok [None; Some (ElectrumRpc.mkMempoolResult "tx" 100)]
  | ElectrumRpc.GetRawTransaction _ => Ok "raw"
  | ElectrumRpc.confirmationCallback _ _ _ | ElectrumRpc.csvCallback _ => None
  end.
Definition demo_electrum : Oracle ElectrumRpc.answer := electrum_reply.

Definition electrum_obs : TXObserver (H := demo_chain) :=
  observeOpeningTX (H := demo_chain) "id" "tx" "script" 90 60.
Definition electrum_one : electrumTxWatcher (H := demo_chain) :=
  NewElectrumTxWatcher (H := demo_chain) <| subscriber := [electrum_obs] |>.

Example electrum_reports_sound_witness :
  ∃ t tips r go id raw a, electrum_run (H := demo_chain) (OR := demo_electrum)
    [electrum_obs] t tips r go ∧
    event (ElectrumRpc.confirmationCallback id raw None) a ∈ t ∧ 101 ∈ tips ∧
    StronglySorted Z.gt tips.
Proof.
  assert (electrum_run (H := demo_chain) (OR := demo_electrum) [electrum_obs] [] []
    electrum_one true) as H0
    by apply (electrum_register (H := demo_chain) (OR := demo_electrum) [] [] []
         (NewElectrumTxWatcher (H := demo_chain)) true electrum_obs), electrum_start.
  destruct (on_header (H := demo_chain) (OR := demo_electrum) (Some 101) ([], electrum_one))
    as [[t r] go|s|s] eqn:E; [|by vm_compute in E..].
  pose proof (electrum_header (H := demo_chain) (OR := demo_electrum) _ _ _ _ _ _ _ _ H0 E) as Hrun.
  destruct (electrum_reports_sound (CL := demo_chain) (OR := demo_electrum) _ _ _ _ _ Hrun)
    as (Hs & _).
  eexists _, _, _, _, _, _, _. split; [exact Hrun|]. split; [|split; [|exact Hs]];
    vm_compute in E; injection E as <- <- <-; left.
Defined.

(** ** The LND watcher *)
Definition lnd_reply (t : Trace (LndRpc.answer (TxHash:=string))) (q : LndRpc.Call string)
    : LndRpc.answer q :=
  match q with
  | LndRpc.RegisterConfirmationsNtfn _ _ _ _ | LndRpc.RegisterBlockEpochNtfn _ => None
  | LndRpc.GetInfo => Ok 103
  | LndRpc.confirmationCallback _ _ _ | LndRpc.csvPassedCallback _ => None
  end.
Definition demo_lnd : Oracle (LndRpc.answer (TxHash:=string)) := lnd_reply.
Definition lnd_ready : TxWatcher :=
  AddCsvCallback (AddConfirmationCallback (NewTxWatcher 3 1008)).
Definition lnd_reg : Registration := wait_conf "swap" "tx" 90 "script".
Definition lnd_watching : TxWatcher :=
  lnd_ready <| confirmationWatchers := {[ "swap" ]} |> <| watches := [ConfWatch "swap"] |>.

Definition lnd_subscribed : LndRun (CL := demo_chain) :=
  mkRun (CL := demo_chain) [lnd_reg] []
    [event (LndRpc.RegisterConfirmationsNtfn (TxHash := string) "tx" "script" 3 90) None] lnd_watching.
Lemma lnd_subscribed_run : lnd_run (CL := demo_chain) (OR := demo_lnd) 3 1008 lnd_subscribed.
Proof.
  unfold lnd_run. eapply rtc_l; [apply lnd_conf_callback|].
  eapply rtc_l; [apply lnd_csv_callback|].
  eapply rtc_l; [apply (lnd_register (CL := demo_chain) (OR := demo_lnd) _ _ _ _ lnd_reg);
    vm_compute; reflexivity|]. apply rtc_refl.
Defined.

Example lnd_reports_sound_witness :
  ∃ s a, lnd_run (CL := demo_chain) (OR := demo_lnd) 3 1008 s ∧
    event (LndRpc.confirmationCallback (TxHash := string) "swap" (hex.EncodeToString "raw") None) a
      ∈ asked s ∧
    ∃ raw h c, got_conf (Some (ConfWatch "swap")) (LndRpc.ConfEvent_Conf raw h) ∈ items s ∧
       u32 (c - h + 1) < BitcoinCsvSafetyLimit.
Proof.
  destruct (deliver_at (CL := demo_chain) (OR := demo_lnd) 0
    (inl (LndRpc.ConfEvent_Conf "raw" 101)) (asked lnd_subscribed, lnd_watching))
    as [[t w] []|s|s] eqn:E; [|by vm_compute in E..].
  pose proof (lnd_item (CL := demo_chain) (OR := demo_lnd) [lnd_reg] [] _ _ _ _ _ _ E) as Hstep.
  assert (lnd_run (CL := demo_chain) (OR := demo_lnd) 3 1008 (mkRun (CL := demo_chain) [lnd_reg]
    [item_at 0 (inl (LndRpc.ConfEvent_Conf "raw" 101)) lnd_watching] t w)) as Hrun
    by (eapply rtc_r; [exact lnd_subscribed_run|exact Hstep]).
  destruct (lnd_reports_sound (CL := demo_chain) (OR := demo_lnd) _ _ _ Hrun)
    as (_ & _ & _ & Hconf & _).
  assert (event (LndRpc.confirmationCallback (TxHash := string) "swap" (hex.EncodeToString "raw")
    None) None ∈ t) as Hin by (vm_compute in E; injection E as <- <-; left).
  destruct (Hconf _ _ _ _ Hin) as (_ & raw & h & c & H1 & _ & _ & H2).
  eexists _, _. split; [exact Hrun|]. split; [exact Hin|]. by exists raw, h, c.
Defined.

Example lost_watch_is_final_witness :
  ∃ w, marked_unwatched "swap" w ∧
    deliver_conf (CL := demo_chain) (OR := demo_lnd) 0 LndRpc.ConfEvent_EOF
      (asked lnd_subscribed, lnd_watching) = Ret (asked lnd_subscribed, w) ().
Proof.
  destruct (lost_watch_is_final (CL := demo_chain) (OR := demo_lnd) 3 1008 lnd_subscribed "swap"
    lnd_subscribed_run) as (_ & Heof & _).
  destruct (Heof 0%nat eq_refl) as (w & Hw & Hm). by exists w.
Defined.

(** ** The taker *)
Definition late_lnd : Oracle (LndRpc.answer (TxHash:=string)) := λ t q,
  match q with LndRpc.GetInfo => Ok 700 | q => lnd_reply t q end.
Definition taker_service : SwapService :=
  NewSwapService <| activeSwaps := {[ "swap" := out_sender ]} |>.

Example late_confirmation_strands_taker_witness :
  ∃ r wd', OnCsvPassed (H := demo) "swap" (demo_world, taker_service) = Ret (wd', taker_service) r.
Proof.
  destruct (late_confirmation_strands_taker (CL := demo_chain) (OR := late_lnd) (EV := demo)
    [] lnd_watching 0 "swap" "raw" 101 700 demo_world taker_service out_sender)
    as [_ (r & wd' & E & _)]; try (vm_compute; reflexivity); [done|].
  by exists r, wd'.
Defined.
