(* ===== verification/Version.v ===== *)
(** * Version strings and the upgrade (src/version)

    [CompareVersionStrings] compares the numbers in two strings, position by
    position, a missing number being zero.  [SafeUpgrade] records the version of
    the program in its bucket of the database, unless a swap is under way. *)

From stdpp Require Import sorting.
From S2P Require Import Prelude GoLib SwapData Env Store Fsm Service.

Definition version : string := "v0.2".

(** ** compare.go *)
Definition is_digit (c : ascii) : bool := hex.in_range 48 57 (nat_of_ascii c).

(** [regexp.MustCompile("[0-9]+").FindAllString(s, -1)]: the maximal runs of digits. *)
Fixpoint FindAllString (s : string) : list string :=
  match s with
  | EmptyString => []
  | String c rest =>
      if is_digit c then
        match rest with
        | String c' _ =>
            if is_digit c' then
              match FindAllString rest with
              | r :: rs => String c r :: rs
              | [] => [String c ""]
              end
            else String c "" :: FindAllString rest
        | EmptyString => [String c ""]
        end
      else FindAllString rest
  end.

(** The loop that converts both slices; the message names the version of the
    program, not the malformed string. *)
Fixpoint convert (partsA partsB : list string) : result (list Z * list Z) :=
  match partsA, partsB with
  | a :: partsA, b :: partsB =>
      let malformed e := Err (ErrWrap ("malformed version string " +:+ version +:+ ": " +:+ Error e) e) in
      match strconv.Atoi a with
      | Err e => malformed e
      | Ok x =>
          match strconv.Atoi b with
          | Err e => malformed e
          | Ok y =>
              match convert partsA partsB with
              | Err e => Err e
              | Ok (numericA, numericB) => Ok (x :: numericA, y :: numericB)
              end
          end
      end
  | _, _ => Ok ([], [])
  end.

Fixpoint compare_entries (numericA numericB : list Z) : bool :=
  match numericA, numericB with
  | x :: numericA, y :: numericB =>
      if x <? y then false else if y <? x then true else compare_entries numericA numericB
  | _, _ => true
  end.

Definition CompareVersionStrings (a b : string) : result bool :=
  let partsA := FindAllString a in
  let partsB := FindAllString b in
  let d := Z.of_nat (length partsA) - Z.of_nat (length partsB) in
  let partsB := if 0 <? d then partsB ++ repeat "0" (Z.to_nat d) else partsB in
  let partsA := if d <? 0 then partsA ++ repeat "0" (Z.to_nat (- d)) else partsA in
  match convert partsA partsB with
  | Err e => Err e
  | Ok (numericA, numericB) => Ok (compare_entries numericA numericB)
  end.

(** ** store.go and service.go *)

(** The bucket of the version, [None] when it does not exist, and its value. *)
Definition VersionBucket : Type := option (option string).
Definition version_ErrDoesNotExist : error :=
  ErrSentinel "version.ErrDoesNotExist" "does not exist".
Definition ActiveSwapsError (v : string) : error :=
  ErrTyped "version.ActiveSwapsError"
    ("Can't upgrade because of active swaps. Please downgrade peerswap to version " +:+ v).

Section version.
Context `{!Env} {D : Type}.
Abbreviation V := (Svc (VersionBucket * D)).

Definition bucket : V VersionBucket := s ← getl; mret (fst s).

Definition NewVersionStore : V (option error) :=
  do? call (DbBegin true) else e => mret (Some e) in
  do? call (DbPut "version") else e => mret (Some e) in
  do? call DbCommit else e => mret (Some e) in
  setl (λ '(b, s), (match b with None => Some None | b => b end, s));;
  mret None.

Definition GetVersion : V (result string) :=
  do? call (DbBegin false) else e => mret (Err e) in
  b ← bucket;
  match b with
  | None => mret (Err (ErrText "bucket nil"))
  | Some None => mret (Err version_ErrDoesNotExist)
  | Some (Some jData) => mret (Ok jData)
  end.

Definition SetVersion (v : string) : V (option error) :=
  do? call (DbBegin true) else e => mret (Some e) in
  b ← bucket;
  match b with
  | None => mret (Some (ErrText "bucket nil"))
  | Some _ =>
      do? call (DbPut "version") else e => mret (Some e) in
      do? call DbCommit else e => mret (Some e) in
      setl (λ '(_, s), (Some (Some v), s));; mret None
  end.

(** [swapService.HasActiveSwaps] is the argument. *)
Definition SafeUpgrade (HasActiveSwaps : Svc D (result bool)) : V (option error) :=
  r ← GetVersion;
  let upgrade currentVersion :=
    let? hasActiveSwaps := zoom snd (λ s '(b, _), (b, s)) HasActiveSwaps else e => mret (Some e) in
    if (hasActiveSwaps : bool) then mret (Some (ActiveSwapsError currentVersion))
    else SetVersion version in
  match r with
  | Err e => if bool_decide (e = version_ErrDoesNotExist) then upgrade "" else mret (Some e)
  | Ok currentVersion =>
      if bool_decide (currentVersion = version) then mret None else upgrade currentVersion
  end.
End version.

(** ** The order of versions *)

(** The component at a position; a missing one is zero. *)
Definition component (l : list Z) (i : nat) : Z := nth i l 0.
(** [l2] is at most [l1]: equal, or smaller at the first difference. *)
Definition version_ge (l1 l2 : list Z) : Prop :=
  ∀ i, (∀ j, (j < i)%nat → component l1 j = component l2 j) → component l2 i ≤ component l1 i.

(** The numbers of a string, when all of them fit an int64. *)
Fixpoint numbers (parts : list string) : option (list Z) :=
  match parts with
  | [] => Some []
  | p :: ps => match strconv.Atoi p, numbers ps with
               | Ok n, Some ns => Some (n :: ns)
               | _, _ => None
               end
  end.

Lemma compare_entries_spec la lb :
  length la = length lb → compare_entries la lb = true ↔ version_ge la lb.
Proof.
  revert lb. induction la as [|x la IH]; intros [|y lb] Hl; try done; cbn [compare_entries].
  { split; [|done]. intros _ i _. done. }
  injection Hl as Hl. destruct (Z.ltb_spec x y).
  { split; [done|]. intros Hge. specialize (Hge 0%nat ltac:(lia)). cbn in Hge. lia. }
  destruct (Z.ltb_spec y x).
  { split; [|done]. intros _ [|i] Hi; cbn; [lia|]. specialize (Hi 0%nat ltac:(lia)). cbn in Hi. lia. }
  assert (x = y) as -> by lia. rewrite (IH lb Hl). split; intros Hge i Hi.
  - destruct i as [|i]; cbn; [lia|]. apply Hge. intros j Hj. apply (Hi (S j)). lia.
  - apply (Hge (S i)). intros [|j] Hj; [done|]. apply Hi. lia.
Qed.

Lemma component_pad l n i : component (l ++ repeat 0 n) i = component l i.
Proof.
  unfold component. revert i. induction l as [|x l IH]; intros i; cbn.
  - rewrite nth_repeat. by destruct i.
  - destruct i; [done|]. apply IH.
Qed.

Lemma version_ge_pad la lb n m :
  version_ge (la ++ repeat 0 n) (lb ++ repeat 0 m) ↔ version_ge la lb.
Proof.
  unfold version_ge. split; intros H i Hi; specialize (H i); rewrite ?component_pad in *;
    apply H; intros j Hj; specialize (Hi j Hj); by rewrite ?component_pad in *.
Qed.

Lemma numbers_length ps ns : numbers ps = Some ns → length ps = length ns.
Proof.
  revert ns. induction ps as [|p ps IH]; cbn; intros ns; [by intros [= <-]|].
  destruct (strconv.Atoi p); [|done]. destruct (numbers ps); [|done].
  intros [= <-]. cbn. by rewrite (IH l).
Qed.

Lemma numbers_pad ps n : numbers (ps ++ repeat "0" n) = (λ l, l ++ repeat 0 n) <$> numbers ps.
Proof.
  induction ps as [|p ps IH]; cbn.
  - induction n as [|n IH]; [done|]. cbn [repeat numbers]. by rewrite IH.
  - rewrite IH. destruct (strconv.Atoi p); [|done]. by destruct (numbers ps).
Qed.

Lemma convert_spec pa pb : length pa = length pb →
  match numbers pa, numbers pb with
  | Some la, Some lb => convert pa pb = Ok (la, lb)
  | _, _ => ∃ e, convert pa pb = Err e
  end.
Proof.
  revert pb. induction pa as [|a pa IH]; intros [|b pb] Hl; try done.
  injection Hl as Hl. specialize (IH pb Hl). cbn [numbers convert].
  destruct (strconv.Atoi a) as [x|e]; [|by eexists].
  destruct (strconv.Atoi b) as [y|e]; [|destruct (numbers pa); by eexists].
  destruct (numbers pa) as [la|]; [destruct (numbers pb) as [lb|]|].
  - by rewrite IH.
  - destruct IH as [e ->]. by eexists.
  - destruct IH as [e ->]. by eexists.
Qed.

(** The digits of a number, followed by something else, are one run. *)
Definition digits_only (s : string) : Prop :=
  s ≠ "" ∧ Forall (λ c, is_digit c = true) (String.list_ascii_of_string s).
Definition starts_digit (s : string) : bool :=
  match s with String c _ => is_digit c | EmptyString => false end.

Lemma FindAllString_run s rest :
  digits_only s → starts_digit rest = false →
  FindAllString (s +:+ rest) = s :: FindAllString rest.
Proof.
  intros [Hne Hs] Hrest. induction s as [|c s IH]; [done|].
  cbn in Hs. apply Forall_cons in Hs as [Hc Hs].
  change (String c s +:+ rest) with (String c (s +:+ rest)). cbn [FindAllString]. rewrite Hc.
  destruct s as [|c' s].
  - change ("" +:+ rest) with rest. destruct rest as [|c' rest]; [done|].
    cbn in Hrest. by rewrite Hrest.
  - rewrite IH by done. cbn in Hs. apply Forall_cons in Hs as [Hc' _].
    change (String c' s +:+ rest) with (String c' (s +:+ rest)). cbv iota. by rewrite Hc'.
Qed.

Lemma pretty_N_go_digits x s :
  Forall (λ c, is_digit c = true) (String.list_ascii_of_string s) →
  Forall (λ c, is_digit c = true) (String.list_ascii_of_string (pretty.pretty_N_go x s)).
Proof.
  revert s. induction (N.lt_wf_0 x) as [x _ IH]; intros s Hs.
  destruct (decide (x = 0)%N) as [->|Hx]; [by rewrite pretty.pretty_N_go_0|].
  rewrite pretty.pretty_N_go_step by lia. apply IH; [by apply N.div_lt; lia|].
  cbn. constructor; [|done]. unfold pretty.pretty_N_char.
  repeat case_match; done.
Qed.

Lemma Itoa_digits n : 0 ≤ n → digits_only (strconv.Itoa n).
Proof.
  intros Hn. destruct n as [|p|p]; [|split|done].
  - split; [done|]. by repeat constructor.
  - by apply (strconv.split_sign_pretty_go (N.pos p) "").
  - apply (pretty_N_go_digits (N.pos p) ""). constructor.
Qed.

(** A version number as the program prints it: [v1.2.3]. *)
Fixpoint dotted (l : list Z) : string :=
  match l with
  | [] => ""
  | n :: l => "." +:+ strconv.Itoa n +:+ dotted l
  end.
Definition print_version (n : Z) (l : list Z) : string := "v" +:+ strconv.Itoa n +:+ dotted l.

Lemma dotted_parts l : Forall (λ n, 0 ≤ n) l → FindAllString (dotted l) = strconv.Itoa <$> l.
Proof.
  induction l as [|n l IH]; [done|]. intros [Hn Hl]%Forall_cons.
  change (FindAllString (strconv.Itoa n +:+ dotted l) = strconv.Itoa n :: (strconv.Itoa <$> l)).
  rewrite FindAllString_run; [by rewrite IH|by apply Itoa_digits|by destruct l].
Qed.

Lemma print_parts n l : 0 ≤ n → Forall (λ n, 0 ≤ n) l →
  FindAllString (print_version n l) = strconv.Itoa <$> n :: l.
Proof.
  intros Hn Hl. change (FindAllString (strconv.Itoa n +:+ dotted l) = strconv.Itoa n :: (strconv.Itoa <$> l)).
  rewrite FindAllString_run; [by rewrite dotted_parts|by apply Itoa_digits|by destruct l].
Qed.

Lemma numbers_Itoa l : Forall (λ n, is_i64 n) l → numbers (strconv.Itoa <$> l) = Some l.
Proof.
  induction 1 as [|n l Hn _ IH]; [done|]. cbn [fmap list_fmap numbers].
  rewrite strconv.Atoi_Itoa by done. change (list_fmap _ _ strconv.Itoa l) with (strconv.Itoa <$> l).
  by rewrite IH.
Qed.

Lemma compare_spec a b :
  match numbers (FindAllString a), numbers (FindAllString b) with
  | Some la, Some lb =>
      ∃ r, CompareVersionStrings a b = Ok r ∧ (r = true ↔ version_ge la lb)
  | _, _ => ∃ e, CompareVersionStrings a b = Err e
  end.
Proof.
  unfold CompareVersionStrings. set (pa := FindAllString a). set (pb := FindAllString b).
  set (d := Z.of_nat (length pa) - Z.of_nat (length pb)).
  assert (∃ n m, (if d <? 0 then pa ++ repeat "0" (Z.to_nat (- d)) else pa) = pa ++ repeat "0" n ∧
    (if 0 <? d then pb ++ repeat "0" (Z.to_nat d) else pb) = pb ++ repeat "0" m ∧
    (length pa + n = length pb + m)%nat) as (n & m & -> & -> & Hl).
  { exists (Z.to_nat (- d)), (Z.to_nat d). unfold d. split; [|split].
    - case_match eqn:E; [done|]. apply Z.ltb_ge in E.
      replace (Z.to_nat _) with 0%nat by lia. cbn. by rewrite app_nil_r.
    - case_match eqn:E; [done|]. apply Z.ltb_ge in E.
      replace (Z.to_nat _) with 0%nat by lia. cbn. by rewrite app_nil_r.
    - lia. }
  pose proof (convert_spec (pa ++ repeat "0" n) (pb ++ repeat "0" m)) as H.
  rewrite !length_app, !repeat_length, !numbers_pad in H. specialize (H Hl).
  destruct (numbers pa) as [la|] eqn:Ea; cbn in H; [|by destruct H as [e ->]; eexists].
  destruct (numbers pb) as [lb|] eqn:Eb; cbn in H; [|by destruct H as [e ->]; eexists].
  rewrite H. eexists. split; [done|]. rewrite compare_entries_spec, version_ge_pad; [done|].
  rewrite !length_app, !repeat_length, <- (numbers_length _ _ Ea), <- (numbers_length _ _ Eb). lia.
Qed.

(** Comparing two version strings is the lexicographic order on the numbers
    in them, in which a missing number is zero: the result says whether the first
    is not smaller at the first position where they differ, and an error is
    returned exactly when a number of either does not fit an int64.  On printed
    versions the numbers are those that were printed. *)
Theorem CompareVersionStrings_lexicographic (a b : string) :
  match numbers (FindAllString a), numbers (FindAllString b) with
  | Some la, Some lb =>
      ∃ r, CompareVersionStrings a b = Ok r ∧ (r = true ↔ version_ge la lb)
  | _, _ => ∃ e, CompareVersionStrings a b = Err e
  end ∧
  (∀ n la m lb, a = print_version n la → b = print_version m lb →
     Forall (λ x, 0 ≤ x < 2 ^ 63) (n :: la) → Forall (λ x, 0 ≤ x < 2 ^ 63) (m :: lb) →
     CompareVersionStrings a b = Ok true ↔ version_ge (n :: la) (m :: lb)).
Proof.
  split; [apply compare_spec|]. intros n la m lb -> -> Ha Hb.
  pose proof (compare_spec (print_version n la) (print_version m lb)) as H.
  assert (∀ n l, Forall (λ x, 0 ≤ x < 2 ^ 63) (n :: l) →
    numbers (FindAllString (print_version n l)) = Some (n :: l)) as Hnum.
  { intros k l Hl. rewrite print_parts.
    - apply numbers_Itoa. eapply Forall_impl; [exact Hl|]. intros x. unfold is_i64. lia.
    - apply Forall_cons in Hl. lia.
    - apply Forall_cons in Hl as [_ Hl]. eapply Forall_impl; [exact Hl|]. cbn. lia. }
  rewrite !Hnum in H by done. destruct H as (r & -> & Hr). split; [by intros [= ->]; apply Hr|].
  intros Hge. f_equal. by apply Hr.
Qed.

Example CompareVersionStrings_lexicographic_witness :
  CompareVersionStrings (print_version 1 [2; 10]) (print_version 1 [3]) ≠ Ok true.
Proof.
  destruct (CompareVersionStrings_lexicographic (print_version 1 [2; 10]) (print_version 1 [3]))
    as [_ H].
  rewrite (H 1 [2; 10] 1 [3] eq_refl eq_refl) by (repeat constructor; lia).
  intros Hge. specialize (Hge 1%nat). revert Hge. cbn. intros Hge.
  assert (3 ≤ 2) by (apply Hge; intros [|[]] Hj; cbn; lia). lia.
Defined.

(** ** The upgrade *)
Section upgrade.
Context {EV : Env}.

Lemma for_each_elem {V} (m : gmap string V) k v : m !! k = Some v → v ∈ for_each m.
Proof.
  intros H%elem_of_map_to_list. unfold for_each. apply list_elem_of_fmap. exists (k, v).
  split; [done|]. by rewrite merge_sort_Permutation.
Qed.

Definition all_finished (w : World) : Prop :=
  ∃ m, swaps w = Some m ∧ ∀ id st, m !! id = Some st → IsFinished (from_stored st) = true.

Lemma wp_HasActiveSwaps w s :
  wp HasActiveSwaps (λ r '(w', s'), s' = s ∧ swaps w' = swaps w ∧ (r = Ok false → all_finished w))
    no_stop (w, s).
Proof.
  unfold HasActiveSwaps, ListAll, with_bucket. do 3 svc_step.
  destruct (ask (hist w) (DbBegin false)) as [e|]; [by do 2 svc_step|]. do 2 svc_step. cbn [record].
  change (swaps (record _ w)) with (swaps w).
  destruct (swaps w) as [m|] eqn:Em; do 2 apply wp_ret; [|done].
  split; [done|]. split; [done|]. intros [= Hex].
  exists m. split; [done|]. intros id st Hid. apply not_false_iff_true. intros Hf.
  enough (existsb (negb ∘ IsFinished) (from_stored <$> for_each m) = true) by congruence.
  apply existsb_exists. exists (from_stored st). split; [|cbn; by rewrite Hf].
  apply list_elem_of_In, list_elem_of_fmap. exists st. split; [done|]. by eapply for_each_elem.
Qed.

(** What a run of [SafeUpgrade] or of a part of it may leave. *)
Definition upgraded (w : World) (b : VersionBucket) (s : SwapService) (r : option error)
    '((w', (b', s')) : World * (VersionBucket * SwapService)) : Prop :=
  s' = s ∧ swaps w' = swaps w ∧
  match r with
  | None => b' = Some (Some version) ∧ (b' = b ∨ all_finished w)
  | Some _ => b' = b
  end.

Lemma wp_SetVersion w0 w b s :
  swaps w = swaps w0 → all_finished w0 →
  wp (SetVersion version) (upgraded w0 b s) no_stop (w, (b, s)).
Proof.
  intros Hw Hall. unfold SetVersion, bucket. do 2 svc_step. destruct (ask _ (DbBegin true)); [by svc_step|].
  do 4 svc_step. cbn [fst]. destruct b as [v|]; [|by svc_step].
  do 2 svc_step. destruct (ask _ (DbPut _)); [by svc_step|].
  do 2 svc_step. destruct (ask _ DbCommit); [by svc_step|]. do 3 svc_step. cbn. auto.
Qed.

Lemma wp_SafeUpgrade (w : World) (b : VersionBucket) (s : SwapService) :
  wp (SafeUpgrade HasActiveSwaps) (upgraded w b s) no_stop (w, (b, s)).
Proof.
  assert (∀ w1 v, swaps w1 = swaps w → wp (
      let? hasActiveSwaps := zoom snd (λ s '(b, _), (b, s)) HasActiveSwaps else e => mret (Some e) in
      if (hasActiveSwaps : bool) then mret (Some (ActiveSwapsError v)) else SetVersion version)
    (upgraded w b s) no_stop (w1, (b, s))) as Hup.
  { intros w1 v Hw1. do 2 svc_step. eapply wp_mono; [apply wp_HasActiveSwaps| |done].
    intros [[]|e] [w2 s2] (-> & Hw2 & Hall); 
      [by apply wp_ret; cbn; rewrite Hw2| |by apply wp_ret; cbn; rewrite Hw2].
    apply wp_SetVersion; [congruence|]. destruct (Hall eq_refl) as (m & Hm & Hf).
    exists m. split; [congruence|done]. }
  unfold SafeUpgrade, GetVersion, bucket. do 3 svc_step.
  destruct (ask _ (DbBegin false)) as [e|]; [|do 4 svc_step; cbn [fst]; destruct b as [[v|]|]];
    svc_step.
  - case_bool_decide; [by apply Hup|by svc_step].
  - case_bool_decide as Hv; [|by apply Hup]. apply wp_ret. subst. cbn. auto.
  - rewrite bool_decide_true by done. by apply Hup.
  - rewrite bool_decide_false by done. by svc_step.
Qed.
(** [SafeUpgrade] with the swap service always ends and never upgrades over a
    running swap: it succeeds only with the version of the program in the bucket,
    it changes the bucket only if every stored swap is finished, and when it
    fails the bucket keeps the version to downgrade to.  The swaps are not
    touched. *)
Theorem SafeUpgrade_safe (w : World) (b : VersionBucket) (s : SwapService) :
  ∃ w' b' r, SafeUpgrade HasActiveSwaps (w, (b, s)) = Ret (w', (b', s)) r ∧
    swaps w' = swaps w ∧
    match r with
    | None => b' = Some (Some version) ∧ (b = Some (Some version) ∨ all_finished w)
    | Some _ => b' = b
    end.
Proof.
  destruct (wp_total _ _ _ (wp_SafeUpgrade w b s)) as ([w' [b' s']] & r & E & -> & Hw & Hr). exists w', b', r.
  split; [done|]. split; [done|]. destruct r; [done|]. destruct Hr as [-> Hr].
  split; [done|]. destruct Hr as [<-|]; auto.
Qed.
End upgrade.
