(* ===== verification/PeerCapability.v ===== *)
(** * Peers and their capabilities (src/peersync/peer.go, capability_snapshot.go)

    A capability is what a peer announces: a protocol version, the assets it
    swaps, whether it allows us, and its premium rates.  The snapshot is its form
    in messages and in the store.  A [time.Time] is [None] when it is the zero
    time and else nanoseconds. *)

From S2P Require Import Prelude GoLib Premium.

(** ** Strings *)
Module unicode.

(** Length of the UTF-8 white space character that starts with the bytes; 0 for none. *)
Definition space_len (s : list Z) : nat :=
  match s with
  | 9 :: _ | 10 :: _ | 11 :: _ | 12 :: _ | 13 :: _ | 32 :: _ => 1%nat
  | 194 :: 133 :: _ | 194 :: 160 :: _ => 2%nat
  | 225 :: 154 :: 128 :: _ => 3%nat
  | 226 :: 128 :: b :: _ =>
      if ((128 <=? b) && (b <=? 138)) || (b =? 168) || (b =? 169) || (b =? 175) then 3%nat else 0%nat
  | 226 :: 129 :: 159 :: _ | 227 :: 128 :: 128 :: _ => 3%nat
  | _ => 0%nat
  end.

(** The same for the bytes in reverse. *)
Definition space_len_rev (s : list Z) : nat :=
  match s with
  | 9 :: _ | 10 :: _ | 11 :: _ | 12 :: _ | 13 :: _ | 32 :: _ => 1%nat
  | 133 :: 194 :: _ | 160 :: 194 :: _ => 2%nat
  | 128 :: 154 :: 225 :: _ | 128 :: 128 :: 227 :: _ | 159 :: 129 :: 226 :: _ => 3%nat
  | b :: 128 :: 226 :: _ =>
      if ((128 <=? b) && (b <=? 138)) || (b =? 168) || (b =? 169) || (b =? 175) then 3%nat else 0%nat
  | _ => 0%nat
  end.

Fixpoint drop_spaces (len : list Z → nat) (fuel : nat) (s : list Z) : list Z :=
  match fuel with
  | O => s
  | S fuel => match len s with O => s | n => drop_spaces len fuel (drop n s) end
  end.

Definition bytes (s : string) : list Z := Z.of_nat ∘ nat_of_ascii <$> String.list_ascii_of_string s.
Definition of_bytes (l : list Z) : string :=
  String.string_of_list_ascii (ascii_of_nat ∘ Z.to_nat <$> l).

(** [strings.TrimSpace]. *)
Definition TrimSpace (s : string) : string :=
  let l := drop_spaces space_len (String.length s) (bytes s) in
  of_bytes (rev (drop_spaces space_len_rev (length l) (rev l))).

(** [strings.ToUpper], exact where the result is ASCII: besides the letters, the
    dotless i (bytes 196 177) and the long s (197 191) have an upper case there. *)
Fixpoint ToUpper (s : string) : string :=
  match s with
  | EmptyString => ""
  | String c rest =>
      let n := nat_of_ascii c in
      let plain := String (if hex.in_range 97 122 n then ascii_of_nat (n - 32) else c) (ToUpper rest) in
      match rest with
      | String d rest' =>
          let m := nat_of_ascii d in
          if ((n =? 196) && (m =? 177))%nat then String "I" (ToUpper rest')
          else if ((n =? 197) && (m =? 191))%nat then String "S" (ToUpper rest')
          else plain
      | EmptyString => plain
      end
  end.
(** [strings.ToLower] of the letters of ASCII; the only other characters with a
    lower case in ASCII are the Kelvin sign and the dotted capital I. *)
Fixpoint ToLower (s : string) : string :=
  match s with
  | EmptyString => ""
  | String c rest =>
      let n := nat_of_ascii c in
      String (if hex.in_range 65 90 n then ascii_of_nat (n + 32) else c) (ToLower rest)
  end.
End unicode.
Import unicode.

(** ** Assets, rates and versions *)
Inductive Asset := AssetUnknown | AssetBTC | AssetLBTC.
#[export] Instance Asset_eq_dec : EqDecision Asset.
Proof. solve_decision. Defined.

Definition NewAsset (value : string) : result Asset :=
  let normalized := ToUpper (TrimSpace value) in
  if bool_decide (normalized = "BTC") then Ok AssetBTC
  else if bool_decide (normalized = "LBTC") then Ok AssetLBTC
  else Err (ErrText ("unsupported asset: " +:+ value)).
Definition Asset_String (a : Asset) : string :=
  match a with AssetBTC => "BTC" | AssetLBTC => "LBTC" | AssetUnknown => "UNKNOWN" end.

Definition MaxPremiumRatePPM : Z := 1000000.
Definition MinPremiumRatePPM : Z := -1000000.
Definition peer_NewPremiumRate (ppm : Z) : result PPM :=
  if (ppm <? MinPremiumRatePPM) || (MaxPremiumRatePPM <? ppm) then
    Err (ErrText ("premium rate out of range: " +:+ strconv.Itoa ppm))
  else Ok (NewPPM ppm).

(** ** Peers *)
Abbreviation PeerID := string.
Definition NewPeerID (value : string) : result PeerID :=
  if bool_decide (value = "") then Err (ErrText "peer ID cannot be empty")
  else if bool_decide (128 < String.length value)%nat then Err (ErrText "peer ID too long")
  else Ok value.

Definition Time : Type := option Z.

(** A nil rate is [None]. *)
Record PeerCapability := mkCapability {
  cap_version : Z;
  cap_supportedAssets : list Asset;
  cap_isPeerAllowed : bool;
  cap_btcSwapIn : option PPM;
  cap_btcSwapOut : option PPM;
  cap_lbtcSwapIn : option PPM;
  cap_lbtcSwapOut : option PPM;
  cap_observedAt : Time;
}.
#[export] Instance eta_capability : Eta PeerCapability := λ c,
  mkCapability (cap_version c) (cap_supportedAssets c) (cap_isPeerAllowed c) (cap_btcSwapIn c)
    (cap_btcSwapOut c) (cap_lbtcSwapIn c) (cap_lbtcSwapOut c) (cap_observedAt c).

(** [now] is the clock that is read. *)
Definition NewPeerCapability (now : Z) (version : Z) (assets : list Asset) (allowed : bool)
    (btcIn btcOut lbtcIn lbtcOut : option PPM) : PeerCapability :=
  mkCapability version assets allowed btcIn btcOut lbtcIn lbtcOut (Some now).

Definition SupportsAsset (c : PeerCapability) (a : Asset) : bool :=
  bool_decide (a ∈ cap_supportedAssets c).

Definition GetPremiumRate (c : PeerCapability) (assetType : AssetType) (operation : OperationType)
    : option PPM :=
  match assetType, operation with
  | BTC, SwapIn => cap_btcSwapIn c
  | BTC, SwapOut => cap_btcSwapOut c
  | LBTC, SwapIn => cap_lbtcSwapIn c
  | LBTC, SwapOut => cap_lbtcSwapOut c
  | _, _ => None
  end.
Definition rate_ppm (rate : option PPM) : Z :=
  match rate with None => 0 | Some r => Premium.ppmValue r end.

(** Go strings: records of older versions may hold any status. *)
Definition PeerStatus : Type := string.
Definition StatusActive : PeerStatus := "active".
Definition StatusInactive : PeerStatus := "inactive".
Definition StatusUnknown : PeerStatus := "unknown".
Definition StatusExpired : PeerStatus := "expired".

Record Peer := mkPeer {
  peer_id : PeerID;
  peer_address : string;
  peer_capability : option PeerCapability;
  peer_status : PeerStatus;
  peer_lastPollAt : Time;
  peer_lastObservedAt : Time;
}.
#[export] Instance eta_peer : Eta Peer := λ p,
  mkPeer (peer_id p) (peer_address p) (peer_capability p) (peer_status p) (peer_lastPollAt p)
    (peer_lastObservedAt p).

Definition NewPeer (id : PeerID) (address : string) : Peer :=
  mkPeer id address None StatusUnknown None None.
Definition UpdateCapability (now : Z) (capability : PeerCapability) (p : Peer) : Peer :=
  p <| peer_capability := Some capability |> <| peer_lastObservedAt := Some now |>
    <| peer_status := StatusActive |>.
Definition MarkAsPolled (now : Z) (p : Peer) : Peer := p <| peer_lastPollAt := Some now |>.

(** [t.Sub(u)], which saturates. *)
Definition time_Sub (now : Z) (t : Time) : Z :=
  match t with
  | None => 2 ^ 63 - 1
  | Some t => Z.max (- 2 ^ 63) (Z.min (2 ^ 63 - 1) (now - t))
  end.

Definition IsExpired (now timeout : Z) (p : Peer) : bool :=
  match peer_lastObservedAt p with
  | None => false
  | Some t => timeout <? time_Sub now (Some t)
  end.
Definition CheckAndUpdateStatus (now timeout : Z) (p : Peer) : Peer :=
  if IsExpired now timeout p then p <| peer_status := StatusExpired |> else p.
Definition IsCompatibleWith (p : Peer) (version : Z) : bool :=
  match peer_capability p with
  | None => false
  | Some c => cap_version c =? version
  end.

(** ** Snapshots *)
Record PeerCapabilitySnapshot := mkSnapshot {
  snap_Version : Z;
  snap_Assets : list string;
  snap_PeerAllowed : bool;
  snap_BTCSwapIn : Z;
  snap_BTCSwapOut : Z;
  snap_LBTCSwapIn : Z;
  snap_LBTCSwapOut : Z;
}.
#[export] Instance eta_snapshot : Eta PeerCapabilitySnapshot := λ s,
  mkSnapshot (snap_Version s) (snap_Assets s) (snap_PeerAllowed s) (snap_BTCSwapIn s)
    (snap_BTCSwapOut s) (snap_LBTCSwapIn s) (snap_LBTCSwapOut s).

Definition SnapshotFromCapability (c : PeerCapability) : PeerCapabilitySnapshot :=
  mkSnapshot (cap_version c) (Asset_String <$> cap_supportedAssets c) (cap_isPeerAllowed c)
    (rate_ppm (GetPremiumRate c BTC SwapIn)) (rate_ppm (GetPremiumRate c BTC SwapOut))
    (rate_ppm (GetPremiumRate c LBTC SwapIn)) (rate_ppm (GetPremiumRate c LBTC SwapOut)).

(** The loop over the symbols, which stops at the first error. *)
Fixpoint parse_assets (symbols : list string) : result (list Asset) :=
  match symbols with
  | [] => Ok []
  | symbol :: symbols =>
      match NewAsset symbol with
      | Err e => Err e
      | Ok asset => match parse_assets symbols with
                    | Err e => Err e
                    | Ok assets => Ok (asset :: assets)
                    end
      end
  end.

Definition ToCapability (now : Z) (s : PeerCapabilitySnapshot) : result PeerCapability :=
  match parse_assets (snap_Assets s) with
  | Err e => Err e
  | Ok assets =>
      match peer_NewPremiumRate (snap_BTCSwapIn s) with
      | Err e => Err e
      | Ok btcIn =>
          match peer_NewPremiumRate (snap_BTCSwapOut s) with
          | Err e => Err e
          | Ok btcOut =>
              match peer_NewPremiumRate (snap_LBTCSwapIn s) with
              | Err e => Err e
              | Ok lbtcIn =>
                  match peer_NewPremiumRate (snap_LBTCSwapOut s) with
                  | Err e => Err e
                  | Ok lbtcOut =>
                      Ok (NewPeerCapability now (snap_Version s) assets (snap_PeerAllowed s)
                            (Some btcIn) (Some btcOut) (Some lbtcIn) (Some lbtcOut))
                  end
              end
          end
      end
  end.

(** ** Records of the store *)
Record peerRecord := mkRecord {
  rec_ID : string;
  rec_Address : string;
  rec_Status : PeerStatus;
  rec_LastPollAt : Time;
  rec_LastSeen : Time;
  rec_snapshot : PeerCapabilitySnapshot;
}.
#[export] Instance eta_record : Eta peerRecord := λ r,
  mkRecord (rec_ID r) (rec_Address r) (rec_Status r) (rec_LastPollAt r) (rec_LastSeen r)
    (rec_snapshot r).

(** The capability fields of a record without a capability. *)
Definition zero_snapshot : PeerCapabilitySnapshot := mkSnapshot 0 [] false 0 0 0 0.

Definition hasCapabilityData (r : peerRecord) : bool :=
  let s := rec_snapshot r in
  negb (snap_Version s =? 0) || bool_decide (snap_Assets s ≠ []) || snap_PeerAllowed s ||
  negb (snap_BTCSwapIn s =? 0) || negb (snap_BTCSwapOut s =? 0) ||
  negb (snap_LBTCSwapIn s =? 0) || negb (snap_LBTCSwapOut s =? 0).

Definition peerToRecord (p : Peer) : peerRecord :=
  mkRecord (peer_id p) (peer_address p) (peer_status p) (peer_lastPollAt p) (peer_lastObservedAt p)
    (match peer_capability p with
     | Some c => SnapshotFromCapability c
     | None => zero_snapshot
     end).

Definition resolvePeerID (r : peerRecord) (fallback : string) : result PeerID :=
  NewPeerID (if bool_decide (rec_ID r = "") then fallback else rec_ID r).

Definition rehydrateCapability (r : peerRecord) : result (option PeerCapability) :=
  if hasCapabilityData r then
    match ToCapability 0 (rec_snapshot r) with
    | Err e => Err e
    | Ok c => Ok (Some (c <| cap_observedAt := rec_LastSeen r |>))
    end
  else Ok None.

Definition toPeer (r : peerRecord) (key : string) : result Peer :=
  match resolvePeerID r key with
  | Err e => Err e
  | Ok id =>
      match rehydrateCapability r with
      | Err e => Err e
      | Ok capability =>
          Ok (mkPeer id (rec_Address r) capability
                (if bool_decide (rec_Status r = "") then StatusUnknown else rec_Status r)
                (rec_LastPollAt r) (rec_LastSeen r))
      end
  end.
