(* ===== verification/SnapshotCodec.v ===== *)
(** * Capability snapshots on the wire (src/peersync/capability_snapshot.go)

    [json.Marshal] and [json.Unmarshal] of a snapshot.  Every field is [omitempty]: a
    node without assets and with all rates at zero announces an empty object.  While a
    document is stored, the memory of the slice of assets is part of the struct, since
    a document may name the key more than once. *)

From S2P Require Import Prelude GoLib Premium PeerCapability Json JsonStruct.
Import utf8.

Module SnapshotFields.
Definition struct : string := "PeerCapabilitySnapshot".
(** The snapshot, and the memory of its slice. *)
Record t := mk { snapshot : PeerCapabilitySnapshot; memory : list string }.
#[export] Instance eta : Eta t := λ x, mk (snapshot x) (memory x).
Definition zero : t := mk zero_snapshot [].

Definition uint64 (name : string) (get : PeerCapabilitySnapshot → Z)
    (set : Z → PeerCapabilitySnapshot → PeerCapabilitySnapshot) : Field t :=
  omitempty (λ x, get (snapshot x) =? 0)
    (uint_field struct name 64 (λ x, get (snapshot x)) (λ z x, x <| snapshot := set z (snapshot x) |>)).
Definition int64 (name : string) (get : PeerCapabilitySnapshot → Z)
    (set : Z → PeerCapabilitySnapshot → PeerCapabilitySnapshot) : Field t :=
  omitempty (λ x, get (snapshot x) =? 0)
    (int64_field struct name (λ x, get (snapshot x)) (λ z x, x <| snapshot := set z (snapshot x) |>)).

Definition fields : list (Field t) := [
  uint64 "version" snap_Version (λ z s, s <| snap_Version := z |>);
  omitempty (λ x, bool_decide (snap_Assets (snapshot x) = []))
    (strings_field struct "assets" (λ x, snap_Assets (snapshot x)) memory
       (λ l b x, mk (snapshot x <| snap_Assets := l |>) b));
  omitempty (λ x, negb (snap_PeerAllowed (snapshot x)))
    (bool_field struct "peer_allowed" (λ x, snap_PeerAllowed (snapshot x))
       (λ b x, x <| snapshot := snapshot x <| snap_PeerAllowed := b |> |>));
  int64 "btc_swap_in_premium_rate_ppm" snap_BTCSwapIn (λ z s, s <| snap_BTCSwapIn := z |>);
  int64 "btc_swap_out_premium_rate_ppm" snap_BTCSwapOut (λ z s, s <| snap_BTCSwapOut := z |>);
  int64 "lbtc_swap_in_premium_rate_ppm" snap_LBTCSwapIn (λ z s, s <| snap_LBTCSwapIn := z |>);
  int64 "lbtc_swap_out_premium_rate_ppm" snap_LBTCSwapOut (λ z s, s <| snap_LBTCSwapOut := z |>)].
End SnapshotFields.
Import SnapshotFields.

Definition snapshot_Marshal (s : PeerCapabilitySnapshot) : result string :=
  Ok (Marshal fields (mk s [])).
(** Into a struct: null changes nothing. *)
Definition snapshot_Unmarshal (b : string) : result PeerCapabilitySnapshot :=
  match Unmarshal fields ("peersync." +:+ struct) zero b with
  | Ok (Some x) => Ok (snapshot x)
  | Ok None => Ok (snapshot zero)
  | Err e => Err e
  end.

(** The fields fit their types. *)
Definition snapshot_typed (s : PeerCapabilitySnapshot) : Prop :=
  is_u64 (snap_Version s) ∧ Forall (λ a, ValidString a = true) (snap_Assets s) ∧
  is_i64 (snap_BTCSwapIn s) ∧ is_i64 (snap_BTCSwapOut s) ∧
  is_i64 (snap_LBTCSwapIn s) ∧ is_i64 (snap_LBTCSwapOut s).

Lemma fields_typed x :
  fields_ok fields x ↔ snapshot_typed (snapshot x) ∧ Forall (λ a, ValidString a = true) (memory x).
Proof.
  unfold fields_ok, fields, snapshot_typed, is_u64. rewrite !Forall_cons, Forall_nil. cbn. tauto.
Qed.

(** A field that is left out would have stored the zero that is there. *)
Ltac omitted :=
  lazymatch goal with
  | |- fill _ _ _ (if ?c then ?a else ?b) = _ =>
      let b' := eval cbn in b in
      replace (if c then a else b) with b'
        by (cbn; repeat case_match; try done; do 2 f_equal; lia)
  end.
Lemma snapshot_roundtrips s b :
  snapshot_typed s → snapshot_Marshal s = Ok b → snapshot_Unmarshal b = Ok s.
Proof.
  intros Hs [= <-]. unfold snapshot_Unmarshal.
  erewrite Unmarshal_Marshal with (t' := mk s (snap_Assets s ++ [])); [done|lawful|names|names| |].
  - apply fields_typed. split; [done|constructor].
  - destruct s as [v l a r1 r2 r3 r4]. unfold fields.
    destruct l, a; repeat (rewrite fill_cons; omitted); done.
Qed.

Lemma fields_sound f : f ∈ fields → sound fields f.
Proof.
  unfold fields, uint64, int64. intros Hf. rewrite !elem_of_cons, elem_of_nil in Hf.
  destruct_or! Hf; subst; try done; intros v x x' Hv [Hs Hm]%fields_typed H; apply fields_typed;
    unfold snapshot_typed in *; destruct_and! Hs; stored H; cbn; split_and!; done.
Qed.
Lemma snapshot_Unmarshal_typed b s : snapshot_Unmarshal b = Ok s → snapshot_typed s.
Proof.
  unfold snapshot_Unmarshal. destruct (Unmarshal _ _ _ _) as [[x|]|] eqn:E; [| |done].
  2: { intros [= <-]. unfold snapshot_typed, is_u64, is_i64. cbn. done. }
  intros [= <-]. apply (fields_typed x).
  apply Unmarshal_sound in E; [done| |by apply fields_typed].
  apply fields_sound.
Qed.

(** ** Examples *)
Example nothing_to_announce : snapshot_Marshal zero_snapshot = Ok "{}".
Proof. vm_compute. reflexivity. Qed.
Example announced :
  snapshot_Marshal (mkSnapshot 7 ["BTC"; "LBTC"] true 0 (-5) 10 1000) =
  Ok (doc "{'version':7,'assets':['BTC','LBTC'],'peer_allowed':true,'btc_swap_out_premium_rate_ppm':-5,'lbtc_swap_in_premium_rate_ppm':10,'lbtc_swap_out_premium_rate_ppm':1000}").
Proof. vm_compute. reflexivity. Qed.
Example null_is_zero : snapshot_Unmarshal "null" = Ok zero_snapshot.
Proof. vm_compute. reflexivity. Qed.
(** null in a list stands for what an earlier list with the same key left in the memory
    of the slice. *)
Example null_in_assets :
  snapshot_Unmarshal (doc "{'assets':['LBTC','BTC'],'ASSETS':['x'],'assets':[null,null,null]}") =
  Ok (zero_snapshot <| snap_Assets := ["x"; "BTC"; ""] |>).
Proof. vm_compute. reflexivity. Qed.
Example rate_too_large :
  snapshot_Unmarshal (doc "{'version':7,'btc_swap_in_premium_rate_ppm':9223372036854775808}") =
  Err (ErrTyped "json.UnmarshalTypeError"
    "json: cannot unmarshal number 9223372036854775808 into Go struct field PeerCapabilitySnapshot.btc_swap_in_premium_rate_ppm of type int64").
Proof. vm_compute. reflexivity. Qed.
