(* ===== verification/PeerSync.v ===== *)
(** * The capability sync (src/peersync)

    [PeerSync] announces the node's capability to its peers and keeps what they
    announce in a bolt bucket: [processMessage] is the message handler,
    [pollPeers] the poller, [cleanupExpired] the sweep.  The handler, the tickers
    and the RPC run side by side; a poll reads all peers first and writes each of
    them back after its message was sent, so it is cut into [poll_begin],
    [poll_peer] and [poll_end], between which others run ([sync_step]).

    The clock, the database, the node and the order of a range over a map are
    questions.  [NewPeerSync] sets every field, so the nil checks are left out, as
    are contexts, tickers and the log. *)

From stdpp Require Import sorting.
From S2P Require Import Prelude GoLib Messages Premium Policy SwapData Timelock Env Store Oracle.
From S2P Require Import PeerCapability SnapshotCodec.

Module SyncRpc.
(** [DbUpdate], [DbView]: the message with which bolt rejects the transaction.
    [CursorWalk]: the keys a cursor yields while its bucket is modified.  [Range]:
    the order of a map range. *)
Inductive Call :=
  | Now
  | DbUpdate
  | DbView
  | DbPremium
  | ListPeers
  | SendCustomMessage (to_ : string) (msgType : Z) (payload : string)
  | CursorWalk (keys : list string)
  | Range (keys : list string).
Definition answer (c : Call) : Type :=
  match c with
  | Now => Z
  | DbUpdate | DbView => option string
  | SendCustomMessage _ _ _ => option error
  | DbPremium => option error * option error
  | ListPeers => result (list string)
  | CursorWalk _ => list string
  | Range l => { l' : list string | l' ≡ₚ l }
  end.
#[export] Instance SCall_eq_dec : EqDecision Call.
Proof. solve_decision. Defined.
End SyncRpc.
Import SyncRpc.

Record CustomMessage := mkCustomMessage {
  msg_From : PeerID;
  msg_Type : MessageType;
  msg_Payload : string;
}.

(** The store, the request times of the poller, and the policy and the premium
    setting of the guard, which may be nil. *)
Record PeerSync := mkPeerSync {
  ps_bucket : option (gmap string peerRecord);
  ps_lastRequestedAt : gmap PeerID Z;
  ps_policy : option Policy;
  ps_premium : option Premium.bucket;
  ps_supportedAssets : list Asset;
  ps_version : Z;
}.
#[export] Instance eta_peersync : Eta PeerSync := λ s,
  mkPeerSync (ps_bucket s) (ps_lastRequestedAt s) (ps_policy s) (ps_premium s)
    (ps_supportedAssets s) (ps_version s).

Fixpoint normalize_loop (symbols : list string) (assets : list Asset) : list Asset :=
  match symbols with
  | [] => assets
  | symbol :: symbols =>
      let s := unicode.TrimSpace symbol in
      if bool_decide (s = "") then normalize_loop symbols assets
      else match NewAsset (unicode.ToUpper s) with
           | Err _ => normalize_loop symbols assets
           | Ok asset =>
               if bool_decide (asset = AssetUnknown ∨ asset ∈ assets) then normalize_loop symbols assets
               else normalize_loop symbols (assets ++ [asset])
           end
  end.
Definition normalizeSupportedAssets (symbols : list string) : list Asset :=
  match normalize_loop symbols [] with
  | [] => [AssetBTC; AssetLBTC]
  | assets => assets
  end.

Definition NewPeerSync (bucket : option (gmap string peerRecord)) (policyCfg : option Policy)
    (supportedAssets : list string) (premiumSetting : option Premium.bucket) : PeerSync :=
  mkPeerSync bucket ∅ policyCfg premiumSetting (normalizeSupportedAssets supportedAssets)
    PEERSWAP_PROTOCOL_VERSION.

(** Durations in nanoseconds. *)
Definition second : Z := 1000000000.
Definition pollInterval : Z := 10 * second.
Definition cleanupTimeout : Z := 30 * 60 * second.
Definition requestPollInterval : Z := 10 * 60 * second.

(** ** guard.go *)
Definition Allow (s : PeerSync) (peer : PeerID) : bool :=
  match ps_policy s with None => true | Some p => IsPeerAllowed p peer end.
Definition Suspicious (s : PeerSync) (peer : PeerID) : bool :=
  match ps_policy s with None => false | Some p => IsPeerSuspicious p peer end.
Definition defaultPremiumRate (asset : AssetType) (operation : OperationType) : Z :=
  match DefaultPremiumRate asset with
  | None => 0
  | Some ratesByAsset => default 0 (ratesByAsset operation)
  end.

(** ** adapters *)

(** [customMessageFrom] of the LND adapter: the peer is bytes, the type a uint32. *)
Definition customMessageFrom (msgType : Z) (peer payload : string) : option CustomMessage :=
  match PeerswapCustomMessageType (strconv.FormatInt16 msgType) with
  | Err _ => None
  | Ok messageType =>
      match NewPeerID (hex.EncodeToString peer) with
      | Err _ => None
      | Ok id => Some (mkCustomMessage id messageType payload)
      end
  end.
(** [PushCustomMessage] of the CLN adapter: both are text. *)
Definition PushCustomMessage (peerID msgType payload : string) : option CustomMessage :=
  match PeerswapCustomMessageType msgType with
  | Err _ => None
  | Ok messageType =>
      match NewPeerID peerID with
      | Err _ => None
      | Ok id => Some (mkCustomMessage id messageType payload)
      end
  end.

(** [MergeCapabilities] of two capabilities. *)
Definition MergeCapabilities (local remote : PeerCapability) : PeerCapability :=
  if cap_version remote <? cap_version local then local else remote.

(** An error of bolt itself. *)
Definition bolt_error (msg : string) : error := ErrTyped "bolt" msg.
Definition ErrPeerNotFound : error := ErrSentinel "peersync.ErrPeerNotFound" "peer not found".
Definition errPollBucketMissing : error :=
  ErrSentinel "peersync.errPollBucketMissing" "poll bucket missing".
Definition ErrKeyRequired : error := ErrSentinel "bbolt.ErrKeyRequired" "key required".

Section sync.
Context {OR : Oracle answer}.
Abbreviation Io := (IO answer PeerSync).

(** ** store.go *)
Definition db_update {A} (f : gmap string peerRecord → Io (result (gmap string peerRecord * A)))
    : Io (result A) :=
  do? query DbUpdate else e => mret (Err (bolt_error e)) in
  s ← look;
  match ps_bucket s with
  | None => mret (Err errPollBucketMissing)
  | Some m =>
      r ← f m;
      match r with
      | Err e => mret (Err e)
      | Ok (m', a) => update (λ s, s <| ps_bucket := Some m' |>);; mret (Ok a)
      end
  end.

Definition SavePeerState (peer : Peer) : Io (option error) :=
  r ← db_update (λ m,
    let key := peer_id peer in
    if bool_decide (key = "") then mret (Err ErrKeyRequired)
    else mret (Ok (<[key := peerToRecord peer]> m, ())));
  mret (match r with Ok _ => None | Err e => Some e end).

Definition GetPeerState (id : PeerID) : Io (result Peer) :=
  do? query DbView else e => mret (Err (bolt_error e)) in
  s ← look;
  match ps_bucket s with
  | None => mret (Err ErrPeerNotFound)
  | Some m =>
      match m !! id with
      | None => mret (Err ErrPeerNotFound)
      | Some record =>
          match toPeer record id with
          | Err e => mret (Err (ErrWrap ("materialize peer " +:+ id +:+ ": " +:+ Error e) e))
          | Ok peer => mret (Ok peer)
          end
      end
  end.

(** [bucket.ForEach] visits the keys in order and stops at an error. *)
Fixpoint to_peers (entries : list (string * peerRecord)) : result (list Peer) :=
  match entries with
  | [] => Ok []
  | (k, record) :: entries =>
      match toPeer record k with
      | Err e => Err (ErrWrap ("materialize peer " +:+ k +:+ ": " +:+ Error e) e)
      | Ok peer => match to_peers entries with
                   | Err e => Err e
                   | Ok peers => Ok (peer :: peers)
                   end
      end
  end.
Definition entries (m : gmap string peerRecord) : list (string * peerRecord) :=
  merge_sort key_le (map_to_list m).

Definition GetAllPeerStates : Io (result (list Peer)) :=
  do? query DbView else e => mret (Err (bolt_error e)) in
  s ← look;
  match ps_bucket s with
  | None => mret (Ok [])
  | Some m => mret (to_peers (entries m))
  end.

Definition RemovePeerState (id : PeerID) : Io (option error) :=
  r ← db_update (λ m, mret (Ok (delete id m, ())));
  mret (match r with Ok _ => None | Err e => Some e end).

(** [processPeerRecord]: the bucket and whether the peer was removed. *)
Definition processPeerRecord (m : gmap string peerRecord) (key : string) (record : peerRecord)
    (timeout : Z) : Io (result (gmap string peerRecord * bool)) :=
  match toPeer record key with
  | Err e => mret (Err (ErrWrap ("materialize peer " +:+ key +:+ ": " +:+ Error e) e))
  | Ok peer =>
      now ← query Now;
      if IsExpired now timeout peer then mret (Ok (delete key m, true))
      else
        now ← query Now;
        let peer := CheckAndUpdateStatus now timeout peer in
        mret (Ok (<[key := peerToRecord peer]> m, false))
  end.

(** [shouldKeepPeer]; the sets of peers are lists here. *)
Definition shouldKeepPeer (key : string) (keepPeers : list PeerID) : bool :=
  bool_decide (keepPeers ≠ []) &&
  match NewPeerID key with
  | Err _ => false
  | Ok peerID => bool_decide (peerID ∈ keepPeers)
  end.

(** The cursor may yield any keys, as the bucket changes under it. *)
Fixpoint cleanup_loop (walk : list string) (keepPeers : list PeerID) (timeout : Z)
    (m : gmap string peerRecord) (removed : Z) : Io (result (gmap string peerRecord * Z)) :=
  match walk with
  | [] => mret (Ok (m, removed))
  | key :: walk =>
      match m !! key with
      | None => cleanup_loop walk keepPeers timeout m removed
      | Some record =>
          if shouldKeepPeer key keepPeers then cleanup_loop walk keepPeers timeout m removed
          else
            r ← processPeerRecord m key record timeout;
            match r with
            | Err e => mret (Err e)
            | Ok (m', removedPeer) =>
                cleanup_loop walk keepPeers timeout m'
                  (if (removedPeer : bool) then removed + 1 else removed)
            end
      end
  end.

Definition CleanupExpiredExcept (timeout : Z) (keepPeers : list PeerID) : Io (result Z) :=
  if timeout <=? 0 then mret (Err (ErrText "timeout must be positive"))
  else
    r ← db_update (λ m,
      walk ← query (CursorWalk (fst <$> entries m));
      cleanup_loop walk keepPeers timeout m 0);
    match r with
    | Err e => if errors_Is e errPollBucketMissing then mret (Ok 0) else mret (Err e)
    | Ok removed => mret (Ok removed)
    end.

(** ** Sending *)
Definition PremiumRate (peer : PeerID) (asset : AssetType) (operation : OperationType) : Io PPM :=
  s ← look;
  match ps_premium s with
  | None => mret (NewPPM (defaultPremiumRate asset operation))
  | Some b =>
      ios ← query DbPremium;
      match Setting_GetRate (fst ios) (snd ios) peer asset operation b with
      | Err _ => mret (NewPPM (defaultPremiumRate asset operation))
      | Ok rate => mret (pr_premiumRate rate)
      end
  end.

Definition localCapabilityForPeer (peer : PeerID) : Io PeerCapability :=
  s ← look;
  btcIn ← PremiumRate peer BTC SwapIn;
  btcOut ← PremiumRate peer BTC SwapOut;
  lbtcIn ← PremiumRate peer LBTC SwapIn;
  lbtcOut ← PremiumRate peer LBTC SwapOut;
  now ← query Now;
  mret (NewPeerCapability now (ps_version s) (ps_supportedAssets s) (Allow s peer)
          (Some btcIn) (Some btcOut) (Some lbtcIn) (Some lbtcOut)).

Definition capabilityToDTO (s : PeerSync) (capability : PeerCapability) (peer : PeerID)
    : PeerCapabilitySnapshot :=
  SnapshotFromCapability capability <| snap_PeerAllowed := Allow s peer |>.

Definition sendCapability (peer : PeerID) (msgType : MessageType) : Io (option error) :=
  capability ← localCapabilityForPeer peer;
  s ← look;
  match snapshot_Marshal (capabilityToDTO s capability peer) with
  | Err e => mret (Some (ErrWrap ("encode capability payload: " +:+ Error e) e))
  | Ok payload => query (SendCustomMessage peer msgType payload)
  end.

Definition RequestPoll (peer : PeerID) : Io (option error) :=
  s ← look;
  if Suspicious s peer then mret None else sendCapability peer MESSAGETYPE_REQUEST_POLL.

(** ** message_handler.go *)
Definition parseCapabilityMessage (msg : CustomMessage) : Io (result PeerCapability) :=
  now ← query Now;
  mret (match snapshot_Unmarshal (msg_Payload msg) with
        | Err e => Err (ErrWrap ("decode capability message: " +:+ Error e) e)
        | Ok payload =>
            match ToCapability now payload with
            | Err e => Err (ErrWrap ("invalid capability payload: " +:+ Error e) e)
            | Ok capability => Ok capability
            end
        end).

Definition findPeer (peerID : PeerID) : Io (result Peer) :=
  r ← GetPeerState peerID;
  mret (match r with
        | Ok peer => Ok peer
        | Err e => if errors_Is e ErrPeerNotFound then Ok (NewPeer peerID "") else Err e
        end).

Definition storeCapabilityMessage (msg : CustomMessage) : Io (option error) :=
  let? capability := parseCapabilityMessage msg else e => mret (Some e) in
  s ← look;
  if Suspicious s (msg_From msg) then mret None
  else
    let? peer := findPeer (msg_From msg)
      else e => mret (Some (ErrWrap ("unknown peer " +:+ msg_From msg +:+ ": " +:+ Error e) e)) in
    let capability := match peer_capability peer with
                      | Some existing => MergeCapabilities existing capability
                      | None => capability
                      end in
    now ← query Now;
    do? SavePeerState (UpdateCapability now capability peer)
      else e => mret (Some (ErrWrap ("failed to store peer state: " +:+ Error e) e)) in
    mret None.

Definition handlePollMessage (msg : CustomMessage) : Io () := storeCapabilityMessage msg;; mret ().

Definition handleRequestPollMessage (msg : CustomMessage) : Io () :=
  s ← look;
  if Suspicious s (msg_From msg) then mret ()
  else storeCapabilityMessage msg;; sendCapability (msg_From msg) MESSAGETYPE_POLL;; mret ().

Definition processMessage (msg : CustomMessage) : Io () :=
  if msg_Type msg =? MESSAGETYPE_POLL then handlePollMessage msg
  else if msg_Type msg =? MESSAGETYPE_REQUEST_POLL then handleRequestPollMessage msg
  else mret ().

(** ** poller.go *)

(** The adapters drop the ids that are not valid. *)
Definition lightning_ListPeers : Io (result (list PeerID)) :=
  let? peers := query ListPeers else e => mret (Err e) in
  mret (Ok (omap (λ p, match NewPeerID p with Ok id => Some id | Err _ => None end) peers)).

Definition connectedPeers : Io (result (list PeerID)) :=
  let? peers := lightning_ListPeers else e => mret (Err e) in
  mret (Ok (remove_dups peers)).

Definition ShouldPoll (now : Z) (peer : Peer) : bool :=
  if bool_decide (peer_status peer = StatusExpired) then false
  else pollInterval <? time_Sub now (peer_lastPollAt peer).

Definition capabilityIsStale (peer : Peer) (now : Z) : bool :=
  match peer_lastObservedAt peer with
  | None => false
  | Some last => cleanupTimeout / 2 <? time_Sub now (Some last)
  end.

(** A poll that is under way: the peers that were read and are still to do. *)
Record Poll := mkPoll {
  poll_force : bool;
  poll_now : Z;
  poll_known : list PeerID;
  poll_rest : list Peer;
}.

Definition poll_begin (force : bool) : Io (option Poll) :=
  let? peers := GetAllPeerStates else e => mret None in
  now ← query Now;
  mret (Some (mkPoll force now (peer_id <$> peers) peers)).

(** The body of the loop for one peer. *)
Definition poll_peer (force : bool) (now : Z) (peer : Peer) : Io () :=
  clock ← query Now;
  if negb force && negb (ShouldPoll clock peer) then mret ()
  else
    s ← look;
    if Suspicious s (peer_id peer) then mret ()
    else
      let msgType := if capabilityIsStale peer now then MESSAGETYPE_REQUEST_POLL
                     else MESSAGETYPE_POLL in
      do? sendCapability (peer_id peer) msgType else e => mret () in
      clock ← query Now;
      SavePeerState (MarkAsPolled clock peer);; mret ().

Definition allowRequest (peerID : PeerID) (now : Z) (force : bool) : Io bool :=
  s ← look;
  if match ps_lastRequestedAt s !! peerID with
     | Some last => negb force && (time_Sub now (Some last) <? requestPollInterval)
     | None => false
     end
  then mret false
  else update (λ s, s <| ps_lastRequestedAt := <[peerID := now]> (ps_lastRequestedAt s) |>);;
       mret true.

Definition pruneRequestTimes (connected : list PeerID) (s : PeerSync) : PeerSync :=
  s <| ps_lastRequestedAt := filter (λ kv, kv.1 ∈ connected) (ps_lastRequestedAt s) |>.

Fixpoint request_loop (peers known : list PeerID) (now : Z) (force : bool) : Io () :=
  match peers with
  | [] => mret ()
  | peerID :: peers =>
      s ← look;
      (if bool_decide (peerID ∈ known) then mret ()
       else if Suspicious s peerID then mret ()
       else
         allowed ← allowRequest peerID now force;
         if (allowed : bool) then sendCapability peerID MESSAGETYPE_REQUEST_POLL;; mret ()
         else mret ());;
      request_loop peers known now force
  end.

Definition requestUnknownConnectedPeers (known : list PeerID) (force : bool) : Io () :=
  let? connected := connectedPeers else e => mret () in
  update (pruneRequestTimes connected);;
  now ← query Now;
  order ← query (Range connected);
  request_loop (proj1_sig order) known now force.

Fixpoint poll_loop (force : bool) (now : Z) (peers : list Peer) : Io () :=
  match peers with
  | [] => mret ()
  | peer :: peers => poll_peer force now peer;; poll_loop force now peers
  end.

Definition pollPeers (force : bool) : Io () :=
  p ← poll_begin force;
  match p with
  | None => mret ()
  | Some p => poll_loop force (poll_now p) (poll_rest p);;
              requestUnknownConnectedPeers (poll_known p) force
  end.

Definition cleanupExpired : Io (option error) :=
  let? connected := connectedPeers
    else e => mret (Some (ErrWrap ("skipping cleanup sweep, list connected peers: " +:+ Error e) e)) in
  let? removed := CleanupExpiredExcept cleanupTimeout connected else e => mret (Some e) in
  mret None.

(** [performInitialSync]; its goroutines only send. *)
Fixpoint initial_loop (peers : list PeerID) : Io () :=
  match peers with
  | [] => mret ()
  | peer :: peers =>
      s ← look;
      (if Suspicious s peer then mret () else RequestPoll peer;; mret ());;
      initial_loop peers
  end.
Definition performInitialSync : Io (option error) :=
  let? peers := lightning_ListPeers else e => mret (Some e) in
  order ← query (Range peers);
  initial_loop (proj1_sig order);; mret None.

(** ** compatibility.go *)
Definition HasCompatiblePeer (peerID : string) : Io bool :=
  match NewPeerID peerID with
  | Err _ => mret false
  | Ok id =>
      let? peer := GetPeerState id else e => mret false in
      s ← look; mret (IsCompatibleWith peer (ps_version s))
  end.
Definition CompatiblePeers : Io (result (gmap string Peer)) :=
  let? peers := GetAllPeerStates else e => mret (Err e) in
  s ← look;
  mret (Ok (foldl (λ m peer, if IsCompatibleWith peer (ps_version s)
                             then <[peer_id peer := peer]> m else m) ∅ peers)).
End sync.

(** ** Runs *)
Record SyncRun := mkSyncRun {
  sr_sync : PeerSync;
  sr_polls : list Poll;
}.
#[export] Instance eta_syncrun : Eta SyncRun := λ r, mkSyncRun (sr_sync r) (sr_polls r).

(** The operations, each uninterrupted; the policy and the premiums are set from
    outside. *)
Inductive Op :=
  | op_lnd_message (msgType : Z) (peer payload : string)
  | op_cln_message (peerID msgType payload : string)
  | op_poll_begin (force : bool)
  | op_poll_peer (i : nat)
  | op_poll_end (i : nat)
  | op_cleanup
  | op_initial_sync
  | op_request (peer : string)
  | op_policy (p : option Policy)
  | op_premium (b : option Premium.bucket).

Section run.
Context {OR : Oracle answer}.
Abbreviation Run := (IO answer SyncRun).

Definition on_sync {A} (m : IO answer PeerSync A) : Run A :=
  focus sr_sync (λ s r, r <| sr_sync := s |>) m.

Definition deliver (msg : option CustomMessage) : Run () :=
  match msg with Some msg => on_sync (processMessage msg) | None => mret () end.

Definition sync_op (op : Op) : Run () :=
  match op with
  | op_lnd_message ty peer payload => deliver (customMessageFrom ty peer payload)
  | op_cln_message peer ty payload => deliver (PushCustomMessage peer ty payload)
  | op_poll_begin force =>
      p ← on_sync (poll_begin force);
      match p with
      | Some p => update (λ r, r <| sr_polls := sr_polls r ++ [p] |>)
      | None => mret ()
      end
  | op_poll_peer i =>
      r ← look;
      match sr_polls r !! i with
      | Some (mkPoll force now known (peer :: rest)) =>
          update (λ r, r <| sr_polls := <[i := mkPoll force now known rest]> (sr_polls r) |>);;
          on_sync (poll_peer force now peer)
      | _ => mret ()
      end
  | op_poll_end i =>
      r ← look;
      match sr_polls r !! i with
      | Some (mkPoll force now known []) =>
          update (λ r, r <| sr_polls := delete i (sr_polls r) |>);;
          on_sync (requestUnknownConnectedPeers known force)
      | _ => mret ()
      end
  | op_cleanup => on_sync cleanupExpired;; mret ()
  | op_initial_sync => on_sync performInitialSync;; mret ()
  | op_request peer =>
      match NewPeerID peer with
      | Ok id => on_sync (RequestPoll id);; mret ()
      | Err _ => mret ()
      end
  | op_policy p => update (λ r, r <| sr_sync := sr_sync r <| ps_policy := p |> |>)
  | op_premium b => update (λ r, r <| sr_sync := sr_sync r <| ps_premium := b |> |>)
  end.

Inductive sync_run (s0 : PeerSync) : Trace answer → SyncRun → Prop :=
  | sync_start : sync_run s0 [] (mkSyncRun s0 [])
  | sync_step t r op t' r' :
      sync_run s0 t r → sync_op op (t, r) = Ret (t', r') () → sync_run s0 t' r'.
End run.
