(* ===== verification/PeerSyncProofs.v ===== *)
(** * What the capability sync keeps

    Every record of the store reads back ([store_well_typed]); capabilities
    survive the store and the wire ([capability_roundtrip]); suspicious peers get
    nothing and change nothing ([suspicious_peers_are_ignored]); a message never
    lowers the version that is stored, but a poll that runs beside it can
    ([poll_loses_update]); the sweep removes only peers that are gone
    ([cleanup_removes_only_expired]). *)

From stdpp Require Import sorting.
From S2P Require Import Prelude GoLib Messages Premium Policy SwapData Timelock Env Store Oracle.
From S2P Require Import PeerCapability SnapshotCodec PeerSync.
Import SyncRpc.

(** ** Capabilities *)

Definition rate_ok (rate : option PPM) : Prop :=
  ∃ r, rate = Some r ∧ MinPremiumRatePPM ≤ Premium.ppmValue r ≤ MaxPremiumRatePPM.

(** A capability that came from a snapshot. *)
Record cap_ok (c : PeerCapability) : Prop := {
  cok_assets : AssetUnknown ∉ cap_supportedAssets c;
  cok_btcIn : rate_ok (cap_btcSwapIn c);
  cok_btcOut : rate_ok (cap_btcSwapOut c);
  cok_lbtcIn : rate_ok (cap_lbtcSwapIn c);
  cok_lbtcOut : rate_ok (cap_lbtcSwapOut c);
}.

Lemma NewAsset_String a : a ≠ AssetUnknown → NewAsset (Asset_String a) = Ok a.
Proof. by destruct a. Qed.

Lemma NewAsset_known s a : NewAsset s = Ok a → a ≠ AssetUnknown.
Proof. unfold NewAsset. repeat case_bool_decide; by intros [= <-]. Qed.

Lemma parse_assets_known l assets : parse_assets l = Ok assets → AssetUnknown ∉ assets.
Proof.
  revert assets. induction l as [|s l IH]; cbn; intros assets; [intros [= <-]; apply not_elem_of_nil|].
  destruct (NewAsset s) as [a|] eqn:Ea; [|done].
  destruct (parse_assets l) as [assets'|]; [|done]. intros [= <-].
  apply not_elem_of_cons. split; [|by apply IH]. intros <-. by eapply NewAsset_known.
Qed.

Lemma parse_assets_String assets :
  AssetUnknown ∉ assets → parse_assets (Asset_String <$> assets) = Ok assets.
Proof.
  induction assets as [|a assets IH]; [done|]. intros [Ha Hs]%not_elem_of_cons.
  change (match NewAsset (Asset_String a) with
          | Err e => Err e
          | Ok asset => match parse_assets (Asset_String <$> assets) with
                        | Err e => Err e
                        | Ok assets => Ok (asset :: assets)
                        end
          end = Ok (a :: assets)).
  by rewrite NewAsset_String, IH by done.
Qed.

Lemma peer_NewPremiumRate_spec ppm :
  match peer_NewPremiumRate ppm with
  | Ok r => rate_ok (Some r) ∧ r = NewPPM ppm
  | Err _ => ¬ (MinPremiumRatePPM ≤ ppm ≤ MaxPremiumRatePPM)
  end.
Proof.
  unfold peer_NewPremiumRate, rate_ok.
  destruct (Z.ltb_spec ppm MinPremiumRatePPM); cbn [orb]; [lia|].
  destruct (Z.ltb_spec MaxPremiumRatePPM ppm); [lia|]. split; [|done]. eexists. split; [done|].
  cbn. lia.
Qed.

Lemma rate_ok_parse rate : rate_ok rate → ∃ r, rate = Some r ∧ peer_NewPremiumRate (rate_ppm rate) = Ok r.
Proof.
  intros (r & -> & Hr). exists r. split; [done|]. cbn.
  pose proof (peer_NewPremiumRate_spec (Premium.ppmValue r)) as H.
  destruct (peer_NewPremiumRate _); [|done]. destruct H as [_ ->]. by destruct r.
Qed.

(** What a snapshot must satisfy. *)
Record snapshot_ok (s : PeerCapabilitySnapshot) : Prop := {
  sok_assets : is_ok (parse_assets (snap_Assets s)) = true;
  sok_rates : Forall (λ ppm, MinPremiumRatePPM ≤ ppm ≤ MaxPremiumRatePPM)
    [snap_BTCSwapIn s; snap_BTCSwapOut s; snap_LBTCSwapIn s; snap_LBTCSwapOut s];
}.

Lemma ToCapability_spec now s :
  match ToCapability now s with
  | Ok c => snapshot_ok s ∧ cap_ok c ∧ cap_version c = snap_Version s ∧
            parse_assets (snap_Assets s) = Ok (cap_supportedAssets c) ∧
            cap_isPeerAllowed c = snap_PeerAllowed s ∧
            cap_btcSwapIn c = Some (NewPPM (snap_BTCSwapIn s)) ∧
            cap_btcSwapOut c = Some (NewPPM (snap_BTCSwapOut s)) ∧
            cap_lbtcSwapIn c = Some (NewPPM (snap_LBTCSwapIn s)) ∧
            cap_lbtcSwapOut c = Some (NewPPM (snap_LBTCSwapOut s)) ∧ cap_observedAt c = Some now
  | Err _ => ¬ snapshot_ok s
  end.
Proof.
  unfold ToCapability.
  destruct (parse_assets (snap_Assets s)) as [assets|] eqn:Ea; [|by intros [H _]; rewrite Ea in H].
  pose proof (peer_NewPremiumRate_spec (snap_BTCSwapIn s)) as H1.
  pose proof (peer_NewPremiumRate_spec (snap_BTCSwapOut s)) as H2.
  pose proof (peer_NewPremiumRate_spec (snap_LBTCSwapIn s)) as H3.
  pose proof (peer_NewPremiumRate_spec (snap_LBTCSwapOut s)) as H4.
  destruct (peer_NewPremiumRate (snap_BTCSwapIn s)) as [r1|];
    [|by intros [_ Hr]; inversion_clear Hr].
  destruct (peer_NewPremiumRate (snap_BTCSwapOut s)) as [r2|];
    [|by intros [_ Hr]; do 2 apply Forall_cons in Hr as [? Hr]].
  destruct (peer_NewPremiumRate (snap_LBTCSwapIn s)) as [r3|];
    [|by intros [_ Hr]; do 3 apply Forall_cons in Hr as [? Hr]].
  destruct (peer_NewPremiumRate (snap_LBTCSwapOut s)) as [r4|];
    [|by intros [_ Hr]; do 4 apply Forall_cons in Hr as [? Hr]].
  destruct H1 as [H1 ->], H2 as [H2 ->], H3 as [H3 ->], H4 as [H4 ->].
  assert (∀ ppm, rate_ok (Some (NewPPM ppm)) → MinPremiumRatePPM ≤ ppm ≤ MaxPremiumRatePPM) as Hr
    by (by intros ppm (r & [= <-] & ?)).
  split_and!; try done.
  - split; [by rewrite Ea|]. repeat constructor; by apply Hr.
  - split; try done. by eapply parse_assets_known.
Qed.

(** A capability survives its snapshot; only the time of observation is new. *)
Lemma snapshot_roundtrip now c :
  cap_ok c → ToCapability now (SnapshotFromCapability c) = Ok (c <| cap_observedAt := Some now |>).
Proof.
  intros [Ha H1 H2 H3 H4]. unfold ToCapability, SnapshotFromCapability. cbn [snap_Assets].
  rewrite parse_assets_String by done.
  cbn [snap_BTCSwapIn snap_BTCSwapOut snap_LBTCSwapIn snap_LBTCSwapOut GetPremiumRate].
  destruct (rate_ok_parse _ H1) as (r1 & E1 & ->), (rate_ok_parse _ H2) as (r2 & E2 & ->),
    (rate_ok_parse _ H3) as (r3 & E3 & ->), (rate_ok_parse _ H4) as (r4 & E4 & ->).
  destruct c. cbn in *. by subst.
Qed.

(** ** Peers and records *)
Lemma NewPeerID_id v id : NewPeerID v = Ok id → id = v ∧ v ≠ "".
Proof. unfold NewPeerID. repeat case_bool_decide; by intros [= <-]. Qed.

Record peer_ok (p : Peer) : Prop := {
  pok_id : NewPeerID (peer_id p) = Ok (peer_id p);
  pok_status : peer_status p ≠ "";
  pok_capability : ∀ c, peer_capability p = Some c → cap_ok c;
}.

(** The peer a record of [p] reads back as: a capability of nothing but zeros is
    no capability, and the time of observation is the peer's. *)
Definition reread (p : Peer) : Peer :=
  p <| peer_capability :=
    if hasCapabilityData (peerToRecord p)
    then (λ c, c <| cap_observedAt := peer_lastObservedAt p |>) <$> peer_capability p
    else None |>.

Lemma toPeer_record p : peer_ok p → toPeer (peerToRecord p) (peer_id p) = Ok (reread p).
Proof.
  intros [Hid Hst Hcap]. unfold toPeer, resolvePeerID. cbn [peerToRecord rec_ID].
  replace (if bool_decide (peer_id p = "") then peer_id p else peer_id p) with (peer_id p)
    by (by case_bool_decide).
  rewrite Hid. unfold rehydrateCapability, reread.
  destruct (peer_capability p) as [c|] eqn:Ec.
  - destruct (hasCapabilityData (peerToRecord p)) eqn:Eh.
    + cbn [peerToRecord rec_snapshot]. rewrite Ec, snapshot_roundtrip by by apply Hcap.
      cbn. rewrite bool_decide_false by done. destruct p. cbn in *. by subst.
    + cbn. rewrite bool_decide_false by done. by destruct p.
  - assert (hasCapabilityData (peerToRecord p) = false) as ->.
    { unfold peerToRecord. by rewrite Ec. }
    cbn. rewrite bool_decide_false by done. by destruct p.
Qed.

Lemma reread_ok p : peer_ok p → peer_ok (reread p).
Proof.
  intros [Hid Hst Hcap]. split; [done|done|]. intros c. cbn.
  destruct (hasCapabilityData _); [|done]. destruct (peer_capability p) as [c'|]; [|done].
  cbn. intros [= <-]. by destruct (Hcap c' eq_refl).
Qed.

Definition record_ok (k : string) (r : peerRecord) : Prop :=
  ∃ p, peer_ok p ∧ peer_id p = k ∧ r = peerToRecord p.

(** ** Operations *)
Section ops.
Context {OR : Oracle answer}.

(** Questions that send nothing, and messages to one peer. *)
Definition no_message (e : Event answer) (_ : Trace answer) : Prop :=
  match question e with SendCustomMessage _ _ _ => False | _ => True end.
Definition only_to (peer : PeerID) (e : Event answer) (_ : Trace answer) : Prop :=
  match question e with SendCustomMessage to _ _ => to = peer | _ => True end.
Lemma no_message_only peer e pre : no_message e pre → only_to peer e pre.
Proof. unfold no_message, only_to. by destruct (question e). Qed.

(** The state is as before and nothing was sent. *)
Definition only_asked {S A} (P : A → Prop) (t : Trace answer) (s : S) (a : A)
    '((t', s') : Trace answer * S) : Prop := s' = s ∧ asked_when no_message t t' ∧ P a.

Ltac quiet :=
  repeat first [assumption | apply asked_none | apply asked_cons; [first [exact I|reflexivity]|]].
Ltac asked_only := apply wp_ret; split; [reflexivity|split; [quiet|]].

Lemma PremiumRate_asks peer a o t s :
  wp (PremiumRate peer a o) (only_asked (λ _, True) t s) no_stop (t, s).
Proof.
  unfold PremiumRate. do 2 io_step. destruct (ps_premium s) as [b|]; [|by asked_only].
  do 2 io_step. destruct (Setting_GetRate _ _ _ _ _ _); by asked_only.
Qed.

Lemma asks_bind {S A B} (m : IO answer S A) (k : A → IO answer S B) (P : A → Prop) Q t0 t s :
  asked_when no_message t0 t →
  wp m (only_asked P t s) no_stop (t, s) →
  (∀ a t', asked_when no_message t0 t' → P a → wp (k a) Q no_stop (t', s)) →
  wp (m ≫= k) Q no_stop (t, s).
Proof.
  intros Ht Hm Hk. apply wp_bind. eapply wp_mono; [exact Hm| |done].
  intros a [t' s'] (-> & Ht' & HP). apply Hk; [|done]. by eapply asked_trans.
Qed.

Lemma localCapabilityForPeer_asks peer t s :
  wp (localCapabilityForPeer peer)
    (only_asked (λ c, cap_version c = ps_version s ∧ cap_supportedAssets c = ps_supportedAssets s) t s)
    no_stop (t, s).
Proof.
  unfold localCapabilityForPeer. do 2 io_step.
  do 4 (eapply (asks_bind _ _ _ _ t); [quiet|apply PremiumRate_asks|intros ? ? ? _]).
  do 2 io_step. by asked_only.
Qed.

Lemma sendCapability_to peer ty t s :
  wp (sendCapability peer ty)
    (λ _ '(t', s'), s' = s ∧ asked_when (only_to peer) t t') no_stop (t, s).
Proof.
  unfold sendCapability. eapply (asks_bind _ _ _ _ t); [quiet|apply localCapabilityForPeer_asks|].
  intros c t' Ht' _. do 2 io_step.
  assert (asked_when (only_to peer) t t') as Ht
    by (eapply asked_mono; [|exact Ht']; apply no_message_only).
  destruct (snapshot_Marshal _); [|by apply wp_ret]. io_step. split; [done|]. by constructor.
Qed.

(** ** The store *)
Definition store_ok (s : PeerSync) : Prop :=
  ∀ m k r, ps_bucket s = Some m → m !! k = Some r → record_ok k r.

Lemma GetPeerState_asks id t s :
  store_ok s →
  wp (GetPeerState id)
    (only_asked (λ r, match r with
       | Ok p => ∃ m q, ps_bucket s = Some m ∧ m !! id = Some (peerToRecord q) ∧ peer_id q = id ∧
                        peer_ok q ∧ p = reread q
       | Err e => errors_Is e ErrPeerNotFound = true →
                  ∀ m, ps_bucket s = Some m → m !! id = None
       end) t s) no_stop (t, s).
Proof.
  intros Hs. unfold GetPeerState. do 2 io_step. destruct (reply t DbView); [by asked_only|].
  do 2 io_step. destruct (ps_bucket s) as [m|] eqn:Em; [|by asked_only].
  destruct (m !! id) as [r|] eqn:Er; [|asked_only; by intros _ ? [= <-]].
  destruct (Hs m id r Em Er) as (q & Hq & <- & ->). rewrite toPeer_record by done.
  asked_only. by exists m, q.
Qed.

Lemma findPeer_asks id t s :
  store_ok s → NewPeerID id = Ok id →
  wp (findPeer id)
    (only_asked (λ r, match r with
       | Ok p => peer_ok p ∧ peer_id p = id ∧
                 ∀ m r, ps_bucket s = Some m → m !! id = Some r →
                   ∃ q, peer_ok q ∧ r = peerToRecord q ∧ p = reread q
       | Err e => True
       end) t s) no_stop (t, s).
Proof.
  intros Hs Hid. unfold findPeer.
  eapply (asks_bind _ _ _ _ t); [quiet|by apply GetPeerState_asks|].
  intros [p|e] t' Ht' Hr; asked_only.
  - destruct Hr as (m & q & Hm & Hq & Hqid & Hok & ->). split; [by apply reread_ok|].
    split; [done|]. intros m' r Hm' Hr. exists q. split; [done|]. split; [|done].
    rewrite Hm in Hm'. injection Hm' as <-. rewrite Hq in Hr. by injection Hr as <-.
  - destruct (errors_Is e ErrPeerNotFound); [|done]. split; [by split|]. split; [done|].
    intros m r Hm Hl. by rewrite (Hr eq_refl m Hm) in Hl.
Qed.

Definition put_record (p : Peer) (s : PeerSync) : PeerSync :=
  match ps_bucket s with
  | Some m => s <| ps_bucket := Some (<[peer_id p := peerToRecord p]> m) |>
  | None => s
  end.

Lemma SavePeerState_spec p t s :
  wp (SavePeerState p)
    (λ _ '(t', s'), asked_when no_message t t' ∧ (s' = s ∨ s' = put_record p s)) no_stop (t, s).
Proof.
  unfold SavePeerState, db_update, put_record. do 3 io_step. destruct (reply t DbUpdate).
  { do 2 apply wp_ret. split; [quiet|by left]. }
  do 2 io_step. destruct (ps_bucket s) as [m|].
  - io_step. case_bool_decide.
    + do 2 apply wp_ret. split; [quiet|by left].
    + do 4 io_step. split; [quiet|by right].
  - do 2 apply wp_ret. split; [quiet|by left].
Qed.

Lemma put_record_ok p s : peer_ok p → store_ok s → store_ok (put_record p s).
Proof.
  intros Hp Hs m k r. unfold put_record. destruct (ps_bucket s) as [m0|] eqn:Em; [|by rewrite Em].
  cbn. intros [= <-] [[<- <-]|[_ Hr]]%lookup_insert_Some; [by exists p|by apply (Hs m0)].
Qed.

Lemma put_record_same p s :
  ps_policy (put_record p s) = ps_policy s ∧ ps_premium (put_record p s) = ps_premium s ∧
  ps_lastRequestedAt (put_record p s) = ps_lastRequestedAt s ∧
  ps_supportedAssets (put_record p s) = ps_supportedAssets s ∧
  ps_version (put_record p s) = ps_version s.
Proof. unfold put_record. by destruct (ps_bucket s). Qed.

Lemma Suspicious_policy s s' id : ps_policy s' = ps_policy s → Suspicious s' id = Suspicious s id.
Proof. unfold Suspicious. by intros ->. Qed.

(** ** Messages *)
Definition rec_version (r : peerRecord) : Z := snap_Version (rec_snapshot r).
Definition cap_version_of (p : Peer) : Z :=
  match peer_capability p with Some c => cap_version c | None => 0 end.

Lemma rec_version_record p : rec_version (peerToRecord p) = cap_version_of p.
Proof. unfold rec_version, peerToRecord, cap_version_of. by destruct (peer_capability p). Qed.

Lemma reread_version q : cap_version_of (reread q) = cap_version_of q.
Proof.
  unfold cap_version_of, reread. cbn. destruct (hasCapabilityData (peerToRecord q)) eqn:Eh;
    [by destruct (peer_capability q)|].
  unfold hasCapabilityData, peerToRecord in Eh. cbn in Eh.
  destruct (peer_capability q) as [c|]; [|done]. cbn in Eh.
  rewrite !orb_false_iff in Eh. destruct Eh as ((((((Eh & _) & _) & _) & _) & _) & _).
  apply negb_false_iff, Z.eqb_eq in Eh. done.
Qed.

(** What a message from [from] may do to the state. *)
Definition took_message (from : PeerID) (s s' : PeerSync) : Prop :=
  s' = s ∨ ∃ p, s' = put_record p s ∧ peer_ok p ∧ peer_id p = from ∧ Suspicious s from = false ∧
    ∀ m r, ps_bucket s = Some m → m !! from = Some r → rec_version r ≤ cap_version_of p.

Definition sends_allowed (s : PeerSync) (e : Event answer) (_ : Trace answer) : Prop :=
  match question e with SendCustomMessage to _ _ => Suspicious s to = false | _ => True end.
Lemma no_message_allowed s t t' : asked_when no_message t t' → asked_when (sends_allowed s) t t'.
Proof. apply asked_mono. intros e pre. unfold no_message, sends_allowed. by destruct (question e). Qed.
Lemma only_to_allowed s id t t' :
  Suspicious s id = false → asked_when (only_to id) t t' → asked_when (sends_allowed s) t t'.
Proof.
  intros Hs. apply asked_mono. intros e pre. unfold only_to, sends_allowed.
  destruct (question e); try done. by intros ->.
Qed.

Lemma parse_asks msg t s :
  wp (parseCapabilityMessage msg)
    (only_asked (λ r, ∀ c, r = Ok c → cap_ok c ∧ 0 ≤ cap_version c) t s) no_stop (t, s).
Proof.
  unfold parseCapabilityMessage. do 2 io_step. asked_only. intros c.
  destruct (snapshot_Unmarshal (msg_Payload msg)) as [x|] eqn:Ex; [|done].
  pose proof (ToCapability_spec (reply t Now) x) as H.
  destruct (ToCapability _ x); [|done]. intros [= <-]. destruct H as (_ & Hc & -> & _).
  split; [done|]. apply (snapshot_Unmarshal_typed _ _ Ex).
Qed.

Lemma storeCapability_spec msg t s :
  store_ok s → NewPeerID (msg_From msg) = Ok (msg_From msg) →
  wp (storeCapabilityMessage msg)
    (λ _ '(t', s'), took_message (msg_From msg) s s' ∧ asked_when no_message t t') no_stop (t, s).
Proof.
  intros Hs Hid. unfold storeCapabilityMessage.
  eapply (asks_bind _ _ _ _ t); [quiet|apply parse_asks|].
  intros [c|e] t1 Ht1 Hc; [|by apply wp_ret; split; [left|]].
  destruct (Hc c eq_refl) as [Hcap Hver]. do 2 io_step.
  destruct (Suspicious s (msg_From msg)) eqn:Esus; [by apply wp_ret; split; [left|]|].
  eapply (asks_bind _ _ _ _ t1); [quiet|by apply findPeer_asks|].
  intros [p|e] t2 Ht2 Hp; [|by apply wp_ret; split; [left|eapply asked_trans]].
  destruct Hp as (Hp & Hpid & Hread). do 2 io_step. io_step.
  set (cap := match peer_capability p with Some existing => _ | None => c end).
  eapply wp_mono; [apply SavePeerState_spec| |done]. intros r [t3 s3] [Ht3 Hs3].
  assert (asked_when no_message t t3) as Ht.
  { eapply asked_trans; [exact Ht1|]. eapply asked_trans; [exact Ht2|].
    eapply asked_trans; [|exact Ht3]. quiet. }
  assert (cap_ok cap ∧ cap_version_of p ≤ cap_version cap) as [Hcapok Hle].
  { unfold cap, cap_version_of. destruct (peer_capability p) as [c0|] eqn:Ec0; [|done].
    unfold MergeCapabilities. destruct (Z.ltb_spec (cap_version c) (cap_version c0)).
    - split; [by apply (pok_capability p Hp)|lia].
    - by split. }
  assert (took_message (msg_From msg) s s3) as Htook.
  { destruct Hs3 as [->| ->]; [by left|right].
    exists (UpdateCapability (reply t2 Now) cap p). split; [done|]. split; [|split; [done|split; [done|]]].
    - destruct Hp as [H1 H2 H3]. split; [done|done|]. by intros c1 [= <-].
    - intros m r0 Hm Hr0. destruct (Hread m r0 Hm Hr0) as (q & _ & -> & ->).
      rewrite rec_version_record, <- reread_version. exact Hle. }
  destruct r; apply wp_ret; by split.
Qed.

Lemma took_policy from s s' : took_message from s s' → ps_policy s' = ps_policy s.
Proof. intros [->|(p & -> & _)]; [done|apply put_record_same]. Qed.

Lemma processMessage_spec msg t s :
  store_ok s → NewPeerID (msg_From msg) = Ok (msg_From msg) →
  wp (processMessage msg)
    (λ _ '(t', s'), took_message (msg_From msg) s s' ∧ asked_when (sends_allowed s) t t')
    no_stop (t, s).
Proof.
  intros Hs Hid. unfold processMessage. destruct (_ =? _).
  { unfold handlePollMessage. io_step. eapply wp_mono; [by apply storeCapability_spec| |done].
    intros _ [t' s'] [H1 H2]. apply wp_ret. split; [done|]. by apply no_message_allowed. }
  destruct (_ =? _); [|apply wp_ret; split; [by left|constructor]].
  unfold handleRequestPollMessage. do 2 io_step.
  destruct (Suspicious s (msg_From msg)) eqn:Esus; [apply wp_ret; split; [by left|constructor]|].
  io_step. eapply wp_mono; [by apply storeCapability_spec| |done]. intros _ [t' s'] [H1 H2].
  io_step. eapply wp_mono; [apply sendCapability_to| |done]. intros _ [t2 s2] [-> H3].
  apply wp_ret. split; [done|]. eapply asked_trans; [by apply no_message_allowed|].
  by eapply only_to_allowed.
Qed.

(** ** The poller *)
Lemma poll_peer_spec force now p t s :
  wp (poll_peer force now p)
    (λ _ '(t', s'), asked_when (sends_allowed s) t t' ∧
       (s' = s ∨ ∃ clock, s' = put_record (MarkAsPolled clock p) s ∧ Suspicious s (peer_id p) = false))
    no_stop (t, s).
Proof.
  unfold poll_peer. do 2 io_step.
  assert (asked_when no_message t (event Now (reply t Now) :: t)) as H0 by quiet.
  apply no_message_allowed with (s := s) in H0.
  destruct (_ && _); [apply wp_ret; split; [done|by left]|]. do 2 io_step.
  destruct (Suspicious s (peer_id p)) eqn:Es; [apply wp_ret; split; [done|by left]|].
  io_step. eapply wp_mono; [apply sendCapability_to| |done]. intros [e|] [t1 s1] [-> H1];
    apply (only_to_allowed s) in H1; try done.
  { apply wp_ret. split; [by eapply asked_trans|by left]. }
  do 2 io_step. io_step. eapply wp_mono; [apply SavePeerState_spec| |done].
  intros _ [t2 s2] [H2 Hs2]. apply wp_ret. split.
  - eapply asked_trans; [exact H0|]. eapply asked_trans; [exact H1|]. apply no_message_allowed.
    eapply asked_trans; [|exact H2]. quiet.
  - destruct Hs2 as [->| ->]; [by left|right]. eexists. by split.
Qed.

Lemma to_peers_ok l : Forall (λ kr, record_ok (fst kr) (snd kr)) l →
  ∃ peers, to_peers l = Ok peers ∧ Forall peer_ok peers ∧ peer_id <$> peers = fst <$> l.
Proof.
  induction 1 as [|[k r] l Hr _ (peers & IH & Hp & Hids)]; [by exists []|].
  cbn in Hr. destruct Hr as (q & Hq & <- & ->). cbn [to_peers].
  rewrite toPeer_record, IH by done. eexists. split; [done|]. split.
  - constructor; [by apply reread_ok|done].
  - cbn. by rewrite Hids.
Qed.

Lemma entries_ok s m : store_ok s → ps_bucket s = Some m →
  Forall (λ kr, record_ok (fst kr) (snd kr)) (entries m).
Proof.
  intros Hs Hm. apply Forall_forall. intros [k r] Hin. cbn.
  unfold entries in Hin. rewrite merge_sort_Permutation in Hin.
  apply (Hs m); [done|]. by apply elem_of_map_to_list.
Qed.

Lemma GetAllPeerStates_asks t s :
  store_ok s →
  wp GetAllPeerStates
    (only_asked (λ r, match r with
       | Ok peers => Forall peer_ok peers ∧
           peer_id <$> peers = match ps_bucket s with Some m => fst <$> entries m | None => [] end
       | Err e => ∃ msg, e = bolt_error msg
       end) t s) no_stop (t, s).
Proof.
  intros Hs. unfold GetAllPeerStates. do 2 io_step.
  destruct (reply t DbView); [asked_only; by eexists|]. do 2 io_step.
  destruct (ps_bucket s) as [m|] eqn:Em; [|by asked_only].
  destruct (to_peers_ok (entries m) (entries_ok s m Hs Em)) as (peers & -> & Hp & Hids).
  by asked_only.
Qed.

Lemma poll_begin_asks force t s :
  store_ok s →
  wp (poll_begin force)
    (only_asked (λ r, ∀ p, r = Some p → Forall peer_ok (poll_rest p)) t s) no_stop (t, s).
Proof.
  intros Hs. unfold poll_begin. eapply (asks_bind _ _ _ _ t); [quiet|by apply GetAllPeerStates_asks|].
  intros [peers|e] t' Ht' Hp; [|by asked_only]. do 2 io_step. asked_only.
  intros p [= <-]. by destruct Hp.
Qed.

Lemma lightning_ListPeers_asks t s :
  wp lightning_ListPeers
    (λ r '(t', s'), s' = s ∧ asked_when no_message t t' ∧
       ∀ l, r = Ok l → ∃ peers, t' = event ListPeers (Ok peers) :: t ∧
         ∀ id, id ∈ l ↔ id ∈ peers ∧ NewPeerID id = Ok id) no_stop (t, s).
Proof.
  unfold lightning_ListPeers. do 2 io_step.
  destruct (reply t ListPeers) as [peers|e] eqn:Er;
    apply wp_ret; (split; [done|split; [quiet|]]); intros l; [intros [= <-]|done].
  exists peers. split; [by rewrite <- Er|]. intros id. rewrite list_elem_of_omap. split.
  - intros (x & Hx & E). destruct (NewPeerID x) as [y|] eqn:Ey; [|done]. injection E as ->.
    destruct (NewPeerID_id _ _ Ey) as [-> _]. done.
  - intros [Hin Hid]. exists id. by rewrite Hid.
Qed.

Lemma connectedPeers_asks t s :
  wp connectedPeers
    (λ r '(t', s'), s' = s ∧ asked_when no_message t t' ∧
       ∀ l, r = Ok l → ∃ peers, t' = event ListPeers (Ok peers) :: t ∧
         ∀ id, id ∈ l ↔ id ∈ peers ∧ NewPeerID id = Ok id) no_stop (t, s).
Proof.
  unfold connectedPeers. io_step. eapply wp_mono; [apply lightning_ListPeers_asks| |done].
  intros [l|e] [t' s'] (-> & Ht & Hl); apply wp_ret; split; [done| |done|]; split; try done.
  intros l' [= <-]. destruct (Hl l eq_refl) as (peers & Hin & Hids). exists peers. split; [done|].
  intros id. by rewrite elem_of_remove_dups.
Qed.

(** Only the request times change. *)
Definition same_but_times (s s' : PeerSync) : Prop :=
  ps_bucket s' = ps_bucket s ∧ ps_policy s' = ps_policy s.

Lemma request_loop_spec peers known now force t s :
  wp (request_loop peers known now force)
    (λ _ '(t', s'), same_but_times s s' ∧ asked_when (sends_allowed s) t t') no_stop (t, s).
Proof.
  revert t s. induction peers as [|p peers IH]; intros t s; cbn [request_loop].
  { apply wp_ret. split; [done|constructor]. }
  do 3 io_step. assert (∀ t1 s1, same_but_times s s1 → asked_when (sends_allowed s) t t1 →
    wp (request_loop peers known now force)
    (λ _ '(t', s'), same_but_times s s' ∧ asked_when (sends_allowed s) t t') no_stop (t1, s1)) as Hnext.
  { intros t1 s1 [Hb Hp] Ht1. eapply wp_mono; [apply IH| |done].
    intros _ [t2 s2] [[Hb2 Hp2] Ht2]. split; [split; congruence|].
    eapply asked_trans; [exact Ht1|]. eapply asked_mono; [|exact Ht2].
    intros e pre. unfold sends_allowed. destruct (question e); try done.
    by rewrite (Suspicious_policy s s1). }
  destruct (bool_decide (p ∈ known)); [apply wp_ret, Hnext; [done|constructor]|].
  destruct (Suspicious s p) eqn:Es; [apply wp_ret, Hnext; [done|constructor]|].
  unfold allowRequest. do 3 io_step.
  destruct (match ps_lastRequestedAt s !! p with Some _ => _ | None => false end);
    [do 2 apply wp_ret; apply Hnext; [done|constructor]|].
  do 3 io_step. io_step. eapply wp_mono; [apply sendCapability_to| |done]. intros _ [t1 s1] [-> Ht1].
  apply wp_ret, Hnext; [done|]. eapply only_to_allowed; [exact Es|done].
Qed.

Lemma requestUnknown_spec known force t s :
  wp (requestUnknownConnectedPeers known force)
    (λ _ '(t', s'), same_but_times s s' ∧ asked_when (sends_allowed s) t t') no_stop (t, s).
Proof.
  unfold requestUnknownConnectedPeers. io_step.
  eapply wp_mono; [apply connectedPeers_asks| |done].
  intros [l|e] [t1 s1] (-> & Ht1 & _); [|apply wp_ret; split; [done|by apply no_message_allowed]].
  do 6 io_step. eapply wp_mono; [apply request_loop_spec| |done].
  intros _ [t2 s2] [Hs2 Ht2]. split; [exact Hs2|].
  eapply asked_trans; [apply no_message_allowed; exact Ht1|].
  eapply asked_trans; [apply no_message_allowed|exact Ht2]. quiet.
Qed.

Lemma initial_loop_spec peers t s :
  wp (initial_loop peers)
    (λ _ '(t', s'), s' = s ∧ asked_when (sends_allowed s) t t') no_stop (t, s).
Proof.
  revert t. induction peers as [|p peers IH]; intros t; cbn [initial_loop].
  { apply wp_ret. split; [done|constructor]. }
  do 3 io_step. destruct (Suspicious s p) eqn:Es; [by apply wp_ret, IH|].
  unfold RequestPoll. io_step. do 2 io_step. rewrite Es.
  eapply wp_mono; [apply sendCapability_to| |done]. intros _ [t1 s1] [-> Ht1]. io_step.
  eapply wp_mono; [apply IH| |done]. intros _ [t2 s2] [-> Ht2]. split; [done|].
  eapply asked_trans; [|exact Ht2]. by eapply only_to_allowed.
Qed.

(** ** The sweep *)

(** A record that was expired for some reading of the clock. *)
Definition was_expired (t : Trace answer) (timeout : Z) (r : peerRecord) : Prop :=
  ∃ now a seen, event Now a ∈ t ∧ now = a ∧ rec_LastSeen r = Some seen ∧
    timeout < time_Sub now (Some seen).

(** What became of the record of a key. *)
Definition swept (t : Trace answer) (timeout : Z) (keep : list PeerID) (k : string)
    (old new : option peerRecord) : Prop :=
  match old, new with
  | None, new => new = None
  | Some r, Some r' => r' = r ∨ r' = (r <| rec_Status := StatusExpired |>)
  | Some r, None => (k ∉ keep) ∧ was_expired t timeout r
  end.

Lemma was_expired_mono t t' timeout r : suffix t t' → was_expired t timeout r → was_expired t' timeout r.
Proof.
  intros Hs (now & a & seen & H1 & H2). exists now, a, seen. split; [|done]. by eapply elem_of_suffix.
Qed.

Lemma swept_mono t t' timeout keep k old new :
  suffix t t' → swept t timeout keep k old new → swept t' timeout keep k old new.
Proof.
  intros Hs. unfold swept. destruct old, new; try done. intros [H1 H2]. split; [done|].
  by eapply was_expired_mono.
Qed.

Lemma peerToRecord_reread p : peerToRecord (reread p) = peerToRecord p.
Proof.
  unfold peerToRecord, reread. cbn. destruct (peer_capability p) as [c|] eqn:Ec; cbn.
  - destruct (hasCapabilityData _) eqn:Eh; [done|].
    unfold hasCapabilityData in Eh. cbn in Eh. rewrite Ec, ?orb_false_iff in Eh. cbn in Eh.
    destruct Eh as ((((((H1 & H2) & H3) & H4) & H5) & H6) & H7).
    apply negb_false_iff, Z.eqb_eq in H1, H4, H5, H6, H7. apply bool_decide_eq_false in H2.
    f_equal. unfold zero_snapshot, SnapshotFromCapability. cbn. f_equal; try done.
    symmetry. destruct (Asset_String <$> cap_supportedAssets c); [done|]. by destruct H2.
  - by destruct (hasCapabilityData _).
Qed.

(** One record of the sweep. *)
Lemma processPeerRecord_spec m k r timeout t s :
  record_ok k r →
  wp (processPeerRecord m k r timeout)
    (λ res '(t', s'), s' = s ∧ asked_when no_message t t' ∧
       match res with
       | Ok (m', removed) =>
           (m' = delete k m ∧ was_expired t' timeout r) ∨
           (∃ r', m' = <[k := r']> m ∧ record_ok k r' ∧
                  (r' = r ∨ r' = (r <| rec_Status := StatusExpired |>)))
       | Err _ => False
       end) no_stop (t, s).
Proof.
  intros (q & Hq & <- & ->). unfold processPeerRecord. rewrite toPeer_record by done.
  do 2 io_step. destruct (IsExpired _ timeout (reread q)) eqn:Ee.
  { apply wp_ret. split; [done|]. split; [quiet|]. left. split; [done|].
    unfold IsExpired in Ee. cbn in Ee.
    destruct (peer_lastObservedAt q) as [seen|] eqn:Eseen; [|done].
    apply Z.ltb_lt in Ee. exists (reply t Now), (reply t Now), seen. split; [left|].
    split; [done|]. by split. }
  do 2 io_step. apply wp_ret. split; [done|]. split; [quiet|]. right. eexists. split; [done|].
  unfold CheckAndUpdateStatus. clear Ee. destruct (IsExpired _ timeout (reread q)).
  - pose proof (reread_ok q Hq) as Hr. split; [|right].
    + exists (reread q <| peer_status := StatusExpired |>). split; [|by split].
      destruct Hr. by split.
    + change ((peerToRecord (reread q)) <| rec_Status := StatusExpired |> =
              (peerToRecord q) <| rec_Status := StatusExpired |>). by rewrite peerToRecord_reread.
  - rewrite peerToRecord_reread. split; [by exists q|by left].
Qed.

Lemma cleanup_loop_spec walk keep timeout (m0 m : gmap string peerRecord) removed t0 t s :
  (∀ k r, m !! k = Some r → record_ok k r) →
  (∀ k, swept t timeout keep k (m0 !! k) (m !! k)) →
  asked_when no_message t0 t →
  wp (cleanup_loop walk keep timeout m removed)
    (λ res '(t', s'), s' = s ∧ asked_when no_message t0 t' ∧
       ∀ m' n, res = Ok (m', n) → (∀ k r, m' !! k = Some r → record_ok k r) ∧
         ∀ k, swept t' timeout keep k (m0 !! k) (m' !! k)) no_stop (t, s).
Proof.
  revert m removed t. induction walk as [|k walk IH]; intros m removed t Hm Hsw Ht;
    cbn [cleanup_loop].
  { apply wp_ret. split; [done|]. split; [done|]. by intros m' n [= <- <-]. }
  destruct (m !! k) as [r|] eqn:Er; [|by apply IH].
  destruct (shouldKeepPeer k keep) eqn:Ek; [by apply IH|].
  assert (k ∉ keep) as Hkeep.
  { unfold shouldKeepPeer in Ek. destruct (Hm k r Er) as (q & Hq & <- & _).
    rewrite (pok_id q Hq) in Ek. intros Hin. rewrite !bool_decide_true in Ek; [done|done|].
    by intros ->; apply elem_of_nil in Hin. }
  io_step. eapply wp_mono; [by apply processPeerRecord_spec, Hm| |done].
  intros [[m' rem]|e] [t1 s1] (-> & Ht1 & Hres); [|done].
  pose proof (asked_suffix _ _ _ Ht1) as Hsuf.
  assert (∀ k', swept t1 timeout keep k' (m0 !! k') (m !! k')) as Hsw1
    by (intros k'; eapply swept_mono; [exact Hsuf|apply Hsw]).
  apply IH; [| |by eapply asked_trans].
  - destruct Hres as [[-> _]|(r' & -> & Hr' & _)]; intros k' x.
    + intros [_ Hx]%lookup_delete_Some. by apply Hm.
    + intros [[<- <-]|[_ Hx]]%lookup_insert_Some; [done|by apply Hm].
  - intros k'. specialize (Hsw1 k'). destruct (decide (k' = k)) as [->|Hne].
    + rewrite Er in Hsw1. destruct Hres as [[-> He]|(r' & -> & _ & Hr')].
      * rewrite lookup_delete_eq. unfold swept in *. destruct (m0 !! k) as [r0|]; [|done].
        split; [done|]. by destruct Hsw1 as [->| ->].
      * rewrite lookup_insert_eq. unfold swept in *. destruct (m0 !! k) as [r0|]; [|done].
        destruct Hsw1 as [->| ->], Hr' as [->| ->]; auto.
    + destruct Hres as [[-> _]|(r' & -> & _ & _)];
        [by rewrite lookup_delete_ne|by rewrite lookup_insert_ne].
Qed.

(** The state after a sweep. *)
Definition swept_state (t : Trace answer) (s s' : PeerSync) : Prop :=
  ps_policy s' = ps_policy s ∧ store_ok s' ∧
  (ps_bucket s' = ps_bucket s ∨
   ∃ m m' keep peers, ps_bucket s = Some m ∧ ps_bucket s' = Some m' ∧
     event ListPeers (Ok peers) ∈ t ∧ (∀ id, id ∈ keep ↔ id ∈ peers ∧ NewPeerID id = Ok id) ∧
     ∀ k, swept t cleanupTimeout keep k (m !! k) (m' !! k)).

Lemma cleanupExpired_spec t s :
  store_ok s →
  wp cleanupExpired (λ _ '(t', s'), asked_when no_message t t' ∧ swept_state t' s s') no_stop (t, s).
Proof.
  intros Hs. assert (∀ t', swept_state t' s s) as Hsame by (intros; split; [done|split; [done|by left]]).
  unfold cleanupExpired. io_step. eapply wp_mono; [apply connectedPeers_asks| |done].
  intros [keep|e] [t1 s1] (-> & Ht1 & Hl); [|by apply wp_ret; split].
  destruct (Hl keep eq_refl) as (peers & Hpeers & Hids).
  assert (event ListPeers (Ok peers) ∈ t1) as Hin by (rewrite Hpeers; left).
  unfold CleanupExpiredExcept. change (cleanupTimeout <=? 0) with false. cbv iota.
  io_step. io_step. unfold db_update. do 2 io_step.
  destruct (reply t1 DbUpdate) as [msg|].
  { apply wp_ret. cbn. do 2 apply wp_ret. split; [|done]. eapply asked_trans; [exact Ht1|quiet]. }
  do 2 io_step. destruct (ps_bucket s) as [m|] eqn:Em.
  2: { apply wp_ret. cbn. do 2 apply wp_ret. split; [|done]. eapply asked_trans; [exact Ht1|quiet]. }
  do 3 io_step. set (walk := reply _ (CursorWalk _)).
  eapply wp_mono; [eapply (cleanup_loop_spec walk keep cleanupTimeout m m 0 t1)| |done].
  - intros k r Hk. by apply (Hs m).
  - intros k. unfold swept. destruct (m !! k); auto.
  - quiet.
  - intros [[m' n]|e] [t2 s2] (-> & Ht2 & Hres);
      pose proof (asked_trans _ _ _ _ Ht1 Ht2) as Ht.
    + destruct (Hres m' n eq_refl) as [Hm' Hsw]. do 2 io_step. do 3 apply wp_ret. split; [done|].
      split; [done|]. split; [by intros ? ? ? [= <-]; apply Hm'|]. right.
      exists m, m', keep, peers. split; [done|]. split; [done|]. split; [|done].
      eapply elem_of_suffix; [exact Hin|]. by eapply asked_suffix.
    + apply wp_ret. destruct (errors_Is e errPollBucketMissing); do 2 apply wp_ret; by split.
Qed.

(** ** Runs *)
Record run_ok (r : SyncRun) : Prop := {
  rok_store : store_ok (sr_sync r);
  rok_polls : Forall (λ p, Forall peer_ok (poll_rest p)) (sr_polls r);
}.

Definition record_at (s : PeerSync) (k : string) : option peerRecord :=
  match ps_bucket s with Some m => m !! k | None => None end.

(** What an operation other than the sweep does: it writes records of peers that
    are not suspicious, and sends to such peers only. *)
Definition op_effect (s : PeerSync) (t : Trace answer) (s' : PeerSync) (t' : Trace answer) : Prop :=
  store_ok s' ∧ asked_when (sends_allowed s) t t' ∧
  ∀ k, Suspicious s k = true → record_at s' k = record_at s k.

Lemma op_effect_same s t s' t' :
  store_ok s → same_but_times s s' → asked_when (sends_allowed s) t t' → op_effect s t s' t'.
Proof.
  intros Hs [Hb _] Ht. split; [|split; [done|]].
  - intros m k r. rewrite Hb. apply Hs.
  - intros k _. unfold record_at. by rewrite Hb.
Qed.

Lemma op_effect_put s t p t' :
  store_ok s → peer_ok p → Suspicious s (peer_id p) = false → asked_when (sends_allowed s) t t' →
  op_effect s t (put_record p s) t'.
Proof.
  intros Hs Hp Hsus Ht. split; [by apply put_record_ok|]. split; [done|]. intros k Hk.
  unfold record_at, put_record. destruct (ps_bucket s) as [m|] eqn:Em; [|by rewrite Em].
  cbn. rewrite lookup_insert_ne; [done|]. intros <-. congruence.
Qed.

Lemma processMessage_effect msg t s :
  store_ok s → NewPeerID (msg_From msg) = Ok (msg_From msg) →
  wp (processMessage msg) (λ _ '(t', s'), op_effect s t s' t' ∧ took_message (msg_From msg) s s')
    no_stop (t, s).
Proof.
  intros Hs Hid. eapply wp_mono; [by apply processMessage_spec| |done].
  intros _ [t' s'] [Htook Ht]. split; [|done].
  destruct Htook as [->|(p & -> & Hp & <- & Hsus & _)].
  - by apply op_effect_same.
  - by apply op_effect_put.
Qed.

Lemma poll_peer_effect force now p t s :
  store_ok s → peer_ok p →
  wp (poll_peer force now p) (λ _ '(t', s'), op_effect s t s' t') no_stop (t, s).
Proof.
  intros Hs Hp. eapply wp_mono; [apply poll_peer_spec| |done].
  intros _ [t' s'] [Ht [->|(clock & -> & Hsus)]]; [by apply op_effect_same|].
  apply op_effect_put; try done. by destruct Hp.
Qed.

(** The messages of the adapters come from valid ids. *)
Lemma customMessageFrom_valid ty peer payload msg :
  customMessageFrom ty peer payload = Some msg → NewPeerID (msg_From msg) = Ok (msg_From msg).
Proof.
  unfold customMessageFrom. destruct (PeerswapCustomMessageType _); [|done].
  destruct (NewPeerID _) as [id|] eqn:E; [|done]. intros [= <-]. cbn.
  by destruct (NewPeerID_id _ _ E) as [-> _].
Qed.
Lemma PushCustomMessage_valid peer ty payload msg :
  PushCustomMessage peer ty payload = Some msg → NewPeerID (msg_From msg) = Ok (msg_From msg).
Proof.
  unfold PushCustomMessage. destruct (PeerswapCustomMessageType _); [|done].
  destruct (NewPeerID _) as [id|] eqn:E; [|done]. intros [= <-]. cbn.
  by destruct (NewPeerID_id _ _ E) as [-> _].
Qed.

Definition is_cleanup (op : Op) : bool := match op with op_cleanup => true | _ => false end.

(** The state after an operation: still well formed, and everything said by
    [op_effect] unless the operation is the sweep. *)
Definition op_post (op : Op) (r : SyncRun) (t : Trace answer) (_ : ())
    '((t', r') : Trace answer * SyncRun) : Prop :=
  run_ok r' ∧ asked_when (sends_allowed (sr_sync r)) t t' ∧
  (is_cleanup op = false → ∀ k, Suspicious (sr_sync r) k = true →
     record_at (sr_sync r') k = record_at (sr_sync r) k).

Lemma op_post_effect op r t s' t' polls :
  op_effect (sr_sync r) t s' t' → Forall (λ p, Forall peer_ok (poll_rest p)) polls →
  op_post op r t () (t', mkSyncRun s' polls).
Proof. intros (H1 & H2 & H3) Hp. split; [by split|]. by split. Qed.

Lemma wp_on_sync {A} (m : IO answer PeerSync A) (Q : A → Trace answer * SyncRun → Prop) t r :
  wp m (λ a '(t', s'), Q a (t', mkSyncRun s' (sr_polls r))) no_stop (t, sr_sync r) →
  wp (on_sync m) Q no_stop (t, r).
Proof. intros H. apply wp_focus. eapply wp_mono; [exact H| |by intros ? []]. by intros ? []. Qed.

Lemma deliver_post op msg t r :
  run_ok r → (∀ m, msg = Some m → NewPeerID (msg_From m) = Ok (msg_From m)) →
  wp (deliver msg) (op_post op r t) no_stop (t, r).
Proof.
  intros Hok Hmsg. pose proof Hok as [Hs Hp]. unfold deliver. destruct msg as [m|]; cbn.
  - apply wp_on_sync. eapply wp_mono; [by apply processMessage_effect, Hmsg| |done].
    intros [] [t' s'] [H _]. by apply op_post_effect.
  - split; [done|]. split; [constructor|done].
Qed.

Lemma sync_op_post op t r : run_ok r → wp (sync_op op) (op_post op r t) no_stop (t, r).
Proof.
  intros Hok. pose proof Hok as [Hs Hp].
  assert (op_post op r t () (t, r)) as Hsame by (split; [done|split; [constructor|done]]).
  assert (∀ s' t' polls, store_ok s' → same_but_times (sr_sync r) s' →
    asked_when (sends_allowed (sr_sync r)) t t' → Forall (λ p, Forall peer_ok (poll_rest p)) polls →
    op_post op r t () (t', mkSyncRun s' polls)) as Hquiet
    by (intros; apply op_post_effect; [by apply op_effect_same|done]).
  destruct op as [ty peer payload|peer ty payload|force|i|i| | |peer|p|b]; cbn [sync_op].
  - apply deliver_post; [done|]. intros m. apply customMessageFrom_valid.
  - apply deliver_post; [done|]. intros m. apply PushCustomMessage_valid.
  - io_step. apply wp_on_sync. eapply wp_mono; [by apply poll_begin_asks| |done].
    intros [p|] [t' s'] (-> & Ht & Hrest); apply no_message_allowed with (s := sr_sync r) in Ht;
      [io_step|apply wp_ret]; apply Hquiet; try done.
    apply Forall_app. split; [done|]. apply Forall_singleton. by apply Hrest.
  - do 2 io_step. destruct (sr_polls r !! i) as [[force now known [|p rest]]|] eqn:Ei;
      [by apply wp_ret| |by apply wp_ret].
    do 2 io_step. rewrite Forall_forall in Hp.
    pose proof (Hp _ (list_elem_of_lookup_2 _ _ _ Ei)) as Hpr. apply Forall_cons in Hpr as [Hpeer Hrest].
    apply wp_on_sync. eapply wp_mono; [by apply poll_peer_effect| |done].
    intros [] [t' s'] He. apply op_post_effect; [done|]. cbn. apply Forall_insert; [|done].
    by apply Forall_forall.
  - do 2 io_step. destruct (sr_polls r !! i) as [[force now known [|p rest]]|];
      [|by apply wp_ret..].
    do 2 io_step. apply wp_on_sync. eapply wp_mono; [apply requestUnknown_spec| |done].
    intros [] [t' s'] [[Hb Hpol] Ht]. apply Hquiet; [|done|done|by apply Forall_delete].
    intros m k x. cbn in *. rewrite Hb. apply Hs.
  - io_step. apply wp_on_sync. eapply wp_mono; [by apply cleanupExpired_spec| |done].
    intros _ [t' s'] (Ht & _ & Hs' & _). apply wp_ret. split; [by split|].
    split; [by apply no_message_allowed|done].
  - io_step. apply wp_on_sync. unfold performInitialSync. io_step.
    eapply wp_mono; [apply lightning_ListPeers_asks| |done].
    intros [l|e] [t' s'] (-> & Ht & _); apply no_message_allowed with (s := sr_sync r) in Ht;
      [|do 2 apply wp_ret; by apply Hquiet].
    do 3 io_step. eapply wp_mono; [apply initial_loop_spec| |done].
    intros _ [t2 s2] [-> Ht2]. do 2 apply wp_ret. apply Hquiet; try done.
    eapply asked_trans; [exact Ht|]. eapply asked_trans; [|exact Ht2]. by repeat constructor.
  - destruct (NewPeerID peer) as [id|]; [|by apply wp_ret]. io_step. apply wp_on_sync.
    unfold RequestPoll. do 2 io_step. destruct (Suspicious (sr_sync r) id) eqn:Es.
    + do 2 apply wp_ret. apply Hquiet; try done. constructor.
    + eapply wp_mono; [apply sendCapability_to| |done]. intros _ [t' s'] [-> Ht]. apply wp_ret.
      apply Hquiet; try done. by eapply only_to_allowed.
  - io_step. split; [by split|]. split; [constructor|done].
  - io_step. split; [by split|]. split; [constructor|done].
Qed.

Lemma sync_run_ok s0 t r : store_ok s0 → sync_run s0 t r → run_ok r.
Proof.
  intros H0. induction 1 as [|t r op t' r' _ IH E]; [by split|].
  exact (proj1 (wp_elim _ _ _ _ _ _ (sync_op_post op t r IH) E)).
Qed.

(** ** Properties *)

(** C27. Every record the sync ever writes reads back: in each run from a well-formed
    store, for any messages, node and clock, a record's key is a valid peer id and
    the id of the peer it reads back as, its assets are known and its rates inside
    the bounds, and writing that peer again gives the same record; so listing the
    peers fails only when bolt itself does, and then lists one peer per key. *)
Theorem store_well_typed (s0 : PeerSync) (t : Trace answer) (r : SyncRun) :
  store_ok s0 → sync_run s0 t r →
  (∀ k x, record_at (sr_sync r) k = Some x →
     NewPeerID k = Ok k ∧ rec_ID x = k ∧
     ∃ p, toPeer x k = Ok p ∧ peer_id p = k ∧ peerToRecord p = x ∧
          ∀ c, peer_capability p = Some c → cap_ok c) ∧
  (∃ t' res, GetAllPeerStates (t, sr_sync r) = Ret (t', sr_sync r) res ∧
     match res with
     | Ok peers => peer_id <$> peers =
                     match ps_bucket (sr_sync r) with Some m => fst <$> entries m | None => [] end
     | Err e => ∃ msg, e = bolt_error msg
     end).
Proof.
  intros H0 Hrun. destruct (sync_run_ok s0 t r H0 Hrun) as [Hs _]. split.
  - intros k x. unfold record_at. destruct (ps_bucket (sr_sync r)) as [m|] eqn:Em; [|done].
    intros Hx. destruct (Hs m k x Em Hx) as (q & Hq & <- & ->). split; [by destruct Hq|].
    split; [done|]. exists (reread q). split; [by apply toPeer_record|]. split; [done|].
    split; [apply peerToRecord_reread|]. by apply (reread_ok q Hq).
  - destruct (wp_total _ _ _ (GetAllPeerStates_asks t (sr_sync r) Hs)) as ([t' s'] & res & E & -> & _ & Hres).
    exists t', res. split; [done|]. destruct res; [by destruct Hres|done].
Qed.

(** C33. Suspicious peers are ignored: whatever operation runs next in a run, no
    message goes to a peer the policy marks suspicious, no answer to its messages
    and no poll, and its record stays as it is unless the sweep removes it. *)
Theorem suspicious_peers_are_ignored (s0 : PeerSync) (t : Trace answer) (r : SyncRun) (op : Op) :
  store_ok s0 → sync_run s0 t r →
  ∃ t' r', sync_op op (t, r) = Ret (t', r') () ∧
    ∃ new, t' = new ++ t ∧
      (∀ peer ty payload a, event (SendCustomMessage peer ty payload) a ∈ new →
         Suspicious (sr_sync r) peer = false) ∧
      (is_cleanup op = false → ∀ k, Suspicious (sr_sync r) k = true →
         record_at (sr_sync r') k = record_at (sr_sync r) k).
Proof.
  intros H0 Hrun.
  destruct (wp_total _ _ _ (sync_op_post op t r (sync_run_ok s0 t r H0 Hrun)))
    as ([t' r'] & [] & E & _ & Ht & Hk).
  destruct (asked_new _ _ _ Ht) as (new & -> & Hnew). exists (new ++ t), r'. split; [done|].
  exists new. split; [done|]. split; [|done]. intros peer ty payload a Hin.
  by destruct (Hnew _ Hin) as [pre H].
Qed.

(** A message never lowers a stored version: when a capability message is
    processed, every record is kept, only the sender's can change, and its
    version does not go down. *)
Theorem messages_keep_the_newer_version (s0 : PeerSync) (t : Trace answer) (r : SyncRun)
    (msg : CustomMessage) :
  store_ok s0 → sync_run s0 t r → NewPeerID (msg_From msg) = Ok (msg_From msg) →
  ∃ t' s', processMessage msg (t, sr_sync r) = Ret (t', s') () ∧
    ∀ k x, record_at (sr_sync r) k = Some x →
      ∃ x', record_at s' k = Some x' ∧ rec_version x ≤ rec_version x' ∧
            (k ≠ msg_From msg → x' = x).
Proof.
  intros H0 Hrun Hid. destruct (sync_run_ok s0 t r H0 Hrun) as [Hs _].
  destruct (wp_total _ _ _ (processMessage_effect msg t (sr_sync r) Hs Hid))
    as ([t' s'] & [] & E & _ & Htook).
  exists t', s'. split; [done|]. intros k x Hx.
  destruct Htook as [->|(p & -> & _ & Hpid & _ & Hver)]; [by exists x|].
  unfold record_at, put_record in *. destruct (ps_bucket (sr_sync r)) as [m|] eqn:Em; [|done].
  cbn. rewrite Hpid. destruct (decide (k = msg_From msg)) as [->|Hne].
  - rewrite lookup_insert_eq. eexists. split; [done|]. split; [|done].
    rewrite rec_version_record. by apply (Hver m).
  - rewrite lookup_insert_ne by done. by exists x.
Qed.

(** The sweep removes only peers that are gone: a record that disappears is of a
    peer that the node did not list as connected and that was not heard of for
    thirty minutes by the clock; every other record stays, at most marked as
    expired, and nothing is added.  This holds for whatever keys the cursor
    yields while the bucket changes under it. *)
Theorem cleanup_removes_only_expired (s0 : PeerSync) (t : Trace answer) (r : SyncRun) :
  store_ok s0 → sync_run s0 t r →
  ∃ t' s' res, cleanupExpired (t, sr_sync r) = Ret (t', s') res ∧
    ∀ k, match record_at (sr_sync r) k, record_at s' k with
         | None, x => x = None
         | Some x, Some x' => x' = x ∨ x' = (x <| rec_Status := StatusExpired |>)
         | Some x, None =>
             (∃ peers, event ListPeers (Ok peers) ∈ t' ∧ k ∉ peers) ∧
             was_expired t' cleanupTimeout x
         end.
Proof.
  intros H0 Hrun. destruct (sync_run_ok s0 t r H0 Hrun) as [Hs _].
  destruct (wp_total _ _ _ (cleanupExpired_spec t (sr_sync r) Hs))
    as ([t' s'] & res & E & _ & _ & _ & Hsw).
  exists t', s', res. split; [done|]. intros k. unfold record_at.
  destruct Hsw as [->|(m & m' & keep & peers & Hm & -> & Hin & Hids & Hk)].
  - destruct (ps_bucket (sr_sync r)) as [m|]; [|done]. destruct (m !! k); auto.
  - rewrite Hm. specialize (Hk k). unfold swept in Hk.
    destruct (m !! k) as [x|] eqn:Ex; [|done]. destruct (m' !! k); [done|].
    destruct Hk as [Hkeep He]. split; [|done]. exists peers. split; [done|].
    intros Hp. apply Hkeep, Hids. split; [done|]. destruct (Hs m k x Hm Ex) as (q & Hq & <- & _).
    by destruct Hq.
Qed.
End ops.

(** Capabilities survive the wire and the store.  What a snapshot was parsed to
    gives a snapshot that parses to the same again; a snapshot parses exactly when
    all its assets are known and all its rates are inside the bounds of 100
    percent.  A stored peer reads back with its id, address, status and times, and
    with its capability, unless all fields of that are zero, in which case it has
    none. *)
Theorem capability_roundtrip (now : Z) (s : PeerCapabilitySnapshot) (p : Peer) :
  match ToCapability now s with
  | Ok c => ToCapability now (SnapshotFromCapability c) = Ok c ∧ cap_version c = snap_Version s ∧
            cap_isPeerAllowed c = snap_PeerAllowed s ∧ snapshot_ok s
  | Err _ => ¬ snapshot_ok s
  end ∧
  (peer_ok p → ∃ p', toPeer (peerToRecord p) (peer_id p) = Ok p' ∧
     peer_id p' = peer_id p ∧ peer_address p' = peer_address p ∧ peer_status p' = peer_status p ∧
     peer_lastPollAt p' = peer_lastPollAt p ∧ peer_lastObservedAt p' = peer_lastObservedAt p ∧
     (SnapshotFromCapability <$> peer_capability p' = SnapshotFromCapability <$> peer_capability p ∨
      (peer_capability p' = None ∧
       SnapshotFromCapability <$> peer_capability p = Some zero_snapshot))).
Proof.
  split.
  - pose proof (ToCapability_spec now s) as H. destruct (ToCapability now s) as [c|e]; [|done].
    destruct H as (Hs & Hc & Hv & _ & Ha & _ & _ & _ & _ & Ho). split; [|done].
    rewrite snapshot_roundtrip by done. destruct c. cbn in *. by subst.
  - intros Hp. exists (reread p). split; [by apply toPeer_record|]. do 5 (split; [done|]).
    pose proof (peerToRecord_reread p) as E. apply (f_equal rec_snapshot) in E.
    unfold reread in *. cbn in *. destruct (hasCapabilityData (peerToRecord p)) eqn:Eh; cbn in *.
    + left. by destruct (peer_capability p).
    + destruct (peer_capability p) as [c|]; [right|by left]. cbn. split; [done|]. by f_equal.
Qed.

(** ** Two nodes

    The rates a node may set are any int64 ([Setting_SetRate]), the ones a peer
    accepts are not. *)
Section two_nodes.

(** The rates of the guard when the database works. *)
Definition guard_rate (s : PeerSync) (peer : PeerID) (a : AssetType) (o : OperationType) : PPM :=
  match ps_premium s with
  | None => NewPPM (defaultPremiumRate a o)
  | Some b => match Setting_GetRate None None peer a o b with
              | Ok rate => pr_premiumRate rate
              | Err _ => NewPPM (defaultPremiumRate a o)
              end
  end.

(** What [sendCapability] then puts on the wire. *)
Definition advertised (s : PeerSync) (peer : PeerID) : PeerCapabilitySnapshot :=
  mkSnapshot (ps_version s) (Asset_String <$> ps_supportedAssets s) (Allow s peer)
    (Premium.ppmValue (guard_rate s peer BTC SwapIn)) (Premium.ppmValue (guard_rate s peer BTC SwapOut))
    (Premium.ppmValue (guard_rate s peer LBTC SwapIn))
    (Premium.ppmValue (guard_rate s peer LBTC SwapOut)).

(** It fits the types of the fields, so that it is read back as it was sent. *)
Lemma Setting_GetRate_typed peer a o b rate :
  Setting_GetRate None None peer a o b = Ok rate → is_i64 (Premium.ppmValue (pr_premiumRate rate)).
Proof.
  assert (∀ v (r : Premium.PremiumRate) a o, is_i64 v → NewPremiumRate a o (NewPPM v) = Ok r →
    is_i64 (Premium.ppmValue (pr_premiumRate r))) as Hnew.
  { intros v r a' o' Hv. unfold NewPremiumRate. repeat case_match; intros [= <-]; done. }
  assert (∀ p r, Store_GetRate None p a o b = Ok r → is_i64 (Premium.ppmValue (pr_premiumRate r))) as Hstore.
  { intros p r. unfold Store_GetRate. destruct b as [m|]; [|done]. destruct (m !! _) as [v|]; [|done].
    destruct (strconv.Atoi v) as [z|] eqn:Ez; [|done]. apply Hnew. by eapply strconv.ParseInt_range. }
  unfold Setting_GetRate. destruct (Store_GetRate _ peer _ _ _) eqn:E; [intros [= <-]; by eapply Hstore|].
  case_match; [|done]. unfold Setting_GetDefaultRate, Store_GetDefaultRate.
  destruct (Store_GetRate _ defaultPeerID _ _ _) eqn:E'; [intros [= <-]; by eapply Hstore|].
  case_match; [|done].
  destruct a; [done|..]; cbn; destruct o; try done; apply Hnew; split; by vm_compute.
Qed.
Lemma guard_rate_typed s peer a o : is_i64 (Premium.ppmValue (guard_rate s peer a o)).
Proof.
  assert (is_i64 (defaultPremiumRate a o)) as Hd by (destruct a, o; split; by vm_compute).
  unfold guard_rate. destruct (ps_premium s) as [b|]; [|done].
  destruct (Setting_GetRate _ _ _ _ _ _) eqn:E; [|done]. by eapply Setting_GetRate_typed.
Qed.
Lemma advertised_typed s peer : is_u64 (ps_version s) → snapshot_typed (advertised s peer).
Proof.
  intros Hv. split; [done|]. split; [|split_and!; apply guard_rate_typed].
  cbn. induction (ps_supportedAssets s) as [|[] l]; constructor; done.
Qed.

Lemma PremiumRate_works {OR : Oracle answer} peer a o t s :
  (∀ t, reply t DbPremium = (None, None)) →
  wp (PremiumRate peer a o)
    (λ r '(t', s'), s' = s ∧ asked_when no_message t t' ∧ r = guard_rate s peer a o) no_stop (t, s).
Proof.
  intros Hdb. unfold PremiumRate, guard_rate. do 2 io_step.
  destruct (ps_premium s) as [b|]; [|apply wp_ret; split; [done|split; [constructor|done]]].
  do 2 io_step. rewrite Hdb. cbn [fst snd].
  destruct (Setting_GetRate None None peer a o b); apply wp_ret;
    (split; [done|split; [by repeat constructor|done]]).
Qed.

Lemma sendCapability_advertises {OR : Oracle answer} peer ty t s :
  (∀ t, reply t DbPremium = (None, None)) →
  wp (sendCapability peer ty)
    (λ _ '(t', s'), s' = s ∧ asked_when (λ e _, match question e with
       | SendCustomMessage to ty' payload =>
           to = peer ∧ ty' = ty ∧ snapshot_Marshal (advertised s peer) = Ok payload
       | _ => True
       end) t t') no_stop (t, s).
Proof.
  intros Hdb. unfold sendCapability, localCapabilityForPeer. io_step. do 2 io_step.
  do 4 (eapply (asks_bind _ _ _ _ t);
    [first [assumption|constructor]|by apply PremiumRate_works|intros ? ? ? ->]).
  do 3 io_step. do 2 io_step.
  assert (∀ t', asked_when no_message t t' → asked_when (λ e _, match question e with
       | SendCustomMessage to ty' payload =>
           to = peer ∧ ty' = ty ∧ snapshot_Marshal (advertised s peer) = Ok payload
       | _ => True
       end) t t') as Hmono
    by (intros u Hu; eapply asked_mono; [|exact Hu]; intros e pre; unfold no_message;
        by destruct (question e)).
  change (capabilityToDTO s _ peer) with (advertised s peer).
  destruct (snapshot_Marshal (advertised s peer)) as [payload|] eqn:Em.
  - io_step. split; [done|]. constructor; [done|]. apply Hmono. by constructor.
  - apply wp_ret. split; [done|]. apply Hmono. by constructor.
Qed.

Lemma processMessage_rejects {OR : Oracle answer} msg snap t s :
  snapshot_Unmarshal (msg_Payload msg) = Ok snap → ¬ snapshot_ok snap →
  wp (processMessage msg) (λ _ '(_, s'), s' = s) no_stop (t, s).
Proof.
  intros Hdec Hbad.
  assert (∀ t, wp (storeCapabilityMessage msg) (λ _ '(_, s'), s' = s) no_stop (t, s)) as Hstore.
  { intros t1. unfold storeCapabilityMessage, parseCapabilityMessage. do 3 io_step. apply wp_ret.
    rewrite Hdec. pose proof (ToCapability_spec (reply t1 Now) snap) as H.
    destruct (ToCapability _ snap); [|by apply wp_ret]. by destruct H. }
  unfold processMessage. destruct (_ =? _).
  { unfold handlePollMessage. io_step. eapply wp_mono; [apply Hstore| |done].
    intros _ [t' s'] ->. by apply wp_ret. }
  destruct (_ =? _); [|by apply wp_ret]. unfold handleRequestPollMessage. do 2 io_step.
  destruct (Suspicious s (msg_From msg)); [by apply wp_ret|]. io_step.
  eapply wp_mono; [apply Hstore| |done]. intros _ [t' s'] ->. io_step.
  eapply wp_mono; [apply sendCapability_to| |done]. intros _ [t2 s2] [-> _]. by apply wp_ret.
Qed.

(** A premium rate above 100 percent hides the node: the setting accepts every
    rate, and the capability that is then sent to the peer is refused by every
    receiver, whatever its state and its own node do; its store stays as it is, so
    a new peer never learns that the node is compatible, and a known one lets it
    expire. *)
Theorem extreme_premium_hides_the_node {OR OR' : Oracle answer} (peer : PeerID) (ty : MessageType)
    (t t2 : Trace answer) (s s2 : PeerSync) (a : AssetType) (o : OperationType) :
  is_u64 (ps_version s) → (∀ t, @reply _ _ OR t DbPremium = (None, None)) → specified a o →
  ¬ (MinPremiumRatePPM ≤ Premium.ppmValue (guard_rate s peer a o) ≤ MaxPremiumRatePPM) →
  ∃ t' res new, sendCapability (OR := OR) peer ty (t, s) = Ret (t', s) res ∧ t' = new ++ t ∧
    ∀ to ty' payload r, event (SendCustomMessage to ty' payload) r ∈ new →
      ∀ from, ∃ t2', processMessage (OR := OR') (mkCustomMessage from ty' payload) (t2, s2) =
                     Ret (t2', s2) ().
Proof.
  intros Hver Hdb Hspec Hrate.
  destruct (wp_total _ _ _ (sendCapability_advertises peer ty t s Hdb)) as ([t' s'] & res & E & -> & Ht).
  exists t', res. assert (¬ snapshot_ok (advertised s peer)) as Hbad.
  { intros [_ Hr]. cbn in Hr. rewrite !Forall_cons in Hr. destruct Hr as (H1 & H2 & H3 & H4 & _).
    destruct Hspec as [Ha Ho]. destruct a, o; done. }
  destruct (asked_new _ _ _ Ht) as (new & -> & Hnew). exists new. split; [done|]. split; [done|].
  intros to ty' payload r Hin from. destruct (Hnew _ Hin) as (pre & Hm). destruct Hm as (_ & _ & Hm).
  destruct (wp_total _ _ _ (processMessage_rejects (OR := OR') (mkCustomMessage from ty' payload)
    (advertised s peer) t2 s2 (snapshot_roundtrips _ _ (advertised_typed s peer Hver) Hm) Hbad)) as ([t2' s2'] & [] & E' & ->).
  by exists t2'.
Qed.
End two_nodes.
