(* ===== verification/SyncAdapters.v ===== *)
(** * The message bus and the lightning adapters of the peer sync
      (src/peersync/message_bus.go, lightning_adapter.go, cln_lightning_adapter.go)

    A subscriber has a channel for eight messages.  [publish] takes the subscribers
    under the lock and sends to them without it, so its rounds interleave with
    everything else; a goroutine per subscriber removes and closes the channel when its
    context ends.  What happens on the bus is part of the record.  Messages come from
    the stream of lnd ([consumeStream]) or from the hook of core lightning
    ([PushCustomMessage]).  A program that ends the context only removes subscribers
    and lets [Recv] fail. *)

From S2P Require Import Prelude GoLib Messages Premium Policy SwapData Timelock Env Oracle.
From S2P Require Import PeerCapability PeerSync.

#[export] Instance CustomMessage_eq_dec : EqDecision CustomMessage.
Proof. solve_decision. Defined.

(** A message as lnd delivers it. *)
Record lnrpc_CustomMessage := mkLnrpcMessage { lm_Type : Z; lm_Peer : string; lm_Data : string }.
#[export] Instance lnrpc_CustomMessage_eq_dec : EqDecision lnrpc_CustomMessage.
Proof. solve_decision. Defined.

Module AdapterRpc.
Inductive BusEvent :=
  | Subscribed (ch : nat)
  | Published (p : nat) (msg : CustomMessage) (to_ : gset nat)
  | Offered (p ch : nat) (msg : CustomMessage) (taken : bool)
  | Removed (ch : nat)
  | Received (ch : nat) (msg : CustomMessage).
Inductive Call :=
  | Bus (e : BusEvent)
  | SubscribeStream
  | Recv (s : nat)
  | LndSend (peer : string) (Type_ : Z) (data : string)
  | LndPeers
  | ClnSend (peerID message : string) (messageType : Z)
  | ClnPeers.
Definition answer (c : Call) : Type :=
  match c with
  | Bus _ => unit
  | SubscribeStream | LndSend _ _ _ | ClnSend _ _ _ => option error
  | Recv _ => result lnrpc_CustomMessage
  | LndPeers => result (list string)
  | ClnPeers => list string
  end.
#[export] Instance BusEvent_eq_dec : EqDecision BusEvent.
Proof. solve_decision. Defined.
#[export] Instance AdapterCall_eq_dec : EqDecision Call.
Proof. solve_decision. Defined.
End AdapterRpc.
Import AdapterRpc.

(** ** message_bus.go *)
Record Chan := mkChan { held : list CustomMessage; is_closed : bool }.
Record messageBus := mkBus {
  channels : gmap nat Chan;
  subscribers : gset nat;
  next_chan : nat;
  publishing : gmap nat (CustomMessage * gset nat);   (* calls of [publish] and the rest of their loop *)
  next_publish : nat;
}.
#[export] Instance eta_chan : Eta Chan := λ c, mkChan (held c) (is_closed c).
#[export] Instance eta_bus : Eta messageBus := λ b,
  mkBus (channels b) (subscribers b) (next_chan b) (publishing b) (next_publish b).
Definition newMessageBus : messageBus := mkBus ∅ ∅ 0 ∅ 0.

Section bus.
Context {OR : Oracle answer}.
Abbreviation Io := (IO answer messageBus).
Definition note (e : BusEvent) : Io () := query (Bus e).

Definition subscribe : Io nat :=
  b ← look;
  let ch := next_chan b in
  note (Subscribed ch);;
  update (λ b, b <| channels := <[ch := mkChan [] false]> (channels b) |>
                 <| subscribers := {[ ch ]} ∪ subscribers b |> <| next_chan := S ch |>);;
  mret ch.

(** Up to the unlock, and one round of the loop. *)
Definition publish (msg : CustomMessage) : Io nat :=
  b ← look;
  let p := next_publish b in
  note (Published p msg (subscribers b));;
  update (λ b, b <| publishing := <[p := (msg, subscribers b)]> (publishing b) |> <| next_publish := S p |>);;
  mret p.
Definition publish_round (p ch : nat) : Io () :=
  b ← look;
  match publishing b !! p, channels b !! ch with
  | Some (msg, rest), Some c =>
      if decide (ch ∈ rest) then
        if is_closed c then panic
        else
          let taken := (length (held c) <? 8)%nat in
          note (Offered p ch msg taken);;
          update (λ b, b <| publishing := <[p := (msg, rest ∖ {[ ch ]})]> (publishing b) |>
                         <| channels := <[ch := if taken then c <| held := held c ++ [msg] |> else c]> (channels b) |>)
      else mret ()
  | _, _ => mret ()
  end.

Definition remove (ch : nat) : Io () :=
  b ← look;
  match channels b !! ch with
  | Some c =>
      if decide (ch ∈ subscribers b) then
        note (Removed ch);;
        update (λ b, b <| subscribers := subscribers b ∖ {[ ch ]} |>
                       <| channels := <[ch := c <| is_closed := true |>]> (channels b) |>)
      else mret ()
  | None => mret ()
  end.

(** The subscriber takes a message, when there is one. *)
Definition receive (ch : nat) : Io () :=
  b ← look;
  match channels b !! ch with
  | Some c =>
      match held c with
      | msg :: l =>
          note (Received ch msg);;
          update (λ b, b <| channels := <[ch := c <| held := l |>]> (channels b) |>)
      | [] => mret ()
      end
  | None => mret ()
  end.

Inductive BusOp := op_subscribe | op_publish (msg : CustomMessage) | op_round (p ch : nat)
  | op_remove (ch : nat) | op_receive (ch : nat).
Definition bus_op (o : BusOp) : Io () :=
  match o with
  | op_subscribe => subscribe;; mret ()
  | op_publish msg => publish msg;; mret ()
  | op_round p ch => publish_round p ch
  | op_remove ch => remove ch
  | op_receive ch => receive ch
  end.
Fixpoint bus_run (ops : list BusOp) : Io () :=
  match ops with
  | [] => mret ()
  | o :: ops => bus_op o;; bus_run ops
  end.
End bus.

(** ** lightning_adapter.go *)
(** The goroutine of a stream: reading, in a call of [publish], or past its loop. *)
Inductive Phase := Reading | Publishing (p : nat) | Leaving.
Record LightningAdapter := mkAdapter {
  has_client : bool;
  bus : messageBus;
  streamStarted : bool;
  streamCancel : option nat;
  streams : gmap nat Phase;
  next_stream : nat;
  canceled : gset nat;
}.
#[export] Instance eta_adapter : Eta LightningAdapter := λ a,
  mkAdapter (has_client a) (bus a) (streamStarted a) (streamCancel a) (streams a) (next_stream a) (canceled a).
Definition NewLightningAdapter (client : bool) : LightningAdapter :=
  mkAdapter client newMessageBus false None ∅ 0 ∅.

Section adapter.
Context {OR : Oracle answer}.
Abbreviation Io := (IO answer LightningAdapter).
Definition on_bus {A} (m : IO answer messageBus A) : Io A := focus bus (λ b a, a <| bus := b |>) m.

Definition no_client : error := ErrText "peersync adapter: client not configured".
Definition SendCustomMessage (to_ : PeerID) (msgType : Z) (payload : string) : Io (option error) :=
  a ← look;
  if negb (has_client a) then mret (Some no_client)
  else
    match hex.DecodeString to_ with
    | (_, Some e) => mret (Some (ErrWrap ("peersync adapter: invalid peer id: " +:+ Error e) e))
    | (peerBytes, None) =>
        if (msgType <? 0) || (2 ^ 32 - 1 <? msgType)
        then mret (Some (ErrText ("peersync adapter: message type " +:+ strconv.Itoa msgType +:+ " out of range")))
        else query (LndSend peerBytes (u32 msgType) payload)
    end.

Definition ensureStream : Io (option error) :=
  a ← look;
  if streamStarted a then mret None
  else
    do? query SubscribeStream else e => mret (Some e) in
    update (λ a, a <| streamStarted := true |> <| streamCancel := Some (next_stream a) |>
                   <| streams := <[next_stream a := Reading]> (streams a) |> <| next_stream := S (next_stream a) |>);;
    mret None.
Definition SubscribeCustomMessages : Io (result nat) :=
  a ← look;
  if negb (has_client a) then mret (Err no_client)
  else
    do? ensureStream else e => mret (Err e) in
    ch ← on_bus subscribe;
    mret (Ok ch).

(** One round of the loop of stream [s], and what follows its loop; any error ends it. *)
Definition consume_item (s : nat) : Io () :=
  a ← look;
  match streams a !! s with
  | Some Reading =>
      let? msg := query (Recv s) else e => update (λ a, a <| streams := <[s := Leaving]> (streams a) |>) in
      match customMessageFrom (lm_Type msg) (lm_Peer msg) (lm_Data msg) with
      | None => mret ()
      | Some customMsg =>
          p ← on_bus (publish customMsg);
          update (λ a, a <| streams := <[s := Publishing p]> (streams a) |>)
      end
  | _ => mret ()
  end.
(** A round of its call of [publish], or the end of it. *)
Definition consume_publish (s ch : nat) : Io () :=
  a ← look;
  match streams a !! s with
  | Some (Publishing p) =>
      match publishing (bus a) !! p with
      | Some (msg, rest) =>
          if decide (rest = ∅) then update (λ a, a <| streams := <[s := Reading]> (streams a) |>)
          else on_bus (publish_round p ch)
      | None => mret ()
      end
  | _ => mret ()
  end.
Definition call_cancel (cancel : option nat) (a : LightningAdapter) : LightningAdapter :=
  match cancel with Some s => a <| canceled := {[ s ]} ∪ canceled a |> | None => a end.
Definition release (a : LightningAdapter) : LightningAdapter :=
  call_cancel (streamCancel a) (a <| streamCancel := None |> <| streamStarted := false |>).
Definition consume_leave (s : nat) : Io () :=
  a ← look;
  match streams a !! s with
  | Some Leaving => update (λ a, release (a <| streams := delete s (streams a) |>))
  | _ => mret ()
  end.
Definition Stop : Io (option error) := update release;; mret None.

(** Peers with an id that is no peer id are left out. *)
Definition peer_ids (l : list string) : list PeerID :=
  omap (λ p, match NewPeerID p with Ok id => Some id | Err _ => None end) l.
Definition ListPeers : Io (result (list PeerID)) :=
  a ← look;
  if negb (has_client a) then mret (Err no_client)
  else
    let? resp := query LndPeers else e => mret (Err e) in
    mret (Ok (peer_ids resp)).

Inductive AdapterOp := op_SubscribeCustomMessages | op_item (s : nat) | op_publish_round (s ch : nat)
  | op_leave (s : nat) | op_Stop | op_removed (ch : nat) | op_take (ch : nat).
Definition adapter_op (o : AdapterOp) : Io () :=
  match o with
  | op_SubscribeCustomMessages => SubscribeCustomMessages;; mret ()
  | op_item s => consume_item s
  | op_publish_round s ch => consume_publish s ch
  | op_leave s => consume_leave s
  | op_Stop => Stop;; mret ()
  | op_removed ch => on_bus (remove ch)
  | op_take ch => on_bus (receive ch)
  end.
Fixpoint adapter_run (ops : list AdapterOp) : Io () :=
  match ops with
  | [] => mret ()
  | o :: ops => adapter_op o;; adapter_run ops
  end.
End adapter.

(** ** cln_lightning_adapter.go: the bus and whether there is a client *)
Module ClnAdapter.
Section adapter.
Context {OR : Oracle answer}.
Abbreviation Io := (IO answer messageBus).
Definition no_client : error := ErrText "peersync cln adapter: client not configured".

Definition SendCustomMessage (client : bool) (to_ : PeerID) (msgType : Z) (payload : string) : Io (option error) :=
  if negb client then mret (Some no_client) else query (ClnSend to_ payload msgType).
Definition SubscribeCustomMessages (client : bool) : Io (result nat) :=
  if negb client then mret (Err no_client) else ch ← subscribe; mret (Ok ch).
(** Up to the unlock in [publish]. *)
Definition push (peerID msgType payload : string) : Io (option nat) :=
  match PushCustomMessage peerID msgType payload with
  | Some msg => p ← publish msg; mret (Some p)
  | None => mret None
  end.
Definition ListPeers (client : bool) : Io (result (list PeerID)) :=
  if negb client then mret (Err no_client) else peerIDs ← query ClnPeers; mret (Ok (peer_ids peerIDs)).
End adapter.
End ClnAdapter.

(** ** What the bus guarantees *)

(** What channel [ch] was given and what was taken from it, oldest first. *)
Definition given_on (ch : nat) (e : Event answer) : option CustomMessage :=
  match question e with
  | Bus (Offered _ c msg true) => if decide (c = ch) then Some msg else None
  | _ => None
  end.
Definition taken_on (ch : nat) (e : Event answer) : option CustomMessage :=
  match question e with
  | Bus (Received c msg) => if decide (c = ch) then Some msg else None
  | _ => None
  end.
Definition given (ch : nat) (t : list (Event answer)) : list CustomMessage := reverse (omap (given_on ch) t).
Definition taken (ch : nat) (t : list (Event answer)) : list CustomMessage := reverse (omap (taken_on ch) t).
(** The offers of publication [p] to [ch]. *)
Definition is_offer (p ch : nat) (e : Event answer) : bool :=
  match question e with
  | Bus (Offered q c _ _) => bool_decide (q = p) && bool_decide (c = ch)
  | _ => false
  end.
Definition offers (p ch : nat) (t : list (Event answer)) : nat := length (filter (λ e, is_offer p ch e = true) t).

#[local] Arguments given : simpl never.
#[local] Arguments taken : simpl never.
#[local] Arguments offers : simpl never.

(** An offer is one of a publication to one of its subscribers, and it is refused only
    when the channel is full. *)
Definition offer_guard (e : Event answer) (pre : Trace answer) : Prop :=
  match question e with
  | Bus (Offered p ch msg ok) =>
      (∃ to_, event (Bus (Published p msg to_)) () ∈ pre ∧ ch ∈ to_) ∧
      (ok = false → length (given ch pre) = (8 + length (taken ch pre))%nat)
  | _ => True
  end.
(** Subscriber [ch] was removed while [p] had it before it. *)
Definition removed_during (p ch : nat) (t : Trace answer) : Prop :=
  ∃ t1 t2 msg to_, t = t1 ++ event (Bus (Removed ch)) () :: t2 ∧
    event (Bus (Published p msg to_)) () ∈ t2 ∧ ch ∈ to_.

Record bus_ok (t : Trace answer) (b : messageBus) : Prop := {
  chan_ok ch c : channels b !! ch = Some c →
    (ch < next_chan b)%nat ∧ given ch t = taken ch t ++ held c ∧ (length (held c) ≤ 8)%nat ∧
    (is_closed c = true ↔ ch ∉ subscribers b);
  chan_new ch : channels b !! ch = None → given ch t = [] ∧ taken ch t = [];
  chan_next ch : (next_chan b ≤ ch)%nat → channels b !! ch = None;
  sub_known ch : ch ∈ subscribers b → is_Some (channels b !! ch);
  pub_ok p msg to_ : event (Bus (Published p msg to_)) () ∈ t → ∃ rest,
    publishing b !! p = Some (msg, rest) ∧ rest ⊆ to_ ∧
    ∀ ch, offers p ch t = if decide (ch ∈ to_ ∖ rest) then 1%nat else 0%nat;
  pub_known p msg rest : publishing b !! p = Some (msg, rest) →
    (p < next_publish b)%nat ∧ (∃ to_, event (Bus (Published p msg to_)) () ∈ t ∧ rest ⊆ to_) ∧
    ∀ ch, ch ∈ rest → is_Some (channels b !! ch) ∧ (ch ∉ subscribers b → removed_during p ch t);
  pub_new p ch : publishing b !! p = None → offers p ch t = 0%nat;
  bus_guarded : asked_when offer_guard [] t;
}.

Lemma reverse_omap_cons {A B} (f : A → option B) x l :
  reverse (omap f (x :: l)) = reverse (omap f l) ++ option_list (f x).
Proof.
  change (omap f (x :: l)) with (match f x with Some y => y :: omap f l | None => omap f l end).
  destruct (f x); cbn [option_list]; [by rewrite reverse_cons|by rewrite app_nil_r].
Qed.
Lemma given_cons ch e t : given ch (e :: t) = given ch t ++ option_list (given_on ch e).
Proof. apply reverse_omap_cons. Qed.
Lemma taken_cons ch e t : taken ch (e :: t) = taken ch t ++ option_list (taken_on ch e).
Proof. apply reverse_omap_cons. Qed.
Lemma offers_cons p ch e t : offers p ch (e :: t) = ((if is_offer p ch e then 1 else 0) + offers p ch t)%nat.
Proof.
  unfold offers. rewrite filter_cons. destruct (is_offer p ch e); case_decide; done.
Qed.
Lemma removed_cons p ch e t : removed_during p ch t → removed_during p ch (e :: t).
Proof. intros (t1 & t2 & msg & to_ & -> & ? & ?). by exists (e :: t1), t2, msg, to_. Qed.

Lemma event_inj_question (q q' : Call) a a' : event q a = event (A := answer) q' a' → q = q'.
Proof. by intros [= ->]. Qed.

Definition is_published (e : Event answer) : bool :=
  match question e with Bus (Published _ _ _) => true | _ => false end.

(** An event that is neither an offer, nor a receipt, nor a publication. *)
Definition silent (e : Event answer) : bool :=
  match question e with Bus (Published _ _ _ | Offered _ _ _ _ | Received _ _) => false | _ => true end.
Lemma ok_silent e t b : silent e = true → bus_ok t b → bus_ok (e :: t) b.
Proof.
  intros He [H1 H2 H3 H4 H5 H6 H7 H8].
  assert (∀ ch, given ch (e :: t) = given ch t ∧ taken ch (e :: t) = taken ch t ∧
            ∀ p, offers p ch (e :: t) = offers p ch t ∧ ∀ msg to_, e ≠ event (Bus (Published p msg to_)) ()) as Hs.
  { intros ch. rewrite given_cons, taken_cons. unfold given_on, taken_on.
    split_and!; [| |intros p; rewrite offers_cons; unfold is_offer; split].
    1-3: unfold silent in He; destruct (question e) as [[]| | | | | |]; cbn in *; try done; by rewrite ?app_nil_r.
    intros msg to_ ->. done. }
  split.
  - intros ch c Hc. destruct (Hs ch) as (-> & -> & _). auto.
  - intros ch Hc. destruct (Hs ch) as (-> & -> & _). auto.
  - done.
  - done.
  - intros p msg to_ [Heq|Hin]%elem_of_cons; [destruct (Hs 0%nat) as (_ & _ & Hp); destruct (Hp p) as [_ Hn]; by destruct (Hn msg to_)|].
    destruct (H5 _ _ _ Hin) as (rest & Hr & Hsub & Ho). exists rest. split; [done|]. split; [done|].
    intros ch. destruct (Hs ch) as (_ & _ & Hp). destruct (Hp p) as [-> _]. apply Ho.
  - intros p msg rest Hp. destruct (H6 _ _ _ Hp) as (? & (to_ & ? & ?) & Hr). split; [done|].
    split; [exists to_; split; [by right|done]|]. intros ch Hch. destruct (Hr ch Hch) as [? Hrem]. split; [done|].
    intros Hns. by apply removed_cons, Hrem.
  - intros p ch Hp. destruct (Hs ch) as (_ & _ & Hq). destruct (Hq p) as [-> _]. auto.
  - constructor; [|done]. unfold offer_guard, silent in *. destruct (question e) as [[]| | | | | |]; done.
Qed.

(** A step does not stop, except by an offer on a channel that was closed meanwhile. *)
Definition crashed (k : stop) (t : Trace answer) : Prop :=
  k = Panicked ∧ ∃ p ch, removed_during p ch t.

Section steps.
Context {OR : Oracle answer}.
Implicit Types (t : Trace answer) (b : messageBus).
Abbreviation keeps m t b :=
  (wp m (λ _ '(t', b'), bus_ok t' b') (λ k '(t', _), crashed k t') (t, b)).

Lemma note_event e t : event (Bus e) (reply t (Bus e)) = event (Bus e) () :> Event answer.
Proof. by destruct (reply t (Bus e)). Qed.

Lemma subscribe_ok t b :
  bus_ok t b →
  wp subscribe (λ ch '(t', b'), bus_ok t' b' ∧ publishing b' = publishing b) (λ k '(t', _), crashed k t') (t, b).
Proof.
  intros H. unfold subscribe, note. do 6 io_step. apply wp_ret. split; [|done]. rewrite note_event.
  set (ch := next_chan b). apply (ok_silent (event (Bus (Subscribed ch)) ())) in H; [|done].
  destruct H as [H1 H2 H3 H4 H5 H6 H7 H8]. pose proof (H3 ch (le_n _)) as Hnew. split; cbn.
  - intros ch' c [[<- <-]|[Hne Hc]]%lookup_insert_Some.
    + destruct (H2 ch Hnew) as [-> ->]. split_and!; [lia|done|cbn; lia|set_solver].
    + destruct (H1 _ _ Hc) as (? & ? & ? & Hcl). split_and!; [lia|done|done|]. rewrite Hcl. set_solver.
  - intros ch' [Hc ?]%lookup_insert_None. auto.
  - intros ch' Hch. rewrite lookup_insert_ne by (unfold ch in *; lia). apply H3. unfold ch in *. lia.
  - intros ch' [->%elem_of_singleton|Hch]%elem_of_union; [rewrite lookup_insert_eq; by eexists|].
    destruct (decide (ch' = ch)) as [->|]; [rewrite lookup_insert_eq; by eexists|].
    rewrite lookup_insert_ne by done. auto.
  - done.
  - intros p msg rest Hp. destruct (H6 _ _ _ Hp) as (? & ? & Hr). split; [done|]. split; [done|].
    intros ch' Hch'. destruct (Hr _ Hch') as [Hk Hrem].
    assert (ch' ≠ ch) as Hne by (intros ->; rewrite Hnew in Hk; by destruct Hk).
    rewrite lookup_insert_ne by done. split; [done|]. set_solver.
  - done.
  - done.
Qed.

Lemma remove_ok ch t b : bus_ok t b → keeps (remove ch) t b.
Proof.
  intros H. unfold remove. do 2 io_step. destruct (channels b !! ch) as [c|] eqn:Ec; [|by apply wp_ret].
  case_decide as Hs; [|by apply wp_ret]. unfold note. do 3 io_step. rewrite note_event.
  pose proof H as [H1 H2 H3 H4 H5 H6 H7 H8]. pose proof (ok_silent (event (Bus (Removed ch)) ()) _ _ eq_refl H) as H'.
  destruct H' as [G1 G2 G3 G4 G5 G6 G7 G8]. split; cbn.
  - intros ch' c' [[<- <-]|[Hne Hc]]%lookup_insert_Some.
    + destruct (G1 _ _ Ec) as (? & ? & ? & _). split_and!; [done|done|done|]. cbn. set_solver.
    + destruct (G1 _ _ Hc) as (? & ? & ? & Hcl). split_and!; [done|done|done|]. rewrite Hcl. set_solver.
  - intros ch' [Hc ?]%lookup_insert_None. auto.
  - intros ch' Hch. destruct (decide (ch' = ch)) as [->|]; [by rewrite (G3 ch Hch) in Ec|]. rewrite lookup_insert_ne by done. auto.
  - intros ch' Hch. destruct (decide (ch' = ch)) as [->|]; [by eexists; apply lookup_insert_eq|].
    rewrite lookup_insert_ne by done. apply G4. set_solver.
  - done.
  - intros p msg rest Hp. destruct (G6 _ _ _ Hp) as (? & Hpub & Hr). split; [done|]. split; [done|].
    intros ch' Hch'. destruct (Hr _ Hch') as [Hk Hrem]. destruct (decide (ch' = ch)) as [->|].
    + rewrite lookup_insert_eq. split; [by eexists|]. intros _. destruct (H6 _ _ _ Hp) as (_ & (to_ & Hin & Hsub) & _).
      exists [], t, msg, to_. split_and!; [done|done|set_solver].
    + rewrite lookup_insert_ne by done. split; [done|]. set_solver.
  - done.
  - done.
Qed.

Lemma custom_receive_ok ch t b : bus_ok t b → keeps (receive ch) t b.
Proof.
  intros [H1 H2 H3 H4 H5 H6 H7 H8]. unfold receive. do 2 io_step.
  destruct (channels b !! ch) as [c|] eqn:Ec; [|by apply wp_ret].
  destruct (held c) as [|msg l] eqn:Eh; [by apply wp_ret|]. unfold note. do 3 io_step. rewrite note_event.
  assert (∀ p ch', offers p ch' (event (Bus (Received ch msg)) () :: t) = offers p ch' t) as Ho
    by (intros; by rewrite offers_cons).
  assert (∀ ch', given ch' (event (Bus (Received ch msg)) () :: t) = given ch' t) as Hg
    by (intros; rewrite given_cons; by rewrite app_nil_r).
  assert (∀ ch', ch' ≠ ch → taken ch' (event (Bus (Received ch msg)) () :: t) = taken ch' t) as Ht.
  { intros ch' Hne. rewrite taken_cons. unfold taken_on. cbn. rewrite decide_False by done. by rewrite app_nil_r. }
  split; cbn.
  - intros ch' c' [[<- <-]|[Hne Hc]]%lookup_insert_Some.
    + destruct (H1 _ _ Ec) as (? & Hgt & Hlen & Hcl). rewrite Hg, taken_cons, Hgt. cbn. rewrite Eh in *. cbn in Hlen.
      unfold taken_on. cbn. rewrite decide_True by done. split_and!; [done|by rewrite <- (assoc_L (++))|lia|done].
    + rewrite Hg, Ht by done. auto.
  - intros ch' [Hc Hne]%lookup_insert_None. rewrite Hg, Ht by done. auto.
  - intros ch' Hch. destruct (decide (ch' = ch)) as [->|]; [by rewrite (H3 ch Hch) in Ec|]. rewrite lookup_insert_ne by done. auto.
  - intros ch' Hch. destruct (decide (ch' = ch)) as [->|]; [by eexists; apply lookup_insert_eq|].
    rewrite lookup_insert_ne by done. auto.
  - intros p msg' to_ [Heq|Hin]%elem_of_cons; [done|]. destruct (H5 _ _ _ Hin) as (rest & ? & ? & Hr).
    exists rest. split_and!; [done|done|]. intros ch'. by rewrite Ho.
  - intros p msg' rest Hp. destruct (H6 _ _ _ Hp) as (? & (to_ & ? & ?) & Hr). split; [done|].
    split; [exists to_; split; [by right|done]|]. intros ch' Hch'. destruct (Hr _ Hch') as [Hk Hrem]. split.
    + destruct (decide (ch' = ch)) as [->|]; [by eexists; apply lookup_insert_eq|]. by rewrite lookup_insert_ne.
    + intros Hns. by apply removed_cons, Hrem.
  - intros p ch' Hp. by rewrite Ho, H7.
  - by constructor.
Qed.

Lemma publish_ok msg t b :
  bus_ok t b →
  wp (publish msg) (λ p '(t', b'), bus_ok t' b' ∧ t' = event (Bus (Published p msg (subscribers b))) () :: t ∧
      publishing b' = <[p := (msg, subscribers b)]> (publishing b)) (λ k '(t', _), crashed k t') (t, b).
Proof.
  intros [H1 H2 H3 H4 H5 H6 H7 H8]. unfold publish, note. do 6 io_step. apply wp_ret. rewrite note_event.
  split; [|done]. set (p := next_publish b). set (e := event (Bus (Published p msg (subscribers b))) ()).
  assert (publishing b !! p = None) as Hnew.
  { destruct (publishing b !! p) as [[m r]|] eqn:E; [|done]. destruct (H6 _ _ _ E). unfold p in *. lia. }
  assert (∀ ch, given ch (e :: t) = given ch t ∧ taken ch (e :: t) = taken ch t) as Hgt
    by (intros; rewrite given_cons, taken_cons; cbn; by rewrite !app_nil_r).
  assert (∀ p ch, offers p ch (e :: t) = offers p ch t) as Ho by (intros; by rewrite offers_cons).
  split; cbn.
  - intros ch c Hc. destruct (Hgt ch) as [-> ->]. auto.
  - intros ch Hc. destruct (Hgt ch) as [-> ->]. auto.
  - done.
  - done.
  - intros q msg' to_ [Heq|Hin]%elem_of_cons.
    + apply event_inj_question in Heq. injection Heq as -> -> ->. exists (subscribers b). rewrite lookup_insert_eq.
      split_and!; [done|done|]. intros ch. rewrite Ho, H7 by done. by rewrite decide_False by set_solver.
    + destruct (H5 _ _ _ Hin) as (rest & Hr & ? & Hoff). exists rest. split_and!; [|done|].
      * rewrite lookup_insert_ne; [done|]. intros <-. by rewrite Hnew in Hr.
      * intros ch. by rewrite Ho.
  - intros q msg' rest [[<- [= <- <-]]|[Hne Hq]]%lookup_insert_Some.
    + split; [lia|]. split; [exists (subscribers b); split; [left|done]|]. intros ch Hch. split; [auto|done].
    + destruct (H6 _ _ _ Hq) as (? & (to_ & ? & ?) & Hr). split; [unfold p; lia|].
      split; [exists to_; split; [by right|done]|]. intros ch Hch. destruct (Hr _ Hch) as [? Hrem]. split; [done|].
      intros Hns. by apply removed_cons, Hrem.
  - intros q ch [Hq ?]%lookup_insert_None. by rewrite Ho, H7.
  - by constructor.
Qed.

Lemma publish_round_ok p ch t b : bus_ok t b → keeps (publish_round p ch) t b.
Proof.
  intros [H1 H2 H3 H4 H5 H6 H7 H8]. unfold publish_round. do 2 io_step.
  destruct (publishing b !! p) as [[msg rest]|] eqn:Ep; [|by apply wp_ret].
  destruct (channels b !! ch) as [c|] eqn:Ec; [|by apply wp_ret]. case_decide as Hin; [|by apply wp_ret].
  destruct (H1 _ _ Ec) as (Hlt & Hgt & Hlen & Hcl). destruct (H6 _ _ _ Ep) as (Hp & (to_ & Hpub & Hsub) & Hrest).
  destruct (is_closed c) eqn:Eclosed.
  { split; [done|]. exists p, ch. apply (Hrest ch Hin). by apply Hcl. }
  unfold note. do 3 io_step. rewrite note_event. remember (length (held c) <? 8)%nat as ok eqn:Hok.
  set (e := event (Bus (Offered p ch msg ok)) ()). set (c2 := if ok then _ else c).
  assert (held c2 = held c ++ option_list (if ok then Some msg else None) ∧ is_closed c2 = is_closed c ∧ (length (held c2) ≤ 8)%nat) as (Hh & Hc2 & Hl2).
  { unfold c2. destruct (Nat.ltb_spec (length (held c)) 8); subst ok; cbn; [rewrite length_app; cbn; split_and!; [done|done|lia]|].
    by rewrite app_nil_r. }
  assert (∀ ch', taken ch' (e :: t) = taken ch' t) as Ht by (intros; rewrite taken_cons; cbn; by rewrite app_nil_r).
  assert (∀ ch', given ch' (e :: t) = given ch' t ++ option_list (if decide (ch = ch') then if ok then Some msg else None else None)) as Hg.
  { intros ch'. rewrite given_cons. unfold given_on. cbn. by destruct ok, (decide (ch = ch')). }
  assert (∀ q ch', offers q ch' (e :: t) = ((if decide (p = q ∧ ch = ch') then 1 else 0) + offers q ch' t)%nat) as Ho.
  { intros q ch'. rewrite offers_cons. unfold is_offer. cbn. f_equal.
    destruct (decide (p = q ∧ ch = ch')) as [[-> ->]|Hne]; [by rewrite !bool_decide_true|].
    destruct (decide (p = q)), (decide (ch = ch')); rewrite ?bool_decide_true, ?bool_decide_false by done; cbn; try done; tauto. }
  split; cbn.
  - intros ch' c' [[<- <-]|[Hne Hc]]%lookup_insert_Some.
    + rewrite Hg, Ht, Hgt, Hh, Hc2, decide_True by done. split_and!; [done|by rewrite <- (assoc_L (++))|by rewrite <- Hh|].
      by rewrite Eclosed.
    + rewrite Hg, Ht, decide_False, app_nil_r by done. auto.
  - intros ch' [Hc Hne]%lookup_insert_None. rewrite Hg, Ht, decide_False, app_nil_r by done. auto.
  - intros ch' Hch. destruct (decide (ch' = ch)) as [->|]; [by rewrite (H3 ch Hch) in Ec|]. rewrite lookup_insert_ne by done. auto.
  - intros ch' Hch. destruct (decide (ch' = ch)) as [->|]; [by eexists; apply lookup_insert_eq|].
    rewrite lookup_insert_ne by done. auto.
  - intros q msg' to' [Heq|Hin']%elem_of_cons; [done|]. destruct (H5 _ _ _ Hin') as (r & Hq & Hs & Hoff).
    destruct (decide (p = q)) as [<-|Hne].
    + rewrite Ep in Hq. injection Hq as <- <-. exists (rest ∖ {[ ch ]}). rewrite lookup_insert_eq.
      split_and!; [done|set_solver|]. intros ch'. rewrite Ho, Hoff.
      destruct (decide (ch = ch')) as [<-|]; [|rewrite (decide_False (P := p = p ∧ _)) by tauto; apply decide_ext; set_solver].
      rewrite (decide_True (P := p = p ∧ _)), (decide_False (P := ch ∈ to' ∖ rest)), decide_True by (try done; set_solver). done.
    + exists r. rewrite lookup_insert_ne by done. split_and!; [done|done|]. intros ch'.
      rewrite Ho, decide_False by tauto. apply Hoff.
  - intros q msg' r Hq.
    assert (∃ r', publishing b !! q = Some (msg', r') ∧ r ⊆ r') as (r' & Hq' & Hr').
    { apply lookup_insert_Some in Hq as [[<- [= <- <-]]|[Hne Hq]]; [exists rest; split; [done|set_solver]|by exists r]. }
    destruct (H6 _ _ _ Hq') as (? & (to' & ? & ?) & Hk). split; [done|].
    split; [exists to'; split; [by right|set_solver]|]. intros ch' Hch'. destruct (Hk ch') as [Hks Hrem]; [set_solver|]. split.
    + destruct (decide (ch' = ch)) as [->|]; [by eexists; apply lookup_insert_eq|]. by rewrite lookup_insert_ne.
    + intros Hns. by apply removed_cons, Hrem.
  - intros q ch' [Hq Hne]%lookup_insert_None. rewrite Ho, decide_False by tauto. by apply H7.
  - constructor; [|done]. split; [by exists to_; auto|]. intros ->. rewrite Hgt, length_app.
    symmetry in Hok. apply Nat.ltb_ge in Hok. lia.
Qed.
Lemma bus_op_ok o t b : bus_ok t b → keeps (bus_op o) t b.
Proof.
  intros H. destruct o; cbn [bus_op].
  - io_step. eapply wp_mono; [by apply subscribe_ok| |done]. by intros ch [t' b'] [? _].
  - io_step. eapply wp_mono; [by apply publish_ok| |done]. by intros p [t' b'] [? _].
  - by apply publish_round_ok.
  - by apply remove_ok.
  - by apply custom_receive_ok.
Qed.
Lemma bus_ok_new : bus_ok [] newMessageBus.
Proof.
  split; cbn.
  - intros ch c [=].
  - done.
  - done.
  - by intros ch ?%elem_of_empty.
  - by intros p msg to_ ?%elem_of_nil.
  - intros p msg rest [=].
  - done.
  - constructor.
Qed.
Lemma bus_run_ok ops t b : bus_ok t b → keeps (bus_run ops) t b.
Proof.
  revert t b. induction ops as [|o ops IH]; intros t b H; [by apply wp_ret|]. cbn [bus_run]. io_step.
  eapply wp_mono; [by apply bus_op_ok| |by intros ? [? ?]]. intros _ [t' b'] H'. by apply IH.
Qed.
End steps.

(** The channels are queues of at most eight messages, and every publication has been
    offered, once each, to the subscribers it is done with. *)
Definition delivering (t : Trace answer) (b : messageBus) : Prop :=
  (∀ ch c, channels b !! ch = Some c →
     given ch t = taken ch t ++ held c ∧ (length (held c) ≤ 8)%nat) ∧
  (∀ p msg to_, event (Bus (Published p msg to_)) () ∈ t → ∃ rest,
     publishing b !! p = Some (msg, rest) ∧ rest ⊆ to_ ∧
     ∀ ch, offers p ch t = if decide (ch ∈ to_ ∖ rest) then 1%nat else 0%nat) ∧
  asked_when offer_guard [] t.
Lemma bus_ok_delivering t b : bus_ok t b → delivering t b.
Proof. intros [H1 _ _ _ H5 _ _ H8]. split_and!; [|done|done]. intros ch c Hc. by destruct (H1 _ _ Hc) as (_ & ? & ? & _). Qed.

(** C28. The message bus loses a message only at a full channel.  Over any interleaving of
    subscriptions, publications, their rounds, removals and receipts a channel gives
    out what it was given in this order and holds at most eight messages; a publication
    offers its message to each of the subscribers it found exactly once, and the offer
    is refused only when the channel holds eight.  Only one thing stops the program: a
    publication whose subscriber is removed, and its channel closed, before its turn. *)
Theorem bus_delivers {OR : Oracle answer} (ops : list BusOp) :
  match bus_run ops ([], newMessageBus) with
  | Ret (t, b) _ => delivering t b
  | Panic (t, _) => ∃ p ch, removed_during p ch t
  | NoFuel _ => False
  end.
Proof.
  pose proof (bus_run_ok ops [] newMessageBus bus_ok_new) as H. unfold wp in H.
  destruct (bus_run ops _) as [[t b] a|[t b]|[t b]]; [by apply bus_ok_delivering|apply H|by destruct H].
Qed.

(** This happens: a subscriber goes while a message is on its way. *)
Definition bus_demo : Oracle answer := λ _ q,
  match q return answer q with
  | Bus _ => ()
  | SubscribeStream | LndSend _ _ _ | ClnSend _ _ _ => None
  | Recv _ => Err (ErrText "EOF")
  | LndPeers => Ok []
  | ClnPeers => []
  end.
Example publish_can_panic :
  match bus_run (OR := bus_demo) [op_subscribe; op_publish (mkCustomMessage "02" MESSAGETYPE_POLL "{}");
          op_remove 0; op_round 0 0] ([], newMessageBus) with
  | Panic _ => True
  | _ => False
  end.
Proof. by vm_compute. Qed.

(** ** What the adapter of lnd guarantees *)
Definition opens (e : Event answer) : bool :=
  match e with existT SubscribeStream None => true | _ => false end.
Definition opened (t : list (Event answer)) : nat := length (filter (λ e, opens e = true) t).
#[local] Arguments opened : simpl never.

(** A message is published right after the stream delivered it; a stream that has failed
    is not read again. *)
Definition relay_guard (e : Event answer) (pre : Trace answer) : Prop :=
  match question e with
  | Bus (Published _ msg _) => ∃ s item pre', pre = event (Recv s) (Ok item) :: pre' ∧
      customMessageFrom (lm_Type item) (lm_Peer item) (lm_Data item) = Some msg
  | Recv s => (s < opened pre)%nat ∧ ∀ err, event (Recv s) (Err err) ∉ pre
  | _ => True
  end.
Definition not_read (o : option Phase) : Prop := match o with None | Some Leaving => True | _ => False end.
Record adapter_ok (t : Trace answer) (a : LightningAdapter) : Prop := {
  adapter_bus : bus_ok t (bus a);
  streams_opened : next_stream a = opened t;
  streams_known s : (next_stream a ≤ s)%nat → streams a !! s = None;
  streams_failed s err : event (Recv s) (Err err) ∈ t → not_read (streams a !! s);
  relayed_only : asked_when relay_guard [] t;
}.

Definition is_bus (e : Event answer) : bool :=
  match question e with Bus (Published _ _ _) => false | Bus _ => true | _ => false end.
Lemma opened_cons e t : opened (e :: t) = ((if opens e then 1 else 0) + opened t)%nat.
Proof. unfold opened. rewrite filter_cons. destruct (opens e); case_decide; done. Qed.

(** Events of the bus leave what is known about the streams. *)
Lemma adapter_ok_bus e t a b :
  is_bus e = true → adapter_ok t a → bus_ok (e :: t) b → adapter_ok (e :: t) (a <| bus := b |>).
Proof.
  intros He [H1 H2 H3 H4 H5] Hb. split; [done|..].
  - cbn. rewrite opened_cons, H2. destruct e as [[] ?]; done.
  - done.
  - intros s err [<-|Hin]%elem_of_cons; [done|by eapply H4].
  - constructor; [|done]. unfold relay_guard, is_bus in *. destruct (question e) as [[]| | | | | |]; done.
Qed.

Section adapter_steps.
Context {OR : Oracle answer}.
Implicit Types (t : Trace answer) (a : LightningAdapter).
Abbreviation holds m t a :=
  (wp m (λ _ '(t', a'), adapter_ok t' a') (λ k '(t', _), crashed k t') (t, a)).

(** An operation of the bus records at most one event, and no publication. *)
Definition one_event t (b : messageBus) t' b' : Prop :=
  (t' = t ∧ b' = b) ∨ ∃ e, is_bus e = true ∧ t' = e :: t.
Abbreviation small m t b := (wp m (λ _ '(t', b'), one_event t b t' b') any_stop (t, b)).
Lemma small_note e (m : IO answer messageBus ()) t b :
  is_bus (event (Bus e) ()) = true →
  wp m (λ _ '(t', _), t' = event (Bus e) () :: t) any_stop (event (Bus e) () :: t, b) →
  small (note e;; m) t b.
Proof.
  intros He Hm. unfold note. do 2 io_step. rewrite note_event. eapply wp_mono; [exact Hm| |done].
  intros _ [t' b'] ->. right. eauto.
Qed.
Lemma remove_small ch t b : small (remove ch) t b.
Proof.
  unfold remove. do 2 io_step. destruct (channels b !! ch); [|apply wp_ret; by left].
  case_decide; [|apply wp_ret; by left]. by apply small_note.
Qed.
Lemma receive_small ch t b : small (receive ch) t b.
Proof.
  unfold receive. do 2 io_step. destruct (channels b !! ch) as [c|]; [|apply wp_ret; by left].
  destruct (held c); [apply wp_ret; by left|]. by apply small_note.
Qed.
Lemma publish_round_small p ch t b : small (publish_round p ch) t b.
Proof.
  unfold publish_round. do 2 io_step. destruct (publishing b !! p) as [[msg rest]|]; [|apply wp_ret; by left].
  destruct (channels b !! ch) as [c|]; [|apply wp_ret; by left]. case_decide; [|apply wp_ret; by left].
  destruct (is_closed c); [done|]. by apply small_note.
Qed.
Lemma subscribe_small t b :
  wp subscribe (λ ch '(t', b'), one_event t b t' b') any_stop (t, b).
Proof.
  unfold subscribe. do 2 io_step. unfold note. do 4 io_step. apply wp_ret. rewrite note_event. right. eexists. by split; [|done].
Qed.

Lemma on_bus_ok {A} (m : IO answer messageBus A) t a :
  wp m (λ _ '(t', b'), bus_ok t' b') (λ k '(t', _), crashed k t') (t, bus a) →
  wp m (λ _ '(t', b'), one_event t (bus a) t' b') any_stop (t, bus a) →
  adapter_ok t a → holds (on_bus m) t a.
Proof.
  intros H1 H2 Ha. apply wp_focus. eapply wp_mono; [exact (wp_conj _ _ _ _ _ _ H1 H2)| |].
  - intros x [t' b'] [Hb [[-> ->]|(e & He & ->)]]; [by destruct a|by apply adapter_ok_bus].
  - by intros k [t' b'] [? _].
Qed.

(** What changes only the fields that nothing is said about. *)
Lemma adapter_ok_same t a a' :
  bus a' = bus a → streams a' = streams a → next_stream a' = next_stream a → adapter_ok t a → adapter_ok t a'.
Proof. intros E1 E2 E3 [H1 H2 H3 H4 H5]. split; rewrite ?E1, ?E2, ?E3; done. Qed.
Lemma release_ok t a : adapter_ok t a → adapter_ok t (release a).
Proof. unfold release, call_cancel. destruct (streamCancel a); by apply adapter_ok_same. Qed.
(** A stream goes on to another phase; one that failed cannot. *)
Lemma adapter_ok_phase t a s ph ph' :
  streams a !! s = Some ph → (not_read (Some ph) → not_read (Some ph')) →
  adapter_ok t a → adapter_ok t (a <| streams := <[s := ph']> (streams a) |>).
Proof.
  intros Hs Hph [H1 H2 H3 H4 H5]. split; cbn; [done|done| | |done].
  - intros s' Hs'. destruct (decide (s' = s)) as [->|]; [by rewrite (H3 s Hs') in Hs|]. rewrite lookup_insert_ne by done. auto.
  - intros s' err Hin. destruct (decide (s' = s)) as [->|]; [|rewrite lookup_insert_ne by done; eauto].
    rewrite lookup_insert_eq. apply Hph. rewrite <- Hs. eauto.
Qed.

Lemma subscribe_messages_ok t a : adapter_ok t a → holds SubscribeCustomMessages t a.
Proof.
  intros Ha. unfold SubscribeCustomMessages. do 2 io_step. destruct (has_client a); cbn [negb]; [|by apply wp_ret].
  apply wp_bind. eapply (wp_mono _ (λ _ '(t', a'), adapter_ok t' a') _ (λ k '(t', _), crashed k t')).
  - unfold ensureStream. do 2 io_step. destruct (streamStarted a); [by apply wp_ret|]. do 2 io_step.
    destruct Ha as [H1 H2 H3 H4 H5]. set (e := event SubscribeStream _).
    assert (adapter_ok (e :: t) a ∨ opens e = true) as Hor.
    { destruct (reply t SubscribeStream) as [err|] eqn:E; [left|by right]. split; [by apply ok_silent| |done| |].
      - by rewrite opened_cons.
      - intros s err' [Heq|Hin]%elem_of_cons; [done|by eapply H4].
      - by constructor. }
    destruct (reply t SubscribeStream) as [err|] eqn:E.
    { apply wp_ret. by destruct Hor. }
    do 2 io_step. apply wp_ret. split; cbn.
    + by apply ok_silent.
    + rewrite opened_cons, H2. done.
    + intros s Hs. rewrite lookup_insert_ne by lia. apply H3. lia.
    + intros s err [Heq|Hin]%elem_of_cons; [done|].
      pose proof (H4 s err Hin) as Hn. destruct (decide (s = next_stream a)) as [->|]; [|by rewrite lookup_insert_ne].
      exfalso. apply (asked_elem _ _ _ H5) in Hin as (pre & [Hlt _] & Hsuf).
      apply (suffix_length) in Hsuf as Hl. rewrite H2 in Hlt.
      assert (opened pre ≤ opened t)%nat; [|lia]. destruct Hsuf as [k ->]. unfold opened. rewrite filter_app, length_app. lia.
    + by constructor.
  - intros [err|] [t' a'] Ha'; [by apply wp_ret|]. apply wp_bind.
    eapply wp_mono; [apply on_bus_ok; [|apply subscribe_small|exact Ha']| |done].
    + eapply wp_mono; [apply subscribe_ok, Ha'| |done]. by intros ch [? ?] [? _].
    + intros ch [t2 a2] ?. by apply wp_ret.
  - done.
Qed.

Lemma consume_item_ok s t a : adapter_ok t a → holds (consume_item s) t a.
Proof.
  intros Ha. unfold consume_item. do 2 io_step. destruct (streams a !! s) as [[|p|]|] eqn:Es; [|by apply wp_ret..].
  pose proof Ha as [H1 H2 H3 H4 H5]. do 2 io_step.
  assert (∀ r, (∀ err, r = Err err → False) → adapter_ok (event (Recv s) r :: t) a) as Hok.
  { intros r Hr. split; [by apply ok_silent| |done| |].
    - by rewrite opened_cons.
    - intros s' err [Heq|Hin]%elem_of_cons; [|by eapply H4]. apply event_inj_question in Heq as Hq.
      injection Hq as ->. apply event_inj in Heq. by edestruct Hr.
    - constructor; [|done]. split; [|by intros err Hin; specialize (H4 _ _ Hin); rewrite Es in H4].
      rewrite <- H2. destruct (decide (next_stream a ≤ s)%nat); [by rewrite H3 in Es|lia]. }
  destruct (reply t (Recv s)) as [item|err] eqn:E.
  - specialize (Hok (Ok item)). assert (adapter_ok (event (Recv s) (Ok item) :: t) a) as Ha1 by by apply Hok.
    destruct (customMessageFrom _ _ _) as [msg|] eqn:Em; [|by apply wp_ret]. apply wp_bind, wp_focus.
    eapply wp_mono; [apply publish_ok, Ha1| |done]. intros p [t' b'] (Hb & -> & _). io_step.
    apply (adapter_ok_phase _ _ s Reading); [done|by intros []|]. split; cbn; [exact Hb| |done| |].
    + rewrite opened_cons. apply Ha1.
    + intros s' err [Heq|Hin]%elem_of_cons; [done|by eapply Ha1].
    + constructor; [|apply Ha1]. by exists s, item, t.
  - io_step. split; cbn.
    + by apply ok_silent.
    + by rewrite opened_cons.
    + intros s' Hs'. destruct (decide (s' = s)) as [->|]; [by rewrite (H3 s Hs') in Es|]. rewrite lookup_insert_ne by done. auto.
    + intros s' err' [Heq|Hin]%elem_of_cons.
      * apply event_inj_question in Heq. injection Heq as ->. by rewrite lookup_insert_eq.
      * destruct (decide (s' = s)) as [->|]; [by rewrite lookup_insert_eq|]. rewrite lookup_insert_ne by done. eauto.
    + constructor; [|done]. split; [|by intros err' Hin; specialize (H4 _ _ Hin); rewrite Es in H4].
      rewrite <- H2. destruct (decide (next_stream a ≤ s)%nat); [by rewrite H3 in Es|lia].
Qed.

Lemma adapter_op_ok o t a : adapter_ok t a → holds (adapter_op o) t a.
Proof.
  intros Ha. destruct o as [|s|s ch|s| |ch|ch]; cbn [adapter_op].
  - io_step. eapply wp_mono; [by apply subscribe_messages_ok| |done]. by intros r [t' a'] ?.
  - by apply consume_item_ok.
  - unfold consume_publish. do 2 io_step. destruct (streams a !! s) as [[|p|]|] eqn:Es; [by apply wp_ret| |by apply wp_ret..].
    destruct (publishing (bus a) !! p) as [[msg rest]|]; [|by apply wp_ret]. case_decide.
    + io_step. by eapply adapter_ok_phase.
    + apply on_bus_ok; [apply publish_round_ok, Ha|apply publish_round_small|done].
  - unfold consume_leave. do 2 io_step. destruct (streams a !! s) as [[| |]|] eqn:Es; [by apply wp_ret..| |by apply wp_ret].
    io_step. apply release_ok. destruct Ha as [H1 H2 H3 H4 H5]. split; cbn; [done|done| | |done].
    + intros s' Hs'. apply lookup_delete_None. auto.
    + intros s' err Hin. destruct (decide (s' = s)) as [->|]; [by rewrite lookup_delete_eq|]. rewrite lookup_delete_ne by done. eauto.
  - unfold Stop. do 3 io_step. apply wp_ret. by apply release_ok.
  - apply on_bus_ok; [apply remove_ok, Ha|apply remove_small|done].
  - apply on_bus_ok; [apply custom_receive_ok, Ha|apply receive_small|done].
Qed.
Lemma adapter_run_ok ops t a : adapter_ok t a → holds (adapter_run ops) t a.
Proof.
  revert t a. induction ops as [|o ops IH]; intros t a H; [by apply wp_ret|]. cbn [adapter_run]. io_step.
  eapply wp_mono; [by apply adapter_op_ok| |by intros ? [? ?]]. intros _ [t' a'] H'. by apply IH.
Qed.
Lemma adapter_ok_new client : adapter_ok [] (NewLightningAdapter client).
Proof. split; cbn; [apply bus_ok_new|done|done|by intros s err ?%elem_of_nil|constructor]. Qed.
End adapter_steps.

Lemma asked_middle {Q} {A : Q → Type} (P : Event A → Trace A → Prop) u e pre :
  asked_when P [] (u ++ e :: pre) → P e pre ∧ asked_when P [] pre.
Proof. induction u as [|x u IH]; cbn; inversion 1; subst; auto. Qed.
Lemma opened_app u v : opened (u ++ v) = (opened u + opened v)%nat.
Proof. unfold opened. by rewrite filter_app, length_app. Qed.

(** With one stream, nothing is published after it failed. *)
Lemma published_before_failure (t t1 t2 : list (Event answer)) s err e :
  asked_when relay_guard [] t → opened t = 1%nat → t = t1 ++ event (Recv s) (Err err) :: t2 →
  e ∈ t1 → is_published e = false.
Proof.
  intros Hask Hone -> [u [v ->]]%list_elem_of_split. destruct (is_published e) eqn:Ep; [|done]. exfalso.
  rewrite <- (assoc_L (++)) in Hask, Hone. cbn in Hask, Hone.
  pose proof (asked_middle _ _ _ _ Hask) as [He Hpre].
  destruct (asked_middle _ _ _ _ Hpre) as [[Hs _] _].
  unfold relay_guard, is_published in He, Ep. destruct (question e) as [[]| | | | | |]; try done.
  destruct He as (s' & item & pre' & Hpre' & _).
  destruct v as [|x v]; cbn in Hpre'.
  { apply (f_equal head) in Hpre'. cbn in Hpre'. apply (inj Some) in Hpre' as Hq.
    pose proof (event_inj_question _ _ _ _ Hq) as Hs'. injection Hs' as ->. by apply event_inj in Hq. }
  assert (x = event (Recv s') (Ok item) ∧ v ++ event (Recv s) (Err err) :: t2 = pre') as [-> <-].
  { split; [apply (f_equal head) in Hpre'; by apply (inj Some) in Hpre'|by apply (f_equal tail) in Hpre']. }
  destruct (asked_middle _ [] _ _ Hpre) as [[Hs' Hno] _].
  assert (s' = 0%nat ∧ s = 0%nat) as [-> ->].
  { rewrite !opened_app, !opened_cons, !opened_app, !opened_cons in Hone. rewrite opened_app, opened_cons in Hs'.
    destruct (opens e); cbn in *; lia. }
  apply (Hno err). apply elem_of_app. right. left.
Qed.

(** The adapter of lnd passes on what the stream delivers, and no more once the stream
    has failed: over any interleaving of subscriptions, stream items, rounds of a
    publication, stops and removals every message on the bus is the message the stream
    delivered just before, with its type one of peerswap; a stream that failed is not
    read again.  As the peer sync subscribes once, an error of the stream - a restart of
    lnd, for one - ends the capability messages for good. *)
Theorem lnd_adapter_relays {OR : Oracle answer} (client : bool) (ops : list AdapterOp) :
  match adapter_run ops ([], NewLightningAdapter client) with
  | Ret (t, a) _ =>
      delivering t (bus a) ∧ asked_when relay_guard [] t ∧
      (opened t = 1%nat → ∀ t1 t2 s err, t = t1 ++ event (Recv s) (Err err) :: t2 →
         ∀ e, e ∈ t1 → is_published e = false)
  | Panic (t, _) => ∃ p ch, removed_during p ch t
  | NoFuel _ => False
  end.
Proof.
  pose proof (adapter_run_ok ops [] _ (adapter_ok_new client)) as H. unfold wp in H.
  destruct (adapter_run ops _) as [[t a] x|[t a]|[t a]]; [|apply H|by destruct H].
  destruct H as [Hb _ _ _ Hask]. split; [by apply bus_ok_delivering|]. split; [done|].
  intros Hone t1 t2 s err Ht e. by eapply published_before_failure.
Qed.

(** A message that one adapter sends is what the adapter of the peer makes of it. *)
Theorem capability_message_crosses {OR : Oracle answer} (t : Trace answer) a (me you payload : string) (msgType : Z) :
  has_client a = true → msgType ∈ message_types → me ≠ "" → (String.length me ≤ 64)%nat →
  SendCustomMessage (hex.EncodeToString you) msgType payload (t, a) =
    query (LndSend you msgType payload) (t, a) ∧
  customMessageFrom msgType me payload = Some (mkCustomMessage (hex.EncodeToString me) msgType payload) ∧
  PushCustomMessage (hex.EncodeToString me) (MessageTypeToHexString msgType) payload =
    Some (mkCustomMessage (hex.EncodeToString me) msgType payload).
Proof.
  intros Hc Ht Hne Hlen.
  assert (0 ≤ msgType < 2 ^ 32) as Hr by (revert msgType Ht; apply Forall_forall; by_eval).
  assert (NewPeerID (hex.EncodeToString me) = Ok (hex.EncodeToString me)) as Hid.
  { unfold NewPeerID. pose proof (hex.decode_length _ _ (hex.decode_encode me)) as Hl.
    rewrite bool_decide_false, bool_decide_false; [done|lia|].
    intros H0. rewrite H0 in Hl. cbn in Hl. destruct me; [done|]. cbn in Hl. lia. }
  split; [|split].
  - unfold SendCustomMessage. unfold mbind, M_bind. cbn. rewrite Hc, hex.decode_encode. cbn [negb].
    rewrite (proj2 (Z.ltb_ge _ _)), (proj2 (Z.ltb_ge _ _)) by lia. cbn [orb]. by rewrite u32_small by (unfold is_u32; lia).
  - unfold customMessageFrom. rewrite hex_roundtrip by done. by rewrite Hid.
  - unfold PushCustomMessage. rewrite hex_roundtrip by done. by rewrite Hid.
Qed.
