(* ===== verification/SyncScenarios.v ===== *)
(** * Runs of the capability sync

    A concrete node and three payloads: the run in which a poll undoes an update
    ([poll_loses_update]), and an instance of each property of the sync that has
    hypotheses. *)

From stdpp Require Import sorting.
From S2P Require Import Prelude GoLib Messages Premium Policy SwapData Timelock Env Store Oracle.
From S2P Require Import PeerCapability SnapshotCodec PeerSync PeerSyncProofs.
Import SyncRpc.

Definition snap (version btcIn : Z) : PeerCapabilitySnapshot :=
  mkSnapshot version ["BTC"; "LBTC"] true btcIn 2000 0 1000.
(** The documents that carry these snapshots. *)
Definition payload (x : PeerCapabilitySnapshot) : string :=
  match snapshot_Marshal x with Ok b => b | Err _ => "" end.

(** A node that answers everything; one day is between the epoch and its clock. *)
Definition sync_reply (t : Trace answer) (q : Call) : answer q :=
  match q with
  | Now => 24 * 3600 * second
  | DbUpdate | DbView => None
  | DbPremium => (None, None)
  | ListPeers => Ok ["02"; "03"]
  | SendCustomMessage _ _ _ => None
  | CursorWalk l => l
  | Range l => exist _ l (Permutation_refl l)
  end.
Definition demo_node : Oracle answer := sync_reply.

Definition old_peer : Peer :=
  match ToCapability 0 (snap 7 0) with
  | Ok c => UpdateCapability (24 * 3600 * second - 1) c (NewPeer "02" "")
  | Err _ => NewPeer "02" ""
  end.
Definition demo_sync : PeerSync :=
  NewPeerSync (Some {[ "02" := peerToRecord old_peer ]}) None [] None.

Lemma old_peer_ok : peer_ok old_peer.
Proof.
  split; [done|done|]. intros c [= <-]. split; cbn; [set_solver|..];
    (eexists; split; [reflexivity|vm_compute; split; discriminate]).
Qed.

Lemma demo_sync_ok : store_ok demo_sync.
Proof.
  intros m k r [= <-] [<- <-]%lookup_singleton_Some. exists old_peer. split; [apply old_peer_ok|done].
Qed.

(** The run of some operations, and the stored version of the peer at its end. *)
Definition do_op (acc : option (Trace answer * SyncRun)) (op : Op)
    : option (Trace answer * SyncRun) :=
  match acc with
  | None => None
  | Some st => match sync_op (OR := demo_node) op st with
               | Ret st' _ => Some st'
               | _ => None
               end
  end.
Definition after_ops (ops : list Op) : option (Trace answer * SyncRun) :=
  foldl do_op (Some ([], mkSyncRun demo_sync [])) ops.
Definition version_of (st : option (Trace answer * SyncRun)) : option Z :=
  match st with
  | Some (_, r) => rec_version <$> record_at (sr_sync r) "02"
  | None => None
  end.

Lemma after_ops_snoc ops op : after_ops (ops ++ [op]) = do_op (after_ops ops) op.
Proof. unfold after_ops. by rewrite foldl_app. Qed.

Lemma after_ops_run ops t r :
  after_ops ops = Some (t, r) → sync_run (OR := demo_node) demo_sync t r.
Proof.
  revert t r. induction ops as [|op ops IH] using rev_ind; intros t r.
  { intros [= <- <-]. apply sync_start. }
  rewrite after_ops_snoc. destruct (after_ops ops) as [[t0 r0]|] eqn:E; [|done]. cbn [do_op].
  destruct (sync_op op _) as [[t1 r1] []|s|s] eqn:Eop; try done. intros [= <- <-].
  eapply sync_step; [by apply IH|exact Eop].
Qed.

Definition poll_hex : string := MessageTypeToHexString MESSAGETYPE_POLL.
Definition racing_ops : list Op :=
  [op_poll_begin true; op_cln_message "02" poll_hex (payload (snap 8 0))].

(** A poll that runs beside a message undoes it: there is a run in which a peer
    announces version 8 while a poll is under way, the store takes it, and the
    write with which the poll marks the peer as polled puts version 7 back. *)
Theorem poll_loses_update :
  ∃ t r t' r', sync_run (OR := demo_node) demo_sync t r ∧
    sync_op (OR := demo_node) (op_poll_peer 0) (t, r) = Ret (t', r') () ∧
    rec_version <$> record_at (sr_sync r) "02" = Some 8 ∧
    rec_version <$> record_at (sr_sync r') "02" = Some 7.
Proof.
  assert (version_of (after_ops racing_ops) = Some 8) as H8 by by vm_compute.
  assert (version_of (after_ops (racing_ops ++ [op_poll_peer 0])) = Some 7) as H7 by by vm_compute.
  rewrite after_ops_snoc in H7.
  destruct (after_ops racing_ops) as [[t r]|] eqn:E; [|done]. cbn [do_op] in H7.
  destruct (sync_op (op_poll_peer 0) (t, r)) as [[t' r'] []|s|s] eqn:Eop; [|done..].
  exists t, r, t', r'. split; [by eapply after_ops_run|].
  split; [exact Eop|]. split; [exact H8|exact H7].
Qed.

(** ** Instances *)
Definition sync0 : SyncRun := mkSyncRun demo_sync [].
Lemma sync0_run : sync_run (OR := demo_node) demo_sync [] sync0.
Proof. apply sync_start. Defined.

Example store_well_typed_witness :
  ∃ p, toPeer (peerToRecord old_peer) "02" = Ok p ∧ peer_id p = "02".
Proof.
  destruct (store_well_typed (OR := demo_node) demo_sync [] sync0 demo_sync_ok
    sync0_run) as [H _].
  destruct (H "02" (peerToRecord old_peer) eq_refl) as (_ & _ & p & Hp & Hid & _).
  exists p. split; [exact Hp|exact Hid].
Defined.

Example suspicious_peers_are_ignored_witness :
  ∃ t' r', sync_op (OR := demo_node) (op_poll_begin true) ([], sync0) =
             Ret (t', r') ().
Proof.
  destruct (suspicious_peers_are_ignored (OR := demo_node) demo_sync [] sync0
    (op_poll_begin true) demo_sync_ok sync0_run) as (t' & r' & E & _). by exists t', r'.
Defined.

Example messages_keep_the_newer_version_witness :
  ∃ t' s' x', processMessage (OR := demo_node)
      (mkCustomMessage "02" MESSAGETYPE_POLL (payload (snap 7 0))) ([], demo_sync) = Ret (t', s') () ∧
    record_at s' "02" = Some x' ∧ 7 ≤ rec_version x'.
Proof.
  destruct (messages_keep_the_newer_version (OR := demo_node) demo_sync [] sync0
    (mkCustomMessage "02" MESSAGETYPE_POLL (payload (snap 7 0))) demo_sync_ok sync0_run eq_refl)
    as (t' & s' & E & H).
  destruct (H "02" (peerToRecord old_peer) eq_refl) as (x' & Hx & Hv & _).
  exists t', s', x'. split; [exact E|split; [exact Hx|exact Hv]].
Defined.

Example cleanup_removes_only_expired_witness :
  ∃ t' s' res, cleanupExpired (OR := demo_node) ([], demo_sync) = Ret (t', s') res.
Proof.
  destruct (cleanup_removes_only_expired (OR := demo_node) demo_sync [] sync0
    demo_sync_ok sync0_run) as (t' & s' & res & E & _). by exists t', s', res.
Defined.

Example capability_roundtrip_witness :
  ∃ p', toPeer (peerToRecord old_peer) "02" = Ok p' ∧ peer_status p' = StatusActive.
Proof.
  destruct (capability_roundtrip 0 (snap 7 0) old_peer) as [_ H].
  destruct (H old_peer_ok) as (p' & E & _ & _ & Hst & _). exists p'. split; [exact E|exact Hst].
Defined.

(** A premium of 200 percent for swap-ins of bitcoin. *)
Definition high_bucket : Premium.bucket :=
  Some {[ rate_key "02" BTC SwapIn := strconv.Itoa 2000000 ]}.
Definition high_sync : PeerSync := demo_sync <| ps_premium := Some high_bucket |>.

Example extreme_premium_hides_the_node_witness :
  ∃ t' res, sendCapability (OR := demo_node) "02" MESSAGETYPE_POLL
              ([], high_sync) = Ret (t', high_sync) res ∧
    ∃ t2', processMessage (OR := demo_node)
             (mkCustomMessage "04" MESSAGETYPE_POLL (payload (snap 7 2000000))) ([], demo_sync) = Ret (t2', demo_sync) ().
Proof.
  destruct (extreme_premium_hides_the_node (OR := demo_node)
    (OR' := demo_node) "02" MESSAGETYPE_POLL [] [] high_sync demo_sync BTC SwapIn)
    as (t' & res & new & E & Ht & H); [split; by vm_compute|done|done|by vm_compute; intros [_ ?]|].
  exists t', res. split; [exact E|].
  eapply (H "02" MESSAGETYPE_POLL (payload (snap 7 2000000)) None). subst t'. rewrite app_nil_r in E.
  vm_compute in E. injection E as <- <-. left.
Defined.
