(* ===== verification/OpeningScript.v ===== *)
(** * The script of the opening output (src/onchain/utils.go)

    The output that funds a swap can be spent by the taker with the preimage of
    the claim invoice, by both together, and by the maker alone once the time lock
    has passed.  The builder of btcd yields a list of operations here; how they are
    executed is fixed by the rules of Bitcoin script (BIP 16, 112, 141), which are
    the laws of [ScriptRules]. *)

From S2P Require Import Prelude GoLib SwapData Env Store.

Inductive ScriptOp :=
  | AddData (data : string)
  | AddInt64 (val : Z)
  | OP_CHECKSIG
  | OP_NOTIF
  | OP_SIZE
  | OP_EQUALVERIFY
  | OP_SHA256
  | OP_ENDIF
  | OP_ELSE
  | OP_CHECKSEQUENCEVERIFY.

Definition Script : Type := list ScriptOp.

(** What the script and the spent output say about the input: whether a signature
    is valid for a key ([None] when it is badly encoded, which ends the execution),
    and whether the sequence number satisfies a relative lock time. *)
Record Spending := mkSpending {
  checks_sig : string → string → option bool;
  sequence_reached : Z → bool;
}.

(** The stack, top first, and the conditions of the open branches. *)
Definition Machine : Type := list string * list bool.

Class ScriptRules := {
  (** The result of btcd's builder: an error if an element is longer than 520 bytes
      or the script longer than 10,000. *)
  build_script : Script → result Script;
  build_fits : ∀ s, Forall (λ op, match op with
                                  | AddData d => (String.length d <= 520)%nat
                                  | _ => True
                                  end) s →
    (length s <= 19)%nat → build_script s = Ok s;
  build_ok : ∀ s s', build_script s = Ok s' → s' = s;
  exec_op : Spending → ScriptOp → Machine → option Machine;
  script_sha256 : string → string;
  (** The encoding of numbers and truth values on the stack. *)
  scriptNum : Z → string;
  scriptNum_decode : string → option Z;
  truthy : string → bool;
  scriptNum_inj : ∀ m n, scriptNum m = scriptNum n → m = n;
  scriptNum_byte : scriptNum 32 = h2b "20";
  scriptNum_read : ∀ n, 0 ≤ n < 2 ^ 31 → scriptNum_decode (scriptNum n) = Some n;
  truthy_num : ∀ n, truthy (scriptNum n) = bool_decide (n ≠ 0);
  (** An operation in a branch that is not taken only keeps track of the branches. *)
  exec_skipped : ∀ sp op st c, existsb negb c = true →
    exec_op sp op (st, c) =
      match op, c with
      | OP_NOTIF, _ => Some (st, false :: c)
      | OP_ELSE, b :: c => Some (st, negb b :: c)
      | OP_ENDIF, _ :: c => Some (st, c)
      | _, _ => Some (st, c)
      end;
  (** CHECKSIG leaves a truth value, and CHECKSEQUENCEVERIFY its operand. *)
  exec_taken : ∀ sp op st c, existsb negb c = false →
    exec_op sp op (st, c) =
      match op, st, c with
      | AddData d, _, _ => Some (d :: st, c)
      | AddInt64 n, _, _ => Some (scriptNum n :: st, c)
      | OP_CHECKSIG, pk :: sig :: st, _ =>
          match checks_sig sp pk sig with
          | Some b => Some (scriptNum (Z.b2z b) :: st, c)
          | None => None
          end
      | OP_NOTIF, x :: st, _ => Some (st, negb (truthy x) :: c)
      | OP_SIZE, x :: st, _ => Some (scriptNum (Z.of_nat (String.length x)) :: x :: st, c)
      | OP_EQUALVERIFY, x :: y :: st, _ => if bool_decide (x = y) then Some (st, c) else None
      | OP_SHA256, x :: st, _ => Some (script_sha256 x :: st, c)
      | OP_ELSE, _, b :: c => Some (st, negb b :: c)
      | OP_ENDIF, _, _ :: c => Some (st, c)
      | OP_CHECKSEQUENCEVERIFY, x :: st, _ =>
          match scriptNum_decode x with
          | Some n => if (0 <=? n) && sequence_reached sp n then Some (x :: st, c) else None
          | None => None
          end
      | _, _, _ => None
      end;
}.

Section scripts.
Context {SR : ScriptRules}.

Definition GetOpeningTxScript (takerPubkeyHash makerPubkeyHash pHash : string) (csv : Z) : result Script :=
  build_script
    [AddData makerPubkeyHash;
     OP_CHECKSIG;
     OP_NOTIF;
     AddData makerPubkeyHash;
     OP_CHECKSIG;
     OP_NOTIF;
     OP_SIZE;
     AddData (h2b "20");
     OP_EQUALVERIFY;
     OP_SHA256;
     AddData pHash;
     OP_EQUALVERIFY;
     OP_ENDIF;
     AddData takerPubkeyHash;
     OP_CHECKSIG;
     OP_ELSE;
     AddInt64 csv;
     OP_CHECKSEQUENCEVERIFY;
     OP_ENDIF].

Definition ParamsToTxScript (p : OpeningParams) (locktimeHeight : Z) : result Script :=
  match hex.DecodeString (op_TakerPubkey p) with
  | (_, Some e) => Err e
  | (takerBytes, None) =>
      match hex.DecodeString (op_MakerPubkey p) with
      | (_, Some e) => Err e
      | (makerBytes, None) =>
          match hex.DecodeString (op_ClaimPaymentHash p) with
          | (_, Some e) => Err e
          | (phashBytes, None) =>
              GetOpeningTxScript takerBytes makerBytes phashBytes locktimeHeight
          end
      end
  end.
End scripts.

(** ** Witnesses *)

(** The witness of an input: the items of the stack, bottom first, and the script. *)
Record Witness := mkWitness {
  wit_stack : list string;
  wit_script : Script;
}.
Definition SigHashAll : string := String (ascii_of_nat 1) "".

Definition GetPreimageWitness (signature preimage : string) (redeemScript : Script) : Witness :=
  mkWitness [signature +:+ SigHashAll; preimage; ""; ""] redeemScript.
Definition GetCsvWitness (signature : string) (redeemScript : Script) : Witness :=
  mkWitness [signature +:+ SigHashAll] redeemScript.
Definition GetCooperativeWitness (takerSig makerSig : string) (redeemScript : Script) : Witness :=
  mkWitness [takerSig +:+ SigHashAll; makerSig +:+ SigHashAll; ""] redeemScript.

(** ** Execution *)

Section execution.
Context {SR : ScriptRules}.

Fixpoint run (sp : Spending) (script : Script) (m : Machine) : option Machine :=
  match script with
  | [] => Some m
  | op :: script => match exec_op sp op m with
                    | Some m => run sp script m
                    | None => None
                    end
  end.

(** The rule of witness programs: one element is left, and it is true. *)
Definition spends (sp : Spending) (w : Witness) : bool :=
  match run sp (wit_script w) (rev (wit_stack w), []) with
  | Some ([x], []) => truthy x
  | _ => false
  end.

Lemma run_cons sp op script m :
  run sp (op :: script) m = match exec_op sp op m with
                            | Some m => run sp script m
                            | None => None
                            end.
Proof. done. Qed.

(** One operation in a branch that is taken, or that is not. *)
Ltac exec1 := rewrite run_cons; first [rewrite exec_taken by reflexivity|rewrite exec_skipped by reflexivity]; cbv iota.

Lemma truthy_bool b : truthy (scriptNum (Z.b2z b)) = b.
Proof. rewrite truthy_num. by destruct b. Qed.

Variables (sp : Spending) (taker maker phash : string) (csv : Z).
Hypothesis csv_range : 0 < csv < 2 ^ 31.

(** What is left after the signature of the taker was asked for. *)
Definition asks_taker (st : list string) : option Machine :=
  match st with
  | [] => None
  | sig :: st => b ← checks_sig sp taker sig; Some (scriptNum (Z.b2z b) :: st, [])
  end.

Lemma run_taker st :
  run sp [AddData taker; OP_CHECKSIG; OP_ELSE; AddInt64 csv; OP_CHECKSEQUENCEVERIFY; OP_ENDIF]
      (st, [true]) = asks_taker st.
Proof.
  exec1. destruct st as [|sig st]; exec1; [done|]. cbn [asks_taker].
  destruct (checks_sig sp taker sig); cbn [mbind option_bind]; [|done]. by repeat exec1.
Qed.

Definition asks_preimage (st : list string) : option Machine :=
  match st with
  | [] => None
  | pre :: st =>
      if bool_decide (String.length pre = 32%nat ∧ script_sha256 pre = phash)
      then asks_taker st else None
  end.

Definition asks_maker_again (st : list string) : option Machine :=
  match st with
  | [] => None
  | y :: st => b ← checks_sig sp maker y; if (b : bool) then asks_taker st else asks_preimage st
  end.

Lemma run_preimage st :
  run sp [OP_SIZE; AddData (h2b "20"); OP_EQUALVERIFY; OP_SHA256; AddData phash; OP_EQUALVERIFY;
          OP_ENDIF; AddData taker; OP_CHECKSIG; OP_ELSE; AddInt64 csv; OP_CHECKSEQUENCEVERIFY; OP_ENDIF]
      (st, [true; true]) = asks_preimage st.
Proof.
  destruct st as [|pre st]; [by exec1|]. do 2 exec1. exec1. rewrite <- scriptNum_byte.
  cbn [asks_preimage].
  rewrite (bool_decide_ext _ (String.length pre = 32%nat))
    by (split; [intros H%scriptNum_inj; lia|intros ->; done]).
  case_bool_decide as Hlen.
  2: { rewrite bool_decide_false by tauto. done. }
  do 2 exec1. exec1. rewrite (bool_decide_ext (phash = _) (script_sha256 pre = phash)) by done.
  case_bool_decide as Hsha; [|by rewrite bool_decide_false by tauto].
  rewrite bool_decide_true by done. exec1. apply run_taker.
Qed.

Lemma opening_script_run script st :
  GetOpeningTxScript taker maker phash csv = Ok script →
  run sp script (st, []) =
    match st with
    | [] => None
    | x :: st =>
        b ← checks_sig sp maker x;
        if (b : bool) then
          if sequence_reached sp csv then Some (scriptNum csv :: st, []) else None
        else asks_maker_again st
    end.
Proof.
  intros ->%build_ok. exec1. destruct st as [|x st]; exec1; [done|].
  destruct (checks_sig sp maker x) as [b|]; cbn [mbind option_bind]; [|done].
  exec1. rewrite truthy_bool. destruct b; cbn [negb].
  - do 15 exec1. rewrite scriptNum_read by lia. destruct (Z.leb_spec 0 csv); [|lia]. cbn [andb].
    destruct (sequence_reached sp csv); [|done]. by exec1.
  - exec1. destruct st as [|y st]; exec1; [done|]. cbn [asks_maker_again].
    destruct (checks_sig sp maker y) as [b|]; cbn [mbind option_bind]; [|done].
    exec1. rewrite truthy_bool. destruct b; cbn [negb]; [|apply run_preimage].
    do 7 exec1. apply run_taker.
Qed.
End execution.

(** ** The output *)

Section output.
Context {SR : ScriptRules}.

(** C10. The opening output can be spent in exactly three ways: with a signature of
    the maker and a sequence number that satisfies the relative lock time; with
    signatures of the taker and of the maker; with a signature of the taker and a
    32-byte preimage of the payment hash. *)
Theorem opening_output_spendable_iff sp taker maker phash csv script stack
    (H : GetOpeningTxScript taker maker phash csv = Ok script) (Hcsv : 0 < csv < 2 ^ 31) :
  spends sp (mkWitness stack script) = true ↔
    (∃ msig, stack = [msig] ∧
       checks_sig sp maker msig = Some true ∧ sequence_reached sp csv = true) ∨
    (∃ tsig msig no, stack = [tsig; msig; no] ∧ checks_sig sp maker no = Some false ∧
       checks_sig sp maker msig = Some true ∧ checks_sig sp taker tsig = Some true) ∨
    (∃ tsig pre no no', stack = [tsig; pre; no'; no] ∧
       checks_sig sp maker no = Some false ∧ checks_sig sp maker no' = Some false ∧
       String.length pre = 32%nat ∧ script_sha256 pre = phash ∧
       checks_sig sp taker tsig = Some true).
Proof.
  unfold spends. cbn [wit_stack wit_script].
  rewrite (opening_script_run sp taker maker phash csv Hcsv _ _ H).
  assert (Hst : ∀ l, stack = l ↔ rev stack = rev l).
  { intros l. split; [by intros ->|]. intros E%(f_equal (@rev _)). by rewrite !rev_involutive in E. }
  setoid_rewrite Hst. generalize (rev stack). clear Hst stack. intros st. cbn [rev app].
  split.
  - destruct st as [|x st]; [done|]. destruct (checks_sig sp maker x) as [[]|] eqn:Hx; cbn; [| |done].
    { destruct (sequence_reached sp csv) eqn:Hseq; [|done]. destruct st; [|done]. naive_solver. }
    destruct st as [|y st]; [done|]. cbn.
    destruct (checks_sig sp maker y) as [[]|] eqn:Hy; cbn; [| |done].
    + destruct st as [|z [|]]; cbn; [done| |by destruct (checks_sig sp taker z)].
      destruct (checks_sig sp taker z) eqn:Hz; cbn; [|done]. rewrite truthy_bool. naive_solver.
    + destruct st as [|pre st]; [done|]. cbn. case_bool_decide as Hpre; [|done].
      destruct st as [|z [|]]; cbn; [done| |by destruct (checks_sig sp taker z)].
      destruct (checks_sig sp taker z) eqn:Hz; cbn; [|done]. rewrite truthy_bool. naive_solver.
  - assert (Hb : truthy (scriptNum 1) = true) by apply (truthy_bool true).
    intros [(m & -> & -> & ->)|[(t & m & no & -> & -> & Hm & Ht)|(t & p & no & no' & -> & -> & Hno & Hp)]]; cbn.
    + rewrite truthy_num. case_bool_decide; [done|lia].
    + by rewrite Hm; cbn; rewrite Ht.
    + rewrite Hno; cbn. destruct Hp as (Hl & Hs & Ht). rewrite bool_decide_true by done. cbn.
      by rewrite Ht.
Qed.

(** The three witnesses the code builds spend the opening output exactly when
    the party that uses them is entitled to: [GetPreimageWitness] with a valid
    signature of the taker and the 32-byte preimage of the payment hash,
    [GetCooperativeWitness] with valid signatures of both, and [GetCsvWitness] with
    a valid signature of the maker once the time lock has passed. *)
Lemma witnesses_spend_the_output sp taker maker phash csv script tsig msig pre
    (H : GetOpeningTxScript taker maker phash csv = Ok script) (Hcsv : 0 < csv < 2 ^ 31)
    (Hempty : checks_sig sp maker "" = Some false) :
  let valid key sig := checks_sig sp key (sig +:+ SigHashAll) = Some true in
  (spends sp (GetPreimageWitness tsig pre script) = true ↔
     valid taker tsig ∧ String.length pre = 32%nat ∧ script_sha256 pre = phash) ∧
  (spends sp (GetCooperativeWitness tsig msig script) = true ↔ valid taker tsig ∧ valid maker msig) ∧
  (spends sp (GetCsvWitness msig script) = true ↔
     valid maker msig ∧ sequence_reached sp csv = true).
Proof.
  intros valid. unfold spends, valid.
  cbn [wit_stack wit_script GetPreimageWitness GetCooperativeWitness GetCsvWitness rev app].
  rewrite !(opening_script_run sp taker maker phash csv Hcsv _ _ H), Hempty.
  cbn [mbind option_bind asks_maker_again]. rewrite Hempty.
  cbn [mbind option_bind asks_preimage asks_taker]. split_and!.
  - case_bool_decide as Hpre; [|naive_solver].
    destruct (checks_sig sp taker (tsig +:+ SigHashAll)) as [b|]; cbn; [rewrite truthy_bool|]; naive_solver.
  - destruct (checks_sig sp maker (msig +:+ SigHashAll)) as [[]|] eqn:Hm; cbn; [| |naive_solver].
    + destruct (checks_sig sp taker (tsig +:+ SigHashAll)) as [b|]; cbn; [rewrite truthy_bool|]; naive_solver.
    + case_bool_decide; naive_solver.
  - destruct (checks_sig sp maker (msig +:+ SigHashAll)) as [[]|]; cbn; [|naive_solver|naive_solver].
    destruct (sequence_reached sp csv); [|naive_solver].
    rewrite truthy_num. case_bool_decide; [naive_solver|lia].
Qed.
End output.

(** ** A concrete machine *)

Fixpoint bits (p : positive) : string :=
  match p with
  | xH => ""
  | xO p => String "0" (bits p)
  | xI p => String "1" (bits p)
  end.
Fixpoint unbits (s : string) : positive :=
  match s with
  | "" => xH
  | String "0" s => xO (unbits s)
  | String _ s => xI (unbits s)
  end.
Definition demoNum (n : Z) : string :=
  match n with
  | 0 => ""
  | 32 => h2b "20"
  | Zpos p => String "+" (bits p)
  | Zneg p => String "-" (bits p)
  end.
Definition demoNum_decode (s : string) : Z :=
  match s with
  | "" => 0
  | String "+" s => Zpos (unbits s)
  | String "-" s => Zneg (unbits s)
  | _ => 32
  end.
Lemma unbits_bits p : unbits (bits p) = p.
Proof. induction p; cbn; congruence. Qed.
Lemma demoNum_decode_encode n : demoNum_decode (demoNum n) = n.
Proof.
  destruct (decide (n = 32)) as [->|]; [done|]. destruct n as [|p|p]; [done| |].
  - transitivity (demoNum_decode (String "+" (bits p))); [|cbn; by rewrite unbits_bits].
    f_equal. do 6 (destruct p as [p|p|]; try done).
  - cbn. by rewrite unbits_bits.
Qed.

Definition demo_exec (sp : Spending) (op : ScriptOp) (m : Machine) : option Machine :=
  let (st, c) := m in
  if existsb negb c then
    match op, c with
    | OP_NOTIF, _ => Some (st, false :: c)
    | OP_ELSE, b :: c => Some (st, negb b :: c)
    | OP_ENDIF, _ :: c => Some (st, c)
    | _, _ => Some (st, c)
    end
  else
    match op, st, c with
    | AddData d, _, _ => Some (d :: st, c)
    | AddInt64 n, _, _ => Some (demoNum n :: st, c)
    | OP_CHECKSIG, pk :: sig :: st, _ =>
        match checks_sig sp pk sig with
        | Some b => Some (demoNum (Z.b2z b) :: st, c)
        | None => None
        end
    | OP_NOTIF, x :: st, _ => Some (st, negb (bool_decide (x ≠ "")) :: c)
    | OP_SIZE, x :: st, _ => Some (demoNum (Z.of_nat (String.length x)) :: x :: st, c)
    | OP_EQUALVERIFY, x :: y :: st, _ => if bool_decide (x = y) then Some (st, c) else None
    | OP_SHA256, x :: st, _ => Some (x :: st, c)
    | OP_ELSE, _, b :: c => Some (st, negb b :: c)
    | OP_ENDIF, _, _ :: c => Some (st, c)
    | OP_CHECKSEQUENCEVERIFY, x :: st, _ =>
        let n := demoNum_decode x in
        if (0 <=? n) && sequence_reached sp n then Some (x :: st, c) else None
    | _, _, _ => None
    end.
Definition demo_build (s : Script) : result Script :=
  if forallb (λ op, match op with
                    | AddData d => (String.length d <=? 520)%nat
                    | _ => true
                    end) s && (length s <=? 19)%nat
  then Ok s else Err (ErrText "script too long").

#[local] Instance demo_rules : ScriptRules.
Proof.
  refine {| build_script := demo_build; exec_op := demo_exec; script_sha256 := λ x, x;
            scriptNum := demoNum; scriptNum_decode := λ s, Some (demoNum_decode s);
            truthy := λ s, bool_decide (s ≠ "") |}.
  - intros s Hs Hl. unfold demo_build. rewrite (proj2 (forallb_forall _ _)).
    + by rewrite (proj2 (Nat.leb_le _ _) Hl).
    + intros op Hop. rewrite list_elem_of_In in Hop || idtac.
      rewrite Forall_forall in Hs. specialize (Hs op).
      destruct op; try done. apply Nat.leb_le, Hs. by apply list_elem_of_In.
  - intros s s'. unfold demo_build. case_match; naive_solver.
  - intros m n E%(f_equal demoNum_decode). by rewrite !demoNum_decode_encode in E.
  - done.
  - intros n _. by rewrite demoNum_decode_encode.
  - intros n. apply bool_decide_ext. split; [by intros Hn ->|].
    intros Hn E. apply Hn. rewrite <- (demoNum_decode_encode n). by rewrite E.
  - intros sp op st c Hc. unfold demo_exec. by rewrite Hc.
  - intros sp op st c Hc. unfold demo_exec. rewrite Hc. done.
Defined.

(** A signature of the demo chain is the key followed by the hash type. *)
Definition demo_spending (age : Z) : Spending :=
  mkSpending (λ pk sig, Some (bool_decide (sig = pk +:+ SigHashAll))) (λ n, n <=? age).
Definition demo_preimage : string := "0123456789abcdef0123456789abcdef".
Definition demo_script : Script :=
  match GetOpeningTxScript "T" "M" (script_sha256 demo_preimage) 144 with
  | Ok s => s
  | _ => []
  end.

Lemma opening_output_spendable_iff_witness :
  GetOpeningTxScript "T" "M" (script_sha256 demo_preimage) 144 = Ok demo_script ∧
  checks_sig (demo_spending 144) "M" ("M" +:+ SigHashAll) = Some true ∧
  spends (demo_spending 144) (mkWitness ["M" +:+ SigHashAll] demo_script) = true ∧
  spends (demo_spending 143) (mkWitness ["M" +:+ SigHashAll] demo_script) = false.
Proof.
  split; [reflexivity|]. split; [reflexivity|]. split; [|vm_compute; reflexivity].
  apply (opening_output_spendable_iff (demo_spending 144) "T" "M" (script_sha256 demo_preimage) 144);
    [reflexivity|lia|]. left. eexists. split; [reflexivity|]. split; reflexivity.
Defined.

Lemma witnesses_spend_the_output_witness :
  checks_sig (demo_spending 7) "M" "" = Some false ∧
  spends (demo_spending 7) (GetPreimageWitness "T" demo_preimage demo_script) = true ∧
  spends (demo_spending 7) (GetPreimageWitness "M" demo_preimage demo_script) = false.
Proof.
  split; [reflexivity|]. split; [|vm_compute; reflexivity].
  apply (witnesses_spend_the_output (demo_spending 7) "T" "M" (script_sha256 demo_preimage) 144
           demo_script "T" "M" demo_preimage); [reflexivity|lia|reflexivity|].
  split; [reflexivity|]. split; reflexivity.
Defined.
