(* ===== verification/Fees.v ===== *)
(** * Fee estimation (src/onchain/estimator.go, fee_floor.go, and [GetFee] of bitcoin.go)

    The rate of a bitcoin transaction comes from bitcoind or lnd and is floored
    twice: by the estimator over bitcoind, whose manager keeps the minimum fee of
    the mempool, and by [GetFee].  The answers of the nodes are questions
    ([FeeRpc]); an [Estimator] is the interface [GetFee] is written against. *)

From S2P Require Import Prelude GoLib Oracle Version.

(** ** float64: the quotient of two integers and its product with an integer

    A positive float is its 53-bit mantissa [m] and the exponent [k] of [m / 2^k]. *)

(** [n / d] rounded to an integer, ties to even, for [d > 0]. *)
Definition round_div (n d : Z) : Z :=
  let q := n / d in
  let r := n mod d in
  if (d <? 2 * r) || ((2 * r =? d) && Z.odd q) then q + 1 else q.

(** [2 ^ k] for [k >= 0], and 1 below: [n / 2 ^ k] is [n * pow (- k) / pow k]. *)
Definition pow (k : Z) : Z := 2 ^ (k `max` 0).

(** [float64(a) / float64(b)] of positive integers, of which [b] is below 2^53. *)
Definition quot_float (a b : Z) : Z * Z :=
  let a := float64.rnd53 a in
  let k := 53 - (Z.log2 a - Z.log2 b) in
  let k := if 2 ^ 53 <=? a * pow k / (b * pow (- k)) then k - 1 else k in
  (round_div (a * pow k) (b * pow (- k)), k).

(** The integer part of [f * float64(n)], for a positive [f] and [n >= 0]. *)
Definition mul_trunc (f : Z * Z) (n : Z) : Z :=
  float64.rnd53 (fst f * float64.rnd53 n) * pow (- snd f) / pow (snd f).

(** ** Rates *)

(** [btcutil.Amount] is an int64; [NewAmount] converts a float of BTC. *)
Class FeeLib := {
  BTC : Type;
  NewAmount : BTC → result Z;
}.

Module FeeRpc.
(** The calls of [GBitcoindBackend], of lnd's wallet kit, and the clock. *)
Inductive Call :=
  | Ping
  | GetMempoolInfo
  | EstimateFee (blocks : Z) (mode : string)
  | WalletEstimateFee (ConfTarget : Z)
  | TimeNow.

Definition answer `{FeeLib} (c : Call) : Type :=
  match c with
  | Ping => bool * option error
  | GetMempoolInfo | EstimateFee _ _ => result BTC
  | WalletEstimateFee _ => result (option Z)
  | TimeNow => Z
  end.

#[export] Instance FCall_eq_dec : EqDecision Call.
Proof. solve_decision. Defined.
End FeeRpc.
Import FeeRpc.

(** A component that can put these calls: the question it asks for one has the
    answer of that call, changes no state, and leaves only [fee_event]s. *)
Class FeeBackend `{FeeLib} {Q} (A : Q → Type) := {
  fee_query : ∀ {S} (c : FeeRpc.Call), IO A S (FeeRpc.answer c);
  fee_event : Event A → Prop;
  fee_query_answers : ∀ {S} c t (s : S), ∃ new a,
    fee_query c (t, s) = Ret (new ++ t, s) a ∧ Forall fee_event new;
}.

(** The estimators on their own. *)
#[export] Instance fee_rpc_backend `{FeeLib} {OR : Oracle FeeRpc.answer} : FeeBackend FeeRpc.answer.
Proof.
  refine {| fee_query := λ S c, query c; fee_event := λ _, True |}.
  intros S c t s. exists [event c (reply t c)], (reply t c). split; [done|]. by constructor.
Defined.

Definition witnessScaleFactor : Z := 4.
(** ten minutes, in nanoseconds *)
Definition defaultUpdateInterval : Z := 600 * 10 ^ 9.
Definition DefaultBitcoinStaticFeePerKW : Z := 12500.
Definition BitcoinFeeTargetBlocks : Z := 6.

Record minFeeManager := mkMinFeeManager {
  minFeePerKW : Z;
  lastUpdatedTime : Z;
  minUpdateInterval : Z;
  mgr_feeFloorSatPerKw : Z;
}.
#[export] Instance eta_minFeeManager : Eta minFeeManager := λ m, mkMinFeeManager
  (minFeePerKW m) (lastUpdatedTime m) (minUpdateInterval m) (mgr_feeFloorSatPerKw m).

Record GBitcoindEstimator := mkGBitcoindEstimator {
  estimateMode : string;
  fallbackFeeRate : Z;
  feeFloorSatPerKw : Z;
  manager : option minFeeManager;
}.
#[export] Instance eta_GBitcoind : Eta GBitcoindEstimator := λ g, mkGBitcoindEstimator
  (estimateMode g) (fallbackFeeRate g) (feeFloorSatPerKw g) (manager g).

Section fees.
Context {FL : FeeLib} {Q} {A : Q → Type} {FB : FeeBackend A}.
Abbreviation Io := (IO A).

(** *** The minimum fee manager *)
Definition newMinFeeManager {S} (interval feeFloor : Z) (fetchMinFee : Io S (result Z))
    : Io S (result minFeeManager) :=
  let? minFee := fetchMinFee else e => mret (Err e) in
  now ← fee_query TimeNow;
  mret (Ok (mkMinFeeManager (minFee `max` feeFloor) now interval feeFloor)).

(** [fetchFeeFunc] is the same function for every manager of an estimator. *)
Definition fetchMinFee (fetchFeeFunc : Io minFeeManager (result Z)) : Io minFeeManager Z :=
  m ← look;
  now ← fee_query TimeNow;
  if now - lastUpdatedTime m <? minUpdateInterval m then mret (minFeePerKW m)
  else
    r ← fetchFeeFunc;
    match r with
    | Err _ => mret (minFeePerKW m)
    | Ok newMinFee =>
        update (λ m, m <| minFeePerKW := newMinFee `max` mgr_feeFloorSatPerKw m |>);;
        now ← fee_query TimeNow;
        update (λ m, m <| lastUpdatedTime := now |>);;
        m ← look;
        mret (minFeePerKW m)
    end.

(** *** The estimator over bitcoind *)
Definition NewGBitcoindEstimator {S} (mode : string) (fallBackFeeRate floor : Z)
    : Io S (option GBitcoindEstimator * option error) :=
  '(ok, err) ← fee_query Ping;
  if (ok : bool) then mret (Some (mkGBitcoindEstimator mode fallBackFeeRate floor None), None)
  else mret (None, err).

(** Go's division of integers truncates. *)
Definition fetchMinMempoolFee {S} : Io S (result Z) :=
  let? mempoolMinFee := fee_query GetMempoolInfo else e => mret (Err e) in
  match NewAmount mempoolMinFee with
  | Err e => mret (Err e)
  | Ok minMempoolFee => mret (Ok (Z.quot minMempoolFee witnessScaleFactor))
  end.

Definition Start : Io GBitcoindEstimator (option error) :=
  g ← look;
  let? m := newMinFeeManager defaultUpdateInterval (feeFloorSatPerKw g) fetchMinMempoolFee
    else e => mret (Some e) in
  update (λ g, g <| manager := Some m |>);;
  mret None.

(** The floor of the manager, or the configured one before [Start]. *)
Definition currentFeeFloor : Io GBitcoindEstimator Z :=
  g ← look;
  match manager g with
  | None => mret (feeFloorSatPerKw g)
  | Some m => focus (λ _, m) (λ m g, g <| manager := Some m |>) (fetchMinFee fetchMinMempoolFee)
  end.

(** The call of bitcoind; the inner [estimateFee] of the estimator. *)
Definition estimateFee (targetBlocks : Z) : Io GBitcoindEstimator (result Z) :=
  g ← look;
  let? feeRate := fee_query (EstimateFee targetBlocks (estimateMode g)) else e => mret (Err e) in
  match NewAmount feeRate with
  | Err e => mret (Err e)
  | Ok satPerKB =>
      let satPerKw := Z.quot satPerKB witnessScaleFactor in
      minRelayFee ← currentFeeFloor;
      mret (Ok (if satPerKw <? minRelayFee then minRelayFee else satPerKw))
  end.

(** [Estimator]: estimates a rate in sat/kw; the estimator keeps its state in [S]. *)
Class Estimator (S : Type) := EstimateFeePerKW : Z → Io S (result Z).

#[export] Instance GBitcoind_EstimateFeePerKW : Estimator GBitcoindEstimator := λ targetBlocks,
  let fall_back :=
    g ← look;
    floor ← currentFeeFloor;
    mret (Ok (fallbackFeeRate g `max` floor)) in
  let? feeEstimate := estimateFee targetBlocks else e => fall_back in
  if feeEstimate =? 0 then fall_back else mret (Ok feeEstimate).

(** *** The estimators over lnd and on regtest *)
Record LndEstimator := mkLndEstimator { lnd_fallbackFeeRate : Z }.

#[export] Instance Lnd_EstimateFeePerKW : Estimator LndEstimator := λ targetBlocks,
  l ← look;
  res ← fee_query (WalletEstimateFee (if targetBlocks <? 2 ^ 31 then targetBlocks else targetBlocks - 2 ^ 32));
  match res with
  | Err _ | Ok None => mret (Ok (lnd_fallbackFeeRate l))
  | Ok (Some satPerKw) =>
      if satPerKw =? 0 then mret (Ok (lnd_fallbackFeeRate l)) else mret (Ok satPerKw)
  end.

Inductive RegtestFeeEstimator := NewRegtestFeeEstimator.

#[export] Instance Regtest_EstimateFeePerKW : Estimator RegtestFeeEstimator := λ _,
  mret (Ok DefaultBitcoinStaticFeePerKW).

(** ** [BitcoinOnChain.GetFee] *)

(** The fields of [BitcoinOnChain] but the estimator and the chain parameters. *)
Record BitcoinOnChain := mkBitcoinOnChain {
  fallbackFeeRateSatPerKw : Z;
  btc_feeFloorSatPerKw : Z;
}.

(** The fee of [txSize] bytes at a rate in sat/kw.  The product with
    [witnessScaleFactor] wraps; a negative product converts to uint64 as on amd64. *)
Definition fee_at (satPerKw txSize : Z) : Z :=
  let satPerKb := i64 (satPerKw * witnessScaleFactor) in
  let fee := mul_trunc (quot_float (Z.abs satPerKb) 1000) (Z.abs txSize) in
  if 0 <=? satPerKb * txSize then float64.to_uint64 fee
  else if fee <=? 2 ^ 63 then u64 (- fee) else 2 ^ 63.

(** The rate [GetFee] takes. *)
Definition fee_rate {S} `{!Estimator S} (b : BitcoinOnChain) : Io S Z :=
  r ← EstimateFeePerKW BitcoinFeeTargetBlocks;
  let satPerKw := match r with
                  | Err _ => fallbackFeeRateSatPerKw b
                  | Ok satPerKw => if satPerKw =? 0 then fallbackFeeRateSatPerKw b else satPerKw
                  end in
  mret (if satPerKw <? btc_feeFloorSatPerKw b then btc_feeFloorSatPerKw b else satPerKw).

Definition GetFee {S} `{!Estimator S} (b : BitcoinOnChain) (txSize : Z) : Io S (result Z) :=
  satPerKw ← fee_rate b;
  mret (Ok (fee_at satPerKw txSize)).
End fees.

(** ** The floor for a version of Bitcoin Core (fee_floor.go) *)
Definition modernFeeFloorMajor : Z := 29.
Definition modernFeeFloorMinor : Z := 2.
Definition LegacyFeeFloorSatPerKw : Z := 253.
Definition ModernFeeFloorSatPerKw : Z := 25.

Record bitcoinVersion := mkBitcoinVersion { major : Z; minor : Z; patch : Z }.

Definition bitcoinVersion_String (v : bitcoinVersion) : string :=
  strconv.Itoa (major v) +:+ "." +:+ strconv.Itoa (minor v) +:+ "." +:+ strconv.Itoa (patch v).

(** The longest run of digits at the start of a string, and the rest. *)
Fixpoint digit_run (s : string) : string * string :=
  match s with
  | String c rest => if is_digit c then let '(d, r) := digit_run rest in (String c d, r) else ("", s)
  | EmptyString => ("", "")
  end.

(** The group [(?:\.(\d+))?]: empty when it does not match. *)
Definition dot_digits (s : string) : string * string :=
  match s with
  | String "." rest => match digit_run rest with
                       | ("", _) => ("", s)
                       | dr => dr
                       end
  | _ => ("", s)
  end.

(** The submatches of [(\d+)(?:\.(\d+))?(?:\.(\d+))?]. *)
Fixpoint FindStringSubmatch (s : string) : option (string * string * string) :=
  match s with
  | EmptyString => None
  | String c rest =>
      if is_digit c then
        let '(d1, r1) := digit_run s in
        let '(d2, r2) := dot_digits r1 in
        let '(d3, _) := dot_digits r2 in
        Some (d1, d2, d3)
      else FindStringSubmatch rest
  end.

Definition parseVersionSegment (segment : string) : Z :=
  match segment with
  | "" => 0
  | _ => match strconv.Atoi segment with Ok value => value | Err _ => 0 end
  end.

Definition normalizeBitcoinVersion (input : string) : option bitcoinVersion :=
  match FindStringSubmatch input with
  | None => None
  | Some (m1, m2, m3) =>
      match strconv.Atoi m1 with
      | Err _ => None
      | Ok major => Some (mkBitcoinVersion major (parseVersionSegment m2) (parseVersionSegment m3))
      end
  end.

Definition DetermineFeeFloor (versionString : string) : Z * string :=
  match normalizeBitcoinVersion versionString with
  | None => (LegacyFeeFloorSatPerKw, "")
  | Some v =>
      if (modernFeeFloorMajor <? major v) ||
         ((major v =? modernFeeFloorMajor) && (modernFeeFloorMinor <=? minor v))
      then (ModernFeeFloorSatPerKw, bitcoinVersion_String v)
      else (LegacyFeeFloorSatPerKw, bitcoinVersion_String v)
  end.
