(* ===== verification/FeeProofs.v ===== *)
(** * What the fee estimation guarantees

    The float arithmetic of [GetFee] is exact up to the rounding down of the
    result; the rate is never below the floor; the estimator over bitcoind also
    respects the minimum of the mempool and asks for it at most every ten minutes. *)

From S2P Require Import Prelude GoLib Oracle Version Fees.
Import FeeRpc.

(** ** Float arithmetic *)
Lemma pow_pos k : 0 < pow k.
Proof. unfold pow. apply Z.pow_pos_nonneg; lia. Qed.
Lemma pow_nonneg k : 0 ≤ k → pow k = 2 ^ k ∧ pow (- k) = 1.
Proof.
  intros Hk. unfold pow. rewrite (Z.max_l k) by done. rewrite Z.max_r by lia. done.
Qed.

Lemma round_div_close n d : 0 < d → 2 * Z.abs (d * round_div n d - n) ≤ d.
Proof.
  intros Hd. unfold round_div. pose proof (Z.div_mod n d ltac:(lia)) as Hn.
  pose proof (Z.mod_pos_bound n d Hd). set (q := n / d) in *. set (r := n mod d) in *.
  destruct (Z.ltb_spec d (2 * r)) as [Hlt|Hlt]; cbn [orb]; [lia|].
  destruct (Z.eqb_spec (2 * r) d); cbn [andb]; [destruct (Z.odd q)|]; lia.
Qed.

Lemma round_div_lower n d : n / d ≤ round_div n d.
Proof. unfold round_div. case_match; lia. Qed.

Lemma rnd53_close n : 0 ≤ n → Z.abs (float64.rnd53 n - n) * 2 ^ 53 ≤ n.
Proof.
  intros Hn. unfold float64.rnd53. destruct (Z.leb_spec (Z.log2 n - 52) 0) as [He|He]; [lia|].
  set (e := Z.log2 n - 52) in *.
  assert (2 ^ (e + 52) ≤ n) as Hlow.
  { replace (e + 52) with (Z.log2 n) by lia. apply Z.log2_spec.
    destruct (decide (n = 0)) as [->|]; [done|lia]. }
  assert (2 ^ e = 2 * 2 ^ (e - 1)) as He2 by (rewrite <- Z.pow_succ_r by lia; f_equal; lia).
  rewrite Z.pow_add_r in Hlow by lia. set (h := 2 ^ (e - 1)) in *.
  assert (0 < h) by (apply Z.pow_pos_nonneg; lia).
  rewrite He2 in *. replace (2 * h / 2) with h by (rewrite Z.mul_comm, Z.div_mul by done; done).
  pose proof (Z.div_mod n (2 * h) ltac:(lia)) as Hd. pose proof (Z.mod_pos_bound n (2 * h) ltac:(lia)).
  set (q := n / (2 * h)) in *. set (r := n mod (2 * h)) in *.
  assert (Z.abs ((if (h <? r) || ((r =? h) && Z.odd q) then q + 1 else q) * (2 * h) - n) ≤ h); [|lia].
  destruct (Z.ltb_spec h r); cbn [orb]; [lia|].
  destruct (Z.eqb_spec r h); cbn [andb]; [destruct (Z.odd q)|]; lia.
Qed.

(** The quotient by 1000 has 53 bits, and so the error of its last one. *)
Lemma quot_float_close a :
  0 < a < 2 ^ 53 →
  let '(m, k) := quot_float a 1000 in
  0 < k ∧ Z.abs (1000 * m - a * 2 ^ k) * 2 ^ 53 ≤ 1000 * m.
Proof.
  intros Ha. unfold quot_float. rewrite float64.rnd53_exact by lia.
  change (Z.log2 1000) with 9. pose proof (Z.log2_spec a ltac:(lia)) as [Hl _].
  assert (Z.log2 a < 53) by (apply Z.log2_lt_pow2; lia). pose proof (Z.log2_nonneg a).
  set (k0 := 53 - (Z.log2 a - 9)). assert (10 ≤ k0) by (unfold k0; lia).
  destruct (pow_nonneg k0 ltac:(lia)) as [-> ->].
  assert (2 ^ 62 ≤ a * 2 ^ k0) as Hbig.
  { transitivity (2 ^ Z.log2 a * 2 ^ k0).
    - rewrite <- Z.pow_add_r by lia. apply Z.pow_le_mono_r; [done|]. unfold k0. lia.
    - apply Z.mul_le_mono_nonneg_r; [|done]. apply Z.pow_nonneg. lia. }
  rewrite Z.mul_1_r.
  assert (∀ k, 0 < k → 2 ^ 52 ≤ a * 2 ^ k / 1000 →
    0 < k ∧ Z.abs (1000 * round_div (a * pow k) (1000 * pow (- k)) - a * 2 ^ k) * 2 ^ 53
            ≤ 1000 * round_div (a * pow k) (1000 * pow (- k))) as Hend.
  { intros k Hk Hq. split; [done|]. destruct (pow_nonneg k ltac:(lia)) as [-> ->].
    rewrite Z.mul_1_r. pose proof (round_div_close (a * 2 ^ k) 1000 ltac:(lia)).
    pose proof (round_div_lower (a * 2 ^ k) 1000). lia. }
  destruct (Z.leb_spec (2 ^ 53) (a * 2 ^ k0 / 1000)) as [Hq|Hq]; apply Hend; try lia.
  - assert (a * 2 ^ k0 = a * 2 ^ (k0 - 1) * 2) as E.
    { replace k0 with (Z.succ (k0 - 1)) at 1 by lia. rewrite Z.pow_succ_r by lia. lia. }
    rewrite E in Hq. apply Z.div_le_lower_bound; [done|].
    pose proof (Z.mul_div_le (a * 2 ^ (k0 - 1) * 2) 1000 ltac:(lia)). lia.
  - apply Z.div_le_lower_bound; [done|]. lia.
Qed.

(** The fee is the exact quotient rounded down, or one less when that is exact. *)
Lemma fee_at_close r size :
  0 < r → 0 ≤ size < 2 ^ 53 → 4 * r < 2 ^ 53 → 4 * r * size < 2 ^ 51 →
  1000 * fee_at r size ≤ 4 * r * size ≤ 1000 * fee_at r size + 1000.
Proof.
  intros Hr Hs H53 Hx. unfold fee_at, witnessScaleFactor.
  rewrite i64_small by (unfold is_i64; lia). replace (r * 4) with (4 * r) by lia.
  set (a := 4 * r) in *. rewrite (Z.abs_eq a), (Z.abs_eq size) by lia.
  destruct (Z.leb_spec 0 (a * size)) as [_|]; [|lia].
  pose proof (quot_float_close a ltac:(lia)) as Hq. unfold mul_trunc.
  destruct (quot_float a 1000) as [m k]. destruct Hq as [Hk Hq]. cbn [fst snd].
  destruct (pow_nonneg k ltac:(lia)) as [-> ->]. rewrite Z.mul_1_r.
  rewrite (float64.rnd53_exact size) by lia.
  assert (0 ≤ m) as Hm by (destruct (decide (0 ≤ m)); [done|lia]).
  pose proof (rnd53_close (m * size) ltac:(apply Z.mul_nonneg_nonneg; lia)) as HR. set (R := float64.rnd53 (m * size)) in *.
  assert (0 < 2 ^ k) as Hp by (apply Z.pow_pos_nonneg; lia). set (p := 2 ^ k) in *.
  assert (Z.abs (1000 * (m * size) - a * size * p) * 2 ^ 53 ≤ 1000 * (m * size)) as HN.
  { replace (1000 * (m * size) - a * size * p) with ((1000 * m - a * p) * size) by lia.
    rewrite Z.abs_mul, (Z.abs_eq size) by lia.
    pose proof (Z.mul_le_mono_nonneg_r _ _ size ltac:(lia) Hq). lia. }
  assert (0 ≤ m * size) by (by apply Z.mul_nonneg_nonneg; lia).
  set (N := m * size) in *. set (x := a * size) in *.
  assert (x * p < 2 ^ 51 * p) by (by apply Z.mul_lt_mono_pos_r).
  assert (Z.abs (1000 * R - x * p) < p) as Herr by lia.
  assert (0 ≤ R < 2 ^ 64 * p) as HRp by lia.
  pose proof (Z.div_mod R p ltac:(lia)). pose proof (Z.mod_pos_bound R p Hp).
  assert (0 ≤ R / p < 2 ^ 64).
  { split; [apply Z.div_pos; lia|]. apply Z.div_lt_upper_bound; lia. }
  set (f := R / p) in *. unfold float64.to_uint64. destruct (Z.ltb_spec f (2 ^ 64)); [|lia].
  split; apply Z.lt_succ_r, (Z.mul_lt_mono_pos_r p); lia.
Qed.

(** ** The estimators *)
Section estimators.
Context {FL : FeeLib} {Q} {A : Q → Type} {FB : FeeBackend A}.

(** The record has grown by calls of the fee backend only. *)
Definition fee_grown (t t' : Trace A) : Prop := ∃ new, t' = new ++ t ∧ Forall fee_event new.
Lemma fee_grown_refl t : fee_grown t t.
Proof. by exists []. Qed.
Lemma fee_grown_trans t1 t2 t3 : fee_grown t1 t2 → fee_grown t2 t3 → fee_grown t1 t3.
Proof.
  intros (n1 & -> & H1) (n2 & -> & H2). exists (n2 ++ n1). split; [by rewrite app_assoc|].
  by apply Forall_app.
Qed.
Lemma wp_fee_query {S} c (P : FeeRpc.answer c → Trace A * S → Prop) R t s :
  (∀ t' a, fee_grown t t' → P a (t', s)) → wp (fee_query c) P R (t, s).
Proof.
  intros HP. destruct (fee_query_answers c t s) as (new & a & E & Hn).
  unfold wp. rewrite E. apply HP. by exists new.
Qed.

Ltac fee_step :=
  lazymatch goal with
  | |- wp (fee_query ?c) ?P _ _ => refine (wp_fee_query c P _ _ _ _); intros ? ? ?
  | _ => io_step
  end.
Ltac grown := eauto using fee_grown_trans, fee_grown_refl.

(** An estimator always answers, and keeps the invariant of its state. *)
Class EstimatorOk {S} (E : Estimator S) (inv : S → Prop) :=
  estimator_answers : ∀ blocks t s, inv s →
    wp (EstimateFeePerKW blocks) (λ _ '(t', s'), fee_grown t t' ∧ inv s') no_stop (t, s).

(** The floor of the manager is the estimator's, and its minimum respects it. *)
Definition manager_ok (floor : Z) (m : minFeeManager) : Prop :=
  mgr_feeFloorSatPerKw m = floor ∧ floor ≤ minFeePerKW m.
Definition estimator_ok (g : GBitcoindEstimator) : Prop :=
  ∀ m, manager g = Some m → manager_ok (feeFloorSatPerKw g) m.

(** What stays of an estimator, and the minimum it has learned. *)
Definition same_config (g g' : GBitcoindEstimator) : Prop :=
  feeFloorSatPerKw g' = feeFloorSatPerKw g ∧ fallbackFeeRate g' = fallbackFeeRate g ∧
  estimateMode g' = estimateMode g ∧ (is_Some (manager g') ↔ is_Some (manager g)).
Definition current_minimum (g : GBitcoindEstimator) : Z :=
  match manager g with
  | Some m => minFeePerKW m
  | None => feeFloorSatPerKw g
  end.

Lemma fetchMinMempoolFee_keeps {S} t (s : S) :
  wp fetchMinMempoolFee (λ _ '(t', s'), fee_grown t t' ∧ s' = s) no_stop (t, s).
Proof.
  unfold fetchMinMempoolFee. do 2 fee_step. case_match; [|apply wp_ret; grown].
  case_match; apply wp_ret; grown.
Qed.

Lemma fetchMinFee_ok floor t m :
  manager_ok floor m →
  wp (fetchMinFee fetchMinMempoolFee)
     (λ v '(t', m'), fee_grown t t' ∧ manager_ok floor m' ∧ v = minFeePerKW m') no_stop (t, m).
Proof.
  intros [Hf Hm]. unfold fetchMinFee. do 4 fee_step.
  case_match; [by apply wp_ret|]. fee_step.
  eapply wp_mono; [apply fetchMinMempoolFee_keeps| |done]. intros r [t2 m'] [Ht ->].
  destruct r as [v|e]; [|apply wp_ret; split_and!; [grown|done..]].
  repeat fee_step. split; [grown|]. cbn. split; [|done]. split; cbn; lia.
Qed.

Lemma currentFeeFloor_ok t g :
  estimator_ok g →
  wp currentFeeFloor (λ v '(t', g'), fee_grown t t' ∧ estimator_ok g' ∧ same_config g g' ∧
        v = current_minimum g') no_stop (t, g).
Proof.
  intros Hg. unfold currentFeeFloor. do 2 fee_step. unfold current_minimum.
  destruct (manager g) as [m|] eqn:E.
  - fee_step. eapply wp_mono; [apply fetchMinFee_ok, Hg, E| |done]. intros v [t' m'] (Ht & Hm & ->).
    unfold estimator_ok, same_config. cbn. rewrite E. naive_solver.
  - apply wp_ret. rewrite E. split; [grown|]. unfold same_config. naive_solver.
Qed.

(** The estimator over bitcoind: see [bitcoind_estimate_respects_minimum]. *)
Definition respects (g : GBitcoindEstimator) (r : result Z) (g' : GBitcoindEstimator) : Prop :=
  estimator_ok g' ∧ same_config g g' ∧
  ∃ v, r = Ok v ∧ feeFloorSatPerKw g ≤ v ∧ current_minimum g' ≤ v.

Lemma minimum_above_floor g : estimator_ok g → feeFloorSatPerKw g ≤ current_minimum g.
Proof.
  unfold current_minimum. intros Hg. destruct (manager g) as [m|] eqn:E; [|lia].
  apply (Hg m E).
Qed.

Lemma same_config_trans g1 g2 g3 : same_config g1 g2 → same_config g2 g3 → same_config g1 g3.
Proof. unfold same_config. intros (-> & -> & -> & ->) (-> & -> & -> & ->). done. Qed.

Lemma estimateFee_ok blocks t g :
  estimator_ok g →
  wp (estimateFee blocks) (λ r '(t', g'), fee_grown t t' ∧ estimator_ok g' ∧ same_config g g' ∧
        ∀ v, r = Ok v → current_minimum g' ≤ v) no_stop (t, g).
Proof.
  intros Hg. unfold estimateFee. do 4 fee_step. case_match; [|by apply wp_ret].
  case_match; [|by apply wp_ret].
  fee_step. eapply wp_mono; [by apply currentFeeFloor_ok| |done].
  intros v [t2 g'] (Ht & Hg' & Hs & ->). apply wp_ret. split; [grown|]. split; [done|].
  split; [done|]. intros v [= <-]. case_match eqn:E; [lia|]. apply Z.ltb_ge in E. lia.
Qed.

Lemma fall_back_ok t0 t g0 g :
  fee_grown t0 t → estimator_ok g → same_config g0 g →
  wp (g ← look; floor ← currentFeeFloor; mret (Ok (fallbackFeeRate g `max` floor)))
     (λ r '(t', g'), fee_grown t0 t' ∧ respects g0 r g') no_stop (t, g).
Proof.
  intros Ht0 Hg Hs. do 3 fee_step. eapply wp_mono; [by apply currentFeeFloor_ok| |done].
  intros v [t' g'] (Ht & Hg' & Hs' & ->). apply wp_ret.
  pose proof (minimum_above_floor g' Hg') as Hm.
  pose proof (same_config_trans _ _ _ Hs Hs') as Hs2. pose proof (proj1 Hs2) as Hfloor.
  split; [grown|]. split; [done|]. split; [done|]. eexists. split; [done|]. rewrite <- Hfloor. lia.
Qed.

Lemma EstimateFeePerKW_respects blocks t g :
  estimator_ok g →
  wp (EstimateFeePerKW (S := GBitcoindEstimator) blocks)
     (λ r '(t', g'), fee_grown t t' ∧ respects g r g') no_stop (t, g).
Proof.
  intros Hg. unfold EstimateFeePerKW, GBitcoind_EstimateFeePerKW. fee_step.
  eapply wp_mono; [by apply estimateFee_ok| |done]. intros [v|e] [t' g'] (Ht & Hg' & Hs & Hv).
  - case_match; [by apply fall_back_ok|]. apply wp_ret. specialize (Hv v eq_refl).
    pose proof (minimum_above_floor g' Hg'). pose proof (proj1 Hs) as Hfloor.
    split; [done|]. split; [done|]. split; [done|]. exists v. split; [done|]. lia.
  - by apply fall_back_ok.
Qed.

#[export] Instance bitcoind_answers : EstimatorOk GBitcoind_EstimateFeePerKW estimator_ok.
Proof.
  intros blocks t g Hg. eapply wp_mono; [by apply EstimateFeePerKW_respects| |done].
  by intros r [t' g'] (? & ? & _).
Qed.
#[export] Instance lnd_answers : EstimatorOk Lnd_EstimateFeePerKW (λ _, True).
Proof.
  intros blocks t l _. unfold EstimateFeePerKW, Lnd_EstimateFeePerKW. do 4 fee_step.
  repeat case_match; by apply wp_ret.
Qed.
#[export] Instance regtest_answers : EstimatorOk Regtest_EstimateFeePerKW (λ _, True).
Proof. intros blocks t [] _. split; [grown|done]. Qed.

(** Whatever bitcoind answers, an estimate ends with a rate, which is at least the
    configured floor and at least the minimum fee of the mempool as the manager
    knows it afterwards; the configuration stays and the manager keeps its minimum
    above the floor.  The same holds of the minimum right after [Start]. *)
Theorem bitcoind_estimate_respects_minimum (blocks : Z) (t : Trace A) (g : GBitcoindEstimator) :
  (estimator_ok g → ∃ t' g' r,
     EstimateFeePerKW (S := GBitcoindEstimator) blocks (t, g) = Ret (t', g') r ∧ respects g r g') ∧
  (∃ t' g' e, Start (t, g) = Ret (t', g') e ∧ feeFloorSatPerKw g' = feeFloorSatPerKw g ∧
     (e = None → estimator_ok g' ∧ is_Some (manager g'))).
Proof.
  split.
  - intros Hg. destruct (wp_total _ _ _ (EstimateFeePerKW_respects blocks t g Hg))
      as ([t' g'] & r & E & _ & H). by exists t', g', r.
  - destruct (wp_total Start (λ e '(t', g'), feeFloorSatPerKw g' = feeFloorSatPerKw g ∧
      (e = None → estimator_ok g' ∧ is_Some (manager g'))) (t, g)) as ([t' g'] & e & E & H);
      [|by exists t', g', e].
    unfold Start, newMinFeeManager. do 4 fee_step.
    eapply wp_mono; [apply fetchMinMempoolFee_keeps| |done]. intros [v|e] [t' g'] [_ ->].
    + repeat fee_step. cbn. split; [done|]. intros _. split; [|by eexists].
      intros m [= <-]. split; cbn; [done|lia].
    + repeat fee_step. naive_solver.
Qed.

Section get_fee.
Context {S : Type} {E : Estimator S} {inv : S → Prop} {EO : EstimatorOk E inv}.

Lemma GetFee_answers b size t s :
  inv s → wp (GetFee b size) (λ r '(t', s'), fee_grown t t' ∧ inv s' ∧
    ∃ rate, btc_feeFloorSatPerKw b ≤ rate ∧ r = Ok (fee_at rate size)) no_stop (t, s).
Proof.
  intros Hs. unfold GetFee, fee_rate. do 2 fee_step.
  eapply wp_mono; [by apply estimator_answers| |done].
  intros r [t' s'] [Ht Hs']. apply wp_ret. apply wp_ret. split; [done|]. split; [done|].
  eexists. split; [|done]. case_match eqn:Hlt; [lia|]. by apply Z.ltb_ge in Hlt.
Qed.
End get_fee.

(** The rate for the answer of the estimator: the fallback for an error or 0, and the
    floor for less. *)
Definition floored_rate (b : BitcoinOnChain) (estimate : result Z) : Z :=
  btc_feeFloorSatPerKw b `max`
    match estimate with
    | Ok rate => if rate =? 0 then fallbackFeeRateSatPerKw b else rate
    | Err _ => fallbackFeeRateSatPerKw b
    end.

(** C24. [GetFee] always returns a fee, whatever estimator it is built on and whatever
    that answers: it asks the estimator for the rate of six blocks, once, and the fee
    is the one at the rate the estimator answered (the fallback rate for an error or
    0), raised to the floor; for rates and sizes in the exact range of the floats it
    is that rate times the size, rounded down, and at most one satoshi less where the
    floats are inexact, so that it is never more than a satoshi below what the floor
    asks for the size. *)
Theorem GetFee_never_below_floor {S} (E : Estimator S) (inv : S → Prop) `{!EstimatorOk E inv}
    (b : BitcoinOnChain) (size : Z) (t : Trace A) (s : S) :
  inv s → 0 < btc_feeFloorSatPerKw b →
  ∃ t' s' estimate fee,
    EstimateFeePerKW BitcoinFeeTargetBlocks (t, s) = Ret (t', s') estimate ∧ inv s' ∧
    GetFee b size (t, s) = Ret (t', s') (Ok fee) ∧ fee = fee_at (floored_rate b estimate) size ∧
    let rate := floored_rate b estimate in
    (0 ≤ size < 2 ^ 53 → 4 * rate < 2 ^ 53 → 4 * rate * size < 2 ^ 51 →
     1000 * fee ≤ 4 * rate * size ≤ 1000 * fee + 1000 ∧
     4 * btc_feeFloorSatPerKw b * size ≤ 1000 * fee + 1000).
Proof.
  intros Hs Hf.
  destruct (wp_total _ _ _ (estimator_answers BitcoinFeeTargetBlocks t s Hs))
    as ([t' s'] & est & Eq & _ & Hinv).
  exists t', s', est, (fee_at (floored_rate b est) size). split; [done|]. split; [done|].
  split; [|split; [done|]].
  - unfold GetFee, fee_rate, mbind, M_bind. rewrite Eq. unfold mret, M_ret, floored_rate.
    do 3 f_equal. match goal with |- context [?x <? ?y] => destruct (Z.ltb_spec x y) end; lia.
  - intros rate Hsize H1 H2. assert (btc_feeFloorSatPerKw b ≤ rate) as Hr
      by (unfold rate, floored_rate; lia).
    pose proof (fee_at_close rate size ltac:(lia) Hsize H1 H2) as Hc. split; [exact Hc|].
    transitivity (4 * rate * size); [|apply Hc]. apply Z.mul_le_mono_nonneg_r; lia.
Qed.
End estimators.

(** ** The floor for a version *)
Lemma digit_run_app d rest :
  Forall (λ c, is_digit c = true) (String.list_ascii_of_string d) → starts_digit rest = false →
  digit_run (d +:+ rest) = (d, rest).
Proof.
  induction d as [|c d IH]; intros Hd Hrest.
  - change ("" +:+ rest) with rest. destruct rest as [|c rest]; [done|]. cbn in *. by rewrite Hrest.
  - apply Forall_cons in Hd as [Hc Hd]. change (String c d +:+ rest) with (String c (d +:+ rest)).
    cbn [digit_run]. by rewrite Hc, IH.
Qed.

Lemma dot_digits_Itoa n rest :
  0 ≤ n → starts_digit rest = false →
  dot_digits (String "." (strconv.Itoa n +:+ rest)) = (strconv.Itoa n, rest).
Proof.
  intros Hn Hrest. destruct (Itoa_digits n Hn) as [Hne Hd]. cbn [dot_digits].
  rewrite digit_run_app by done. by destruct (strconv.Itoa n).
Qed.

Lemma FindStringSubmatch_skip pre rest :
  Forall (λ c, is_digit c = false) (String.list_ascii_of_string pre) →
  FindStringSubmatch (pre +:+ rest) = FindStringSubmatch rest.
Proof.
  induction pre as [|c pre IH]; [done|]. intros [Hc Hpre]%Forall_cons.
  change (String c pre +:+ rest) with (String c (pre +:+ rest)). cbn [FindStringSubmatch].
  rewrite Hc. by apply IH.
Qed.

Lemma parseVersionSegment_Itoa n : 0 ≤ n < 2 ^ 63 → parseVersionSegment (strconv.Itoa n) = n.
Proof.
  intros Hn. unfold parseVersionSegment. rewrite strconv.Atoi_Itoa by (unfold is_i64; lia).
  destruct (Itoa_digits n ltac:(lia)) as [Hne _]. by destruct (strconv.Itoa n).
Qed.

(** For the version string of a node that prints its version as three numbers after
    any text without digits, the floor of 0.1 sat/vB is chosen exactly from 29.2
    on, and the normalized version is the printed one; without a digit the legacy
    floor is chosen. *)
Theorem DetermineFeeFloor_by_version (pre rest : string) (x y z : Z) :
  Forall (λ c, is_digit c = false) (String.list_ascii_of_string pre) →
  (DetermineFeeFloor pre = (LegacyFeeFloorSatPerKw, "")) ∧
  (0 ≤ x < 2 ^ 63 → 0 ≤ y < 2 ^ 63 → 0 ≤ z < 2 ^ 63 → starts_digit rest = false →
   let printed := strconv.Itoa x +:+ "." +:+ strconv.Itoa y +:+ "." +:+ strconv.Itoa z in
   DetermineFeeFloor (pre +:+ strconv.Itoa x +:+ String "." (strconv.Itoa y +:+
                        String "." (strconv.Itoa z +:+ rest))) =
   (if bool_decide (29 < x ∨ (x = 29 ∧ 2 ≤ y)) then 25 else 253, printed)).
Proof.
  intros Hpre. split.
  { unfold DetermineFeeFloor, normalizeBitcoinVersion.
    assert (FindStringSubmatch pre = None) as ->; [|done].
    clear -Hpre. induction pre as [|c pre IH]; [done|]. apply Forall_cons in Hpre as [Hc Hpre].
    cbn [FindStringSubmatch]. rewrite Hc. auto. }
  intros Hx Hy Hz Hrest printed. unfold DetermineFeeFloor, normalizeBitcoinVersion.
  rewrite FindStringSubmatch_skip by done.
  destruct (Itoa_digits x ltac:(lia)) as [Hne Hd].
  destruct (strconv.Itoa x) as [|c dx] eqn:Ex; [done|].
  match goal with |- context [FindStringSubmatch (String c dx +:+ ?r)] =>
    change (FindStringSubmatch (String c dx +:+ r)) with
      (if is_digit c then
         let '(d1, r1) := digit_run (String c dx +:+ r) in
         let '(d2, r2) := dot_digits r1 in
         let '(d3, _) := dot_digits r2 in Some (d1, d2, d3)
       else FindStringSubmatch (dx +:+ r)) end.
  assert (is_digit c = true) as -> by (by apply Forall_cons in Hd as [? _]).
  rewrite digit_run_app by done. rewrite dot_digits_Itoa by (done || lia).
  rewrite dot_digits_Itoa by (done || lia). rewrite <- Ex.
  rewrite strconv.Atoi_Itoa by (unfold is_i64; lia). rewrite !parseVersionSegment_Itoa by lia.
  cbn [major minor]. unfold modernFeeFloorMajor, modernFeeFloorMinor.
  case_bool_decide as Hv.
  - destruct (Z.ltb_spec 29 x); [unfold printed; by rewrite <- Ex|].
    destruct (Z.eqb_spec x 29), (Z.leb_spec 2 y); [unfold printed; by rewrite <- Ex|lia..].
  - destruct (Z.ltb_spec 29 x); [lia|].
    destruct (Z.eqb_spec x 29), (Z.leb_spec 2 y); [lia|unfold printed; by rewrite <- Ex..].
Qed.

(** ** Examples: a node with a low estimate and a mempool minimum of 1000 sat/kB *)
#[local] Instance demo_fees : FeeLib := {| BTC := Z; NewAmount := Ok |}.
#[local] Instance demo_node : Oracle FeeRpc.answer := λ t q,
  match q with
  | Ping => (true, None)
  | GetMempoolInfo => Ok 1000
  | EstimateFee _ _ => Ok 3
  | WalletEstimateFee _ => Ok None
  | TimeNow => Z.of_nat (length t) * 10 ^ 9
  end.
Definition demo_estimator : GBitcoindEstimator := mkGBitcoindEstimator "ECONOMICAL" 12500 25 None.

Example GetFee_never_below_floor_witness :
  estimator_ok demo_estimator ∧
  ∃ t' s' fee, EstimateFeePerKW BitcoinFeeTargetBlocks ([], demo_estimator) = Ret (t', s') (Ok 25) ∧
    GetFee (mkBitcoinOnChain 12500 253) 350 ([], demo_estimator) = Ret (t', s') (Ok fee) ∧
    fee = fee_at 253 350 ∧ 1000 * fee ≤ 4 * 253 * 350 ≤ 1000 * fee + 1000.
Proof.
  split; [done|].
  destruct (GetFee_never_below_floor GBitcoind_EstimateFeePerKW estimator_ok
           (mkBitcoinOnChain 12500 253) 350 [] demo_estimator ltac:(done) ltac:(done))
    as (t' & s' & est & fee & He & _ & Hg & Hfee & Hb).
  pose proof (f_equal (λ o, match o with Ret _ r => Some r | _ => None end) He) as H25.
  vm_compute in H25. injection H25 as <-.
  change (floored_rate (mkBitcoinOnChain 12500 253) (Ok 25)) with 253 in Hfee, Hb.
  destruct Hb as [Hb _]; [lia..|]. exists t', s', fee. split; [exact He|]. split; [exact Hg|]. split; [exact Hfee|exact Hb].
Defined.

Example started_estimate : ∃ t1 g1 t2 g2,
  Start ([], demo_estimator) = Ret (t1, g1) None ∧
  EstimateFeePerKW (S := GBitcoindEstimator) 6 (t1, g1) = Ret (t2, g2) (Ok 250).
Proof. do 4 eexists. split; vm_compute; reflexivity. Qed.

Example DetermineFeeFloor_by_version_witness :
  DetermineFeeFloor "/Satoshi:29.2.0/" = (25, "29.2.0") ∧
  DetermineFeeFloor "/Satoshi:28.10.1/" = (253, "28.10.1").
Proof.
  split.
  - apply (DetermineFeeFloor_by_version "/Satoshi:" "/" 29 2 0); try done. by_eval.
  - apply (DetermineFeeFloor_by_version "/Satoshi:" "/" 28 10 1); try done. by_eval.
Defined.
