(* ===== verification/BitcoinOnChain.v ===== *)
(** * The opening transaction and its spending on Bitcoin (src/onchain/bitcoin.go)

    Validation of an opening transaction, the output a spending transaction takes,
    and the spending transaction itself.  Transactions are records of the fields
    the code reads and writes; their encoding, hashes, addresses and signature
    hashes are the library [BtcLib]. *)

From S2P Require Import Prelude GoLib SwapData Env Store Oracle Fees OpeningScript.

(** ** Transactions (btcd's wire and psbt) *)
Record TxOutput := mkTxOut { Value : Z; PkScript : string }.

(** [x, err := m; if err != nil { return err }], for a call and for a pure function. *)
Notation "'try' x := m 'in' k" :=
  (mbind (λ r, match r with Ok x => k | Err e => mret (Err e) end) m)
  (at level 10, x name, m at level 100, k at level 200,
   format "'[v' 'try'  x  :=  m  'in' '/' k ']'") : go_scope.
Notation "'take' x := r 'in' k" :=
  (match r with Ok x => k | Err e => mret (Err e) end)
  (at level 10, x name, r at level 100, k at level 200,
   format "'[v' 'take'  x  :=  r  'in' '/' k ']'") : go_scope.

Section transactions.
Context {CL : ChainLib}.

Record TxInput := mkTxIn {
  PreviousOutPoint : Hash * Z;
  Sequence : Z;
  TxWitness : list string;
}.
Record MsgTx := mkMsgTx { TxIn : list TxInput; TxOut : list TxOutput }.
End transactions.

Class BtcLib {CL : ChainLib} {SR : ScriptRules} := {
  (** the bytes of a script *)
  script_bytes : Script → string;
  Deserialize : string → result MsgTx;
  Serialize : MsgTx → result string;
  TxHash : MsgTx → Hash;
  SerializeSizeStripped : MsgTx → Z;
  Address : Type;
  NewAddressWitnessScriptHash : string → result Address;
  DecodeAddress : string → result Address;
  ScriptAddress : Address → string;
  EncodeAddress : Address → string;
  (** the hash an input signs with [SigHashAll]: script, transaction, index, amount *)
  CalcWitnessSigHash : Script → MsgTx → Z → Z → result string;
  Psbt : Type;
  psbt_NewFromRawBytes : string → bool → result Psbt;
  psbt_Serialize : Psbt → result string;
  SumUtxoInputValues : Psbt → result Z;
  (** An address of a 32-byte witness program always exists and holds it. *)
  program_address : ∀ p, String.length p = 32%nat →
    ∃ a, NewAddressWitnessScriptHash p = Ok a ∧ ScriptAddress a = p;
  sha256_length : ∀ s, String.length (sha256_Sum256 s) = 32%nat;
  (** A decoded transaction has far fewer outputs than a uint32 counts. *)
  Deserialize_outputs : ∀ bytes tx, Deserialize bytes = Ok tx → Z.of_nat (length (TxOut tx)) < 2 ^ 32;
}.

(** [swap.Signer]: the signature of a key, serialized. *)
Class SignerLib := Sign : string → string → result string.

Definition zero_byte : string := String "000" "".

Section onchain.
Context {CL : ChainLib} {SR : ScriptRules} {BL : BtcLib}.

(** [txscript.NewScriptBuilder().AddData([]byte{0x00}).AddData(program)]. *)
Definition program_script (program : string) : result Script :=
  build_script [AddData zero_byte; AddData program].

(** The decoding that every function of the file starts with. *)
Definition tx_from_hex (txHex : string) : result MsgTx :=
  match hex.DecodeString txHex with
  | (_, Some e) => Err e
  | (txBytes, None) => Deserialize txBytes
  end.

Definition TxIdFromHex (txHex : string) : result string :=
  match tx_from_hex txHex with
  | Err e => Err e
  | Ok tx => Ok (Hash_String (TxHash tx))
  end.

(** [GetOutputScript]: the witness program of the opening script. *)
Definition GetOutputScript (params : OpeningParams) : result string :=
  match ParamsToTxScript params BitcoinCsv with
  | Err e => Err e
  | Ok redeemScript =>
      let witnessProgram := sha256_Sum256 (script_bytes redeemScript) in
      match NewAddressWitnessScriptHash witnessProgram with
      | Err e => Err e
      | Ok addr =>
          match program_script (ScriptAddress addr) with
          | Err e => Err e
          | Ok wantScript => Ok (script_bytes wantScript)
          end
      end
  end.

(** The first output with a value, from position [i] on. *)
Fixpoint first_output (outs : list TxOutput) (value : Z) (i : Z) : option (Z * TxOutput) :=
  match outs with
  | [] => None
  | out :: outs => if Value out =? value then Some (i, out) else first_output outs value (i + 1)
  end.

Definition ValidateTx (swapParams : OpeningParams) (openingTxHex : string) : result bool :=
  match tx_from_hex openingTxHex with
  | Err e => Err e
  | Ok msgTx =>
      match first_output (TxOut msgTx) (i64 (op_Amount swapParams)) 0 with
      | None => Ok false
      | Some (_, scriptOut) =>
          match GetOutputScript swapParams with
          | Err e => Err e
          | Ok wantScript => Ok (bool_decide (wantScript = PkScript scriptOut))
          end
      end
  end.

(** Without a matching output the result is false, 0 and no error. *)
Definition GetVoutAndVerify (txHex : string) (params : OpeningParams) : result (bool * Z) :=
  match tx_from_hex txHex with
  | Err e => Err e
  | Ok msgTx =>
      match first_output (TxOut msgTx) (i64 (op_Amount params)) 0 with
      | None => Ok (false, 0)
      | Some (vout, scriptOut) =>
          match GetOutputScript params with
          | Err e => Err e
          | Ok wantScript =>
              if bool_decide (wantScript ≠ PkScript scriptOut) then Ok (false, 0)
              else Ok (true, u32 vout)
          end
      end
  end.

Definition CreateOpeningAddress (params : OpeningParams) (csv : Z) : result string :=
  match ParamsToTxScript params csv with
  | Err e => Err e
  | Ok redeemScript =>
      match NewAddressWitnessScriptHash (sha256_Sum256 (script_bytes redeemScript)) with
      | Err e => Err e
      | Ok addr => Ok (EncodeAddress addr)
      end
  end.

(** The fee is the difference of int64 sums, as a uint64. *)
Definition GetFeeSatsFromTx (psbtString txHex : string) : result Z :=
  match psbt_NewFromRawBytes psbtString true with
  | Err e => Err e
  | Ok rawPsbt =>
      match SumUtxoInputValues rawPsbt with
      | Err e => Err e
      | Ok inputSats =>
          match tx_from_hex txHex with
          | Err e => Err e
          | Ok tx =>
              let outputSats := foldl (λ sum out, i64 (sum + Value out)) 0 (TxOut tx) in
              Ok (u64 (i64 (inputSats - outputSats)))
          end
      end
  end.

(** ** The spending transaction *)
Section spending.
Context {FL : FeeLib} {Q} {A : Q → Type} {FB : FeeBackend A} {S : Type} {ES : Estimator (A := A) S}.

(** A nil slice is indexed at [vout]: the run panics when the output is missing. *)
Definition PrepareSpendingTransaction (b : BitcoinOnChain) (swapParams : OpeningParams)
    (claimParams : ClaimParams) (spendingAddr : string) (vout csv preparedFee : Z)
    : IO A S (result (MsgTx * string * Script)) :=
  take openingMsgTx := tx_from_hex (cp_OpeningTxHex claimParams) in
  let prevInput := (TxHash openingMsgTx, vout) in
  take scriptChangeAddr := DecodeAddress spendingAddr in
  take changeScript := program_script (ScriptAddress scriptChangeAddr) in
  out ← deref (TxOut openingMsgTx !! Z.to_nat vout);
  let value := i64 (Value out - 200) in
  let pkScript := script_bytes changeScript in
  take redeemScript := ParamsToTxScript swapParams BitcoinCsv in
  let spendingTx := mkMsgTx [mkTxIn prevInput csv []] [mkTxOut value pkScript] in
  try fee := (if preparedFee =? 0 then GetFee b (SerializeSizeStripped spendingTx + 74)
              else mret (Ok preparedFee)) in
  let spendingTx := mkMsgTx (TxIn spendingTx) [mkTxOut (i64 (value - i64 fee)) pkScript] in
  take sigHash := CalcWitnessSigHash redeemScript spendingTx 0 (i64 (op_Amount swapParams)) in
  mret (Ok (spendingTx, sigHash, redeemScript)).
End spending.
End onchain.
