(* ===== verification/BitcoinWallets.v ===== *)
(** * The bitcoin wallets of lnd and core lightning
      (src/lnd/lnd_wallet.go, src/clightning/clightning_wallet.go)

    Both implement the [Wallet] interface of the swaps with the transactions of
    BitcoinOnChain: they fund an opening transaction, and spend one with the
    preimage, cooperatively, or after the CSV.  The rpc calls of the two nodes are
    questions of their own; the state is that of the fee estimator. *)

From S2P Require Import Prelude GoLib SwapData Env Store Oracle Version Fees OpeningScript BitcoinOnChain.

(** [encoding/base64], the standard encoding. *)
Module base64.
Definition char (n : Z) : ascii :=
  ascii_of_nat (Z.to_nat
    (if n <? 26 then 65 + n else if n <? 52 then 97 + (n - 26)
     else if n <? 62 then 48 + (n - 52) else if n =? 62 then 43 else 47)).
Definition byte (c : ascii) : Z := Z.of_nat (nat_of_ascii c).
Fixpoint EncodeToString (s : string) : string :=
  match s with
  | EmptyString => ""
  | String a EmptyString =>
      String (char (byte a / 4)) (String (char ((byte a mod 4) * 16)) "==")
  | String a (String b EmptyString) =>
      String (char (byte a / 4)) (String (char ((byte a mod 4) * 16 + byte b / 16))
        (String (char ((byte b mod 16) * 4)) "="))
  | String a (String b (String c rest)) =>
      String (char (byte a / 4)) (String (char ((byte a mod 4) * 16 + byte b / 16))
        (String (char ((byte b mod 16) * 4 + byte c / 64)) (String (char (byte c mod 64))
          (EncodeToString rest))))
  end.
End base64.

Section witness.
Context {CL : ChainLib} {SR : ScriptRules} {BL : BtcLib}.

(** The byte slices of a witness. *)
Definition witness_bytes (w : Witness) : list string := wit_stack w ++ [script_bytes (wit_script w)].

(** [tx.TxIn[0].Witness = w]. *)
Definition set_witness (w : Witness) (tx : MsgTx) : option MsgTx :=
  match TxIn tx with
  | i :: ins =>
      Some (mkMsgTx (mkTxIn (PreviousOutPoint i) (Sequence i) (witness_bytes w) :: ins) (TxOut tx))
  | [] => None
  end.
End witness.

(** The size [GetRefundFee] takes, and the one of an opening transaction. *)
Definition refund_tx_size : Z := 250.
Definition EstimatedOpeningTxSize : Z := 350.

(** ** lnd *)
Module LndWallet.
Inductive Call :=
  | FeeCall (c : FeeRpc.Call)
  | NewAddressRpc
  | FundPsbt (outputs : list (string * Z)) (TargetConf : Z)
  | FinalizePsbt (FundedPsbt : string)
  | PublishTransaction (TxHex : string)
  | LabelTransaction (Txid Label : string)
  | WalletBalance.

Definition answer `{FeeLib} (c : Call) : Type :=
  match c with
  | FeeCall c => FeeRpc.answer c
  | NewAddressRpc | FundPsbt _ _ => result string
  (** the signed psbt and the raw transaction *)
  | FinalizePsbt _ => result (string * string)
  | PublishTransaction _ | LabelTransaction _ _ => option error
  | WalletBalance => result Z
  end.

#[export] Instance lnd_fee_backend `{FeeLib} {OR : Oracle answer} : FeeBackend answer.
Proof.
  refine {| fee_query := λ S c, query (FeeCall c);
            fee_event := λ e, match question e with FeeCall _ => True | _ => False end |}.
  intros S c t s. exists [event (FeeCall c) (reply t (FeeCall c))], (reply t (FeeCall c)).
  split; [done|]. by constructor.
Defined.

Section wallet.
Context {CL : ChainLib} {SR : ScriptRules} {BL : BtcLib} {FL : FeeLib} {SL : SignerLib}.
Context {OR : Oracle answer} {S : Type} {ES : Estimator (A := answer) S} (b : BitcoinOnChain).
Abbreviation Io := (IO answer S).

Definition NewAddress : Io (result string) := query NewAddressRpc.
Definition GetRefundFee : Io (result Z) := GetFee b refund_tx_size.
Definition GetFlatOpeningTXFee : Io (result Z) := GetFee b EstimatedOpeningTxSize.

Definition CreateOpeningTransaction (swapParams : OpeningParams) : Io (result OpeningTx) :=
  take addr := CreateOpeningAddress swapParams BitcoinCsv in
  try funded := query (FundPsbt [(addr, op_Amount swapParams)] 3) in
  take unsignedPacket := psbt_NewFromRawBytes funded false in
  take bytes := psbt_Serialize unsignedPacket in
  try finalized := query (FinalizePsbt bytes) in
  let psbtString := base64.EncodeToString (fst finalized) in
  let rawTxHex := hex.EncodeToString (snd finalized) in
  take fee := GetFeeSatsFromTx psbtString rawTxHex in
  take verified := GetVoutAndVerify rawTxHex swapParams in
  let vout := snd verified in
  match hex.DecodeString rawTxHex with
  | (_, Some e) => mret (Err e)
  | (txBytes, None) =>
      take openingTx := Deserialize txBytes in
      do? query (PublishTransaction txBytes) else e => mret (Err e) in
      mret (Ok (mkOpeningTx rawTxHex addr (Hash_String (TxHash openingTx)) fee vout))
  end.

(** The end of the three spending calls: witness, serialization, publication. *)
Definition publish (tx : MsgTx) (w : Witness) (address : string) : Io (result SpendingTx) :=
  tx ← deref (set_witness w tx);
  take bytes := Serialize tx in
  let txHex := hex.EncodeToString bytes in
  do? query (PublishTransaction bytes) else e => mret (Err e) in
  mret (Ok (mkSpendingTx (Hash_String (TxHash tx)) txHex address)).

Definition CreatePreimageSpendingTransaction (swapParams : OpeningParams)
    (claimParams : ClaimParams) : Io (result SpendingTx) :=
  take verified := GetVoutAndVerify (cp_OpeningTxHex claimParams) swapParams in
  try newAddr := NewAddress in
  try prepared := PrepareSpendingTransaction b swapParams claimParams newAddr (snd verified) 0 0 in
  let '(tx, sigHash, redeemScript) := prepared in
  take sigBytes := Sign (cp_Signer claimParams) sigHash in
  match MakePreimageFromStr (cp_Preimage claimParams) with
  | (_, Some e) => mret (Err e)
  | (preimage, None) => publish tx (GetPreimageWitness sigBytes preimage redeemScript) newAddr
  end.

Definition CreateCsvSpendingTransaction (swapParams : OpeningParams)
    (claimParams : ClaimParams) : Io (result SpendingTx) :=
  try newAddr := NewAddress in
  take verified := GetVoutAndVerify (cp_OpeningTxHex claimParams) swapParams in
  try prepared :=
    PrepareSpendingTransaction b swapParams claimParams newAddr (snd verified) BitcoinCsv 0 in
  let '(tx, sigHash, redeemScript) := prepared in
  take sigBytes := Sign (cp_Signer claimParams) sigHash in
  publish tx (GetCsvWitness sigBytes redeemScript) newAddr.

Definition CreateCoopSpendingTransaction (swapParams : OpeningParams)
    (claimParams : ClaimParams) (takerSigner : string) : Io (result SpendingTx) :=
  try refundAddr := NewAddress in
  try refundFee := GetRefundFee in
  take verified := GetVoutAndVerify (cp_OpeningTxHex claimParams) swapParams in
  try prepared :=
    PrepareSpendingTransaction b swapParams claimParams refundAddr (snd verified) 0 refundFee in
  let '(tx, sigHash, redeemScript) := prepared in
  take takerSig := Sign takerSigner sigHash in
  take makerSig := Sign (cp_Signer claimParams) sigHash in
  publish tx (GetCooperativeWitness takerSig makerSig redeemScript) refundAddr.

Definition SetLabel (txID address label : string) : Io (option error) :=
  match NewHashFromStr txID with
  | Err e => mret (Some e)
  | Ok txIDHash => query (LabelTransaction (Hash_String txIDHash) label)
  end.

Definition GetOnchainBalance : Io (result Z) :=
  try totalBalance := query WalletBalance in
  mret (Ok (u64 totalBalance)).
End wallet.
End LndWallet.

(** ** core lightning *)
Module ClnWallet.
Record PreparedTx := mkPrepared { Psbt : string; UnsignedTx : string; TxId : string }.

Inductive Call :=
  | FeeCall (c : FeeRpc.Call)
  | NewAddr
  | PrepareTx (outputs : list (string * Z))
  | SetPSBTVersion (psbt : string) (version : Z)
  | SendTx (txid : string)
  | SendRawTx (txHex : string)
  | ListFunds.

Definition answer `{FeeLib} (c : Call) : Type :=
  match c with
  | FeeCall c => FeeRpc.answer c
  | NewAddr | SetPSBTVersion _ _ | SendRawTx _ => result string
  | PrepareTx _ => result PreparedTx
  (** the signed transaction and its id *)
  | SendTx _ => result (string * string)
  (** the amounts of the outputs in msat *)
  | ListFunds => result (list Z)
  end.

#[export] Instance cln_fee_backend `{FeeLib} {OR : Oracle answer} : FeeBackend answer.
Proof.
  refine {| fee_query := λ S c, query (FeeCall c);
            fee_event := λ e, match question e with FeeCall _ => True | _ => False end |}.
  intros S c t s. exists [event (FeeCall c) (reply t (FeeCall c))], (reply t (FeeCall c)).
  split; [done|]. by constructor.
Defined.

Section wallet.
Context {CL : ChainLib} {SR : ScriptRules} {BL : BtcLib} {FL : FeeLib} {SL : SignerLib}.
Context {OR : Oracle answer} {S : Type} {ES : Estimator (A := answer) S} (b : BitcoinOnChain).
(** the version of the node, read when the plugin starts *)
Context (cl_version : string).
Abbreviation Io := (IO answer S).

Definition NewAddress : Io (result string) := query NewAddr.
Definition GetRefundFee : Io (result Z) := GetFee b refund_tx_size.
Definition GetFlatOpeningTXFee : Io (result Z) := GetFee b EstimatedOpeningTxSize.

(** Since v23.05 a prepared psbt is of version 2; it is converted to version 0. *)
Definition CreateOpeningTransaction (swapParams : OpeningParams) : Io (result OpeningTx) :=
  take addr := CreateOpeningAddress swapParams BitcoinCsv in
  try prepRes := query (PrepareTx [(addr, op_Amount swapParams)]) in
  take isV2 := CompareVersionStrings cl_version "v23.05" in
  try psbt := (if isV2 then query (SetPSBTVersion (Psbt prepRes) 0) else mret (Ok (Psbt prepRes))) in
  take fee := GetFeeSatsFromTx psbt (UnsignedTx prepRes) in
  take verified := GetVoutAndVerify (UnsignedTx prepRes) swapParams in
  let vout := snd verified in
  let? sendRes := query (SendTx (TxId prepRes))
    else e => mret (Err (ErrText ("tx was not prepared " +:+ Error e))) in
  mret (Ok (mkOpeningTx (fst sendRes) addr (snd sendRes) fee vout)).

(** Witness, serialization, publication: the id the node returns, and the hex. *)
Definition publish (tx : MsgTx) (w : Witness) : Io (result (string * string * MsgTx)) :=
  tx ← deref (set_witness w tx);
  take bytes := Serialize tx in
  let txHex := hex.EncodeToString bytes in
  try txId := query (SendRawTx txHex) in
  mret (Ok (txId, txHex, tx)).

Definition CreatePreimageSpendingTransaction (swapParams : OpeningParams)
    (claimParams : ClaimParams) : Io (result SpendingTx) :=
  take verified := GetVoutAndVerify (cp_OpeningTxHex claimParams) swapParams in
  try newAddr := query NewAddr in
  try prepared := PrepareSpendingTransaction b swapParams claimParams newAddr (snd verified) 0 0 in
  let '(tx, sigHash, redeemScript) := prepared in
  take sigBytes := Sign (cp_Signer claimParams) sigHash in
  match MakePreimageFromStr (cp_Preimage claimParams) with
  | (_, Some e) => mret (Err e)
  | (preimage, None) =>
      try published := publish tx (GetPreimageWitness sigBytes preimage redeemScript) in
      let '(txId, txHex, _) := published in
      mret (Ok (mkSpendingTx txId txHex newAddr))
  end.

(** The address of the result is the named return value, which is never set. *)
Definition CreateCsvSpendingTransaction (swapParams : OpeningParams)
    (claimParams : ClaimParams) : Io (result SpendingTx) :=
  try newAddr := query NewAddr in
  take verified := GetVoutAndVerify (cp_OpeningTxHex claimParams) swapParams in
  try prepared :=
    PrepareSpendingTransaction b swapParams claimParams newAddr (snd verified) BitcoinCsv 0 in
  let '(tx, sigHash, redeemScript) := prepared in
  take sigBytes := Sign (cp_Signer claimParams) sigHash in
  try published := publish tx (GetCsvWitness sigBytes redeemScript) in
  let '(txId, txHex, _) := published in
  mret (Ok (mkSpendingTx txId txHex "")).

Definition CreateCoopSpendingTransaction (swapParams : OpeningParams)
    (claimParams : ClaimParams) (takerSigner : string) : Io (result SpendingTx) :=
  try refundAddr := NewAddress in
  try refundFee := GetRefundFee in
  take verified := GetVoutAndVerify (cp_OpeningTxHex claimParams) swapParams in
  try prepared :=
    PrepareSpendingTransaction b swapParams claimParams refundAddr (snd verified) 0 refundFee in
  let '(tx, sigHash, redeemScript) := prepared in
  take takerSig := Sign takerSigner sigHash in
  take makerSig := Sign (cp_Signer claimParams) sigHash in
  try published := publish tx (GetCooperativeWitness takerSig makerSig redeemScript) in
  let '(_, txHex, tx) := published in
  mret (Ok (mkSpendingTx (Hash_String (TxHash tx)) txHex "")).

Definition SetLabel (txID address label : string) : Io (option error) := mret None.

Definition GetOnchainBalance : Io (result Z) :=
  try funds := query ListFunds in
  mret (Ok (foldl (λ total msat, u64 (total + msat / 1000)) 0 funds)).
End wallet.
End ClnWallet.
