(* ===== verification/BitcoinProofs.v ===== *)
(** * What the bitcoin wallets guarantee

    [ValidateTx] and [GetVoutAndVerify] agree and say exactly which output pays to
    the opening script; a transaction that one of the wallets publishes to spend a
    validated opening transaction is valid for that output. *)

From S2P Require Import Prelude GoLib SwapData Env Oracle Fees FeeProofs OpeningScript BitcoinOnChain BitcoinWallets.

Section validation.
Context {CL : ChainLib} {SR : ScriptRules} {BL : BtcLib}.

(** The output script that pays to a witness script. *)
Definition program_bytes (script : Script) : string :=
  script_bytes [AddData zero_byte; AddData (sha256_Sum256 (script_bytes script))].

Lemma program_script_sha s :
  program_script (sha256_Sum256 s) = Ok [AddData zero_byte; AddData (sha256_Sum256 s)].
Proof.
  unfold program_script. apply build_fits; [|cbn; lia].
  apply Forall_cons. split; [cbn; lia|]. apply Forall_cons. split; [|done].
  rewrite sha256_length. lia.
Qed.

Lemma GetOutputScript_spec p :
  GetOutputScript p = match ParamsToTxScript p BitcoinCsv with
                      | Ok script => Ok (program_bytes script)
                      | Err e => Err e
                      end.
Proof.
  unfold GetOutputScript. destruct (ParamsToTxScript p BitcoinCsv) as [script|]; [|done].
  destruct (program_address (sha256_Sum256 (script_bytes script))) as (a & -> & ->);
    [apply sha256_length|]. by rewrite program_script_sha.
Qed.

Lemma first_output_spec outs v i :
  match first_output outs v i with
  | Some (j, out) => ∃ n, j = i + Z.of_nat n ∧ outs !! n = Some out ∧ Value out = v ∧
      ∀ m o, (m < n)%nat → outs !! m = Some o → Value o ≠ v
  | None => ∀ m o, outs !! m = Some o → Value o ≠ v
  end.
Proof.
  revert i. induction outs as [|o outs IH]; intros i; cbn; [done|].
  destruct (Z.eqb_spec (Value o) v) as [Hv|Hv].
  - exists 0%nat. split_and!; [lia|done|done|]. intros m; lia.
  - specialize (IH (i + 1)). destruct (first_output outs v (i + 1)) as [[j out]|].
    + destruct IH as (n & -> & Hn & Hout & Hfirst). exists (S n). split_and!; [lia|done|done|].
      intros [|m] o' Hm; cbn; [by intros [= <-]|]. apply Hfirst. lia.
    + intros [|m] o'; cbn; [by intros [= <-]|]. apply IH.
Qed.

(** The transaction [tx] funds the swap: output [n] is its first output of the
    amount, and pays to the opening script. *)
Record funds (p : OpeningParams) (txHex : string) (tx : MsgTx) (n : nat) (script : Script) : Prop := {
  funds_tx : tx_from_hex txHex = Ok tx;
  funds_script : ParamsToTxScript p BitcoinCsv = Ok script;
  funds_output : ∃ out, TxOut tx !! n = Some out ∧ Value out = i64 (op_Amount p) ∧
                        PkScript out = program_bytes script;
  funds_first : ∀ m o, (m < n)%nat → TxOut tx !! m = Some o → Value o ≠ i64 (op_Amount p);
}.

Lemma funds_at p txHex tx n script :
  funds p txHex tx n script →
  ∃ out, first_output (TxOut tx) (i64 (op_Amount p)) 0 = Some (Z.of_nat n, out) ∧
    Value out = i64 (op_Amount p) ∧ PkScript out = program_bytes script ∧
    TxOut tx !! n = Some out ∧ is_u32 (Z.of_nat n).
Proof.
  intros [Htx _ (out & Hn & Hv & Hpk) Hfirst]. exists out.
  pose proof (first_output_spec (TxOut tx) (i64 (op_Amount p)) 0) as H.
  destruct (first_output _ _ _) as [[j o]|]; [|by destruct (H n out)].
  destruct H as (n' & -> & Hn' & Hv' & Hfirst').
  assert (n' = n) as ->.
  { destruct (lt_eq_lt_dec n' n) as [[|]|]; [by destruct (Hfirst n' o)|done|by destruct (Hfirst' n out)]. }
  rewrite Hn in Hn'. injection Hn' as <-. split_and!; try done.
  apply lookup_lt_Some in Hn. unfold tx_from_hex in Htx.
  destruct (hex.DecodeString txHex) as [bytes []]; [done|]. apply Deserialize_outputs in Htx.
  unfold is_u32. lia.
Qed.

Lemma ValidateTx_true p txHex :
  ValidateTx p txHex = Ok true ↔ ∃ tx n script, funds p txHex tx n script.
Proof.
  split.
  - unfold ValidateTx. destruct (tx_from_hex txHex) as [tx|] eqn:Htx; [|done].
    pose proof (first_output_spec (TxOut tx) (i64 (op_Amount p)) 0) as H.
    destruct (first_output _ _ _) as [[j o]|]; [|done]. destruct H as (n & _ & Hn & Hv & Hfirst).
    rewrite GetOutputScript_spec. destruct (ParamsToTxScript p BitcoinCsv) as [script|] eqn:Hs; [|done].
    intros [= Hpk%bool_decide_eq_true]. exists tx, n, script. split; eauto.
  - intros (tx & n & script & H). destruct (funds_at _ _ _ _ _ H) as (out & Hf & _ & Hpk & _).
    destruct H as [Htx Hs _ _]. unfold ValidateTx. rewrite Htx, Hf, GetOutputScript_spec, Hs, Hpk.
    by rewrite bool_decide_true.
Qed.

Lemma GetVoutAndVerify_funds p txHex tx n script :
  funds p txHex tx n script → GetVoutAndVerify txHex p = Ok (true, Z.of_nat n).
Proof.
  intros H. destruct (funds_at _ _ _ _ _ H) as (out & Hf & _ & Hpk & _ & Hu).
  destruct H as [Htx Hs _ _]. unfold GetVoutAndVerify.
  rewrite Htx, Hf, GetOutputScript_spec, Hs, Hpk. rewrite bool_decide_false by (intros Hne; by apply Hne).
  by rewrite u32_small.
Qed.

(** C14. Validation is exact: an opening transaction is accepted exactly when its first
    output of the agreed amount pays to the script of the swap's parameters, and
    then the wallets find that very output; otherwise they report no error and
    output 0, unless the decoding or the script fails. *)
Theorem validation_exact (p : OpeningParams) (txHex : string) :
  (ValidateTx p txHex = Ok true ↔ ∃ tx n script, funds p txHex tx n script) ∧
  (∀ tx n script, funds p txHex tx n script → GetVoutAndVerify txHex p = Ok (true, Z.of_nat n)) ∧
  (ValidateTx p txHex = Ok false ↔ GetVoutAndVerify txHex p = Ok (false, 0)) ∧
  (∀ e, ValidateTx p txHex = Err e ↔ GetVoutAndVerify txHex p = Err e).
Proof.
  split; [apply ValidateTx_true|]. split; [intros tx n script; apply GetVoutAndVerify_funds|].
  unfold ValidateTx, GetVoutAndVerify. destruct (tx_from_hex txHex); [|naive_solver].
  destruct (first_output _ _ _) as [[j o]|]; [|naive_solver].
  destruct (GetOutputScript p); [|naive_solver].
  destruct (decide (a0 = PkScript o)).
  - rewrite bool_decide_true by done. rewrite bool_decide_false by tauto. naive_solver.
  - rewrite bool_decide_false by done. rewrite bool_decide_true by done. naive_solver.
Qed.
End validation.

(** ** Signatures and relative locks *)

(** What consensus checks of the first input of a transaction, given the script and
    the amount of the output it spends: a signature for the code's signature hash
    is valid whatever the witness is, an empty one is not, and a relative lock of
    blocks is compared with the sequence number (BIP 112; the transactions have
    version 2). *)
Class Consensus {CL : ChainLib} {SR : ScriptRules} {BL : BtcLib} {SL : SignerLib} := {
  pubkey_of : string → string;
  input_checks : MsgTx → Script → Z → Spending;
  sign_valid : ∀ key tx script amount h sig w tx',
    CalcWitnessSigHash script tx 0 amount = Ok h → Sign key h = Ok sig →
    set_witness w tx = Some tx' →
    checks_sig (input_checks tx' script amount) (pubkey_of key) (sig +:+ SigHashAll) = Some true;
  empty_invalid : ∀ tx script amount pk,
    checks_sig (input_checks tx script amount) pk "" = Some false;
  relative_lock : ∀ tx i ins script amount n, TxIn tx = i :: ins →
    0 < n < 2 ^ 16 → 0 ≤ Sequence i < 2 ^ 16 →
    sequence_reached (input_checks tx script amount) n = (n <=? Sequence i);
}.

Section spending.
Context {CL : ChainLib} {SR : ScriptRules} {BL : BtcLib} {SL : SignerLib} {CO : Consensus}.

(** The only input of [tx] spends output [n] of [opening]: the output commits to the
    script of the witness, and the script accepts the rest of it. *)
Definition spends_output (tx opening : MsgTx) (n : nat) : Prop :=
  ∃ out i stack script, TxIn tx = [i] ∧ PreviousOutPoint i = (TxHash opening, Z.of_nat n) ∧
    TxOut opening !! n = Some out ∧ PkScript out = program_bytes script ∧
    TxWitness i = stack ++ [script_bytes script] ∧
    spends (input_checks tx script (Value out)) (mkWitness stack script) = true.

(** [tx] spends the output that funds the swap, and pays the amount less 200 and a
    fee to the witness program of an address. *)
Definition takes_opening (p : OpeningParams) (txHex addr : string) (tx : MsgTx) : Prop :=
  ∃ opening n script a cs fee, funds p txHex opening n script ∧ spends_output tx opening n ∧
    DecodeAddress addr = Ok a ∧ program_script (ScriptAddress a) = Ok cs ∧
    TxOut tx = [mkTxOut (i64 (i64 (i64 (op_Amount p) - 200) - i64 fee)) (script_bytes cs)].

(** The keys and the hash of the parameters, and who may use which witness. *)
Definition taker_key (p : OpeningParams) (key : string) : Prop :=
  hex.DecodeString (op_TakerPubkey p) = (pubkey_of key, None).
Definition maker_key (p : OpeningParams) (key : string) : Prop :=
  hex.DecodeString (op_MakerPubkey p) = (pubkey_of key, None).
Definition opens_hash (p : OpeningParams) (preimage : string) : Prop :=
  hex.DecodeString (op_ClaimPaymentHash p) = (script_sha256 preimage, None).

Inductive entitled (p : OpeningParams) (csv : Z) (h : string) (script : Script) : Witness → Prop :=
  | by_preimage key sig preimage :
      taker_key p key → Sign key h = Ok sig → opens_hash p preimage →
      String.length preimage = 32%nat →
      entitled p csv h script (GetPreimageWitness sig preimage script)
  | by_csv key sig :
      maker_key p key → Sign key h = Ok sig → csv = BitcoinCsv →
      entitled p csv h script (GetCsvWitness sig script)
  | by_both taker maker tsig msig :
      taker_key p taker → maker_key p maker → Sign taker h = Ok tsig → Sign maker h = Ok msig →
      entitled p csv h script (GetCooperativeWitness tsig msig script).

(** A transaction as [PrepareSpendingTransaction] makes it for output [n]. *)
Definition prepared (p : OpeningParams) (opening : MsgTx) (n : nat) (addr : string) (csv : Z)
    (tx : MsgTx) (h : string) (script : Script) : Prop :=
  ParamsToTxScript p BitcoinCsv = Ok script ∧
  CalcWitnessSigHash script tx 0 (i64 (op_Amount p)) = Ok h ∧
  ∃ a cs fee, DecodeAddress addr = Ok a ∧ program_script (ScriptAddress a) = Ok cs ∧
    tx = mkMsgTx [mkTxIn (TxHash opening, Z.of_nat n) csv []]
           [mkTxOut (i64 (i64 (i64 (op_Amount p) - 200) - i64 fee)) (script_bytes cs)].

Lemma ParamsToTxScript_Ok p csv script :
  ParamsToTxScript p csv = Ok script →
  ∃ taker maker phash, hex.DecodeString (op_TakerPubkey p) = (taker, None) ∧
    hex.DecodeString (op_MakerPubkey p) = (maker, None) ∧
    hex.DecodeString (op_ClaimPaymentHash p) = (phash, None) ∧
    GetOpeningTxScript taker maker phash csv = Ok script.
Proof.
  unfold ParamsToTxScript. repeat (case_match; try done); intros; by eexists _, _, _.
Qed.

Lemma entitled_takes p txHex opening n script addr csv tx h w tx' :
  funds p txHex opening n script → prepared p opening n addr csv tx h script →
  0 ≤ csv < 2 ^ 16 → entitled p csv h script w → set_witness w tx = Some tx' →
  takes_opening p txHex addr tx'.
Proof.
  intros Hfunds (_ & Hh & a & cs & fee & Ha & Hcs & ->) Hcsv Hw Hset.
  destruct (funds_at _ _ _ _ _ Hfunds) as (out & _ & Hv & Hpk & Hn & _).
  pose proof (funds_script _ _ _ _ _ Hfunds) as Hscript.
  apply ParamsToTxScript_Ok in Hscript as (taker & maker & phash & Ht & Hm & Hp & Hs).
  exists opening, n, script, a, cs, fee. split; [done|].
  assert (∀ key sig, Sign key h = Ok sig →
    checks_sig (input_checks tx' script (Value out)) (pubkey_of key) (sig +:+ SigHashAll) = Some true)
    as Hsig. { intros key sig Hsign. rewrite Hv. by eapply sign_valid. }
  pose proof (witnesses_spend_the_output (input_checks tx' script (Value out)) taker maker phash
    BitcoinCsv script) as Hspend.
  assert (TxIn tx' = [mkTxIn (TxHash opening, Z.of_nat n) csv (witness_bytes w)] ∧
          TxOut tx' = [mkTxOut (i64 (i64 (i64 (op_Amount p) - 200) - i64 fee)) (script_bytes cs)])
    as [Hin Hout] by (unfold set_witness in Hset; cbn in Hset; by injection Hset as <-).
  split; [|by rewrite Hout].
  eexists out, _, (wit_stack w), script. split; [exact Hin|]. do 3 (split; [done|]).
  assert (wit_script w = script) as Hws by by destruct Hw. split; [cbn; by rewrite <- Hws|].
  destruct Hw as [key sig pre Hk Hsign Hpre Hlen|key sig Hk Hsign ->|tk mk tsig msig Htk Hmk Hts Hms].
  - apply (Hspend sig "" pre Hs ltac:(unfold BitcoinCsv; lia) (empty_invalid _ _ _ _)).
    unfold taker_key, opens_hash in *. split_and!; [|done|congruence].
    replace taker with (pubkey_of key) by congruence. by apply Hsig.
  - apply (Hspend "" sig "" Hs ltac:(unfold BitcoinCsv; lia) (empty_invalid _ _ _ _)).
    unfold maker_key in *. split.
    + replace maker with (pubkey_of key) by congruence. by apply Hsig.
    + erewrite relative_lock; [|exact Hin|unfold BitcoinCsv; lia|unfold BitcoinCsv; cbn; lia]. done.
  - apply (Hspend tsig msig "" Hs ltac:(unfold BitcoinCsv; lia) (empty_invalid _ _ _ _)).
    unfold taker_key, maker_key in *. split.
    + replace taker with (pubkey_of tk) by congruence. by apply Hsig.
    + replace maker with (pubkey_of mk) by congruence. by apply Hsig.
Qed.

(** ** The preparation *)
Section prepare.
Context {FL : FeeLib} {Q} {A : Q → Type} {FB : FeeBackend A} {S : Type}.
Context {ES : Estimator (A := A) S} {inv : S → Prop} {EO : EstimatorOk ES inv}.

Lemma Prepare_ok b p cp addr csv fee t (s : S) opening n script :
  inv s → funds p (cp_OpeningTxHex cp) opening n script →
  wp (PrepareSpendingTransaction b p cp addr (Z.of_nat n) csv fee)
     (λ r '(t', s'), fee_grown t t' ∧ inv s' ∧
        ∀ tx h script', r = Ok (tx, h, script') →
          script' = script ∧ prepared p opening n addr csv tx h script) no_stop (t, s).
Proof.
  intros Hs Hf. destruct (funds_at _ _ _ _ _ Hf) as (out & _ & Hv & _ & Hn & _).
  destruct Hf as [Htx Hscript _ _]. unfold PrepareSpendingTransaction. rewrite Htx.
  destruct (DecodeAddress addr) as [a|] eqn:Ha; [|apply wp_ret; split_and!; [apply fee_grown_refl|done|done]].
  destruct (program_script (ScriptAddress a)) as [cs|] eqn:Hcs;
    [|apply wp_ret; split_and!; [apply fee_grown_refl|done|done]].
  rewrite Nat2Z.id, Hn. cbn [deref]. do 2 io_step. rewrite Hscript, Hv. io_step.
  set (tx0 := mkMsgTx _ _).
  eapply (wp_mono _ (λ _ '(t', s'), fee_grown t t' ∧ inv s') _ no_stop).
  { destruct (fee =? 0); [|apply wp_ret; split; [apply fee_grown_refl|done]].
    eapply wp_mono; [by apply GetFee_answers| |done]. by intros r [t' s'] (? & ? & _). }
  2: done.
  intros [f|e] [t' s'] [Ht Hs']; [|by apply wp_ret].
  cbv zeta. destruct (CalcWitnessSigHash _ _ _ _) as [h|] eqn:Hh; [|by apply wp_ret].
  apply wp_ret. split; [done|]. split; [done|]. intros tx h' script' [= <- <- <-].
  split; [done|]. split; [done|]. split; [exact Hh|]. by exists a, cs, f.
Qed.
End prepare.

(** ** Broadcasts *)

(** The events of a wallet's rpc that broadcast the bytes of a transaction (and
    whether the node took it), and that gave it an address. *)
Class WalletRpc {FL : FeeLib} {Q} (A : Q → Type) {FB : FeeBackend A} := {
  broadcast : string → bool → Event A → Prop;
  got_address : string → Event A → Prop;
  fee_no_broadcast : ∀ bytes ok ev, fee_event ev → ¬ broadcast bytes ok ev;
  address_no_broadcast : ∀ addr bytes ok ev, got_address addr ev → ¬ broadcast bytes ok ev;
}.

Section broadcasts.
Context {FL : FeeLib} {Q} {A : Q → Type} {FB : FeeBackend A} {WR : WalletRpc A}.

(** Nothing was broadcast since [t0], and [addr] was given. *)
Definition addressed (t0 : Trace A) (addr : string) (t : Trace A) : Prop :=
  ∃ new, t = new ++ t0 ∧ (∀ ev bytes ok, ev ∈ new → ¬ broadcast bytes ok ev) ∧
         ∃ ev, ev ∈ new ∧ got_address addr ev.

(** Every transaction that was broadcast since [t0] takes the opening output to an
    address that was given, and there is one when the result is no error. *)
Definition spent (p : OpeningParams) (txHex : string) (t0 : Trace A) (r : result SpendingTx)
    (t : Trace A) : Prop :=
  ∃ new, t = new ++ t0 ∧
    (∀ ev bytes ok, ev ∈ new → broadcast bytes ok ev → ∃ tx addr ev', Serialize tx = Ok bytes ∧
       ev' ∈ new ∧ got_address addr ev' ∧ takes_opening p txHex addr tx) ∧
    (∀ st, r = Ok st → ∃ ev bytes, ev ∈ new ∧ broadcast bytes true ev ∧
       sp_txHex st = hex.EncodeToString bytes).

Lemma addressed_new t0 addr ev : got_address addr ev → addressed t0 addr (ev :: t0).
Proof.
  intros Hev. exists [ev]. split; [done|]. split; [|exists ev; split; [by left|done]].
  intros ev' bytes ok ->%list_elem_of_singleton. by eapply address_no_broadcast.
Qed.
Lemma addressed_grown t0 addr t t' : addressed t0 addr t → fee_grown t t' → addressed t0 addr t'.
Proof.
  intros (new & -> & Hq & ev & Hev & Ha) (fees & -> & Hfees). exists (fees ++ new).
  split; [by rewrite app_assoc|]. split; [|exists ev; split; [apply elem_of_app; by right|done]].
  intros ev' bytes ok [Hin|Hin]%elem_of_app; [|by apply Hq]. rewrite Forall_forall in Hfees.
  apply fee_no_broadcast. auto.
Qed.
Lemma failed_spent p txHex t0 addr t e : addressed t0 addr t → spent p txHex t0 (Err e) t.
Proof.
  intros (new & -> & Hq & _). exists new. split; [done|]. split; [|done].
  intros ev bytes ok Hin Hb. by destruct (Hq ev bytes ok).
Qed.
Lemma refused_spent p txHex t0 e ev :
  (∀ bytes ok, ¬ broadcast bytes ok ev) → spent p txHex t0 (Err e) (ev :: t0).
Proof.
  intros Hq. exists [ev]. split; [done|]. split; [|done].
  intros ev' bytes ok ->%list_elem_of_singleton Hb. by destruct (Hq bytes ok).
Qed.
Lemma published_spent p txHex t0 addr t r tx bytes ok ev :
  addressed t0 addr t → takes_opening p txHex addr tx → Serialize tx = Ok bytes →
  broadcast bytes ok ev → (∀ bytes' ok', broadcast bytes' ok' ev → bytes' = bytes) →
  (∀ st, r = Ok st → ok = true ∧ sp_txHex st = hex.EncodeToString bytes) →
  spent p txHex t0 r (ev :: t).
Proof.
  intros (new & -> & Hq & ev' & Hev' & Ha) Htx Hser Hb Huniq Hr. exists (ev :: new).
  split; [done|]. split.
  - intros ev0 bytes0 ok0 [->|Hin]%elem_of_cons Hb0; [|by destruct (Hq ev0 bytes0 ok0)].
    apply Huniq in Hb0 as ->. exists tx, addr, ev'. split_and!; [done|by right|done|done].
  - intros st Hst. destruct (Hr st Hst) as [-> E]. exists ev, bytes. split_and!; [by left|done|done].
Qed.

(** Preparing never stops, and broadcasts nothing; what follows a success may rely
    on the prepared transaction. *)
Lemma prepare_then {S} {ES : Estimator (A := A) S} {inv : S → Prop} {EO : EstimatorOk ES inv}
    b p cp opening n script addr csv fee (k : MsgTx * string * Script → IO A S (result SpendingTx))
    t0 t (s : S) :
  funds p (cp_OpeningTxHex cp) opening n script → inv s → addressed t0 addr t →
  (∀ tx h t' s', inv s' → addressed t0 addr t' → prepared p opening n addr csv tx h script →
     wp (k (tx, h, script)) (λ r '(t', s'), inv s' ∧ spent p (cp_OpeningTxHex cp) t0 r t')
        no_stop (t', s')) →
  wp (try x := PrepareSpendingTransaction b p cp addr (Z.of_nat n) csv fee in k x)
     (λ r '(t', s'), inv s' ∧ spent p (cp_OpeningTxHex cp) t0 r t') no_stop (t, s).
Proof.
  intros Hf Hs Ht Hk. apply wp_bind. eapply wp_mono; [by apply Prepare_ok| |done].
  intros [[[tx h] script']|e] [t' s'] (Hgrown & Hs' & Hr).
  - destruct (Hr _ _ _ eq_refl) as [-> Hp]. apply Hk; [done|by eapply addressed_grown|done].
  - apply wp_ret. split; [done|]. by eapply failed_spent, addressed_grown.
Qed.
End broadcasts.
End spending.

Lemma MakePreimageFromStr_length s preimage :
  MakePreimageFromStr s = (preimage, None) → String.length preimage = 32%nat.
Proof.
  unfold MakePreimageFromStr, MakePreimage. case_bool_decide; [|done].
  destruct (hex.DecodeString s) as [x []]; [done|]. case_bool_decide; [|done]. by intros [= <-].
Qed.

Lemma set_witness_prepared {CL : ChainLib} {SR : ScriptRules} {BL : BtcLib} {SL : SignerLib}
    {CO : Consensus} p opening n addr csv tx h script w :
  prepared p opening n addr csv tx h script → ∃ tx', set_witness w tx = Some tx'.
Proof. intros (_ & _ & a & cs & fee & _ & _ & ->). by eexists. Qed.

(** ** lnd *)
Module LndSpends.
Import LndWallet.

Section lnd.
Context {CL : ChainLib} {SR : ScriptRules} {BL : BtcLib} {SL : SignerLib} {CO : Consensus}.
Context {FL : FeeLib} {OR : Oracle answer} {S : Type} {ES : Estimator (A := answer) S}.
Context {inv : S → Prop} {EO : EstimatorOk ES inv}.
Implicit Types (p : OpeningParams) (cp : ClaimParams) (t : Trace answer) (s : S).

#[export] Instance lnd_wallet_rpc : WalletRpc answer.
Proof.
  refine {| broadcast bytes ok ev := ∃ a, ev = event (PublishTransaction bytes) a ∧
                                          ok = bool_decide (a = None);
            got_address addr ev := ev = event NewAddressRpc (Ok addr) |}.
  - intros bytes ok ev Hev (a & -> & _). exact Hev.
  - intros addr bytes ok ev -> (a & E & _). by apply (f_equal question) in E.
Defined.

Lemma publish_spent p txHex t0 t s addr tx w :
  inv s → addressed t0 addr t → is_Some (set_witness w tx) →
  (∀ tx', set_witness w tx = Some tx' → takes_opening p txHex addr tx') →
  wp (publish tx w addr) (λ r '(t', s'), inv s' ∧ spent p txHex t0 r t') no_stop (t, s).
Proof.
  intros Hs Ht [tx' Htx'] Htakes. unfold publish. rewrite Htx'. cbn [deref]. do 2 io_step.
  destruct (Serialize tx') as [bytes|] eqn:Hser;
    [|apply wp_ret; split; [done|by eapply failed_spent]].
  do 2 io_step.
  assert (∀ r, (∀ st, r = Ok st → reply t (PublishTransaction bytes) = None ∧
      sp_txHex st = hex.EncodeToString bytes) →
    spent p txHex t0 r
      (event (PublishTransaction bytes) (reply t (PublishTransaction bytes)) :: t)) as Hend.
  { intros r Hr. eapply published_spent; [done|by apply Htakes|done|by eexists| |].
    - intros bytes' ok' (a & E & _). apply (f_equal question) in E. by injection E as ->.
    - intros st Hst. destruct (Hr st Hst) as [-> ?]. by rewrite bool_decide_true. }
  destruct (reply t (PublishTransaction bytes)) as [e|] eqn:Ha; apply wp_ret; (split; [done|]);
    apply Hend; naive_solver.
Qed.

Section modes.
Context (b : BitcoinOnChain) (p : OpeningParams) (cp : ClaimParams).
Context (opening : MsgTx) (n : nat) (script : Script).
Hypothesis Hfunds : funds p (cp_OpeningTxHex cp) opening n script.
Let txHex := cp_OpeningTxHex cp.

Lemma publish_entitled t0 t s addr csv tx h w :
  inv s → addressed t0 addr t → 0 ≤ csv < 2 ^ 16 → prepared p opening n addr csv tx h script →
  entitled p csv h script w →
  wp (publish tx w addr) (λ r '(t', s'), inv s' ∧ spent p txHex t0 r t') no_stop (t, s).
Proof.
  intros Hs Ht Hcsv Hp Hw. apply publish_spent; [done..|by eapply set_witness_prepared|].
  intros tx' Htx'. by eapply entitled_takes.
Qed.

Lemma new_address_then (k : string → IO answer S (result SpendingTx)) t s :
  (∀ addr t', addressed t addr t' → wp (k addr) (λ r '(t', s'), inv s' ∧ spent p txHex t r t')
                                      no_stop (t', s)) →
  inv s →
  wp (try addr := NewAddress in k addr) (λ r '(t', s'), inv s' ∧ spent p txHex t r t') no_stop (t, s).
Proof.
  intros Hk Hs. unfold NewAddress. do 2 io_step.
  destruct (reply t NewAddressRpc) as [addr|e] eqn:E.
  - apply Hk. by apply addressed_new.
  - apply wp_ret. split; [done|]. apply refused_spent. intros bytes ok (a & Ha & _).
    by apply (f_equal question) in Ha.
Qed.

Lemma preimage_spent t s :
  inv s → taker_key p (cp_Signer cp) →
  (∀ pre, MakePreimageFromStr (cp_Preimage cp) = (pre, None) → opens_hash p pre) →
  wp (CreatePreimageSpendingTransaction b p cp) (λ r '(t', s'), inv s' ∧ spent p txHex t r t')
     no_stop (t, s).
Proof.
  intros Hs Hkey Hpre. unfold CreatePreimageSpendingTransaction.
  rewrite (GetVoutAndVerify_funds _ _ _ _ _ Hfunds). cbn [snd].
  apply new_address_then; [|done]. intros addr t1 Ht1. apply (prepare_then _ _ _ _ _ _ _ _ _ _ _ _ _ Hfunds); [done..|].
  intros tx h t2 s2 Hs2 Ht2 Hp. destruct (Sign (cp_Signer cp) h) as [sig|] eqn:Hsig;
    [|apply wp_ret; split; [done|by eapply failed_spent]].
  destruct (MakePreimageFromStr (cp_Preimage cp)) as [pre [e|]] eqn:Hpre';
    [apply wp_ret; split; [done|by eapply failed_spent]|].
  apply publish_entitled with 0 h; [done..|]. econstructor; [done|done|by apply Hpre|].
  by eapply MakePreimageFromStr_length.
Qed.

Lemma csv_spent t s :
  inv s → maker_key p (cp_Signer cp) →
  wp (CreateCsvSpendingTransaction b p cp) (λ r '(t', s'), inv s' ∧ spent p txHex t r t')
     no_stop (t, s).
Proof.
  intros Hs Hkey. unfold CreateCsvSpendingTransaction. apply new_address_then; [|done].
  intros addr t1 Ht1. rewrite (GetVoutAndVerify_funds _ _ _ _ _ Hfunds). cbn [snd].
  apply (prepare_then _ _ _ _ _ _ _ _ _ _ _ _ _ Hfunds); [done..|].
  intros tx h t2 s2 Hs2 Ht2 Hp. destruct (Sign (cp_Signer cp) h) as [sig|] eqn:Hsig;
    [|apply wp_ret; split; [done|by eapply failed_spent]].
  apply publish_entitled with BitcoinCsv h; [done..|]. by econstructor.
Qed.

Lemma coop_spent taker t s :
  inv s → maker_key p (cp_Signer cp) → taker_key p taker →
  wp (CreateCoopSpendingTransaction b p cp taker) (λ r '(t', s'), inv s' ∧ spent p txHex t r t')
     no_stop (t, s).
Proof.
  intros Hs Hm Ht. unfold CreateCoopSpendingTransaction. apply new_address_then; [|done].
  intros addr t1 Ht1. io_step. eapply wp_mono; [by apply GetFee_answers| |done].
  intros r [t1' s1] (Hg & Hs1 & rate & _ & ->). rewrite (GetVoutAndVerify_funds _ _ _ _ _ Hfunds). cbn [snd].
  apply (prepare_then _ _ _ _ _ _ _ _ _ _ _ _ _ Hfunds); [done|by eapply addressed_grown|].
  intros tx h t2 s2 Hs2 Ht2 Hp. destruct (Sign taker h) as [tsig|] eqn:Htsig;
    [|apply wp_ret; split; [done|by eapply failed_spent]].
  destruct (Sign (cp_Signer cp) h) as [msig|] eqn:Hmsig;
    [|apply wp_ret; split; [done|by eapply failed_spent]].
  apply publish_entitled with 0 h; [done..|]. by econstructor.
Qed.
End modes.
End lnd.
End LndSpends.

(** ** core lightning *)
Module ClnSpends.
Import ClnWallet.

Section cln.
Context {CL : ChainLib} {SR : ScriptRules} {BL : BtcLib} {SL : SignerLib} {CO : Consensus}.
Context {FL : FeeLib} {OR : Oracle answer} {S : Type} {ES : Estimator (A := answer) S}.
Context {inv : S → Prop} {EO : EstimatorOk ES inv}.
Implicit Types (t : Trace answer) (s : S).

#[export] Instance cln_wallet_rpc : WalletRpc answer.
Proof.
  refine {| broadcast bytes ok ev := ∃ a, ev = event (SendRawTx (hex.EncodeToString bytes)) a ∧
                                          ok = is_ok a;
            got_address addr ev := ev = event NewAddr (Ok addr) |}.
  - intros bytes ok ev Hev (a & -> & _). exact Hev.
  - intros addr bytes ok ev -> (a & E & _). by apply (f_equal question) in E.
Defined.

Section modes.
Context (b : BitcoinOnChain) (p : OpeningParams) (cp : ClaimParams).
Context (opening : MsgTx) (n : nat) (script : Script).
Hypothesis Hfunds : funds p (cp_OpeningTxHex cp) opening n script.
Let txHex := cp_OpeningTxHex cp.

Lemma cln_publish_entitled t0 t s addr csv tx h w k :
  inv s → addressed t0 addr t → 0 ≤ csv < 2 ^ 16 → prepared p opening n addr csv tx h script →
  entitled p csv h script w →
  (∀ x, ∃ st, k x = mret (Ok st) ∧ sp_txHex st = x.1.2) →
  wp (try published := publish tx w in k published)
     (λ r '(t', s'), inv s' ∧ spent p txHex t0 r t') no_stop (t, s).
Proof.
  intros Hs Ht Hcsv Hp Hw Hk. destruct (set_witness_prepared _ _ _ _ _ _ _ _ w Hp) as [tx' Htx'].
  assert (takes_opening p txHex addr tx') as Htakes by by eapply entitled_takes.
  unfold publish. rewrite Htx'. cbn [deref]. do 3 io_step.
  destruct (Serialize tx') as [bytes|] eqn:Hser;
    [|io_step; apply wp_ret; split; [done|by eapply failed_spent]].
  do 2 io_step. set (q := SendRawTx (hex.EncodeToString bytes)).
  assert (∀ r, (∀ st, r = Ok st → is_ok (reply t q) = true ∧
      sp_txHex st = hex.EncodeToString bytes) → spent p txHex t0 r (event q (reply t q) :: t)) as Hend.
  { intros r Hr. eapply published_spent; [done|done|done|by eexists| |].
    - intros bytes' ok' (a & E & _). apply (f_equal question) in E. injection E as E.
      symmetry. by apply hex.encode_inj.
    - intros st Hst. by destruct (Hr st Hst) as [-> ?]. }
  destruct (reply t q) as [id|e] eqn:Ha; apply wp_ret.
  - destruct (Hk (id, hex.EncodeToString bytes, tx')) as (st & -> & Hst). apply wp_ret.
    split; [done|]. apply Hend. intros st' [= <-]. done.
  - apply wp_ret. split; [done|]. by apply Hend.
Qed.

Lemma cln_address_then (k : string → IO answer S (result SpendingTx)) t s :
  (∀ addr t', addressed t addr t' → wp (k addr) (λ r '(t', s'), inv s' ∧ spent p txHex t r t')
                                      no_stop (t', s)) →
  inv s →
  wp (try addr := query NewAddr in k addr) (λ r '(t', s'), inv s' ∧ spent p txHex t r t') no_stop (t, s).
Proof.
  intros Hk Hs. do 2 io_step. destruct (reply t NewAddr) as [addr|e] eqn:E.
  - apply Hk. by apply addressed_new.
  - apply wp_ret. split; [done|]. apply refused_spent. intros bytes ok (a & Ha & _).
    by apply (f_equal question) in Ha.
Qed.

Lemma cln_preimage_spent t s :
  inv s → taker_key p (cp_Signer cp) →
  (∀ pre, MakePreimageFromStr (cp_Preimage cp) = (pre, None) → opens_hash p pre) →
  wp (CreatePreimageSpendingTransaction b p cp) (λ r '(t', s'), inv s' ∧ spent p txHex t r t')
     no_stop (t, s).
Proof.
  intros Hs Hkey Hpre. unfold CreatePreimageSpendingTransaction.
  rewrite (GetVoutAndVerify_funds _ _ _ _ _ Hfunds). cbn [snd].
  apply cln_address_then; [|done]. intros addr t1 Ht1.
  apply (prepare_then _ _ _ _ _ _ _ _ _ _ _ _ _ Hfunds); [done..|].
  intros tx h t2 s2 Hs2 Ht2 Hp. destruct (Sign (cp_Signer cp) h) as [sig|] eqn:Hsig;
    [|apply wp_ret; split; [done|by eapply failed_spent]].
  destruct (MakePreimageFromStr (cp_Preimage cp)) as [pre [e|]] eqn:Hpre';
    [apply wp_ret; split; [done|by eapply failed_spent]|].
  apply cln_publish_entitled with addr 0 h; [done..| |].
  - econstructor; [done|done|by apply Hpre|]. by eapply MakePreimageFromStr_length.
  - intros [[id hx] tx']. by eexists.
Qed.

Lemma cln_csv_spent t s :
  inv s → maker_key p (cp_Signer cp) →
  wp (CreateCsvSpendingTransaction b p cp) (λ r '(t', s'), inv s' ∧ spent p txHex t r t')
     no_stop (t, s).
Proof.
  intros Hs Hkey. unfold CreateCsvSpendingTransaction. apply cln_address_then; [|done].
  intros addr t1 Ht1. rewrite (GetVoutAndVerify_funds _ _ _ _ _ Hfunds). cbn [snd].
  apply (prepare_then _ _ _ _ _ _ _ _ _ _ _ _ _ Hfunds); [done..|].
  intros tx h t2 s2 Hs2 Ht2 Hp. destruct (Sign (cp_Signer cp) h) as [sig|] eqn:Hsig;
    [|apply wp_ret; split; [done|by eapply failed_spent]].
  apply cln_publish_entitled with addr BitcoinCsv h; [done..| |]; [by econstructor|].
  intros [[id hx] tx']. by eexists.
Qed.

Lemma cln_coop_spent taker t s :
  inv s → maker_key p (cp_Signer cp) → taker_key p taker →
  wp (CreateCoopSpendingTransaction b p cp taker) (λ r '(t', s'), inv s' ∧ spent p txHex t r t')
     no_stop (t, s).
Proof.
  intros Hs Hm Ht. unfold CreateCoopSpendingTransaction. apply cln_address_then; [|done].
  intros addr t1 Ht1. io_step. eapply wp_mono; [by apply GetFee_answers| |done].
  intros r [t1' s1] (Hg & Hs1 & rate & _ & ->). rewrite (GetVoutAndVerify_funds _ _ _ _ _ Hfunds). cbn [snd].
  apply (prepare_then _ _ _ _ _ _ _ _ _ _ _ _ _ Hfunds); [done|by eapply addressed_grown|].
  intros tx h t2 s2 Hs2 Ht2 Hp. destruct (Sign taker h) as [tsig|] eqn:Htsig;
    [|apply wp_ret; split; [done|by eapply failed_spent]].
  destruct (Sign (cp_Signer cp) h) as [msig|] eqn:Hmsig;
    [|apply wp_ret; split; [done|by eapply failed_spent]].
  apply cln_publish_entitled with addr 0 h; [done..| |]; [by econstructor|].
  intros [[id hx] tx']. by eexists.
Qed.
End modes.
End cln.
End ClnSpends.

(** ** The wallets *)
#[export] Existing Instances LndWallet.lnd_fee_backend ClnWallet.cln_fee_backend.
#[export] Existing Instances LndSpends.lnd_wallet_rpc ClnSpends.cln_wallet_rpc.

Section wallets.
Context {CL : ChainLib} {SR : ScriptRules} {BL : BtcLib} {SL : SignerLib} {CO : Consensus}.
Context {FL : FeeLib}.

(** C11. A taker that validated the opening transaction can claim it, on either wallet:
    the claim with its key and the preimage of the payment hash always ends, and
    every transaction it broadcasts spends the validated output under the rules of
    the script and pays the amount less 200 satoshi and a fee to an address of the
    wallet; without an error one was taken by the node. *)
Theorem validated_opening_is_claimable {OL : Oracle LndWallet.answer} {OC : Oracle ClnWallet.answer}
    {S S'} (ES : Estimator (A := LndWallet.answer) S) (ES' : Estimator (A := ClnWallet.answer) S')
    (inv : S → Prop) (inv' : S' → Prop) `{!EstimatorOk ES inv} `{!EstimatorOk ES' inv'}
    (b : BitcoinOnChain) (p : OpeningParams) (cp : ClaimParams) :
  ValidateTx p (cp_OpeningTxHex cp) = Ok true → taker_key p (cp_Signer cp) →
  (∀ pre, MakePreimageFromStr (cp_Preimage cp) = (pre, None) → opens_hash p pre) →
  (∀ t s, inv s → ∃ t' s' r,
     LndWallet.CreatePreimageSpendingTransaction b p cp (t, s) = Ret (t', s') r ∧
     inv s' ∧ spent p (cp_OpeningTxHex cp) t r t') ∧
  (∀ t s, inv' s → ∃ t' s' r,
     ClnWallet.CreatePreimageSpendingTransaction b p cp (t, s) = Ret (t', s') r ∧
     inv' s' ∧ spent p (cp_OpeningTxHex cp) t r t').
Proof.
  intros (tx & n & script & Hf)%ValidateTx_true Hk Hpre. split; intros t s Hs.
  - destruct (wp_total _ _ _ (LndSpends.preimage_spent b p cp tx n script Hf t s Hs Hk Hpre))
      as ([t' s'] & r & E & H). by exists t', s', r.
  - destruct (wp_total _ _ _ (ClnSpends.cln_preimage_spent b p cp tx n script Hf t s Hs Hk Hpre))
      as ([t' s'] & r & E & H). by exists t', s', r.
Qed.

(** C12. A maker whose opening transaction validates gets it back, on either wallet:
    the refund after the CSV and the cooperative close with the taker's key always
    end, and every transaction they broadcast spends the opening output under the
    rules of the script and pays to an address of the wallet; without an error one
    was taken by the node. *)
Theorem opening_is_refundable {OL : Oracle LndWallet.answer} {OC : Oracle ClnWallet.answer}
    {S S'} (ES : Estimator (A := LndWallet.answer) S) (ES' : Estimator (A := ClnWallet.answer) S')
    (inv : S → Prop) (inv' : S' → Prop) `{!EstimatorOk ES inv} `{!EstimatorOk ES' inv'}
    (b : BitcoinOnChain) (p : OpeningParams) (cp : ClaimParams) (taker : string) :
  ValidateTx p (cp_OpeningTxHex cp) = Ok true → maker_key p (cp_Signer cp) →
  (∀ t s, inv s → ∃ t' s' r,
     LndWallet.CreateCsvSpendingTransaction b p cp (t, s) = Ret (t', s') r ∧
     inv s' ∧ spent p (cp_OpeningTxHex cp) t r t') ∧
  (∀ t s, inv' s → ∃ t' s' r,
     ClnWallet.CreateCsvSpendingTransaction b p cp (t, s) = Ret (t', s') r ∧
     inv' s' ∧ spent p (cp_OpeningTxHex cp) t r t') ∧
  (taker_key p taker →
   (∀ t s, inv s → ∃ t' s' r,
      LndWallet.CreateCoopSpendingTransaction b p cp taker (t, s) = Ret (t', s') r ∧
      inv s' ∧ spent p (cp_OpeningTxHex cp) t r t') ∧
   (∀ t s, inv' s → ∃ t' s' r,
      ClnWallet.CreateCoopSpendingTransaction b p cp taker (t, s) = Ret (t', s') r ∧
      inv' s' ∧ spent p (cp_OpeningTxHex cp) t r t')).
Proof.
  intros (tx & n & script & Hf)%ValidateTx_true Hk. split_and!.
  - intros t s Hs. destruct (wp_total _ _ _ (LndSpends.csv_spent b p cp tx n script Hf t s Hs Hk))
      as ([t' s'] & r & E & H). by exists t', s', r.
  - intros t s Hs. destruct (wp_total _ _ _ (ClnSpends.cln_csv_spent b p cp tx n script Hf t s Hs Hk))
      as ([t' s'] & r & E & H). by exists t', s', r.
  - intros Ht. split; intros t s Hs.
    + destruct (wp_total _ _ _ (LndSpends.coop_spent b p cp tx n script Hf taker t s Hs Hk Ht))
        as ([t' s'] & r & E & H). by exists t', s', r.
    + destruct (wp_total _ _ _ (ClnSpends.cln_coop_spent b p cp tx n script Hf taker t s Hs Hk Ht))
        as ([t' s'] & r & E & H). by exists t', s', r.
Qed.
End wallets.
