(* ===== verification/LiquidOnChain.v ===== *)
(** * The opening transaction and its spending on Liquid (src/onchain/liquid.go)

    The amounts and the asset of an output are blinded: validation unblinds the
    opening output with the blinding key of the swap, and a spending transaction
    blinds its own.  Transactions are records of the fields the code reads and
    writes; encoding, addresses and the confidential transaction functions of
    go-elements are the library [ElementsLib]; the wallet (src/wallet/wallet.go)
    and the random source are questions. *)

From S2P Require Import Prelude GoLib SwapData Env Store Oracle OpeningScript BitcoinOnChain.

Definition LiquidConfs : Z := 2.
Definition EstimatedOpeningConfidentialTxSizeBytes : Z := 3000.

(** ** Transactions and the library *)
Record LTxOutput := mkLTxOut {
  l_Asset : string;
  l_Value : string;
  l_Script : string;
  l_Nonce : string;
  l_RangeProof : string;
  l_SurjectionProof : string;
}.

Record UnblindOutputResult := mkUnblinded {
  ub_Value : Z;
  ub_Asset : string;
  ub_ValueBlindingFactor : string;
  ub_AssetBlindingFactor : string;
}.

Section transactions.
Context {CL : ChainLib}.
Record LTxInput := mkLTxIn {
  l_Prevout : Hash * Z;
  l_Sequence : Z;
  l_Witness : list string;
}.
Record LTx := mkLTx { l_Inputs : list LTxInput; l_Outputs : list LTxOutput }.
End transactions.

Class ElementsLib {CL : ChainLib} {SR : ScriptRules} := {
  l_script_bytes : Script → string;
  NewTxFromHex : string → result LTx;
  ToHex : LTx → result string;
  LTxHash : LTx → Hash;
  (** payments and addresses *)
  Payment : Type;
  FromScript : string → option string → result Payment;
  WitnessScriptHash : Payment → result string;
  ConfidentialWitnessScriptHash : Payment → result string;
  ToOutputScript : string → result string;
  FromConfidential : string → result string;
  (** keys: the public key of a private one *)
  el_PubKey : string → string;
  (** confidential transactions *)
  IsConfidential : LTxOutput → bool;
  UnblindOutputWithKey : LTxOutput → string → result UnblindOutputResult;
  AssetCommitment : string → string → result string;
  ValueCommitment : Z → string → string → result string;
  FinalValueBlindingFactor : list Z → list Z → list string → list string → list string →
    list string → result string;
  SurjectionProof : string → string → list string → list string → string → option string;
  NonceHash : string → string → result string;
  RangeProof : Z → string → string → string → string → string → string → result string;
  ValueToBytes : Z → result string;
  (** the hash of input 0 for [SigHashAll]: script, value of the spent output *)
  HashForWitnessV0 : LTx → Script → string → string;
  (** The address of a witness program is read back as that program. *)
  program_payment : ∀ h, String.length h = 32%nat →
    ∃ pay addr, FromScript (String "000" (String " " h)) None = Ok pay ∧
      WitnessScriptHash pay = Ok addr ∧ ToOutputScript addr = Ok (String "000" (String " " h));
  l_sha256_length : ∀ s, String.length (sha256_Sum256 s) = 32%nat;
  NewTxFromHex_outputs : ∀ h tx, NewTxFromHex h = Ok tx → Z.of_nat (length (l_Outputs tx)) < 2 ^ 32;
}.

(** The liquid wallet and the random source. *)
Module LiquidRpc.
Inductive Call :=
  | GetAddress
  | GetBalance
  | CreateAndBroadcastTransaction (swapParams : OpeningParams) (OpeningAddress asset : string)
  | SendRawTx (rawTx : string)
  | GetFee (txSize : Z)
  | SetLabel (txID address label : string)
  | RandRead
  | NewPrivateKey.

Definition answer (c : Call) : Type :=
  match c with
  | GetAddress | SendRawTx _ | RandRead | NewPrivateKey => result string
  | GetBalance | GetFee _ => result Z
  (** txid, raw transaction and fee *)
  | CreateAndBroadcastTransaction _ _ _ => result (string * string * Z)
  | SetLabel _ _ _ => option error
  end.
End LiquidRpc.
Import LiquidRpc.

(** [elementsutil.ReverseBytes], and [NewLiquidOnChain]'s prefix. *)
Fixpoint ReverseBytes (s : string) : string :=
  match s with
  | EmptyString => ""
  | String c s => ReverseBytes s +:+ String c ""
  end.

Section liquid.
Context {CL : ChainLib} {SR : ScriptRules} {EL : ElementsLib} {SL : SignerLib}.

(** [LiquidOnChain]: the serialized policy asset. *)
Record LiquidOnChain := mkLiquidOnChain { asset : string }.
Definition NewLiquidOnChain (AssetID : string) : LiquidOnChain :=
  mkLiquidOnChain (String "001" (ReverseBytes (h2b AssetID))).

Context (l : LiquidOnChain).

(** ** Addresses and outputs *)
Definition witness_program (redeemScript : Script) : string :=
  String "000" (String " " (sha256_Sum256 (l_script_bytes redeemScript))).

Definition CreateOpeningAddress (redeemScript : Script) : result string :=
  match FromScript (witness_program redeemScript) None with
  | Err e => Err e
  | Ok redeemPayment => WitnessScriptHash redeemPayment
  end.

Definition CreateBlindedOpeningAddress (redeemScript : Script) (blindingPubkey : string) : result string :=
  match FromScript (witness_program redeemScript) (Some blindingPubkey) with
  | Err e => Err e
  | Ok redeemPayment => ConfidentialWitnessScriptHash redeemPayment
  end.

Definition GetOutputScript (params : OpeningParams) : result string :=
  match ParamsToTxScript params (op_CSV params) with
  | Err e => Err e
  | Ok redeemScript =>
      match CreateOpeningAddress redeemScript with
      | Err e => Err e
      | Ok wantAddr => ToOutputScript wantAddr
      end
  end.

Fixpoint find_script (outputs : list LTxOutput) (wantBytes : string) (i : Z) : option Z :=
  match outputs with
  | [] => None
  | v :: outputs => if bool_decide (l_Script v = wantBytes) then Some i
                    else find_script outputs wantBytes (i + 1)
  end.

Definition FindVout (outputs : list LTxOutput) (redeemScript : Script) : result Z :=
  match CreateOpeningAddress redeemScript with
  | Err e => Err e
  | Ok wantAddr =>
      match ToOutputScript wantAddr with
      | Err e => Err e
      | Ok wantBytes =>
          match find_script outputs wantBytes 0 with
          | Some i => Ok (u32 i)
          | None => Err (ErrText "vout not found")
          end
      end
  end.

Definition VoutFromTxHex (txHex : string) (redeemScript : Script) : result Z :=
  match NewTxFromHex txHex with
  | Err e => Err e
  | Ok tx => FindVout (l_Outputs tx) redeemScript
  end.

Definition TxIdFromHex (txHex : string) : result string :=
  match NewTxFromHex txHex with
  | Err e => Err e
  | Ok tx => Ok (Hash_String (LTxHash tx))
  end.

(** ** Validation

    A nil blinding key is dereferenced: [None]. *)
Definition validateOpeningOutput (output : LTxOutput) (expectedAmount : Z)
    (blindingKey : option string) : option (result UnblindOutputResult) :=
  key ← blindingKey;
  Some
    match UnblindOutputWithKey output key with
    | Err e => Err (ErrWrap ("failed to unblind opening output: " +:+ Error e) e)
    | Ok unblinded =>
        if negb (String.length (asset l) =? 33)%nat then
          Err (ErrText ("invalid policy asset serialization length: " +:+
                        strconv.Itoa (Z.of_nat (String.length (asset l)))))
        else
          let policyAsset := match asset l with String _ rest => rest | EmptyString => "" end in
          if bool_decide (ub_Asset unblinded ≠ policyAsset) then
            Err (ErrText ("invalid asset id got: " +:+ hex.EncodeToString (ub_Asset unblinded) +:+
                          ", expected " +:+ hex.EncodeToString policyAsset))
          else
            let checked :=
              if negb (IsConfidential output) then
                if bool_decide (l_Asset output ≠ asset l) then
                  Some (ErrText ("invalid explicit asset got: " +:+ hex.EncodeToString (l_Asset output) +:+
                                 ", expected " +:+ hex.EncodeToString (asset l)))
                else None
              else
                match AssetCommitment (ub_Asset unblinded) (ub_AssetBlindingFactor unblinded) with
                | Err e => Some (ErrWrap ("failed to reconstruct asset commitment: " +:+ Error e) e)
                | Ok assetCommitment =>
                    if bool_decide (assetCommitment ≠ l_Asset output) then
                      Some (ErrText ("invalid asset commitment got: " +:+
                                     hex.EncodeToString (l_Asset output) +:+ ", expected " +:+
                                     hex.EncodeToString assetCommitment))
                    else None
                end in
            match checked with
            | Some e => Err e
            | None =>
                if bool_decide (ub_Value unblinded ≠ expectedAmount) then
                  Err (ErrText ("tx value is not equal to the swap contract expected: " +:+
                                strconv.Itoa expectedAmount +:+ ", tx: " +:+
                                strconv.Itoa (ub_Value unblinded)))
                else Ok unblinded
            end
    end.

(** [Outputs[vout]] is in range, since [FindVout] found it. *)
Definition ValidateTx (openingParams : OpeningParams) (txHex : string) : option (result bool) :=
  match ParamsToTxScript openingParams (op_CSV openingParams) with
  | Err e => Some (Err e)
  | Ok redeemScript =>
      match NewTxFromHex txHex with
      | Err e => Some (Err e)
      | Ok openingTx =>
          match FindVout (l_Outputs openingTx) redeemScript with
          | Err e => Some (Err e)
          | Ok vout =>
              output ← l_Outputs openingTx !! Z.to_nat vout;
              r ← validateOpeningOutput output (op_Amount openingParams) (op_BlindingKey openingParams);
              Some match r with Err e => Err e | Ok _ => Ok true end
          end
      end
  end.

(** ** Sizes *)
Inductive transactionKind :=
  | transactionKindPreimageSpending | transactionKindCoop | transactionKindOpening
  | transactionKindCSV | transactionKindOther.

Definition getEstimatedTxSize (t : transactionKind) : Z :=
  match t with
  | transactionKindPreimageSpending => Z.quot 1350 4
  | transactionKindCoop => Z.quot 1360 4
  | transactionKindOpening => Z.quot EstimatedOpeningConfidentialTxSizeBytes 4
  | transactionKindCSV => Z.quot 1350 4
  | transactionKindOther => 1360
  end.

(** ** The spending transaction *)
Context {OR : Oracle answer} {S : Type}.
Abbreviation Io := (IO answer S).

(** The blinding fields of [ClaimParams]. *)
Record Blinding := mkBlinding {
  OutputAssetBlindingFactor : string;
  BlindingSeed : string;
  EphemeralKey : option string;
}.

Definition generateRandom32Bytes : Io string :=
  r ← query RandRead;
  mret (match r with Ok bytes => bytes | Err _ => "" end).

(** The fields are set also when the key cannot be generated. *)
Definition AddBlindingRandomFactors : Io (Blinding * option error) :=
  abf ← generateRandom32Bytes;
  seed ← generateRandom32Bytes;
  k ← query NewPrivateKey;
  mret match k with
       | Ok key => (mkBlinding abf seed (Some key), None)
       | Err e => (mkBlinding abf seed None, Some e)
       end.

Definition value_bytes (value : Z) : string :=
  match ValueToBytes value with Ok bytes => bytes | Err _ => "" end.

Definition createSpendingTransaction (openingTxHex : string) (swapAmount csv : Z)
    (asset : string) (redeemScript : Script) (redeemAddr : string) (preparedFee : Z)
    (blindingKey : option string) (bl : Blinding) : Io (result (LTx * string)) :=
  if preparedFee =? 0 then mret (Err (ErrText "fee must be set other than 0"))
  else
  take firstTx := NewTxFromHex openingTxHex in
  take vout := FindVout (l_Outputs firstTx) redeemScript in
  output ← deref (l_Outputs firstTx !! Z.to_nat vout);
  validated ← deref (validateOpeningOutput output swapAmount blindingKey);
  take ubRes := validated in
  let outputAbf := OutputAssetBlindingFactor bl in
  let outputValue := u64 (ub_Value ubRes - preparedFee) in
  take outputVbf := FinalValueBlindingFactor [ub_Value ubRes] [outputValue]
                      [ub_AssetBlindingFactor ubRes] [outputAbf] [ub_ValueBlindingFactor ubRes] [] in
  take assetcommitment := AssetCommitment (ub_Asset ubRes) outputAbf in
  take valueCommitment := ValueCommitment outputValue assetcommitment outputVbf in
  match SurjectionProof (ub_Asset ubRes) outputAbf [ub_Asset ubRes]
          [ub_AssetBlindingFactor ubRes] (BlindingSeed bl) with
  | None => mret (Err (ErrText "failed to generate surjection proof, please retry"))
  | Some surjectionProof =>
      take confOutputScript := ToOutputScript redeemAddr in
      take confAddrBlindingKey := FromConfidential redeemAddr in
      ephemeralPrivKey ← deref (EphemeralKey bl);
      take nonce := NonceHash confAddrBlindingKey ephemeralPrivKey in
      take rangeProof := RangeProof outputValue nonce (ub_Asset ubRes) outputAbf outputVbf
                           valueCommitment confOutputScript in
      let receiverOutput := mkLTxOut assetcommitment valueCommitment confOutputScript
                              (el_PubKey ephemeralPrivKey) rangeProof surjectionProof in
      let feeOutput := mkLTxOut asset (value_bytes preparedFee) "" "" "" "" in
      let spendingTx := mkLTx [mkLTxIn (LTxHash firstTx, vout) csv []] [receiverOutput; feeOutput] in
      mret (Ok (spendingTx, HashForWitnessV0 spendingTx redeemScript (l_Value output)))
  end.

Definition prepareSpendingTransaction (swapParams : OpeningParams) (claimParams : ClaimParams)
    (bl : Blinding) (spendingAddr : string) (csv preparedFee : Z)
    : Io (result (LTx * string * Script)) :=
  take redeemScript := ParamsToTxScript swapParams (op_CSV swapParams) in
  try created := createSpendingTransaction (cp_OpeningTxHex claimParams) (op_Amount swapParams) csv
                   (asset l) redeemScript spendingAddr preparedFee (op_BlindingKey swapParams) bl in
  take sig := Sign (cp_Signer claimParams) (snd created) in
  mret (Ok (fst created, sig, redeemScript)).

(** [tx.Inputs[0].Witness = w]. *)
Definition l_set_witness (w : Witness) (tx : LTx) : option LTx :=
  match l_Inputs tx with
  | i :: ins =>
      Some (mkLTx (mkLTxIn (l_Prevout i) (l_Sequence i) (wit_stack w ++ [l_script_bytes (wit_script w)])
                   :: ins) (l_Outputs tx))
  | [] => None
  end.

(** The end of the three spending calls. *)
Definition send (tx : LTx) (w : Witness) (address : string) : Io (result SpendingTx) :=
  tx ← deref (l_set_witness w tx);
  take txHex := ToHex tx in
  try txId := query (SendRawTx txHex) in
  mret (Ok (mkSpendingTx txId txHex address)).

Definition feeAmountPlaceholder : Z := 500.

(** The fee of the wallet for a kind of transaction, or the placeholder. *)
Definition spending_fee (t : transactionKind) : Io Z :=
  r ← query (GetFee (getEstimatedTxSize t));
  mret (match r with Ok fee => fee | Err _ => feeAmountPlaceholder end).

(** The error of [AddBlindingRandomFactors] is dropped. *)
Definition createPreimageSpendingTransaction (swapParams : OpeningParams)
    (claimParams : ClaimParams) (fee : Z) : Io (result SpendingTx) :=
  try newAddr := query GetAddress in
  bl ← AddBlindingRandomFactors;
  try prepared := prepareSpendingTransaction swapParams claimParams (fst bl) newAddr 0 fee in
  let '(tx, sigBytes, redeemScript) := prepared in
  take unsigned := ToHex tx in
  match MakePreimageFromStr (cp_Preimage claimParams) with
  | (_, Some e) => mret (Err e)
  | (preimage, None) => send tx (GetPreimageWitness sigBytes preimage redeemScript) newAddr
  end.
Definition CreatePreimageSpendingTransaction (swapParams : OpeningParams)
    (claimParams : ClaimParams) : Io (result SpendingTx) :=
  fee ← spending_fee transactionKindPreimageSpending;
  createPreimageSpendingTransaction swapParams claimParams fee.

Definition createCsvSpendingTransaction (swapParams : OpeningParams)
    (claimParams : ClaimParams) (fee : Z) : Io (result SpendingTx) :=
  try newAddr := query GetAddress in
  bl ← AddBlindingRandomFactors;
  try prepared :=
    prepareSpendingTransaction swapParams claimParams (fst bl) newAddr (op_CSV swapParams) fee in
  let '(tx, sigBytes, redeemScript) := prepared in
  send tx (GetCsvWitness sigBytes redeemScript) newAddr.
(** The size is the one of a preimage spending, which is the same. *)
Definition CreateCsvSpendingTransaction (swapParams : OpeningParams)
    (claimParams : ClaimParams) : Io (result SpendingTx) :=
  fee ← spending_fee transactionKindPreimageSpending;
  createCsvSpendingTransaction swapParams claimParams fee.

Definition createCoopSpendingTransaction (swapParams : OpeningParams)
    (claimParams : ClaimParams) (takerSigner : string) (fee : Z) : Io (result SpendingTx) :=
  try refundAddr := query GetAddress in
  take redeemScript := ParamsToTxScript swapParams (op_CSV swapParams) in
  bl ← AddBlindingRandomFactors;
  match snd bl with
  | Some e => mret (Err e)
  | None =>
      try created := createSpendingTransaction (cp_OpeningTxHex claimParams) (op_Amount swapParams) 0
                       (asset l) redeemScript refundAddr fee (op_BlindingKey swapParams) (fst bl) in
      let '(spendingTx, sigHash) := created in
      take takerSig := Sign takerSigner sigHash in
      take makerSig := Sign (cp_Signer claimParams) sigHash in
      send spendingTx (GetCooperativeWitness takerSig makerSig redeemScript) refundAddr
  end.
Definition CreateCoopSpendingTransaction (swapParams : OpeningParams)
    (claimParams : ClaimParams) (takerSigner : string) : Io (result SpendingTx) :=
  fee ← spending_fee transactionKindCoop;
  createCoopSpendingTransaction swapParams claimParams takerSigner fee.

(** ** The opening transaction

    The error of [FromScript] is dropped, so that a nil payment or blinding key is
    dereferenced; [vout] stays zero. *)
Definition CreateOpeningTransaction (swapParams : OpeningParams) : Io (result OpeningTx) :=
  take redeemScript := ParamsToTxScript swapParams (op_CSV swapParams) in
  key ← deref (op_BlindingKey swapParams);
  redeemPayment ← deref (match FromScript (witness_program redeemScript) (Some (el_PubKey key)) with
                         | Ok pay => Some pay
                         | Err _ => None
                         end);
  take blindedScriptAddr := ConfidentialWitnessScriptHash redeemPayment in
  try created := query (CreateAndBroadcastTransaction swapParams blindedScriptAddr (asset l)) in
  let '(txId, txHex, fee) := created in
  mret (Ok (mkOpeningTx txHex blindedScriptAddr txId fee 0)).

Definition GetRefundFee : Io (result Z) := query (GetFee (getEstimatedTxSize transactionKindCoop)).
Definition GetFlatOpeningTXFee : Io (result Z) :=
  query (GetFee (getEstimatedTxSize transactionKindOpening)).
Definition GetOnchainBalance : Io (result Z) := query GetBalance.
Definition SetLabel_ (txID address label : string) : Io (option error) :=
  query (SetLabel txID address label).
Definition GetAsset : string := hex.EncodeToString (asset l).
Definition GetNetwork : string := "".
End liquid.
