(* ===== verification/LiquidProofs.v ===== *)
(** * What the liquid wallet guarantees

    Validation accepts exactly the transactions whose first output to the opening
    script holds the agreed amount of the policy asset; a transaction the wallet
    sends to spend it is valid for that output, keeps its value less the fee, and
    shows the fee in an explicit output. *)

From S2P Require Import Prelude GoLib SwapData Env Oracle OpeningScript BitcoinOnChain LiquidOnChain.
Import LiquidRpc.

Section validation.
Context {CL : ChainLib} {SR : ScriptRules} {EL : ElementsLib} (l : LiquidOnChain).

Lemma opening_address_program script :
  ∃ addr, CreateOpeningAddress script = Ok addr ∧ ToOutputScript addr = Ok (witness_program script).
Proof.
  unfold CreateOpeningAddress, witness_program.
  destruct (program_payment (sha256_Sum256 (l_script_bytes script)) (l_sha256_length _))
    as (pay & addr & -> & -> & H). by exists addr.
Qed.

Lemma find_script_spec outs want i :
  match find_script outs want i with
  | Some j => ∃ n out, j = i + Z.of_nat n ∧ outs !! n = Some out ∧ l_Script out = want ∧
      ∀ m o, (m < n)%nat → outs !! m = Some o → l_Script o ≠ want
  | None => ∀ m o, outs !! m = Some o → l_Script o ≠ want
  end.
Proof.
  revert i. induction outs as [|o outs IH]; intros i; cbn; [done|]. case_bool_decide as Ho.
  - exists 0%nat, o. split_and!; [lia|done|done|]. intros m; lia.
  - specialize (IH (i + 1)). destruct (find_script outs want (i + 1)) as [j|].
    + destruct IH as (n & out & -> & Hn & Hout & Hfirst). exists (S n), out.
      split_and!; [lia|done|done|]. intros [|m] o' Hm; cbn; [by intros [= <-]|]. apply Hfirst. lia.
    + intros [|m] o'; cbn; [by intros [= <-]|]. apply IH.
Qed.

(** Output [n] is the first one of [tx] that pays to [script]. *)
Definition first_paying (tx : LTx) (script : Script) (n : nat) (out : LTxOutput) : Prop :=
  l_Outputs tx !! n = Some out ∧ l_Script out = witness_program script ∧
  ∀ m o, (m < n)%nat → l_Outputs tx !! m = Some o → l_Script o ≠ witness_program script.

Lemma first_paying_unique tx script n out n' out' :
  first_paying tx script n out → first_paying tx script n' out' → n' = n ∧ out' = out.
Proof.
  intros (Hn & Hs & Hf) (Hn' & Hs' & Hf').
  destruct (lt_eq_lt_dec n' n) as [[?|Heq]|?].
  - by destruct (Hf n' out').
  - subst n'. split; [done|congruence].
  - by destruct (Hf' n out).
Qed.

Lemma FindVout_spec txHex tx script :
  NewTxFromHex txHex = Ok tx →
  match FindVout (l_Outputs tx) script with
  | Ok vout => ∃ n out, vout = Z.of_nat n ∧ first_paying tx script n out
  | Err e => e = ErrText "vout not found" ∧ ∀ n out, ¬ first_paying tx script n out
  end.
Proof.
  intros Htx. unfold FindVout. destruct (opening_address_program script) as (addr & -> & ->).
  pose proof (find_script_spec (l_Outputs tx) (witness_program script) 0) as H.
  destruct (find_script _ _ _) as [j|].
  - destruct H as (n & out & -> & Hn & Hs & Hf). exists n, out. split; [|done].
    rewrite Z.add_0_l. apply u32_small. apply lookup_lt_Some in Hn.
    apply NewTxFromHex_outputs in Htx. unfold is_u32. lia.
  - split; [done|]. intros n out (Hn & Hs & _). by destruct (H n out).
Qed.

(** An output holds the amount of the policy asset: unblinded with the key it is the
    amount and the asset, and what it shows of the asset, explicit or as a
    commitment, is that asset. *)
Definition holds (out : LTxOutput) (amount : Z) (key : string) (ub : UnblindOutputResult) : Prop :=
  UnblindOutputWithKey out key = Ok ub ∧ ub_Value ub = amount ∧
  (∃ tag, asset l = String tag (ub_Asset ub) ∧ String.length (asset l) = 33%nat) ∧
  (if IsConfidential out then AssetCommitment (ub_Asset ub) (ub_AssetBlindingFactor ub) = Ok (l_Asset out)
   else l_Asset out = asset l).

Lemma validateOpeningOutput_spec out amount key ub :
  validateOpeningOutput l out amount (Some key) = Some (Ok ub) ↔ holds out amount key ub.
Proof.
  unfold validateOpeningOutput, holds. cbn [mbind option_bind].
  destruct (UnblindOutputWithKey out key) as [u|]; [|naive_solver].
  destruct (Nat.eqb_spec (String.length (asset l)) 33) as [Hl|Hl]; cbn [negb]; [|naive_solver].
  destruct (asset l) as [|tag policy] eqn:Ha; [done|].
  case_bool_decide as Hpol.
  { split; [done|]. intros ([= <-] & _ & (tag' & [= -> ->] & _) & _). done. }
  destruct (decide (ub_Asset u = policy)) as [Hpol'|]; [|done]. clear Hpol.
  destruct (IsConfidential out); cbn [negb].
  - destruct (AssetCommitment _ _) as [c|] eqn:Hc.
    + destruct (decide (c = l_Asset out)) as [->|Hne].
      * rewrite bool_decide_false by naive_solver. 
        destruct (decide (ub_Value u = amount)).
        { rewrite bool_decide_false by naive_solver. naive_solver. }
        rewrite bool_decide_true by done. naive_solver.
      * rewrite bool_decide_true by done. split; [done|]. intros ([= <-] & _ & _ & E). congruence.
    + split; [done|]. intros ([= <-] & _ & _ & E). congruence.
  - destruct (decide (l_Asset out = String tag policy)) as [E|Hne].
    + rewrite bool_decide_false by naive_solver.
      destruct (decide (ub_Value u = amount)).
      { rewrite bool_decide_false by naive_solver. naive_solver. }
      rewrite bool_decide_true by done. naive_solver.
    + rewrite bool_decide_true by done. naive_solver.
Qed.

(** The transaction [tx] funds the swap with output [n]. *)
Record l_funds (p : OpeningParams) (txHex : string) (tx : LTx) (n : nat) (out : LTxOutput)
    (script : Script) (ub : UnblindOutputResult) : Prop := {
  l_funds_tx : NewTxFromHex txHex = Ok tx;
  l_funds_script : ParamsToTxScript p (op_CSV p) = Ok script;
  l_funds_output : first_paying tx script n out;
  l_funds_holds : ∃ key, op_BlindingKey p = Some key ∧ holds out (op_Amount p) key ub;
}.

Lemma FindVout_funds p txHex tx n out script ub :
  l_funds p txHex tx n out script ub →
  FindVout (l_Outputs tx) script = Ok (Z.of_nat n) ∧ l_Outputs tx !! n = Some out.
Proof.
  intros [Htx _ Hfirst _]. split; [|apply Hfirst]. pose proof (FindVout_spec _ _ script Htx) as H.
  destruct (FindVout _ _) as [v|]; [|by destruct H as [_ H]; destruct (H n out)].
  destruct H as (n' & out' & -> & H). by destruct (first_paying_unique _ _ _ _ _ _ Hfirst H) as [-> _].
Qed.

Lemma liquid_ValidateTx_true p txHex :
  ValidateTx l p txHex = Some (Ok true) ↔ ∃ tx n out script ub, l_funds p txHex tx n out script ub.
Proof.
  split.
  - unfold ValidateTx. destruct (ParamsToTxScript p (op_CSV p)) as [script|] eqn:Hs; [|done].
    destruct (NewTxFromHex txHex) as [tx|] eqn:Htx; [|done].
    pose proof (FindVout_spec _ _ script Htx) as H. destruct (FindVout _ _) as [v|]; [|done].
    destruct H as (n & out & -> & Hf). rewrite Nat2Z.id, (proj1 Hf). cbn [mbind option_bind].
    destruct (op_BlindingKey p) as [key|] eqn:Hk; [|done].
    destruct (validateOpeningOutput _ _ _ _) as [[ub|]|] eqn:Hv; [|done|done]. intros _.
    apply validateOpeningOutput_spec in Hv. exists tx, n, out, script, ub. by split; eauto.
  - intros (tx & n & out & script & ub & H). destruct (FindVout_funds _ _ _ _ _ _ _ H) as [Hv Hn].
    destruct H as [Htx Hs _ (key & Hk & Hh)]. unfold ValidateTx. rewrite Hs, Htx, Hv, Nat2Z.id, Hn.
    cbn [mbind option_bind]. rewrite Hk. apply validateOpeningOutput_spec in Hh. by rewrite Hh.
Qed.

(** C40. Validation on Liquid is exact: a transaction is accepted exactly when its
    first output to the script of the swap's parameters unblinds, with the swap's
    blinding key, to the agreed amount of the policy asset, and its asset is shown
    or committed to as that asset; it is never answered with false, and it panics
    only for a transaction with such an output when there is no blinding key. *)
Theorem liquid_validation_exact (p : OpeningParams) (txHex : string) :
  (ValidateTx l p txHex = Some (Ok true) ↔
     ∃ tx n out script ub, l_funds p txHex tx n out script ub) ∧
  ValidateTx l p txHex ≠ Some (Ok false) ∧
  (ValidateTx l p txHex = None ↔ op_BlindingKey p = None ∧
     ∃ tx n out script, NewTxFromHex txHex = Ok tx ∧ ParamsToTxScript p (op_CSV p) = Ok script ∧
       first_paying tx script n out).
Proof.
  split; [apply liquid_ValidateTx_true|]. unfold ValidateTx.
  destruct (ParamsToTxScript p (op_CSV p)) as [script|]; [|naive_solver].
  destruct (NewTxFromHex txHex) as [tx|] eqn:Htx; [|naive_solver].
  pose proof (FindVout_spec _ _ script Htx) as H. destruct (FindVout _ _) as [v|e]; [|naive_solver].
  destruct H as (n & out & -> & Hf). rewrite Nat2Z.id, (proj1 Hf). cbn [mbind option_bind].
  unfold validateOpeningOutput. destruct (op_BlindingKey p) as [key|]; cbn [mbind option_bind].
  - split; [by repeat case_match|]. split; [done|]. naive_solver.
  - split; [done|]. split; [|done]. intros _. split; [done|]. by exists tx, n, out, script.
Qed.
End validation.

(** ** Spending *)

(** What consensus checks of the first input, given the script and the value of the
    output it spends. *)
Class LiquidConsensus {CL : ChainLib} {SR : ScriptRules} {EL : ElementsLib} {SL : SignerLib} := {
  l_pubkey_of : string → string;
  l_input_checks : LTx → Script → string → Spending;
  l_sign_valid : ∀ key tx script value sig w tx',
    Sign key (HashForWitnessV0 tx script value) = Ok sig → l_set_witness w tx = Some tx' →
    checks_sig (l_input_checks tx' script value) (l_pubkey_of key) (sig +:+ SigHashAll) = Some true;
  l_empty_invalid : ∀ tx script value pk, checks_sig (l_input_checks tx script value) pk "" = Some false;
  l_relative_lock : ∀ tx i ins script value n, l_Inputs tx = i :: ins →
    0 < n < 2 ^ 16 → 0 ≤ l_Sequence i < 2 ^ 16 →
    sequence_reached (l_input_checks tx script value) n = (n <=? l_Sequence i);
}.

Section spending.
Context {CL : ChainLib} {SR : ScriptRules} {EL : ElementsLib} {SL : SignerLib}.
Context {LC : LiquidConsensus} (l : LiquidOnChain).

Definition l_taker_key (p : OpeningParams) (key : string) : Prop :=
  hex.DecodeString (op_TakerPubkey p) = (l_pubkey_of key, None).
Definition l_maker_key (p : OpeningParams) (key : string) : Prop :=
  hex.DecodeString (op_MakerPubkey p) = (l_pubkey_of key, None).
Definition l_opens_hash (p : OpeningParams) (preimage : string) : Prop :=
  hex.DecodeString (op_ClaimPaymentHash p) = (script_sha256 preimage, None).

(** The only input of [tx] spends output [n] of [opening], under the rules of the
    script the output commits to. *)
Definition l_spends_output (tx opening : LTx) (n : nat) : Prop :=
  ∃ out i stack script, l_Inputs tx = [i] ∧ l_Prevout i = (LTxHash opening, Z.of_nat n) ∧
    l_Outputs opening !! n = Some out ∧ l_Script out = witness_program script ∧
    l_Witness i = stack ++ [l_script_bytes script] ∧
    spends (l_input_checks tx script (l_Value out)) (mkWitness stack script) = true.

(** The outputs: the value less the fee, committed to with the asset that was
    unblinded, to the address, and the fee, explicit, in the policy asset. *)
Definition pays_out (p : OpeningParams) (ub : UnblindOutputResult) (fee : Z) (addr : string)
    (outs : list LTxOutput) : Prop :=
  ∃ receiver abf vbf, outs = [receiver; mkLTxOut (asset l) (value_bytes fee) "" "" "" ""] ∧
    ToOutputScript addr = Ok (l_Script receiver) ∧
    AssetCommitment (ub_Asset ub) abf = Ok (l_Asset receiver) ∧
    ValueCommitment (u64 (op_Amount p - fee)) (l_Asset receiver) vbf = Ok (l_Value receiver).

Definition takes_liquid (p : OpeningParams) (txHex : string) (fee : Z) (addr : string) (tx : LTx) : Prop :=
  ∃ opening n out script ub, l_funds l p txHex opening n out script ub ∧
    l_spends_output tx opening n ∧ pays_out p ub fee addr (l_Outputs tx).

Section run.
Context {OR : Oracle answer} {S : Type} (p : OpeningParams) (cp : ClaimParams).
Context (opening : LTx) (n : nat) (out : LTxOutput) (script : Script) (ub : UnblindOutputResult).
Hypothesis Hfunds : l_funds l p (cp_OpeningTxHex cp) opening n out script ub.
Hypothesis Hcsv : 0 < op_CSV p < 2 ^ 16.
Let txHex := cp_OpeningTxHex cp.
Implicit Types (t : Trace answer) (s : S).

(** The transaction [createSpendingTransaction] makes, before it is signed. *)
Definition created (csv fee : Z) (addr : string) (r : LTx * string) : Prop :=
  snd r = HashForWitnessV0 (fst r) script (l_Value out) ∧
  l_Inputs (fst r) = [mkLTxIn (LTxHash opening, Z.of_nat n) csv []] ∧
  pays_out p ub fee addr (l_Outputs (fst r)).

Lemma create_spec csv addr fee bl t s (R : stop → Trace answer * S → Prop) :
  (EphemeralKey bl = None → R Panicked (t, s)) →
  wp (createSpendingTransaction l txHex (op_Amount p) csv (asset l) script addr fee
        (op_BlindingKey p) bl)
     (λ r '(t', s'), t' = t ∧ s' = s ∧ ∀ x, r = Ok x → created csv fee addr x) R (t, s).
Proof.
  intros HR. unfold createSpendingTransaction. destruct (fee =? 0); [by apply wp_ret|].
  destruct (FindVout_funds _ _ _ _ _ _ _ _ Hfunds) as [Hv Hn].
  destruct Hfunds as [Htx _ _ (key & Hk & Hh)]. unfold txHex. rewrite Htx, Hv, Nat2Z.id, Hn, Hk.
  cbn [deref]. do 2 io_step.
  pose proof (proj2 (validateOpeningOutput_spec l out _ _ _) Hh) as ->. cbn [deref]. do 2 io_step.
  cbv zeta. destruct Hh as (_ & Hamount & _ & _). rewrite Hamount.
  destruct (FinalValueBlindingFactor _ _ _ _ _ _) as [vbf|]; [|by apply wp_ret].
  destruct (AssetCommitment _ _) as [ac|] eqn:Hac; [|by apply wp_ret].
  destruct (ValueCommitment _ _ _) as [vc|] eqn:Hvc; [|by apply wp_ret].
  destruct (SurjectionProof _ _ _ _ _) as [proof|]; [|by apply wp_ret].
  destruct (ToOutputScript addr) as [conf|] eqn:Hconf; [|by apply wp_ret].
  destruct (FromConfidential addr) as [bk|]; [|by apply wp_ret].
  io_step. apply wp_deref; [|exact HR]. intros eph Heph.
  destruct (NonceHash bk eph) as [nonce|]; [|by apply wp_ret].
  destruct (RangeProof _ _ _ _ _ _ _) as [rp|]; [|by apply wp_ret].
  apply wp_ret. split; [done|]. split; [done|]. intros x [= <-].
  split; [done|]. split; [done|]. eexists _, _, _. split; [done|]. done.
Qed.

(** Who may use which witness, for the hash of the transaction. *)
Inductive l_entitled (csv : Z) (h : string) : Witness → Prop :=
  | l_by_preimage key sig preimage :
      l_taker_key p key → Sign key h = Ok sig → l_opens_hash p preimage →
      String.length preimage = 32%nat → l_entitled csv h (GetPreimageWitness sig preimage script)
  | l_by_csv key sig :
      l_maker_key p key → Sign key h = Ok sig → csv = op_CSV p →
      l_entitled csv h (GetCsvWitness sig script)
  | l_by_both taker maker tsig msig :
      l_taker_key p taker → l_maker_key p maker → Sign taker h = Ok tsig → Sign maker h = Ok msig →
      l_entitled csv h (GetCooperativeWitness tsig msig script).

Lemma created_takes csv fee addr tx h w tx' :
  created csv fee addr (tx, h) → 0 ≤ csv < 2 ^ 16 → l_entitled csv h w →
  l_set_witness w tx = Some tx' → takes_liquid p txHex fee addr tx'.
Proof.
  intros (Hh & Hin & Hpays) Hc Hw Hset. cbn [fst snd] in *. subst h.
  pose proof (l_funds_script _ _ _ _ _ _ _ _ Hfunds) as Hscript.
  pose proof (l_funds_output _ _ _ _ _ _ _ _ Hfunds) as (Hn & Hpk & _).
  assert (∃ taker maker phash, hex.DecodeString (op_TakerPubkey p) = (taker, None) ∧
    hex.DecodeString (op_MakerPubkey p) = (maker, None) ∧
    hex.DecodeString (op_ClaimPaymentHash p) = (phash, None) ∧
    GetOpeningTxScript taker maker phash (op_CSV p) = Ok script)
    as (taker & maker & phash & Ht & Hm & Hp & Hs).
  { revert Hscript. unfold ParamsToTxScript. repeat (case_match; try done). intros. by eexists _, _, _. }
  assert (l_Inputs tx' = [mkLTxIn (LTxHash opening, Z.of_nat n) csv
            (wit_stack w ++ [l_script_bytes (wit_script w)])] ∧ l_Outputs tx' = l_Outputs tx)
    as [Hin' Hout'] by (unfold l_set_witness in Hset; rewrite Hin in Hset; by injection Hset as <-).
  exists opening, n, out, script, ub. split; [done|]. split; [|by rewrite Hout'].
  assert (∀ key sig, Sign key (HashForWitnessV0 tx script (l_Value out)) = Ok sig →
    checks_sig (l_input_checks tx' script (l_Value out)) (l_pubkey_of key) (sig +:+ SigHashAll) = Some true)
    as Hsig by (intros; by eapply l_sign_valid).
  pose proof (witnesses_spend_the_output (l_input_checks tx' script (l_Value out)) taker maker phash
    (op_CSV p) script) as Hspend.
  eexists out, _, (wit_stack w), script. split; [exact Hin'|]. do 3 (split; [done|]).
  assert (wit_script w = script) as Hws by by destruct Hw. split; [cbn; by rewrite <- Hws|].
  destruct Hw as [key sig pre Hk Hsign Hpre Hlen|key sig Hk Hsign ->|tk mk tsig msig Htk Hmk Hts Hms].
  - apply (Hspend sig "" pre Hs ltac:(lia) (l_empty_invalid _ _ _ _)).
    unfold l_taker_key, l_opens_hash in *. split_and!; [|done|congruence].
    replace taker with (l_pubkey_of key) by congruence. by apply Hsig.
  - apply (Hspend "" sig "" Hs ltac:(lia) (l_empty_invalid _ _ _ _)).
    unfold l_maker_key in *. split.
    + replace maker with (l_pubkey_of key) by congruence. by apply Hsig.
    + erewrite l_relative_lock; [|exact Hin'|lia|cbn; lia]. cbn. by rewrite Z.leb_refl.
  - apply (Hspend tsig msig "" Hs ltac:(lia) (l_empty_invalid _ _ _ _)).
    unfold l_taker_key, l_maker_key in *. split.
    + replace taker with (l_pubkey_of tk) by congruence. by apply Hsig.
    + replace maker with (l_pubkey_of mk) by congruence. by apply Hsig.
Qed.

(** ** Runs of the three calls *)

(** The events before the transaction is sent: an address, and no broadcast. *)
Definition quiet_since t0 addr t : Prop :=
  ∃ new, t = new ++ t0 ∧ (∀ rawTx a, event (SendRawTx rawTx) a ∉ new) ∧
         event GetAddress (Ok addr) ∈ new.

(** Every transaction that was sent takes the opening output to an address of the
    wallet, and one was taken by the node when the result is no error. *)
Definition l_spent t0 (r : result SpendingTx) t : Prop :=
  ∃ new, t = new ++ t0 ∧
    (∀ rawTx a, event (SendRawTx rawTx) a ∈ new → ∃ tx addr fee, ToHex tx = Ok rawTx ∧
       event GetAddress (Ok addr) ∈ new ∧ takes_liquid p txHex fee addr tx) ∧
    (∀ st, r = Ok st → event (SendRawTx (sp_txHex st)) (Ok (sp_txId st)) ∈ new).

(** A run that stops has panicked for want of an ephemeral key. *)
Definition no_key (k : stop) (st : Trace answer * S) : Prop :=
  k = Panicked ∧ ∃ e, event NewPrivateKey (Err e) ∈ fst st.

Lemma quiet_cons t0 addr t q a :
  (∀ rawTx, q ≠ SendRawTx rawTx) → quiet_since t0 addr t → quiet_since t0 addr (event q a :: t).
Proof.
  intros Hq (new & -> & Hnew & Ha). exists (event q a :: new). split; [done|]. split; [|by right].
  intros rawTx b [E|?]%elem_of_cons; [|by eapply Hnew].
  apply (f_equal question) in E. by destruct (Hq rawTx).
Qed.
Lemma quiet_fails t0 addr t e : quiet_since t0 addr t → l_spent t0 (Err e) t.
Proof.
  intros (new & -> & Hnew & _). exists new. split; [done|]. split; [|done].
  intros rawTx a Hin. by destruct (Hnew rawTx a).
Qed.

Lemma send_spec t0 t s addr tx w fee csv h :
  quiet_since t0 addr t → created csv fee addr (tx, h) → 0 ≤ csv < 2 ^ 16 → l_entitled csv h w →
  wp (send tx w addr) (λ r '(t', s'), l_spent t0 r t') no_key (t, s).
Proof.
  intros Hq Hc Hcsv' Hw. unfold send.
  assert (∃ tx', l_set_witness w tx = Some tx') as [tx' Htx'].
  { destruct Hc as (_ & Hin & _). unfold l_set_witness. cbn [fst] in Hin. rewrite Hin. by eexists. }
  pose proof (created_takes _ _ _ _ _ _ _ Hc Hcsv' Hw Htx') as Htakes.
  rewrite Htx'. cbn [deref]. do 2 io_step.
  destruct (ToHex tx') as [rawTx|] eqn:Hhex; [|apply wp_ret; by eapply quiet_fails].
  do 2 io_step. destruct Hq as (new & -> & Hnew & Ha).
  assert (∀ r, (∀ st, r = Ok st → sp_txHex st = rawTx ∧
      reply (new ++ t0) (SendRawTx rawTx) = Ok (sp_txId st)) →
    l_spent t0 r (event (SendRawTx rawTx) (reply (new ++ t0) (SendRawTx rawTx)) :: new ++ t0)) as Hend.
  { intros r Hr. exists (event (SendRawTx rawTx) (reply (new ++ t0) (SendRawTx rawTx)) :: new).
    split; [done|]. split.
    - intros raw b [E|Hin]%elem_of_cons; [|by destruct (Hnew raw b)].
      apply (f_equal question) in E. injection E as ->. exists tx', addr, fee.
      split; [done|]. split; [by right|done].
    - intros st Hst. destruct (Hr st Hst) as [-> ->]. by left. }
  destruct (reply _ (SendRawTx rawTx)) as [id|e] eqn:Hr; apply wp_ret; apply Hend; naive_solver.
Qed.

(** Random factors: the trace stays quiet, and a missing key is an error of the source. *)
Lemma factors_then {X} (k : Blinding * option error → IO answer S X) (Q : X → Trace answer * S → Prop)
    t0 addr t s :
  quiet_since t0 addr t →
  (∀ bl t', quiet_since t0 addr t' →
     (EphemeralKey (fst bl) = None → snd bl ≠ None ∧ ∃ e, event NewPrivateKey (Err e) ∈ t') →
     wp (k bl) Q no_key (t', s)) →
  wp (bl ← AddBlindingRandomFactors; k bl) Q no_key (t, s).
Proof.
  intros Hq Hk. unfold AddBlindingRandomFactors, generateRandom32Bytes. io_step.
  do 9 io_step. set (t1 := event RandRead (reply t RandRead) :: t).
  set (t2 := event RandRead (reply t1 RandRead) :: t1).
  assert (quiet_since t0 addr (event NewPrivateKey (reply t2 NewPrivateKey) :: t2)) as Hq'.
  { unfold t2, t1. by repeat (apply quiet_cons; [done|]). }
  apply wp_ret. revert Hq'. generalize (reply t2 NewPrivateKey). intros [key|e] Hq'.
  - apply Hk; [done|]. by intros [=].
  - apply Hk; [done|]. intros _. split; [done|]. exists e. by left.
Qed.

Lemma new_address_spent (k : string → IO answer S (result SpendingTx)) t s :
  (∀ addr t', quiet_since t addr t' → wp (k addr) (λ r '(t', _), l_spent t r t') no_key (t', s)) →
  ∀ t1, (∃ new, t1 = new ++ t ∧ ∀ rawTx a, event (SendRawTx rawTx) a ∉ new) →
  wp (try addr := query GetAddress in k addr) (λ r '(t', _), l_spent t r t') no_key (t1, s).
Proof.
  intros Hk t1 (new & -> & Hnew). do 2 io_step.
  assert (∀ a rawTx b, event (SendRawTx rawTx) b ∉ event GetAddress a :: new) as Hnew'.
  { intros a rawTx b [E|?]%elem_of_cons; [by apply (f_equal question) in E|by eapply Hnew]. }
  destruct (reply (new ++ t) GetAddress) as [addr|e] eqn:E.
  - apply Hk. exists (event GetAddress (Ok addr) :: new). split; [done|]. split; [apply Hnew'|by left].
  - apply wp_ret. exists (event GetAddress (Err e) :: new). split; [done|]. split; [|done].
    intros rawTx a Hin. by destruct (Hnew' _ _ _ Hin).
Qed.

Lemma spending_fee_then {X} kind (k : Z → IO answer S X) (Q : X → Trace answer * S → Prop) R t s :
  (∀ fee t', (∃ new, t' = new ++ t ∧ ∀ rawTx a, event (SendRawTx rawTx) a ∉ new) →
     wp (k fee) Q R (t', s)) →
  wp (fee ← spending_fee kind; k fee) Q R (t, s).
Proof.
  intros Hk. unfold spending_fee. do 4 io_step. apply Hk.
  eexists [_]. split; [done|]. intros rawTx a E%list_elem_of_singleton.
  by apply (f_equal question) in E.
Qed.

(** [prepareSpendingTransaction] and what follows it. *)
Lemma prepare_liquid csv fee bl addr t0 t s (k : LTx * string * Script → IO answer S (result SpendingTx)) :
  quiet_since t0 addr t → (EphemeralKey bl = None → ∃ e, event NewPrivateKey (Err e) ∈ t) →
  (∀ tx h sig, created csv fee addr (tx, h) → Sign (cp_Signer cp) h = Ok sig →
     wp (k (tx, sig, script)) (λ r '(t', _), l_spent t0 r t') no_key (t, s)) →
  wp (try prepared := prepareSpendingTransaction l p cp bl addr csv fee in k prepared)
     (λ r '(t', _), l_spent t0 r t') no_key (t, s).
Proof.
  intros Hq Hbl Hk. unfold prepareSpendingTransaction.
  rewrite (l_funds_script _ _ _ _ _ _ _ _ Hfunds). do 2 io_step.
  eapply wp_mono; [apply (create_spec csv addr fee bl t s no_key)| |done].
  { intros Hnone. split; [done|]. by apply Hbl. }
  intros [[tx h]|e] [t' s'] (-> & -> & Hc).
  - cbn [fst snd]. destruct (Sign (cp_Signer cp) h) as [sig|] eqn:Hsig; apply wp_ret.
    + by eapply Hk; [apply Hc|].
    + apply wp_ret. by eapply quiet_fails.
  - apply wp_ret. apply wp_ret. by eapply quiet_fails.
Qed.

Lemma preimage_sent t s :
  l_taker_key p (cp_Signer cp) →
  (∀ pre, MakePreimageFromStr (cp_Preimage cp) = (pre, None) → l_opens_hash p pre) →
  wp (CreatePreimageSpendingTransaction l p cp) (λ r '(t', _), l_spent t r t') no_key (t, s).
Proof.
  intros Hkey Hpre. unfold CreatePreimageSpendingTransaction, createPreimageSpendingTransaction.
  apply spending_fee_then. intros fee t1 Ht1. apply new_address_spent; [|done].
  intros addr t2 Ht2. apply (factors_then _ _ t addr); [done|]. intros bl t3 Ht3 Hbl.
  apply (prepare_liquid 0 fee _ addr); [done|naive_solver|].
  intros tx h sig Hc Hsig. destruct (ToHex tx); [|apply wp_ret; by eapply quiet_fails].
  destruct (MakePreimageFromStr (cp_Preimage cp)) as [pre [e|]] eqn:Hp;
    [apply wp_ret; by eapply quiet_fails|].
  apply (send_spec _ _ _ _ _ _ fee 0 h); [done..|]. econstructor; [done|done|by apply Hpre|].
  revert Hp. unfold MakePreimageFromStr, MakePreimage. case_bool_decide; [|done].
  destruct (hex.DecodeString _) as [x []]; [done|]. case_bool_decide; [|done]. by intros [= <-].
Qed.

Lemma csv_sent t s :
  l_maker_key p (cp_Signer cp) →
  wp (CreateCsvSpendingTransaction l p cp) (λ r '(t', _), l_spent t r t') no_key (t, s).
Proof.
  intros Hkey. unfold CreateCsvSpendingTransaction, createCsvSpendingTransaction.
  apply spending_fee_then. intros fee t1 Ht1. apply new_address_spent; [|done].
  intros addr t2 Ht2. apply (factors_then _ _ t addr); [done|]. intros bl t3 Ht3 Hbl.
  apply (prepare_liquid (op_CSV p) fee _ addr); [done|naive_solver|].
  intros tx h sig Hc Hsig. apply (send_spec _ _ _ _ _ _ fee (op_CSV p) h); [done..|lia|].
  by econstructor.
Qed.

Lemma coop_sent taker t s :
  l_maker_key p (cp_Signer cp) → l_taker_key p taker →
  wp (CreateCoopSpendingTransaction l p cp taker) (λ r '(t', _), l_spent t r t') no_key (t, s).
Proof.
  intros Hm Ht. unfold CreateCoopSpendingTransaction, createCoopSpendingTransaction.
  apply spending_fee_then. intros fee t1 Ht1. apply new_address_spent; [|done].
  intros addr t2 Ht2. rewrite (l_funds_script _ _ _ _ _ _ _ _ Hfunds).
  apply (factors_then _ _ t addr); [done|]. intros [bl berr] t3 Ht3 Hbl. cbn [fst snd] in *.
  destruct berr as [e|]; [apply wp_ret; by eapply quiet_fails|]. io_step.
  eapply wp_mono; [apply (create_spec 0 addr fee bl t3 s no_key)| |done]; [naive_solver|].
  intros [[tx h]|e] [t' s'] (-> & -> & Hc); [|apply wp_ret; by eapply quiet_fails].
  specialize (Hc _ eq_refl).
  destruct (Sign taker h) as [tsig|] eqn:Hts; [|apply wp_ret; by eapply quiet_fails].
  destruct (Sign (cp_Signer cp) h) as [msig|] eqn:Hms; [|apply wp_ret; by eapply quiet_fails].
  apply (send_spec _ _ _ _ _ _ fee 0 h); [done..|]. by econstructor.
Qed.
End run.
End spending.

Section wallet.
Context {CL : ChainLib} {SR : ScriptRules} {EL : ElementsLib} {SL : SignerLib}.
Context {LC : LiquidConsensus} (l : LiquidOnChain) {OR : Oracle answer} {S : Type}.

(** The call ends as [l_spent] says, or panics because the random source gave no key. *)
Definition ends_spent (p : OpeningParams) (txHex : string)
    (m : IO answer S (result SpendingTx)) : Prop :=
  ∀ t s, match m (t, s) with
         | Ret (t', _) r => ∃ new, t' = new ++ t ∧
             (∀ rawTx a, event (SendRawTx rawTx) a ∈ new → ∃ tx addr fee, ToHex tx = Ok rawTx ∧
                event GetAddress (Ok addr) ∈ new ∧ takes_liquid l p txHex fee addr tx) ∧
             (∀ st, r = Ok st → event (SendRawTx (sp_txHex st)) (Ok (sp_txId st)) ∈ new)
         | Panic (t', _) => ∃ e, event NewPrivateKey (Err e) ∈ t'
         | NoFuel _ => False
         end.

Lemma ends_spent_wp p cp m :
  (∀ t s, wp m (λ r '(t', _), l_spent l p cp t r t') no_key (t, s)) →
  ends_spent p (cp_OpeningTxHex cp) m.
Proof.
  intros Hm t s. specialize (Hm t s). unfold wp in Hm.
  destruct (m (t, s)) as [[t' s'] r|[t' s']|[t' s']]; [exact Hm|by destruct Hm as [_ ?]|].
  by destruct Hm.
Qed.

(** C13. An opening transaction on Liquid that was validated can be spent by whoever is
    entitled to it: the taker with its key and the preimage, the maker after the
    CSV, and both together.  Each call ends; every transaction it sends spends the
    validated output under the rules of the script, commits to the amount less the
    fee in the asset of the output for an address of the wallet, and shows the fee
    in the policy asset; without an error one was taken by the node.  The calls
    panic only when the random source gives no key. *)
Theorem liquid_opening_is_spendable (p : OpeningParams) (cp : ClaimParams) (taker : string) :
  ValidateTx l p (cp_OpeningTxHex cp) = Some (Ok true) → 0 < op_CSV p < 2 ^ 16 →
  (l_taker_key p (cp_Signer cp) →
   (∀ pre, MakePreimageFromStr (cp_Preimage cp) = (pre, None) → l_opens_hash p pre) →
   ends_spent p (cp_OpeningTxHex cp) (CreatePreimageSpendingTransaction l p cp)) ∧
  (l_maker_key p (cp_Signer cp) →
   ends_spent p (cp_OpeningTxHex cp) (CreateCsvSpendingTransaction l p cp)) ∧
  (l_maker_key p (cp_Signer cp) → l_taker_key p taker →
   ends_spent p (cp_OpeningTxHex cp) (CreateCoopSpendingTransaction l p cp taker)).
Proof.
  intros (tx & n & out & script & ub & Hf)%liquid_ValidateTx_true Hcsv. split_and!.
  - intros Hk Hpre. apply ends_spent_wp. intros t s. by eapply preimage_sent.
  - intros Hk. apply ends_spent_wp. intros t s. by eapply csv_sent.
  - intros Hm Ht. apply ends_spent_wp. intros t s. by eapply coop_sent.
Qed.
End wallet.
