(* ===== verification/OnChainWitnesses.v ===== *)
(** * Concrete on-chain libraries and wallets, for the examples

    Signatures are the key itself, hashes are cut to 32 bytes; one opening
    transaction is known, with the opening output in second place. *)

From S2P Require Import Prelude GoLib SwapData Env Oracle Fees FeeProofs OpeningScript BitcoinOnChain BitcoinWallets BitcoinProofs.

Fixpoint pad32 (n : nat) (s : string) : string :=
  match n, s with
  | O, _ => ""
  | S n, "" => String "0" (pad32 n "")
  | S n, String c s => String c (pad32 n s)
  end.
Lemma pad32_length n s : String.length (pad32 n s) = n.
Proof. revert s. induction n as [|n IH]; intros [|c s]; cbn; auto. Qed.

#[local] Instance demo_chain_lib : ChainLib := {|
  Hash := string; Hash_eq_dec := _; NewHashFromStr := Ok; Hash_String := λ s, s;
  ParsePkScript := Ok; sha256_Sum256 := pad32 32 |}.
#[local] Existing Instance OpeningScript.demo_rules.

Definition op_bytes (op : ScriptOp) : string :=
  match op with
  | AddData d => d
  | AddInt64 n => strconv.Itoa n
  | OP_CHECKSIG => "C" | OP_NOTIF => "N" | OP_SIZE => "S" | OP_EQUALVERIFY => "E"
  | OP_SHA256 => "H" | OP_ENDIF => "I" | OP_ELSE => "L" | OP_CHECKSEQUENCEVERIFY => "V"
  end.
Definition demo_script_bytes (s : Script) : string := foldr (λ op, String.append (op_bytes op)) "" s.

Definition demo_params : OpeningParams :=
  mkOpeningParams (hex.EncodeToString "T") (hex.EncodeToString "M")
    (hex.EncodeToString demo_preimage) 100000 1008 None.
Definition demo_opening_script : Script :=
  match ParamsToTxScript demo_params BitcoinCsv with Ok s => s | Err _ => [] end.
Definition demo_opening_of (script : Script) : MsgTx :=
  mkMsgTx [] [mkTxOut 5000 "change";
    mkTxOut 100000 (demo_script_bytes [AddData zero_byte; AddData (pad32 32 (demo_script_bytes script))])].

Definition demo_btc_of (opening_script : Script) : BtcLib.
Proof.
  refine {| script_bytes := demo_script_bytes;
            Deserialize := λ b, if bool_decide (b = "opening") then Ok (demo_opening_of opening_script)
                                else Err (ErrText "unknown");
            Serialize := λ tx, Ok "raw"; TxHash := λ tx, "hash"; SerializeSizeStripped := λ _, 100;
            Address := string; NewAddressWitnessScriptHash := Ok; DecodeAddress := Ok;
            ScriptAddress := λ a, a; EncodeAddress := λ a, a;
            CalcWitnessSigHash := λ _ _ _ _, Ok "sighash"; Psbt := string;
            psbt_NewFromRawBytes := λ s _, Ok s; psbt_Serialize := Ok;
            SumUtxoInputValues := λ _, Ok 0 |}.
  - intros p _. by exists p.
  - intros s. apply pad32_length.
  - intros bytes tx'. case_bool_decide; [|done]. intros [= <-]. done.
Defined.
#[local] Instance demo_btc : BtcLib := demo_btc_of demo_opening_script.

(** A signature is the public key, here the private one followed by [suffix]. *)
Definition demo_signer_of (suffix : string) : SignerLib := λ key h, Ok (key +:+ suffix).
#[local] Instance demo_signer : SignerLib := demo_signer_of "".

Definition demo_consensus_of {BL : BtcLib} (suffix : string) :
  Consensus (BL := BL) (SL := demo_signer_of suffix).
Proof.
  refine {| pubkey_of := λ key, key +:+ suffix;
            input_checks := λ tx _ _, mkSpending (λ pk sig, Some (bool_decide (sig = pk +:+ SigHashAll)))
              (λ n, match TxIn tx with i :: _ => n <=? Sequence i | [] => false end) |}.
  - intros key tx script amount h sig w tx' _ [= <-] _. cbn. by rewrite bool_decide_true.
  - intros tx script amount pk. cbn. rewrite bool_decide_false; [done|]. by destruct pk.
  - intros tx i ins script amount n E _ _. cbn. by rewrite E.
Defined.
#[local] Instance demo_consensus : Consensus := demo_consensus_of "".

#[local] Instance demo_fee_lib : FeeLib := {| BTC := Z; NewAmount := Ok |}.
#[local] Instance demo_lnd : Oracle LndWallet.answer := λ _ q,
  match q with
  | LndWallet.FeeCall FeeRpc.Ping => (true, None)
  | LndWallet.FeeCall FeeRpc.GetMempoolInfo | LndWallet.FeeCall (FeeRpc.EstimateFee _ _) => Ok 4000
  | LndWallet.FeeCall (FeeRpc.WalletEstimateFee _) => Ok (Some 1000)
  | LndWallet.FeeCall FeeRpc.TimeNow => 0
  | LndWallet.NewAddressRpc => Ok "wallet"
  | LndWallet.FundPsbt _ _ => Ok "psbt"
  | LndWallet.FinalizePsbt _ => Ok ("psbt", "opening")
  | LndWallet.PublishTransaction _ | LndWallet.LabelTransaction _ _ => None
  | LndWallet.WalletBalance => Ok 0
  end.
#[local] Instance demo_cln : Oracle ClnWallet.answer := λ _ q,
  match q with
  | ClnWallet.FeeCall FeeRpc.Ping => (true, None)
  | ClnWallet.FeeCall FeeRpc.GetMempoolInfo | ClnWallet.FeeCall (FeeRpc.EstimateFee _ _) => Ok 4000
  | ClnWallet.FeeCall (FeeRpc.WalletEstimateFee _) => Ok (Some 1000)
  | ClnWallet.FeeCall FeeRpc.TimeNow => 0
  | ClnWallet.NewAddr | ClnWallet.SetPSBTVersion _ _ | ClnWallet.SendRawTx _ => Ok "wallet"
  | ClnWallet.PrepareTx _ => Ok (ClnWallet.mkPrepared "psbt" "opening" "id")
  | ClnWallet.SendTx _ => Ok ("signed", "id")
  | ClnWallet.ListFunds => Ok []
  end.

Definition demo_rates : BitcoinOnChain := mkBitcoinOnChain 12500 253.
Definition demo_claim (key : string) : ClaimParams :=
  mkClaimParams (hex.EncodeToString demo_preimage) key (hex.EncodeToString "opening").

Example demo_claim_runs :
  match LndWallet.CreatePreimageSpendingTransaction (S := LndEstimator) demo_rates demo_params
          (demo_claim "T") ([], mkLndEstimator 12500) with
  | Ret (e :: _, _) (Ok st) => question e = LndWallet.PublishTransaction "raw" ∧ sp_address st = "wallet"
  | _ => False
  end.
Proof. by vm_compute. Qed.

Example validated_opening_is_claimable_witness :
  ValidateTx demo_params (hex.EncodeToString "opening") = Ok true ∧
  ∃ t' s' r,
    LndWallet.CreatePreimageSpendingTransaction (S := LndEstimator) demo_rates demo_params
      (demo_claim "T") ([], mkLndEstimator 12500) = Ret (t', s') r ∧ True ∧
    spent demo_params (hex.EncodeToString "opening") [] r t'.
Proof.
  assert (ValidateTx demo_params (hex.EncodeToString "opening") = Ok true) as Hv by by vm_compute.
  split; [exact Hv|].
  apply (validated_opening_is_claimable Lnd_EstimateFeePerKW Lnd_EstimateFeePerKW (λ _, True) (λ _, True)
           demo_rates demo_params (demo_claim "T") Hv); [by vm_compute| |done].
  intros pre Hpre. by vm_compute in Hpre; injection Hpre as <-.
Defined.

Example opening_is_refundable_witness :
  ValidateTx demo_params (hex.EncodeToString "opening") = Ok true ∧
  ∃ t' s' r,
    ClnWallet.CreateCsvSpendingTransaction (S := LndEstimator) demo_rates demo_params
      (demo_claim "M") ([], mkLndEstimator 12500) = Ret (t', s') r ∧ True ∧
    spent demo_params (hex.EncodeToString "opening") [] r t'.
Proof.
  assert (ValidateTx demo_params (hex.EncodeToString "opening") = Ok true) as Hv by by vm_compute.
  split; [exact Hv|].
  apply (opening_is_refundable Lnd_EstimateFeePerKW Lnd_EstimateFeePerKW (λ _, True) (λ _, True)
           demo_rates demo_params (demo_claim "M") "T" Hv); by vm_compute.
Defined.

(** ** Liquid

    Blinding is the identity: an output shows its asset, its value in decimal and its
    script.  The opening output is in second place. *)
From S2P Require Import LiquidOnChain LiquidProofs.
Import LiquidRpc.


Definition demo_asset : string := pad32 32 "lbtc".
Definition demo_liquid : LiquidOnChain := mkLiquidOnChain (String "001" demo_asset).
Definition demo_liquid_params : OpeningParams :=
  mkOpeningParams (hex.EncodeToString "T") (hex.EncodeToString "M")
    (hex.EncodeToString demo_preimage) 100000 10080 (Some "blinding").
Definition demo_liquid_script : Script :=
  match ParamsToTxScript demo_liquid_params (op_CSV demo_liquid_params) with
  | Ok s => s
  | Err _ => []
  end.
Definition demo_liquid_output : LTxOutput :=
  mkLTxOut (asset demo_liquid) "100000"
    (String "000" (String " " (pad32 32 (demo_script_bytes demo_liquid_script)))) "" "" "".
Definition demo_liquid_opening : LTx :=
  mkLTx [] [mkLTxOut (asset demo_liquid) "7000" "change" "" "" ""; demo_liquid_output].

#[local] Instance demo_elements : ElementsLib.
Proof.
  refine {| l_script_bytes := demo_script_bytes;
            NewTxFromHex := λ b, if bool_decide (b = "opening") then Ok demo_liquid_opening
                                 else Err (ErrText "unknown");
            ToHex := λ tx, Ok "raw"; LTxHash := λ tx, "hash";
            Payment := string; FromScript := λ s _, Ok s; WitnessScriptHash := Ok;
            ConfidentialWitnessScriptHash := Ok; ToOutputScript := Ok; FromConfidential := Ok;
            el_PubKey := λ k, k; IsConfidential := λ out, bool_decide (l_RangeProof out ≠ "");
            UnblindOutputWithKey := λ out key, Ok (mkUnblinded 100000 demo_asset "vbf" "abf");
            AssetCommitment := λ a abf, Ok a; ValueCommitment := λ v a vbf, Ok (strconv.Itoa v);
            FinalValueBlindingFactor := λ _ _ _ _ _ _, Ok "vbf";
            SurjectionProof := λ _ _ _ _ _, Some "proof"; NonceHash := λ a b, Ok "nonce";
            RangeProof := λ _ _ _ _ _ _ _, Ok "range"; ValueToBytes := λ v, Ok (strconv.Itoa v);
            HashForWitnessV0 := λ _ _ _, "sighash" |}.
  - intros h _. by exists (String "000" (String " " h)), (String "000" (String " " h)).
  - intros s. apply pad32_length.
  - intros h tx. case_bool_decide; [|done]. by intros [= <-].
Defined.

Definition demo_liquid_consensus_of (suffix : string) :
  LiquidConsensus (SL := demo_signer_of suffix).
Proof.
  refine {| l_pubkey_of := λ key, key +:+ suffix;
            l_input_checks := λ tx _ _, mkSpending (λ pk sig, Some (bool_decide (sig = pk +:+ SigHashAll)))
              (λ n, match l_Inputs tx with i :: _ => n <=? l_Sequence i | [] => false end) |}.
  - intros key tx script value sig w tx' [= <-] _. cbn. by rewrite bool_decide_true.
  - intros tx script value pk. cbn. rewrite bool_decide_false; [done|]. by destruct pk.
  - intros tx i ins script value n E _ _. cbn. by rewrite E.
Defined.
#[local] Instance demo_liquid_consensus : LiquidConsensus := demo_liquid_consensus_of "".

#[local] Instance demo_liquid_wallet : Oracle answer := λ _ q,
  match q with
  | GetAddress => Ok "wallet"
  | SendRawTx _ => Ok "txid"
  | RandRead | NewPrivateKey => Ok "random"
  | GetBalance | GetFee _ => Ok 40
  | CreateAndBroadcastTransaction _ _ _ => Ok ("txid", "opening", 40)
  | SetLabel _ _ _ => None
  end.

Definition demo_liquid_claim (key : string) : ClaimParams :=
  mkClaimParams (hex.EncodeToString demo_preimage) key "opening".

Example demo_liquid_claim_runs :
  match CreateCsvSpendingTransaction (S := unit) demo_liquid demo_liquid_params
          (demo_liquid_claim "M") ([], ()) with
  | Ret (e :: _, _) (Ok st) => question e = SendRawTx "raw" ∧ sp_address st = "wallet"
  | _ => False
  end.
Proof. by vm_compute. Qed.

Example liquid_opening_is_spendable_witness :
  ValidateTx demo_liquid demo_liquid_params "opening" = Some (Ok true) ∧
  ends_spent (S := unit) demo_liquid demo_liquid_params "opening"
    (CreatePreimageSpendingTransaction demo_liquid demo_liquid_params (demo_liquid_claim "T")) ∧
  ends_spent (S := unit) demo_liquid demo_liquid_params "opening"
    (CreateCoopSpendingTransaction demo_liquid demo_liquid_params (demo_liquid_claim "M") "T").
Proof.
  assert (ValidateTx demo_liquid demo_liquid_params "opening" = Some (Ok true)) as Hv
    by by vm_compute.
  assert (0 < op_CSV demo_liquid_params < 2 ^ 16) as Hcsv by by vm_compute.
  split; [exact Hv|]. split.
  - destruct (liquid_opening_is_spendable (S := unit) demo_liquid demo_liquid_params
                (demo_liquid_claim "T") "T" Hv Hcsv) as [Hclaim _].
    apply Hclaim; [by vm_compute|]. intros pre Hpre. by vm_compute in Hpre; injection Hpre as <-.
  - destruct (liquid_opening_is_spendable (S := unit) demo_liquid demo_liquid_params
                (demo_liquid_claim "M") "T" Hv Hcsv) as (_ & _ & Hcoop).
    apply Hcoop; by vm_compute.
Defined.
