(* ===== verification/Lightning.v ===== *)
(** * Lightning clients: what they share (src/lightning/lightning.go)

    Short channel ids in the styles of the two nodes, and the interface
    [LightningPayer]: what a swap relies on when it asks a client to pay a claim
    invoice over its own channel.  LndClient and ClnClient implement it. *)

From S2P Require Import Prelude GoLib Env Oracle.

(** [lightning.Scid]. *)
Definition ClnStyle (s : string) : string := strings.ReplaceAll s ":" "x".
Definition LndStyle (s : string) : string := strings.ReplaceAll s "x" ":".

(** Conversion to int32. *)
Definition i32 (z : Z) : Z := (z + 2 ^ 31) mod 2 ^ 32 - 2 ^ 31.
Lemma i32_small z : - 2 ^ 31 ≤ z < 2 ^ 31 → i32 z = z.
Proof. intros. unfold i32. rewrite Z.mod_small; lia. Qed.

(** An HTLC a node is asked to offer: the invoice it pays, the payment hash it is
    locked to, the amount, the channel it goes over, in the style of core lightning,
    its total CLTV delta and the highest fee. *)
Record Offer := mkOffer {
  of_payreq : string;
  of_hash : string;
  of_amount : Z;
  of_channel : string;
  of_delay : Z;
  of_fee : Z;
}.
(** A payment over one channel, or over whatever route the node finds. *)
Inductive Offered :=
  | over_channel (o : Offer)
  | any_route (payreq : string).

(** Calls to a node are requests; [offer inv e] is the HTLC the node offers for the
    event [e], if it is a payment, for an invoice the node reads as [inv]. *)
Class LightningPayer {Q} (A : Q → Type) (S : Type) := {
  payInvoiceViaChannel : string → string → Z → IO A S (result string);
  RecoverClaimPayment : string → IO A S (result string);
  (** in the event the node reads the invoice so *)
  decoded : string → DecodedPayreq → Event A → Prop;
  offer : DecodedPayreq → Event A → option Offered;
  (** in the event the node reports a settled payment of the invoice, with the preimage *)
  reported : string → DecodedPayreq → string → Event A → Prop;
  (** what the client adds to the final CLTV *)
  padding : Z;
}.
Arguments payInvoiceViaChannel {Q A S LP} _ _ _ : rename.
Arguments RecoverClaimPayment {Q A S LP} _ : rename.
Arguments decoded {Q A S LP} _ _ _ : rename.
Arguments offer {Q A S LP} _ _ : rename.
Arguments reported {Q A S LP} _ _ _ _ : rename.
Arguments padding {Q A S LP} : rename.

Section promise.
Context {Q} {A : Q → Type} {S : Type} {LP : LightningPayer A S}.

(** The direct payment of an invoice over a channel within a limit, where 0 is no
    limit. *)
Definition direct (payreq scid : string) (limit : Z) (inv : DecodedPayreq) (o : Offer) : Prop :=
  of_payreq o = payreq ∧ of_hash o = dp_paymentHash inv ∧ of_amount o = dp_amountMsat inv ∧
  of_channel o = ClnStyle scid ∧ of_fee o = 0 ∧
  (0 ≤ dp_finalCLTVDelta inv < 2 ^ 30 →
   of_delay o = dp_finalCLTVDelta inv + padding (LP := LP) ∧ (limit ≠ 0 → of_delay o ≤ limit)).

Definition none_offered (new : Trace A) : Prop :=
  ∀ inv e, e ∈ new → offer (LP := LP) inv e = None.

(** What the events of a payment with the result [r] are allowed to be. *)
Definition pays_direct (payreq scid : string) (limit : Z) (r : result string)
    (new : Trace A) : Prop :=
  (∃ before e after inv ed o, new = after ++ e :: before ∧ none_offered (after ++ before) ∧
     ed ∈ before ∧ decoded (LP := LP) payreq inv ed ∧
     offer (LP := LP) inv e = Some (over_channel o) ∧ direct payreq scid limit inv o ∧
     ∀ preimage, r = Ok preimage →
       ∃ e', e' ∈ after ++ [e] ∧ reported (LP := LP) payreq inv preimage e') ∨
  none_offered new ∧ is_ok r = false.

Class PayerLaws := {
  (** A payment offers one HTLC, directly over the channel, or none and fails; its
      preimage is one the node reported for it. *)
  pay_direct : ∀ payreq scid limit t s, is_u32 limit →
    wp (payInvoiceViaChannel (LP := LP) payreq scid limit)
       (λ r '(t', s'), s' = s ∧ ∃ new, t' = new ++ t ∧ pays_direct payreq scid limit r new)
       no_stop (t, s);
  (** Waiting for a payment that was made earlier offers none. *)
  recover_offers_none : ∀ payreq t s,
    wp (RecoverClaimPayment (LP := LP) payreq)
       (λ r '(t', s'), s' = s ∧ ∃ new, t' = new ++ t ∧ none_offered new ∧
          ∀ preimage, r = Ok preimage → ∃ inv ed e, ed ∈ new ∧ decoded (LP := LP) payreq inv ed ∧
            e ∈ new ∧ reported (LP := LP) payreq inv preimage e)
       no_stop (t, s);
  padding_small : 0 ≤ padding (LP := LP) < 2 ^ 16;
}.
End promise.
Arguments PayerLaws {Q A S} LP.
