(* ===== verification/ClnClient.v ===== *)
(** * The client of core lightning (src/clightning/clightning.go)

    The calls of glightning are questions of the client, and so are the handlers
    that other components have registered with it, numbered in the order of their
    registration; the state is the client's own fields. *)

From S2P Require Import Prelude GoLib Messages SwapData Timelock Env Oracle Lightning.

(** ** What the node answers *)
Record DecodedBolt11 := mkBolt11 {
  Payee : string;
  b11_PaymentHash : string;
  PaymentSecret : string;
  b11_AmountMsat : Z;
  MinFinalCltvExpiry : Z;
}.
Record RouteHop := mkHop {
  hop_Id : string;
  hop_ShortChannelId : string;
  hop_AmountMsat : Z;
  hop_Delay : Z;
  hop_Direction : Z;
}.
Record SendPayFields := mkSendPay { sp_Status : string; sp_PaymentPreimage : string }.
(** An error of [waitsendpay]: a [PaymentError] has the code of the rpc error. *)
Record PayError := mkPayError { pe_error : error; pe_Code : option Z }.

Record PeerChannel := mkPeerChannel {
  PeerId : string;
  PeerConnected : bool;
  pc_State : string;
  pc_ShortChannelId : string;
  TotalMsat : Z;
  ToUsMsat : Z;
  ReceivableMsat_ : Z;
  SpendableMsat_ : Z;
  TheirReserveMsat : Z;
  OurReserveMsat : Z;
}.
Definition zero_channel : PeerChannel := mkPeerChannel "" false "" "" 0 0 0 0 0 0.

Module ClnRpc.
Inductive Call :=
  | DecodeBolt11 (payreq : string)
  | SendPay (route : list RouteHop) (paymentHash label : string) (amountMsat : Z)
      (bolt11 paymentSecret : string) (partId : Z)
  | WaitSendPay (paymentHash : string) (timeout : Z)
  | ListSendPaysByHash (paymentHash : string)
  | Pay (payreq : string)
  | CreateInvoice (amountMsat : Z) (label memo : string) (expirySeconds : Z) (preimage : string)
      (expiryCltv : Z)
  | WaitInvoice (label : string)
  | GetChannel (scid : string)
  | ListPeerChannels
  | GetPeer (id : string)
  | ListPeers
  | SendCustomMessage (peerId message : string)
  | RandBytes (n : nat)
  (** the handlers of the other components *)
  | MsgHandler (i : nat) (peerId msgType payload : string)
  | PaymentHandler (i : nat) (swapId : string) (invoiceType : InvoiceType).

Definition answer (c : Call) : Type :=
  match c with
  | DecodeBolt11 _ => result DecodedBolt11
  | SendPay _ _ _ _ _ _ _ | Pay _ => result SendPayFields
  | WaitSendPay _ _ => SendPayFields + PayError
  | ListSendPaysByHash _ => result (list SendPayFields)
  | CreateInvoice _ _ _ _ _ _ => result string
  (** the status *)
  | WaitInvoice _ => result string
  (** source and htlc maximum of each direction *)
  | GetChannel _ => result (list (string * Z))
  | ListPeerChannels => result (list PeerChannel)
  | GetPeer _ => result bool
  | ListPeers => result (list (string * bool))
  (** code and message *)
  | SendCustomMessage _ _ => result (Z * string)
  | RandBytes _ => result string
  | MsgHandler _ _ _ _ => option error
  | PaymentHandler _ _ _ => unit
  end.
End ClnRpc.
Import ClnRpc.

Record ClightningClient := mkCln {
  nodeId : string;
  msgHandlers : nat;
  paymenthandlers : nat;
}.
#[export] Instance eta_cln : Eta ClightningClient := λ c,
  mkCln (nodeId c) (msgHandlers c) (paymenthandlers c).

Section cln.
Context {CL : ChainLib} {OR : Oracle answer}.
Abbreviation Io := (IO answer ClightningClient).

Definition AddPaymentCallback : Io () :=
  update (λ c, c <| paymenthandlers := S (paymenthandlers c) |>).
Definition AddMessageHandler : Io () :=
  update (λ c, c <| msgHandlers := S (msgHandlers c) |>).

(** ** Invoices *)
Definition getLabel (swapId : string) (invoiceType : InvoiceType) : string :=
  swapId +:+ "_" +:+ InvoiceType_String invoiceType.

Fixpoint payment_handlers (n i : nat) (swapId : string) (invoiceType : InvoiceType) : Io () :=
  match n with
  | O => mret ()
  | S n => query (PaymentHandler i swapId invoiceType);; payment_handlers n (S i) swapId invoiceType
  end.

(** The goroutine of [AddPaymentNotifier]; the handlers are goroutines too. *)
Definition AddPaymentNotifier (swapId payreq : string) (invoiceType : InvoiceType) : Io () :=
  let? status := query (WaitInvoice (getLabel swapId invoiceType)) else e => mret () in
  if bool_decide (status = "paid") then
    c ← look;
    payment_handlers (paymenthandlers c) 0 swapId invoiceType
  else mret ().

Definition GetPayreq (amountMsat : Z) (preImage swapId memo : string) (invoiceType : InvoiceType)
    (expirySeconds expiryCltv : Z) : Io (result string) :=
  query (CreateInvoice amountMsat (getLabel swapId invoiceType) memo (u32 expirySeconds) preImage
           (u32 expiryCltv)).

Definition DecodePayreq (payreq : string) : Io (result DecodedPayreq) :=
  let? res := query (DecodeBolt11 payreq) else e => mret (Err e) in
  mret (Ok (mkDecoded (b11_PaymentHash res) (b11_AmountMsat res) (MinFinalCltvExpiry res))).

(** ** Payments *)
Definition PayInvoice (payreq : string) : Io (result string) :=
  let? res := query (Pay payreq) else e => mret (Err e) in
  mret (Ok (sp_PaymentPreimage res)).

(** A limit of 0 is none; [MinFinalCltvExpiry] is an int. *)
Definition buildDirectClaimRoute (bolt11 : DecodedBolt11) (scid : string) (maxTotalCLTVDelta : Z)
    : result (list RouteHop) :=
  let delay := u32 (i64 (MinFinalCltvExpiry bolt11 + 1)) in
  let hop := mkHop (Payee bolt11) (ClnStyle scid) (b11_AmountMsat bolt11) delay 0 in
  if negb (maxTotalCLTVDelta =? 0) then
    if (MinFinalCltvExpiry bolt11 <? 0) || (2 ^ 32 - 1 <=? u64 (MinFinalCltvExpiry bolt11)) then
      Err (ErrText ("invalid invoice CLTV delta: " +:+ strconv.Itoa (MinFinalCltvExpiry bolt11)))
    else
      match ValidateTotalCLTVDelta delay maxTotalCLTVDelta with
      | Some e => Err e
      | None => Ok [hop]
      end
  else Ok [hop].

(** [randomString]: its error is dropped, which leaves zero bytes. *)
Definition randomString : Io string :=
  r ← query (RandBytes 32);
  mret (hex.EncodeToString (match r with Ok b => b | Err _ => Nat.iter 32 (String "000") "" end)).

Definition cln_payInvoiceViaChannel (payreq scid : string) (maxTotalCLTVDelta : Z)
    : Io (result string) :=
  let? bolt11 := query (DecodeBolt11 payreq) else e => mret (Err e) in
  label ← randomString;
  match buildDirectClaimRoute bolt11 scid maxTotalCLTVDelta with
  | Err e => mret (Err e)
  | Ok route =>
      let? sent := query (SendPay route (b11_PaymentHash bolt11) label (b11_AmountMsat bolt11) payreq
                            (PaymentSecret bolt11) 0) else e => mret (Err e) in
      res ← query (WaitSendPay (b11_PaymentHash bolt11) 0);
      mret match res with
           | inl res => Ok (sp_PaymentPreimage res)
           | inr e => Err (pe_error e)
           end
  end.

Definition PayInvoiceViaChannel (payreq scid : string) : Io (result string) :=
  cln_payInvoiceViaChannel payreq scid 0.
Definition RebalancePayment (payreq channel : string) (maxTotalCLTVDelta : Z) : Io (result string) :=
  cln_payInvoiceViaChannel payreq channel maxTotalCLTVDelta.

(** The first completed payment with a preimage, else the outcome of a pending one. *)
Definition completed (payments : list SendPayFields) : option SendPayFields :=
  list_find (λ p, sp_Status p = "complete" ∧ sp_PaymentPreimage p ≠ "") payments ≫= λ '(_, p), Some p.
Definition cln_RecoverClaimPayment (payreq : string) : Io (result string) :=
  let? bolt11 := query (DecodeBolt11 payreq) else e => mret (Err e) in
  let? payments := query (ListSendPaysByHash (b11_PaymentHash bolt11)) else e => mret (Err e) in
  match payments with
  | [] => mret (Err (ErrText "claim payment was not found"))
  | _ =>
      match completed payments with
      | Some payment => mret (Ok (sp_PaymentPreimage payment))
      | None =>
          if existsb (λ p, bool_decide (sp_Status p = "pending")) payments then
            res ← query (WaitSendPay (b11_PaymentHash bolt11) 0);
            mret match res with
                 | inl res => Ok (sp_PaymentPreimage res)
                 | inr e => Err (pe_error e)
                 end
          else mret (Err (ErrText "claim payment already failed"))
      end
  end.

(** The HTLC of a request of core lightning: that of the first hop, or of any route. *)
Definition cln_offer (inv : DecodedPayreq) (e : Event answer) : option Offered :=
  match question e with
  | SendPay [hop] paymentHash _ amountMsat bolt11 _ _ =>
      Some (over_channel (mkOffer bolt11 paymentHash amountMsat (hop_ShortChannelId hop)
                            (hop_Delay hop) (hop_AmountMsat hop - amountMsat)))
  | SendPay _ _ _ _ bolt11 _ _ | Pay bolt11 => Some (any_route bolt11)
  | _ => None
  end.
(** The node reports a payment of the hash: it was awaited, or it is listed as complete. *)
Definition cln_reported (inv : DecodedPayreq) (preimage : string) (e : Event answer) : Prop :=
  (∃ timeout res, e = event (WaitSendPay (dp_paymentHash inv) timeout) (inl res) ∧
     sp_PaymentPreimage res = preimage) ∨
  (∃ payments p, e = event (ListSendPaysByHash (dp_paymentHash inv)) (Ok payments) ∧
     p ∈ payments ∧ sp_Status p = "complete" ∧ sp_PaymentPreimage p = preimage).
#[export] Instance cln_payer : LightningPayer answer ClightningClient := {|
  payInvoiceViaChannel := cln_payInvoiceViaChannel;
  RecoverClaimPayment := cln_RecoverClaimPayment;
  decoded := λ payreq inv e, ∃ b, e = event (DecodeBolt11 payreq) (Ok b) ∧
    inv = mkDecoded (b11_PaymentHash b) (b11_AmountMsat b) (MinFinalCltvExpiry b);
  offer := cln_offer;
  reported := λ _, cln_reported;
  padding := 1 |}.

(** ** Channels

    Amounts are uint64; without a spendable amount of the node the difference may wrap. *)
Definition GetSpendableMsat (ch : PeerChannel) : Z :=
  if 0 <? SpendableMsat_ ch then SpendableMsat_ ch else u64 (ToUsMsat ch - OurReserveMsat ch).
Definition GetReceivableMsat (ch : PeerChannel) : Z :=
  if 0 <? ReceivableMsat_ ch then ReceivableMsat_ ch
  else u64 (u64 (TotalMsat ch - ToUsMsat ch) - TheirReserveMsat ch).

(** The maximum of the last matching direction; an error of the node is none. *)
Definition getMaxHtlcAmtMsat (scid node : string) : Io (result Z) :=
  let? chgs := query (GetChannel scid) else e => mret (Ok 0) in
  mret (Ok (foldl (λ acc '(source, htlcMax), if bool_decide (source = node) then htlcMax else acc)
              0 chgs)).

Definition checkChannel (ch : PeerChannel) : option error :=
  if negb (PeerConnected ch) then Some (ErrText "channel peer is not connected")
  else if bool_decide (pc_State ch ≠ "CHANNELD_NORMAL") then
    Some (ErrText ("channel not in normal operation mode: " +:+ pc_State ch))
  else None.

Definition no_channel (scid : string) : error :=
  ErrText ("could not find a channel with scid: " +:+ scid).

(** The loop of [SpendableMsat] and [ReceivableMsat]: the first channel with the id. *)
Definition channel_msat (scid : string) (node : PeerChannel → Io string) (msat : PeerChannel → Z)
    : Io (result Z) :=
  let scid := ClnStyle scid in
  let? channels := query ListPeerChannels else e => mret (Err e) in
  match list_find (λ ch, pc_ShortChannelId ch = scid) channels with
  | None => mret (Err (no_channel scid))
  | Some (_, ch) =>
      match checkChannel ch with
      | Some e => mret (Err e)
      | None =>
          n ← node ch;
          let? maxHtlcAmtMsat := getMaxHtlcAmtMsat scid n else e => mret (Err e) in
          mret (Ok (if maxHtlcAmtMsat =? 0 then msat ch else maxHtlcAmtMsat `min` msat ch))
      end
  end.
Definition SpendableMsat (scid : string) : Io (result Z) :=
  channel_msat scid (λ _, c ← look; mret (nodeId c)) GetSpendableMsat.
Definition ReceivableMsat (scid : string) : Io (result Z) :=
  channel_msat scid (λ ch, mret (PeerId ch)) GetReceivableMsat.

(** ** Probing

    The last channel with the id is taken; without one it is the zero channel. *)
Fixpoint probe_channel (scid : string) (channels : list PeerChannel) (channel : PeerChannel)
    : result PeerChannel :=
  match channels with
  | [] => Ok channel
  | ch :: channels =>
      if bool_decide (pc_ShortChannelId ch = ClnStyle scid) then
        match checkChannel ch with
        | Some e => Err e
        | None => probe_channel scid channels ch
        end
      else probe_channel scid channels channel
  end.

Definition failCodeWireIncorrectOrUnknownPaymentDetails : Z := 203.

Definition ProbePayment (scid : string) (amountMsat : Z) : Io (result (bool * string)) :=
  let? channels := query ListPeerChannels
    else e => mret (Err (ErrWrap ("ListPeerChannelsRequest() " +:+ Error e) e)) in
  match probe_channel scid channels zero_channel with
  | Err e => mret (Err e)
  | Ok channel =>
      let? preimage := query (RandBytes 32)
        else e => mret (Err (ErrWrap ("GetPreimage() " +:+ Error e) e)) in
      let paymentHash := hex.EncodeToString (sha256_Sum256 preimage) in
      let? sent := query (SendPay
          [mkHop (PeerId channel) (pc_ShortChannelId channel) amountMsat 9 0]
          paymentHash "" amountMsat "" "" 0)
        else e => mret (Err (ErrWrap ("SendPay() " +:+ Error e) e)) in
      res ← query (WaitSendPay paymentHash 0);
      mret match res with
           | inl _ => Ok (true, "")
           | inr e =>
               match pe_Code e with
               | None => Err (ErrWrap ("WaitSendPay() " +:+ Error (pe_error e)) (pe_error e))
               | Some code =>
                   if code =? failCodeWireIncorrectOrUnknownPaymentDetails then Ok (true, "")
                   else Ok (false, Error (pe_error e))
               end
           end
  end.

(** ** Messages and peers *)
Definition SendMessage (peerId message : string) (messageType : Z) : Io (option error) :=
  let msg := MessageTypeToHexString messageType +:+ hex.EncodeToString message in
  if bool_decide (peerId = "") then
    mret (Some (ErrText "failed to send custom message: peerId is empty"))
  else
    let? res := query (SendCustomMessage peerId msg)
      else e => mret (Some (ErrText ("failed to send custom message: " +:+ Error e))) in
    mret (if negb (fst res =? 0) then Some (ErrText (snd res)) else None).

Fixpoint msg_handlers (n i : nat) (peerId msgType payload : string) : Io () :=
  match n with
  | O => mret ()
  | S n => query (MsgHandler i peerId msgType payload);; msg_handlers n (S i) peerId msgType payload
  end.

(** The hook; its answer is always to continue.  Slicing a short payload panics. *)
Definition OnCustomMsg (peerId payload : string) : Io () :=
  if (String.length payload <? 4)%nat then panic
  else
    let typeString := String.substring 0 4 payload in
    match hex.DecodeString (String.substring 4 (String.length payload - 4) payload) with
    | (_, Some _) => mret ()
    | (payloadDecoded, None) =>
        c ← look;
        msg_handlers (msgHandlers c) 0 peerId typeString payloadDecoded
    end.

Definition isPeerConnected (node : string) : Io bool :=
  r ← query (GetPeer node);
  mret (match r with Ok connected => connected | Err _ => false end).

Definition GetPeers : Io (list string) :=
  let? peers := query ListPeers else e => mret [] in
  mret (fst <$> filter (λ p, snd p = true) peers).

Definition GetPreimage : Io (result string) := query (RandBytes 32).
Definition CanSpend (amtMsat : Z) : option error := None.
Definition Implementation : string := "CLN".
End cln.
