(* ===== verification/LndClient.v ===== *)
(** * The client of lnd (src/lnd/client.go)

    The calls over grpc are questions; a stream of payment updates is the finite
    list of what [Recv] returns, with the error that ends it.  Short channel ids
    and vertices are functions of lnd's library ([LndLib]). *)

From S2P Require Import Prelude GoLib SwapData Timelock Env Oracle Lightning.

(** ** What lnd answers *)
Record PayReq := mkPayReq {
  Destination : string;
  pr_PaymentHash : string;
  NumSatoshis : Z;
  NumMsat : Z;
  CltvExpiry : Z;
}.
Record Channel := mkChannel {
  ChanId : Z;
  Active : bool;
  RemotePubkey : string;
  LocalBalance : Z;
  RemoteBalance : Z;
  LocalChanReserveSat : Z;
  RemoteChanReserveSat : Z;
}.
Record ChannelEdge := mkEdge {
  Node1Pub : string; Node2Pub : string; Node1MaxHtlcMsat : Z; Node2MaxHtlcMsat : Z }.

Inductive PaymentStatus :=
  | Payment_UNKNOWN | Payment_IN_FLIGHT | Payment_SUCCEEDED | Payment_FAILED | Payment_OTHER.
#[export] Instance PaymentStatus_eq_dec : EqDecision PaymentStatus.
Proof. solve_decision. Defined.
Definition PaymentStatus_String (s : PaymentStatus) : string :=
  match s with
  | Payment_UNKNOWN => "UNKNOWN" | Payment_IN_FLIGHT => "IN_FLIGHT"
  | Payment_SUCCEEDED => "SUCCEEDED" | Payment_FAILED => "FAILED" | Payment_OTHER => "INITIATED"
  end.
Record Payment := mkPayment {
  pay_Status : PaymentStatus; pay_Preimage : string; FailureReason : string }.

Record SendPaymentRequest := mkSendPaymentRequest {
  PaymentRequest : string;
  TimeoutSeconds : Z;
  FeeLimitMsat : Z;
  CltvLimit : Z;
  OutgoingChanIds : list Z;
  MaxParts : Z;
}.

Record ShortChannelID := mkScid { BlockHeight : Z; TxIndex : Z; TxPosition : Z }.
(** [ShortChannelID.String] of lnwire. *)
Definition Scid_String (s : ShortChannelID) : string :=
  strconv.Itoa (BlockHeight s) +:+ ":" +:+ strconv.Itoa (TxIndex s) +:+ ":" +:+
  strconv.Itoa (TxPosition s).

Class LndLib := {
  NewShortChanIDFromInt : Z → ShortChannelID;
  NewVertexFromStr : string → result string;
  (** what lnd adds to the final CLTV of a payment *)
  BlockPadding : Z;
  BlockPadding_u16 : 0 ≤ BlockPadding < 2 ^ 16 - 1;
}.

Module LndClientRpc.
Inductive Call :=
  | DecodePayReq (payreq : string)
  | ListChannels (ActiveOnly : bool)
  | ListPeers
  | GetChanInfo (ChanId : Z)
  | SendPaymentV2 (req : SendPaymentRequest)
  | TrackPaymentV2 (PaymentHash : string)
  | AddInvoice (ValueMsat : Z) (Memo RPreimage : string) (Expiry CltvExpiry : Z)
  | SendCustomMessage (Peer : string) (Type_ : Z) (Data : string)
  | BuildRoute (AmtMsat FinalCltvDelta OutgoingChanId : Z) (HopPubkeys : list string)
  | SendToRouteV2 (PaymentHash route : string)
  | RandBytes (n : nat)
  (** whether the exponential backoff goes on *)
  | NextBackOff.

Definition answer (c : Call) : Type :=
  match c with
  | DecodePayReq _ => result PayReq
  | ListChannels _ => result (list Channel)
  | ListPeers => result (list string)
  | GetChanInfo _ => result ChannelEdge
  (** the updates and the error that ends the stream *)
  | SendPaymentV2 _ => result (list Payment * error)
  (** the stream's first item *)
  | TrackPaymentV2 _ => result (result Payment)
  | AddInvoice _ _ _ _ _ | BuildRoute _ _ _ _ | RandBytes _ => result string
  | SendCustomMessage _ _ _ => option error
  (** the failure code of the attempt *)
  | SendToRouteV2 _ _ => result (option string)
  | NextBackOff => bool
  end.
End LndClientRpc.
Import LndClientRpc.

Section lnd.
Context {CL : ChainLib} {LL : LndLib} {OR : Oracle answer}.
(** the public key of the node, the client's only field that is read here *)
Abbreviation Io := (IO answer string).

(** ** Channels *)

(** An error of the node is ignored. *)
Definition getMaxHtlcAmtMsat (chanId : Z) (pubkey : string) : Io (result Z) :=
  let? r := query (GetChanInfo chanId) else e => mret (Ok 0) in
  mret (Ok (if bool_decide (Node1Pub r = pubkey) then Node1MaxHtlcMsat r
            else if bool_decide (Node2Pub r = pubkey) then Node2MaxHtlcMsat r else 0)).

Definition isPeerConnected (pubkey : string) : Io bool :=
  let? peers := query ListPeers else e => mret false in
  mret (existsb (λ p, bool_decide (p = pubkey)) peers).

Definition checkChannel (ch : Channel) : Io (option error) :=
  if negb (Active ch) then mret (Some (ErrText "channel not active"))
  else
    connected ← isPeerConnected (RemotePubkey ch);
    mret (if negb connected then Some (ErrText "peer is not connected") else None).

Definition no_channel (scid : string) : error :=
  ErrText ("could not find a channel with scid: " +:+ scid).

Definition has_scid (scid : string) (ch : Channel) : bool :=
  bool_decide (Scid_String (NewShortChanIDFromInt (ChanId ch)) = LndStyle scid).

(** The loop of [SpendableMsat] and [ReceivableMsat]: the first channel with the id. *)
Definition channel_msat (scid : string) (node : Channel → Io string) (msat : Channel → Z)
    : Io (result Z) :=
  let? channels := query (ListChannels false) else e => mret (Err e) in
  match list_find (λ ch, has_scid scid ch = true) channels with
  | None => mret (Err (no_channel scid))
  | Some (_, ch) =>
      do? checkChannel ch else e => mret (Err e) in
      pubkey ← node ch;
      let? maxHtlcAmtMsat := getMaxHtlcAmtMsat (ChanId ch) pubkey else e => mret (Err e) in
      mret (Ok (if maxHtlcAmtMsat =? 0 then msat ch else maxHtlcAmtMsat `min` msat ch))
  end.
(** The differences are uint64 and may wrap. *)
Definition spendable (ch : Channel) : Z :=
  u64 (u64 (u64 (LocalBalance ch) - LocalChanReserveSat ch) * 1000).
Definition receivable (ch : Channel) : Z :=
  u64 (u64 (u64 (RemoteBalance ch) - RemoteChanReserveSat ch) * 1000).
Definition SpendableMsat (scid : string) : Io (result Z) :=
  channel_msat scid (λ _, look) spendable.
Definition ReceivableMsat (scid : string) : Io (result Z) :=
  channel_msat scid (λ ch, mret (RemotePubkey ch)) receivable.

Definition LndShortChannelIdToCLShortChannelId (lndCI : ShortChannelID) : string :=
  strconv.Itoa (BlockHeight lndCI) +:+ "x" +:+ strconv.Itoa (TxIndex lndCI) +:+ "x" +:+
  strconv.Itoa (TxPosition lndCI).

Definition CheckChannel (shortChannelId : string) (amountSat : Z) : Io (result Channel) :=
  let? channels := query (ListChannels true) else e => mret (Err e) in
  let is_it (v : Channel) :=
    let channelShortId := NewShortChanIDFromInt (ChanId v) in
    Scid_String channelShortId = shortChannelId ∨
    LndShortChannelIdToCLShortChannelId channelShortId = shortChannelId in
  match list_find is_it channels with
  | None => mret (Err (ErrText "channel not found"))
  | Some (_, channel) =>
      if LocalBalance channel <? i64 amountSat then
        mret (Err (ErrText "not enough outbound capacity to pay invoice"))
      else mret (Ok channel)
  end.

(** ** Invoices *)
Definition DecodePayreq (payreq : string) : Io (result DecodedPayreq) :=
  let? res := query (DecodePayReq payreq) else e => mret (Err e) in
  mret (Ok (mkDecoded (pr_PaymentHash res) (u64 (NumMsat res)) (CltvExpiry res))).

Definition GetPayreq (msatAmount : Z) (preimageString swapId memo : string)
    (invoiceType : InvoiceType) (expirySeconds expiryCltv : Z) : Io (result string) :=
  match MakePreimageFromStr preimageString with
  | (_, Some e) => mret (Err e)
  | (preimage, None) => query (AddInvoice (i64 msatAmount) memo preimage (i64 expirySeconds) expiryCltv)
  end.

(** ** Payments *)
Definition uint64ToInt64 (value : Z) : Z := if 2 ^ 63 - 1 <? value then 2 ^ 63 - 1 else value.
Definition smallPaymentMsat : Z := 1000 * 1000.
Definition defaultPaymentFeeLimitMsat (amountMsat : Z) : Z :=
  if amountMsat <=? smallPaymentMsat then uint64ToInt64 amountMsat
  else uint64ToInt64 (amountMsat / 20).

(** The updates up to the first that ends the payment; the client waits a second
    between two. *)
Fixpoint await_payment (updates : list Payment) (end_ : error) : result string :=
  match updates with
  | [] => Err end_
  | res :: updates =>
      match pay_Status res with
      | Payment_SUCCEEDED => Ok (pay_Preimage res)
      | Payment_FAILED => Err (ErrText ("payment failure " +:+ FailureReason res))
      | _ => await_payment updates end_
      end
  end.
Definition sendPaymentV2 (req : SendPaymentRequest) : Io (result string) :=
  let? stream := query (SendPaymentV2 req) else e => mret (Err e) in
  mret (await_payment (fst stream) (snd stream)).

Definition PayInvoice (payreq : string) : Io (result string) :=
  let? inv := DecodePayreq payreq else e => mret (Err e) in
  sendPaymentV2 (mkSendPaymentRequest payreq 30 (defaultPaymentFeeLimitMsat (dp_amountMsat inv)) 0 [] 0).

Definition buildDirectClaimPaymentRequest (payreq : string) (decoded : PayReq) (channel : Channel)
    (maxTotalCLTVDelta : Z) : result SendPaymentRequest :=
  if bool_decide (Destination decoded ≠ RemotePubkey channel) then
    Err (ErrText ("destination pubkey in invoice does not match remote pubkey of channel. " +:+
           String "010" (String "009" (String "009" "destination pubkey in invoice: ")) +:+
           Destination decoded +:+ ", remote pubkey of channel: " +:+ RemotePubkey channel +:+ " "))
  else
    let request (cltvLimit : Z) :=
      mkSendPaymentRequest payreq 30 0 cltvLimit [ChanId channel] 1 in
    if maxTotalCLTVDelta =? 0 then
      Ok (request (i32 (i64 (i64 (CltvExpiry decoded + BlockPadding) + 1))))
    else if CltvExpiry decoded <? 0 then
      Err (ErrText ("invalid invoice CLTV delta: " +:+ strconv.Itoa (CltvExpiry decoded)))
    else
      let requiredCLTVDelta64 := u64 (CltvExpiry decoded + BlockPadding) in
      if 2 ^ 32 - 1 <? requiredCLTVDelta64 then
        Err (ErrText ("invoice CLTV delta is too large: " +:+ strconv.Itoa requiredCLTVDelta64))
      else
        match ValidateTotalCLTVDelta requiredCLTVDelta64 maxTotalCLTVDelta with
        | Some e => Err e
        | None =>
            if 2 ^ 31 - 1 <=? maxTotalCLTVDelta then
              Err (ErrText "payment CLTV limit is too large")
            else Ok (request (maxTotalCLTVDelta + 1))
        end.

Definition lnd_payInvoiceViaChannel (payreq scid : string) (maxTotalCLTVDelta : Z)
    : Io (result string) :=
  let? decoded := query (DecodePayReq payreq) else e => mret (Err e) in
  let? channel := CheckChannel scid (u64 (NumSatoshis decoded)) else e => mret (Err e) in
  match buildDirectClaimPaymentRequest payreq decoded channel maxTotalCLTVDelta with
  | Err e => mret (Err e)
  | Ok request => sendPaymentV2 request
  end.
Definition PayInvoiceViaChannel (payreq scid : string) : Io (result string) :=
  lnd_payInvoiceViaChannel payreq scid 0.
Definition RebalancePayment (payreq channelID : string) (maxTotalCLTVDelta : Z)
    : Io (result string) :=
  lnd_payInvoiceViaChannel payreq channelID maxTotalCLTVDelta.

Definition lnd_RecoverClaimPayment (payreq : string) : Io (result string) :=
  let? decoded := query (DecodePayReq payreq) else e => mret (Err e) in
  match hex.DecodeString (pr_PaymentHash decoded) with
  | (_, Some e) => mret (Err (ErrWrap ("decode payment hash: " +:+ Error e) e))
  | (paymentHash, None) =>
      let? first := query (TrackPaymentV2 paymentHash) else e => mret (Err e) in
      mret match first with
           | Err e => Err (ErrWrap ("track claim payment: " +:+ Error e) e)
           | Ok payment =>
               if negb (bool_decide (pay_Status payment = Payment_SUCCEEDED)) ||
                  bool_decide (pay_Preimage payment = "") then
                 Err (ErrText ("claim payment did not succeed: " +:+
                               PaymentStatus_String (pay_Status payment)))
               else Ok (pay_Preimage payment)
           end
  end.

(** ** Probing *)

(** The last channel with the id; a nil channel has id 0. *)
Definition last_channel (scid : string) (channels : list Channel) : option Channel :=
  foldl (λ acc ch, if has_scid scid ch then Some ch else acc) None channels.

Definition INCORRECT_OR_UNKNOWN_PAYMENT_DETAILS : string := "INCORRECT_OR_UNKNOWN_PAYMENT_DETAILS".
Definition wrapped (what : string) (e : error) : error := ErrWrap (what +:+ " " +:+ Error e) e.

Definition probePayment (scid : string) (amountMsat : Z) : Io (result (bool * string)) :=
  let? channels := query (ListChannels false) else e => mret (Err (wrapped "ListChannels()" e)) in
  match last_channel scid channels with
  | None => mret (Err (no_channel scid))
  | Some channel =>
      if ChanId channel =? 0 then mret (Err (no_channel scid))
      else
        match NewVertexFromStr (RemotePubkey channel) with
        | Err e => mret (Err (wrapped "NewVertexFromStr()" e))
        | Ok v =>
            let? route := query (BuildRoute (i64 amountMsat) 9 (ChanId channel) [v])
              else e => mret (Err (wrapped "BuildRoute()" e)) in
            let? preimage := query (RandBytes 32) else e => mret (Err (wrapped "GetPreimage()" e)) in
            match hex.DecodeString (hex.EncodeToString (sha256_Sum256 preimage)) with
            | (_, Some e) => mret (Err (wrapped "DecodeString()" e))
            | (pHash, None) =>
                let? failure := query (SendToRouteV2 pHash route)
                  else e => mret (Err (wrapped "SendToRouteV2()" e)) in
                mret match failure with
                     | None => Ok (false, "probe payment unexpectedly settled")
                     | Some code =>
                         if bool_decide (code ≠ INCORRECT_OR_UNKNOWN_PAYMENT_DETAILS)
                         then Ok (false, code) else Ok (true, "")
                     end
            end
        end
  end.

(** The error the operation of [backoff.Retry] returns; success and the payment
    error keep what the last attempt gave them. *)
Definition probe_error (r : result (bool * string)) : option error :=
  match r with
  | Err e => Some e
  | Ok (success, paymentError) =>
      if bool_decide (paymentError ≠ "") then
        Some (wrapped "probePayment()" (ErrText paymentError))
      else if negb success then Some (ErrText "probePayment() failed") else None
  end.
Fixpoint probe_retry (retries : nat) (scid : string) (amountMsat : Z)
    : Io (bool * string * option error) :=
  r ← probePayment scid amountMsat;
  let '(success, paymentError) := match r with Ok sp => sp | Err _ => (false, "") end in
  match probe_error r with
  | None => mret (success, paymentError, None)
  | Some e =>
      match retries with
      | O => mret (success, paymentError, Some e)
      | S retries =>
          go_on ← query NextBackOff;
          if go_on : bool then probe_retry retries scid amountMsat
          else mret (success, paymentError, Some e)
      end
  end.
Definition maxRetries : nat := 5.
Definition ProbePayment (scid : string) (amountMsat : Z) : Io (bool * string * option error) :=
  probe_retry maxRetries scid amountMsat.

(** The HTLC of a request of lnd: a payment over a single hop has the final CLTV and
    the padding as its delay; lnd takes hash and amount from the invoice of the
    request, as it decodes it; one that names no single channel may take any route. *)
Definition lnd_offer (inv : DecodedPayreq) (e : Event answer) : option Offered :=
  match question e with
  | SendPaymentV2 req =>
      Some match OutgoingChanIds req with
           | [chan] => over_channel
               (mkOffer (PaymentRequest req) (dp_paymentHash inv) (dp_amountMsat inv)
                  (LndShortChannelIdToCLShortChannelId (NewShortChanIDFromInt chan))
                  (dp_finalCLTVDelta inv + BlockPadding) (FeeLimitMsat req))
           | _ => any_route (PaymentRequest req)
           end
  | SendToRouteV2 _ _ => Some (any_route "")
  | _ => None
  end.
(** lnd reports a payment that succeeded: in the updates of the request that pays the
    invoice, or for the tracked hash. *)
Definition lnd_reported (payreq : string) (inv : DecodedPayreq) (preimage : string)
    (e : Event answer) : Prop :=
  (∃ req updates end_ p, e = event (SendPaymentV2 req) (Ok (updates, end_)) ∧
     PaymentRequest req = payreq ∧ p ∈ updates ∧
     pay_Status p = Payment_SUCCEEDED ∧ pay_Preimage p = preimage) ∨
  (∃ hash p, e = event (TrackPaymentV2 hash) (Ok (Ok p)) ∧
     hex.DecodeString (dp_paymentHash inv) = (hash, None) ∧
     pay_Status p = Payment_SUCCEEDED ∧ pay_Preimage p = preimage).
#[export] Instance lnd_payer : LightningPayer answer string := {|
  payInvoiceViaChannel := lnd_payInvoiceViaChannel;
  Lightning.RecoverClaimPayment := lnd_RecoverClaimPayment;
  decoded := λ payreq inv e, ∃ r, e = event (DecodePayReq payreq) (Ok r) ∧
    inv = mkDecoded (pr_PaymentHash r) (u64 (NumMsat r)) (CltvExpiry r);
  offer := lnd_offer;
  reported := lnd_reported;
  padding := BlockPadding |}.

(** ** Messages and peers *)
Definition SendMessage (peerId message : string) (messageType : Z) : Io (option error) :=
  match hex.DecodeString peerId with
  | (_, Some e) => mret (Some e)
  | (peerBytes, None) => query (SendCustomMessage peerBytes (u32 messageType) message)
  end.

Definition GetPeers : Io (list string) :=
  let? peers := query ListPeers else e => mret [] in mret peers.

Definition CanSpend (amtMsat : Z) : option error := None.
Definition Implementation : string := "LND".
End lnd.
