(* ===== verification/ClientProofs.v ===== *)
(** * What the lightning clients promise to a swap

    Both clients implement [PayerLaws]: a claim invoice is paid by one HTLC
    directly over the channel of the swap within the CLTV limit, without a fee,
    and waiting for an earlier payment makes none. *)

From S2P Require Import Prelude GoLib SwapData Timelock Env Oracle Lightning ClnClient LndClient.

(** ** Channel ids *)
Lemma pretty_go_contains x s c :
  hex.fromHexChar c = None →
  strings.Contains (pretty.pretty_N_go x s) c = strings.Contains s c.
Proof.
  intros Hc. revert s. induction (N.lt_wf_0 x) as [x _ IH]; intros s.
  destruct (decide (x = 0)%N) as [->|Hx]; [by rewrite pretty.pretty_N_go_0|].
  rewrite pretty.pretty_N_go_step by lia. rewrite IH by (apply N.div_lt; lia).
  cbn [strings.Contains]. rewrite bool_decide_false; [done|].
  intros E. pose proof (strconv.digit_value (x mod 10) (N.mod_lt x 10 ltac:(done))) as Hd.
  by rewrite E, Hc in Hd.
Qed.
Lemma Itoa_contains z c :
  hex.fromHexChar c = None → c ≠ "-"%char → strings.Contains (strconv.Itoa z) c = false.
Proof.
  intros Hc Hm. unfold strconv.Itoa. destruct z as [|p|p].
  - change (bool_decide ("0"%char = c) || false = false). rewrite bool_decide_false; [done|].
    by intros <-.
  - change (strings.Contains (pretty.pretty_N_go (N.pos p) "") c = false).
    by rewrite pretty_go_contains.
  - change (bool_decide ("-"%char = c) || strings.Contains (pretty.pretty_N_go (N.pos p) "") c = false).
    rewrite pretty_go_contains by done. rewrite bool_decide_false; [done|]. by intros <-.
Qed.

Lemma ReplaceAll_app s t a b :
  strings.ReplaceAll (s +:+ t) a b = strings.ReplaceAll s a b +:+ strings.ReplaceAll t a b.
Proof.
  induction s as [|c s IH]; [done|].
  change (String (if bool_decide (c = a) then b else c) (strings.ReplaceAll (s +:+ t) a b) =
          String (if bool_decide (c = a) then b else c)
            (strings.ReplaceAll s a b +:+ strings.ReplaceAll t a b)). by rewrite IH.
Qed.

Lemma ClnStyle_cln s : ClnStyle (LndShortChannelIdToCLShortChannelId s) = LndShortChannelIdToCLShortChannelId s.
Proof.
  apply strings.ReplaceAll_id. unfold LndShortChannelIdToCLShortChannelId.
  rewrite !strings.Contains_app, !Itoa_contains by done. done.
Qed.
Lemma ClnStyle_lnd s : ClnStyle (Scid_String s) = LndShortChannelIdToCLShortChannelId s.
Proof.
  unfold ClnStyle, Scid_String, LndShortChannelIdToCLShortChannelId.
  rewrite !ReplaceAll_app, !(strings.ReplaceAll_id (strconv.Itoa _)) by (by apply Itoa_contains). done.
Qed.

(** ** Payments *)

(** No event of a concrete list is a payment. *)
Ltac none_offered :=
  intros ? ? ?; repeat match goal with
  | H : _ ∈ _ :: _ |- _ => apply elem_of_cons in H as [->|H]; [reflexivity|]
  | H : _ ∈ [] |- _ => by apply elem_of_nil in H
  end.
(** Name the events since a record. *)
Ltac the_events :=
  first [exists []; split; [reflexivity|] | eexists [_]; split; [reflexivity|]
        |eexists [_; _]; split; [reflexivity|] | eexists [_; _; _]; split; [reflexivity|]
        |eexists [_; _; _; _]; split; [reflexivity|]].
(** The run ended without a payment. *)
Ltac ends_unpaid := split; [done|]; the_events; right; split; [none_offered|done].
(** Recovering ended without a preimage. *)
Ltac recovers_none := split; [done|]; the_events; split; [none_offered|by intros].

Section cln.
Context {CL : ChainLib} {OR : Oracle ClnRpc.answer}.
Import ClnRpc.

(** The invoice as the client hands it to the swap. *)
Abbreviation cln_invoice b :=
  (mkDecoded (b11_PaymentHash b) (b11_AmountMsat b) (MinFinalCltvExpiry b)).

Lemma route_direct b scid limit route payreq label secret inv :
  is_u32 limit → buildDirectClaimRoute b scid limit = Ok route →
  ∃ o, (∀ a, cln_offer inv (event (SendPay route (b11_PaymentHash b) label (b11_AmountMsat b) payreq
               secret 0) a) = Some (over_channel o)) ∧
       direct (LP := cln_payer) payreq scid limit (cln_invoice b) o.
Proof.
  unfold buildDirectClaimRoute. intros Hl Hr.
  assert (∃ delay, delay = u32 (i64 (MinFinalCltvExpiry b + 1)) ∧
    route = [mkHop (Payee b) (ClnStyle scid) (b11_AmountMsat b) delay 0] ∧
    (limit ≠ 0 → delay ≤ limit)) as (delay & Hdelay & -> & Hle).
  { eexists. split; [done|]. revert Hr. destruct (Z.eqb_spec limit 0); cbn [negb]; [by intros [= <-]|].
    destruct (_ || _); [done|]. unfold ValidateTotalCLTVDelta.
    destruct (Z.eqb_spec limit 0), (Z.ltb_spec limit (u32 (i64 (MinFinalCltvExpiry b + 1)))); cbn;
      try done; intros [= <-]. split; [done|]. lia. }
  eexists. split; [done|]. split_and!; try done; cbn; [lia|].
  intros Hf. rewrite i64_small, u32_small in Hdelay by (unfold is_i64, is_u32; lia). by subst delay.
Qed.

Lemma cln_pay_direct payreq scid limit t s :
  is_u32 limit →
  wp (cln_payInvoiceViaChannel payreq scid limit)
    (λ r '(t', s'), s' = s ∧ ∃ new, t' = new ++ t ∧
       pays_direct (LP := cln_payer) payreq scid limit r new) no_stop (t, s).
Proof.
  intros Hl. unfold cln_payInvoiceViaChannel, randomString. do 2 io_step.
  destruct (reply t (DecodeBolt11 payreq)) as [b|e] eqn:Hb; [|io_step; ends_unpaid].
  do 4 io_step. destruct (buildDirectClaimRoute b scid limit) as [route|e] eqn:Hr;
    [|io_step; ends_unpaid].
  do 2 io_step.
  assert (∀ t0 label a after r, none_offered (LP := cln_payer) after →
    t0 = event (DecodeBolt11 payreq) (Ok b) :: t →
    (∀ preimage, r = Ok preimage → ∃ e', e' ∈ after ∧ cln_reported (cln_invoice b) preimage e') →
    pays_direct (LP := cln_payer) payreq scid limit r
      (after ++ event (SendPay route (b11_PaymentHash b) label (b11_AmountMsat b) payreq
        (PaymentSecret b) 0) a ::
        [event (RandBytes 32) (reply t0 (RandBytes 32)); event (DecodeBolt11 payreq) (Ok b)]))
    as Hpaid.
  { intros t0 label a after r Hafter -> Hrep. left.
    destruct (route_direct b scid limit route payreq label (PaymentSecret b) (cln_invoice b) Hl Hr)
      as (o & Ho & Hd).
    eexists _, _, _, (cln_invoice b), (event (DecodeBolt11 payreq) (Ok b)), o.
    split; [reflexivity|]. split; [|split; [right; left|split; [by exists b|split; [apply Ho|split; [done|]]]]].
    - intros inv e' [He|He]%elem_of_app; [by apply Hafter|]. revert inv e' He. none_offered.
    - intros preimage (e' & He & Hp)%Hrep. exists e'. split; [|exact Hp]. apply elem_of_app. by left. }
  match goal with |- context [match ?x with Ok _ => _ | Err _ => _ end] => destruct x as [sent|e] eqn:Hs end.
  - do 3 io_step. split; [done|]. the_events.
    eapply (Hpaid _ _ _ [_]); [none_offered|done|].
    destruct (reply _ (WaitSendPay _ _)) as [res|e]; [|done]. intros preimage [= <-].
    eexists. split; [left|]. left. by exists 0, res.
  - io_step. split; [done|]. the_events.
    eapply (Hpaid _ _ _ []); [none_offered|done..].
Qed.

Lemma completed_spec payments p :
  completed payments = Some p → p ∈ payments ∧ sp_Status p = "complete".
Proof.
  unfold completed. intros ([i q] & (Hi & Hq & _)%list_find_Some & [= <-])%bind_Some.
  split; [by eapply list_elem_of_lookup_2|]. apply Hq.
Qed.

Lemma cln_recover_offers_none payreq t s :
  wp (cln_RecoverClaimPayment payreq)
    (λ r '(t', s'), s' = s ∧ ∃ new, t' = new ++ t ∧ none_offered (LP := cln_payer) new ∧
       ∀ preimage, r = Ok preimage → ∃ inv ed e, ed ∈ new ∧ decoded (LP := cln_payer) payreq inv ed ∧
         e ∈ new ∧ cln_reported inv preimage e)
    no_stop (t, s).
Proof.
  unfold cln_RecoverClaimPayment. do 2 io_step.
  destruct (reply t _) as [b|e]; [|io_step; recovers_none].
  do 2 io_step. destruct (reply _ (ListSendPaysByHash _)) as [ps|e]; [|io_step; recovers_none].
  destruct ps as [|p ps]; [io_step; recovers_none|].
  destruct (completed (p :: ps)) as [q|] eqn:Hc.
  { apply completed_spec in Hc as [Hq Hst]. io_step. split; [done|]. the_events. split; [none_offered|].
    intros preimage [= <-]. eexists (cln_invoice b), _, _.
    split; [right; left|]. split; [by exists b|]. split; [left|]. right. by exists (p :: ps), q. }
  destruct (existsb _ _); [|io_step; recovers_none].
  do 3 io_step. split; [done|]. the_events. split; [none_offered|].
  destruct (reply _ (WaitSendPay _ _)) as [res|e]; [|done]. intros preimage [= <-].
  eexists (cln_invoice b), _, _. split; [right; right; left|]. split; [by exists b|].
  split; [left|]. left. by exists 0, res.
Qed.

#[export] Instance cln_laws : PayerLaws cln_payer.
Proof. split; [exact cln_pay_direct|exact cln_recover_offers_none|done]. Qed.
End cln.

Section lnd.
Context {CL : ChainLib} {LL : LndLib} {OR : Oracle LndClientRpc.answer}.
Import LndClientRpc.

Abbreviation lnd_invoice r := (mkDecoded (pr_PaymentHash r) (u64 (NumMsat r)) (CltvExpiry r)).

(** [CheckChannel] returns the channel with the id, in either style. *)
Lemma CheckChannel_spec scid amt t s (P : result Channel → Trace LndClientRpc.answer * string → Prop) R :
  (∀ channel, LndShortChannelIdToCLShortChannelId (NewShortChanIDFromInt (ChanId channel)) = ClnStyle scid →
     P (Ok channel) (event (ListChannels true) (reply t (ListChannels true)) :: t, s)) →
  (∀ e, P (Err e) (event (ListChannels true) (reply t (ListChannels true)) :: t, s)) →
  wp (CheckChannel scid amt) P R (t, s).
Proof.
  intros HOk HErr. unfold CheckChannel. do 2 io_step.
  destruct (reply t (ListChannels true)) as [chs|e]; [|by apply wp_ret].
  destruct (list_find _ chs) as [[i channel]|] eqn:Hfind; [|by apply wp_ret].
  apply list_find_Some in Hfind as (_ & Hid & _).
  destruct (_ <? _); apply wp_ret; [done|]. apply HOk.
  destruct Hid as [<-|<-]; [by rewrite ClnStyle_lnd|by rewrite ClnStyle_cln].
Qed.

Lemma request_direct r channel scid limit req payreq :
  is_u32 limit → buildDirectClaimPaymentRequest payreq r channel limit = Ok req →
  LndShortChannelIdToCLShortChannelId (NewShortChanIDFromInt (ChanId channel)) = ClnStyle scid →
  PaymentRequest req = payreq ∧
  ∃ o, (∀ a, lnd_offer (lnd_invoice r) (event (SendPaymentV2 req) a) = Some (over_channel o)) ∧
       direct (LP := lnd_payer) payreq scid limit (lnd_invoice r) o.
Proof.
  unfold buildDirectClaimPaymentRequest. intros Hl Hr Hid. pose proof BlockPadding_u16.
  case_bool_decide; [done|].
  assert ((∃ c, req = mkSendPaymentRequest payreq 30 0 c [ChanId channel] 1) ∧
    (0 ≤ CltvExpiry r < 2 ^ 30 → limit ≠ 0 → CltvExpiry r + BlockPadding ≤ limit)) as [[c ->] Hle].
  { revert Hr. destruct (Z.eqb_spec limit 0); [intros [= <-]; split; [by eexists|done]|].
    destruct (Z.ltb_spec (CltvExpiry r) 0); [done|].
    destruct (_ <? _); [done|]. unfold ValidateTotalCLTVDelta.
    destruct (Z.eqb_spec limit 0), (Z.ltb_spec limit (u64 (CltvExpiry r + BlockPadding))); cbn; try done.
    destruct (_ <=? _); [done|]. intros [= <-]. split; [by eexists|].
    intros Hf _. rewrite u64_small in * by (unfold is_u64; lia). lia. }
  split; [done|]. eexists. split; [intros a; cbn; rewrite Hid; reflexivity|].
  split_and!; try done. intros Hf. split; [done|by apply Hle].
Qed.

(** A preimage that ends the wait is that of a payment lnd reported as succeeded. *)
Lemma await_payment_Ok updates end_ preimage :
  await_payment updates end_ = Ok preimage →
  ∃ p, p ∈ updates ∧ pay_Status p = Payment_SUCCEEDED ∧ pay_Preimage p = preimage.
Proof.
  induction updates as [|p updates IH]; cbn; [done|].
  destruct (pay_Status p) eqn:E; try done;
    try (intros (q & Hq & H)%IH; exists q; split; [by right|exact H]).
  intros [= <-]. exists p. split; [left|done].
Qed.

Lemma lnd_pay_direct payreq scid limit t s :
  is_u32 limit →
  wp (lnd_payInvoiceViaChannel payreq scid limit)
    (λ r '(t', s'), s' = s ∧ ∃ new, t' = new ++ t ∧
       pays_direct (LP := lnd_payer) payreq scid limit r new) no_stop (t, s).
Proof.
  intros Hl. unfold lnd_payInvoiceViaChannel. do 2 io_step.
  destruct (reply t (DecodePayReq payreq)) as [b|e] eqn:Hb; [|io_step; ends_unpaid].
  io_step. apply CheckChannel_spec; [|intros e; io_step; ends_unpaid].
  intros channel Hid.
  destruct (buildDirectClaimPaymentRequest payreq b channel limit) as [req|e] eqn:Hr;
    [|io_step; ends_unpaid].
  unfold sendPaymentV2. do 2 io_step.
  set (t1 := event (ListChannels true) _ :: _).
  destruct (request_direct b channel scid limit req payreq Hl Hr Hid) as (Hreq & o & Ho & Hd).
  assert (∀ r a, (∀ preimage, r = Ok preimage →
      lnd_reported payreq (lnd_invoice b) preimage (event (SendPaymentV2 req) a)) →
    pays_direct (LP := lnd_payer) payreq scid limit r
    [event (SendPaymentV2 req) a;
     event (ListChannels true) (reply (event (DecodePayReq payreq) (Ok b) :: t) (ListChannels true));
     event (DecodePayReq payreq) (Ok b)]) as Hpaid.
  { intros r a Hrep. left.
    eexists [_; _], _, [], (lnd_invoice b), (event (DecodePayReq payreq) (Ok b)), o.
    split; [reflexivity|]. split; [cbn [app]; none_offered|]. split; [right; left|].
    split; [by exists b|]. split; [apply Ho|]. split; [done|].
    intros preimage Hp. eexists. split; [left|]. by apply Hrep. }
  destruct (reply t1 (SendPaymentV2 req)) as [[updates end_]|e] eqn:Hs; io_step;
    (split; [done|]; the_events; apply Hpaid); [|done].
  intros preimage (p & Hp & H)%await_payment_Ok. left. by exists req, updates, end_, p.
Qed.

Lemma lnd_recover_offers_none payreq t s :
  wp (lnd_RecoverClaimPayment payreq)
    (λ r '(t', s'), s' = s ∧ ∃ new, t' = new ++ t ∧ none_offered (LP := lnd_payer) new ∧
       ∀ preimage, r = Ok preimage → ∃ inv ed e, ed ∈ new ∧ decoded (LP := lnd_payer) payreq inv ed ∧
         e ∈ new ∧ lnd_reported payreq inv preimage e)
    no_stop (t, s).
Proof.
  unfold lnd_RecoverClaimPayment. do 2 io_step.
  destruct (reply t _) as [b|e]; [|io_step; recovers_none].
  destruct (hex.DecodeString _) as [hash [e|]] eqn:Hhash; [io_step; recovers_none|].
  do 2 io_step. destruct (reply _ (TrackPaymentV2 _)) as [[p|e]|e]; io_step; [|recovers_none..].
  split; [done|]. the_events. split; [none_offered|].
  case_bool_decide as Hst; cbn [negb orb]; [|done]. case_bool_decide; [done|].
  intros preimage [= <-]. eexists (lnd_invoice b), _, _. split; [right; left|]. split; [by exists b|].
  split; [left|]. right. by exists hash, p.
Qed.

#[export] Instance lnd_laws : PayerLaws lnd_payer.
Proof.
  split; [exact lnd_pay_direct|exact lnd_recover_offers_none|].
  cbn. pose proof BlockPadding_u16. lia.
Qed.
End lnd.

