(* ===== verification/Settlement.v ===== *)
(** * What a claim payment asks for and what it buys

    The swap machine decides when to pay and with which limit, the lightning
    client what HTLC it asks its node for.  Together: over a whole run of a swap,
    whichever client is used, a claim payment asks for one HTLC, over the channel
    of the swap, and on Liquid it expires before the maker can take its refund;
    on Bitcoin what the client adds to the final CLTV is not covered by the
    limits, by as many blocks.  And what it buys: a preimage that claims the opening
    output, with the wallets of either chain. *)

From S2P Require Import Prelude GoLib SwapData Timelock Env Store Actions Fsm Safety Payments Guards Acceptance Oracle Lightning ClientProofs.

Section settlement.
Context {Q} {A : Q → Type} {S : Type} {LP : LightningPayer A S} {LL : PayerLaws LP}.

(** In time for a refund of the maker: a Bitcoin HTLC that was offered at height
    [now] lasts at most [padding] blocks beyond the CSV; a Liquid one, of at most
    313 Liquid blocks per Bitcoin block, ends before the CSV. *)
Definition in_time (ch : Chain) (start csv now : Z) (o : Offer) : Prop :=
  match ch with
  | Bitcoin => now + of_delay o ≤ start + csv + padding (LP := LP)
  | Liquid => ∀ r, 0 ≤ r ≤ 313 → now + of_delay o * r < start + csv
  end.

(** A run of the client from any state: it ends; it offers one HTLC directly over the
    channel or fails; and if its node reads the invoice as [inv], what it offers is in
    time, locked to the payment hash of [inv] and over its amount. *)
Definition one_htlc_in_time (ch : Chain) (start csv now : Z) (payreq scid : string)
    (limit : Z) (inv : DecodedPayreq) : Prop :=
  ∀ t s, ∃ r new, payInvoiceViaChannel (LP := LP) payreq scid limit (t, s) = Ret (new ++ t, s) r ∧
    pays_direct (LP := LP) payreq scid limit r new ∧
    ((∀ inv' ed, ed ∈ new → decoded (LP := LP) payreq inv' ed → inv' = inv) →
     ∀ e offered, e ∈ new → offer (LP := LP) inv e = Some offered →
       ∃ o, offered = over_channel o ∧ of_payreq o = payreq ∧ of_hash o = dp_paymentHash inv ∧
         of_amount o = dp_amountMsat inv ∧ of_channel o = ClnStyle scid ∧
         of_fee o = 0 ∧ in_time ch start csv now o).

Lemma pays_in_time ch start csv now payreq scid limit inv :
  is_u32 limit → 0 ≤ dp_finalCLTVDelta inv < 2 ^ 30 →
  (∀ o, of_delay o = dp_finalCLTVDelta inv + padding (LP := LP) → (limit ≠ 0 → of_delay o ≤ limit) →
     in_time ch start csv now o) →
  one_htlc_in_time ch start csv now payreq scid limit inv.
Proof.
  intros Hl Hf Htime t s. pose proof (pay_direct payreq scid limit t s Hl) as Hpay.
  apply wp_total in Hpay as ([t' s'] & r & E & -> & new & -> & Hd). exists r, new.
  split; [done|]. split; [done|]. intros Hdec e offered He Ho. destruct Hd as [Hd|[Hnone _]].
  - destruct Hd as (before & e0 & after & inv' & ed & o & -> & Hrest & Hed & Hfd & Ho' & Hdir & _).
    assert (inv' = inv) as -> by (apply (Hdec inv' ed); [|done]; apply elem_of_app; right; by right).
    assert (e = e0) as ->.
    { rewrite elem_of_app, elem_of_cons in He.
      destruct He as [He|[->|He]]; [|done|]; exfalso;
        (rewrite Hrest in Ho; [done|apply elem_of_app; by (left + right)]). }
    rewrite Ho in Ho'. injection Ho' as ->.
    destruct Hdir as (H1 & H2 & H3 & H4 & H5 & H6). destruct (H6 Hf) as [H7 H8].
    eexists. do 6 (split; [done|]). by apply Htime.
  - by rewrite Hnone in Ho.
Qed.

(** Heights below 2^31 are not before the start when the height check passes. *)
Lemma pay_height_reached ch d policy now :
  getOnChainServices (GetChain d) = Ok ch → getTimelockPolicy d = Ok policy →
  check_pay_height ch d policy now = None → 0 ≤ StartingBlockHeight d < 2 ^ 31 → is_u32 now →
  StartingBlockHeight d ≤ now.
Proof.
  unfold is_u32. intros Hch Hpol Hpay Hs Hn. destruct (Z.le_gt_cases (StartingBlockHeight d) now); [done|].
  exfalso. revert Hpay. unfold check_pay_height.
  apply getOnChainServices_Ok in Hch as [[E ->]|[E ->]]; rewrite E.
  - rewrite bool_decide_true by done. cbn [andb GetCSVHeight]. unfold BitcoinCsv.
    destruct (Z.ltb_spec (1008 / 2) (u32 (now - StartingBlockHeight d))) as [|Hle]; [done|].
    change (1008 / 2) with 504 in Hle. unfold u32 in Hle.
    rewrite <- (Z.mod_add _ 1), Z.mod_small in Hle by lia. lia.
  - rewrite bool_decide_false, bool_decide_true by done. cbn [andb]. unfold checkPaymentWindow.
    destruct (StartingBlockHeightSet d); cbn [negb]; [|done].
    by destruct (Z.ltb_spec now (StartingBlockHeight d)); [|lia].
Qed.

(** A claim payment for which the swap's checks passed is paid by an HTLC in time. *)
Lemma checked_pays_in_time ch d policy inv payreq now scid :
  getOnChainServices (GetChain d) = Ok ch → getTimelockPolicy d = Ok policy →
  AllowNewClaimPayment policy = true →
  check_claim_invoice ch d policy inv payreq = Some None →
  check_pay_height ch d policy now = None →
  0 ≤ StartingBlockHeight d < 2 ^ 31 → is_u32 now → 0 ≤ dp_finalCLTVDelta inv < 2 ^ 63 →
  one_htlc_in_time ch (StartingBlockHeight d) (CSV policy) now payreq scid
    (MaxTotalCLTVDelta policy) inv.
Proof.
  intros Hch Hpol Hallow Hinv Hpay Hs Hn Hf.
  pose proof (pay_height_reached ch d policy now Hch Hpol Hpay Hs Hn) as Hle.
  assert (is_u32 (StartingBlockHeight d)) as Hs' by (unfold is_u32; lia).
  destruct (claim_settles_before_refund ch d policy inv payreq now Hch Hpol Hallow Hinv Hpay Hs' Hn)
    as [(-> & Hlim & Hf' & Hb)|(-> & Hw & Hfl & Hlim & Hr)]; [unfold is_i64; lia|done|..].
  - apply pays_in_time; [rewrite Hlim; done|lia|]. intros o Ho _. cbn. lia.
  - apply pays_in_time; [rewrite Hlim; done|lia|]. intros o _ Hd r Hr'.
    specialize (Hd ltac:(lia)). specialize (Hr r Hr'). nia.
Qed.

(** ** Runs of a machine *)

(** A claim payment in a step with the data [d], in a run with the calls [h]: the
    invoice was decoded and accepted in the run, the height was read just before, and the client
    offers an HTLC in time for the swap's own starting height and CSV. *)
Definition htlc_in_time {EV : Env} (d : SwapData) (h : History) (e : Entry) (pre : History) : Prop :=
  match call_of e with
  | RebalancePayment payreq scid limit =>
      ∃ ch policy inv now pre',
        getOnChainServices (GetChain d) = Ok ch ∧ getTimelockPolicy d = Ok policy ∧
        pre = entry (GetBlockHeight ch) (Ok now) :: pre' ∧
        entry (DecodePayreq payreq) (Ok inv) ∈ h ∧
        check_claim_invoice ch d policy inv payreq = Some None ∧
        scid = GetScid d ∧ limit = MaxTotalCLTVDelta policy ∧
        (0 ≤ StartingBlockHeight d < 2 ^ 31 → is_u32 now → 0 ≤ dp_finalCLTVDelta inv < 2 ^ 63 →
         one_htlc_in_time ch (StartingBlockHeight d) (CSV policy) now payreq scid limit inv)
  | _ => True
  end.

Lemma atomic_in_time {EV : Env} d h hw e pre : atomic_payment d h hw e pre → htlc_in_time d h e pre.
Proof.
  unfold atomic_payment, htlc_in_time. destruct (call_of e); try done.
  intros (ch & policy & inv & params & Hord & Hch & Hpol & Hdec & Hinv & _).
  destruct Hord as (ch' & policy' & params' & msg & now & new & Hch' & Hpol' & Hallow & Hlim & Hscid
    & _ & _ & E & Hpay & _).
  rewrite Hch in Hch'. injection Hch' as <-. rewrite Hpol in Hpol'. injection Hpol' as <-.
  exists ch, policy, inv, now, (new ++ hw). do 2 (split; [done|]). split; [exact E|]. split; [exact Hdec|].
  do 3 (split; [done|]). intros Hs Hn Hf. rewrite Hlim. by apply checked_pays_in_time.
Qed.

(** C4. A claim payment is settled in time whichever lightning client makes it: over
    any run of a machine, every payment of a claim invoice, for the data the machine
    has at that moment, asks the client for one HTLC, which pays the swap's invoice,
    to the payment hash and over the amount it was accepted with, directly over the
    swap's own channel without a fee (or the payment fails and offers none); if the
    client's node reads the invoice as it did before, then on Liquid the HTLC expires
    before the CSV refund even with 313 Liquid blocks per Bitcoin block, and on
    Bitcoin it outlasts the starting height and the CSV of the swap at most by what
    the client adds to the final CLTV. *)
Theorem claim_htlc_in_time {EV : Env} sm h sm1 w ev ctx :
  sm_Current sm ∉ paying_claim → confirmed_run sm h sm1 → may_receive h sm1 ev ctx →
  (match SendEvent ev ctx (w, sm1) with
   | Ret (w', _) _ | Panic (w', _) | NoFuel (w', _) =>
       made_when (htlc_in_time (received ctx (sm_Data sm1)) h) (hist w) (hist w')
   end) ∧
  (match Recover (w, sm1) with
   | Ret (w', _) _ | Panic (w', _) | NoFuel (w', _) =>
       made_when (htlc_in_time (sm_Data sm1) h) (hist w) (hist w')
   end).
Proof.
  intros Hst Hrun Hrec. destruct (run_pays_accepted sm h sm1 w ev ctx Hst Hrun Hrec) as [Hs Hr].
  split.
  - destruct (SendEvent _ _ _) as [[]|[]|[]]; (eapply made_when_mono; [|exact Hs]);
      intros e pre H; by eapply atomic_in_time.
  - destruct (Recover _) as [[]|[]|[]]; (eapply made_when_mono; [|exact Hr]);
      intros e pre H; by eapply atomic_in_time.
Qed.
End settlement.

(** ** The output a claim payment unlocks

    What the swap machine checks and records, the lock of the output, and the claim
    calls of the wallets of both chains, put together. *)

From S2P Require Import Fees FeeProofs OpeningScript BitcoinOnChain BitcoinWallets BitcoinProofs LiquidOnChain LiquidProofs.
#[local] Existing Instances LndSpends.lnd_wallet_rpc ClnSpends.cln_wallet_rpc.

Section unlocking.
Context {EV : Env} {CL : ChainLib} {SR : ScriptRules} {SL : SignerLib}.
Context {BL : BtcLib} {CO : Consensus} {FL : FeeLib} (b : BitcoinOnChain).
Context {OL : Oracle LndWallet.answer} {OC : Oracle ClnWallet.answer}.
Context {S1 S2 : Type} {ES1 : Estimator (A := LndWallet.answer) S1} {ES2 : Estimator (A := ClnWallet.answer) S2}.
Context {inv1 : S1 → Prop} {inv2 : S2 → Prop} {EO1 : EstimatorOk ES1 inv1} {EO2 : EstimatorOk ES2 inv2}.
Context {EL : ElementsLib} {LC : LiquidConsensus} (l : LiquidOnChain).
Context {OR : Oracle LiquidRpc.answer} {S3 : Type}.

(** The answers of the watchers of a chain are what its [ValidateTx] computes. *)
Definition validated_by_code (ch : Chain) (h : History) : Prop :=
  ∀ params txHex r, entry (Env.ValidateTx ch params txHex) r ∈ h →
    match ch with
    | Bitcoin => r = BitcoinOnChain.ValidateTx params txHex
    | Liquid => Some r = LiquidOnChain.ValidateTx l params txHex
    end.

Definition owns_taker_key (ch : Chain) (params : OpeningParams) (cp : ClaimParams) : Prop :=
  match ch with
  | Bitcoin => taker_key params (cp_Signer cp)
  | Liquid => l_taker_key params (cp_Signer cp)
  end.

(** The claim call of every wallet of the chain ends, and what it broadcasts spends the
    opening output under the rules of its script, to an address of the wallet. *)
Definition claim_succeeds (ch : Chain) (params : OpeningParams) (cp : ClaimParams) : Prop :=
  match ch with
  | Bitcoin =>
      (∀ t s, inv1 s → ∃ t' s' r,
         LndWallet.CreatePreimageSpendingTransaction b params cp (t, s) = Ret (t', s') r ∧
         inv1 s' ∧ spent params (cp_OpeningTxHex cp) t r t') ∧
      (∀ t s, inv2 s → ∃ t' s' r,
         ClnWallet.CreatePreimageSpendingTransaction b params cp (t, s) = Ret (t', s') r ∧
         inv2 s' ∧ spent params (cp_OpeningTxHex cp) t r t')
  | Liquid =>
      ends_spent (S := S3) l params (cp_OpeningTxHex cp)
        (LiquidOnChain.CreatePreimageSpendingTransaction l params cp)
  end.

Lemma getTimelockPolicy_csv d policy :
  getTimelockPolicy d = Ok policy → 0 < CSV policy < 2 ^ 16.
Proof.
  unfold getTimelockPolicy. repeat case_match; intros [= <-]; by vm_compute.
Qed.

Lemma validated_claim_succeeds ch h params cp :
  validated_by_code ch h → entry (Env.ValidateTx ch params (cp_OpeningTxHex cp)) (Ok true) ∈ h →
  0 < op_CSV params < 2 ^ 16 → owns_taker_key ch params cp →
  (∀ pre, MakePreimageFromStr (cp_Preimage cp) = (pre, None) →
     hex.DecodeString (op_ClaimPaymentHash params) = (script_sha256 pre, None)) →
  claim_succeeds ch params cp.
Proof.
  intros Hv He Hcsv Hk Hpre. apply Hv in He. destruct ch; cbn in *.
  - symmetry in He. apply ValidateTx_true in He as (tx & n & script & Hf). split; intros t s Hs.
    + destruct (wp_total _ _ _ (LndSpends.preimage_spent b params cp tx n script Hf t s Hs Hk Hpre))
        as ([t' s'] & r & E & H). by exists t', s', r.
    + destruct (wp_total _ _ _ (ClnSpends.cln_preimage_spent b params cp tx n script Hf t s Hs Hk Hpre))
        as ([t' s'] & r & E & H). by exists t', s', r.
  - symmetry in He. apply liquid_ValidateTx_true in He as (tx & n & out & script & ub & Hf).
    apply ends_spent_wp. intros t s. by eapply preimage_sent.
Qed.

(** A claim payment in a step with the data [d], in a run with the calls [h]: the
    preimage of the invoice's payment hash claims the output with the key of the swap. *)
Definition buys_output (d : SwapData) (h : History) (e : Entry) (pre : History) : Prop :=
  match call_of e with
  | RebalancePayment payreq scid delta =>
      ∃ ch inv params, getOnChainServices (GetChain d) = Ok ch ∧
        GetOpeningParams d = Some params ∧ entry (DecodePayreq payreq) (Ok inv) ∈ h ∧
        entry (Env.ValidateTx ch params (OpeningTxHex d)) (Ok true) ∈ pre ∧
        (dp_paymentHash inv ≠ "" → validated_by_code ch pre →
         owns_taker_key ch params (GetClaimParams d) →
         ∀ preimage,
           (∀ bytes, MakePreimageFromStr preimage = (bytes, None) →
              hex.DecodeString (dp_paymentHash inv) = (script_sha256 bytes, None)) →
           claim_succeeds ch params (GetClaimParams (d <| ClaimPreimage := preimage |>)))
  | _ => True
  end.

Lemma atomic_buys d h hw e pre : atomic_payment d h hw e pre → buys_output d h e pre.
Proof.
  unfold atomic_payment, buys_output. destruct (call_of e); try done.
  intros (ch & policy & inv & params & _ & Hch & Hpol & Hdec & _ & Hpar & Hval & Hhash).
  exists ch, inv, params. do 3 (split; [done|]). split; [exact Hval|]. intros Hne Hcode Hk preimage Hpre.
  eapply validated_claim_succeeds; [exact Hcode|exact Hval| |exact Hk|].
  - revert Hpar. unfold GetOpeningParams. rewrite Hpol. destruct (GetOpeningTXAmount d); [|done].
    intros [= <-]. cbn. by eapply getTimelockPolicy_csv.
  - by rewrite (Hhash Hne).
Qed.

(** C3. The preimage a claim payment buys claims the output, on either chain: over any
    run of a machine, at every payment of a claim invoice the opening transaction
    was validated; and when the watcher's answers are those of the chain's
    [ValidateTx] and the swap's key is the taker's, the claim call of each wallet
    of the chain, with the swap's parameters and any preimage of the payment hash
    of the invoice paid, ends, and what it broadcasts spends the opening output to
    an address of the wallet; without an error the node took it.  (On Liquid the
    call panics if the random source gives no key.) *)
Theorem paid_swap_is_claimable sm h sm1 w ev ctx :
  sm_Current sm ∉ paying_claim → confirmed_run sm h sm1 → may_receive h sm1 ev ctx →
  (match SendEvent ev ctx (w, sm1) with
   | Ret (w', _) _ | Panic (w', _) | NoFuel (w', _) =>
       made_when (buys_output (received ctx (sm_Data sm1)) h) (hist w) (hist w')
   end) ∧
  (match Recover (w, sm1) with
   | Ret (w', _) _ | Panic (w', _) | NoFuel (w', _) =>
       made_when (buys_output (sm_Data sm1) h) (hist w) (hist w')
   end).
Proof.
  intros Hst Hrun Hrec. destruct (run_pays_accepted sm h sm1 w ev ctx Hst Hrun Hrec) as [Hs Hr].
  split.
  - destruct (SendEvent _ _ _) as [[]|[]|[]]; (eapply made_when_mono; [|exact Hs]);
      intros e pre H; by eapply atomic_buys.
  - destruct (Recover _) as [[]|[]|[]]; (eapply made_when_mono; [|exact Hr]);
      intros e pre H; by eapply atomic_buys.
Qed.
End unlocking.

(** ** On concrete nodes

    An lnd node with one channel, over which every payment succeeds. *)


From S2P Require Import Prelude GoLib SwapData Timelock Env Demo Store Actions Fsm Safety Payments Acceptance Scenarios Witnesses Oracle OnChainWitnesses Lightning ClnClient LndClient ClientProofs.
Import LndClientRpc.

#[local] Existing Instance OnChainWitnesses.demo_chain_lib.
#[local] Instance demo_lnd_lib : LndLib.
Proof.
  refine {|
  NewShortChanIDFromInt := λ z, mkScid z 1 0; NewVertexFromStr := Ok; BlockPadding := 3 |}.
  lia.
Defined.

Definition demo_channel : Channel := mkChannel 100 true peer1 2000000 2000000 0 0.
#[local] Instance demo_lnd_node : Oracle LndClientRpc.answer := λ _ q,
  match q with
  | DecodePayReq payreq => Ok (mkPayReq peer1 demo_hex32 100200 100200000 504)
  | ListChannels _ => Ok [demo_channel]
  | ListPeers => Ok [peer1]
  | GetChanInfo _ => Err (ErrText "unknown")
  | SendPaymentV2 _ => Ok ([mkPayment Payment_IN_FLIGHT "" ""; mkPayment Payment_SUCCEEDED demo_hex32 ""],
                          ErrText "EOF")
  | TrackPaymentV2 _ => Err (ErrText "unknown")
  | AddInvoice _ _ _ _ _ | BuildRoute _ _ _ _ | RandBytes _ => Ok ""
  | SendCustomMessage _ _ _ => None
  | SendToRouteV2 _ _ => Ok (Some INCORRECT_OR_UNKNOWN_PAYMENT_DETAILS)
  | NextBackOff => false
  end.

Example claim_htlc_in_time_witness :
  ∃ h w w' r, confirmed_run (EV := demo) out_sender h (snd awaiting_out) ∧
    SendEvent (H := demo) Event_OnTxConfirmed None (w, snd awaiting_out) = Ret w' r ∧
    existsb is_paid (hist (fst w')) = true ∧
    made_when (htlc_in_time (LP := lnd_payer) (EV := demo) (sm_Data (snd awaiting_out)) h) (hist w)
      (hist (fst w')).
Proof.
  pose proof awaiting_run as Hrun. pose proof awaiting_may as Hrec. pose proof awaiting_pays as Hpaid.
  destruct awaiting_out as [w sm]. cbn [fst snd] in *.
  assert (sm_Current out_sender ∉ paying_claim) as Hst by by_eval.
  destruct (claim_htlc_in_time (LP := lnd_payer) (EV := demo) out_sender (hist w) sm w
    Event_OnTxConfirmed None Hst Hrun Hrec) as [H _].
  destruct (SendEvent _ _ _) as [[w' sm'] r| |] eqn:E; [|done..].
  exists (hist w), w, (w', sm'), r. by split.
Defined.

(** On Bitcoin the limits of the swap leave no room for what lnd adds to the final
    CLTV: a claim invoice with final CLTV 504, paid 504 blocks after the start, passes
    all checks, and the HTLC that lnd is asked for (with its padding of 3 blocks)
    lasts beyond the height at which the maker's refund is valid when the opening
    transaction was confirmed in the block after the start. *)
Theorem htlc_can_outlive_refund :
  ∃ d policy inv payreq now t' r e o,
    getOnChainServices (GetChain d) = Ok Bitcoin ∧ getTimelockPolicy d = Ok policy ∧
    AllowNewClaimPayment policy = true ∧
    check_claim_invoice Bitcoin d policy inv payreq = Some None ∧
    check_pay_height Bitcoin d policy now = None ∧
    lnd_payInvoiceViaChannel payreq (GetScid d) (MaxTotalCLTVDelta policy) ([], "me") =
      Ret (t', "me") (Ok r) ∧
    e ∈ t' ∧ lnd_offer inv e = Some (over_channel o) ∧
    StartingBlockHeight d + 1 + CSV policy < now + of_delay o.
Proof.
  exists paying, btc_policy, (mkDecoded demo_hex32 100200000 504), "100200000", 604.
  eexists _, demo_hex32, _, (mkOffer "100200000" demo_hex32 100200000 scid1 507 0).
  do 5 (split; [by vm_compute|]). split; [vm_compute; reflexivity|].
  split; [by left|]. split; by vm_compute.
Qed.

(** The watcher hands the taker of the worked swap the opening transaction, its claim
    invoice is paid, and its claim with the preimage that was paid for spends the
    output on an lnd node. *)
Definition opening_hex : string := hex.EncodeToString "opening".
Definition confirmed_out : SwapStateMachine :=
  snd awaiting_out <| sm_Data := sm_Data (snd awaiting_out) <| OpeningTxHex := opening_hex |>
                                 <| LastErr := None |> <| toCancel := false |> |>.
Definition bought_params : OpeningParams :=
  mkOpeningParams demo_pub demo_pub demo_hex32 100000 1008 None.
Definition bought_cp : ClaimParams := mkClaimParams demo_hex32 demo_key opening_hex.

#[local] Existing Instances OpeningScript.demo_rules OnChainWitnesses.demo_fee_lib
  OnChainWitnesses.demo_lnd OnChainWitnesses.demo_cln OnChainWitnesses.demo_elements
  OnChainWitnesses.demo_liquid_wallet.
#[local] Instance bought_btc : BtcLib :=
  demo_btc_of (match ParamsToTxScript bought_params BitcoinCsv with Ok s => s | Err _ => [] end).
#[local] Instance bought_signer : SignerLib := demo_signer_of "0".
#[local] Instance bought_consensus : Consensus := demo_consensus_of "0".
#[local] Instance bought_liquid_consensus : LiquidConsensus := demo_liquid_consensus_of "0".

Definition validation (e : Entry) : option (Chain * OpeningParams * string * result bool) :=
  match e with
  | existT (Env.ValidateTx ch params txHex) r => Some (ch, params, txHex, r)
  | _ => None
  end.
Definition other_hash (e : Entry) : bool :=
  match e with
  | existT (Env.DecodePayreq _) (Ok inv) => negb (bool_decide (dp_paymentHash inv = demo_hex32))
  | _ => false
  end.
(** The newest call that fulfils [p], with the calls after it and before it. *)
Fixpoint split_at_call (p : Entry → bool) (h : History) : option (History * Entry * History) :=
  match h with
  | [] => None
  | e :: h =>
      if p e then Some ([], e, h)
      else '(post, e', pre) ← split_at_call p h; Some (e :: post, e', pre)
  end.
Lemma split_at_call_app p h post e pre :
  split_at_call p h = Some (post, e, pre) → h = post ++ e :: pre ∧ existsb p h = true.
Proof.
  revert post. induction h as [|e' h IH]; intros post; [done|]. cbn.
  destruct (p e'); [by intros [= <- -> ->]|].
  destruct (split_at_call p h) as [[[post' e1] pre']|]; [|done]. intros [= <- -> ->].
  by destruct (IH post' eq_refl) as [-> H].
Qed.

Lemma confirmed_run_out : confirmed_run (EV := demo) out_sender (hist (fst awaiting_out)) confirmed_out.
Proof. by apply (confirmed_assign (EV := demo)), awaiting_run. Qed.

Lemma confirmed_may : may_receive (hist (fst awaiting_out)) confirmed_out Event_OnTxConfirmed None.
Proof. split; [exact (proj1 awaiting_may)|by intros]. Qed.

(** What the calls before the payment are. *)
Lemma confirmed_pays :
  match SendEvent (H := demo) Event_OnTxConfirmed None (fst awaiting_out, confirmed_out) with
  | Ret (w', _) _ =>
      match split_at_call is_paid (hist w') with
      | Some (post, e, pre) =>
          call_of e = Env.RebalancePayment "100200000" scid1 0 ∧
          (length (hist (fst awaiting_out)) <= length pre)%nat ∧
          omap validation pre = [(Bitcoin, bought_params, opening_hex, Ok true)] ∧
          existsb other_hash (hist (fst awaiting_out)) = false
      | None => False
      end
  | _ => False
  end.
Proof. vm_compute. split_and!; [done|repeat constructor|done..]. Qed.

(** A call after all of [h0] has [h0] before it. *)
Lemma older_suffix (h0 new post pre : History) e :
  new ++ h0 = post ++ e :: pre → (length h0 <= length pre)%nat → suffix h0 pre.
Proof.
  intros E Hl. destruct (suffix_weak_total h0 pre (new ++ h0)) as [|[x ->]]; [by exists new| |done|].
  - exists (post ++ [e]). by rewrite E, <- app_assoc.
  - rewrite length_app in Hl. destruct x; [by exists []|cbn in Hl; lia].
Qed.

Lemma only_validation pre v :
  omap validation pre = [v] →
  ∀ ch params txHex r, entry (Env.ValidateTx ch params txHex) r ∈ pre → (ch, params, txHex, r) = v.
Proof.
  intros Hone ch params txHex r He.
  assert ((ch, params, txHex, r) ∈ omap validation pre) as H by (apply list_elem_of_omap; by eexists).
  rewrite Hone in H. by apply list_elem_of_singleton in H.
Qed.
Lemma only_hash pre payreq :
  existsb other_hash pre = false →
  ∀ inv, entry (Env.DecodePayreq payreq) (Ok inv) ∈ pre → dp_paymentHash inv = demo_hex32.
Proof.
  intros Hno inv He. destruct (decide (dp_paymentHash inv = demo_hex32)) as [|Hne]; [done|].
  rewrite (proj2 (existsb_exists _ _)) in Hno; [done|]. exists (entry (Env.DecodePayreq payreq) (Ok inv)).
  split; [by apply list_elem_of_In|]. cbn. by rewrite bool_decide_false.
Qed.

Example paid_swap_is_claimable_witness :
  ∃ h w w' r, confirmed_run (EV := demo) out_sender h confirmed_out ∧
    SendEvent (H := demo) Event_OnTxConfirmed None (w, confirmed_out) = Ret w' r ∧
    existsb is_paid (hist (fst w')) = true ∧
    ∃ t' s' st,
      LndWallet.CreatePreimageSpendingTransaction (S := LndEstimator) demo_rates bought_params
        bought_cp ([], mkLndEstimator 12500) = Ret (t', s') st ∧
      spent bought_params opening_hex [] st t'.
Proof.
  pose proof confirmed_run_out as Hrun. pose proof confirmed_may as Hrec. pose proof confirmed_pays as Hpays.
  assert (PrivkeyBytes (sm_Data confirmed_out) = demo_key) as Hkey by by vm_compute.
  generalize dependent confirmed_out. generalize dependent (fst awaiting_out). intros w sm Hrun Hrec Hpays Hkey.
  assert (sm_Current out_sender ∉ paying_claim) as Hst by by_eval.
  destruct (paid_swap_is_claimable (EV := demo) demo_rates (ES1 := Lnd_EstimateFeePerKW)
    (ES2 := Lnd_EstimateFeePerKW) (inv1 := λ _, True) (inv2 := λ _, True) demo_liquid (S3 := unit)
    out_sender (hist w) sm w Event_OnTxConfirmed None Hst Hrun Hrec) as [H _].
  destruct (SendEvent _ _ _) as [[w' sm'] r| |] eqn:E; [|done..].
  exists (hist w), w, (w', sm'), r. split; [exact Hrun|]. split; [exact E|]. cbn [fst].
  destruct (split_at_call is_paid (hist w')) as [[[post e] pre]|] eqn:Hsp; [|done].
  apply split_at_call_app in Hsp as [Hsplit Hpaid]. split; [exact Hpaid|].
  destruct Hpays as (Hcall & Hlen & Hvals & Hhash).
  destruct (SendEvent_hist _ _ _ _ _ _ _ E) as [new Hnew].
  apply made_when_spec with (2 := Hsplit) in H;
    [|rewrite Hnew in Hsplit; by eapply older_suffix].
  unfold buys_output in H. rewrite Hcall in H.
  destruct H as (ch & inv & params & _ & _ & Hdec & Hval & Hclaim).
  cbn [received] in Hval, Hclaim.
  pose proof (only_validation _ _ Hvals) as Hone.
  injection (Hone _ _ _ _ Hval) as -> -> Hhex. pose proof (only_hash _ _ Hhash _ Hdec) as Hinv.
  assert (GetClaimParams (H := demo) (sm_Data sm <| ClaimPreimage := demo_hex32 |>) = bought_cp) as Hcp.
  { unfold GetClaimParams, bought_cp. cbn. by rewrite Hkey, Hhex. }
  destruct (Hclaim ltac:(by rewrite Hinv)) with demo_hex32 as [Hlnd _].
  - intros p txHex rv Hx. injection (Hone _ _ _ _ Hx) as -> -> ->. by vm_compute.
  - unfold owns_taker_key, taker_key, GetClaimParams. cbn.
    rewrite Hkey. by vm_compute.
  - rewrite Hinv. intros bytes Hb. by vm_compute in Hb; injection Hb as <-.
  - rewrite Hcp in Hlnd. destruct (Hlnd [] (mkLndEstimator 12500) I) as (t' & s' & st & Ht & _ & Hs).
    exists t', s', st. by split.
Defined.
