(* ===== verification/LndListeners.v ===== *)
(** * The payment watcher and the listeners of lnd
      (src/lnd/paymentwatcher.go, messagelistener.go, peerlistener.go)

    Each subscription is a stream that a goroutine reads; [watch_item] and its
    likes are what one item of a stream makes of the goroutine, and the goroutines
    interleave freely ([watcher_op]). *)

From S2P Require Import Prelude GoLib Messages SwapData Env Oracle.

Module ListenRpc.
(** States of an invoice. *)
Inductive InvoiceState := Invoice_OPEN | Invoice_SETTLED | Invoice_CANCELED | Invoice_ACCEPTED.
Inductive PeerEvent := PEER_ONLINE | PEER_OFFLINE | PEER_OTHER (n : Z).

Inductive Call :=
  (** the payment hash of an invoice, in hex *)
  | DecodePayReq (payreq : string)
  | SubscribeSingleInvoice (rHash : string)
  (** the next item of the stream of watch [id], or the error that ends it *)
  | RecvInvoice (id : nat) (rHash : string)
  | paymentCallback (swapId : string) (invoiceType : InvoiceType)
  | MessageHandler (i : nat) (peerId msgType payload : string)
  | PeerHandler (i : nat) (peerId : string).

Definition answer (c : Call) : Type :=
  match c with
  | DecodePayReq _ => result string
  | SubscribeSingleInvoice _ => option error
  | RecvInvoice _ _ => result InvoiceState
  | paymentCallback _ _ | PeerHandler _ _ => unit
  | MessageHandler _ _ _ _ => option error
  end.

#[export] Instance InvoiceState_eq_dec : EqDecision InvoiceState.
Proof. solve_decision. Defined.
#[export] Instance PeerEvent_eq_dec : EqDecision PeerEvent.
Proof. solve_decision. Defined.
#[export] Instance ListenCall_eq_dec : EqDecision Call.
Proof. solve_decision. Defined.
End ListenRpc.
Import ListenRpc.

(** ** The payment watcher *)

(** A goroutine that reads the stream of an invoice. *)
Record InvoiceWatch := mkInvoiceWatch {
  iw_swapId : string;
  iw_payreq : string;
  iw_invoiceType : InvoiceType;
  iw_rHash : string;
}.
Record PaymentWatcher := mkPaymentWatcher {
  has_paymentCallback : bool;
  paymentWatchers : gset string;
  running : gmap nat InvoiceWatch;
  next_id : nat;
}.
#[export] Instance eta_paymentwatcher : Eta PaymentWatcher := λ p,
  mkPaymentWatcher (has_paymentCallback p) (paymentWatchers p) (running p) (next_id p).
Definition NewPaymentWatcher : PaymentWatcher := mkPaymentWatcher false ∅ ∅ 0.

Section listeners.
Context {OR : Oracle answer}.

Section watcher.
Abbreviation Io := (IO answer PaymentWatcher).

Definition AddPaymentCallback : Io () := update (λ p, p <| has_paymentCallback := true |>).

(** The mark of the payment request stays when the subscription fails. *)
Definition AddWaitForPayment (swapId payreq : string) (invoiceType : InvoiceType) : Io () :=
  p ← look;
  if bool_decide (payreq ∈ paymentWatchers p) then mret ()
  else
    update (λ p, p <| paymentWatchers := {[ payreq ]} ∪ paymentWatchers p |>);;
    let? paymentHash := query (DecodePayReq payreq) else e => mret () in
    match hex.DecodeString paymentHash with
    | (_, Some _) => mret ()
    | (rHash, None) =>
        do? query (SubscribeSingleInvoice rHash) else e => mret () in
        update (λ p, p <| running := <[next_id p := mkInvoiceWatch swapId payreq invoiceType rHash]>
                                       (running p) |>
                       <| next_id := S (next_id p) |>)
    end.

(** The deferred deletion, and the end of the goroutine. *)
Definition end_watch (id : nat) (w : InvoiceWatch) (p : PaymentWatcher) : PaymentWatcher :=
  p <| paymentWatchers := paymentWatchers p ∖ {[ iw_payreq w ]} |> <| running := delete id (running p) |>.

(** One round of the loop of goroutine [id]. *)
Definition watch_item (id : nat) : Io () :=
  p ← look;
  match running p !! id with
  | None => mret ()
  | Some w =>
      let? state := query (RecvInvoice id (iw_rHash w)) else e => update (end_watch id w) in
      match state with
      | Invoice_SETTLED =>
          (if has_paymentCallback p then query (paymentCallback (iw_swapId w) (iw_invoiceType w));; mret ()
           else mret ());;
          update (end_watch id w)
      | Invoice_CANCELED => update (end_watch id w)
      | Invoice_OPEN | Invoice_ACCEPTED => mret ()
      end
  end.

(** Any order of registrations and items. *)
Inductive WatcherOp :=
  | op_callback
  | op_add (swapId payreq : string) (invoiceType : InvoiceType)
  | op_item (id : nat).
Definition watcher_op (o : WatcherOp) : Io () :=
  match o with
  | op_callback => AddPaymentCallback
  | op_add swapId payreq invoiceType => AddWaitForPayment swapId payreq invoiceType
  | op_item id => watch_item id
  end.
Fixpoint watcher_run (ops : list WatcherOp) : Io () :=
  match ops with
  | [] => mret ()
  | o :: ops => watcher_op o;; watcher_run ops
  end.
End watcher.

(** ** The message listener: its state is the number of handlers *)
Section messages.
Abbreviation Io := (IO answer nat).

Definition AddMessageHandler : Io () := update S.

Fixpoint message_handlers (n i : nat) (peerId msgType payload : string) : Io () :=
  match n with
  | O => mret ()
  | S n => query (MessageHandler i peerId msgType payload);;
           message_handlers n (S i) peerId msgType payload
  end.
(** A message of the stream: its peer, type and data; the errors of the handlers
    are logged. *)
Definition listen_message (Peer : string) (Type_ : Z) (Data : string) : Io () :=
  n ← look;
  message_handlers n 0 (hex.EncodeToString Peer) (MessageTypeToHexString Type_) Data.
End messages.

(** ** The peer listener: its state are the handlers of each event, by number *)
Record PeerListener := mkPeerListener { handlers : PeerEvent → list nat; next_handler : nat }.
Definition NewPeerListener : PeerListener := mkPeerListener (λ _, []) 0.

Section peers.
Abbreviation Io := (IO answer PeerListener).

Definition AddHandler (evt : PeerEvent) : Io (option error) :=
  match evt with
  | PEER_ONLINE | PEER_OFFLINE =>
      update (λ p, mkPeerListener
        (λ e, if bool_decide (e = evt) then handlers p e ++ [next_handler p] else handlers p e)
        (S (next_handler p)));;
      mret None
  | PEER_OTHER n => mret (Some (ErrText ("unknown peer event type: " +:+ strconv.Itoa n)))
  end.

Fixpoint peer_handlers (hs : list nat) (PubKey : string) : Io () :=
  match hs with
  | [] => mret ()
  | h :: hs => query (PeerHandler h PubKey);; peer_handlers hs PubKey
  end.
(** An event of the stream; the handlers are goroutines. *)
Definition listen_peer (evt : PeerEvent) (PubKey : string) : Io () :=
  p ← look; peer_handlers (handlers p evt) PubKey.
End peers.
End listeners.

(** ** What the listeners report

    A payment is reported only on a settled invoice, once per subscription; an
    invoice has one subscription at a time, and none again after a failed one. *)



Section proofs.
Context {OR : Oracle answer}.
Implicit Types (t : Trace answer) (p : PaymentWatcher).

(** The node decoded the payment request to this hash, and accepted a subscription. *)
Definition subscribed t (payreq rHash : string) : Prop :=
  ∃ hash, event (DecodePayReq payreq) (Ok hash) ∈ t ∧ hex.DecodeString hash = (rHash, None) ∧
          event (SubscribeSingleInvoice rHash) None ∈ t.

(** The subscriptions whose invoice was reported settled. *)
Definition settled_item (e : Event answer) : option nat :=
  match e with existT (RecvInvoice id _) (Ok Invoice_SETTLED) => Some id | _ => None end.

Definition payment_guard (ops : list WatcherOp) (e : Event answer) (pre : Trace answer) : Prop :=
  match question e with
  | paymentCallback swapId invoiceType =>
      ∃ id payreq rHash pre', pre = event (RecvInvoice id rHash) (Ok Invoice_SETTLED) :: pre' ∧
        op_add swapId payreq invoiceType ∈ ops ∧ subscribed pre' payreq rHash
  | _ => True
  end.

Record watcher_ok (ops : list WatcherOp) t p : Prop := {
  watch_known : ∀ id w, running p !! id = Some w →
    (id < next_id p)%nat ∧ iw_payreq w ∈ paymentWatchers p ∧
    op_add (iw_swapId w) (iw_payreq w) (iw_invoiceType w) ∈ ops ∧ subscribed t (iw_payreq w) (iw_rHash w);
  watch_unique : ∀ i j w w', running p !! i = Some w → running p !! j = Some w' →
    iw_payreq w = iw_payreq w' → i = j;
  reports_guarded : asked_when (payment_guard ops) [] t;
  settled_once : NoDup (omap settled_item t);
  settled_gone : ∀ id, id ∈ omap settled_item t → running p !! id = None ∧ (id < next_id p)%nat;
}.

Lemma subscribed_cons e t payreq rHash : subscribed t payreq rHash → subscribed (e :: t) payreq rHash.
Proof. intros (hash & ? & ? & ?). exists hash. split_and!; [by right|done|by right]. Qed.

(** A question whose answer settles nothing. *)
Lemma item_asked ops e t p :
  settled_item e = None → payment_guard ops e t → watcher_ok ops t p → watcher_ok ops (e :: t) p.
Proof.
  intros He Hg [H1 H2 H3 H4 H5]. split.
  - intros id w Hw. destruct (H1 id w Hw) as (? & ? & ? & ?). split_and!; auto using subscribed_cons.
  - done.
  - by constructor.
  - cbn. by rewrite He.
  - cbn. by rewrite He.
Qed.

(** The end of a goroutine, after its last item. *)
Lemma ok_ended ops t p id w :
  running p !! id = Some w → watcher_ok ops t p → watcher_ok ops t (end_watch id w p).
Proof.
  intros Hw [H1 H2 H3 H4 H5]. split; cbn.
  - intros id' w' [Hne Hw']%lookup_delete_Some. destruct (H1 id' w' Hw') as (? & ? & ? & ?).
    split_and!; [done| |done|done]. apply elem_of_difference. split; [done|].
    intros E%elem_of_singleton. by destruct Hne; eapply H2.
  - intros i j v v' [_ Hi]%lookup_delete_Some [_ Hj]%lookup_delete_Some. by apply H2.
  - done.
  - done.
  - intros i Hi. destruct (H5 i Hi) as [Hn ?]. split; [|done]. rewrite lookup_delete_None. by right.
Qed.

(** The last item settles the invoice. *)
Lemma ok_settled ops t p id w rHash :
  running p !! id = Some w → watcher_ok ops t p →
  watcher_ok ops (event (RecvInvoice id rHash) (Ok Invoice_SETTLED) :: t) (end_watch id w p).
Proof.
  intros Hw Hok. pose proof (ok_ended ops t p id w Hw Hok) as [H1 H2 H3 H4 H5]. split.
  - intros i v Hv. destruct (H1 i v Hv) as (? & ? & ? & ?). split_and!; auto using subscribed_cons.
  - done.
  - by constructor.
  - cbn. constructor; [|done]. intros Hin. destruct Hok as [_ _ _ _ H5'].
    destruct (H5' id Hin) as [Hn _]. by rewrite Hw in Hn.
  - cbn. intros i [->|Hi]%elem_of_cons; [|by apply H5]. split; [apply lookup_delete_eq|].
    destruct Hok as [H1' _ _ _ _]. by destruct (H1' id w Hw).
Qed.

Lemma add_ok ops swapId payreq ty t p :
  op_add swapId payreq ty ∈ ops → watcher_ok ops t p →
  wp (AddWaitForPayment swapId payreq ty) (λ _ '(t', p'), watcher_ok ops t' p') no_stop (t, p).
Proof.
  intros Hop Hok. unfold AddWaitForPayment. do 2 io_step. case_bool_decide as Hm; [by io_step|].
  do 2 io_step. set (p1 := p <| paymentWatchers := _ |>).
  assert (watcher_ok ops t p1) as Hok1.
  { destruct Hok as [H1 H2 H3 H4 H5]. split; [|done..]. intros id w Hw.
    destruct (H1 id w Hw) as (? & ? & ? & ?). split_and!; [done|cbn; set_solver|done|done]. }
  do 2 io_step. apply (item_asked ops (event (DecodePayReq payreq) (reply t (DecodePayReq payreq))))
    in Hok1; [|done|done].
  destruct (reply t (DecodePayReq payreq)) as [hash|e]; [|by io_step].
  destruct (hex.DecodeString hash) as [rHash [e|]] eqn:Hh; [by io_step|].
  do 2 io_step. set (t1 := event (DecodePayReq payreq) _ :: t) in *.
  apply (item_asked ops (event (SubscribeSingleInvoice rHash) (reply t1 (SubscribeSingleInvoice rHash))))
    in Hok1; [|done|done].
  destruct (reply t1 _) as [e|] eqn:Hr; [by io_step|]. io_step.
  destruct Hok1 as [H1 H2 H3 H4 H5]. split; cbn -[t1] in *.
  - intros id w [[<- <-]|[Hne Hw]]%lookup_insert_Some.
    + split_and!; [lia|cbn; set_solver|done|]. exists hash. split_and!; [right; left|done|left].
    + destruct (H1 id w Hw) as (? & ? & ? & ?). split_and!; [lia|done|done|done].
  - intros i j w w' [[<- <-]|[Hi Hw]]%lookup_insert_Some [[<- <-]|[Hj Hw']]%lookup_insert_Some E;
      [done|..|by eapply H2]; cbn in E; destruct Hok as [H1' _ _ _ _]; exfalso; apply Hm.
    + rewrite E. by eapply H1'.
    + rewrite <- E. by eapply H1'.
  - done.
  - done.
  - intros i Hi. destruct (H5 i Hi) as [Hn Hlt]. split; [|lia].
    rewrite lookup_insert_None. split; [done|lia].
Qed.

Lemma item_ok ops id t p :
  watcher_ok ops t p → wp (watch_item id) (λ _ '(t', p'), watcher_ok ops t' p') no_stop (t, p).
Proof.
  intros Hok. unfold watch_item. do 2 io_step.
  destruct (running p !! id) as [w|] eqn:Hw; [|by io_step]. do 2 io_step.
  destruct (reply t (RecvInvoice id (iw_rHash w))) as [[]|e].
  - io_step. by apply item_asked.
  - io_step. destruct (has_paymentCallback p).
    + do 4 io_step. apply item_asked; [done| |by apply ok_settled].
      destruct (watch_known _ _ _ Hok id w Hw) as (_ & _ & Hop & Hs). cbn. by eexists _, _, _, _.
    + do 2 io_step. by apply ok_settled.
  - io_step. apply ok_ended; [done|]. by apply item_asked.
  - io_step. by apply item_asked.
  - io_step. apply ok_ended; [done|]. by apply item_asked.
Qed.

Lemma run_ok all ops t p :
  (∀ o, o ∈ ops → o ∈ all) → watcher_ok all t p →
  wp (watcher_run ops) (λ _ '(t', p'), watcher_ok all t' p') no_stop (t, p).
Proof.
  revert t p. induction ops as [|o ops IH]; intros t p Hall Hok; cbn [watcher_run]; [by io_step|].
  io_step. eapply (wp_mono _ (λ _ '(t', p'), watcher_ok all t' p'));
    [|intros [] [t' p'] H; apply IH; [|exact H]|done].
  - destruct o as [|swapId payreq ty|id]; cbn [watcher_op].
    + unfold AddPaymentCallback. io_step. by destruct Hok.
    + apply add_ok; [|done]. apply Hall. by left.
    + by apply item_ok.
  - intros o' Ho. apply Hall. by right.
Qed.

(** C19. The payment watcher of lnd reports payments only: over any order of
    registrations and stream items, and whatever the node answers, the run ends; a
    payment of a swap is reported only for an invoice that was registered for it,
    right after its own subscription delivered it as settled, and no subscription
    reports twice; and an invoice has at most one running subscription. *)
Theorem payment_reports_sound (ops : list WatcherOp) :
  ∃ t p, watcher_run ops ([], NewPaymentWatcher) = Ret (t, p) () ∧
    asked_when (payment_guard ops) [] t ∧
    NoDup (omap settled_item t) ∧
    (∀ i j w w', running p !! i = Some w → running p !! j = Some w' →
       iw_payreq w = iw_payreq w' → i = j).
Proof.
  assert (watcher_ok ops [] NewPaymentWatcher) as H0.
  { split; cbn; [by intros ? ? ?%lookup_empty_Some|by intros ? ? ? ? ?%lookup_empty_Some
      |constructor|constructor|by intros ? ?%elem_of_nil]. }
  destruct (wp_total _ _ _ (run_ok ops ops _ _ (λ o Ho, Ho) H0)) as ([t p] & [] & E & [H1 H2 H3 H4 H5]).
  exists t, p. by split_and!.
Qed.

(** ** Lost invoices *)
Definition lost payreq p : Prop :=
  payreq ∈ paymentWatchers p ∧ ∀ id w, running p !! id = Some w → iw_payreq w ≠ payreq.

(** An invoice whose subscription failed is marked without a watch, and from then on
    it is never subscribed to again. *)
Lemma failed_subscription_is_lost swapId payreq ty t p :
  payreq ∉ paymentWatchers p →
  (∀ id w, running p !! id = Some w → iw_payreq w ∈ paymentWatchers p) →
  is_ok (reply t (DecodePayReq payreq)) = false →
  ∃ t' p', AddWaitForPayment swapId payreq ty (t, p) = Ret (t', p') () ∧ lost payreq p'.
Proof.
  intros Hm Hw Hd. unfold AddWaitForPayment, mbind, M_bind, look, update, query.
  rewrite bool_decide_false by done. destruct (reply t (DecodePayReq payreq)); [done|].
  eexists _, _. split; [reflexivity|]. split; cbn; [set_solver|].
  intros id w Hid E. apply Hm. rewrite <- E. by eapply Hw.
Qed.
Lemma lost_stays payreq o t p :
  lost payreq p →
  wp (watcher_op o) (λ _ '(t', p'), lost payreq p' ∧
      ∃ new, t' = new ++ t ∧ ∀ a, event (DecodePayReq payreq) a ∉ new) no_stop (t, p).
Proof.
  intros [Hm Hw]. assert (∀ t, ∃ new, t = new ++ t ∧ ∀ a, event (DecodePayReq payreq) a ∉ new) as Hnil.
  { intros t0. exists []. split; [done|]. by intros a ?%elem_of_nil. }
  destruct o as [|swapId payreq' ty|id]; cbn [watcher_op].
  - unfold AddPaymentCallback. io_step. split; [done|apply Hnil].
  - unfold AddWaitForPayment. do 2 io_step.
    case_bool_decide as Hm'; [io_step; split; [done|apply Hnil]|].
    assert (payreq' ≠ payreq) as Hne by (by intros ->). do 4 io_step.
    assert (∀ q a, (∀ b, event q a ≠ event (DecodePayReq payreq) b) → 
      ∀ t, ∃ new, event q a :: t = new ++ t ∧ ∀ a, event (DecodePayReq payreq) a ∉ new) as H1.
    { intros q a Hq t0. exists [event q a]. split; [done|].
      intros b E%list_elem_of_singleton. by eapply Hq. }
    assert (lost payreq (p <| paymentWatchers := {[payreq']} ∪ paymentWatchers p |>)) as Hlost
      by (split; [cbn; set_solver|exact Hw]).
    destruct (reply t (DecodePayReq payreq')) as [hash|e].
    2:{ io_step. split; [done|]. apply H1. intros b E%(f_equal question). cbn in E. congruence. }
    destruct (hex.DecodeString hash) as [rHash [e|]].
    { io_step. split; [done|]. apply H1. intros b E%(f_equal question). cbn in E. congruence. }
    do 2 io_step. 
    assert (∀ a, ∃ new, event (SubscribeSingleInvoice rHash) a :: event (DecodePayReq payreq') (Ok hash) :: t
       = new ++ t ∧ ∀ a, event (DecodePayReq payreq) a ∉ new) as H2.
    { intros a. exists [event (SubscribeSingleInvoice rHash) a; event (DecodePayReq payreq') (Ok hash)].
      split; [done|]. intros b [E|E%list_elem_of_singleton]%elem_of_cons;
        apply (f_equal question) in E; cbn in E; congruence. }
    destruct (reply _ (SubscribeSingleInvoice rHash)) as [e|]; [io_step; split; [done|apply H2]|].
    io_step. split; [|apply H2]. split; cbn; [set_solver|].
    intros i w [[<- <-]|[_ Hi]]%lookup_insert_Some; [done|by eapply Hw].
  - unfold watch_item. do 2 io_step.
    destruct (running p !! id) as [w|] eqn:Hid; [|io_step; split; [done|apply Hnil]].
    assert (lost payreq (end_watch id w p)) as Hlost.
    { split; cbn.
      - apply elem_of_difference. split; [done|]. intros E%elem_of_singleton. by eapply Hw.
      - intros i w' [_ Hi]%lookup_delete_Some. by eapply Hw. }
    assert (∀ evs, (∀ e, e ∈ evs → ∀ q, question e ≠ DecodePayReq q) →
      ∃ new, evs ++ t = new ++ t ∧ ∀ a, event (DecodePayReq payreq) a ∉ new) as H1.
    { intros evs Hevs. exists evs. split; [done|]. intros a Hin. by eapply (Hevs _ Hin). }
    do 2 io_step. destruct (reply t (RecvInvoice id (iw_rHash w))) as [[]|e].
    + io_step. split; [done|]. apply (H1 [_]). by intros e ->%list_elem_of_singleton.
    + io_step. destruct (has_paymentCallback p).
      * do 4 io_step. split; [done|]. apply (H1 [_; _]).
        by intros e [->| ->%list_elem_of_singleton]%elem_of_cons.
      * do 2 io_step. split; [done|]. apply (H1 [_]). by intros e ->%list_elem_of_singleton.
    + io_step. split; [done|]. apply (H1 [_]). by intros e ->%list_elem_of_singleton.
    + io_step. split; [done|]. apply (H1 [_]). by intros e ->%list_elem_of_singleton.
    + io_step. split; [done|]. apply (H1 [_]). by intros e' ->%list_elem_of_singleton.
Qed.
End proofs.
