(* ===== verification/ElementsWallet.v ===== *)
(** * The wallet over elementsd (src/wallet/elementsrpcwallet.go)

    The rpc calls of elementsd are questions.  Fee rates are float64 values: they
    are [spec_float]s, with the operations of SpecFloat in the format of 53 bits. *)

From Stdlib Require Import SpecFloat.
From S2P Require Import Prelude GoLib SwapData Env Oracle OpeningScript BitcoinOnChain LiquidOnChain.

(** ** float64 *)
Definition f64 : Type := spec_float.
Definition f64_mul : f64 → f64 → f64 := SFmul 53 1024.
Definition f64_div : f64 → f64 → f64 := SFdiv 53 1024.
(** [float64(n)] of an integer. *)
Definition f64_of_Z (n : Z) : f64 := binary_normalize 53 1024 n 0 false.

(** [math.Max]. *)
Definition math_Max (x y : f64) : f64 :=
  match x, y with
  | S754_infinity false, _ | _, S754_infinity false => S754_infinity false
  | S754_nan, _ | _, S754_nan => S754_nan
  | S754_zero sx, S754_zero _ => if sx then y else x
  | _, _ => match SFcompare x y with Some Gt => x | _ => y end
  end.

(** The integer part of a value, and [uint64(f)]: out of range it is 2^63, as on amd64. *)
Definition f64_trunc (f : f64) : option Z :=
  match f with
  | S754_zero _ => Some 0
  | S754_finite s m e =>
      let n := if 0 <=? e then Z.pos m * 2 ^ e else Z.pos m / 2 ^ (- e) in
      Some (if s then - n else n)
  | _ => None
  end.
Definition f64_to_uint64 (f : f64) : Z :=
  match f64_trunc f with
  | Some n => if n <? - 2 ^ 63 then 2 ^ 63 else if n <? 2 ^ 64 then u64 n else 2 ^ 63
  | None => 2 ^ 63
  end.
(** [math.Round]: the nearest integer, ties away from zero. *)
Definition math_Round (f : f64) : f64 :=
  match f with
  | S754_finite s m e =>
      if 0 <=? e then f
      else
        let n := (Z.pos m + 2 ^ (- e - 1)) / 2 ^ (- e) in
        binary_normalize 53 1024 (if s then - n else n) 0 s
  | _ => f
  end.

Definition satsPerBTC : Z := 100000000.
Definition kb : Z := 1000.
Definition btcToSatoshiExp : Z := 8.
Definition LiquidTargetBlocks : Z := 7.
(** The float64 nearest to 0.000001. *)
Definition minFeeRateBTCPerKb : f64 := S754_finite false 4722366482869645 (-72).

Definition MinRelayFeeNotMetError : error :=
  ErrSentinel "wallet.MinRelayFeeNotMetError" "MinRelayFee not met".

(** ** [SatsToBTCString]: [%d.%08d] *)
Definition pad_zeros (n : nat) (s : string) : string :=
  Nat.iter (n - String.length s) (String "0") s.
Definition SatsToBTCString (sats : Z) : string :=
  strconv.Itoa (sats / satsPerBTC) +:+ "." +:+ pad_zeros 8 (strconv.Itoa (sats mod satsPerBTC)).

(** ** The rpc *)
Record FeeResponse := mkFeeResponse { FeeRate : f64; Errors : list string }.

Module ElementsRpc.
Inductive Call :=
  | GetNewAddress (addrType : Z)
  | SendToAddress (address amount : string)
  | GetBalance
  | LoadWallet (filename : string) (loadonstartup : bool)
  | CreateWallet (walletname : string)
  | SetRpcWallet (walletname : string)
  | ListWallets
  (** the transaction and the fee rate *)
  | FundRawWithOptions (txstring : string) (feeRate : string)
  | BlindRawTransaction (txHex : string)
  | SignRawTransactionWithWallet (txHex : string)
  | SendRawTx (txHex : string)
  | EstimateFee (blocks : Z) (mode : string)
  | SetLabel (address label : string)
  | Ping
  | DecodeRawTx (txstring : string).

Definition answer (c : Call) : Type :=
  match c with
  | GetNewAddress _ | SendToAddress _ _ | LoadWallet _ _ | CreateWallet _
  | BlindRawTransaction _ | SignRawTransactionWithWallet _ => result string
  | GetBalance => result Z
  | SetRpcWallet _ => unit
  | ListWallets => result (list string)
  (** the funded transaction and its fee *)
  | FundRawWithOptions _ _ => result (string * f64)
  (** the code of an rpc error *)
  | SendRawTx _ => string + (error * option Z)
  | EstimateFee _ _ => result FeeResponse
  | SetLabel _ _ => option error
  | Ping => bool * option error
  (** the discount virtual size *)
  | DecodeRawTx _ => result Z
  end.
#[export] Instance ElementsCall_eq_dec : EqDecision Call.
Proof. solve_decision. Defined.
End ElementsRpc.
Import ElementsRpc.

Section wallet.
Context {CL : ChainLib} {SR : ScriptRules} {EL : ElementsLib} {OR : Oracle answer}.
(** [ElementsRpcWallet]: the name of the wallet; the example transaction of
    [acceptdiscountctIsEnabled]; the conversion of BTC to satoshi of gelements *)
Context (walletName exampleTransaction : string) (ConvertBtc : f64 → Z) {S : Type}.
Abbreviation Io := (IO answer S).

Definition FinalizeTransaction (rawTx : string) : Io (result string) :=
  try unblinded := query (BlindRawTransaction rawTx) in
  query (SignRawTransactionWithWallet unblinded).

Definition wallet_SendRawTx (txHex : string) : Io (result string) :=
  r ← query (SendRawTx txHex);
  mret match r with
       | inl raw => Ok raw
       | inr (e, code) => if bool_decide (code = Some (-26)) then Err MinRelayFeeNotMetError else Err e
       end.

(** *** Fees *)
Definition getFeeRate : Io (result f64) :=
  try feeRes := query (EstimateFee LiquidTargetBlocks "ECONOMICAL") in
  match Errors feeRes with
  | [] => mret (Ok (math_Max minFeeRateBTCPerKb (FeeRate feeRes)))
  | _ => mret (Ok minFeeRateBTCPerKb)
  end.

(** The fee in sat of [txSize] bytes at a rate in BTC/kB. *)
Definition wallet_fee (feeRate : f64) (txSize : Z) : Z :=
  let satPerByte := f64_div (f64_mul feeRate (f64_of_Z (10 ^ btcToSatoshiExp))) (f64_of_Z kb) in
  f64_to_uint64 (f64_mul satPerByte (f64_of_Z txSize)).
Definition wallet_GetFee (txSize : Z) : Io (result Z) :=
  let? feeRate := getFeeRate
    else e => mret (Err (ErrText ("error getting fee rate: " +:+ Error e))) in
  mret (Ok (wallet_fee feeRate txSize)).

(** The rate for funding, in sat/kB. *)
Definition sat_per_kb (feerate : f64) : Z :=
  f64_to_uint64 (math_Round (f64_mul feerate (f64_of_Z satsPerBTC))).

(** *** The opening transaction: its id, its hex and its fee *)
Definition wallet_CreateAndBroadcastTransaction (swapParams : OpeningParams)
    (OpeningAddress asset : string) : Io (result (string * string * Z)) :=
  take outputscript := ToOutputScript OpeningAddress in
  take sats := ValueToBytes (op_Amount swapParams) in
  key ← deref (op_BlindingKey swapParams);
  let output := mkLTxOut asset sats outputscript (el_PubKey key) "" "" in
  take txHex := ToHex (mkLTx [] [output]) in
  try feerate := getFeeRate in
  try fundedTx := query (FundRawWithOptions txHex (SatsToBTCString (sat_per_kb feerate))) in
  try finalized := FinalizeTransaction (fst fundedTx) in
  try txid := wallet_SendRawTx finalized in
  mret (Ok (txid, finalized, ConvertBtc (snd fundedTx))).

(** *** Setting up *)
Definition acceptdiscountctIsEnabled : Io (result bool) :=
  let? DiscountVirtualSize := query (DecodeRawTx exampleTransaction)
    else e => mret (Err (ErrText ("failed to check acceptdiscountctIsEnabled: " +:+ Error e))) in
  mret (Ok (negb (DiscountVirtualSize =? 0))).

Definition loadable (e : error) : bool :=
  contains (Error e) "Wallet file verification failed" || contains (Error e) "not found".

(** Load the wallet, or create it. *)
Definition load_or_create : Io (option error) :=
  let? loaded := query (LoadWallet walletName true) else e =>
    (if loadable e then
       let? created := query (CreateWallet walletName) else e => mret (Some e) in mret None
     else mret (Some e)) in
  mret None.

Definition setupWallet : Io (option error) :=
  let? loadedWallets := query ListWallets else e => mret (Some e) in
  do? (if bool_decide (walletName ∈ loadedWallets) then mret None else load_or_create)
    else e => mret (Some e) in
  query (SetRpcWallet walletName);;
  let? enabled := acceptdiscountctIsEnabled else e => mret (Some e) in
  mret (if enabled : bool then None else Some (ErrText "accept-discount-ct is not enabled")).

(** *** Forwarding *)
Definition wallet_GetBalance : Io (result Z) := query GetBalance.
Definition wallet_GetAddress : Io (result string) := query (GetNewAddress 3).
Definition wallet_SendToAddress (address : string) (amount : Z) : Io (result string) :=
  query (SendToAddress address (SatsToBTCString amount)).
Definition wallet_SetLabel (txID address label : string) : Io (option error) :=
  query (SetLabel address label).
Definition wallet_Ping : Io (bool * option error) := query Ping.
End wallet.

(** ** What the wallet does

    Amounts are printed exactly; an opening transaction that is broadcast is the
    funded, blinded and signed form of one with the single output of the swap; and
    setting up creates a wallet only when there is none. *)



(** ** Amounts *)
Lemma digits_app base acc s t :
  strconv.digits base acc (s +:+ t) = v ← strconv.digits base acc s; strconv.digits base v t.
Proof.
  revert acc. induction s as [|c s IH]; intros acc; [done|].
  change (strconv.digits base acc (String c (s +:+ t)) = v ← strconv.digits base acc (String c s);
          strconv.digits base v t). cbn [strconv.digits].
  destruct (hex.fromHexChar c); [|done]. case_bool_decide; [|done]. apply IH.
Qed.
Lemma digits_acc acc s v :
  strconv.digits 10 0 s = Some v →
  strconv.digits 10 acc s = Some (acc * 10 ^ Z.of_nat (String.length s) + v).
Proof.
  enough (∀ a, strconv.digits 10 a s = Some v →
    strconv.digits 10 (acc + a) s = Some (acc * 10 ^ Z.of_nat (String.length s) + v)) as H.
  { intros Hv. rewrite <- (Z.add_0_r acc) at 1. by apply H. }
  revert acc v. induction s as [|c s IH]; intros acc v a; cbn [strconv.digits String.length].
  - intros [= ->]. f_equal. lia.
  - destruct (hex.fromHexChar c) as [d|]; [|done]. case_bool_decide; [|done]. intros Hv.
    replace ((acc + a) * 10 + Z.of_nat d) with (acc * 10 + (a * 10 + Z.of_nat d)) by lia.
    rewrite (IH _ _ _ Hv). f_equal. rewrite Nat2Z.inj_succ, Z.pow_succ_r by lia. lia.
Qed.
Lemma digits_Itoa n : 0 ≤ n → strconv.digits 10 0 (strconv.Itoa n) = Some n.
Proof.
  intros Hn. unfold strconv.Itoa. destruct n as [|p|p]; [done| |lia].
  change (strconv.digits 10 0 (pretty.pretty_N_go (N.pos p) "") = Some (Z.pos p)).
  by rewrite strconv.digits_pretty_go.
Qed.

Lemma pretty_go_length k x s :
  (x < 10 ^ N.of_nat k)%N → (String.length (pretty.pretty_N_go x s) ≤ k + String.length s)%nat.
Proof.
  revert x s. induction k as [|k IH]; intros x s Hx.
  - assert (x = 0)%N as -> by (cbn in Hx; lia). by rewrite pretty.pretty_N_go_0.
  - destruct (decide (x = 0)%N) as [->|]; [rewrite pretty.pretty_N_go_0; lia|].
    rewrite pretty.pretty_N_go_step by lia. rewrite Nat2N.inj_succ, N.pow_succ_r in Hx by lia.
    etransitivity; [apply IH, N.Div0.div_lt_upper_bound; lia|]. cbn. lia.
Qed.
Lemma Itoa_length k n :
  0 ≤ n < 10 ^ Z.of_nat k → (0 < k)%nat → (String.length (strconv.Itoa n) ≤ k)%nat.
Proof.
  intros Hn Hk. unfold strconv.Itoa. destruct n as [|p|p]; [cbn; lia| |lia].
  change (String.length (pretty.pretty_N_go (N.pos p) "") ≤ k)%nat.
  etransitivity; [apply (pretty_go_length k)|cbn; lia].
  apply N2Z.inj_lt. rewrite N2Z.inj_pow. cbn. rewrite nat_N_Z. lia.
Qed.

Lemma pad_zeros_spec n s :
  (String.length s ≤ n)%nat →
  String.length (pad_zeros n s) = n ∧
  strconv.digits 10 0 (pad_zeros n s) = strconv.digits 10 0 s.
Proof.
  intros Hle. unfold pad_zeros. remember (n - String.length s)%nat as k eqn:Hk.
  assert (n = k + String.length s)%nat as -> by lia. clear Hk Hle.
  induction k as [|k [IH1 IH2]]; [done|]. split.
  - change (S (String.length (Nat.iter k (String "0") s)) = S (k + String.length s)). by rewrite IH1.
  - change (strconv.digits 10 0 (Nat.iter k (String "0") s) = strconv.digits 10 0 s). exact IH2.
Qed.

(** Amounts are printed without loss: the string of an amount in satoshi has exactly
    eight decimals, and its digits without the point are the amount. *)
Theorem SatsToBTCString_exact (sats : Z) :
  is_u64 sats →
  ∃ whole frac, SatsToBTCString sats = whole +:+ "." +:+ frac ∧ String.length frac = 8%nat ∧
    strconv.digits 10 0 (whole +:+ frac) = Some sats.
Proof.
  intros Hs. unfold is_u64 in Hs. pose proof (Z.mod_pos_bound sats satsPerBTC ltac:(done)) as Hmod.
  assert (0 ≤ sats / satsPerBTC) as Hdiv by (apply Z.div_pos; [lia|done]).
  destruct (pad_zeros_spec 8 (strconv.Itoa (sats mod satsPerBTC))) as [Hlen Hval].
  { apply Itoa_length; [|lia]. change (10 ^ Z.of_nat 8) with satsPerBTC. lia. }
  eexists _, _. split; [reflexivity|]. split; [exact Hlen|].
  rewrite digits_app, digits_Itoa by done. cbn [mbind option_bind].
  rewrite digits_Itoa in Hval by lia. rewrite (digits_acc _ _ _ Hval), Hlen.
  change (10 ^ Z.of_nat 8) with satsPerBTC. f_equal.
  pose proof (Z.div_mod sats satsPerBTC ltac:(done)). lia.
Qed.
Lemma SatsToBTCString_exact_witness :
  SatsToBTCString 2099999997690001 = "20999999.97690001" ∧
  ∃ whole frac, SatsToBTCString 2099999997690001 = whole +:+ "." +:+ frac ∧
    String.length frac = 8%nat ∧ strconv.digits 10 0 (whole +:+ frac) = Some 2099999997690001.
Proof.
  split; [by vm_compute|]. apply (SatsToBTCString_exact 2099999997690001). unfold is_u64. lia.
Defined.

Section wallet.
Context {CL : ChainLib} {SR : ScriptRules} {EL : ElementsLib} {OR : Oracle answer}.
Context (walletName exampleTransaction : string) (ConvertBtc : spec_float → Z) {S : Type}.
Implicit Types (t : Trace answer) (s : S).

(** [rawTx] is the funded, blinded and signed form of the transaction with the one
    output of the swap. *)
Definition opening_of (p : OpeningParams) (addr asset : string) t (rawTx : string) (fee : spec_float)
    : Prop :=
  ∃ script sats key txHex rate funded blinded,
    ToOutputScript addr = Ok script ∧ ValueToBytes (op_Amount p) = Ok sats ∧
    op_BlindingKey p = Some key ∧
    ToHex (mkLTx [] [mkLTxOut asset sats script (el_PubKey key) "" ""]) = Ok txHex ∧
    event (FundRawWithOptions txHex (SatsToBTCString (sat_per_kb rate))) (Ok (funded, fee)) ∈ t ∧
    event (BlindRawTransaction funded) (Ok blinded) ∈ t ∧
    event (SignRawTransactionWithWallet blinded) (Ok rawTx) ∈ t.

Definition is_send (e : Event answer) : bool :=
  match question e with SendRawTx _ => true | _ => false end.

Lemma getFeeRate_spec t s (P : result spec_float → Trace answer * S → Prop) R :
  (∀ r, P r (event (EstimateFee LiquidTargetBlocks "ECONOMICAL")
               (reply t (EstimateFee LiquidTargetBlocks "ECONOMICAL")) :: t, s)) →
  wp getFeeRate P R (t, s).
Proof.
  intros HP. unfold getFeeRate. do 2 io_step.
  destruct (reply t _) as [r|e]; [|by apply wp_ret]. by destruct (Errors r); apply wp_ret.
Qed.

(** A run from [t] and [s] that broadcast the opening transaction, or nothing. *)
Definition broadcast_once (p : OpeningParams) (addr asset : string) t s
    (r : result (string * string * Z)) (st : Trace answer * S) : Prop :=
  snd st = s ∧ ∃ new, fst st = new ++ t ∧
    (∀ rawTx a, event (SendRawTx rawTx) a ∈ new → ∃ fee, opening_of p addr asset new rawTx fee) ∧
    match r with
    | Ok (txid, rawTx, fee) => event (SendRawTx rawTx) (inl txid) ∈ new ∧
        ∃ fee', opening_of p addr asset new rawTx fee' ∧ fee = ConvertBtc fee'
    | Err _ => ∀ rawTx txid, event (SendRawTx rawTx) (inl txid) ∉ new
    end.

Lemma no_sends (new : Trace answer) rawTx a :
  forallb (negb ∘ is_send) new = true → event (SendRawTx rawTx) a ∉ new.
Proof. intros Hn Hin%list_elem_of_In. by apply (proj1 (forallb_forall _ _) Hn) in Hin. Qed.
Lemma nothing_sent p addr asset t s new e :
  forallb (negb ∘ is_send) new = true → broadcast_once p addr asset t s (Err e) (new ++ t, s).
Proof.
  intros Hn. split; [done|]. exists new. split; [done|].
  split; [intros rawTx a Hin|intros rawTx txid Hin]; by apply no_sends in Hin.
Qed.

Lemma opening_of_cons p addr asset e t rawTx fee :
  opening_of p addr asset t rawTx fee → opening_of p addr asset (e :: t) rawTx fee.
Proof.
  intros (script & sats & key & txHex & rate & funded & blinded & ? & ? & ? & ? & ? & ? & ?).
  exists script, sats, key, txHex, rate, funded, blinded. split_and!; try done; by right.
Qed.

(** The last call, after the transaction was signed. *)
Lemma last_call_sends p addr asset t s new rawTx fee R :
  forallb (negb ∘ is_send) new = true → opening_of p addr asset new rawTx fee →
  wp (try txid := wallet_SendRawTx rawTx in mret (Ok (txid, rawTx, ConvertBtc fee)))
    (broadcast_once p addr asset t s) R (new ++ t, s).
Proof.
  intros Hn Ho. unfold wallet_SendRawTx. do 3 io_step. set (q := SendRawTx rawTx).
  assert (∀ rawTx' a a', event (SendRawTx rawTx') a' ∈ event q a :: new →
    rawTx' = rawTx ∧ event (SendRawTx rawTx') a' = event q a) as Honly.
  { intros rawTx' a a' [E|Hin]%elem_of_cons; [|by apply no_sends in Hin].
    split; [|done]. by injection (f_equal question E). }
  apply (opening_of_cons _ _ _ (event q (reply (new ++ t) q))) in Ho.
  destruct (reply (new ++ t) q) as [raw|[e code]]; io_step.
  - io_step. split; [done|]. exists (event q (inl raw) :: new). split; [done|].
    split; [|split; [left|by exists fee]].
    intros rawTx' a' [-> _]%Honly. by exists fee.
  - assert (∀ e', broadcast_once p addr asset t s (Err e') (event q (inr (e, code)) :: new ++ t, s)) as H.
    { intros e'. split; [done|]. exists (event q (inr (e, code)) :: new). split; [done|]. split.
      - intros rawTx' a' [-> _]%Honly. by exists fee.
      - intros rawTx' txid [-> E]%Honly. by apply event_inj in E. }
    case_bool_decide; io_step; apply H.
Qed.

(** C20. The elements wallet broadcasts the opening transaction of the swap or nothing:
    the call ends, unless there is no blinding key; a transaction is only broadcast
    when it is the funded, blinded and signed form of the transaction whose one
    output pays the amount in the asset to the opening address, for the swap's
    blinding key; a result carries the id and the hex of the transaction that was
    taken, and an error means that none was taken. *)
Theorem wallet_broadcasts_opening (p : OpeningParams) (addr asset : string) t s :
  match wallet_CreateAndBroadcastTransaction ConvertBtc p addr asset (t, s) with
  | Ret st r => broadcast_once p addr asset t s r st
  | Panic st => st = (t, s) ∧ op_BlindingKey p = None
  | NoFuel _ => False
  end.
Proof.
  enough (wp (wallet_CreateAndBroadcastTransaction ConvertBtc p addr asset)
    (broadcast_once p addr asset t s)
    (λ k st, k = Panicked ∧ st = (t, s) ∧ op_BlindingKey p = None) (t, s)) as H.
  { unfold wp in H. destruct (wallet_CreateAndBroadcastTransaction _ _ _ _ _);
      [exact H|by destruct H|by destruct H]. }
  unfold wallet_CreateAndBroadcastTransaction.
  destruct (ToOutputScript addr) as [script|e] eqn:Hscript; [|io_step; by apply (nothing_sent _ _ _ _ _ [])].
  destruct (ValueToBytes (op_Amount p)) as [sats|e] eqn:Hsats; [|io_step; by apply (nothing_sent _ _ _ _ _ [])].
  io_step. apply wp_deref; [|done]. intros key Hkey. cbv zeta.
  destruct (ToHex _) as [txHex|e] eqn:Hhex; [|io_step; by apply (nothing_sent _ _ _ _ _ [])].
  io_step. apply getFeeRate_spec. intros [rate|e]; [|io_step; by apply (nothing_sent _ _ _ _ _ [_])].
  do 2 io_step. set (t1 := event (EstimateFee _ _) _ :: t).
  destruct (reply t1 (FundRawWithOptions _ _)) as [[funded fee]|e];
    [|io_step; by apply (nothing_sent _ _ _ _ _ [_; _])].
  cbn [fst snd]. unfold FinalizeTransaction. do 3 io_step. set (t2 := event (FundRawWithOptions _ _) _ :: t1).
  destruct (reply t2 (BlindRawTransaction funded)) as [blinded|e];
    [|do 2 io_step; by apply (nothing_sent _ _ _ _ _ [_; _; _])].
  io_step. set (t3 := event (BlindRawTransaction _) _ :: t2).
  destruct (reply t3 (SignRawTransactionWithWallet blinded)) as [rawTx|e];
    [|io_step; by apply (nothing_sent _ _ _ _ _ [_; _; _; _])].
  apply (last_call_sends _ _ _ _ _ [_; _; _; _]); [done|].
  exists script, sats, key, txHex, rate, funded, blinded.
  do 4 (split; [done|]). split; [do 2 right; left|]. split; [right; left|left].
Qed.

(** ** Setting up *)

(** Every wallet that was created could not be found or verified. *)
Definition creates_missing (new : Trace answer) : Prop :=
  ∀ name a, event (CreateWallet name) a ∈ new → name = walletName ∧
    ∃ e, event (LoadWallet walletName true) (Err e) ∈ new ∧ loadable e = true.

Lemma creates_cons q a new :
  (∀ name, q ≠ CreateWallet name) → creates_missing new → creates_missing (event q a :: new).
Proof.
  intros Hq Hn name b [E|Hin]%elem_of_cons.
  - apply (f_equal question) in E. by destruct (Hq name).
  - destruct (Hn name b Hin) as [-> (e & He & ?)]. split; [done|]. exists e. split; [by right|done].
Qed.

Lemma creates_app new new' : creates_missing new → creates_missing new' → creates_missing (new ++ new').
Proof.
  intros H H' name a [Hin|Hin]%elem_of_app; [destruct (H name a Hin) as [-> (e & ? & ?)]
    |destruct (H' name a Hin) as [-> (e & ? & ?)]]; (split; [done|]); exists e;
    (split; [apply elem_of_app; by (left + right)|done]).
Qed.

Lemma load_or_create_spec t s :
  wp (load_or_create walletName) (λ r '(t', s'), s' = s ∧ ∃ new, t' = new ++ t ∧ creates_missing new)
    no_stop (t, s).
Proof.
  unfold load_or_create. do 2 io_step.
  destruct (reply t (LoadWallet walletName true)) as [x|e].
  { io_step. split; [done|]. exists [event (LoadWallet walletName true) (Ok x)]. split; [done|].
    apply creates_cons; [done|]. by intros ? ? ?%elem_of_nil. }
  assert (creates_missing [event (LoadWallet walletName true) (Err e)]) as Hload
    by (apply creates_cons; [done|]; by intros ? ? ?%elem_of_nil).
  destruct (loadable e) eqn:Hl.
  - do 2 io_step. set (t1 := event (LoadWallet _ _) _ :: t).
    assert (∀ a, creates_missing [event (CreateWallet walletName) a; event (LoadWallet walletName true) (Err e)])
      as H.
    { intros a name b [E|Hin]%elem_of_cons; [|by apply list_elem_of_singleton, (f_equal question) in Hin].
      apply (f_equal question) in E. injection E as ->. split; [done|]. exists e. split; [right; left|done]. }
    destruct (reply t1 (CreateWallet walletName)); io_step; (split; [done|]);
      eexists [_; _]; (split; [reflexivity|]); apply H.
  - io_step. split; [done|]. eexists [_]. split; [reflexivity|]. exact Hload.
Qed.

(** Setting up ends; without an error the wallet was selected and elementsd accepts
    discounted transactions; and a wallet is created only when elementsd could not
    find or verify its file. *)
Lemma setup_selects_wallet t s :
  wp (setupWallet walletName exampleTransaction)
    (λ r '(t', s'), s' = s ∧ ∃ new, t' = new ++ t ∧ creates_missing new ∧
       (r = None → event (SetRpcWallet walletName) tt ∈ new ∧
          ∃ size, event (DecodeRawTx exampleTransaction) (Ok size) ∈ new ∧ size ≠ 0))
    no_stop (t, s).
Proof.
  unfold setupWallet. do 2 io_step. set (e0 := event ListWallets _).
  assert (creates_missing [e0]) as H0 by (apply creates_cons; [done|]; by intros ? ? ?%elem_of_nil).
  destruct (reply t ListWallets) as [ws|e]; [|io_step; split; [done|]; by exists [e0]].
  assert (∀ r new, creates_missing new →
    wp (match r with
        | Some e => mret (Some e)
        | None =>
            query (SetRpcWallet walletName);;
            let? enabled := acceptdiscountctIsEnabled exampleTransaction else e => mret (Some e) in
            mret (if enabled : bool then None else Some (ErrText "accept-discount-ct is not enabled"))
        end)
      (λ r '(t', s'), s' = s ∧ ∃ new, t' = new ++ t ∧ creates_missing new ∧
         (r = None → event (SetRpcWallet walletName) tt ∈ new ∧
            ∃ size, event (DecodeRawTx exampleTransaction) (Ok size) ∈ new ∧ size ≠ 0))
      no_stop (new ++ t, s)) as Hrest.
  { intros [e|] new Hnew; [io_step; split; [done|]; by exists new|]. do 2 io_step. unfold acceptdiscountctIsEnabled. do 3 io_step.
    set (t1 := event (SetRpcWallet walletName) _ :: new ++ t).
    apply (creates_cons (SetRpcWallet walletName) (reply (new ++ t) (SetRpcWallet walletName))) in Hnew;
      [|done].
    apply (creates_cons (DecodeRawTx exampleTransaction) (reply t1 (DecodeRawTx exampleTransaction)))
      in Hnew; [|done].
    destruct (reply t1 (DecodeRawTx exampleTransaction)) as [size|e]; do 2 io_step; (split; [done|]);
      eexists (_ :: _ :: new); (split; [reflexivity|]); (split; [exact Hnew|]); [|done].
    destruct (Z.eqb_spec size 0); [done|]. intros _.
    destruct (reply (new ++ t) (SetRpcWallet walletName)). split; [right; left|].
    exists size. split; [left|done]. }
  case_bool_decide.
  - by apply (Hrest None [e0]).
  - io_step. eapply wp_mono; [apply load_or_create_spec| |done].
    intros r [t' s'] (-> & new & -> & Hnew).
    pose proof (Hrest r (new ++ [e0]) (creates_app new [e0] Hnew H0)) as Hr.
    rewrite <- (assoc_L (++)) in Hr. exact Hr.
Qed.
End wallet.
