(* ===== verification/LwkConfig.v ===== *)
(** * Configuration of the liquid wallet kit (src/lwk)

    [Conf] with its builder and validators (config.go, conf_builder.go, validator.go).
    Urls are parsed by net/url ([UrlLib]); of the elements networks only the asset id
    is used. *)

From S2P Require Import Prelude GoLib.

(** The parts of a parsed url that are used. *)
Record URL := mkURL { Scheme : string; Host : string; url_String : string }.

(** [url.ParseRequestURI], and [url.Parse] of a host with a port: its error. *)
Class UrlLib := {
  ParseRequestURI : string → result URL;
  url_Parse : string → option error;
}.

Module lwk.
Inductive LwkNetwork := NetworkMainnet | NetworkTestnet | NetworkRegtest | OtherNetwork (s : string).
#[export] Instance LwkNetwork_eq_dec : EqDecision LwkNetwork.
Proof. solve_decision. Defined.
Definition LwkNetwork_String (n : LwkNetwork) : string :=
  match n with
  | NetworkMainnet => "liquid" | NetworkTestnet => "liquid-testnet"
  | NetworkRegtest => "liquid-regtest" | OtherNetwork s => s
  end.
Definition NewlwkNetwork (lekNetwork : string) : result LwkNetwork :=
  if bool_decide (lekNetwork = "liquid") then Ok NetworkMainnet
  else if bool_decide (lekNetwork = "liquid-testnet") then Ok NetworkTestnet
  else if bool_decide (lekNetwork = "liquid-regtest") then Ok NetworkRegtest
  else Err (ErrText ("expected liquid, liquid-testnet or liquid-regtest, got " +:+ lekNetwork)).

(** A url that is not set is a nil pointer. *)
Record Conf := mkConf {
  signerName : string;
  walletName : string;
  lwkEndpoint : option URL;
  electrumEndpoint : option URL;
  network : LwkNetwork;
  liquidSwaps : bool;
}.
#[export] Instance eta_conf : Eta Conf := λ c,
  mkConf (signerName c) (walletName c) (lwkEndpoint c) (electrumEndpoint c) (network c) (liquidSwaps c).

(** ** The validators *)
Definition network_validate (n : LwkNetwork) : option error :=
  match n with
  | OtherNetwork _ => Some (ErrText "invalid network")
  | _ => None
  end.
Definition confname_validate (n : string) : option error :=
  if bool_decide (n = "") then Some (ErrText "name must be set") else None.
Definition url_validate (scheme1 scheme2 : string) (u : option URL) : option error :=
  match u with
  | None => Some (ErrText "url must be set")
  | Some u =>
      if bool_decide (url_String u = "") then Some (ErrText "could not parse url")
      else if bool_decide (Scheme u ≠ scheme1 ∧ Scheme u ≠ scheme2) then
        Some (ErrText ("expected " +:+ scheme1 +:+ " or " +:+ scheme2 +:+ " scheme, got " +:+ Scheme u))
      else None
  end.
Definition lwkurl_validate : option URL → option error := url_validate "http" "https".
Definition electsurl_validate : option URL → option error := url_validate "ssl" "tcp".

(** [Validate] of a list of validators: the first error. *)
Fixpoint Validate (validators : list (option error)) : option error :=
  match validators with
  | [] => None
  | Some e :: _ => Some e
  | None :: validators => Validate validators
  end.
Definition conf_validators (c : Conf) : list (option error) :=
  [electsurl_validate (electrumEndpoint c); lwkurl_validate (lwkEndpoint c);
   network_validate (network c); confname_validate (signerName c); confname_validate (walletName c)].

(** ** [Conf] *)
Definition GetLWKEndpoint (c : Conf) : option string := url_String <$> lwkEndpoint c.
Definition GetElectrumEndpoint (c : Conf) : option string := Host <$> electrumEndpoint c.
Definition IsElectrumWithTLS (c : Conf) : option bool :=
  (λ u, bool_decide (Scheme u = "ssl")) <$> electrumEndpoint c.
(** The asset ids of go-elements for the three networks. *)
Definition GetAssetID (Liquid Regtest Testnet : string) (c : Conf) : string :=
  match network c with
  | NetworkMainnet => Liquid
  | NetworkRegtest => Regtest
  | NetworkTestnet => Testnet
  | _ => Testnet
  end.
Definition Enabled (c : Conf) : bool :=
  bool_decide (Validate (conf_validators c) = None) && liquidSwaps c.

(** ** The builder *)
Section builder.
Context {UL : UrlLib}.
Definition NewLWKURL (endpoint : string) : result URL := ParseRequestURI endpoint.
Definition NewElectrsURL (endpoint : string) : result URL := ParseRequestURI endpoint.

Definition NewConfBuilder (network : LwkNetwork) : Conf := mkConf "" "" None None network false.
Definition DefaultConf (b : Conf) : result Conf :=
  let '(lwkEndpoint_, electrumEndpoint_) :=
    match network b with
    | NetworkTestnet => ("http://localhost:32111", "ssl://blockstream.info:465")
    | NetworkRegtest => ("http://localhost:32112", "tcp://localhost:60401")
    | _ => ("http://localhost:32110", "ssl://blockstream.info:995")
    end in
  match NewLWKURL lwkEndpoint_ with
  | Err e => Err e
  | Ok lwkURL =>
      match NewElectrsURL electrumEndpoint_ with
      | Err e => Err e
      | Ok elementsURL =>
          Ok (b <| signerName := "defaultPeerswapSigner" |> <| walletName := "defaultPeerswapWallet" |>
                <| lwkEndpoint := Some lwkURL |> <| electrumEndpoint := Some elementsURL |>)
      end
  end.
Definition SetSignerName (name : string) (b : Conf) : Conf := b <| signerName := name |>.
Definition SetWalletName (name : string) (b : Conf) : Conf := b <| walletName := name |>.
Definition SetLWKEndpoint (endpoint : URL) (b : Conf) : Conf := b <| lwkEndpoint := Some endpoint |>.
Definition SetElectrumEndpoint (endpoint : URL) (b : Conf) : Conf :=
  b <| electrumEndpoint := Some endpoint |>.
Definition SetLiquidSwaps (swaps : bool) (b : Conf) : Conf := b <| liquidSwaps := swaps |>.
Definition Build (b : Conf) : result Conf :=
  match Validate (conf_validators b) with
  | Some e => Err e
  | None => Ok b
  end.

(** ** The section [LWK] of a configuration file

    The same code reads it in clightning/config.go ([LWKConfigFromToml]) and in
    cmd/peerswaplnd/config.go ([LWKFromIniFileConfig]); what differs is the switch,
    which is a pointer in the first. *)
Record LwkSection := mkLwkSection {
  SignerName : string; WalletName : string; LWKEndpoint : string; ElectrumEndpoint : string;
  Network : string; LiquidSwaps : option bool }.

Definition set_if_named {A} (text : string) (parse : string → result A) (set : A → Conf → Conf)
    (c : Conf) : result Conf :=
  if bool_decide (text = "") then Ok c
  else match parse text with Err e => Err e | Ok a => Ok (set a c) end.

(** Up to the switch. *)
Definition conf_of_section (cfg : LwkSection) : result Conf :=
  match (if bool_decide (Network cfg = "") then NewlwkNetwork "liquid-testnet"
         else NewlwkNetwork (Network cfg)) with
  | Err e => Err e
  | Ok ln =>
      match DefaultConf (NewConfBuilder ln) with
      | Err e => Err e
      | Ok c =>
          match set_if_named (WalletName cfg) Ok SetWalletName c with
          | Err e => Err e
          | Ok c =>
              match set_if_named (SignerName cfg) Ok SetSignerName c with
              | Err e => Err e
              | Ok c =>
                  match set_if_named (LWKEndpoint cfg) NewLWKURL SetLWKEndpoint c with
                  | Err e => Err e
                  | Ok c => set_if_named (ElectrumEndpoint cfg) NewElectrsURL SetElectrumEndpoint c
                  end
              end
          end
      end
  end.
End builder.

(** ** Properties *)
Lemma Validate_none l : Validate l = None ↔ Forall (λ v, v = None) l.
Proof.
  induction l as [|[e|] l IH]; cbn [Validate]; [done| |].
  - split; [done|]. intros H. by inversion H.
  - rewrite IH, Forall_cons. naive_solver.
Qed.

Lemma url_validate_none s1 s2 u :
  url_validate s1 s2 u = None → ∃ v, u = Some v ∧ url_String v ≠ "" ∧ (Scheme v = s1 ∨ Scheme v = s2).
Proof.
  unfold url_validate. destruct u as [v|]; [|done]. do 2 (case_bool_decide; [done|]). intros _. exists v.
  split; [done|]. split; [done|]. destruct (decide (Scheme v = s1)); [by left|]. right.
  destruct (decide (Scheme v = s2)); [done|]. naive_solver.
Qed.

(** What the rest of the program relies on: both endpoints are there, with the right
    schemes, and the names are not empty. *)
Record conf_ok (c : Conf) : Prop := {
  built_lwk : ∃ u, lwkEndpoint c = Some u ∧ (Scheme u = "http" ∨ Scheme u = "https");
  built_electrum : ∃ u, electrumEndpoint c = Some u ∧ (Scheme u = "ssl" ∨ Scheme u = "tcp");
  built_network : ∃ s, NewlwkNetwork s = Ok (network c);
  built_names : signerName c ≠ "" ∧ walletName c ≠ "";
}.
Lemma validated c : Validate (conf_validators c) = None → conf_ok c.
Proof.
  rewrite Validate_none. unfold conf_validators. rewrite !Forall_cons.
  intros (He & Hl & Hn & Hs & Hw & _).
  apply url_validate_none in He as (u & ? & _ & ?), Hl as (v & ? & _ & ?). split.
  - by exists v.
  - by exists u.
  - exists (LwkNetwork_String (network c)). by destruct (network c).
  - unfold confname_validate in *. by repeat case_bool_decide.
Qed.
Lemma Build_built c c' : Build c = Ok c' → c' = c ∧ conf_ok c.
Proof.
  unfold Build. destruct (Validate (conf_validators c)) eqn:E; [done|]. intros [= <-].
  split; [done|]. by apply validated.
Qed.
Lemma Enabled_built c : Enabled c = true → conf_ok c ∧ liquidSwaps c = true.
Proof. unfold Enabled. intros [?%bool_decide_eq_true ?]%andb_true_iff. split; [by apply validated|done]. Qed.
End lwk.
