(* ===== verification/ClnConfig.v ===== *)
(** * The configuration of the plugin (src/clightning/config.go)

    [GetConfig] is a pipeline of processors over one [Config].  The files, the
    working directory and the answers of core lightning are questions; toml and json
    are parsed by libraries ([ConfigLib]).  A processor that fails drops the
    configuration it has changed, so each returns a new one.  Logging is left out. *)

From S2P Require Import Prelude GoLib Oracle ElementsWallet LwkConfig.

(** ** path/filepath on Unix *)
Module filepath.
(** The elements of a cleaned path, the last first. *)
Fixpoint clean_elems (rooted : bool) (elems out : list string) : list string :=
  match elems with
  | [] => out
  | e :: elems =>
      let out :=
        if bool_decide (e = "" ∨ e = ".") then out
        else if bool_decide (e = "..") then
          match out with
          | last :: rest => if bool_decide (last = "..") then e :: out else rest
          | [] => if rooted then [] else [e]
          end
        else e :: out in
      clean_elems rooted elems out
  end.
Definition join_with (sep : string) (l : list string) : string :=
  match l with
  | [] => ""
  | x :: l => x +:+ foldr (λ y acc, sep +:+ y +:+ acc) "" l
  end.
Definition rooted (path : string) : bool := has_prefix "/" path.
Definition Clean (path : string) : string :=
  if bool_decide (path = "") then "."
  else
    let s := join_with "/" (rev (clean_elems (rooted path) (strings.Split path "/") [])) in
    if rooted path then "/" +:+ s else if bool_decide (s = "") then "." else s.
Fixpoint Join (elems : list string) : string :=
  match elems with
  | [] => ""
  | e :: rest => if bool_decide (e = "") then Join rest else Clean (join_with "/" elems)
  end.
Example Join_ex : Join ["/home/me/.lightning/"; "./peerswap"; ""; "x/../swaps"] =
  "/home/me/.lightning/peerswap/swaps".
Proof. reflexivity. Qed.
Arguments Join : simpl never.
Arguments Clean : simpl never.
End filepath.

(** ** Data *)
Definition defaultRpcHost : string := "http://127.0.0.1".
Definition defaultBitcoinSubDir : string := ".bitcoin".
Definition defaultElementsSubDir : string := ".elements".
Definition defaultCookieFile : string := ".cookie".
Definition defaultLiquidWalletName : string := "peerswap".
Definition dbName : string := "swaps".
Definition defaultPolicyFileName : string := "policy.conf".
Definition defaultConfigFileName : string := "peerswap.conf".
Definition defaultPeerswapSubDir : string := "peerswap".

Module Btc.
Record Conf := mkConf {
  RpcUser : string; RpcPassword : string; RpcPasswordFile : string; RpcHost : string; RpcPort : Z;
  Network : string; DataDir : string; Swaps : option bool }.
End Btc.
#[export] Instance eta_btc : Eta Btc.Conf := λ c,
  Btc.mkConf (Btc.RpcUser c) (Btc.RpcPassword c) (Btc.RpcPasswordFile c) (Btc.RpcHost c)
    (Btc.RpcPort c) (Btc.Network c) (Btc.DataDir c) (Btc.Swaps c).
Module Liq.
Record Conf := mkConf {
  RpcUser : string; RpcPassword : string; RpcPasswordFile : string; RpcHost : string; RpcPort : Z;
  RpcWallet : string; Network : string; DataDir : string; Swaps : option bool }.
End Liq.
#[export] Instance eta_liq : Eta Liq.Conf := λ c,
  Liq.mkConf (Liq.RpcUser c) (Liq.RpcPassword c) (Liq.RpcPasswordFile c) (Liq.RpcHost c)
    (Liq.RpcPort c) (Liq.RpcWallet c) (Liq.Network c) (Liq.DataDir c) (Liq.Swaps c).

(** [Bitcoin] and [Liquid] are never nil here. *)
Record Config := mkConfig {
  LightningDir : string;
  PeerswapDir : string;
  DbPath : string;
  PolicyPath : string;
  Bitcoin : Btc.Conf;
  Liquid : Liq.Conf;
  LWK : option lwk.Conf;
}.
#[export] Instance eta_config : Eta Config := λ c,
  mkConfig (LightningDir c) (PeerswapDir c) (DbPath c) (PolicyPath c) (Bitcoin c) (Liquid c) (LWK c).
Definition on_bitcoin (f : Btc.Conf → Btc.Conf) (c : Config) : Config := c <| Bitcoin := f (Bitcoin c) |>.
Definition on_liquid (f : Liq.Conf → Liq.Conf) (c : Config) : Config := c <| Liquid := f (Liquid c) |>.

(** What json says about the configuration of core lightning. *)
Inductive JsonValue := JString (s : string) | JNumber (f : f64) | JOther.
Record PluginConfig := mkPlugin { Path : string; Name : string; Options : gmap string JsonValue }.
Record ConfigEntry := mkEntry { ValueStr : string; ValueInt : Z }.
Record ParsedClnConfig := mkParsed {
  ImportantPlugins : list (option PluginConfig);
  Configs : option (gmap string ConfigEntry) }.
(** [AllowDeprecatedApis], and [Configs.AllowDeprecatedAPIs.ValueBool] if present. *)
Record ClnConfig := mkClnConfig { AllowDeprecatedApis : bool; NestedAllow : option bool }.
Definition AllowDeprecatedAPIs (c : ClnConfig) : bool :=
  if AllowDeprecatedApis c then true else default false (NestedAllow c).

Class ConfigLib := {
  toml_Conf : string → result (option Btc.Conf * option Liq.Conf);
  toml_LWK : string → result (option lwk.LwkSection);
  json_ParsedClnConfig : string → result ParsedClnConfig;
  json_ClnConfig : string → result ClnConfig;
}.

Inductive FileRead := Content (data : string) | NotExist (e : error) | ReadError (e : error).

Module ConfigRpc.
(** [ListConfigs]: the answer as [json.Marshal] prints it. *)
Inductive Call :=
  | Getwd
  | GetOption (option_ : string)
  | ReadFile (path : string)
  | UserHomeDir
  | GetInfoNetwork
  | ListConfigs
  | PluginStop.
Definition answer (c : Call) : Type :=
  match c with
  | Getwd | UserHomeDir | GetInfoNetwork | ListConfigs => result string
  | GetOption _ => string
  | ReadFile _ => FileRead
  | PluginStop => ()
  end.
#[export] Instance ConfigCall_eq_dec : EqDecision Call.
Proof. solve_decision. Defined.
End ConfigRpc.
Import ConfigRpc.

Definition legacyOptions : list string :=
  ["peerswap-elementsd-rpchost"; "peerswap-elementsd-rpcport"; "peerswap-elementsd-rpcuser";
   "peerswap-elementsd-rpcpassword"; "peerswap-elementsd-rpcpasswordfile"; "peerswap-elementsd-swaps";
   "peerswap-elementsd-rpcwallet"; "peerswap-bitcoin-rpchost"; "peerswap-bitcoin-rpcport";
   "peerswap-bitcoin-rpcuser"; "peerswap-bitcoin-rpcpassword"; "peerswap-bitcoin-cookiefilepath";
   "peerswap-policy-path"].

(** ** Networks *)
Definition defaultBitcoinRpcPort (network : string) : Z :=
  if bool_decide (network = "signet") then 38332
  else if bool_decide (network = "testnet" ∨ network = "testnet3") then 18332
  else if bool_decide (network = "testnet4") then 48332
  else if bool_decide (network = "regtest") then 18443
  else 8332.
Definition defaultElementsRpcPort (network : string) : Z :=
  if bool_decide (network = "liquidtestnet") then 7039
  else if bool_decide (network = "regtest") then 18443
  else 7041.
Definition bitcoinNetDir (network : string) : result string :=
  if bool_decide (network = "mainnet" ∨ network = "bitcoin") then Ok ""
  else if bool_decide (network = "signet") then Ok "signet"
  else if bool_decide (network = "testnet3" ∨ network = "testnet") then Ok "testnet3"
  else if bool_decide (network = "testnet4") then Ok "testnet4"
  else if bool_decide (network = "regtest") then Ok "regtest"
  else Err (ErrText ("can not get network dir for bitcoin network: " +:+ network)).
Definition liquidNetDir (network : string) : result string :=
  if bool_decide (network = "mainnet" ∨ network = "bitcoin") then Ok "liquidv1"
  else if bool_decide (network ∈ ["testnet4"; "testnet3"; "simnet"; "signet"; "testnet"])
  then Ok "liquidtestnet"
  else if bool_decide (network = "regtest") then Ok "liquidregtest"
  else Err (ErrText ("can not get liquid network dir for bitcoin network: " +:+ network)).

Section pipeline.
Context {UL : UrlLib} {CFL : ConfigLib} {OR : Oracle answer}.
Abbreviation Io := (IO answer ()).
Definition Processor : Type := Config → Io (result Config).

Definition SetWorkingDir : Processor := λ c,
  let? dir := query Getwd else e => mret (Err e) in
  mret (Ok (c <| LightningDir := dir |>)).

Definition SetPeerswapPaths : Processor := λ c,
  let dir := filepath.Join [LightningDir c; defaultPeerswapSubDir] in
  mret (Ok (c <| PeerswapDir := dir |> <| DbPath := filepath.Join [dir; dbName] |>)).

(** [isDev] keeps the plugin running; otherwise it is stopped, and the pipeline ends. *)
Definition CheckForDeprecatedApiConfig (isDev : bool) : Processor := λ c,
  let? data := query ListConfigs else e => mret (Err e) in
  match json_ClnConfig data with
  | Err e => mret (Err e)
  | Ok co =>
      (if negb (AllowDeprecatedAPIs co) && negb isDev then query PluginStop else mret ());;
      mret (Ok c)
  end.

(** Whether an option is set; all are read, for the log. *)
Fixpoint legacy_loop (options : list string) : Io bool :=
  match options with
  | [] => mret false
  | o :: options =>
      v ← query (GetOption o);
      rest ← legacy_loop options;
      mret (bool_decide (v ≠ "") || rest)
  end.
Definition CheckForLegacyClnConfig : Processor := λ c,
  legacy ← legacy_loop legacyOptions;
  mret (if legacy : bool then Err (ErrText "illegal use of core lightning config") else Ok c).

(** [LWKConfigFromToml]. *)
Definition LWKConfigFromToml (filePath : string) : Io (result (option lwk.Conf)) :=
  f ← query (ReadFile filePath);
  match f with
  | NotExist e | ReadError e => mret (Err e)
  | Content data =>
      match toml_LWK data with
      | Err e => mret (Err e)
      | Ok None => mret (Ok None)
      | Ok (Some cfg) =>
          match lwk.conf_of_section cfg with
          | Err e => mret (Err e)
          | Ok c =>
              swaps ← deref (lwk.LiquidSwaps cfg);
              mret (match lwk.Build (lwk.SetLiquidSwaps swaps c) with
                    | Err e => Err e
                    | Ok c => Ok (Some c)
                    end)
          end
      end
  end.

(** Network and directory are not taken from the file. *)
Definition take_bitcoin (f b : Btc.Conf) : Btc.Conf :=
  Btc.mkConf (Btc.RpcUser f) (Btc.RpcPassword f) (Btc.RpcPasswordFile f) (Btc.RpcHost f) (Btc.RpcPort f)
    (Btc.Network b) (Btc.DataDir b) (Btc.Swaps f).
Definition take_liquid (f l : Liq.Conf) : Liq.Conf :=
  Liq.mkConf (Liq.RpcUser f) (Liq.RpcPassword f) (Liq.RpcPasswordFile f) (Liq.RpcHost f) (Liq.RpcPort f)
    (Liq.RpcWallet f) (Liq.Network l) (Liq.DataDir l) (Liq.Swaps f).
Definition ReadFromFile : Processor := λ c,
  let path := filepath.Join [PeerswapDir c; defaultConfigFileName] in
  f ← query (ReadFile path);
  match f with
  | NotExist _ => mret (Ok c)
  | ReadError e => mret (Err e)
  | Content data =>
      match toml_Conf data with
      | Err e => mret (Err e)
      | Ok (bitcoin, liquid) =>
          let c := match bitcoin with Some f => on_bitcoin (take_bitcoin f) c | None => c end in
          let c := match liquid with Some f => on_liquid (take_liquid f) c | None => c end in
          let? lc := LWKConfigFromToml path else e => mret (Err e) in
          mret (Ok (c <| LWK := lc |>))
      end
  end.

Definition PeerSwapFallback : Processor := λ c,
  let c := if bool_decide (PolicyPath c = "")
           then c <| PolicyPath := filepath.Join [PeerswapDir c; defaultPolicyFileName] |> else c in
  mret (Ok (if bool_decide (Liq.RpcWallet (Liquid c) = "")
            then on_liquid (λ l, l <| Liq.RpcWallet := defaultLiquidWalletName |>) c else c)).

Definition SetBitcoinNetwork : Processor := λ c,
  if bool_decide (Btc.Network (Bitcoin c) = "") then
    let? network := query GetInfoNetwork else e => mret (Err e) in
    let set n := mret (Ok (on_bitcoin (λ b, b <| Btc.Network := n |>) c)) in
    if bool_decide (network = "bitcoin") then set "mainnet"
    else if bool_decide (network = "testnet") then set "testnet3"
    else if bool_decide (network = "") then mret (Err (ErrText "could not detect bitcoin network"))
    else set network
  else mret (Ok c).

(** *** The configuration of core lightning *)
Definition isBitcoinConfigEmpty (b : Btc.Conf) : bool :=
  bool_decide (Btc.RpcUser b = "") && bool_decide (Btc.RpcPassword b = "") &&
  bool_decide (Btc.RpcPasswordFile b = "") && bool_decide (Btc.RpcHost b = "") && (Btc.RpcPort b =? 0).

Definition with_key {V} (m : gmap string V) (key : string) (f : V → Btc.Conf → Btc.Conf)
    (b : Btc.Conf) : Btc.Conf :=
  match m !! key with Some v => f v b | None => b end.
Definition applyConfigMap (configs : gmap string ConfigEntry) (b : Btc.Conf) : Btc.Conf :=
  let b := with_key configs "bitcoin-datadir" (λ v b, b <| Btc.DataDir := ValueStr v |>) b in
  let b := with_key configs "bitcoin-rpcuser" (λ v b, b <| Btc.RpcUser := ValueStr v |>) b in
  let b := with_key configs "bitcoin-rpcpassword" (λ v b, b <| Btc.RpcPassword := ValueStr v |>) b in
  let b := with_key configs "bitcoin-rpcconnect" (λ v b, b <| Btc.RpcHost := ValueStr v |>) b in
  with_key configs "bitcoin-rpcport" (λ v b, b <| Btc.RpcPort := u64 (ValueInt v) |>) b.

Definition toString (v : JsonValue) : string := match v with JString s => s | _ => "" end.
Definition toUint (v : JsonValue) : Z :=
  match v with
  | JString s => match strconv.Atoi s with Ok port => u64 port | Err _ => 0 end
  | JNumber f => f64_to_uint64 f
  | JOther => 0
  end.
Definition applyBcliOptions (options : gmap string JsonValue) (b : Btc.Conf) : Btc.Conf :=
  let b := with_key options "bitcoin-datadir" (λ v b, b <| Btc.DataDir := toString v |>) b in
  let b := with_key options "bitcoin-rpcuser" (λ v b, b <| Btc.RpcUser := toString v |>) b in
  let b := with_key options "bitcoin-rpcpassword" (λ v b, b <| Btc.RpcPassword := toString v |>) b in
  let b := with_key options "bitcoin-rpcconnect" (λ v b, b <| Btc.RpcHost := toString v |>) b in
  with_key options "bitcoin-rpcport" (λ v b, b <| Btc.RpcPort := toUint v |>) b.
Fixpoint applyPluginConfig (plugins : list (option PluginConfig)) (b : Btc.Conf) : Io Btc.Conf :=
  match plugins with
  | [] => mret b
  | plugin :: plugins =>
      plugin ← deref plugin;
      applyPluginConfig plugins
        (if bool_decide (Name plugin = "bcli") then applyBcliOptions (Options plugin) b else b)
  end.
Definition updateBitcoinConfig (parsedConfig : ParsedClnConfig) (b : Btc.Conf) : Io Btc.Conf :=
  applyPluginConfig (ImportantPlugins parsedConfig)
    (match Configs parsedConfig with Some configs => applyConfigMap configs b | None => b end).
Definition BitcoinFallbackFromClnConfig : Processor := λ c,
  if isBitcoinConfigEmpty (Bitcoin c) then
    let? conf := query ListConfigs else e => mret (Err e) in
    match json_ParsedClnConfig conf with
    | Err e => mret (Err e)
    | Ok parsedConfig =>
        b ← updateBitcoinConfig parsedConfig (Bitcoin c);
        mret (Ok (c <| Bitcoin := b |>))
    end
  else mret (Ok c).

(** *** Defaults *)
(** [if s == "" { s = d }], and the same for a port. *)
Definition or_default (s d : string) : string := if bool_decide (s = "") then d else s.
Definition or_port (port d : Z) : Z := if port =? 0 then d else port.
Definition home_dir (dataDir subDir : string) : Io (result string) :=
  if bool_decide (dataDir = "") then
    let? home := query UserHomeDir else e => mret (Err e) in
    mret (Ok (filepath.Join [home; subDir]))
  else mret (Ok dataDir).

Definition BitcoinFallback : Processor := λ c,
  let? dir := home_dir (Btc.DataDir (Bitcoin c)) defaultBitcoinSubDir else e => mret (Err e) in
  let b := Bitcoin c <| Btc.DataDir := dir |>
             <| Btc.Swaps := Some (default true (Btc.Swaps (Bitcoin c))) |>
             <| Btc.RpcHost := or_default (Btc.RpcHost (Bitcoin c)) defaultRpcHost |>
             <| Btc.RpcPort := or_port (Btc.RpcPort (Bitcoin c))
                                 (defaultBitcoinRpcPort (Btc.Network (Bitcoin c))) |> in
  if bool_decide (Btc.RpcPassword b = "" ∧ Btc.RpcUser b = "" ∧ Btc.RpcPasswordFile b = "") then
    match bitcoinNetDir (Btc.Network b) with
    | Err e => mret (Err e)
    | Ok netdir =>
        mret (Ok (c <| Bitcoin := b <| Btc.RpcPasswordFile :=
          filepath.Join [Btc.DataDir b; netdir; defaultCookieFile] |> |>))
    end
  else mret (Ok (c <| Bitcoin := b |>)).

Definition ElementsFallback : Processor := λ c,
  let? dir := home_dir (Liq.DataDir (Liquid c)) defaultElementsSubDir else e => mret (Err e) in
  match (if bool_decide (Liq.Network (Liquid c) = "") then liquidNetDir (Btc.Network (Bitcoin c))
         else Ok (Liq.Network (Liquid c))) with
  | Err e => mret (Err e)
  | Ok network =>
      let l := Liquid c <| Liq.DataDir := dir |>
                 <| Liq.Swaps := Some (default true (Liq.Swaps (Liquid c))) |>
                 <| Liq.Network := network |>
                 <| Liq.RpcHost := or_default (Liq.RpcHost (Liquid c)) defaultRpcHost |>
                 <| Liq.RpcPort := or_port (Liq.RpcPort (Liquid c)) (defaultElementsRpcPort network) |> in
      if bool_decide (Liq.RpcPassword l = "" ∧ Liq.RpcUser l = "" ∧ Liq.RpcPasswordFile l = "") then
        match liquidNetDir (Btc.Network (Bitcoin c)) with
        | Err e => mret (Err e)
        | Ok netdir =>
            mret (Ok (c <| Liquid := l <| Liq.RpcPasswordFile :=
              filepath.Join [Liq.DataDir l; netdir; defaultCookieFile] |> |>))
        end
      else mret (Ok (c <| Liquid := l |>))
  end.

(** *** Access to the nodes *)
Definition missing_scheme : string := "first path segment in URL cannot contain colon".
Definition CheckBitcoinRpcIsUrl : Processor := λ c,
  let host := Btc.RpcHost (Bitcoin c) in
  match url_Parse (host +:+ ":" +:+ strconv.Itoa (Btc.RpcPort (Bitcoin c))) with
  | None => mret (Ok c)
  | Some err =>
      if contains (Error err) missing_scheme && negb (has_prefix "http://" host) &&
         negb (has_prefix "https://" host)
      then mret (Ok (on_bitcoin (λ b, b <| Btc.RpcHost := "http://" +:+ host |>) c))
      else mret (Err err)
  end.

(** User and password, both empty with an error. *)
Definition readCookie (path : string) : Io (string * string * option error) :=
  f ← query (ReadFile path);
  mret match f with
       | NotExist e | ReadError e => ("", "", Some e)
       | Content cookie =>
           match strings.Split cookie ":" with
           | [user; password] => (user, password, None)
           | _ => ("", "", Some (ErrText "malformed cookie"))
           end
       end.

(** The error of the cookie is only logged. *)
Definition BitcoinCookieConnect : Processor := λ c,
  if bool_decide (Btc.RpcUser (Bitcoin c) = "" ∧ Btc.RpcPassword (Bitcoin c) = "") then
    if bool_decide (Btc.RpcPasswordFile (Bitcoin c) = "")
    then mret (Err (ErrText "no bitcoin rpc configuration found"))
    else
      r ← readCookie (Btc.RpcPasswordFile (Bitcoin c));
      let '(user, password, _) := r in
      mret (Ok (on_bitcoin (λ b, b <| Btc.RpcUser := user |> <| Btc.RpcPassword := password |>) c))
  else mret (Ok c).

(** [!*c.Liquid.LiquidSwaps == false]: liquid swaps are on. *)
Definition ElementsCookieConnect : Processor := λ c,
  if bool_decide (Liq.RpcUser (Liquid c) = "" ∧ Liq.RpcPassword (Liquid c) = "") then
    swaps ← deref (Liq.Swaps (Liquid c));
    if negb swaps then mret (Ok c)
    else if bool_decide (Liq.RpcPasswordFile (Liquid c) = "")
    then mret (Err (ErrText "no liquid rpc configuration found"))
    else
      r ← readCookie (Liq.RpcPasswordFile (Liquid c));
      let '(user, password, _) := r in
      mret (Ok (on_liquid (λ b, b <| Liq.RpcUser := user |> <| Liq.RpcPassword := password |>) c))
  else mret (Ok c).

(** ** The pipeline *)
Fixpoint Pipeline_Run (processors : list Processor) (c : Config) : Io (result Config) :=
  match processors with
  | [] => mret (Ok c)
  | pr :: processors => let? c := pr c else e => mret (Err e) in Pipeline_Run processors c
  end.
Definition empty_config : Config :=
  mkConfig "" "" "" "" (Btc.mkConf "" "" "" "" 0 "" "" None) (Liq.mkConf "" "" "" "" 0 "" "" "" None) None.
Definition GetConfig (isDev : bool) : Io (result Config) :=
  Pipeline_Run
    [SetWorkingDir; SetPeerswapPaths; CheckForLegacyClnConfig; ReadFromFile; PeerSwapFallback;
     BitcoinFallbackFromClnConfig; SetBitcoinNetwork; BitcoinFallback; ElementsFallback;
     CheckBitcoinRpcIsUrl; BitcoinCookieConnect; ElementsCookieConnect;
     CheckForDeprecatedApiConfig isDev] empty_config.
End pipeline.
