(* ===== verification/ConfigProofs.v ===== *)
(** * What the configuration of the plugin guarantees

    Every processor is given a triple over the configuration and the record; the
    triples compose along the pipeline ([config_complete]). *)

From S2P Require Import Prelude GoLib Oracle ElementsWallet LwkConfig ClnConfig.
Import ConfigRpc.

Lemma append_not_empty_l s1 s2 : s1 ≠ "" → s1 +:+ s2 ≠ "".
Proof. by destruct s1. Qed.
Lemma append_not_empty_r s1 s2 : s2 ≠ "" → s1 +:+ s2 ≠ "".
Proof. by destruct s1. Qed.

Lemma Clean_not_empty p : filepath.Clean p ≠ "".
Proof.
  unfold filepath.Clean. case_bool_decide; [done|]. destruct (filepath.rooted p); [done|].
  by case_bool_decide.
Qed.
Lemma Join_not_empty l e : e ∈ l → e ≠ "" → filepath.Join l ≠ "".
Proof.
  intros Hin He. induction l as [|x l IH]; [by apply elem_of_nil in Hin|].
  unfold filepath.Join. fold filepath.Join. case_bool_decide; [|apply Clean_not_empty].
  apply elem_of_cons in Hin as [->|Hin]; [done|by apply IH].
Qed.

Section config.
Context {UL : UrlLib} {CFL : ConfigLib} {OR : Oracle answer}.
Implicit Types (c : Config) (t : Trace answer).

(** The run stops only for a null plugin or a section [LWK] without its switch. *)
Definition bad_input (t : Trace answer) : Prop :=
  (∃ data parsed, event ListConfigs (Ok data) ∈ t ∧ json_ParsedClnConfig data = Ok parsed ∧
     None ∈ ImportantPlugins parsed) ∨
  (∃ path data cfg, event (ReadFile path) (Content data) ∈ t ∧ toml_LWK data = Ok (Some cfg) ∧
     lwk.LiquidSwaps cfg = None).
Definition stops_badly (k : stop) '((t, _) : Trace answer * ()) : Prop :=
  k = Panicked ∧ bad_input t.

Definition triple (P : Trace answer → Config → Prop) (pr : Processor) (Q : Trace answer → Config → Prop) : Prop :=
  ∀ t c, P t c →
    wp (pr c) (λ r '(t', _), ∀ c', r = Ok c' → Q t' c') stops_badly (t, ()).

Lemma Pipeline_nil (P : Trace answer → Config → Prop) : triple P (Pipeline_Run []) P.
Proof. intros t c H. apply wp_ret. by intros c' [= <-]. Qed.
Lemma Pipeline_cons (P Q R : Trace answer → Config → Prop) pr prs :
  triple P pr Q → triple Q (Pipeline_Run prs) R → triple P (Pipeline_Run (pr :: prs)) R.
Proof.
  intros Hpr Hprs t c H. cbn [Pipeline_Run]. apply wp_bind.
  eapply wp_mono; [by apply Hpr| |done]. intros [c'|e] [t' []] Hc'; [|by apply wp_ret].
  by apply Hprs, Hc'.
Qed.

(** ** The stages *)
Definition paths_ok (c : Config) : Prop :=
  PeerswapDir c = filepath.Join [LightningDir c; defaultPeerswapSubDir] ∧
  DbPath c = filepath.Join [PeerswapDir c; dbName].
Definition no_legacy (t : Trace answer) : Prop := ∀ o v, event (GetOption o) v ∈ t → v = "".
(** The options were asked before anything else but the directory. *)
Definition no_options (t : Trace answer) : Prop := ∀ o v, event (GetOption o) v ∉ t.
Definition lwk_ok (c : Config) : Prop := ∀ l, LWK c = Some l → lwk.conf_ok l.

Definition port_of_file (t : Trace answer) (port : Z) : Prop :=
  ∃ path data b f, event (ReadFile path) (Content data) ∈ t ∧ toml_Conf data = Ok (b, Some f) ∧
    port = Liq.RpcPort f.
Definition liquid_unset (t : Trace answer) (c : Config) : Prop :=
  Liq.Network (Liquid c) = "" ∧ (Liq.RpcPort (Liquid c) = 0 ∨ port_of_file t (Liq.RpcPort (Liquid c))).
Definition names_set (c : Config) : Prop := PolicyPath c ≠ "" ∧ Liq.RpcWallet (Liquid c) ≠ "".

(** What a client of bitcoind or elementsd needs. *)
Definition reachable (user password file host dir : string) (port : Z) : Prop :=
  host ≠ "" ∧ port ≠ 0 ∧ dir ≠ "" ∧ (user ≠ "" ∨ password ≠ "" ∨ file ≠ "").
Definition bitcoin_ready (c : Config) : Prop :=
  let b := Bitcoin c in
  Btc.Network b ≠ "" ∧ is_Some (Btc.Swaps b) ∧
  reachable (Btc.RpcUser b) (Btc.RpcPassword b) (Btc.RpcPasswordFile b) (Btc.RpcHost b) (Btc.DataDir b)
    (Btc.RpcPort b).
Definition liquid_ready (t : Trace answer) (c : Config) : Prop :=
  let l := Liquid c in
  liquidNetDir (Btc.Network (Bitcoin c)) = Ok (Liq.Network l) ∧ is_Some (Liq.Swaps l) ∧
  reachable (Liq.RpcUser l) (Liq.RpcPassword l) (Liq.RpcPasswordFile l) (Liq.RpcHost l) (Liq.DataDir l)
    (Liq.RpcPort l) ∧
  (Liq.RpcPort l = defaultElementsRpcPort (Liq.Network l) ∨ port_of_file t (Liq.RpcPort l)).

Definition S1 t c := no_options t ∧ liquid_unset t c ∧ LWK c = None.
Definition S2 t c := S1 t c ∧ paths_ok c.
Definition S3 t c := (no_legacy t ∧ liquid_unset t c ∧ LWK c = None) ∧ paths_ok c.
Definition S4 t c := (no_legacy t ∧ liquid_unset t c ∧ lwk_ok c) ∧ paths_ok c.
Definition S5 t c := S4 t c ∧ names_set c.
Definition S7 t c := S5 t c ∧ Btc.Network (Bitcoin c) ≠ "".
Definition S8 t c := S5 t c ∧ bitcoin_ready c.
Definition complete t c :=
  no_legacy t ∧ lwk_ok c ∧ paths_ok c ∧ names_set c ∧ bitcoin_ready c ∧ liquid_ready t c.

Lemma port_of_file_cons t e p : port_of_file t p → port_of_file (e :: t) p.
Proof. intros (path & data & b & f & ? & ?). exists path, data, b, f. split; [by right|done]. Qed.
Lemma liquid_unset_cons t e c : liquid_unset t c → liquid_unset (e :: t) c.
Proof. intros [? [?|?]]; split; auto using port_of_file_cons. Qed.
Lemma no_legacy_cons t q a : (∀ o, q ≠ GetOption o) → no_legacy t → no_legacy (event q a :: t).
Proof.
  intros Hq H o v [E|Hin]%elem_of_cons; [|by eapply H]. injection E as E _. by destruct (Hq o).
Qed.

(** ** The processors *)
Lemma SetWorkingDir_ok : triple (λ t c, t = [] ∧ c = empty_config) SetWorkingDir S1.
Proof.
  intros t c [-> ->]. unfold SetWorkingDir. do 2 io_step. destruct (reply _ Getwd); apply wp_ret; [|done].
  intros c' [= <-]. split_and!; [|split; [done|by left]|done].
  intros o v. rewrite elem_of_cons. intros [[=]|?%elem_of_nil]; done.
Qed.

Lemma SetPeerswapPaths_ok : triple S1 SetPeerswapPaths S2.
Proof. intros t c H. apply wp_ret. by intros c' [= <-]. Qed.

Lemma legacy_loop_ok options t :
  wp (legacy_loop options)
    (λ b '(t', _), suffix t t' ∧
       (b = false → ∀ o v, event (GetOption o) v ∈ t' → event (GetOption o) v ∈ t ∨ v = ""))
    stops_badly (t, ()).
Proof.
  revert t. induction options as [|o options IH]; intros t; cbn [legacy_loop].
  { apply wp_ret. split; [done|]. by left. }
  do 3 io_step. eapply wp_mono; [apply IH| |done]. intros b [t' []] [Hsuf Hb]. apply wp_ret.
  split; [by eapply suffix_cons_l|]. intros [Hv%bool_decide_eq_false ->]%orb_false_iff o' v Hin.
  destruct (Hb eq_refl o' v Hin) as [[Heq|Hin']%elem_of_cons|Hv']; [|by left|by right].
  right. assert (o' = o) as -> by (apply (f_equal question) in Heq; by injection Heq). apply event_inj in Heq as ->.
  by destruct (decide (reply t (GetOption o) = "")).
Qed.

Lemma port_of_file_suffix t t' p : suffix t t' → port_of_file t p → port_of_file t' p.
Proof.
  intros Hs (path & data & b & f & ? & ?). exists path, data, b, f. split; [by eapply elem_of_suffix|done].
Qed.

Lemma CheckForLegacyClnConfig_ok : triple S2 CheckForLegacyClnConfig S3.
Proof.
  intros t c [[Hno [[Hn Hport] HL]] Hp]. unfold CheckForLegacyClnConfig. io_step.
  eapply wp_mono; [apply legacy_loop_ok| |done]. intros b [t' []] [Hs Hb]. apply wp_ret.
  destruct b; [done|]. intros c' [= <-]. split; [|done]. split_and!; [|split; [done|]|done].
  - intros o v Hin. destruct (Hb eq_refl o v Hin) as [?%Hno|?]; done.
  - destruct Hport as [?|?]; [by left|right]. by eapply port_of_file_suffix.
Qed.

Lemma conf_of_file_ok data (c : lwk.LwkSection) t path :
  toml_LWK data = Ok (Some c) → event (ReadFile path) (Content data) ∈ t →
  lwk.LiquidSwaps c = None → stops_badly Panicked (t, ()).
Proof. intros. split; [done|]. right. by exists path, data, c. Qed.

Lemma LWKConfigFromToml_ok path t :
  wp (LWKConfigFromToml path)
    (λ r '(t', _), (∃ a, t' = event (ReadFile path) a :: t) ∧ ∀ l, r = Ok (Some l) → lwk.conf_ok l)
    stops_badly (t, ()).
Proof.
  unfold LWKConfigFromToml. do 2 io_step.
  assert (∃ a, event (ReadFile path) (reply t (ReadFile path)) :: t = event (ReadFile path) a :: t) as Ha
    by by eexists.
  destruct (reply t (ReadFile path)) as [data|e|e] eqn:Ef; [|by apply wp_ret..].
  destruct (toml_LWK data) as [[cfg|]|e] eqn:Et; [|by apply wp_ret..].
  destruct (lwk.conf_of_section cfg) as [c|e]; [|by apply wp_ret].
  destruct (lwk.LiquidSwaps cfg) as [swaps|] eqn:Es.
  - io_step. apply wp_deref; [|done]. intros ? [= <-]. apply wp_ret. split; [done|].
    destruct (lwk.Build _) eqn:Eb; [|done]. intros l [= <-]. apply lwk.Build_built in Eb as [-> Hok]. exact Hok.
  - io_step. apply wp_deref; [done|]. intros _. eapply conf_of_file_ok; [done|left|done].
Qed.

(** The stages survive questions that are no options. *)
Lemma S4_cons t q a c : (∀ o, q ≠ GetOption o) → S4 t c → S4 (event q a :: t) c.
Proof.
  intros Hq [(Hn & Hl & Hw) Hp]. split; [|done].
  split_and!; [by apply no_legacy_cons|by apply liquid_unset_cons|done].
Qed.
Lemma S5_cons t q a c : (∀ o, q ≠ GetOption o) → S5 t c → S5 (event q a :: t) c.
Proof. intros Hq [? ?]. split; [by apply S4_cons|done]. Qed.
Lemma complete_cons t q a c : (∀ o, q ≠ GetOption o) → complete t c → complete (event q a :: t) c.
Proof.
  intros Hq (Hn & Hl & Hp & Hs & Hb & Hliq). split_and!; try done; [by apply no_legacy_cons|].
  destruct Hliq as (? & ? & ? & [?|?]); split_and!; auto using port_of_file_cons.
Qed.

Lemma ReadFromFile_ok : triple S3 ReadFromFile S4.
Proof.
  intros t c ((Hn & Hl & HL) & Hp). unfold ReadFromFile. do 2 io_step.
  set (path := filepath.Join _).
  destruct (reply t (ReadFile path)) as [data|e|e] eqn:Ef; [|apply wp_ret; intros ? [= <-]|by apply wp_ret].
  2:{ split; [|done]. split_and!; [by apply no_legacy_cons|by apply liquid_unset_cons|].
      intros l. by rewrite HL. }
  destruct (toml_Conf data) as [[bitcoin liquid]|e] eqn:Et; [|by apply wp_ret].
  io_step. eapply wp_mono; [apply LWKConfigFromToml_ok| |done].
  intros [lc|e] [t' []] [[a ->] Hlc]; apply wp_ret; [|done]. intros c' [= <-].
  split; [|by destruct bitcoin, liquid]. split_and!.
  - by do 2 (apply no_legacy_cons; [done|]).
  - apply liquid_unset_cons. destruct Hl as [Hnet Hport], liquid as [l|].
    + split; [by destruct bitcoin|]. right. exists path, data, bitcoin, l.
      split; [left|]. split; [done|]. by destruct bitcoin.
    + apply liquid_unset_cons. destruct bitcoin; by split.
  - intros l. cbn. intros ->. by apply Hlc.
Qed.

Lemma PeerSwapFallback_ok : triple S4 PeerSwapFallback S5.
Proof.
  intros t c H. unfold PeerSwapFallback.
  assert (filepath.Join [PeerswapDir c; defaultPolicyFileName] ≠ "") as Hne
    by (eapply Join_not_empty; [right; left|done]).
  generalize dependent (filepath.Join [PeerswapDir c; defaultPolicyFileName]). intros pol Hpol.
  apply wp_ret. intros c' [= <-]. repeat case_bool_decide; (split; [exact H|split; done]).
Qed.

Lemma plugins_ok plugins b t :
  wp (applyPluginConfig plugins b) (λ _ st, st = (t, ())) (λ k st, k = Panicked ∧ None ∈ plugins ∧ st = (t, ()))
    (t, ()).
Proof.
  revert b. induction plugins as [|[p|] plugins IH]; intros b; cbn [applyPluginConfig]; [by apply wp_ret| |].
  - io_step. apply wp_deref; [|done]. intros ? [= <-]. eapply wp_mono; [apply IH|done|].
    intros k st (? & ? & ?). split_and!; [done|by right|done].
  - io_step. apply wp_deref; [done|]. intros _. split_and!; [done|left|done].
Qed.

Lemma BitcoinFallbackFromClnConfig_ok : triple S5 BitcoinFallbackFromClnConfig S5.
Proof.
  intros t c H. unfold BitcoinFallbackFromClnConfig. destruct (isBitcoinConfigEmpty _).
  2:{ apply wp_ret. by intros ? [= <-]. }
  do 2 io_step. destruct (reply t ListConfigs) as [conf|e] eqn:Ec; [|by apply wp_ret].
  destruct (json_ParsedClnConfig conf) as [parsed|e] eqn:Ep; [|by apply wp_ret]. io_step.
  eapply wp_mono; [apply plugins_ok| |].
  - intros b [t' []] [= ->]. apply wp_ret. intros ? [= <-].
    apply (S5_cons _ ListConfigs (Ok conf)) in H; [|done]. exact H.
  - intros k [t' []] (-> & Hin & [= ->]). split; [done|]. left. exists conf, parsed. split; [left|done].
Qed.

Lemma SetBitcoinNetwork_ok : triple S5 SetBitcoinNetwork S7.
Proof.
  intros t c H. unfold SetBitcoinNetwork. case_bool_decide as Hn.
  2:{ apply wp_ret. intros ? [= <-]. by split. }
  do 2 io_step. apply (S5_cons t GetInfoNetwork (reply t GetInfoNetwork)) in H; [|done].
  destruct (reply t GetInfoNetwork) as [network|e]; [|by apply wp_ret].
  repeat case_bool_decide; apply wp_ret; intros ? [= <-]; try done; (split; [exact H|done]).
Qed.

Lemma home_dir_ok dir sub t :
  sub ≠ "" →
  wp (home_dir dir sub)
    (λ r '(t', _), (t' = t ∨ ∃ a, t' = event UserHomeDir a :: t) ∧ ∀ d, r = Ok d → d ≠ "") stops_badly (t, ()).
Proof.
  intros Hsub. unfold home_dir. case_bool_decide.
  - do 2 io_step. destruct (reply t UserHomeDir) as [home|e]; apply wp_ret.
    + split; [right; by eexists|]. intros d [= <-]. eapply Join_not_empty; [right; left|done].
    + split; [right; by eexists|done].
  - apply wp_ret. split; [by left|]. by intros d [= <-].
Qed.

Lemma bitcoin_port network : defaultBitcoinRpcPort network ≠ 0.
Proof. unfold defaultBitcoinRpcPort. by repeat case_bool_decide. Qed.
Lemma elements_port network : defaultElementsRpcPort network ≠ 0.
Proof. unfold defaultElementsRpcPort. by repeat case_bool_decide. Qed.

Lemma or_default_ok s d : d ≠ "" → or_default s d ≠ "".
Proof. unfold or_default. by case_bool_decide. Qed.
Lemma or_port_ok p d : d ≠ 0 → or_port p d ≠ 0.
Proof. unfold or_port. by destruct (Z.eqb_spec p 0). Qed.

Lemma BitcoinFallback_ok : triple S7 BitcoinFallback S8.
Proof.
  intros t c [H Hnet]. unfold BitcoinFallback. io_step.
  eapply wp_mono; [by apply home_dir_ok| |done]. intros [dir|e] [t' []] [Ht' Hdir]; [|by apply wp_ret].
  assert (S5 t' c) as H' by (destruct Ht' as [->|[a ->]]; [done|by apply S5_cons]). clear H.
  specialize (Hdir dir eq_refl).
  set (b := Bitcoin c <| Btc.DataDir := dir |> <| Btc.Swaps := _ |> <| Btc.RpcHost := _ |> <| Btc.RpcPort := _ |>).
  assert (∀ file, Btc.RpcUser b ≠ "" ∨ Btc.RpcPassword b ≠ "" ∨ file ≠ "" →
    S8 t' (c <| Bitcoin := b <| Btc.RpcPasswordFile := file |> |>)) as Hleaf.
  { intros file Hfile. split; [exact H'|]. unfold bitcoin_ready, reachable.
    split_and!; [done|by eexists|by apply or_default_ok|apply or_port_ok, bitcoin_port|done|done]. }
  case_bool_decide as Hc.
  - destruct (bitcoinNetDir _) as [netdir|e]; apply wp_ret; [|done]. intros c' [= <-]. apply Hleaf.
    right; right. eapply Join_not_empty; [right; right; left|done].
  - apply wp_ret. intros c' [= <-]. apply (Hleaf (Btc.RpcPasswordFile b)).
    destruct (decide (Btc.RpcUser b = "")); [|by left]. destruct (decide (Btc.RpcPassword b = "")); [|by right; left].
    right; right. tauto.
Qed.

Lemma liquidNetDir_not_empty network dir : liquidNetDir network = Ok dir → dir ≠ "".
Proof. unfold liquidNetDir. repeat case_bool_decide; by intros [= <-]. Qed.

Lemma ElementsFallback_ok : triple S8 ElementsFallback complete.
Proof.
  intros t c [H Hbtc]. unfold ElementsFallback. io_step.
  eapply wp_mono; [by apply home_dir_ok| |done]. intros [dir|e] [t' []] [Ht' Hdir]; [|by apply wp_ret].
  assert (S5 t' c) as H' by (destruct Ht' as [->|[a ->]]; [done|by apply S5_cons]). clear H.
  specialize (Hdir dir eq_refl). destruct H' as [[(Hn & [Hnet Hport] & Hw) Hp] Hnames].
  rewrite Hnet. cbn [bool_decide_eq_true]. rewrite bool_decide_true by done.
  destruct (liquidNetDir (Btc.Network (Bitcoin c))) as [network|e] eqn:En; [|by apply wp_ret].
  set (l := Liquid c <| Liq.DataDir := dir |> <| Liq.Swaps := _ |> <| Liq.Network := _ |>
    <| Liq.RpcHost := _ |> <| Liq.RpcPort := _ |>).
  assert (∀ file, Liq.RpcUser l ≠ "" ∨ Liq.RpcPassword l ≠ "" ∨ file ≠ "" →
    complete t' (c <| Liquid := l <| Liq.RpcPasswordFile := file |> |>)) as Hleaf.
  { intros file Hfile. do 5 (split; [done|]). unfold liquid_ready, reachable.
    split; [exact En|]. split; [by eexists|]. split.
    - split_and!; [by apply or_default_ok|apply or_port_ok, elements_port|done|done].
    - cbn. unfold or_port. destruct (Z.eqb_spec (Liq.RpcPort (Liquid c)) 0); [by left|]. right. by destruct Hport. }
  case_bool_decide as Hc.
  - apply wp_ret. intros c' [= <-]. apply Hleaf.
    right; right. eapply Join_not_empty; [right; right; left|done].
  - apply wp_ret. intros c' [= <-]. apply (Hleaf (Liq.RpcPasswordFile l)).
    destruct (decide (Liq.RpcUser l = "")); [|by left]. destruct (decide (Liq.RpcPassword l = "")); [|by right; left].
    right; right. tauto.
Qed.

(** Other names and passwords, and another host. *)
Lemma complete_bitcoin t c user password host :
  complete t c → host ≠ "" →
  (user ≠ "" ∨ password ≠ "" ∨ Btc.RpcPasswordFile (Bitcoin c) ≠ "") →
  complete t (on_bitcoin (λ b, b <| Btc.RpcUser := user |> <| Btc.RpcPassword := password |>
                                 <| Btc.RpcHost := host |>) c).
Proof.
  intros (Hn & Hw & Hp & Hs & (Hnet & Hsw & _ & Hport & Hdir & _) & Hl) Hhost Hacc.
  do 4 (split; [done|]). split; [|exact Hl]. unfold bitcoin_ready, reachable. by split_and!.
Qed.
Lemma complete_liquid t c user password :
  complete t c → Liq.RpcPasswordFile (Liquid c) ≠ "" →
  complete t (on_liquid (λ b, b <| Liq.RpcUser := user |> <| Liq.RpcPassword := password |>) c).
Proof.
  intros (Hn & Hw & Hp & Hs & Hb & (Hnet & Hsw & (Hhost & Hport & Hdir & _) & Hpr)) Hacc.
  do 5 (split; [done|]). unfold liquid_ready, reachable. split; [done|]. split; [done|]. split; [|done].
  split_and!; try done. by right; right.
Qed.

Lemma CheckBitcoinRpcIsUrl_ok : triple complete CheckBitcoinRpcIsUrl complete.
Proof.
  intros t c H. unfold CheckBitcoinRpcIsUrl. destruct (url_Parse _) as [err|].
  2:{ apply wp_ret. by intros ? [= <-]. }
  destruct (contains _ _ && _ && _); apply wp_ret; [|done]. intros c' [= <-].
  apply (complete_bitcoin t c _ _ ("http://" +:+ Btc.RpcHost (Bitcoin c)) H); [done|]. apply H.
Qed.

Lemma readCookie_ok path t :
  wp (readCookie path) (λ _ '(t', _), ∃ a, t' = event (ReadFile path) a :: t) stops_badly (t, ()).
Proof. unfold readCookie. do 3 io_step. by eexists. Qed.

Lemma BitcoinCookieConnect_ok : triple complete BitcoinCookieConnect complete.
Proof.
  intros t c H. unfold BitcoinCookieConnect. case_bool_decide.
  2:{ apply wp_ret. by intros ? [= <-]. }
  case_bool_decide as Hfile; [by apply wp_ret|]. io_step.
  eapply wp_mono; [apply readCookie_ok| |done]. intros [[user password] e] [t' []] [a ->]. apply wp_ret.
  intros c' [= <-]. apply (complete_cons t (ReadFile (Btc.RpcPasswordFile (Bitcoin c))) a) in H; [|done].
  apply (complete_bitcoin _ c user password (Btc.RpcHost (Bitcoin c)) H); [apply H|by right; right].
Qed.

Lemma ElementsCookieConnect_ok : triple complete ElementsCookieConnect complete.
Proof.
  intros t c H. unfold ElementsCookieConnect. case_bool_decide.
  2:{ apply wp_ret. by intros ? [= <-]. }
  pose proof H as (_ & _ & _ & _ & _ & (_ & [swaps Hswaps] & _)). rewrite Hswaps.
  io_step. apply wp_deref; [|done]. intros ? [= <-]. destruct swaps; cbn [negb].
  2:{ apply wp_ret. by intros ? [= <-]. }
  case_bool_decide as Hfile; [by apply wp_ret|]. io_step.
  eapply wp_mono; [apply readCookie_ok| |done]. intros [[user password] e] [t' []] [a ->]. apply wp_ret.
  intros c' [= <-]. apply (complete_cons t (ReadFile (Liq.RpcPasswordFile (Liquid c))) a) in H; [|done].
  by apply complete_liquid.
Qed.

Lemma CheckForDeprecatedApiConfig_ok isDev : triple complete (CheckForDeprecatedApiConfig isDev) complete.
Proof.
  intros t c H. unfold CheckForDeprecatedApiConfig. do 2 io_step.
  apply (complete_cons t ListConfigs (reply t ListConfigs)) in H; [|done].
  destruct (reply t ListConfigs) as [data|e]; [|by apply wp_ret].
  destruct (json_ClnConfig data) as [co|e]; [|by apply wp_ret]. io_step.
  destruct (negb _ && negb isDev).
  - io_step. apply wp_ret. intros c' [= <-]. by apply complete_cons.
  - apply wp_ret. apply wp_ret. by intros c' [= <-].
Qed.

Lemma GetConfig_ok isDev : triple (λ t c, t = [] ∧ c = empty_config)
  (Pipeline_Run
    [SetWorkingDir; SetPeerswapPaths; CheckForLegacyClnConfig; ReadFromFile; PeerSwapFallback;
     BitcoinFallbackFromClnConfig; SetBitcoinNetwork; BitcoinFallback; ElementsFallback;
     CheckBitcoinRpcIsUrl; BitcoinCookieConnect; ElementsCookieConnect;
     CheckForDeprecatedApiConfig isDev]) complete.
Proof.
  eapply Pipeline_cons; [apply SetWorkingDir_ok|].
  eapply Pipeline_cons; [apply SetPeerswapPaths_ok|].
  eapply Pipeline_cons; [apply CheckForLegacyClnConfig_ok|].
  eapply Pipeline_cons; [apply ReadFromFile_ok|].
  eapply Pipeline_cons; [apply PeerSwapFallback_ok|].
  eapply Pipeline_cons; [apply BitcoinFallbackFromClnConfig_ok|].
  eapply Pipeline_cons; [apply SetBitcoinNetwork_ok|].
  eapply Pipeline_cons; [apply BitcoinFallback_ok|].
  eapply Pipeline_cons; [apply ElementsFallback_ok|].
  eapply Pipeline_cons; [apply CheckBitcoinRpcIsUrl_ok|].
  eapply Pipeline_cons; [apply BitcoinCookieConnect_ok|].
  eapply Pipeline_cons; [apply ElementsCookieConnect_ok|].
  eapply Pipeline_cons; [apply CheckForDeprecatedApiConfig_ok|apply Pipeline_nil].
Qed.
End config.

(** C30. A configuration that [GetConfig] returns can be used: it comes from the plugin's
    directory, no deprecated option of core lightning was set, the switches of both
    chains are set (the program dereferences them), network, host, port, data directory
    and a credential or a cookie file of both nodes are there, a wallet kit that is
    configured has passed its validation, and the network of elementsd fits bitcoin's,
    while its port, if the file names none, is the default for that network: 7041 for a
    regtest node as for a mainnet one, since the default for "regtest" is looked up
    under "liquidregtest".  The run always ends, and it panics only for a section LWK
    without its switch or a null plugin in the configuration of core lightning. *)
Theorem config_complete {UL : UrlLib} {CFL : ConfigLib} {OR : Oracle answer} (isDev : bool) :
  match GetConfig isDev ([], ()) with
  | Ret (t, _) (Ok c) =>
      complete t c ∧
      (Btc.Network (Bitcoin c) = "regtest" → ¬ port_of_file t (Liq.RpcPort (Liquid c)) →
       Liq.RpcPort (Liquid c) = 7041 ∧ defaultElementsRpcPort "regtest" = 18443)
  | Ret _ (Err _) => True
  | Panic (t, _) => bad_input t
  | NoFuel _ => False
  end.
Proof.
  pose proof (GetConfig_ok isDev [] empty_config (conj eq_refl eq_refl)) as H.
  unfold wp in H. change (GetConfig isDev) with (Pipeline_Run
    [SetWorkingDir; SetPeerswapPaths; CheckForLegacyClnConfig; ReadFromFile; PeerSwapFallback;
     BitcoinFallbackFromClnConfig; SetBitcoinNetwork; BitcoinFallback; ElementsFallback;
     CheckBitcoinRpcIsUrl; BitcoinCookieConnect; ElementsCookieConnect;
     CheckForDeprecatedApiConfig isDev] empty_config).
  destruct (Pipeline_Run _ _ _) as [[t []] [c|e]|[t []]|[t []]].
  - specialize (H c eq_refl). split; [exact H|]. intros Hnet Hport.
    destruct H as (_ & _ & _ & _ & _ & (Hdir & _ & _ & Hp)). rewrite Hnet in Hdir. injection Hdir as Hdir.
    destruct Hp as [->|?]; [|done]. by rewrite <- Hdir.
  - done.
  - by destruct H.
  - by destruct H.
Qed.
