(* ===== verification/LndConfig.v ===== *)
(** * The configuration of peerswapd (src/cmd/peerswaplnd/config.go)

    [DefaultConfig], the validation, and the dump that also moves the policy file.  The
    directories of btcutil are arguments; go-flags, which fills the structures from
    the command line and the file, is not modelled. *)

From S2P Require Import Prelude GoLib Oracle LwkConfig ClnConfig.

Module Peerswapd.
Inductive LogLevel := LOGLEVEL_INFO | LOGLEVEL_DEBUG | LOGLEVEL_other (n : Z).
Record LogRotationConfig := mkRotation { MaxSize : Z; MaxBackups : Z; MaxAge : Z; Compress : bool }.
Record LndConfig := mkLnd { LndHost : string; TlsCertPath : string; MacaroonPath : string }.
Record OnchainConfig := mkOnchain {
  RpcUser : string; RpcPassword : string; RpcPasswordFile : string; RpcCookieFilePath : string;
  RpcHost : string; RpcPort : Z; RpcWallet : string; LiquidSwaps : bool }.
#[export] Instance eta_onchain : Eta OnchainConfig := λ o,
  mkOnchain (RpcUser o) (RpcPassword o) (RpcPasswordFile o) (RpcCookieFilePath o) (RpcHost o)
    (RpcPort o) (RpcWallet o) (LiquidSwaps o).
(** Pointers are options. *)
Record PeerSwapConfig := mkPeerSwap {
  cfg_Host : string; RestHost : string; ConfigFile : string; PolicyFile : string; DataDir : string;
  LogLevel_ : LogLevel; LogRotation : LogRotationConfig; LndConfig_ : option LndConfig;
  ElementsConfig : option OnchainConfig; LWKConfig : option lwk.Conf;
  LiquidEnabled : bool; BitcoinEnabled : bool }.
#[export] Instance eta_peerswap : Eta PeerSwapConfig := λ c,
  mkPeerSwap (cfg_Host c) (RestHost c) (ConfigFile c) (PolicyFile c) (DataDir c) (LogLevel_ c)
    (LogRotation c) (LndConfig_ c) (ElementsConfig c) (LWKConfig c) (LiquidEnabled c) (BitcoinEnabled c).

(** ** Defaults *)
Definition defaultLogRotationConfig : LogRotationConfig := mkRotation 10 5 28 true.
Definition defaultLiquidConfig : OnchainConfig := mkOnchain "" "" "" "" "" 0 "swap" true.
Definition DefaultPolicyFile (DefaultDatadir : string) : string :=
  filepath.Join [DefaultDatadir; "policy.conf"].
(** [DefaultDatadir] and [defaultLndDir]: [btcutil.AppDataDir] of "peerswap" and "lnd". *)
Definition DefaultConfig (DefaultDatadir defaultLndDir : string) : PeerSwapConfig :=
  mkPeerSwap "localhost:42069" "localhost:42070" (filepath.Join [DefaultDatadir; "peerswap.conf"])
    (DefaultPolicyFile DefaultDatadir) DefaultDatadir LOGLEVEL_DEBUG defaultLogRotationConfig
    (Some (mkLnd "localhost:10009" (filepath.Join [defaultLndDir; "tls.cert"])
             (filepath.Join [defaultLndDir; "data"; "chain"; "bitcoin"; "signet"; "admin.macaroon"])))
    (Some defaultLiquidConfig) None false true.

(** What the dump of the configuration does to it: the policy file follows the
    data directory. *)
Definition dump (DefaultDatadir : string) (p : PeerSwapConfig) : PeerSwapConfig :=
  if bool_decide (DataDir p ≠ DefaultDatadir ∧ PolicyFile p = DefaultPolicyFile DefaultDatadir)
  then p <| PolicyFile := filepath.Join [DataDir p; "policy.conf"] |> else p.

(** ** Validation *)
Definition LogRotation_Validate (l : LogRotationConfig) : option error :=
  if MaxSize l <=? 0 then Some (ErrText ("logrotation.maxsize must be > 0, got " +:+ strconv.Itoa (MaxSize l)))
  else if MaxBackups l <? 0
  then Some (ErrText ("logrotation.maxbackups must be >= 0, got " +:+ strconv.Itoa (MaxBackups l)))
  else if MaxAge l <? 0
  then Some (ErrText ("logrotation.maxage must be >= 0, got " +:+ strconv.Itoa (MaxAge l)))
  else None.

(** Whether a file is missing, and its content. *)
Inductive Call := Stat (path : string) | ReadFile (path : string).
Definition answer (c : Call) : Type :=
  match c with Stat _ => bool | ReadFile _ => result string end.
#[export] Instance Call_eq_dec : EqDecision Call.
Proof. solve_decision. Defined.

(** [strings.TrimRight(s, "\r\n")]. *)
Fixpoint TrimRight (s : string) : string :=
  match s with
  | EmptyString => ""
  | String c rest =>
      let rest' := TrimRight rest in
      let n := nat_of_ascii c in
      if bool_decide (rest' = "") && ((n =? 10) || (n =? 13))%nat then "" else String c rest'
  end.

Section validate.
Context {OR : Oracle answer}.
Abbreviation Io := (IO answer ()).

Definition OnchainConfig_Validate (o : OnchainConfig) : Io (result OnchainConfig) :=
  if bool_decide ((RpcCookieFilePath o = "" ∧ RpcUser o = "") ∧ RpcHost o ≠ "") then
    mret (Err (ErrText "either rpcuser or cookie file must be set"))
  else if bool_decide (RpcUser o = "") then
    let cookiePath := filepath.Join [RpcCookieFilePath o] in
    missing ← query (Stat cookiePath);
    if missing : bool then mret (Err (ErrText ("cannot find bitcoin cookie file at " +:+ cookiePath))) else
    let? cookieBytes := query (ReadFile cookiePath) else e => mret (Err e) in
    let cookie := strings.Split cookieBytes ":" in
    user ← deref (cookie !! 0%nat);
    password ← deref (cookie !! 1%nat);
    mret (Ok (o <| RpcUser := user |> <| RpcPassword := password |>))
  else
    if negb (bool_decide (RpcPassword o = "") || bool_decide (RpcPasswordFile o = "")) then
      mret (Err (ErrText "rpcpass or rpcpasswordfile must be set"))
    else if bool_decide (RpcPasswordFile o ≠ "") then
      let? passBytes := query (ReadFile (RpcPasswordFile o)) else e => mret (Err e) in
      mret (Ok (o <| RpcPassword := TrimRight passBytes |>))
    else mret (Ok o).

Definition Validate (p : PeerSwapConfig) : Io (result PeerSwapConfig) :=
  do? mret (LogRotation_Validate (LogRotation p)) else e => mret (Err e) in
  elements ← deref (ElementsConfig p);
  if bool_decide (RpcHost elements ≠ "") && LiquidSwaps elements then
    let? elements := OnchainConfig_Validate elements else e => mret (Err e) in
    mret (Ok (p <| ElementsConfig := Some elements |> <| LiquidEnabled := true |>))
  else
    conf ← deref (LWKConfig p);
    mret (Ok (if lwk.Enabled conf then p <| LiquidEnabled := true |> else p)).
End validate.

(** The section of the wallet kit, once go-flags has read it; its switch is a plain
    boolean. *)
Definition LWKFromIniFileConfig {UL : UrlLib} (cfg : lwk.LwkSection) (LiquidSwaps : bool) : result lwk.Conf :=
  match lwk.conf_of_section cfg with
  | Err e => Err e
  | Ok c => lwk.Build (lwk.SetLiquidSwaps LiquidSwaps c)
  end.

(** ** What a validated configuration guarantees *)
(** The access to elementsd: a user and what the cookie or the password file says. *)
Definition elements_access (t : Trace answer) (before after : OnchainConfig) : Prop :=
  (RpcUser before = "" ∧ RpcCookieFilePath before ≠ "" ∧ ∃ cookie rest,
     event (ReadFile (filepath.Join [RpcCookieFilePath before])) (Ok cookie) ∈ t ∧
     strings.Split cookie ":" = RpcUser after :: RpcPassword after :: rest) ∨
  (RpcUser before ≠ "" ∧ RpcUser after = RpcUser before ∧
   (RpcPassword before = "" ∨ RpcPasswordFile before = "") ∧
   if bool_decide (RpcPasswordFile before = "") then RpcPassword after = RpcPassword before
   else ∃ text, event (ReadFile (RpcPasswordFile before)) (Ok text) ∈ t ∧ RpcPassword after = TrimRight text).

(** The cookie file has no colon. *)
Definition no_colon (t : Trace answer) : Prop :=
  ∃ path cookie user, event (ReadFile path) (Ok cookie) ∈ t ∧ strings.Split cookie ":" = [user].

Lemma Split_not_nil s c : strings.Split s c ≠ [].
Proof. destruct s; cbn; [done|]. repeat case_match; done. Qed.

Section proofs.
Context {OR : Oracle answer}.
Lemma OnchainConfig_Validate_spec o t :
  RpcHost o ≠ "" →
  wp (OnchainConfig_Validate o)
    (λ r '(t', _), ∀ o', r = Ok o' → elements_access t' o o' ∧ RpcHost o' = RpcHost o ∧
       LiquidSwaps o' = LiquidSwaps o)
    (λ k '(t', _), k = Panicked ∧ no_colon t') (t, ()).
Proof.
  intros Hhost. unfold OnchainConfig_Validate. case_bool_decide as Hnone; [by apply wp_ret|].
  case_bool_decide as Huser.
  - do 2 io_step. set (path := filepath.Join _). destruct (reply t (Stat path)); [by apply wp_ret|].
    do 2 io_step. set (t1 := event (Stat path) _ :: t).
    destruct (reply t1 (ReadFile path)) as [cookie|e] eqn:Ef; [|by apply wp_ret].
    destruct (strings.Split cookie ":") as [|user [|password rest]] eqn:Es; [by apply Split_not_nil in Es| |].
    + io_step. apply wp_deref; [|done]. intros ? [= <-]. io_step. apply wp_deref; [done|]. intros _.
      split; [done|]. exists path, cookie, user. split; [left|done].
    + io_step. apply wp_deref; [|done]. intros ? [= <-]. io_step. apply wp_deref; [|done]. intros ? [= <-].
      apply wp_ret. intros o' [= <-]. split; [|done]. left. split; [done|]. split; [naive_solver|].
      exists cookie, rest. split; [left|done].
  - destruct (bool_decide (RpcPassword o = "")) eqn:Hp, (bool_decide (RpcPasswordFile o = "")) eqn:Hf;
      cbn [negb orb]; try by apply wp_ret.
    all: try rewrite bool_decide_eq_true in Hp; try rewrite bool_decide_eq_true in Hf.
    + rewrite bool_decide_false by naive_solver. apply wp_ret. intros o' [= <-]. split; [|done].
      right. split_and!; [done|done|by left|]. by rewrite bool_decide_true.
    + apply bool_decide_eq_false in Hf. rewrite bool_decide_true by done. do 2 io_step.
      destruct (reply t (ReadFile (RpcPasswordFile o))) as [text|e] eqn:Ef; apply wp_ret; [|done].
      intros o' [= <-]. split; [|done]. right. split_and!; [done|done|by left|].
      rewrite bool_decide_false by done. exists text. split; [left|done].
    + rewrite bool_decide_false by naive_solver. apply wp_ret. intros o' [= <-]. split; [|done].
      right. split_and!; [done|done|by right|]. by rewrite bool_decide_true.
Qed.

(** Elements is used when it has a host and is not switched off. *)
Definition uses_elements (o : OnchainConfig) : bool := bool_decide (RpcHost o ≠ "") && LiquidSwaps o.
Definition checked (t : Trace answer) (p p' : PeerSwapConfig) : Prop :=
  (0 < MaxSize (LogRotation p) ∧ 0 ≤ MaxBackups (LogRotation p) ∧ 0 ≤ MaxAge (LogRotation p)) ∧
  ∃ o, ElementsConfig p = Some o ∧
    if uses_elements o
    then ∃ o', p' = p <| ElementsConfig := Some o' |> <| LiquidEnabled := true |> ∧ elements_access t o o'
    else ∃ conf, LWKConfig p = Some conf ∧
      p' = p <| LiquidEnabled := LiquidEnabled p || lwk.Enabled conf |> ∧
      (lwk.Enabled conf = true → lwk.conf_ok conf).

Lemma LogRotation_Validate_spec l :
  LogRotation_Validate l = None → 0 < MaxSize l ∧ 0 ≤ MaxBackups l ∧ 0 ≤ MaxAge l.
Proof.
  unfold LogRotation_Validate.
  destruct (Z.leb_spec (MaxSize l) 0), (Z.ltb_spec (MaxBackups l) 0), (Z.ltb_spec (MaxAge l) 0); try done; lia.
Qed.

Lemma Validate_spec p :
  wp (Validate p) (λ r '(t, _), ∀ p', r = Ok p' → checked t p p')
    (λ k '(t, _), k = Panicked ∧ (ElementsConfig p = None ∨ LWKConfig p = None ∨ no_colon t)) ([], ()).
Proof.
  unfold Validate. do 2 io_step. destruct (LogRotation_Validate (LogRotation p)) as [e|] eqn:El; [by apply wp_ret|].
  apply LogRotation_Validate_spec in El. io_step. apply wp_deref; [|by auto]. intros o Ho.
  fold (uses_elements o). destruct (uses_elements o) eqn:Eu.
  - pose proof Eu as [Hhost%bool_decide_eq_true _]%andb_true_iff. io_step.
    eapply wp_mono; [by apply OnchainConfig_Validate_spec| |].
    + intros [o'|e] [t []] H; apply wp_ret; [|done]. intros p' [= <-]. destruct (H o' eq_refl) as (Ha & _).
      split; [done|]. exists o. split; [done|]. rewrite Eu. by exists o'.
    + intros k [t []] [-> ?]. auto.
  - io_step. apply wp_deref; [|by auto]. intros conf Hconf. apply wp_ret. intros p' [= <-].
    split; [done|]. exists o. split; [done|]. rewrite Eu. exists conf. split; [done|]. split.
    + destruct (lwk.Enabled conf); [by rewrite orb_true_r|]. rewrite orb_false_r. by destruct p.
    + intros H. by apply lwk.Enabled_built in H as [? _].
Qed.
End proofs.
End Peerswapd.

(** A configuration of peerswapd that passes its validation is complete: the log
    rotation is within bounds; elements is used when it has a host and is not switched
    off, and then has the user of the configuration or of the cookie file, with the
    password that goes with it; otherwise the switch of liquid stays as it was or is set
    because the wallet kit is enabled, whose endpoints and names are then valid.  The
    validation ends; it panics only without these parts, or on a cookie file without a
    colon, whose missing second half is indexed. *)
Theorem peerswapd_config_checked {OR : Oracle Peerswapd.answer} (p : Peerswapd.PeerSwapConfig) :
  match Peerswapd.Validate p ([], ()) with
  | Ret (t, _) (Ok p') => Peerswapd.checked t p p'
  | Ret _ (Err _) => True
  | Panic (t, _) => Peerswapd.ElementsConfig p = None ∨ Peerswapd.LWKConfig p = None ∨ Peerswapd.no_colon t
  | NoFuel _ => False
  end.
Proof.
  pose proof (Peerswapd.Validate_spec p) as H. unfold wp in H.
  destruct (Peerswapd.Validate p _) as [[t []] [p'|e]|[t []]|[t []]]; [by apply H|done|apply H|by destruct H].
Qed.
