(* ===== verification/LwkWallet.v ===== *)
(** * The wallet over the liquid wallet kit (src/lwk)

    client.go and lwkwallet.go.  An http exchange with lwk ([Post]) is a question, whose
    answer is what arrived; so are the calls to the electrum server and the decision
    of the backoff library to go on.  Deadlines are left out: an exchange that runs
    into one is answered with an error.  The last part says what the kit is asked for an
    opening transaction. *)

From Stdlib Require Import SpecFloat.
From S2P Require Import Prelude GoLib Env Oracle LwkConfig ElementsWallet.

(** ** Requests and responses (client.go)

    A nil pointer is [None]. *)
Record addressRequest := mkAddressRequest {
  ar_Index : option Z; ar_WalletName : string; ar_Signer : option string;
  ar_WithTextQr : bool; ar_WithUriQr : option Z }.
Record addressResponse := mkAddressResponse { ares_Address : string; ares_Index : option Z }.
Record unvalidatedAddressee := mkAddressee { ad_Address : string; ad_Asset : string; ad_Satoshi : Z }.
Record sendRequest := mkSendRequest {
  sr_Addressees : list unvalidatedAddressee; sr_FeeRate : option f64; sr_WalletName : string }.
Record sendResponse := mkSendResponse { sres_Pset : string }.
Record signRequest := mkSignRequest { sig_SignerName : string; sig_Pset : string }.
Record signResponse := mkSignResponse { sigres_Pset : string }.
Record broadcastRequest := mkBroadcastRequest { br_DryRun : bool; br_WalletName : string; br_Pset : string }.
Record broadcastResponse := mkBroadcastResponse { bres_Txid : string }.
Record balanceRequest := mkBalanceRequest { bal_WalletName : string; bal_WithTickers : bool }.
Record balanceResponse := mkBalanceResponse { balres_Balance : gmap string Z }.
Record walletDetailsRequest := mkWalletDetailsRequest { wd_WalletName : string }.
Record signerDetails := mkSignerDetails { sd_Fingerprint : string; sd_Name : string }.
Record walletDetailsResponse := mkWalletDetailsResponse {
  wdres_Signers : list signerDetails; wdres_Type : string; wdres_Warnings : string }.
Record generateSignerResponse := mkGenerateSignerResponse { gsres_Mnemonic : string }.
Record loadSoftwareSignerRequest := mkLoadSoftwareSignerRequest {
  ls_Mnemonic : string; ls_SignerName : string; ls_Persist : bool }.
Record loadSoftwareSignerResponse := mkLoadSoftwareSignerResponse {
  lsres_Fingerprint : string; lsres_ID : string; lsres_Name : string; lsres_Xpub : string }.
Record singlesigDescriptorRequest := mkSinglesigDescriptorRequest {
  ss_DescriptorBlindingKey : string; ss_SignerName : string; ss_SinglesigKind : string }.
Record singlesigDescriptorResponse := mkSinglesigDescriptorResponse { ssres_Descriptor : string }.
Record loadWalletRequest := mkLoadWalletRequest { lw_Descriptor : string; lw_WalletName : string }.
Record loadWalletResponse := mkLoadWalletResponse { lwres_Descriptor : string; lwres_Name : string }.
Record versionResponse := mkVersionResponse { vres_Version : string; vres_Network : string }.
Record WalletSetTxMemoRequest := mkWalletSetTxMemoRequest {
  memo_Memo : string; memo_WalletName : string; memo_Txid : string }.

(** The requests of the client, their names on the wire, and what each is answered with. *)
Inductive Method :=
  | Address (r : addressRequest)
  | SendMany (r : sendRequest)
  | Sign (r : signRequest)
  | Broadcast (r : broadcastRequest)
  | Balance (r : balanceRequest)
  | WalletDetails (r : walletDetailsRequest)
  | GenerateSigner
  | LoadSoftwareSigner (r : loadSoftwareSignerRequest)
  | SinglesigDescriptor (r : singlesigDescriptorRequest)
  | LoadWallet (r : loadWalletRequest)
  | LwkVersion
  | SetTxMemo (r : WalletSetTxMemoRequest).
Definition addressRequest_Name : string := "wallet_address".
Definition sendRequest_Name : string := "wallet_send_many".
Definition signRequest_Name : string := "signer_sign".
Definition broadcastRequest_Name : string := "wallet_broadcast".
Definition balanceRequest_Name : string := "wallet_balance".
Definition walletDetailsRequest_Name : string := "wallet_details".
Definition generateSignerRequest_Name : string := "signer_generate".
Definition loadSoftwareSignerRequest_Name : string := "signer_load_software".
Definition singlesigDescriptorRequest_Name : string := "signer_singlesig_descriptor".
Definition loadWalletRequest_Name : string := "wallet_load".
Definition versionRequest_Name : string := "version".
Definition WalletSetTxMemoRequest_Name : string := "wallet_set_tx_memo".
Definition Method_Name (m : Method) : string :=
  match m with
  | Address _ => addressRequest_Name
  | SendMany _ => sendRequest_Name
  | Sign _ => signRequest_Name
  | Broadcast _ => broadcastRequest_Name
  | Balance _ => balanceRequest_Name
  | WalletDetails _ => walletDetailsRequest_Name
  | GenerateSigner => generateSignerRequest_Name
  | LoadSoftwareSigner _ => loadSoftwareSignerRequest_Name
  | SinglesigDescriptor _ => singlesigDescriptorRequest_Name
  | LoadWallet _ => loadWalletRequest_Name
  | LwkVersion => versionRequest_Name
  | SetTxMemo _ => WalletSetTxMemoRequest_Name
  end.
Definition Response (m : Method) : Type :=
  match m with
  | Address _ => addressResponse | SendMany _ => sendResponse | Sign _ => signResponse
  | Broadcast _ => broadcastResponse | Balance _ => balanceResponse
  | WalletDetails _ => walletDetailsResponse | GenerateSigner => generateSignerResponse
  | LoadSoftwareSigner _ => loadSoftwareSignerResponse
  | SinglesigDescriptor _ => singlesigDescriptorResponse | LoadWallet _ => loadWalletResponse
  | LwkVersion => versionResponse | SetTxMemo _ => ()
  end.

(** The body of an http response, as the json decoder and jrpc2 see it. *)
Inductive Body (A : Type) := BadJson (e : error) | RpcError (e : error) | Raw (r : result A).
Arguments BadJson {A}. Arguments RpcError {A}. Arguments Raw {A}.
Record HttpResponse A := mkHttp { StatusCode : Z; ContentLength : Z; body : Body A }.
Arguments StatusCode {A}. Arguments ContentLength {A}. Arguments body {A}.

Module LwkRpc.
Inductive Call :=
  | Post (m : Method)
  | NextBackOff
  | GetRawTransaction (txid : string)
  | BroadcastTransaction (txHex : string)
  | ElectrumGetFee (blocks : Z)
  | ElectrumPing
  | NewElectrumClient (endpoint : string) (tls : bool).
(** The fee is a number even when there is an error. *)
Definition answer (c : Call) : Type :=
  match c with
  | Post m => result (HttpResponse (Response m))
  | NextBackOff => bool
  | GetRawTransaction _ | BroadcastTransaction _ => result string
  | ElectrumGetFee _ => f64 * option error
  | ElectrumPing | NewElectrumClient _ _ => option error
  end.
End LwkRpc.
Import LwkRpc.

(** The code in the json of an electrum error (error.go). *)
Class ErrorJson := rpc_error_code : string → result Z.

(** ** error.go: [^(.* ) RPC error: (.* )$] takes the last separator of a single line *)
Definition rpc_separator : string := " RPC error: ".
Fixpoint after_last (sep s : string) : option string :=
  match s with
  | EmptyString => None
  | String c rest =>
      match after_last sep rest with
      | Some r => Some r
      | None => if has_prefix sep s then Some (String.substring (String.length sep) (String.length s) s) else None
      end
  end.
Definition newline : ascii := ascii_of_nat 10.
Definition parseRPCError `{!ErrorJson} (err : error) : result Z :=
  let errStr := Error err in
  match (if strings.Contains errStr newline then None else after_last rpc_separator errStr) with
  | None => Err (ErrText errStr)
  | Some errJSON =>
      match rpc_error_code errJSON with
      | Err jerr => Err (ErrText ("error parsing rpc error: " +:+ Error jerr))
      | Ok code => Ok code
      end
  end.
Example parse_ex : after_last rpc_separator "errNo: 1 RPC error: x RPC error: {}" = Some "{}".
Proof. reflexivity. Qed.

(** ** Fee rates in sat/vB *)
(** The float64 nearest to 0.1. *)
Definition minimumFee : f64 := S754_finite false 7205759403792794 (-56).
Definition f64_lt (x y : f64) : bool := match SFcompare x y with Some Lt => true | _ => false end.
Definition SatPerVByteFromFeeBTCPerKb (feeBTCPerKb : f64) : f64 :=
  let s := f64_div (f64_mul feeBTCPerKb (f64_of_Z (10 ^ btcToSatoshiExp))) (f64_of_Z kb) in
  if f64_lt s minimumFee then minimumFee else s.
Definition SatPerVByte_GetFee (s : f64) (txSizeBytes : Z) : Z := f64_to_uint64 (f64_mul s (f64_of_Z txSizeBytes)).

Definition supportedRPCVersionPrefix : string := "0.18.".
Definition IsSupportedVersion (lwkVersion : string) : bool := has_prefix supportedRPCVersionPrefix lwkVersion.

(** What the client makes of an exchange. *)
Definition read_response {A} (exchange : result (HttpResponse A)) : result A :=
  match exchange with
  | Err e => Err e
  | Ok rezp =>
      let status := StatusCode rezp in
      let listed := bool_decide (status ∈ [400; 404; 500]) in
      if status =? 401 then Err (ErrText "authorization failed: Incorrect user or password")
      else if negb listed && (400 <? status)
      then Err (ErrText ("server returned HTTP error " +:+ strconv.Itoa status))
      else if negb listed && (ContentLength rezp =? 0) then Err (ErrText "no response from server")
      else match body rezp with
           | BadJson e => Err e
           | RpcError e => Err e
           | Raw r => r
           end
  end.

Section wallet.
Context {EJ : ErrorJson} {OR : Oracle answer} {S : Type}.
Abbreviation Io := (IO answer S).

(** ** The client *)
Definition request (m : Method) : Io (result (Response m)) :=
  rezp ← query (Post m); mret (read_response rezp).

(** [backoff.Retry] with at most [retries] repetitions; the error of the last attempt. *)
Fixpoint send_loop (retries : nat) (m : Method) : Io (result (Response m)) :=
  r ← request m;
  match r with
  | Ok resp => mret (Ok resp)
  | Err innerErr =>
      if contains (Error innerErr) "missing transaction" then
        match retries with
        | O => mret (Err innerErr)
        | Datatypes.S retries =>
            again ← query NextBackOff;
            if again : bool then send_loop retries m else mret (Err innerErr)
        end
      else mret (Err (ErrWrap ("permanent error: " +:+ Error innerErr) innerErr))
  end.
Definition maxRetries : nat := 5.
Definition send (r : sendRequest) : Io (result sendResponse) := send_loop maxRetries (SendMany r).
Definition address (r : addressRequest) : Io (result addressResponse) := request (Address r).
Definition sign (r : signRequest) : Io (result signResponse) := request (Sign r).
Definition broadcast (r : broadcastRequest) : Io (result broadcastResponse) := request (Broadcast r).
Definition balance (r : balanceRequest) : Io (result balanceResponse) := request (Balance r).
Definition walletDetails (r : walletDetailsRequest) : Io (result walletDetailsResponse) :=
  request (WalletDetails r).
Definition generateSigner : Io (result generateSignerResponse) := request GenerateSigner.
Definition loadSoftwareSigner (r : loadSoftwareSignerRequest) : Io (result loadSoftwareSignerResponse) :=
  request (LoadSoftwareSigner r).
Definition singlesigDescriptor (r : singlesigDescriptorRequest) : Io (result singlesigDescriptorResponse) :=
  request (SinglesigDescriptor r).
Definition loadWallet (r : loadWalletRequest) : Io (result loadWalletResponse) := request (LoadWallet r).
Definition version : Io (result versionResponse) := request LwkVersion.
Definition walletSetTxMemo (r : WalletSetTxMemoRequest) : Io (result ()) := request (SetTxMemo r).

(** ** The wallet *)
(** The configuration, and the asset ids of the networks in go-elements. *)
Context (c : lwk.Conf) (LiquidID RegtestID TestnetID : string).

Definition lwk_getFeeSatPerVByte : Io f64 :=
  r ← query (ElectrumGetFee LiquidTargetBlocks);
  mret (SatPerVByteFromFeeBTCPerKb (fst r)).
Definition lwk_GetFee (txSizeBytes : Z) : Io (result Z) :=
  rate ← lwk_getFeeSatPerVByte; mret (Ok (SatPerVByte_GetFee rate txSizeBytes)).

Definition wrapped {A} (text : string) (e : error) : result A := Err (ErrWrap (text +:+ Error e) e).

(** The id, the hex and the fee, which is always zero. *)
Definition lwk_CreateAndBroadcastTransaction (OpeningAddress : string) (Amount : Z)
    : Io (result (string * string * Z)) :=
  rate ← lwk_getFeeSatPerVByte;
  let feerate := f64_mul rate (f64_of_Z kb) in
  let? fundedTx := send (mkSendRequest [mkAddressee OpeningAddress "" Amount] (Some feerate) (lwk.walletName c))
    else e => mret (wrapped "failed to fund transaction: " e) in
  let? signed := sign (mkSignRequest (lwk.signerName c) (sres_Pset fundedTx))
    else e => mret (wrapped "failed to sign transaction: " e) in
  let? broadcasted := broadcast (mkBroadcastRequest false (lwk.walletName c) (sigres_Pset signed))
    else e => mret (wrapped "failed to broadcast transaction: " e) in
  let? hex := query (GetRawTransaction (bres_Txid broadcasted))
    else e => mret (wrapped "failed to get raw transaction: " e) in
  mret (Ok (bres_Txid broadcasted, hex, 0)).

(** int64 to uint64; a missing asset is zero. *)
Definition lwk_GetBalance : Io (result Z) :=
  let? res := balance (mkBalanceRequest (lwk.walletName c) false) else e => mret (Err e) in
  mret (Ok (u64 (default 0 (balres_Balance res !! lwk.GetAssetID LiquidID RegtestID TestnetID c)))).
Definition lwk_GetAddress : Io (result string) :=
  let? res := address (mkAddressRequest None (lwk.walletName c) None false None)
    else e => mret (Err e) in
  mret (Ok (ares_Address res)).
Definition lwk_SendToAddress (address : string) (amount : Z) : Io (result string) :=
  let? sendres := send (mkSendRequest [mkAddressee address "" amount] None (lwk.walletName c))
    else e => mret (Err e) in
  let? signed := sign (mkSignRequest (lwk.signerName c) (sres_Pset sendres)) else e => mret (Err e) in
  let? broadcastres := broadcast (mkBroadcastRequest false (lwk.walletName c) (sigres_Pset signed))
    else e => mret (Err e) in
  mret (Ok (bres_Txid broadcastres)).
Definition lwk_SendRawTx (txHex : string) : Io (result string) :=
  let? res := query (BroadcastTransaction txHex) else err =>
    mret match parseRPCError err with
         | Err pErr => Err (ErrText ("error parsing rpc error: " +:+ Error pErr))
         | Ok code => if code =? -26 then Err MinRelayFeeNotMetError else Err err
         end in
  mret (Ok res).
Definition lwk_SetLabel (txID address label : string) : Io (option error) :=
  r ← walletSetTxMemo (mkWalletSetTxMemoRequest label (lwk.walletName c) txID);
  mret match r with Ok _ => None | Err e => Some e end.
Definition lwk_Ping : Io (bool * option error) :=
  let? v := version
    else e => mret (false, Some (ErrText ("lwk connection failed: " +:+ Error e))) in
  err ← query ElectrumPing;
  mret (bool_decide (err = None), err).

(** ** Setting up *)
Definition tolerate (prefix : string) {A} (r : result A) : option error :=
  match r with
  | Ok _ => None
  | Err e => if has_prefix prefix (Error e) then None else Some e
  end.
Definition createWallet (walletName signerName : string) : Io (option error) :=
  let? res := generateSigner else e => mret (Some e) in
  loaded ← loadSoftwareSigner (mkLoadSoftwareSignerRequest (gsres_Mnemonic res) signerName true);
  do? mret (tolerate "-32011" loaded) else e => mret (Some e) in
  let? descres := singlesigDescriptor (mkSinglesigDescriptorRequest "slip77" signerName "wpkh")
    else e => mret (Some e) in
  wallet ← loadWallet (mkLoadWalletRequest (ssres_Descriptor descres) walletName);
  mret (tolerate "-32009" wallet).
Definition lwk_setupWallet : Io (option error) :=
  let? vres := version else e => mret (Some e) in
  let lwkVersion := vres_Version vres in
  if negb (IsSupportedVersion lwkVersion) then
    mret (Some (ErrText ("unsupported lwk version. expected: 0.18.x got: " +:+ lwkVersion)))
  else
    let? res := walletDetails (mkWalletDetailsRequest (lwk.walletName c)) else e =>
      (if has_prefix "-32008" (Error e) then createWallet (lwk.walletName c) (lwk.signerName c)
       else mret (Some e)) in
    match wdres_Signers res with
    | [signer] =>
        mret (if bool_decide (sd_Name signer = lwk.signerName c) then None
              else Some (ErrText ("signer name is not correct. expected: " +:+ lwk.signerName c +:+
                                  " got: " +:+ sd_Name signer)))
    | _ => mret (Some (ErrText "invalid number of signers"))
    end.

(** [None] for a wallet that was set up. *)
Definition NewLWKRpcWallet : Io (option error) :=
  if negb (lwk.Enabled c) then mret (Some (ErrText "LWKRpcWallet is not enabled"))
  else
    endpoint ← deref (lwk.GetElectrumEndpoint c);
    tls ← deref (lwk.IsElectrumWithTLS c);
    do? query (NewElectrumClient endpoint tls) else e => mret (Some e) in
    lwk_endpoint ← deref (lwk.GetLWKEndpoint c);
    lwk_setupWallet.
End wallet.

(** ** What the wallet kit is asked for an opening transaction *)
#[export] Instance f64_eq_dec : EqDecision f64.
Proof. solve_decision. Defined.
#[export] Instance addressee_eq_dec : EqDecision unvalidatedAddressee.
Proof. solve_decision. Defined.
#[export] Instance addressRequest_eq_dec : EqDecision addressRequest.
Proof. solve_decision. Defined.
#[export] Instance sendRequest_eq_dec : EqDecision sendRequest.
Proof. solve_decision. Defined.
#[export] Instance signRequest_eq_dec : EqDecision signRequest.
Proof. solve_decision. Defined.
#[export] Instance broadcastRequest_eq_dec : EqDecision broadcastRequest.
Proof. solve_decision. Defined.
#[export] Instance balanceRequest_eq_dec : EqDecision balanceRequest.
Proof. solve_decision. Defined.
#[export] Instance walletDetailsRequest_eq_dec : EqDecision walletDetailsRequest.
Proof. solve_decision. Defined.
#[export] Instance loadSoftwareSignerRequest_eq_dec : EqDecision loadSoftwareSignerRequest.
Proof. solve_decision. Defined.
#[export] Instance singlesigDescriptorRequest_eq_dec : EqDecision singlesigDescriptorRequest.
Proof. solve_decision. Defined.
#[export] Instance loadWalletRequest_eq_dec : EqDecision loadWalletRequest.
Proof. solve_decision. Defined.
#[export] Instance WalletSetTxMemoRequest_eq_dec : EqDecision WalletSetTxMemoRequest.
Proof. solve_decision. Defined.
#[export] Instance Method_eq_dec : EqDecision Method.
Proof. solve_decision. Defined.
#[export] Instance LwkCall_eq_dec : EqDecision Call.
Proof. solve_decision. Defined.

(** The fee rate is never below the minimum, whatever the server says, an error included. *)
Lemma fee_rate_minimum fee : f64_lt (SatPerVByteFromFeeBTCPerKb fee) minimumFee = false.
Proof.
  unfold SatPerVByteFromFeeBTCPerKb.
  match goal with |- context [if f64_lt ?s minimumFee then _ else _] => destruct (f64_lt s minimumFee) eqn:E end.
  - by vm_compute.
  - exact E.
Qed.

Section wallet.
Context {EJ : ErrorJson} {OR : Oracle answer} {S : Type}.
Implicit Types (t : Trace answer) (s : S).

Lemma wp_request m (P : result (Response m) → Trace answer * S → Prop) R t s :
  (∀ resp, resp = reply t (Post m) → P (read_response resp) (event (Post m) resp :: t, s)) →
  wp (request m) P R (t, s).
Proof. intros H. unfold request. do 3 io_step. by apply H. Qed.

Definition posts (m : Method) (l : list (Event answer)) : nat :=
  length (filter (λ e, question e = Post m) l).
(** Only this request, again and again. *)
Definition only_posts (m : Method) (l : Trace answer) : Prop :=
  Forall (λ e, question e = Post m ∨ question e = NextBackOff) l.

Lemma only_posts_one m resp : only_posts m [event (Post m) resp].
Proof. apply Forall_singleton. by left. Qed.
Lemma only_posts_backoff m x l : only_posts m l → only_posts m (event NextBackOff x :: l).
Proof. intros H. constructor; [by right|done]. Qed.
Lemma posts_one m resp : posts m [event (Post m) resp] = 1%nat.
Proof. unfold posts. by rewrite filter_cons_True. Qed.
Lemma posts_backoff m x l : posts m (event NextBackOff x :: l) = posts m l.
Proof. unfold posts. by rewrite filter_cons_False. Qed.
Lemma posts_app m l1 l2 : posts m (l1 ++ l2) = (posts m l1 + posts m l2)%nat.
Proof. unfold posts. by rewrite filter_app, length_app. Qed.

Lemma send_loop_spec n m t s :
  wp (send_loop n m)
    (λ r '(t', s'), s' = s ∧ ∃ new, t' = new ++ t ∧ only_posts m new ∧ (posts m new ≤ n + 1)%nat ∧
       ∀ a, r = Ok a → ∃ resp, event (Post m) resp ∈ new ∧ read_response resp = Ok a) no_stop (t, s).
Proof.
  revert t. induction n as [|n IH]; intros t; cbn [send_loop]; io_step; apply wp_request; intros resp _;
    destruct (read_response resp) as [a|e] eqn:Er.
  1, 3: apply wp_ret; (split; [done|]); exists [event (Post m) resp]; (split; [done|]);
    (split; [apply only_posts_one|]); (split; [rewrite posts_one; lia|]); intros a' [= <-];
    exists resp; (split; [left|done]).
  - destruct (contains _ _); apply wp_ret; (split; [done|]); exists [event (Post m) resp];
      (split; [done|]); (split; [apply only_posts_one|]); (split; [rewrite posts_one; lia|done]).
  - destruct (contains _ _).
    2:{ apply wp_ret. split; [done|]. exists [event (Post m) resp].
        split; [done|]. split; [apply only_posts_one|]. split; [rewrite posts_one; lia|done]. }
    do 2 io_step. destruct (reply _ NextBackOff) eqn:Eb.
    2:{ apply wp_ret. split; [done|]. exists [event NextBackOff false; event (Post m) resp].
        split; [done|]. split; [apply only_posts_backoff, only_posts_one|].
        split; [rewrite posts_backoff, posts_one; lia|done]. }
    eapply wp_mono; [apply IH| |done]. intros r [t' s'] (-> & new & -> & Hp & Hc & Hr). split; [done|].
    exists (new ++ [event NextBackOff true; event (Post m) resp]). split; [by rewrite <- (assoc_L (++))|].
    split; [apply Forall_app; split; [done|apply only_posts_backoff, only_posts_one]|].
    split; [rewrite posts_app, posts_backoff, posts_one; lia|].
    intros a Ha. destruct (Hr a Ha) as (resp' & Hin & ?). exists resp'. split; [|done].
    apply elem_of_app. by left.
Qed.

Lemma app_assoc_one {A} (l : list A) x l' : l ++ x :: l' = (l ++ [x]) ++ l'.
Proof. by rewrite <- (assoc_L (++)). Qed.

(** ** The opening transaction *)
Context (c : lwk.Conf).

(** The transaction with this id was handed out. *)
Definition published (l : Trace answer) (txid : string) : Prop :=
  ∃ r resp, event (Post (Broadcast r)) resp ∈ l ∧ read_response resp = Ok (mkBroadcastResponse txid).
Definition is_send (m : Method) : bool := match m with SendMany _ => true | _ => false end.
Definition is_broadcast (e : Event answer) : bool :=
  match question e with Post (Broadcast _) => true | _ => false end.
Definition broadcasts (l : list (Event answer)) : nat := length (filter (λ e, is_broadcast e = true) l).

(** Of the questions to the kit: this payment, and what completes it. *)
Definition only_pays (pay : Method) (e : Event answer) : Prop :=
  match question e with
  | Post (Sign r) => sig_SignerName r = lwk.signerName c
  | Post (Broadcast r) => br_WalletName r = lwk.walletName c ∧ br_DryRun r = false
  | Post m => m = pay
  | _ => True
  end.

Definition opening_answer (new : Trace answer) (r : result (string * string * Z)) : Prop :=
  match r with
  | Ok (txid, hex, fee) =>
      fee = 0 ∧ published new txid ∧ event (GetRawTransaction txid) (Ok hex) ∈ new
  | Err _ => (∀ txid, ¬ published new txid) ∨
             ∃ txid e, published new txid ∧ event (GetRawTransaction txid) (Err e) ∈ new
  end.

Lemma only_pays_loop pay l : is_send pay = true → only_posts pay l → Forall (only_pays pay) l.
Proof.
  intros Hpay Hl. eapply Forall_impl; [exact Hl|]. intros e. unfold only_pays. intros [-> | ->]; [|done].
  by destruct pay.
Qed.
Lemma no_broadcast_loop pay l : is_send pay = true → only_posts pay l →
  broadcasts l = 0%nat ∧ (∀ txid, ¬ published l txid).
Proof.
  intros Hpay Hl. split.
  - unfold broadcasts. induction Hl as [|e l He _ IH]; [done|]. rewrite filter_cons_False; [done|].
    unfold is_broadcast. destruct He as [-> | ->]; [by destruct pay|done].
  - intros txid (r & resp & Hin & _). unfold only_posts in Hl. rewrite Forall_forall in Hl.
    destruct (Hl _ Hin) as [Hq|Hq]; [|done]. injection Hq as <-. done.
Qed.
Lemma published_cons e l txid : published l txid → published (e :: l) txid.
Proof. intros (r & resp & ? & ?). exists r, resp. split; [by right|done]. Qed.
Lemma published_cons_inv e l txid :
  published (e :: l) txid → published l txid ∨ ∃ r resp, e = event (Post (Broadcast r)) resp ∧
    read_response resp = Ok (mkBroadcastResponse txid).
Proof.
  intros (r & resp & [Heq|Hin]%elem_of_cons & ?); [right|left]; by exists r, resp.
Qed.

(** The record of a run so far, and one more question. *)
Definition record_ok (pay : Method) (k : nat) (new : list (Event answer)) : Prop :=
  Forall (only_pays pay) new ∧ (posts pay new ≤ maxRetries + 1)%nat ∧ (broadcasts new ≤ k)%nat.
Lemma record_ok_cons pay k e new :
  record_ok pay k new → question e ≠ Post pay → only_pays pay e →
  record_ok pay (if is_broadcast e then 1 + k else k) (e :: new).
Proof.
  intros (Hall & Hp & Hb) Hq He. split; [by constructor|]. split.
  - unfold posts. by rewrite filter_cons_False.
  - unfold broadcasts. destruct (is_broadcast e) eqn:E.
    + rewrite filter_cons_True by done. cbn [length]. unfold broadcasts in Hb. lia.
    + by rewrite filter_cons_False by congruence.
Qed.

Definition opening_record (address : string) (amount : Z) (new : list (Event answer)) : Prop :=
  ∃ rate, f64_lt rate minimumFee = false ∧
    record_ok (SendMany (mkSendRequest [mkAddressee address "" amount] (Some (f64_mul rate (f64_of_Z kb)))
                 (lwk.walletName c))) 1 new.

Lemma record_ok_mono pay k k' new : record_ok pay k new → (k ≤ k')%nat → record_ok pay k' new.
Proof. intros (? & ? & ?) Hk. split_and!; [done|done|lia]. Qed.

(** Signature, broadcast and transaction. *)
Definition complete_opening (fundedTx : sendResponse) : IO answer S (result (string * string * Z)) :=
  let? signed := sign (mkSignRequest (lwk.signerName c) (sres_Pset fundedTx))
    else e => mret (wrapped "failed to sign transaction: " e) in
  let? broadcasted := broadcast (mkBroadcastRequest false (lwk.walletName c) (sigres_Pset signed))
    else e => mret (wrapped "failed to broadcast transaction: " e) in
  let? hex := query (GetRawTransaction (bres_Txid broadcasted))
    else e => mret (wrapped "failed to get raw transaction: " e) in
  mret (Ok (bres_Txid broadcasted, hex, 0)).

Lemma complete_opening_spec pay fundedTx new t s :
  is_send pay = true → record_ok pay 0 new → (∀ txid, ¬ published new txid) →
  wp (complete_opening fundedTx)
    (λ r '(t', s'), s' = s ∧ ∃ new', t' = new' ++ t ∧ record_ok pay 1 new' ∧ opening_answer new' r)
    no_stop (new ++ t, s).
Proof.
  intros Hpay H1 Hpub1. unfold complete_opening, sign, broadcast. io_step.
  apply (wp_request (Sign (mkSignRequest (lwk.signerName c) (sres_Pset fundedTx)))). intros resp _.
  set (sign_event := event (Post _) resp).
  assert (record_ok pay 0 (sign_event :: new)) as H2
    by (apply (record_ok_cons pay 0 sign_event); [done| |done]; by destruct pay).
  assert (∀ txid, ¬ published (sign_event :: new) txid) as Hpub2.
  { intros txid [H|(rq & resp' & H & _)]%published_cons_inv; [by eapply Hpub1|].
    by apply (f_equal question) in H. }
  destruct (read_response resp) as [signed|e].
  2:{ apply wp_ret. split; [done|]. exists (sign_event :: new). split; [done|].
      split; [by apply (record_ok_mono _ 0 1); [|lia]|by left]. }
  io_step. apply (wp_request (Broadcast (mkBroadcastRequest false (lwk.walletName c) (sigres_Pset signed)))).
  intros resp2 _. set (cast := event (Post _) resp2).
  assert (record_ok pay 1 (cast :: sign_event :: new)) as H3
    by (apply (record_ok_cons pay 0 cast); [done| |done]; by destruct pay).
  destruct (read_response resp2) as [[txid]|e] eqn:Ecast.
  2:{ apply wp_ret. split; [done|]. exists (cast :: sign_event :: new). split; [done|]. split; [done|].
      left. intros txid [H|(rq & resp' & H & Hr)]%published_cons_inv; [by eapply Hpub2|].
      pose proof (f_equal question H) as Hq. cbn in Hq. injection Hq as <-.
      apply event_inj in H as <-. congruence. }
  assert (published (cast :: sign_event :: new) txid) as Hpub.
  { do 2 eexists. split; [left|exact Ecast]. }
  do 2 io_step. cbn [bres_Txid]. set (raw := event (GetRawTransaction txid) _).
  assert (record_ok pay 1 (raw :: cast :: sign_event :: new)) as H4 by by apply (record_ok_cons pay 1 raw).
  apply (published_cons raw) in Hpub.
  assert (raw = event (GetRawTransaction txid) (reply (cast :: sign_event :: new ++ t) (GetRawTransaction txid))) as Hraw
    by done.
  destruct (reply (cast :: sign_event :: new ++ t) (GetRawTransaction txid)) as [hex|e];
    apply wp_ret; (split; [done|]); exists (raw :: cast :: sign_event :: new); (split; [done|]); (split; [done|]).
  - split; [done|]. split; [done|]. rewrite Hraw. left.
  - right. exists txid, e. split; [done|]. rewrite Hraw. left.
Qed.

Lemma opening_spec address amount t s :
  wp (lwk_CreateAndBroadcastTransaction c address amount)
    (λ r '(t', s'), s' = s ∧ ∃ new, t' = new ++ t ∧ opening_record address amount new ∧ opening_answer new r)
    no_stop (t, s).
Proof.
  unfold lwk_CreateAndBroadcastTransaction, lwk_getFeeSatPerVByte. do 4 io_step.
  set (rate := SatPerVByteFromFeeBTCPerKb _). set (fee_event := event (ElectrumGetFee _) _).
  set (pay := SendMany (mkSendRequest [mkAddressee address "" amount] (Some (f64_mul rate (f64_of_Z kb)))
    (lwk.walletName c))).
  assert (∀ new, record_ok pay 1 new → opening_record address amount new) as Hrecord.
  { intros new H. exists rate. split; [apply fee_rate_minimum|exact H]. }
  io_step. eapply wp_mono; [apply (send_loop_spec _ pay)| |done].
  intros r [t1 s1] (-> & new & -> & Hnew & Hcount & _).
  destruct (no_broadcast_loop pay new) as [Hb Hpub]; [done..|].
  assert (record_ok pay 0 (new ++ [fee_event])) as H1.
  { split; [apply Forall_app; split; [by apply only_pays_loop|by repeat constructor]|]. split.
    - assert (posts pay [fee_event] = 0%nat) as Hfee by (unfold posts; by rewrite filter_cons_False).
      rewrite posts_app, Hfee. lia.
    - unfold broadcasts in *. rewrite filter_app, length_app, Hb, filter_cons_False by done. cbn. lia. }
  assert (∀ txid, ¬ published (new ++ [fee_event]) txid) as Hpub1.
  { intros txid (rq & resp & [Hin|Hin%list_elem_of_singleton]%elem_of_app & ?); [|done].
    eapply Hpub. by exists rq, resp. }
  rewrite (app_assoc_one new fee_event t). destruct r as [fundedTx|e].
  - eapply wp_mono; [by apply (complete_opening_spec pay fundedTx)| |done].
    intros r [t' s'] (-> & new' & -> & Hr & Ha). split; [done|]. exists new'. split_and!; auto.
  - apply wp_ret. split; [done|]. exists (new ++ [fee_event]). split; [done|].
    split; [apply Hrecord; by apply (record_ok_mono _ 0 1); [|lia]|by left].
Qed.
End wallet.

(** C21. The wallet kit is asked for exactly the opening transaction of the swap: the only
    payment it is asked for is the given amount to the given address, at a fee rate that
    is never below the minimum whatever the fee source says, at most six times, and at
    most one transaction is broadcast; the call always returns.  An answer names a
    transaction that was broadcast, and its fee is always zero.  An error, however, does
    not mean that nothing was published: when only reading the transaction back from
    the electrum server fails, the caller gets an error for a transaction that is out. *)
Theorem lwk_opening_published {OR : Oracle answer} {S : Type} (c : lwk.Conf) (address : string)
    (amount : Z) (t : Trace answer) (s : S) :
  ∃ new r, lwk_CreateAndBroadcastTransaction c address amount (t, s) = Ret (new ++ t, s) r ∧
    opening_record c address amount new ∧ opening_answer new r.
Proof.
  destruct (wp_total _ _ _ (opening_spec c address amount t s)) as ([t' s'] & r & E & -> & new & -> & H1 & H2).
  by exists new, r.
Qed.
