(* ===== verification/Rpc.v ===== *)
(** * What the RPC interfaces show (src/peersync/format, src/peerswaprpc)

    The view of a peer with its swap statistics, the messages of the RPC
    interface, and the conversions into them.  An enumeration of protobuf is an
    int32, so it has values besides the named ones. *)

From S2P Require Import LndClient.
From S2P Require Import Prelude GoLib Messages Premium Policy SwapData Timelock Env Store.
From S2P Require Import PeerCapability.

(** Functions of lnwire, and of the standard library where their documentation
    leaves the result open: the order of equal elements in [sort.Slice], and the
    text of [fmt.Errorf] for a format with verbs and no arguments. *)
Class RpcLib := {
  ToUint64 : ShortChannelID → Z;
  sort_Slice : ∀ {A}, (A → A → bool) → list A → list A;
  sort_Slice_perm : ∀ {A} (less : A → A → bool) l, sort_Slice less l ≡ₚ l;
  sort_Slice_sorted : ∀ {A} (key : A → Z) l,
    Sorted.StronglySorted (λ a b, key a ≤ key b) (sort_Slice (λ a b, key a <? key b) l);
  Sprintf : string → string;
  Sprintf_plain : ∀ s, strings.Contains s "%" = false → Sprintf s = s;
}.

(** ** format/peer_view.go *)
Module format.
Record SwapStats := mkStats { SwapsOut : Z; SwapsIn : Z; SatsOut : Z; SatsIn : Z }.
#[export] Instance eta_stats : Eta SwapStats := λ s,
  mkStats (SwapsOut s) (SwapsIn s) (SatsOut s) (SatsIn s).
Record PremiumRate := mkRate { Asset : AssetType; Operation : OperationType; RatePPM : Z }.
Record PeerView := mkView {
  NodeID : string;
  SwapsAllowed : bool;
  SupportedAssets : list string;
  PaidFee : Z;
  Sender : SwapStats;
  Receiver : SwapStats;
  Premiums : list PremiumRate;
}.

Definition PremiumRateValue (c : PeerCapability) (asset : AssetType) (operation : OperationType) : Z :=
  rate_ppm (GetPremiumRate c asset operation).
Definition buildPremiumRates (capability : PeerCapability) : list PremiumRate :=
  (λ combo, mkRate combo.1 combo.2 (PremiumRateValue capability combo.1 combo.2)) <$>
    [(BTC, SwapIn); (BTC, SwapOut); (LBTC, SwapIn); (LBTC, SwapOut)].

(** [stats.SwapsOut++; stats.SatsOut += amount], and the same for a swap-in. *)
Definition count_swap (ty : SwapType) (amount : Z) (stats : SwapStats) : SwapStats :=
  match ty with
  | SWAPTYPE_OUT => stats <| SwapsOut := u64 (SwapsOut stats + 1) |>
                          <| SatsOut := u64 (SatsOut stats + amount) |>
  | _ => stats <| SwapsIn := u64 (SwapsIn stats + 1) |>
               <| SatsIn := u64 (SatsIn stats + amount) |>
  end.

Fixpoint summarize_loop (swaps : list SwapStateMachine) (sender receiver : SwapStats) (paidFee : Z)
    : SwapStats * SwapStats * Z :=
  match swaps with
  | [] => (sender, receiver, paidFee)
  | s :: swaps =>
      if bool_decide (sm_Current s ≠ State_ClaimedPreimage) then
        summarize_loop swaps sender receiver paidFee
      else
        let amount := GetAmount (sm_Data s) in
        match sm_Role s with
        | SWAPROLE_SENDER =>
            summarize_loop swaps (count_swap (sm_Type s) amount sender) receiver
              (u64 (paidFee + OpeningTxFee (sm_Data s)))
        | _ => summarize_loop swaps sender (count_swap (sm_Type s) amount receiver) paidFee
        end
  end.
Definition no_stats : SwapStats := mkStats 0 0 0 0.
Definition summarizeSwaps (swaps : list SwapStateMachine) : SwapStats * SwapStats * Z :=
  summarize_loop swaps no_stats no_stats 0.

Definition BuildPeerView (nodeID : string) (capability : option PeerCapability)
    (swaps : list SwapStateMachine) : PeerView :=
  let '(sender, receiver, paidFee) := summarizeSwaps swaps in
  match capability with
  | Some c => mkView nodeID (cap_isPeerAllowed c) (Asset_String <$> cap_supportedAssets c)
                paidFee sender receiver (buildPremiumRates c)
  | None => mkView nodeID false [] paidFee sender receiver []
  end.
End format.

(** ** The messages of the interface *)
Module rpc.
Inductive AssetType := ASSET_UNSPECIFIED | AssetType_BTC | AssetType_LBTC | AssetType_other (n : Z).
Inductive OperationType :=
  | OPERATION_UNSPECIFIED | OperationType_SWAP_IN | OperationType_SWAP_OUT | OperationType_other (n : Z).

(** The generated [String] methods: the name, or the number. *)
Definition AssetType_String (a : AssetType) : string :=
  match a with
  | ASSET_UNSPECIFIED => "ASSET_UNSPECIFIED" | AssetType_BTC => "BTC" | AssetType_LBTC => "LBTC"
  | AssetType_other n => strconv.Itoa n
  end.
Definition OperationType_String (o : OperationType) : string :=
  match o with
  | OPERATION_UNSPECIFIED => "OPERATION_UNSPECIFIED"
  | OperationType_SWAP_IN => "SWAP_IN" | OperationType_SWAP_OUT => "SWAP_OUT"
  | OperationType_other n => strconv.Itoa n
  end.

Record PremiumRate := mkPremiumRate {
  rate_Asset : AssetType; rate_Operation : OperationType; PremiumRatePpm : Z }.
Record PeerPremium := mkPeerPremium { pp_NodeId : string; Rates : list PremiumRate }.
Record SwapStats := mkSwapStats { SwapsOut : Z; SwapsIn : Z; SatsOut : Z; SatsIn : Z }.
Record PeerSwapPeerChannel := mkPeerChannel {
  ChannelId : Z; ShortChannelId : string; ch_LocalBalance : Z; ch_RemoteBalance : Z; ch_Active : bool }.
Record PeerSwapPeer := mkPeerSwapPeer {
  peer_NodeId : string;
  SwapsAllowed : bool;
  SupportedAssets : list string;
  Channels : list PeerSwapPeerChannel;
  AsSender : SwapStats;
  AsReceiver : SwapStats;
  PaidFee : Z;
  PeerPremium_ : option PeerPremium;
}.
Record Policy := mkPolicy {
  pol_ReserveOnchainMsat : Z;
  pol_MinSwapAmountMsat : Z;
  pol_AcceptAllPeers : bool;
  pol_AllowNewSwaps : bool;
  AllowlistedPeers : list string;
  pol_SuspiciousPeerList : list string;
}.
Record PrettyPrintSwap := mkPretty {
  Id : string; pp_CreatedAt : Z; pp_Asset : string; Type_ : string; Role_ : string; State_ : StateType;
  pp_InitiatorNodeId : string; pp_PeerNodeId : string; pp_Amount : Z; pp_ChannelId : string;
  pp_OpeningTxId : string; pp_ClaimTxId : string; pp_CancelMessage : string;
  LndChanId : Z; PremiumAmount : Z;
}.
End rpc.
#[export] Instance rpc_AssetType_eq_dec : EqDecision rpc.AssetType.
Proof. solve_decision. Defined.
#[export] Instance rpc_OperationType_eq_dec : EqDecision rpc.OperationType.
Proof. solve_decision. Defined.
#[export] Instance eta_rpc_peer : Eta rpc.PeerSwapPeer := λ p,
  rpc.mkPeerSwapPeer (rpc.peer_NodeId p) (rpc.SwapsAllowed p) (rpc.SupportedAssets p)
    (rpc.Channels p) (rpc.AsSender p) (rpc.AsReceiver p) (rpc.PaidFee p) (rpc.PeerPremium_ p).

(** ** Conversions *)
Definition toPremiumAssetType (a : rpc.AssetType) : AssetType :=
  match a with
  | rpc.AssetType_BTC => BTC | rpc.AssetType_LBTC => LBTC | _ => AsserUnspecified
  end.
Definition toPremiumOperationType (o : rpc.OperationType) : OperationType :=
  match o with
  | rpc.OperationType_SWAP_IN => SwapIn | rpc.OperationType_SWAP_OUT => SwapOut
  | _ => OperationUnspecified
  end.
Definition ToAssetType (a : AssetType) : rpc.AssetType :=
  match a with
  | BTC => rpc.AssetType_BTC | LBTC => rpc.AssetType_LBTC | _ => rpc.ASSET_UNSPECIFIED
  end.
Definition ToOperationType (o : OperationType) : rpc.OperationType :=
  match o with
  | SwapIn => rpc.OperationType_SWAP_IN | SwapOut => rpc.OperationType_SWAP_OUT
  | _ => rpc.OPERATION_UNSPECIFIED
  end.

Definition GetPolicyMessage (p : Policy) : rpc.Policy :=
  rpc.mkPolicy (ReserveOnchainMsat p) (MinSwapAmountMsat p) (AcceptAllPeers p) (AllowNewSwaps p)
    (PeerAllowlist p) (SuspiciousPeerList p).

Definition convertStats (s : format.SwapStats) : rpc.SwapStats :=
  rpc.mkSwapStats (format.SwapsOut s) (format.SwapsIn s) (format.SatsOut s) (format.SatsIn s).
Definition convertPremiums (rates : list format.PremiumRate) : list rpc.PremiumRate :=
  (λ r, rpc.mkPremiumRate (ToAssetType (format.Asset r)) (ToOperationType (format.Operation r))
          (format.RatePPM r)) <$> rates.
Definition NewPeerSwapPeerFromView (view : format.PeerView) : rpc.PeerSwapPeer :=
  let rates := convertPremiums (format.Premiums view) in
  rpc.mkPeerSwapPeer (format.NodeID view) (format.SwapsAllowed view) (format.SupportedAssets view) []
    (convertStats (format.Sender view)) (convertStats (format.Receiver view)) (format.PaidFee view)
    (match rates with [] => None | _ => Some (rpc.mkPeerPremium (format.NodeID view) rates) end).

Definition u16 (z : Z) : Z := z mod 2 ^ 16.
Definition NewScidFromString (scid : string) : result ShortChannelID :=
  match strings.Split (strings.ReplaceAll scid "x" ":") ":" with
  | [p0; p1; p2] =>
      match strconv.Atoi p0 with
      | Err e => Err e
      | Ok blockHeight =>
          match strconv.Atoi p1 with
          | Err e => Err e
          | Ok txIndex =>
              match strconv.Atoi p2 with
              | Err e => Err e
              | Ok txPosition => Ok (mkScid (u32 blockHeight) (u32 txIndex) (u16 txPosition))
              end
          end
      end
  | _ => Err (ErrText "expected scid to be composed of 3 blocks")
  end.

Definition PrettyprintFromServiceSwap `{!RpcLib} (swp : SwapStateMachine) : rpc.PrettyPrintSwap :=
  let d := sm_Data swp in
  let lnd_chan_id := match NewScidFromString (GetScid d) with Ok scid => ToUint64 scid | Err _ => 0 end in
  rpc.mkPretty (SwapId_String (sm_SwapId swp)) (CreatedAt d) (GetChain d) (SwapType_String (sm_Type swp))
    (SwapRole_String (sm_Role swp)) (sm_Current swp) (InitiatorNodeId d) (PeerNodeId d) (GetAmount d)
    (GetScid d) (GetOpeningTxId d) (ClaimTxId d) (GetCancelMessage d) lnd_chan_id
    (if bool_decide (sm_Role swp = SWAPROLE_SENDER) then i64 (- GetPremium d) else GetPremium d).

(** *** Channels of lnd *)
Definition findChannels (peerId : string) (channelList : list Channel) : list Channel :=
  filter (λ v, RemotePubkey v = peerId) channelList.
Definition lnrpcChannelToPeerswapChannel `{!LndLib} (c : Channel) : rpc.PeerSwapPeerChannel :=
  rpc.mkPeerChannel (ChanId c) (Scid_String (NewShortChanIDFromInt (ChanId c)))
    (u64 (LocalBalance c)) (u64 (RemoteBalance c)) (Active c).
Definition getPeerSwapChannels `{!LndLib} (peerId : string) (channelList : list Channel)
    : list rpc.PeerSwapPeerChannel :=
  lnrpcChannelToPeerswapChannel <$> findChannels peerId channelList.

(** *** Swaps of each peer *)
Definition partition_by_peer (allSwaps : list SwapStateMachine)
    : gmap string (list SwapStateMachine) :=
  foldl (λ m s, let peer := PeerNodeId (sm_Data s) in
                <[peer := default [] (m !! peer) ++ [s]]> m) ∅ allSwaps.

(** The order of the listings. *)
Definition by_creation (a b : SwapStateMachine) : bool :=
  CreatedAt (sm_Data a) <? CreatedAt (sm_Data b).

(** ** Pages (src/peerswaprpc/paging.go)

    [pagingBounds] turns a request's page size and token into the bounds of a
    slice and the token of the next page.  A Go int is an int64. *)



Definition defaultPageSize : Z := 100.
Definition maxPageSize : Z := 1000.

Definition status_Internal (msg : string) : error := ErrTyped "codes.Internal" msg.
Definition status_InvalidArgument (msg : string) : error := ErrTyped "codes.InvalidArgument" msg.

Definition page_size (pageSize : Z) : Z :=
  let size := if pageSize <=? 0 then defaultPageSize else pageSize in
  if maxPageSize <? size then maxPageSize else size.

(** The bounds and the next token. *)
Definition pagingBounds (total pageSize : Z) (pageToken : string) (unpagedIfEmpty : bool)
    : result (Z * Z * string) :=
  if total <? 0 then Err (status_Internal "invalid total size")
  else if unpagedIfEmpty && (pageSize =? 0) && bool_decide (pageToken = "") then
    Ok (0, total, "")
  else
    let start :=
      if bool_decide (pageToken = "") then Ok 0
      else match strconv.Atoi pageToken with
           | Err _ => Err (status_InvalidArgument "invalid page_token")
           | Ok offset => if offset <? 0 then Err (status_InvalidArgument "invalid page_token")
                          else Ok offset
           end in
    match start with
    | Err e => Err e
    | Ok start =>
        let size := page_size pageSize in
        let start := if total <? start then total else start in
        let end_ := i64 (start + size) in
        let end_ := if total <? end_ then total else end_ in
        let nextPageToken := if end_ <? total then strconv.Itoa end_ else "" in
        Ok (start, end_, nextPageToken)
    end.

(** ** A client that follows the tokens *)

(** [l[start:end]]; [None] is the panic of bounds out of range. *)
Definition slice {A} (l : list A) (start end_ : Z) : option (list A) :=
  if (0 <=? start) && (start <=? end_) && (end_ <=? Z.of_nat (length l)) then
    Some (take (Z.to_nat (end_ - start)) (drop (Z.to_nat start) l))
  else None.

(** All pages from a token on, until a page has no next token. *)
Fixpoint pages {A} (fuel : nat) (l : list A) (pageSize : Z) (token : string) (unpaged : bool)
    : option (list (list A)) :=
  match fuel with
  | O => None
  | S fuel =>
      match pagingBounds (Z.of_nat (length l)) pageSize token unpaged with
      | Err _ => None
      | Ok (start, end_, next) =>
          p ← slice l start end_;
          if bool_decide (next = "") then Some [p]
          else ps ← pages fuel l pageSize next unpaged; Some (p :: ps)
      end
  end.

Lemma page_size_range n : 1 ≤ page_size n ≤ maxPageSize.
Proof.
  unfold page_size, defaultPageSize, maxPageSize.
  destruct (Z.leb_spec n 0); cbn; [lia|]. destruct (Z.ltb_spec 1000 n); lia.
Qed.

Lemma i64_id z : is_i64 z → i64 z = z.
Proof. unfold is_i64, i64. intros H. rewrite Z.mod_small; lia. Qed.

Lemma Itoa_not_empty n : strconv.Itoa n ≠ "".
Proof.
  destruct n as [|p|p]; [done| |done]. by apply (strconv.split_sign_pretty_go (N.pos p) "").
Qed.

Definition fits {A} (l : list A) : Prop := Z.of_nat (length l) < 2 ^ 62.

(** The page at a valid offset. *)
Lemma page_at {A} (l : list A) pageSize off unpaged :
  fits l → 0 ≤ off ≤ Z.of_nat (length l) →
  let total := Z.of_nat (length l) in
  let e := Z.min total (off + page_size pageSize) in
  ∀ token, (off = 0 ∧ token = "" ∧ unpaged && (pageSize =? 0) = false) ∨ token = strconv.Itoa off →
  pagingBounds total pageSize token unpaged =
    Ok (off, e, if e <? total then strconv.Itoa e else "").
Proof.
  intros Hl Hoff total e token Ht. unfold pagingBounds. pose proof (page_size_range pageSize) as Hp.
  unfold fits, maxPageSize in *.
  destruct (Z.ltb_spec total 0); [lia|].
  assert ((unpaged && (pageSize =? 0) && bool_decide (token = "")) = false) as ->.
  { destruct Ht as [(_ & _ & ->)| ->]; [done|].
    rewrite bool_decide_false by apply Itoa_not_empty. apply andb_false_r. }
  assert ((if bool_decide (token = "") then Ok 0
           else match strconv.Atoi token with
                | Err _ => Err (status_InvalidArgument "invalid page_token")
                | Ok offset => if offset <? 0 then Err (status_InvalidArgument "invalid page_token")
                               else Ok offset
                end) = Ok off) as ->.
  { destruct Ht as [(-> & -> & _)| ->]; [done|].
    rewrite bool_decide_false by apply Itoa_not_empty.
    rewrite strconv.Atoi_Itoa by (unfold is_i64; lia). by destruct (Z.ltb_spec off 0); [lia|]. }
  destruct (Z.ltb_spec total off); [lia|]. rewrite i64_id by (unfold is_i64; lia).
  assert ((if total <? off + page_size pageSize then total else off + page_size pageSize) = e) as ->
    by (unfold e; destruct (Z.ltb_spec total (off + page_size pageSize)); lia).
  done.
Qed.

Lemma slice_at {A} (l : list A) (s e : Z) : 0 ≤ s ≤ e → e ≤ Z.of_nat (length l) →
  ∃ p, slice l s e = Some p ∧ drop (Z.to_nat s) l = p ++ drop (Z.to_nat e) l ∧
       Z.of_nat (length p) = e - s.
Proof.
  intros Hs He. unfold slice. destruct (Z.leb_spec 0 s); [|lia]. destruct (Z.leb_spec s e); [|lia].
  destruct (Z.leb_spec e (Z.of_nat (length l))); [|lia]. cbn [andb]. eexists. split; [done|]. split.
  - rewrite <- (take_drop (Z.to_nat (e - s)) (drop (Z.to_nat s) l)) at 1. f_equal.
    rewrite drop_drop. f_equal. lia.
  - rewrite length_take, length_drop. lia.
Qed.

Lemma pages_from {A} (l : list A) pageSize unpaged fuel off token :
  fits l → 0 ≤ off ≤ Z.of_nat (length l) →
  (off = 0 ∧ token = "" ∧ unpaged && (pageSize =? 0) = false) ∨ token = strconv.Itoa off →
  Z.of_nat (length l) - off < Z.of_nat fuel →
  ∃ ps, pages fuel l pageSize token unpaged = Some ps ∧ concat ps = drop (Z.to_nat off) l ∧
        Forall (λ p, Z.of_nat (length p) ≤ page_size pageSize) ps.
Proof.
  intros Hl. revert off token. induction fuel as [|fuel IH]; intros off token Hoff Ht Hfuel; [lia|].
  pose proof (page_size_range pageSize) as Hp. cbn [pages].
  rewrite (page_at l pageSize off unpaged Hl Hoff token Ht).
  set (e := Z.min _ _). assert (off ≤ e ≤ Z.of_nat (length l) ∧ e - off ≤ page_size pageSize) as He
    by (unfold e; lia).
  destruct (slice_at l off e) as (p & -> & Hd & Hlen); [lia|lia|]. cbn [mbind option_bind].
  destruct (Z.ltb_spec e (Z.of_nat (length l))).
  - rewrite bool_decide_false by apply Itoa_not_empty.
    destruct (IH e (strconv.Itoa e)) as (ps & -> & Hc & Hf); [lia|by right|unfold e in *; lia|].
    cbn. eexists. split; [done|]. split; [cbn; by rewrite Hc|]. constructor; [lia|done].
  - rewrite bool_decide_true by done. eexists. split; [done|]. split; [|by repeat constructor; lia].
    cbn. rewrite app_nil_r, Hd. rewrite (drop_ge l) by lia. by rewrite app_nil_r.
Qed.

(** A client that follows the page tokens from the first page lists every item
    exactly once and in order, after at most one request per item and one more;
    no page is larger than the page size of the request, 100 when it is zero and
    1000 at most, except that without a page size the listings that allow it come
    as one page.  Whatever token a client sends, the answer is an error or bounds
    inside the list, so that the slice of the server does not panic. *)
Theorem pages_list_everything {A} (l : list A) (pageSize : Z) (unpaged : bool) :
  Z.of_nat (length l) < 2 ^ 62 →
  (∃ ps, pages (S (length l)) l pageSize "" unpaged = Some ps ∧ concat ps = l ∧
     (Forall (λ p, Z.of_nat (length p) ≤ page_size pageSize) ps ∨
      (unpaged = true ∧ pageSize = 0 ∧ ps = [l]))) ∧
  (∀ token, match pagingBounds (Z.of_nat (length l)) pageSize token unpaged with
            | Ok (start, end_, _) => is_Some (slice l start end_)
            | Err e => e = status_InvalidArgument "invalid page_token" ∧
                       token ≠ "" ∧ ∀ n, strconv.Atoi token = Ok n → n < 0
            end).
Proof.
  intros Hl. split.
  - destruct (unpaged && (pageSize =? 0)) eqn:Eu.
    + apply andb_true_iff in Eu as [-> ->%Z.eqb_eq]. exists [l]. split; [|split; [|by right]].
      * cbn [pages]. unfold pagingBounds. destruct (Z.ltb_spec (Z.of_nat (length l)) 0); [lia|].
        cbn [andb Z.eqb]. rewrite bool_decide_true by done.
        destruct (slice_at l 0 (Z.of_nat (length l))) as (p & -> & Hd & _); [lia|lia|].
        rewrite (drop_ge l (Z.to_nat (Z.of_nat _))), app_nil_r in Hd by lia. change (l = p) in Hd. by subst p.
      * cbn. apply app_nil_r.
    + destruct (pages_from l pageSize unpaged (S (length l)) 0 "" Hl) as (ps & H1 & H2 & H3);
        [lia|auto|lia|]. exists ps. auto.
  - intros token. unfold pagingBounds. destruct (Z.ltb_spec (Z.of_nat (length l)) 0); [lia|].
    destruct (_ && _).
    { destruct (slice_at l 0 (Z.of_nat (length l))) as (p & -> & _); [lia|lia|done]. }
    assert (∀ s, 0 ≤ s → is_Some (slice l (if Z.of_nat (length l) <? s then Z.of_nat (length l) else s)
      (let e := i64 ((if Z.of_nat (length l) <? s then Z.of_nat (length l) else s) + page_size pageSize) in
       if Z.of_nat (length l) <? e then Z.of_nat (length l) else e))) as Hok.
    { intros s Hs. pose proof (page_size_range pageSize). unfold maxPageSize in *.
      set (s' := if Z.of_nat (length l) <? s then Z.of_nat (length l) else s).
      assert (0 ≤ s' ≤ Z.of_nat (length l)) by (unfold s'; destruct (Z.ltb_spec (Z.of_nat (length l)) s); lia).
      rewrite i64_id by (unfold is_i64; lia). cbv zeta.
      edestruct (slice_at l s') as (p & -> & _); [| |done];
        destruct (Z.ltb_spec (Z.of_nat (length l)) (s' + page_size pageSize)); lia. }
    case_bool_decide as Ht; [by apply (Hok 0)|].
    destruct (strconv.Atoi token) as [n|e]; [|done].
    destruct (Z.ltb_spec n 0); [|by apply Hok]. split; [done|]. split; [done|]. by intros ? [= <-].
Qed.

Example pages_list_everything_witness :
  ∃ ps, pages 6 [1; 2; 3; 4; 5] 2 "" true = Some ps ∧ concat ps = [1; 2; 3; 4; 5].
Proof.
  destruct (pages_list_everything [1; 2; 3; 4; 5] 2 true) as [(ps & H1 & H2 & _) _]; [done|].
  by exists ps.
Defined.
