(* ===== verification/RpcServer.v ===== *)
(** * The RPC server of peerswapd (src/peerswaprpc/server.go)

    The handlers run over the world and the active swaps of the swap service, and
    over the capability sync, which is given a view of the policy and the premium
    rates of that world: these are pointers to the same objects.  What lnd and the
    liquid wallet answer, and what other goroutines do with a machine a handler
    waits for, are questions.  The nil checks of requests and of [swap.Data] are
    left out. *)

From stdpp Require Import sorting.
From S2P Require Import LndClient.
From S2P Require Import Prelude GoLib Messages Premium Policy SwapData Timelock Env Store Oracle.
From S2P Require Import PeerCapability PeerSync Fsm Service Rpc.

(** A machine that others have moved: what no event changes. *)
Definition same_machine (sm sm' : SwapStateMachine) : Prop :=
  sm_SwapId sm' = sm_SwapId sm ∧ sm_Type sm' = sm_Type sm ∧ sm_Role sm' = sm_Role sm ∧
  PeerNodeId (sm_Data sm') = PeerNodeId (sm_Data sm).

(** What core lightning shows: amounts in msat, of a node the raw feature bits. *)
Record FundingChannel := mkFunding {
  fc_Id : string; fc_ShortChannelId : string; AmountMilliSatoshi : Z; OurAmountMilliSatoshi : Z;
  Connected : bool; fc_State : string }.
Record Node := mkNode { node_Id : string; Features : option (list Z) }.

(** The calls to lnd and to the liquid wallet; the last four are for core lightning,
    whose plugin shares the components of this server.  [Wakeups]: the machine as it is
    each time the waiting handler wakes up, the last time at the timeout. *)
Module ServerRpc.
Inductive Call :=
  | ListChannels (activeOnly : bool)
  | GetInfo
  | LndListPeers
  | Ping
  | GetAddress
  | GetBalance
  | SendToAddress (address : string) (amount : Z)
  | Wakeups (sm : SwapStateMachine)
  | Interrupt
  | ListFunds
  | ListNodes
  | ListChannelsBySource (id : string)
  | GetPeer (id : string).
Definition answer (c : Call) : Type :=
  match c with
  | ListChannels _ => result (list Channel)
  | GetInfo | GetAddress | SendToAddress _ _ => result string
  | LndListPeers => result (list string)
  | Ping => bool * option error
  | GetBalance => result Z
  | Wakeups sm => { l : list SwapStateMachine | Forall (same_machine sm) l }
  | Interrupt => ()
  | ListFunds => result (list FundingChannel)
  | ListNodes => result (list Node)
  | ListChannelsBySource _ => result (list string)
  | GetPeer _ => result bool
  end.
End ServerRpc.
Import ServerRpc.

(** [None] is the nil pointer [peerSync]. *)
Record PeerswapServer := mkServer {
  srv_world : World;
  srv_swaps : SwapService;
  srv_sync : option (Trace SyncRpc.answer * PeerSync);
  srv_has_liquidWallet : bool;
}.
#[export] Instance eta_server : Eta PeerswapServer := λ s,
  mkServer (srv_world s) (srv_swaps s) (srv_sync s) (srv_has_liquidWallet s).

(** The fields of [SwapOutRequest] and of [SwapInRequest]. *)
Record SwapRequest := mkSwapRequest {
  req_ChannelId : Z; SwapAmount : Z; req_Asset : string; Force : bool; PremiumLimitRatePpm : Z }.
(** Of [ListSwapsRequest] and [ListPeersRequest] ([Descending] in the first only). *)
Record ListRequest := mkListRequest { PageSize : Z; PageToken : string; Descending : bool }.
Record ListSwapsResponse := mkListSwapsResponse {
  Swaps : list rpc.PrettyPrintSwap; NextPageToken : string }.
Record ListPeersResponse := mkListPeersResponse {
  Peers : list rpc.PeerSwapPeer; peers_NextPageToken : string }.

Section server.
Context {LL : LndLib} {RL : RpcLib} {EV : Env}.
Context {OS : Oracle SyncRpc.answer} {OR : Oracle answer}.
Abbreviation Io := (IO answer PeerswapServer).

(** ** Calls into the other components *)
Definition on_service {A} (m : Svc SwapService A) : Io A := λ '(t, s),
  match m (srv_world s, srv_swaps s) with
  | Ret (w, sv) a => Ret (t, s <| srv_world := w |> <| srv_swaps := sv |>) a
  | Panic (w, sv) => Panic (t, s <| srv_world := w |> <| srv_swaps := sv |>)
  | NoFuel (w, sv) => NoFuel (t, s <| srv_world := w |> <| srv_swaps := sv |>)
  end.

Definition sync_view (w : World) (ps : PeerSync) : PeerSync :=
  ps <| ps_policy := Some (conf (policy w)) |> <| ps_premium := Some (rates w) |>.
Definition on_sync {A} (m : IO SyncRpc.answer PeerSync A) : Io A := λ '(t, s),
  match srv_sync s with
  | None => Panic (t, s)
  | Some (ts, ps) =>
      match m (ts, sync_view (srv_world s) ps) with
      | Ret st a => Ret (t, s <| srv_sync := Some st |>) a
      | Panic st => Panic (t, s <| srv_sync := Some st |>)
      | NoFuel st => NoFuel (t, s <| srv_sync := Some st |>)
      end
  end.
(** [if p.peerSync != nil { p.peerSync.ForcePollAllPeers(ctx) }]. *)
Definition force_poll : Io () :=
  s ← look;
  match srv_sync s with Some _ => on_sync (pollPeers true) | None => mret () end.

(** A method of the policy, with what the file system answers. *)
Definition on_policy (f : FileIO → PolicyState → PolicyState * option error) : Io (option error) :=
  on_service (
    io ← call PolicyFile;
    st ← getw policy;
    let '(st', err) := f io st in
    setw (λ w, w <| policy := st' |>);; mret err).
Definition policy_message : Io rpc.Policy :=
  s ← look; mret (GetPolicyMessage (Policy_Get (conf (policy (srv_world s))))).

(** Methods of the premium setting, each in one or two transactions. *)
Definition on_rates (f : option error → bucket → bucket * option error) : Io (option error) :=
  on_service (
    ios ← call DbPremium;
    b ← getw rates;
    let '(b', err) := f (fst ios) b in
    setw (λ w, w <| rates := b' |>);; mret err).
Definition read_rates {A} (f : option error → option error → bucket → A) : Io A :=
  on_service (ios ← call DbPremium; b ← getw rates; mret (f (fst ios) (snd ios) b)).

(** A method of the liquid wallet, which is a nil interface when there is none. *)
Definition on_wallet (c : Call) : Io (answer c) :=
  s ← look;
  if srv_has_liquidWallet s then query c else panic.

(** [WaitForStateChange]: the machine when the wanted state was seen. *)
Fixpoint wait_loop (isDesired : StateType → bool) (sm : SwapStateMachine)
    (wakeups : list SwapStateMachine) : option SwapStateMachine :=
  if isDesired (sm_Current sm) then Some sm
  else match wakeups with
       | [] => None
       | sm' :: wakeups => wait_loop isDesired sm' wakeups
       end.
Definition WaitForStateChange (isDesired : StateType → bool) (sm : SwapStateMachine)
    : Io (option SwapStateMachine) :=
  wakeups ← query (Wakeups sm);
  mret (wait_loop isDesired sm (proj1_sig wakeups)).

Definition liquid_disabled : error := ErrText "liquid swaps are not enabled".

(** The pagers of the listings. *)
Definition page {A} (l : list A) (request : ListRequest) : Io (result (list A * string)) :=
  match pagingBounds (Z.of_nat (length l)) (PageSize request) (PageToken request) true with
  | Err e => mret (Err e)
  | Ok (start, end_, next) => p ← deref (slice l start end_); mret (Ok (p, next))
  end.

End server.

(** The order of [sort.Strings]. *)
Definition string_le (a b : string) : Prop := String.leb a b = true.
#[export] Instance string_le_dec a b : Decision (string_le a b).
Proof. unfold string_le. apply _. Defined.

Module PeerswapServer.
Section handlers.
Context {LL : LndLib} {RL : RpcLib} {EV : Env}.
Context {OS : Oracle SyncRpc.answer} {OR : Oracle answer}.
Abbreviation Io := (IO answer PeerswapServer).

(** ** The policy *)
Definition edit_policy (f : FileIO → PolicyState → PolicyState * option error)
    : Io (result rpc.Policy) :=
  do? on_policy f else e => mret (Err e) in
  pol ← policy_message; mret (Ok pol).
Definition AddPeer (PeerPubkey : string) : Io (result rpc.Policy) :=
  edit_policy (λ io, AddToAllowlist io PeerPubkey).
Definition AddSusPeer (PeerPubkey : string) : Io (result rpc.Policy) :=
  edit_policy (λ io, AddToSuspiciousPeerList io PeerPubkey).
Definition RemovePeer (PeerPubkey : string) : Io (result rpc.Policy) :=
  edit_policy (λ io, RemoveFromAllowlist io PeerPubkey).
Definition RemoveSusPeer (PeerPubkey : string) : Io (result rpc.Policy) :=
  edit_policy (λ io, RemoveFromSuspiciousPeerList io PeerPubkey).

Definition ReloadPolicyFile : Io (result rpc.Policy) :=
  do? on_policy ReloadFile else e => mret (Err e) in
  force_poll;;
  pol ← policy_message; mret (Ok pol).

(** The error of the edit is dropped. *)
Definition AllowSwapRequests (Allow : bool) : Io (result rpc.Policy) :=
  on_policy (if Allow then EnableSwaps else DisableSwaps);;
  pol ← policy_message; mret (Ok pol).

Definition Stop : Io () := query Interrupt;; mret ().

(** ** Starting swaps *)
Fixpoint find_channel (id : Z) (chans : list Channel) (swapchan : option Channel) : option Channel :=
  match chans with
  | [] => swapchan
  | v :: chans => find_channel id chans (if ChanId v =? id then Some v else swapchan)
  end.

Definition isPeerConnected (peerId : string) : Io bool :=
  let? peers := query LndListPeers else e => mret false in
  mret (bool_decide (peerId ∈ peers)).

(** Skipped when the request forces the swap. *)
Definition check_compatible (force : bool) (peerId : string) : Io (option error) :=
  if force then mret None
  else
    s ← look;
    match srv_sync s with
    | None => mret (Some (ErrText "peer does not run peerswap"))
    | Some _ =>
        ok ← on_sync (HasCompatiblePeer peerId);
        mret (if ok : bool then None else Some (ErrText "peer does not run peerswap"))
    end.

(** After the swap was started; [canceled] makes an error of the cancel message. *)
Definition await_opening (canceled : string → error) (opened : StateType) (sm : SwapStateMachine)
    : Io (result rpc.PrettyPrintSwap) :=
  r ← WaitForStateChange (λ st, bool_decide (st = opened ∨ st = State_SwapCanceled)) sm;
  mret match r with
       | None => Err (ErrText "rpc timeout reached, use peerswap-listswaps for info")
       | Some sm =>
           if bool_decide (sm_Current sm = opened) then Ok (PrettyprintFromServiceSwap sm)
           else Err (canceled (GetCancelMessage (sm_Data sm)))
       end.

Definition ping_error (perr : option error) : error :=
  ErrText ("liquid wallet not reachable: " +:+ match perr with Some e => Error e | None => "<nil>" end).

Definition SwapOut (request : SwapRequest) : Io (result rpc.PrettyPrintSwap) :=
  if SwapAmount request <=? 0 then mret (Err (ErrText "Missing required swap_amount parameter")) else
  if req_ChannelId request =? 0 then mret (Err (ErrText "Missing required channel_id parameter")) else
  let? chans := query (ListChannels true) else e => mret (Err e) in
  match find_channel (req_ChannelId request) chans None with
  | None => mret (Err (ErrText "channel not found"))
  | Some swapchan =>
  if u64 (LocalBalance swapchan) <? u64 (SwapAmount request + 5000) then
    mret (Err (ErrText "not enough local balance on channel to perform swap out")) else
  if negb (Active swapchan) then mret (Err (ErrText "channel is not connected")) else
  do? (if bool_decide (req_Asset request = "lbtc") then
         if negb liquidEnabled then mret (Some liquid_disabled)
         else
           r ← on_wallet Ping;
           mret (if bool_decide (snd r ≠ None) || negb (fst r) then Some (ping_error (snd r)) else None)
       else if bool_decide (req_Asset request = "btc") then
         mret (if bitcoinEnabled then None else Some (ErrText "bitcoin swaps are not enabled"))
       else mret (Some (ErrText "invalid asset (btc or lbtc)"))) else e => mret (Err e) in
  let? pk := query GetInfo else e => mret (Err e) in
  let peerId := RemotePubkey swapchan in
  let shortId := NewShortChanIDFromInt (ChanId swapchan) in
  do? check_compatible (Force request) peerId else e => mret (Err e) in
  connected ← isPeerConnected peerId;
  if negb connected then mret (Err (ErrText "peer is not connected")) else
  let? swapOut := on_service (SwapOut_start peerId (req_Asset request) (Scid_String shortId) pk
                    (SwapAmount request) (PremiumLimitRatePpm request)) else e => mret (Err e) in
  await_opening (λ msg, ErrText (Sprintf msg)) State_SwapOutSender_AwaitTxConfirmation swapOut
  end.

Definition SwapIn (request : SwapRequest) : Io (result rpc.PrettyPrintSwap) :=
  let? chans := query (ListChannels true) else e => mret (Err e) in
  match find_channel (req_ChannelId request) chans None with
  | None => mret (Err (ErrText "channel not found"))
  | Some swapchan =>
  if u64 (RemoteBalance swapchan) <? SwapAmount request then
    mret (Err (ErrText "not enough remote balance on channel to perform swap in")) else
  if negb (Active swapchan) then mret (Err (ErrText "channel is not connected")) else
  do? (if bool_decide (req_Asset request = "lbtc") then
         mret (if liquidEnabled then None else Some liquid_disabled)
       else if bool_decide (req_Asset request = "btc") then
         mret (if bitcoinEnabled then None else Some (ErrText "bitcoin swaps are not enabled"))
       else mret (Some (ErrText "invalid asset (btc or lbtc)"))) else e => mret (Err e) in
  let? pk := query GetInfo else e => mret (Err e) in
  let peerId := RemotePubkey swapchan in
  let shortId := NewShortChanIDFromInt (ChanId swapchan) in
  do? check_compatible (Force request) peerId else e => mret (Err e) in
  connected ← isPeerConnected peerId;
  if negb connected then mret (Err (ErrText "peer is not connected")) else
  let? swapIn := on_service (SwapIn_start peerId (req_Asset request) (Scid_String shortId) pk
                   (SwapAmount request) (PremiumLimitRatePpm request)) else e => mret (Err e) in
  await_opening (λ msg, ErrText (Sprintf msg)) State_SwapInSender_SendTxBroadcastedMessage swapIn
  end.

(** ** Listings *)
Definition GetSwap (SwapId : string) : Io (result rpc.PrettyPrintSwap) :=
  if bool_decide (SwapId = "") then mret (Err (ErrText "SwapId required")) else
  let? swapRes := on_service (Service.GetSwap SwapId) else e => mret (Err e) in
  mret (Ok (PrettyprintFromServiceSwap swapRes)).

(** Sort by creation, turn around, page, print. *)
Definition list_swaps (swaps : list SwapStateMachine) (request : ListRequest)
    : Io (result ListSwapsResponse) :=
  let swaps := sort_Slice by_creation swaps in
  let swaps := if Descending request then reverse swaps else swaps in
  let? p := page swaps request else e => mret (Err e) in
  mret (Ok (mkListSwapsResponse (PrettyprintFromServiceSwap <$> fst p) (snd p))).
Definition ListSwaps (request : ListRequest) : Io (result ListSwapsResponse) :=
  let? swaps := on_service Service.ListSwaps else e => mret (Err e) in
  list_swaps swaps request.
Definition ListActiveSwaps (request : ListRequest) : Io (result ListSwapsResponse) :=
  let? swaps := on_service Service.ListActiveSwaps else e => mret (Err e) in
  list_swaps swaps request.

(** [peerState.Capability()] of a key that is not in the map dereferences nil. *)
Fixpoint peer_views (compatiblePeers : gmap string Peer) (swapsByPeer : gmap string (list SwapStateMachine))
    (channels : list Channel) (pagePubKeys : list string) : Io (list rpc.PeerSwapPeer) :=
  match pagePubKeys with
  | [] => mret []
  | pubKey :: rest =>
      peerState ← deref (compatiblePeers !! pubKey);
      let swaps := default [] (swapsByPeer !! pubKey) in
      let view := format.BuildPeerView pubKey (peer_capability peerState) swaps in
      let peer := NewPeerSwapPeerFromView view
                    <| rpc.Channels := getPeerSwapChannels pubKey channels |> in
      peers ← peer_views compatiblePeers swapsByPeer channels rest;
      mret (peer :: peers)
  end.

Definition ListPeers (request : ListRequest) : Io (result ListPeersResponse) :=
  let? peersRes := query LndListPeers else e => mret (Err e) in
  let? channelRes := query (ListChannels true) else e => mret (Err e) in
  s ← look;
  let? compatiblePeers :=
    match srv_sync s with None => mret (Ok ∅) | Some _ => on_sync CompatiblePeers end
    else e => mret (Err e) in
  let eligiblePubKeys := filter (λ pk, is_Some (compatiblePeers !! pk)) peersRes in
  let eligiblePubKeys := merge_sort string_le eligiblePubKeys in
  let? p := page eligiblePubKeys request else e => mret (Err e) in
  let? allSwaps := on_service Service.ListSwaps else e => mret (Err e) in
  peers ← peer_views compatiblePeers (partition_by_peer allSwaps) channelRes (fst p);
  mret (Ok (mkListPeersResponse peers (snd p))).

Definition ListRequestedSwaps : Io (result (gmap string (list RequestedSwap))) :=
  let? requestedSwaps := on_service requested_GetAll else e => mret (Err e) in
  mret (Ok requestedSwaps).

(** ** The liquid wallet *)
Definition LiquidGetAddress : Io (result string) :=
  if negb liquidEnabled then mret (Err liquid_disabled) else on_wallet GetAddress.
Definition LiquidGetBalance : Io (result Z) :=
  if negb liquidEnabled then mret (Err liquid_disabled) else on_wallet GetBalance.
Definition LiquidSendToAddress (Address : string) (SatAmount : Z) : Io (result string) :=
  if negb liquidEnabled then mret (Err liquid_disabled) else
  if bool_decide (Address = "") then mret (Err (ErrText "address not set")) else
  if SatAmount <? 5000 then mret (Err (ErrText "amount is dust")) else
  on_wallet (SendToAddress Address SatAmount).

(** ** Premium rates *)
Definition show_rate (r : Premium.PremiumRate) : rpc.PremiumRate :=
  rpc.mkPremiumRate (ToAssetType (pr_asset r)) (ToOperationType (pr_operation r))
    (ppmValue (pr_premiumRate r)).
Definition check_rate_request (asset : rpc.AssetType) (operation : rpc.OperationType) : option error :=
  if bool_decide (asset ≠ rpc.AssetType_BTC ∧ asset ≠ rpc.AssetType_LBTC) then
    Some (ErrText ("invalid asset type: " +:+ rpc.AssetType_String asset))
  else if bool_decide (operation ≠ rpc.OperationType_SWAP_IN ∧ operation ≠ rpc.OperationType_SWAP_OUT)
  then Some (ErrText ("invalid operation type: " +:+ rpc.OperationType_String operation))
  else None.

Definition GetGlobalPremiumRate (asset : rpc.AssetType) (operation : rpc.OperationType)
    : Io (result rpc.PremiumRate) :=
  do? mret (check_rate_request asset operation) else e => mret (Err e) in
  let? r := read_rates (λ io _, Setting_GetDefaultRate io (toPremiumAssetType asset)
                                  (toPremiumOperationType operation)) else e => mret (Err e) in
  mret (Ok (show_rate r)).
Definition GetPremiumRate (NodeId : string) (asset : rpc.AssetType) (operation : rpc.OperationType)
    : Io (result rpc.PremiumRate) :=
  do? mret (check_rate_request asset operation) else e => mret (Err e) in
  let? r := read_rates (λ io io', Setting_GetRate io io' NodeId (toPremiumAssetType asset)
                                    (toPremiumOperationType operation)) else e => mret (Err e) in
  mret (Ok (show_rate r)).

Definition update_rate (set : option error → Premium.PremiumRate → bucket → bucket * option error)
    (failed : string) (rate : rpc.PremiumRate) : Io (result rpc.PremiumRate) :=
  match NewPremiumRate (toPremiumAssetType (rpc.rate_Asset rate))
          (toPremiumOperationType (rpc.rate_Operation rate)) (NewPPM (rpc.PremiumRatePpm rate)) with
  | Err e => mret (Err (ErrText ("could not create rate: " +:+ Error e)))
  | Ok r =>
      do? on_rates (λ io, set io r) else e => mret (Err (ErrText (failed +:+ Error e))) in
      force_poll;; mret (Ok rate)
  end.
Definition UpdateGlobalPremiumRate (rate : rpc.PremiumRate) : Io (result rpc.PremiumRate) :=
  update_rate Setting_SetDefaultRate "could not set default rate: " rate.
Definition UpdatePremiumRate (NodeId : string) (rate : rpc.PremiumRate) : Io (result rpc.PremiumRate) :=
  update_rate (λ io, Setting_SetRate io NodeId) "could not set rate: " rate.

(** Asset and operation are not checked here. *)
Definition DeletePremiumRate (NodeId : string) (asset : rpc.AssetType) (operation : rpc.OperationType)
    : Io (result rpc.PremiumRate) :=
  do? on_rates (λ io, Setting_DeleteRate io NodeId (toPremiumAssetType asset)
                        (toPremiumOperationType operation))
    else e => mret (Err (ErrText ("could not delete rate: " +:+ Error e))) in
  force_poll;; mret (Ok (rpc.mkPremiumRate asset operation 0)).
End handlers.
End PeerswapServer.
