(* ===== verification/RpcProofs.v ===== *)
(** * What the RPC server does

    The listings show every swap once and in order, and the statistics of a peer
    are those of its swaps; a request starts a swap only on a channel that passed
    every check; a new premium rate is in force and announced to every known peer
    when the call returns. *)

From stdpp Require Import sorting.
From S2P Require Import LndClient.
From S2P Require Import Prelude GoLib Messages Premium Policy SwapData Timelock Env Store Oracle.
From S2P Require Import PeerCapability PeerSync PeerSyncProofs Fsm Service Rpc RpcServer.
Import ServerRpc.

(** ** Short channel ids *)
Definition scid_wf (s : ShortChannelID) : Prop :=
  is_u32 (BlockHeight s) ∧ is_u32 (TxIndex s) ∧ 0 ≤ TxPosition s < 2 ^ 16.

Lemma pretty_go_no_char c x s :
  hex.fromHexChar c = None → strings.Contains (pretty.pretty_N_go x s) c = strings.Contains s c.
Proof.
  intros Hc. revert s. induction (N.lt_wf_0 x) as [x _ IH]; intros s.
  destruct (decide (x = 0)%N) as [->|Hx]; [by rewrite pretty.pretty_N_go_0|].
  rewrite pretty.pretty_N_go_step by lia. rewrite IH by (apply N.div_lt; lia).
  cbn. rewrite bool_decide_false; [done|]. intros <-.
  rewrite strconv.digit_value in Hc by (by apply N.mod_lt). done.
Qed.
Lemma Itoa_no_char c n : 0 ≤ n → hex.fromHexChar c = None → strings.Contains (strconv.Itoa n) c = false.
Proof.
  intros Hn Hc. destruct n as [|p|p]; [| |lia].
  - cbn. rewrite bool_decide_false; [done|]. by intros <-.
  - change (strings.Contains (pretty.pretty_N_go (N.pos p) "") c = false). by rewrite pretty_go_no_char.
Qed.

Lemma Scid_String_parts s :
  scid_wf s → strings.Split (strings.ReplaceAll (Scid_String s) "x" ":") ":" =
    [strconv.Itoa (BlockHeight s); strconv.Itoa (TxIndex s); strconv.Itoa (TxPosition s)].
Proof.
  intros (H1 & H2 & H3). unfold is_u32 in *. unfold Scid_String.
  rewrite strings.ReplaceAll_id.
  2:{ rewrite !strings.Contains_app, !Itoa_no_char by (done || lia). done. }
  change (strings.Split (strconv.Itoa (BlockHeight s) +:+ String ":" (strconv.Itoa (TxIndex s) +:+
    String ":" (strconv.Itoa (TxPosition s)))) ":" = 
    [strconv.Itoa (BlockHeight s); strconv.Itoa (TxIndex s); strconv.Itoa (TxPosition s)]).
  rewrite !strings.Split_app, !strings.Split_none by (apply Itoa_no_char; (done || lia)). done.
Qed.

(** A short channel id survives printing and parsing. *)
Lemma scid_roundtrip s : scid_wf s → NewScidFromString (Scid_String s) = Ok s.
Proof.
  intros Hs. unfold NewScidFromString. rewrite Scid_String_parts by done.
  destruct Hs as (H1 & H2 & H3). unfold is_u32 in *.
  rewrite !strconv.Atoi_Itoa by (unfold is_i64; lia).
  rewrite !u32_small by (unfold is_u32; lia). unfold u16. rewrite Z.mod_small by lia. by destruct s.
Qed.

(** ** Statistics *)

(** The swaps claimed by preimage in a role and direction, and sums over swaps. *)
Definition claimed (sender out : bool) (s : SwapStateMachine) : bool :=
  bool_decide (sm_Current s = State_ClaimedPreimage) &&
  Bool.eqb (bool_decide (sm_Role s = SWAPROLE_SENDER)) sender && Bool.eqb (bool_decide (sm_Type s = SWAPTYPE_OUT)) out.
Definition total (p : SwapStateMachine → bool) (f : SwapStateMachine → Z) (l : list SwapStateMachine) : Z :=
  foldr (λ s n, (if p s then f s else 0) + n) 0 l.
Lemma total_cons p f s l : total p f (s :: l) = (if p s then f s else 0) + total p f l.
Proof. done. Qed.
Definition amount_of (s : SwapStateMachine) : Z := GetAmount (sm_Data s).

(** The statistics by their definition: number and amounts of the claimed swaps. *)
Definition stats_spec (sender : bool) (l : list SwapStateMachine) : format.SwapStats :=
  format.mkStats (u64 (total (claimed sender true) (λ _, 1) l)) (u64 (total (claimed sender false) (λ _, 1) l))
    (u64 (total (claimed sender true) amount_of l)) (u64 (total (claimed sender false) amount_of l)).
Definition fee_spec (l : list SwapStateMachine) : Z :=
  u64 (total (λ s, claimed true true s || claimed true false s) (λ s, OpeningTxFee (sm_Data s)) l).

Lemma u64_add a b : u64 (u64 a + b) = u64 (a + b).
Proof. unfold u64. apply Zplus_mod_idemp_l. Qed.
Lemma u64_add_r a b : u64 (a + u64 b) = u64 (a + b).
Proof. unfold u64. apply Zplus_mod_idemp_r. Qed.

Definition add_stats (a b : format.SwapStats) : format.SwapStats :=
  format.mkStats (u64 (format.SwapsOut a + format.SwapsOut b)) (u64 (format.SwapsIn a + format.SwapsIn b))
    (u64 (format.SatsOut a + format.SatsOut b)) (u64 (format.SatsIn a + format.SatsIn b)).

(** What one swap adds to the statistics of a role. *)
Definition swap_stats (sender : bool) (s : SwapStateMachine) : format.SwapStats :=
  let one b := if b : bool then 1 else 0 in
  let amt b := if b : bool then amount_of s else 0 in
  format.mkStats (one (claimed sender true s)) (one (claimed sender false s))
    (amt (claimed sender true s)) (amt (claimed sender false s)).
Lemma stats_cons sender s l stats :
  add_stats stats (stats_spec sender (s :: l)) =
    add_stats (add_stats stats (swap_stats sender s)) (stats_spec sender l).
Proof.
  unfold add_stats, stats_spec, swap_stats. rewrite !total_cons.
  cbn [format.SwapsOut format.SwapsIn format.SatsOut format.SatsIn].
  rewrite !u64_add, !u64_add_r. f_equal; f_equal; lia.
Qed.

Definition stats_wf (a : format.SwapStats) : Prop :=
  is_u64 (format.SwapsOut a) ∧ is_u64 (format.SwapsIn a) ∧
  is_u64 (format.SatsOut a) ∧ is_u64 (format.SatsIn a).
Lemma add_no_stats a sender : stats_wf a → add_stats a (stats_spec sender []) = a.
Proof.
  intros (H1 & H2 & H3 & H4). unfold add_stats, stats_spec. cbn. rewrite !Z.add_0_r, !u64_small by done.
  by destruct a.
Qed.
(** Counting a swap, in its role and in the other one. *)
Lemma count_swap_spec sender s a :
  stats_wf a → sm_Current s = State_ClaimedPreimage →
  add_stats a (swap_stats sender s) =
    if Bool.eqb (bool_decide (sm_Role s = SWAPROLE_SENDER)) sender
    then format.count_swap (sm_Type s) (amount_of s) a else a.
Proof.
  intros (H1 & H2 & H3 & H4) E. unfold swap_stats, claimed. rewrite bool_decide_true by done.
  destruct (Bool.eqb (bool_decide _) sender); unfold add_stats; [|cbn].
  2:{ rewrite !Z.add_0_r, !u64_small by done. by destruct a. }
  destruct (sm_Type s); cbn; case_bool_decide; try done; cbn;
    by rewrite !Z.add_0_r, ?(u64_small _ H1), ?(u64_small _ H2), ?(u64_small _ H3), ?(u64_small _ H4).
Qed.
Lemma not_claimed_stats sender s a :
  stats_wf a → sm_Current s ≠ State_ClaimedPreimage → add_stats a (swap_stats sender s) = a.
Proof.
  intros (H1 & H2 & H3 & H4) E. unfold swap_stats, claimed. rewrite bool_decide_false by done.
  unfold add_stats. cbn. rewrite !Z.add_0_r, !u64_small by done. by destruct a.
Qed.
Lemma count_swap_wf ty n a : stats_wf a → stats_wf (format.count_swap ty n a).
Proof. intros (H1 & H2 & H3 & H4). unfold stats_wf. destruct ty; cbn; split_and!; first [done|apply u64_range]. Qed.

Lemma summarize_loop_spec l a b fee :
  stats_wf a → stats_wf b → is_u64 fee →
  format.summarize_loop l a b fee =
    (add_stats a (stats_spec true l), add_stats b (stats_spec false l), u64 (fee + fee_spec l)).
Proof.
  revert a b fee. induction l as [|s l IH]; intros a b fee Ha Hb Hf.
  { cbn [format.summarize_loop]. rewrite !add_no_stats by done. cbn. by rewrite Z.add_0_r, u64_small. }
  rewrite !stats_cons. cbn [format.summarize_loop].
  assert (∀ x, x = (if claimed true true s || claimed true false s then OpeningTxFee (sm_Data s) else 0) →
    u64 (fee + fee_spec (s :: l)) = u64 (u64 (fee + x) + fee_spec l)) as Hfee.
  { intros x ->. unfold fee_spec. rewrite u64_add, !u64_add_r. f_equal. rewrite total_cons. lia. }
  case_bool_decide as Hc.
  - rewrite !not_claimed_stats by done. rewrite (Hfee 0).
    2:{ unfold claimed. by rewrite bool_decide_false. }
    rewrite Z.add_0_r, (u64_small fee) by done. by apply IH.
  - rewrite !count_swap_spec by done. unfold claimed in Hfee.
    rewrite (bool_decide_true _ Hc) in Hfee.
    destruct (sm_Role s) eqn:Er; cbn [bool_decide decide Bool.eqb] in *.
    all: try rewrite (bool_decide_true (SWAPROLE_SENDER = SWAPROLE_SENDER)) in * by done.
    all: try rewrite (bool_decide_false (SWAPROLE_NONE = SWAPROLE_SENDER)) in * by done.
    all: try rewrite (bool_decide_false (SWAPROLE_RECEIVER = SWAPROLE_SENDER)) in * by done.
    all: cbn [Bool.eqb andb orb] in *.
    all: rewrite IH by (done || by apply count_swap_wf || apply u64_range).
    all: f_equal; symmetry.
    + rewrite (Hfee 0) by done. by rewrite Z.add_0_r, (u64_small fee).
    + apply Hfee. by destruct (bool_decide (sm_Type s = SWAPTYPE_OUT)).
    + rewrite (Hfee 0) by done. by rewrite Z.add_0_r, (u64_small fee).
Qed.

Lemma summarizeSwaps_spec l :
  format.summarizeSwaps l = (stats_spec true l, stats_spec false l, fee_spec l).
Proof.
  unfold format.summarizeSwaps. rewrite summarize_loop_spec by (repeat split; done).
  f_equal; [f_equal|]; unfold add_stats, stats_spec, fee_spec; cbn; by rewrite ?u64_add_r, ?Z.add_0_l.
Qed.

(** ** Swaps of each peer *)
Definition of_peer (peer : string) (s : SwapStateMachine) : Prop := PeerNodeId (sm_Data s) = peer.
#[export] Instance of_peer_dec peer s : Decision (of_peer peer s).
Proof. unfold of_peer. apply _. Defined.

(** The one pass over all swaps gives what a query for each peer would give. *)
Lemma partition_spec peer l :
  default [] (partition_by_peer l !! peer) = filter (of_peer peer) l.
Proof.
  enough (∀ m : gmap string (list SwapStateMachine),
    default [] (foldl (λ m s, let peer := PeerNodeId (sm_Data s) in
                  <[peer := default [] (m !! peer) ++ [s]]> m) m l !! peer) =
    default [] (m !! peer) ++ filter (of_peer peer) l) as H by exact (H ∅).
  induction l as [|s l IH]; intros m; [by rewrite app_nil_r|]. cbn [foldl]. rewrite IH.
  rewrite filter_cons. unfold of_peer at 2. destruct (decide _) as [<-|Hne].
  - rewrite lookup_insert. rewrite decide_True by done. cbn. by rewrite <- app_assoc.
  - by rewrite lookup_insert_ne.
Qed.

Lemma StronglySorted_reverse {A} (R : A → A → Prop) l :
  Sorted.StronglySorted R l → Sorted.StronglySorted (flip R) (reverse l).
Proof.
  induction 1 as [|x l Hl IH Hx]; [constructor|]. rewrite reverse_cons.
  assert (Forall (λ y, flip R y x) (reverse l)) as Hr by (by apply Forall_reverse).
  revert IH Hr. generalize (reverse l). intros r. induction 1 as [|y r Hr IHr Hy]; intros Hx'.
  - repeat constructor.
  - apply Forall_cons in Hx' as [Hy' Hx']. constructor; [by apply IHr|]. apply Forall_app. by repeat constructor.
Qed.

(** ** Calls *)
Section server.
Context {LL : LndLib} {RL : RpcLib} {EV : Env}.
Context {OS : Oracle SyncRpc.answer} {OR : Oracle answer}.
Implicit Types (t : Trace answer) (s : PeerswapServer).

Definition set_service (s : PeerswapServer) (st : World * SwapService) : PeerswapServer :=
  s <| srv_world := fst st |> <| srv_swaps := snd st |>.
Lemma wp_on_service {A} (m : Svc SwapService A) (P : A → Trace answer * PeerswapServer → Prop) R t s :
  wp m (λ a st, P a (t, set_service s st)) (λ k st, R k (t, set_service s st)) (srv_world s, srv_swaps s) →
  wp (on_service m) P R (t, s).
Proof. unfold wp, on_service. by destruct (m (srv_world s, srv_swaps s)) as [[]|[]|[]]. Qed.

Lemma wp_on_sync_view {A} (m : IO SyncRpc.answer PeerSync A)
    (P : A → Trace answer * PeerswapServer → Prop) R t s ts ps :
  srv_sync s = Some (ts, ps) →
  wp m (λ a st, P a (t, s <| srv_sync := Some st |>)) (λ k st, R k (t, s <| srv_sync := Some st |>))
    (ts, sync_view (srv_world s) ps) →
  wp (on_sync m) P R (t, s).
Proof. intros E. unfold wp, on_sync. rewrite E. by destruct (m _) as [[]|[]|[]]. Qed.

(** *** Listing the swaps *)

(** A client that follows the page tokens of [ListSwaps]. *)
Fixpoint list_all (fuel : nat) (pageSize : Z) (descending : bool) (token : string)
    : IO answer PeerswapServer (option (list (list rpc.PrettyPrintSwap))) :=
  match fuel with
  | O => mret None
  | S fuel =>
      r ← PeerswapServer.ListSwaps (mkListRequest pageSize token descending);
      match r with
      | Err _ => mret None
      | Ok resp =>
          if bool_decide (NextPageToken resp = "") then mret (Some [Swaps resp])
          else
            rest ← list_all fuel pageSize descending (NextPageToken resp);
            mret (rest' ← rest; Some (Swaps resp :: rest'))
      end
  end.

(** What the listings read: the swaps of an open database. *)
Definition readable (m : gmap string StoredSwap) s : Prop := swaps (srv_world s) = Some m.

Lemma wp_ListAll m t s (P : result (list SwapStateMachine) → Trace answer * PeerswapServer → Prop) R :
  (∀ h, ask h (DbBegin false) = None) → readable m s →
  (∀ w, swaps w = Some m → P (Ok (from_stored <$> for_each m)) (t, s <| srv_world := w |>)) →
  wp (on_service Service.ListSwaps) P R (t, s).
Proof.
  intros Hdb Hm HP. apply wp_on_service. unfold Service.ListSwaps, ListAll, with_bucket.
  do 2 svc_step. rewrite Hdb. do 2 svc_step. unfold readable in Hm.
  change (swaps (record (DbBegin false) (srv_world s))) with (swaps (srv_world s)). rewrite Hm.
  apply wp_ret. specialize (HP (record (DbBegin false) (srv_world s)) Hm). by destruct s.
Qed.

Definition listing (descending : bool) (m : gmap string StoredSwap) : list SwapStateMachine :=
  let l := sort_Slice by_creation (from_stored <$> for_each m) in
  if descending then reverse l else l.

Lemma listing_perm descending m : listing descending m ≡ₚ from_stored <$> for_each m.
Proof.
  unfold listing. destruct descending; [rewrite reverse_Permutation|]; apply sort_Slice_perm.
Qed.
Lemma listing_length descending m : length (listing descending m) = size m.
Proof.
  rewrite listing_perm, length_fmap. unfold for_each. rewrite length_fmap, merge_sort_Permutation.
  apply length_map_to_list.
Qed.
Lemma listing_sorted (descending : bool) m :
  Sorted.StronglySorted (λ a b, if descending then CreatedAt (sm_Data b) ≤ CreatedAt (sm_Data a)
                                else CreatedAt (sm_Data a) ≤ CreatedAt (sm_Data b)) (listing descending m).
Proof.
  pose proof (sort_Slice_sorted (λ a, CreatedAt (sm_Data a)) (from_stored <$> for_each m)) as H.
  unfold listing. destruct descending; [|exact H]. by apply StronglySorted_reverse.
Qed.

(** One page: the answer is that of the pager on the listing. *)
Lemma wp_ListSwaps m request t s (P : result ListSwapsResponse → Trace answer * PeerswapServer → Prop) :
  let l := listing (Descending request) m in
  (∀ h, ask h (DbBegin false) = None) → readable m s → fits l →
  (∀ w, swaps w = Some m →
     P (match pagingBounds (Z.of_nat (length l)) (PageSize request) (PageToken request) true with
        | Err e => Err e
        | Ok (start, end_, next) =>
            Ok (mkListSwapsResponse (PrettyprintFromServiceSwap <$> default [] (slice l start end_)) next)
        end) (t, s <| srv_world := w |>)) →
  wp (PeerswapServer.ListSwaps request) P no_stop (t, s).
Proof.
  intros l Hdb Hm Hl HP. unfold PeerswapServer.ListSwaps. apply wp_bind.
  apply (wp_ListAll m); [done|done|]. intros w Hw. unfold PeerswapServer.list_swaps. cbv zeta.
  fold (listing (Descending request) m). fold l. apply wp_bind. unfold page. specialize (HP w Hw).
  pose proof (proj2 (pages_list_everything l (PageSize request) true Hl) (PageToken request)) as Hslice.
  destruct (pagingBounds _ _ _ _) as [[[start end_] next]|e]; [|exact HP].
  destruct Hslice as [p Hp]. rewrite Hp in HP |- *. exact HP.
Qed.

(** The client reads the pages of the listing. *)
Lemma list_all_pages m fuel pageSize descending token t s :
  let l := listing descending m in
  (∀ h, ask h (DbBegin false) = None) → readable m s → fits l →
  wp (list_all fuel pageSize descending token)
    (λ r _, r = map (map PrettyprintFromServiceSwap) <$> pages fuel l pageSize token true) no_stop (t, s).
Proof.
  intros l Hdb Hm Hl. revert token t s Hm. induction fuel as [|fuel IH]; intros token t s Hm; [done|].
  cbn [list_all pages]. apply wp_bind. apply (wp_ListSwaps m); [done|done|done|]. intros w Hw.
  cbn [PageSize PageToken Descending]. fold l.
  pose proof (proj2 (pages_list_everything l pageSize true Hl) token) as Hslice.
  destruct (pagingBounds _ _ _ _) as [[[start end_] next]|e]; [|exact eq_refl].
  destruct Hslice as [p Hp]. rewrite Hp. cbn [Swaps NextPageToken mbind option_bind default from_option id].
  case_bool_decide; [exact eq_refl|]. apply wp_bind.
  eapply wp_mono; [apply (IH next); exact Hw| |done]. intros r st ->.
  destruct (pages fuel l pageSize next true); exact eq_refl.
Qed.
End server.

(** C35. A client that follows the page tokens of [ListSwaps] is shown every stored swap
    exactly once, in the order of creation or, if it asks so, in the reverse order,
    whatever the page size; no handler panics on the way, and the requests are at most
    one per swap and one more. *)
Theorem list_swaps_pages {LL : LndLib} {RL : RpcLib} {EV : Env}
    {OS : Oracle SyncRpc.answer} {OR : Oracle answer}
    (m : gmap string StoredSwap) (pageSize : Z) (descending : bool) t s :
  (∀ h, ask h (DbBegin false) = None) → swaps (srv_world s) = Some m → Z.of_nat (size m) < 2 ^ 62 →
  ∃ t' s' ps l,
    list_all (S (size m)) pageSize descending "" (t, s) = Ret (t', s') (Some ps) ∧
    concat ps = PrettyprintFromServiceSwap <$> l ∧
    l ≡ₚ from_stored <$> for_each m ∧
    Sorted.StronglySorted (λ a b, if descending then CreatedAt (sm_Data b) ≤ CreatedAt (sm_Data a)
                                  else CreatedAt (sm_Data a) ≤ CreatedAt (sm_Data b)) l.
Proof.
  intros Hdb Hm Hsize.
  assert (length (listing descending m) = size m) as Hlen by apply listing_length.
  assert (fits (listing descending m)) as Hl by (unfold fits; by rewrite Hlen).
  destruct (proj1 (pages_list_everything _ pageSize true Hl)) as (ps & Hps & Hc & _).
  rewrite Hlen in Hps.
  destruct (wp_total _ _ _ (list_all_pages m (S (size m)) pageSize descending "" t s Hdb Hm Hl))
    as ([t' s'] & r & E & ->).
  rewrite Hps in E. eexists t', s', _, (listing descending m). split; [exact E|].
  split; [by rewrite <- (concat_map _ ps), Hc|]. split; [apply listing_perm|apply listing_sorted].
Qed.

(** ** Listing the peers *)

(** The record of a compatible peer in the store of the sync. *)
Definition compatible_record (ps : PeerSync) (id : string) (p : Peer) : Prop :=
  ∃ b r, ps_bucket ps = Some b ∧ b !! id = Some r ∧ toPeer r id = Ok p ∧
    IsCompatibleWith p (ps_version ps) = true.

Lemma to_peers_elem l peers p :
  to_peers l = Ok peers → p ∈ peers → ∃ k r, (k, r) ∈ l ∧ toPeer r k = Ok p.
Proof.
  revert peers. induction l as [|[k r] l IH]; intros peers; cbn [to_peers].
  { intros [= <-] ?%elem_of_nil. done. }
  destruct (toPeer r k) as [q|] eqn:Eq; [|done]. destruct (to_peers l) as [qs|] eqn:El; [|done].
  intros [= <-] [->|Hin]%elem_of_cons; [exists k, r; split; [left|done]|].
  destruct (IH qs eq_refl Hin) as (k' & r' & ? & ?). exists k', r'. split; [by right|done].
Qed.

Lemma compatible_fold ver peers (m0 M : gmap string Peer) id p :
  M = foldl (λ m peer, if IsCompatibleWith peer ver then <[peer_id peer := peer]> m else m) m0 peers →
  M !! id = Some p →
  m0 !! id = Some p ∨ (p ∈ peers ∧ peer_id p = id ∧ IsCompatibleWith p ver = true).
Proof.
  intros ->. revert m0. induction peers as [|q peers IH]; intros m0; cbn [foldl]; [by left|].
  intros [Hq|(Hin & ? & ?)]%IH; [|right; split; [by right|done]].
  destruct (IsCompatibleWith q ver) eqn:Eq; [|by left].
  apply lookup_insert_Some in Hq as [[<- <-]|[_ Hq]]; [right; split; [left|done]|by left].
Qed.

Lemma CompatiblePeers_spec {OS : Oracle SyncRpc.answer} ts ps :
  store_ok ps →
  wp CompatiblePeers (λ r '(_, ps'), ps' = ps ∧
    match r with
    | Ok M => ∀ id p, M !! id = Some p → compatible_record ps id p
    | Err _ => True
    end) no_stop (ts, ps).
Proof.
  intros Hok. unfold CompatiblePeers, GetAllPeerStates. do 3 io_step.
  destruct (reply ts SyncRpc.DbView); [by do 2 io_step|]. do 2 io_step.
  destruct (ps_bucket ps) as [b|] eqn:Eb.
  2:{ do 4 io_step. split; [done|]. cbn. by intros id p ?%lookup_empty_Some. }
  io_step. destruct (to_peers (entries b)) as [peers|] eqn:Ep; [|by apply wp_ret].
  do 3 io_step. split; [done|]. intros id p Hp.
  destruct (compatible_fold _ _ _ _ _ _ eq_refl Hp) as [?%lookup_empty_Some|(Hin & Hid & Hc)]; [done|].
  destruct (to_peers_elem _ _ _ Ep Hin) as (k & r & Hkr & Hr).
  unfold entries in Hkr. rewrite merge_sort_Permutation in Hkr. apply elem_of_map_to_list in Hkr.
  exists b, r. destruct (Hok b k r Eb Hkr) as (q & Hq & Hk & ->).
  rewrite <- Hk, toPeer_record in Hr by done. injection Hr as <-.
  assert (k = id) as -> by (rewrite <- Hk, <- Hid; done).
  split; [done|]. split; [done|]. split; [|done]. rewrite <- Hk. by apply toPeer_record.
Qed.

Lemma slice_elem {A} (l p : list A) start end_ x : slice l start end_ = Some p → x ∈ p → x ∈ l.
Proof.
  unfold slice. destruct (_ && _); [|done]. intros [= <-] (i & Hi & _)%elem_of_take.
  by eapply subseteq_drop, list_elem_of_lookup_2.
Qed.

Section peers.
Context {LL : LndLib} {RL : RpcLib} {EV : Env}.
Context {OS : Oracle SyncRpc.answer} {OR : Oracle answer}.
Implicit Types (t : Trace answer) (s : PeerswapServer).

(** A page of a listing ends with a part of the list or an error, no panic. *)
Lemma wp_page {A} (l : list A) request t s (P : result (list A * string) → Trace answer * PeerswapServer → Prop) :
  fits l → (∀ e, P (Err e) (t, s)) → (∀ p next, (∀ x, x ∈ p → x ∈ l) → P (Ok (p, next)) (t, s)) →
  wp (page l request) P no_stop (t, s).
Proof.
  intros Hl He Hp. unfold page.
  pose proof (proj2 (pages_list_everything l (PageSize request) true Hl) (PageToken request)) as Hslice.
  destruct (pagingBounds _ _ _ _) as [[[start end_] next]|e]; [|exact (He e)].
  destruct Hslice as [p E]. rewrite E. apply (Hp p next). intros x. by eapply slice_elem.
Qed.

Lemma eligible_elem {A} (M : gmap string A) ids id :
  id ∈ merge_sort string_le (filter (λ pk, is_Some (M !! pk)) ids) →
  is_Some (M !! id) ∧ id ∈ ids.
Proof. rewrite merge_sort_Permutation. by intros ?%list_elem_of_filter. Qed.

(** What is shown of a peer: its capability, the statistics of its swaps by their
    definition, and the channels of lnd's list with it. *)
Definition shown (ps : PeerSync) (allSwaps : list SwapStateMachine) (chans : list Channel)
    (peer : rpc.PeerSwapPeer) : Prop :=
  let id := rpc.peer_NodeId peer in
  let l := filter (of_peer id) allSwaps in
  (∃ p, compatible_record ps id p ∧
    rpc.SwapsAllowed peer = match peer_capability p with Some c => cap_isPeerAllowed c | None => false end) ∧
  rpc.AsSender peer = convertStats (stats_spec true l) ∧
  rpc.AsReceiver peer = convertStats (stats_spec false l) ∧
  rpc.PaidFee peer = fee_spec l ∧
  rpc.Channels peer = lnrpcChannelToPeerswapChannel <$> filter (λ c, RemotePubkey c = id) chans.

Lemma peer_views_spec ps M allSwaps chans ids t s :
  (∀ id p, M !! id = Some p → compatible_record ps id p) → (∀ id, id ∈ ids → is_Some (M !! id)) →
  wp (PeerswapServer.peer_views M (partition_by_peer allSwaps) chans ids)
    (λ peers st, st = (t, s) ∧ rpc.peer_NodeId <$> peers = ids ∧ Forall (shown ps allSwaps chans) peers)
    no_stop (t, s).
Proof.
  intros HM. induction ids as [|id ids IH]; intros Hids; cbn [PeerswapServer.peer_views]; [by apply wp_ret|].
  destruct (Hids id) as [p Hp]; [left|]. rewrite Hp. do 2 wp_step; [|done].
  injection H as <-. wp_step. rewrite partition_spec.
  eapply wp_mono; [apply IH; intros; apply Hids; by right| |done].
  intros peers [t' s'] ([= -> ->] & Hpeers & Hall). wp_step. split; [done|].
  unfold format.BuildPeerView. rewrite summarizeSwaps_spec. split.
  - cbn. f_equal; [|done]. by destruct (peer_capability p).
  - constructor; [|done]. unfold shown.
    destruct (peer_capability p) as [c|] eqn:Ec; cbn; (split; [exists p; rewrite Ec; by split; [apply HM|]|done]).
Qed.
(** The answer [r] of a run of [ListPeers] with the record [t]. *)
Definition peers_answer (ps : PeerSync) (allSwaps : list SwapStateMachine) (r : result ListPeersResponse)
    t : Prop :=
  match r with
  | Err _ => True
  | Ok resp =>
      ∃ ids chans, event LndListPeers (Ok ids) ∈ t ∧ event (ListChannels true) (Ok chans) ∈ t ∧
        Forall (λ peer, rpc.peer_NodeId peer ∈ ids ∧ shown ps allSwaps chans peer) (Peers resp)
  end.
End peers.

(** C36. [ListPeers] shows what there is to show: it never panics; every peer of a
    page is connected and has a compatible record in the store of the sync; its
    statistics are the numbers and sums, modulo 2^64, of exactly the swaps with this
    peer that were claimed by preimage, although all swaps are read once for the whole
    page; and its channels are the ones with this peer. *)
Theorem list_peers_exact {LL : LndLib} {RL : RpcLib} {EV : Env}
    {OS : Oracle SyncRpc.answer} {OR : Oracle answer}
    (m : gmap string StoredSwap) ts ps request t s :
  (∀ h, ask h (DbBegin false) = None) → swaps (srv_world s) = Some m →
  srv_sync s = Some (ts, ps) → store_ok ps →
  (∀ t ids, reply t LndListPeers = Ok ids → Z.of_nat (length ids) < 2 ^ 62) →
  ∃ t' s' r, PeerswapServer.ListPeers request (t, s) = Ret (t', s') r ∧
    peers_answer ps (from_stored <$> for_each m) r t'.
Proof.
  intros Hdb Hm Hsync Hok Hfits.
  enough (wp (PeerswapServer.ListPeers request)
    (λ r st, peers_answer ps (from_stored <$> for_each m) r (fst st)) no_stop (t, s)) as H.
  { destruct (wp_total _ _ _ H) as ([t' s'] & r & E & Hr). by exists t', s', r. }
  unfold PeerswapServer.ListPeers. do 2 io_step. destruct (reply t LndListPeers) as [ids|e] eqn:Eids; [|done].
  do 2 io_step. set (t1 := event LndListPeers _ :: t).
  destruct (reply t1 (ListChannels true)) as [chans|e] eqn:Ech; [|done].
  do 3 io_step. rewrite Hsync. eapply wp_on_sync_view; [exact Hsync|].
  eapply wp_mono; [by apply CompatiblePeers_spec| |done].
  intros [M|e] [ts' ps'] [-> HM]; [|done].
  wp_step. apply wp_page.
  { unfold fits. rewrite merge_sort_Permutation. eapply Z.le_lt_trans; [|by eapply Hfits].
    apply inj_le, length_filter. }
  { done. }
  intros pk next Hpk. wp_step. apply (wp_ListAll m); [done|done|]. intros w Hw. wp_step.
  eapply wp_mono; [apply (peer_views_spec ps)| |done].
  - exact HM.
  - intros id Hin. by apply Hpk in Hin as [? _]%eligible_elem.
  - intros peers [t2 s2] ([= -> ->] & Hids & Hall). wp_step. exists ids, chans.
    split; [right; left|]. split; [left|]. cbn. apply Forall_forall. intros peer Hin. split.
    + apply (list_elem_of_fmap_2 rpc.peer_NodeId) in Hin. rewrite Hids in Hin.
      by apply Hpk in Hin as [_ ?]%eligible_elem.
    + by eapply Forall_forall in Hall.
Qed.
