(* ===== verification/Announce.v ===== *)
(** * What a forced poll announces

    A forced poll sends every known peer that is not suspicious the capability of
    the node as its policy and premium rates are, asks the connected peers it does not
    know yet for theirs, with the same capability, and sends nothing else: this is
    what the operator's changes rely on. *)

From stdpp Require Import sorting.
From S2P Require Import Prelude GoLib Messages Premium Policy SwapData Timelock Env Store Oracle.
From S2P Require Import PeerCapability SnapshotCodec PeerSync PeerSyncProofs.
Import SyncRpc.

(** What is advertised depends on these fields only. *)
Definition same_terms (s s' : PeerSync) : Prop :=
  ps_policy s' = ps_policy s ∧ ps_premium s' = ps_premium s ∧
  ps_version s' = ps_version s ∧ ps_supportedAssets s' = ps_supportedAssets s.
Lemma same_terms_trans s1 s2 s3 : same_terms s1 s2 → same_terms s2 s3 → same_terms s1 s3.
Proof. unfold same_terms. intuition congruence. Qed.
Lemma advertised_same s s' id : same_terms s s' → advertised s' id = advertised s id.
Proof.
  intros (H1 & H2 & H3 & H4). unfold advertised, guard_rate, Allow. by rewrite H1, H2, H3, H4.
Qed.
Lemma Suspicious_same s s' id : same_terms s s' → Suspicious s' id = Suspicious s id.
Proof. intros (H & _). unfold Suspicious. by rewrite H. Qed.
Lemma put_record_terms p s : same_terms s (put_record p s).
Proof. unfold put_record. by destruct (ps_bucket s). Qed.

Section announce.
Context {OR : Oracle answer}.
Hypothesis Hdb : ∀ t, reply t DbPremium = (None, None).

(** Whom a poll that began with the record [T0] may address: the peers that were known
    then, and with a request those that were not, but are connected. *)
Context (known_before : PeerID → Prop) (T0 : Trace answer).
Definition addressed (to : PeerID) (ty : MessageType) (pre : Trace answer) : Prop :=
  known_before to ∨
  (¬ known_before to ∧ ty = MESSAGETYPE_REQUEST_POLL ∧
   ∃ new peers, pre = new ++ T0 ∧ event ListPeers (Ok peers) ∈ new ∧ to ∈ peers).

(** A message is a poll or a request for one, and carries what is advertised to its
    peer, who is not suspicious and may be addressed. *)
Definition is_poll (ty : MessageType) : Prop := ty = MESSAGETYPE_POLL ∨ ty = MESSAGETYPE_REQUEST_POLL.
Definition announces (s : PeerSync) (e : Event answer) (pre : Trace answer) : Prop :=
  match question e with
  | SendCustomMessage to ty payload =>
      is_poll ty ∧ Suspicious s to = false ∧ snapshot_Marshal (advertised s to) = Ok payload ∧
      addressed to ty pre
  | _ => True
  end.
Definition message_to (id : PeerID) (t : Trace answer) : Prop :=
  ∃ ty payload a, event (SendCustomMessage id ty payload) a ∈ t.

Lemma addressed_more to ty t t' : suffix t t' → addressed to ty t → addressed to ty t'.
Proof.
  intros [k ->] [?|(H1 & H2 & new & peers & -> & H3 & H4)]; [by left|right].
  split; [done|]. split; [done|]. exists (k ++ new), peers. rewrite (assoc_L (++)).
  split; [done|]. split; [|done]. apply elem_of_app. by right.
Qed.

Lemma announces_same s s' t t' : same_terms s s' → asked_when (announces s') t t' → asked_when (announces s) t t'.
Proof.
  intros Hs. apply asked_mono. intros e pre. unfold announces. destruct (question e); try done.
  by rewrite (Suspicious_same s s' _ Hs), (advertised_same s s' _ Hs).
Qed.
Lemma no_message_announces s t t' : asked_when no_message t t' → asked_when (announces s) t t'.
Proof. apply asked_mono. intros e pre. unfold no_message, announces. by destruct (question e). Qed.
Lemma message_to_suffix id t t' : message_to id t → suffix t t' → message_to id t'.
Proof. intros (ty & p & a & H) Ht. exists ty, p, a. by eapply elem_of_suffix. Qed.

(** The messages of a piece of code, which leaves the terms alone and reaches the
    peers of [reached]. *)
Definition announcing {A} (s : PeerSync) t (reached : PeerID → Prop) (_ : A)
    '((t', s') : Trace answer * PeerSync) : Prop :=
  same_terms s s' ∧ asked_when (announces s) t t' ∧ ∀ id, reached id → ∃ new, t' = new ++ t ∧ message_to id new.

Lemma announcing_mono {A B} s t (r1 r2 : PeerID → Prop) (a : A) (b : B) st :
  (∀ id, r2 id → r1 id) → announcing s t r1 a st → announcing s t r2 b st.
Proof. destruct st. intros Hr (H1 & H2 & H3). split_and!; auto. Qed.

Lemma wp_announcing_seq {A B} (m : IO answer PeerSync A) (k : A → IO answer PeerSync B) r1 r2 t s :
  wp m (announcing s t r1) no_stop (t, s) →
  (∀ a t1 s1, announcing s t r1 a (t1, s1) → wp (k a) (announcing s1 t1 r2) no_stop (t1, s1)) →
  wp (m ≫= k) (announcing s t (λ id, r1 id ∨ r2 id)) no_stop (t, s).
Proof.
  intros Hm Hk. apply wp_bind. eapply wp_mono; [exact Hm| |done]. intros a [t1 s1] H1.
  eapply wp_mono; [apply (Hk a t1 s1 H1)| |done]. intros b [t2 s2] (Hs2 & Ht2 & Hr2).
  destruct H1 as (Hs1 & Ht1 & Hr1). split_and!.
  - by eapply same_terms_trans.
  - eapply asked_trans; [exact Ht1|]. by eapply announces_same.
  - intros id [Hid|Hid].
    + destruct (Hr1 id Hid) as (new & -> & Hm1). destruct (asked_suffix _ _ _ Ht2) as [new2 ->].
      exists (new2 ++ new). split; [by rewrite assoc_L by apply _|].
      destruct Hm1 as (ty & p & a' & Hin). exists ty, p, a'. apply elem_of_app. by right.
    + destruct (Hr2 id Hid) as (new & -> & Hm2). destruct (asked_suffix _ _ _ Ht1) as [new1 ->].
      exists (new ++ new1). split; [by rewrite assoc_L by apply _|].
      destruct Hm2 as (ty & p & a' & Hin). exists ty, p, a'. apply elem_of_app. by left.
Qed.

Lemma quiet_announcing {A} s t (P : A → Prop) a st :
  only_asked P t s a st → announcing s t (λ _, False) a st.
Proof.
  destruct st as [t' s']. intros (-> & Ht & _). split_and!; [done|by apply no_message_announces|done].
Qed.

Lemma announcing_refl {A} s t (a : A) : announcing s t (λ _, False) a (t, s).
Proof. split_and!; [done|constructor|done]. Qed.
(** A step that says nothing and keeps the terms, before and after. *)
Lemma announcing_before {A} s t t1 s1 (r : PeerID → Prop) (a : A) st :
  asked_when no_message t t1 → same_terms s s1 → announcing s1 t1 r a st → announcing s t r a st.
Proof.
  destruct st as [t' s']. intros Ht Hs (Hs' & Ht' & Hr). split_and!.
  - by eapply same_terms_trans.
  - eapply asked_trans; [by apply no_message_announces|]. by eapply announces_same.
  - intros id Hid. destruct (Hr id Hid) as (new & -> & Hm).
    destruct (asked_suffix _ _ _ Ht) as [new1 ->]. exists (new ++ new1).
    split; [by rewrite assoc_L by apply _|].
    destruct Hm as (ty & p & a' & Hin). exists ty, p, a'. apply elem_of_app. by left.
Qed.
Lemma announcing_after {A B} s t t1 s1 t' s' (r : PeerID → Prop) (a : A) (b : B) :
  announcing s t r a (t1, s1) → asked_when no_message t1 t' → same_terms s1 s' →
  announcing s t r b (t', s').
Proof.
  intros (Hs1 & Ht1 & Hr) Ht Hs. split_and!.
  - by eapply same_terms_trans.
  - eapply asked_trans; [exact Ht1|]. eapply announces_same; [exact Hs1|]. by apply no_message_announces.
  - intros id Hid. destruct (Hr id Hid) as (new & -> & Hm).
    destruct (asked_suffix _ _ _ Ht) as [new2 ->]. exists (new2 ++ new).
    split; [by rewrite assoc_L by apply _|].
    destruct Hm as (ty & p & a' & Hin). exists ty, p, a'. apply elem_of_app. by right.
Qed.

Lemma sendCapability_announcing peer ty t s :
  is_poll ty → Suspicious s peer = false → addressed peer ty t →
  wp (sendCapability peer ty) (λ a st, announcing s t (λ id, id = peer) a st ∧ snd st = s) no_stop (t, s).
Proof.
  intros Hty Hsus Hto. unfold sendCapability, localCapabilityForPeer. do 3 io_step.
  do 4 (eapply (asks_bind _ _ _ _ t);
    [first [assumption|constructor]|by apply PremiumRate_works|intros ? ? ? ->]).
  do 5 io_step. change (capabilityToDTO s _ peer) with (advertised s peer).
  assert (∀ t', asked_when no_message t t' → ∀ e, asked_when no_message t (event Now e :: t')) as Hnow
    by (intros; by constructor).
  unfold snapshot_Marshal. io_step. split; [|done]. split_and!; [done| |].
  - constructor; [|apply no_message_announces; by apply Hnow].
    split_and!; [done..|]. eapply addressed_more; [|exact Hto].
    eapply (asked_suffix no_message). by apply Hnow.
  - intros id ->.
    match goal with |- ∃ new, ?e :: ?t1 = _ ∧ _ =>
      destruct (asked_suffix no_message t t1) as [new Hnew]; [by apply Hnow|] end.
    eexists (_ :: new). split; [by rewrite Hnew|]. do 3 eexists. left.
Qed.

Lemma poll_peer_announcing now p t s :
  known_before (peer_id p) →
  wp (poll_peer true now p)
    (announcing s t (λ id, id = peer_id p ∧ Suspicious s id = false)) no_stop (t, s).
Proof.
  intros Hknown. unfold poll_peer. do 2 io_step. cbn [negb andb]. do 2 io_step.
  assert (asked_when no_message t (event Now (reply t Now) :: t)) as H0 by by repeat constructor.
  destruct (Suspicious s (peer_id p)) eqn:Es.
  { apply wp_ret. eapply announcing_before; [exact H0|done|].
    eapply announcing_mono; [|apply (announcing_refl s _ ())]. intros id [-> Hid]. congruence. }
  io_step. eapply wp_mono; [apply sendCapability_announcing; [|done|by left]| |done].
  { unfold is_poll. destruct (capabilityIsStale _ _); [right|left]; done. }
  intros [e|] [t1 s1] [H1 Hs]; cbn [snd] in Hs; subst s1;
    apply (announcing_mono _ _ _ (λ id, id = peer_id p ∧ Suspicious s id = false) _ ()) in H1;
    try by intros id [-> _].
  { apply wp_ret. by eapply announcing_before. }
  do 2 io_step. io_step. eapply wp_mono; [apply SavePeerState_spec| |done].
  intros _ [t2 s2] [H2 Hs2]. apply wp_ret. eapply announcing_before; [exact H0|done|].
  eapply announcing_after; [exact H1| |].
  - eapply asked_trans; [|exact H2]. by repeat constructor.
  - destruct Hs2 as [->| ->]; [done|apply put_record_terms].
Qed.

Lemma poll_loop_announcing now peers t s :
  (∀ id, id ∈ peer_id <$> peers → known_before id) →
  wp (poll_loop true now peers)
    (announcing s t (λ id, id ∈ peer_id <$> peers ∧ Suspicious s id = false)) no_stop (t, s).
Proof.
  revert t s. induction peers as [|p peers IH]; intros t s Hknown; cbn [poll_loop].
  { apply wp_ret. eapply announcing_mono; [|apply (announcing_refl s t ())].
    by intros id [?%elem_of_nil _]. }
  eapply wp_mono; [eapply wp_announcing_seq; [apply poll_peer_announcing, Hknown; left|]| |done].
  - intros [] t1 s1 (Hs & _ & _).
    eapply wp_mono; [apply IH; intros id Hid; apply Hknown; by right| |done]. intros [] st.
    apply announcing_mono with (r2 := λ id, id ∈ peer_id <$> peers ∧ Suspicious s id = false).
    intros id [? ?]. by rewrite (Suspicious_same s s1).
  - intros [] st. apply announcing_mono. intros id [[->|?]%elem_of_cons ?]; [by left|by right].
Qed.

(** Connected peers that are not known yet get a request. *)
Lemma request_loop_announcing peers known now t s :
  (∀ id, known_before id → id ∈ known) →
  (∀ id, id ∈ peers → ¬ known_before id → addressed id MESSAGETYPE_REQUEST_POLL t) →
  wp (request_loop peers known now true)
    (announcing s t (λ id, id ∈ peers ∧ ¬ (id ∈ known) ∧ Suspicious s id = false)) no_stop (t, s).
Proof.
  intros Hknown. revert t s. induction peers as [|p peers IH]; intros t s Hto; cbn [request_loop].
  { apply wp_ret. eapply announcing_mono; [|apply (announcing_refl s t ())].
    by intros id [?%elem_of_nil _]. }
  do 2 io_step.
  eapply wp_mono; [eapply wp_announcing_seq with
    (r1 := λ id, id = p ∧ ¬ (id ∈ known) ∧ Suspicious s id = false)
    (r2 := λ id, id ∈ peers ∧ ¬ (id ∈ known) ∧ Suspicious s id = false)| |done].
  - case_bool_decide.
    { apply wp_ret. eapply announcing_mono; [|apply (announcing_refl s t ())].
      by intros id (-> & ? & _). }
    destruct (Suspicious s p) eqn:Es.
    { apply wp_ret. eapply announcing_mono; [|apply (announcing_refl s t ())].
      intros id (-> & _ & ?). congruence. }
    unfold allowRequest. do 3 io_step. cbn [negb andb].
    replace (match ps_lastRequestedAt s !! p with Some _ => false | None => false end) with false
      by by destruct (ps_lastRequestedAt s !! p).
    do 4 io_step. eapply wp_mono; [apply sendCapability_announcing; [by right|done|]| |done].
    { apply Hto; [left|]. by intros ?%Hknown. }
    intros r [t1 s1] [H1 _]. apply wp_ret.
    eapply announcing_before; [apply asked_none| |eapply announcing_mono; [|exact H1]]; [done|].
    by intros id [-> _].
  - intros [] t1 s1 (Hs & Ht1 & _). eapply wp_mono; [apply IH| |done].
    { intros id Hid Hn. eapply addressed_more; [by eapply asked_suffix|]. apply Hto; [by right|done]. }
    intros [] st. apply announcing_mono. intros id (? & ? & ?). by rewrite (Suspicious_same s s1).
  - intros [] st. apply announcing_mono. intros id ([->|?]%elem_of_cons & ? & ?); [by left|by right].
Qed.

Lemma requestUnknown_announcing known t s :
  (∀ id, known_before id → id ∈ known) → suffix T0 t →
  wp (requestUnknownConnectedPeers known true) (announcing s t (λ _, False)) no_stop (t, s).
Proof.
  intros Hknown [new0 ->]. unfold requestUnknownConnectedPeers. io_step.
  eapply wp_mono; [apply connectedPeers_asks| |done].
  intros [l|e] [t1 s1] (-> & Ht1 & Hl).
  2:{ apply wp_ret. eapply announcing_before; [exact Ht1|done|]. apply (announcing_refl s t1 ()). }
  do 4 io_step. destruct (Hl l eq_refl) as (peers & -> & Hpeers). do 2 io_step.
  eapply wp_mono; [apply request_loop_announcing; [exact Hknown|]| |done].
  { intros id Hid Hn. right. split; [done|]. split; [done|].
    eexists (_ :: _ :: event ListPeers (Ok peers) :: new0), peers. split; [done|].
    split; [do 2 right; left|]. apply Hpeers.
    match type of Hid with _ ∈ proj1_sig ?r => by rewrite (proj2_sig r) in Hid end. }
  intros [] st H. eapply announcing_before; [| |by eapply announcing_mono; [|exact H]]; [|done].
  eapply asked_trans; [exact Ht1|]. by repeat constructor.
Qed.

Definition known_peer (s : PeerSync) (id : PeerID) : Prop :=
  ∃ m, ps_bucket s = Some m ∧ is_Some (m !! id).

(** A forced poll while the database works. *)
Lemma pollPeers_announcing s :
  store_ok s → (∀ t, reply t DbView = None) → (∀ id, known_before id ↔ known_peer s id) →
  wp (pollPeers true)
    (announcing s T0 (λ id, known_peer s id ∧ Suspicious s id = false)) no_stop (T0, s).
Proof.
  intros Hok Hview Hknown. unfold pollPeers. io_step. unfold poll_begin. io_step.
  unfold GetAllPeerStates. do 2 io_step. rewrite Hview. do 2 io_step.
  set (t1 := event DbView None :: T0).
  assert (∃ peers, match ps_bucket s with None => Ok [] | Some m => to_peers (entries m) end = Ok peers ∧
    ∀ id, known_peer s id ↔ id ∈ peer_id <$> peers) as (peers & Epeers & Hpeers).
  { destruct (ps_bucket s) as [m|] eqn:Em.
    - destruct (to_peers_ok (entries m) (entries_ok s m Hok Em)) as (peers & E & _ & Hids).
      exists peers. split; [done|]. intros id. rewrite Hids, list_elem_of_fmap. split.
      + intros (m' & Em' & [r Hr]). rewrite Em in Em'. injection Em' as <-.
        exists (id, r). split; [done|].
        unfold entries. rewrite merge_sort_Permutation. by apply elem_of_map_to_list.
      + intros ([k r] & -> & Hin). exists m. split; [done|]. exists r. revert Hin.
        unfold entries. rewrite merge_sort_Permutation. by rewrite elem_of_map_to_list.
    - exists []. split; [done|]. intros id. split; [|by intros ?%elem_of_nil].
      by intros (m & ? & _); congruence. }
  replace (match ps_bucket s with None => mret (Ok []) | Some m => mret (to_peers (entries m)) end)
    with (mret (Ok peers) : IO answer PeerSync (result (list Peer)))
    by (destruct (ps_bucket s); [by rewrite Epeers|congruence]).
  do 4 io_step. cbn [poll_now poll_rest poll_known].
  eapply wp_mono; [eapply wp_announcing_seq; [apply poll_loop_announcing|]| |done].
  - intros id Hid. by apply Hknown, Hpeers.
  - intros [] t2 s2 (_ & Ht2 & _). apply requestUnknown_announcing.
    + intros id Hid. by apply Hpeers, Hknown.
    + etrans; [|by eapply asked_suffix]. by do 2 apply suffix_cons_r.
  - intros [] st H. eapply announcing_before; [| |eapply announcing_mono; [|exact H]].
    + by repeat constructor.
    + done.
    + intros id [? ?]. left. split; [by apply Hpeers|done].
Qed.
End announce.

(** ** What a peer makes of an announcement *)

(** What a node must have set up for its announcement to be accepted. *)
Record announceable (s : PeerSync) (peer : PeerID) : Prop := {
  ann_version : 0 < ps_version s < 2 ^ 64;
  ann_assets : AssetUnknown ∉ ps_supportedAssets s;
  ann_rates a o : specified a o →
    MinPremiumRatePPM ≤ Premium.ppmValue (guard_rate s peer a o) ≤ MaxPremiumRatePPM;
}.

Lemma normalize_known symbols assets :
  AssetUnknown ∉ assets → AssetUnknown ∉ normalize_loop symbols assets.
Proof.
  revert assets. induction symbols as [|x symbols IH]; intros assets Ha; [done|]. cbn [normalize_loop].
  case_bool_decide; [by apply IH|]. destruct (NewAsset _) as [asset|]; [|by apply IH].
  case_bool_decide as Hd; [by apply IH|]. apply IH. set_solver.
Qed.
(** A new sync may announce whatever it is configured with, as long as the rates are
    inside the bounds. *)
Lemma NewPeerSync_announceable bucket policyCfg symbols rates peer :
  (∀ a o, specified a o → MinPremiumRatePPM ≤
     Premium.ppmValue (guard_rate (NewPeerSync bucket policyCfg symbols rates) peer a o) ≤ MaxPremiumRatePPM) →
  announceable (NewPeerSync bucket policyCfg symbols rates) peer.
Proof.
  intros Hr. split; [split; by vm_compute| |done]. cbn. unfold normalizeSupportedAssets.
  pose proof (normalize_known symbols [] ltac:(set_solver)). destruct (normalize_loop symbols []); set_solver.
Qed.

Lemma advertised_parses now s peer : announceable s peer →
  ∃ c, ToCapability now (advertised s peer) = Ok c ∧ SnapshotFromCapability c = advertised s peer ∧ cap_ok c.
Proof.
  intros [_ Ha Hr]. pose proof (ToCapability_spec now (advertised s peer)) as H.
  destruct (ToCapability _ _) as [c|e].
  - exists c. split; [done|]. destruct H as (_ & Hc & Hv & Hp & Hal & H1 & H2 & H3 & H4 & _).
    cbn in Hp. rewrite parse_assets_String in Hp by done. injection Hp as Hp. split; [|done].
    unfold SnapshotFromCapability, advertised, GetPremiumRate. rewrite Hv, Hal, H1, H2, H3, H4, <- Hp. done.
  - destruct H. split; [cbn; by rewrite parse_assets_String|].
    repeat constructor; apply Hr; by split.
Qed.
Lemma announceable_same s s' peer : same_terms s s' → announceable s peer → announceable s' peer.
Proof.
  intros (H1 & H2 & H3 & H4) [Hv Ha Hr]. split; [by rewrite H3|by rewrite H4|].
  intros a o Hs. unfold guard_rate. rewrite H2. by apply Hr.
Qed.

Section arrival.
Context {OR : Oracle answer}.
Record database_works : Prop := {
  works_update t : reply t DbUpdate = None;
  works_view t : reply t DbView = None;
  works_premium t : reply t DbPremium = (None, None);
}.
Hypothesis Hdb : database_works.

(** The store holds the peer with this capability; nothing else has changed. *)
Definition learned (from : PeerID) (x : PeerCapabilitySnapshot) (s s' : PeerSync) : Prop :=
  ∃ p, s' = put_record p s ∧ peer_ok p ∧ peer_id p = from ∧ peer_status p = StatusActive ∧
    SnapshotFromCapability <$> peer_capability p = Some x.

Lemma findPeer_works id m t s :
  store_ok s → NewPeerID id = Ok id → ps_bucket s = Some m →
  wp (findPeer id) (λ r '(t', s'), s' = s ∧ suffix t t' ∧ ∃ p, r = Ok p ∧ peer_ok p ∧ peer_id p = id ∧
    ∀ c, peer_capability p = Some c → ∃ x, m !! id = Some x ∧ cap_version c = rec_version x) no_stop (t, s).
Proof.
  intros Hs Hid Hm. unfold findPeer, GetPeerState. do 3 io_step. rewrite (works_view Hdb).
  do 2 io_step. rewrite Hm. destruct (m !! id) as [x|] eqn:Ex.
  - destruct (Hs m id x Hm Ex) as (q & Hq & <- & ->). rewrite toPeer_record by done.
    do 2 apply wp_ret. split; [done|]. split; [by apply suffix_cons_r|]. exists (reread q).
    split; [done|]. split; [by apply reread_ok|]. split; [done|]. intros c Hc. exists (peerToRecord q).
    split; [done|]. rewrite rec_version_record, <- reread_version. unfold cap_version_of. by rewrite Hc.
  - do 2 apply wp_ret. split; [done|]. split; [by apply suffix_cons_r|].
    exists (NewPeer id ""). split; [done|]. split; [by split|]. split; done.
Qed.

Lemma SavePeerState_works p m t s :
  peer_id p ≠ "" → ps_bucket s = Some m →
  wp (SavePeerState p) (λ r '(t', s'), r = None ∧ suffix t t' ∧ s' = put_record p s) no_stop (t, s).
Proof.
  intros Hid Hm. unfold SavePeerState, db_update, put_record. do 3 io_step. rewrite (works_update Hdb).
  do 2 io_step. rewrite Hm. io_step. rewrite bool_decide_false by done. do 4 io_step.
  split; [done|]. split; [by apply suffix_cons_r|done].
Qed.

Lemma storeCapability_learns from ty payload x m t s :
  store_ok s → NewPeerID from = Ok from → ps_bucket s = Some m → Suspicious s from = false →
  snapshot_Unmarshal payload = Ok x →
  (∀ now, ∃ c, ToCapability now x = Ok c ∧ SnapshotFromCapability c = x ∧ cap_ok c) →
  (∀ r, m !! from = Some r → rec_version r ≤ snap_Version x) →
  wp (storeCapabilityMessage (mkCustomMessage from ty payload))
    (λ _ '(t', s'), suffix t t' ∧ learned from x s s') no_stop (t, s).
Proof.
  intros Hs Hid Hm Hsus Hx Hcap Hver. unfold storeCapabilityMessage, parseCapabilityMessage. do 3 io_step.
  apply wp_ret. cbn [msg_Payload msg_From]. rewrite Hx.
  destruct (Hcap (reply t Now)) as (c & -> & Hc & Hok). do 2 io_step. rewrite Hsus. io_step.
  eapply wp_mono; [by eapply findPeer_works| |done].
  intros r [t1 s1] (-> & Ht1 & p & -> & Hp & Hpid & Hpcap). do 2 io_step.
  assert (match peer_capability p with Some existing => MergeCapabilities existing c | None => c end = c) as ->.
  { destruct (peer_capability p) as [c0|] eqn:Ec; [|done]. destruct (Hpcap c0 eq_refl) as (y & Hy & Hv).
    unfold MergeCapabilities. apply Hver in Hy. rewrite <- Hv in Hy.
    apply (f_equal snap_Version) in Hc. cbn in Hc.
    destruct (Z.ltb_spec (cap_version c) (cap_version c0)); [lia|done]. }
  io_step. eapply wp_mono; [eapply SavePeerState_works; [|exact Hm]| |done].
  { cbn. rewrite Hpid. by apply NewPeerID_id in Hid as [_ ?]. }
  intros r [t2 s2] (-> & Ht2 & ->). apply wp_ret. split.
  - etrans; [by apply suffix_cons_r|]. etrans; [exact Ht1|]. etrans; [by apply suffix_cons_r|exact Ht2].
  - exists (UpdateCapability (reply t1 Now) c p). split; [done|]. split.
    + destruct Hp as [H1 H2 H3]. split; [done|done|]. by intros c1 [= <-].
    + split; [done|]. split; [done|]. cbn. by rewrite Hc.
Qed.

Lemma processMessage_learns from ty payload x m t s :
  is_poll ty → store_ok s → NewPeerID from = Ok from → ps_bucket s = Some m → Suspicious s from = false →
  snapshot_Unmarshal payload = Ok x →
  (∀ now, ∃ c, ToCapability now x = Ok c ∧ SnapshotFromCapability c = x ∧ cap_ok c) →
  (∀ r, m !! from = Some r → rec_version r ≤ snap_Version x) →
  wp (processMessage (mkCustomMessage from ty payload))
    (λ _ '(t', s'), learned from x s s' ∧
       (ty = MESSAGETYPE_REQUEST_POLL → ∃ new, t' = new ++ t ∧ message_to from new)) no_stop (t, s).
Proof.
  intros Hty Hs Hid Hm Hsus Hx Hcap Hver. unfold processMessage. cbn [msg_Type].
  destruct Hty as [-> | ->].
  - change (MESSAGETYPE_POLL =? MESSAGETYPE_POLL) with true. cbv iota. unfold handlePollMessage. io_step.
    eapply wp_mono; [by eapply storeCapability_learns| |done].
    intros _ [t' s'] [_ H]. apply wp_ret. by split.
  - change (MESSAGETYPE_REQUEST_POLL =? MESSAGETYPE_POLL) with false.
    change (MESSAGETYPE_REQUEST_POLL =? MESSAGETYPE_REQUEST_POLL) with true. cbv iota.
    unfold handleRequestPollMessage. cbn [msg_From]. do 2 io_step. rewrite Hsus. io_step.
    eapply wp_mono; [by eapply storeCapability_learns| |done]. intros _ [t1 s1] [Ht1 H]. io_step.
    assert (Suspicious s1 from = false) as Hsus1.
    { destruct H as (p & -> & _). by rewrite (Suspicious_same _ _ _ (put_record_terms p s)). }
    eapply wp_mono; [apply (sendCapability_announcing (works_premium Hdb) (λ _, True) []); [by left|done|by left]| |done].
    intros r [t2 s2] [(_ & _ & Hr) Es]. cbn in Es. subst s2. apply wp_ret. split; [done|]. intros _.
    destruct (Hr from eq_refl) as (new & -> & Hmsg). destruct Ht1 as [new1 ->]. exists (new ++ new1).
    split; [by rewrite assoc_L by apply _|]. destruct Hmsg as (ty & b & a & Hin). exists ty, b, a.
    apply elem_of_app. by left.
Qed.
End arrival.

Lemma learned_record from x s s' m :
  learned from x s s' → ps_bucket s = Some m → 0 < snap_Version x →
  ∃ r p, record_at s' from = Some r ∧ rec_snapshot r = x ∧ toPeer r from = Ok p ∧
    (∀ v, IsCompatibleWith p v = (snap_Version x =? v)) ∧
    ∀ k, k ≠ from → record_at s' k = record_at s k.
Proof.
  intros (p & -> & Hp & <- & Hst & Hc) Hm Hv. exists (peerToRecord p), (reread p).
  unfold record_at, put_record. rewrite Hm. cbn [upd ps_bucket eta_peersync].
  destruct (peer_capability p) as [c|] eqn:Ec; [|done]. injection Hc as Hc.
  assert (rec_snapshot (peerToRecord p) = x) as Hx by (unfold peerToRecord; by rewrite Ec).
  split; [cbn; by rewrite lookup_insert_eq|]. split; [done|]. split; [by apply toPeer_record|]. split.
  - intros v. unfold IsCompatibleWith, reread. cbn.
    assert (hasCapabilityData (peerToRecord p) = true) as ->.
    { unfold hasCapabilityData. rewrite Hx. by rewrite (proj2 (Z.eqb_neq _ 0)) by lia. }
    rewrite Ec. cbn. apply (f_equal snap_Version) in Hc. cbn in Hc. by rewrite Hc.
  - intros k Hk. cbn. by rewrite lookup_insert_ne.
Qed.

(** A peer that trusts the node, and whose record of it is not of a later version. *)
Record receptive (from : PeerID) (version : Z) (s : PeerSync) : Prop := {
  rcp_store : store_ok s;
  rcp_bucket : is_Some (ps_bucket s);
  rcp_trust : Suspicious s from = false;
  rcp_version r : record_at s from = Some r → rec_version r ≤ version;
}.

(** What a message announces, any receptive peer stores, and knows whether it can swap. *)
Lemma announcement_arrives {OR : Oracle answer} s peer from ty payload t2 s2 :
  announceable s peer → is_poll ty → snapshot_Marshal (advertised s peer) = Ok payload →
  database_works → NewPeerID from = Ok from → receptive from (ps_version s) s2 →
  ∃ t2' s2' r p,
    processMessage (mkCustomMessage from ty payload) (t2, s2) = Ret (t2', s2') () ∧
    record_at s2' from = Some r ∧ rec_snapshot r = advertised s peer ∧
    toPeer r from = Ok p ∧ (∀ v, IsCompatibleWith p v = (ps_version s =? v)) ∧
    (∀ k, k ≠ from → record_at s2' k = record_at s2 k) ∧
    (ty = MESSAGETYPE_REQUEST_POLL → ∃ new, t2' = new ++ t2 ∧ message_to from new).
Proof.
  intros Hann Hty Hpay Hdb Hid [Hs [m Hm] Hsus Hver].
  assert (snapshot_typed (advertised s peer)) as Htyped.
  { apply advertised_typed. pose proof (ann_version _ _ Hann). unfold is_u64. lia. }
  destruct (wp_total _ _ _ (processMessage_learns Hdb from ty payload (advertised s peer) m t2 s2
    Hty Hs Hid Hm Hsus (snapshot_roundtrips _ _ Htyped Hpay)
    ltac:(intros now; by apply advertised_parses)
    ltac:(intros r Hr; apply Hver; unfold record_at; by rewrite Hm))) as ([t2' s2'] & [] & E & Hl & Hreq).
  destruct (learned_record _ _ _ _ m Hl Hm) as (r & p & Hr & Hx & Hp & Hcompat & Hrest);
    [apply (ann_version _ _ Hann)|].
  by exists t2', s2', r, p.
Qed.
