(* ===== verification/RpcGuards.v ===== *)
(** * What a request of the RPC server may start

    A swap is handed to the swap service only after every check of the handler, and
    nothing else of a request touches the service or the database.  A new premium
    rate is in force when the call returns and announced to every known peer, and to
    connected peers that are asked for their capability. *)

From S2P Require Import LndClient.
From S2P Require Import Prelude GoLib Messages Premium Policy SwapData Timelock Env Store Oracle.
From S2P Require Import PeerCapability SnapshotCodec PeerSync PeerSyncProofs Fsm Service Rpc RpcServer RpcProofs.
From S2P Require Import Announce.
Import ServerRpc.

Section guards.
Context {LL : LndLib} {RL : RpcLib} {EV : Env}.
Context {OS : Oracle SyncRpc.answer} {OR : Oracle answer}.
Implicit Types (t : Trace answer) (s : PeerswapServer).

(** ** Starting a swap *)
Lemma find_channel_spec id chans c0 ch :
  PeerswapServer.find_channel id chans c0 = Some ch → c0 = Some ch ∨ (ch ∈ chans ∧ ChanId ch = id).
Proof.
  revert c0. induction chans as [|v chans IH]; intros c0; cbn [PeerswapServer.find_channel]; [by left|].
  intros [H|[? ?]]%IH; [|right; split; [by right|done]].
  destruct (Z.eqb_spec (ChanId v) id); [|by left]. injection H as ->. right. split; [left|done].
Qed.

Lemma HasCompatiblePeer_spec id ts ps :
  wp (HasCompatiblePeer id) (λ b '(_, ps'), ps' = ps ∧ (b = true → ∃ p, compatible_record ps id p))
    no_stop (ts, ps).
Proof.
  unfold HasCompatiblePeer. destruct (NewPeerID id) as [id'|] eqn:Eid; [|by apply wp_ret].
  apply NewPeerID_id in Eid as [-> _]. unfold GetPeerState. do 3 io_step.
  destruct (reply ts SyncRpc.DbView); [by do 2 io_step|]. do 2 io_step.
  destruct (ps_bucket ps) as [b|] eqn:Eb; [|by do 2 io_step].
  destruct (b !! id) as [r|] eqn:Er; [|by do 2 io_step].
  destruct (toPeer r id) as [p|] eqn:Ep; [|by do 2 io_step]. do 4 io_step.
  split; [done|]. intros Hc. by exists p, b, r.
Qed.

(** The service and the database are as they were. *)
Definition untouched s s' : Prop :=
  srv_world s' = srv_world s ∧ srv_swaps s' = srv_swaps s ∧ srv_has_liquidWallet s' = srv_has_liquidWallet s.

Definition known_compatible s (id : string) : Prop :=
  ∃ ts ps p, srv_sync s = Some (ts, ps) ∧ compatible_record ps id p.

(** The checks both kinds of swap have in common. *)
Record checked (request : SwapRequest) s t (ch : Channel) (pk : string) : Prop := {
  on_channel : ∃ chans, event (ListChannels true) (Ok chans) ∈ t ∧ ch ∈ chans;
  right_channel : ChanId ch = req_ChannelId request;
  channel_active : Active ch = true;
  own_key : event GetInfo (Ok pk) ∈ t;
  asset_enabled : (req_Asset request = "lbtc" ∧ liquidEnabled = true) ∨
                  (req_Asset request = "btc" ∧ bitcoinEnabled = true);
  peer_connected : ∃ ids, event LndListPeers (Ok ids) ∈ t ∧ RemotePubkey ch ∈ ids;
  peer_compatible : Force request = true ∨ known_compatible s (RemotePubkey ch);
}.

(** The answer [r] after the swap service was asked to start a swap: its error, or the
    swap in the state [opened], or the wait for that state failed. *)
Definition started (start : Svc SwapService (result SwapStateMachine)) (opened : StateType) s
    (r : result rpc.PrettyPrintSwap) s' : Prop :=
  ∃ w sv res, start (srv_world s, srv_swaps s) = Ret (w, sv) res ∧
    srv_world s' = w ∧ srv_swaps s' = sv ∧
    match res with
    | Err e => r = Err e
    | Ok sm => ∀ shown, r = Ok shown → ∃ sm', (sm' = sm ∨ same_machine sm sm') ∧
        sm_Current sm' = opened ∧ shown = PrettyprintFromServiceSwap sm'
    end.
Definition stops (start : Svc SwapService (result SwapStateMachine)) s : Prop :=
  match start (srv_world s, srv_swaps s) with Ret _ _ => False | _ => True end.

Lemma wait_loop_spec desired sm l sm' :
  Forall (same_machine sm) l → ∀ sm0, (sm0 = sm ∨ same_machine sm sm0) →
  wait_loop desired sm0 l = Some sm' → (sm' = sm ∨ same_machine sm sm') ∧ desired (sm_Current sm') = true.
Proof.
  induction 1 as [|x l Hx _ IH]; intros sm0 H0; cbn [wait_loop]; destruct (desired (sm_Current sm0)) eqn:E;
    try done; [by intros [= <-]..|]. apply IH. by right.
Qed.

Lemma await_opening_spec canceled opened sm t s (P : result rpc.PrettyPrintSwap → Trace answer * PeerswapServer → Prop) R :
  (∀ r t', suffix t t' → (∀ shown, r = Ok shown → ∃ sm', (sm' = sm ∨ same_machine sm sm') ∧
     sm_Current sm' = opened ∧ shown = PrettyprintFromServiceSwap sm') → P r (t', s)) →
  wp (PeerswapServer.await_opening canceled opened sm) P R (t, s).
Proof.
  intros HP. unfold PeerswapServer.await_opening, WaitForStateChange. do 4 io_step.
  apply HP; [by apply suffix_cons_r|].
  destruct (reply t (Wakeups sm)) as [l Hl]. cbn [proj1_sig].
  destruct (wait_loop _ sm l) as [sm'|] eqn:E; [|done].
  apply (wait_loop_spec _ sm) in E as [Hsame _]; [|done|by left]. case_bool_decide; [|done].
  intros shown [= <-]. by exists sm'.
Qed.

(** The part both handlers end with. *)
Definition start_checked (request : SwapRequest) (ch : Channel) (pk : string)
    (start : string → Svc SwapService (result SwapStateMachine)) (opened : StateType)
    : IO answer PeerswapServer (result rpc.PrettyPrintSwap) :=
  do? PeerswapServer.check_compatible (Force request) (RemotePubkey ch) else e => mret (Err e) in
  connected ← PeerswapServer.isPeerConnected (RemotePubkey ch);
  if negb connected then mret (Err (ErrText "peer is not connected")) else
  let? swap := on_service (start pk) else e => mret (Err e) in
  PeerswapServer.await_opening (λ msg, ErrText (Sprintf msg)) opened swap.

(** The two outcomes of a request that returns, and the ones that do not. *)
Definition answered (passed : Trace answer → Channel → string → Prop)
    (start : Channel → string → Svc SwapService (result SwapStateMachine)) (opened : StateType) s
    (r : result rpc.PrettyPrintSwap) '((t', s') : Trace answer * PeerswapServer) : Prop :=
  (untouched s s' ∧ ∃ e, r = Err e) ∨
  ∃ t ch pk, suffix t t' ∧ passed t ch pk ∧ started (start ch pk) opened s r s'.
Definition stopped (passed : Trace answer → Channel → string → Prop)
    (start : Channel → string → Svc SwapService (result SwapStateMachine)) s (_ : stop)
    (_ : Trace answer * PeerswapServer) : Prop :=
  srv_has_liquidWallet s = false ∨ ∃ t ch pk, passed t ch pk ∧ stops (start ch pk) s.

Lemma check_compatible_spec force id t s (P : option error → Trace answer * PeerswapServer → Prop) R :
  (∀ e s', untouched s s' → P (Some e) (t, s')) →
  (∀ s', untouched s s' → force = true ∨ known_compatible s id → P None (t, s')) →
  wp (PeerswapServer.check_compatible force id) P R (t, s).
Proof.
  intros HE HN. unfold PeerswapServer.check_compatible. destruct force; [by apply wp_ret, HN; [|left]|].
  do 2 io_step. destruct (srv_sync s) as [[ts ps]|] eqn:Es; [|by apply wp_ret, HE].
  io_step. eapply wp_on_sync_view; [done|]. eapply wp_mono; [apply HasCompatiblePeer_spec| |done].
  intros b [ts' ps'] [-> Hb]. apply wp_ret. destruct b; [|by apply HE].
  apply HN; [done|]. right. destruct (Hb eq_refl) as [p Hp]. by exists ts, ps, p.
Qed.

Lemma start_checked_spec request ch pk start opened t s passed :
  (∀ s' t' ids, untouched s s' → Force request = true ∨ known_compatible s (RemotePubkey ch) →
     event LndListPeers (Ok ids) ∈ t' → RemotePubkey ch ∈ ids → suffix t t' → passed t' ch pk) →
  wp (start_checked request ch pk (start ch) opened) (answered passed start opened s)
    (stopped passed start s) (t, s).
Proof.
  intros Hpass. unfold start_checked. io_step. apply check_compatible_spec.
  { intros e s' Hs'. apply wp_ret. left. by eauto. }
  intros s1 Hs1 Hc. unfold PeerswapServer.isPeerConnected. do 3 io_step.
  set (t1 := event LndListPeers _ :: t).
  destruct (reply t LndListPeers) as [ids|e] eqn:Eids; [|io_step; cbn [negb]; apply wp_ret; left; by eauto].
  io_step. case_bool_decide as Hin; cbn [negb]; [|apply wp_ret; left; by eauto].
  assert (passed t1 ch pk) as Hp.
  { eapply (Hpass s1); [done|done|left|done|]. by apply suffix_cons_r. }
  destruct Hs1 as (Hw & Hsv & _). apply wp_bind.
  apply wp_on_service. rewrite Hw, Hsv. unfold wp at 1.
  destruct (start ch pk (srv_world s, srv_swaps s)) as [[w sv] res|st|st] eqn:E.
  - destruct res as [sm|e].
    + apply await_opening_spec. intros r t' Ht' Hr. right. exists t1, ch, pk. split; [done|]. split; [done|].
      exists w, sv, (Ok sm). by split_and!.
    + apply wp_ret. right. exists t1, ch, pk. split; [done|]. split; [done|]. exists w, sv, (Err e). by split_and!.
  - right. exists t1, ch, pk. split; [done|]. unfold stops. by rewrite E.
  - right. exists t1, ch, pk. split; [done|]. unfold stops. by rewrite E.
Qed.

(** ** The two handlers *)
Definition passed_out (request : SwapRequest) s t (ch : Channel) (pk : string) : Prop :=
  checked request s t ch pk ∧ 0 < SwapAmount request ∧ req_ChannelId request ≠ 0 ∧
  u64 (SwapAmount request + 5000) ≤ u64 (LocalBalance ch) ∧
  (req_Asset request = "lbtc" → event Ping (true, None) ∈ t).
Definition passed_in (request : SwapRequest) s t (ch : Channel) (pk : string) : Prop :=
  checked request s t ch pk ∧ SwapAmount request ≤ u64 (RemoteBalance ch).

Definition out_start (request : SwapRequest) (ch : Channel) (pk : string)
    : Svc SwapService (result SwapStateMachine) :=
  SwapOut_start (RemotePubkey ch) (req_Asset request) (Scid_String (NewShortChanIDFromInt (ChanId ch))) pk
    (SwapAmount request) (PremiumLimitRatePpm request).
Definition in_start (request : SwapRequest) (ch : Channel) (pk : string)
    : Svc SwapService (result SwapStateMachine) :=
  SwapIn_start (RemotePubkey ch) (req_Asset request) (Scid_String (NewShortChanIDFromInt (ChanId ch))) pk
    (SwapAmount request) (PremiumLimitRatePpm request).

Lemma refused passed start opened s t e :
  answered passed start opened s (Err e) (t, s).
Proof. left. split; [done|]. by exists e. Qed.

(** After the checks of channel and asset. *)
Lemma checked_tail request chans ch start opened t s passed :
  event (ListChannels true) (Ok chans) ∈ t → ch ∈ chans → ChanId ch = req_ChannelId request →
  Active ch = true →
  (req_Asset request = "lbtc" ∧ liquidEnabled = true) ∨ (req_Asset request = "btc" ∧ bitcoinEnabled = true) →
  (∀ t' pk, suffix t t' → checked request s t' ch pk → passed t' ch pk) →
  wp (let? pk := query GetInfo else e => mret (Err e) in start_checked request ch pk (start ch) opened)
    (answered passed start opened s) (stopped passed start s) (t, s).
Proof.
  intros Hch Hin Hid Hact Hasset Hpass. do 2 io_step.
  destruct (reply t GetInfo) as [pk|e]; [|by apply wp_ret, refused].
  apply start_checked_spec. intros s' t' ids Hs' Hc Hids Hpeer Ht'.
  assert (suffix t t') as Ht by (etransitivity; [|exact Ht']; by apply suffix_cons_r).
  apply Hpass; [done|]. split; try done.
  - exists chans. split; [by eapply elem_of_suffix|done].
  - eapply elem_of_suffix; [|exact Ht']. left.
  - by exists ids.
Qed.

Lemma SwapOut_answered request t s :
  wp (PeerswapServer.SwapOut request)
    (answered (passed_out request s) (out_start request) State_SwapOutSender_AwaitTxConfirmation s)
    (stopped (passed_out request s) (out_start request) s) (t, s).
Proof.
  unfold PeerswapServer.SwapOut.
  destruct (Z.leb_spec (SwapAmount request) 0); [by apply wp_ret, refused|].
  destruct (Z.eqb_spec (req_ChannelId request) 0); [by apply wp_ret, refused|].
  do 2 io_step. set (t1 := event (ListChannels true) _ :: t).
  destruct (reply t (ListChannels true)) as [chans|e] eqn:Ech; [|by apply wp_ret, refused].
  destruct (PeerswapServer.find_channel _ chans None) as [ch|] eqn:Efind; [|by apply wp_ret, refused].
  apply find_channel_spec in Efind as [?|[Hin Hid]]; [done|].
  destruct (Z.ltb_spec (u64 (LocalBalance ch)) (u64 (SwapAmount request + 5000))); [by apply wp_ret, refused|].
  destruct (Active ch) eqn:Eact; cbn [negb]; [|by apply wp_ret, refused].
  assert (event (ListChannels true) (Ok chans) ∈ t1) as Ht1 by left.
  apply wp_bind.
  case_bool_decide as Hl; [|case_bool_decide as Hb].
  - destruct liquidEnabled eqn:El; cbn [negb]; [|by apply wp_ret, wp_ret, refused].
    unfold on_wallet. do 3 io_step. destruct (srv_has_liquidWallet s) eqn:Ew; [|by left].
    do 2 io_step. destruct (reply t1 Ping) as [ok perr] eqn:Eping. cbn [fst snd].
    case_bool_decide as Hperr; [by apply wp_ret, refused|]. subst perr.
    destruct ok; [|by apply wp_ret, refused].
    apply (checked_tail request chans ch (out_start request)); [by right|done|done|done|by left|].
    intros t' pk Ht' Hc. split; [done|]. split; [lia|]. split; [done|]. split; [done|].
    intros _. eapply elem_of_suffix; [|exact Ht']. left.
  - apply wp_ret. destruct bitcoinEnabled eqn:Eb; [|by apply wp_ret, refused].
    apply (checked_tail request chans ch (out_start request)); [done|done|done|done|by right|].
    intros t' pk Ht' Hc. split; [done|]. split; [lia|]. split; [done|]. by split.
  - apply wp_ret. by apply wp_ret, refused.
Qed.

Lemma SwapIn_answered request t s :
  wp (PeerswapServer.SwapIn request)
    (answered (passed_in request s) (in_start request) State_SwapInSender_SendTxBroadcastedMessage s)
    (stopped (passed_in request s) (in_start request) s) (t, s).
Proof.
  unfold PeerswapServer.SwapIn. do 2 io_step. set (t1 := event (ListChannels true) _ :: t).
  destruct (reply t (ListChannels true)) as [chans|e] eqn:Ech; [|by apply wp_ret, refused].
  destruct (PeerswapServer.find_channel _ chans None) as [ch|] eqn:Efind; [|by apply wp_ret, refused].
  apply find_channel_spec in Efind as [?|[Hin Hid]]; [done|].
  destruct (Z.ltb_spec (u64 (RemoteBalance ch)) (SwapAmount request)); [by apply wp_ret, refused|].
  destruct (Active ch) eqn:Eact; cbn [negb]; [|by apply wp_ret, refused].
  assert (event (ListChannels true) (Ok chans) ∈ t1) as Ht1 by left.
  apply wp_bind. case_bool_decide as Hl; [|case_bool_decide as Hb].
  - apply wp_ret. destruct liquidEnabled eqn:El; [|by apply wp_ret, refused].
    apply (checked_tail request chans ch (in_start request)); [done|done|done|done|by left|]. by split.
  - apply wp_ret. destruct bitcoinEnabled eqn:Eb; [|by apply wp_ret, refused].
    apply (checked_tail request chans ch (in_start request)); [done|done|done|done|by right|]. by split.
  - apply wp_ret. by apply wp_ret, refused.
Qed.
End guards.

(** C15. A swap requested over the RPC interface is handed to the swap service only
    after every check: a request is answered with an error and leaves service and
    database untouched, or the channel with the requested id is an active one of lnd,
    its balance covers the amount (and 5000 sat more for a swap-out, in uint64), the
    asset is enabled, and for a liquid swap-out the wallet answered the ping, the peer
    is connected and, unless the request is forced, has a compatible record; then the
    service starts exactly the swap of the request with the peer of that channel, and
    an answer shows this swap in the state with its opening transaction. *)
Theorem rpc_swaps_guarded {LL : LndLib} {RL : RpcLib} {EV : Env}
    {OS : Oracle SyncRpc.answer} {OR : Oracle answer} (request : SwapRequest) t s :
  (match PeerswapServer.SwapOut request (t, s) with
   | Ret st r => answered (passed_out request s) (out_start request)
                   State_SwapOutSender_AwaitTxConfirmation s r st
   | Panic _ | NoFuel _ => srv_has_liquidWallet s = false ∨
       ∃ t ch pk, passed_out request s t ch pk ∧ stops (out_start request ch pk) s
   end) ∧
  (match PeerswapServer.SwapIn request (t, s) with
   | Ret st r => answered (passed_in request s) (in_start request)
                   State_SwapInSender_SendTxBroadcastedMessage s r st
   | Panic _ | NoFuel _ => srv_has_liquidWallet s = false ∨
       ∃ t ch pk, passed_in request s t ch pk ∧ stops (in_start request ch pk) s
   end).
Proof.
  split.
  - pose proof (SwapOut_answered request t s) as H. unfold wp in H.
    by destruct (PeerswapServer.SwapOut request (t, s)).
  - pose proof (SwapIn_answered request t s) as H. unfold wp in H.
    by destruct (PeerswapServer.SwapIn request (t, s)).
Qed.

(** ** Premium rates *)

(** The rate for an asset and an operation in a capability on the wire. *)
Definition announced_rate (asset : rpc.AssetType) (operation : rpc.OperationType)
    (c : PeerCapabilitySnapshot) : Z :=
  match asset, operation with
  | rpc.AssetType_BTC, rpc.OperationType_SWAP_IN => snap_BTCSwapIn c
  | rpc.AssetType_BTC, _ => snap_BTCSwapOut c
  | _, rpc.OperationType_SWAP_IN => snap_LBTCSwapIn c
  | _, _ => snap_LBTCSwapOut c
  end.
Definition rate_request (asset : rpc.AssetType) (operation : rpc.OperationType) : Prop :=
  PeerswapServer.check_rate_request asset operation = None.

Lemma rate_request_cases asset operation :
  rate_request asset operation →
  (asset = rpc.AssetType_BTC ∨ asset = rpc.AssetType_LBTC) ∧
  (operation = rpc.OperationType_SWAP_IN ∨ operation = rpc.OperationType_SWAP_OUT).
Proof. unfold rate_request. destruct asset, operation; cbn; intuition discriminate. Qed.

Lemma Setting_Get_Set peer r m :
  specified (pr_asset r) (pr_operation r) → is_i64 (ppmValue (pr_premiumRate r)) →
  Setting_GetRate None None peer (pr_asset r) (pr_operation r)
    (Some (<[rate_key peer (pr_asset r) (pr_operation r) := strconv.Itoa (ppmValue (pr_premiumRate r))]> m)) =
  Ok r.
Proof.
  intros Hs Hi. unfold Setting_GetRate, Store_GetRate. rewrite lookup_insert_eq, strconv.Atoi_Itoa by done.
  rewrite NewPremiumRate_specified by done. by destruct r as [a o [v]].
Qed.

Lemma announced_guard ps id asset operation :
  rate_request asset operation →
  announced_rate asset operation (advertised ps id) =
  ppmValue (guard_rate ps id (toPremiumAssetType asset) (toPremiumOperationType operation)).
Proof. by intros [[-> | ->] [-> | ->]]%rate_request_cases. Qed.

Section rates.
Context {LL : LndLib} {RL : RpcLib} {EV : Env}.
Context {OS : Oracle SyncRpc.answer} {OR : Oracle answer}.
Implicit Types (t : Trace answer) (s : PeerswapServer).

Lemma wp_on_rates_insert f k v m t s (P : option error → Trace answer * PeerswapServer → Prop) R :
  (∀ h, ask h DbPremium = (None, None)) → rates (srv_world s) = Some m →
  f None (Some m) = (Some (<[k := v]> m), None) →
  (∀ w, rates w = Some (<[k := v]> m) → policy w = policy (srv_world s) →
    P None (t, s <| srv_world := w |>)) →
  wp (on_rates f) P R (t, s).
Proof.
  intros Hdb Hm Hf HP. apply wp_on_service. do 2 svc_step. rewrite Hdb. do 2 svc_step.
  change (rates (record DbPremium (srv_world s))) with (rates (srv_world s)).
  rewrite Hm. cbn [fst]. rewrite Hf. do 3 svc_step. destruct s. by apply HP.
Qed.

(** A forced poll of the server. *)
Lemma force_poll_announces t s ts ps :
  (∀ u : Trace SyncRpc.answer, reply u SyncRpc.DbPremium = (None, None)) → (∀ u : Trace SyncRpc.answer, reply u SyncRpc.DbView = None) →
  srv_sync s = Some (ts, ps) → store_ok ps →
  wp force_poll (λ _ '(t', s'), t' = t ∧ srv_world s' = srv_world s ∧ srv_swaps s' = srv_swaps s ∧
      ∃ st, srv_sync s' = Some st ∧
        announcing (known_peer ps) ts (sync_view (srv_world s) ps) ts
          (λ id, known_peer ps id ∧ Suspicious (sync_view (srv_world s) ps) id = false) () st)
    no_stop (t, s).
Proof.
  intros Hpremium Hview Hsync Hok. unfold force_poll. do 2 io_step. rewrite Hsync.
  eapply wp_on_sync_view; [done|]. eapply wp_mono; [by apply pollPeers_announcing| |done].
  intros [] st Hst. split_and!; [done..|]. by exists st.
Qed.
(** The rate a request sets. *)
Definition requested_rate (rate : rpc.PremiumRate) : Premium.PremiumRate :=
  mkPremiumRate (toPremiumAssetType (rpc.rate_Asset rate))
    (toPremiumOperationType (rpc.rate_Operation rate)) (NewPPM (rpc.PremiumRatePpm rate)).
Definition with_rate (NodeId : string) (rate : rpc.PremiumRate) (m : gmap string string) :=
  <[rate_key NodeId (pr_asset (requested_rate rate)) (pr_operation (requested_rate rate)) :=
    strconv.Itoa (rpc.PremiumRatePpm rate)]> m.

Lemma requested_specified rate :
  rate_request (rpc.rate_Asset rate) (rpc.rate_Operation rate) →
  specified (pr_asset (requested_rate rate)) (pr_operation (requested_rate rate)).
Proof. destruct rate. cbn. by intros [[-> | ->] [-> | ->]]%rate_request_cases. Qed.

Lemma UpdatePremiumRate_spec NodeId rate t s ts ps m :
  (∀ h, ask h DbPremium = (None, None)) →
  (∀ u : Trace SyncRpc.answer, reply u SyncRpc.DbPremium = (None, None)) →
  (∀ u : Trace SyncRpc.answer, reply u SyncRpc.DbView = None) →
  rates (srv_world s) = Some m → srv_sync s = Some (ts, ps) → store_ok ps →
  rate_request (rpc.rate_Asset rate) (rpc.rate_Operation rate) →
  wp (PeerswapServer.UpdatePremiumRate NodeId rate)
    (λ res '(t', s'), res = Ok rate ∧ t' = t ∧
      rates (srv_world s') = Some (with_rate NodeId rate m) ∧
      policy (srv_world s') = policy (srv_world s) ∧
      ∃ st, srv_sync s' = Some st ∧ announcing (known_peer ps) ts (sync_view (srv_world s') ps) ts
          (λ id, known_peer ps id ∧ Suspicious (sync_view (srv_world s') ps) id = false) () st)
    no_stop (t, s).
Proof.
  intros Hask Hpremium Hview Hm Hsync Hok Hreq%requested_specified.
  unfold PeerswapServer.UpdatePremiumRate, PeerswapServer.update_rate.
  rewrite (NewPremiumRate_specified _ _ _ Hreq). fold (requested_rate rate). io_step.
  eapply wp_on_rates_insert; [done|exact Hm|reflexivity|]. intros w Hw Hpol. io_step.
  eapply wp_mono; [by apply force_poll_announces| |done].
  intros _ [t' s'] (-> & Hw' & _ & st & Hst & Hann). apply wp_ret. cbn [srv_world] in *.
  rewrite Hw'. split_and!; [done..|]. by exists st.
Qed.

Lemma GetPremiumRate_spec NodeId rate t s m :
  (∀ h, ask h DbPremium = (None, None)) → rates (srv_world s) = Some (with_rate NodeId rate m) →
  rate_request (rpc.rate_Asset rate) (rpc.rate_Operation rate) → is_i64 (rpc.PremiumRatePpm rate) →
  wp (PeerswapServer.GetPremiumRate NodeId (rpc.rate_Asset rate) (rpc.rate_Operation rate))
    (λ res _, res = Ok rate) no_stop (t, s).
Proof.
  intros Hask Hr Hreq Hppm. unfold PeerswapServer.GetPremiumRate, read_rates. rewrite Hreq. do 3 io_step.
  apply wp_on_service. do 2 svc_step. rewrite Hask. do 2 svc_step.
  change (rates (record DbPremium (srv_world s))) with (rates (srv_world s)). rewrite Hr. svc_step.
  cbn [fst snd]. pose proof (Setting_Get_Set NodeId (requested_rate rate) m) as Hget.
  assert (Setting_GetRate None None NodeId (toPremiumAssetType (rpc.rate_Asset rate))
    (toPremiumOperationType (rpc.rate_Operation rate)) (Some (with_rate NodeId rate m)) =
    Ok (requested_rate rate)) as -> by (apply Hget; [by apply requested_specified|done]).
  io_step. f_equal.
  destruct rate. cbn in *. by destruct (rate_request_cases _ _ Hreq) as [[-> | ->] [-> | ->]].
Qed.
End rates.

