(* ===== verification/Pscli.v ===== *)
(** * The command line client of peerswapd (src/cmd/peerswaplnd/pscli/main.go)

    Each command turns its flags into one request, sends it to the server and prints
    the answer.  urfave/cli, which parses the command line, is the record [Context] of
    the getters; grpc and the printing of a message are questions ([CliRpc]).  [serve]
    is what the server of peerswapd (RpcServer) does with a request, so that a command
    can be followed into the server. *)

From S2P Require Import LndClient.
From S2P Require Import Prelude GoLib Json Messages Premium Policy SwapData Timelock Env Store Oracle.
From S2P Require Import PeerCapability PeerSync PeerSyncProofs Fsm Service Rpc RpcServer RpcProofs RpcGuards.

(** The upper case of Unicode; its documentation fixes it on ASCII. *)
Definition upper_byte (c : ascii) : ascii :=
  if utf8.byte_in 97 122 c then ascii_of_nat (nat_of_ascii c - 32) else c.
Fixpoint upper_bytes (s : string) : string :=
  match s with "" => "" | String c s => String (upper_byte c) (upper_bytes s) end.
Fixpoint is_ascii (s : string) : bool :=
  match s with "" => true | String c s => utf8.ascii_byte c && is_ascii s end.
Class UpperLib := {
  ToUpper : string → string;
  ToUpper_ascii : ∀ s, is_ascii s = true → ToUpper s = upper_bytes s;
}.

(** ** Flags and commands *)
Inductive FlagKind := Uint64Flag | Int64Flag | UintFlag | StringFlag | BoolFlag | BoolTFlag.
Record Flag := mkFlag { fl_Name : string; fl_Kind : FlagKind; fl_Required : bool; fl_Usage : string }.
Definition satAmountFlag : Flag := mkFlag "sat_amt" Uint64Flag true "Amount of Sats to swap for".
Definition channelIdFlag : Flag := mkFlag "channel_id" Uint64Flag true "channel id of channel to swap over".
Definition assetFlag : Flag := mkFlag "asset" StringFlag true "asset to swap with: 'BTC' | 'LBTC'".
Definition swapIdFlag : Flag := mkFlag "id" StringFlag true "".
Definition liquidAddressFlag : Flag := mkFlag "address" StringFlag true "".
Definition allowFlag : Flag := mkFlag "allow_swaps" BoolFlag true "".
Definition pubkeyFlag : Flag := mkFlag "peer_pubkey" StringFlag true "".
Definition PremiumLimitRatePPMFlag : Flag :=
  mkFlag "premium_limit_rate_ppm" Uint64Flag false "premium limit for a swap in parts per million".
Definition operationFlag : Flag :=
  mkFlag "operation" StringFlag true "operation type: 'SWAP_IN' | 'SWAP_OUT'".
Definition rateFlag : Flag := mkFlag "rate" Int64Flag true "premium rate in ppm".
Definition nodeIdFlag : Flag := mkFlag "node_id" StringFlag true "node ID of the peer".
Definition listPageSizeFlag : Flag :=
  mkFlag "page_size" UintFlag false "max number of items to return (0 = all)".
Definition listPageTokenFlag : Flag :=
  mkFlag "page_token" StringFlag false "paging token returned by the previous response".
Definition listDescendingFlag : Flag :=
  mkFlag "descending" BoolTFlag false "order by created_at descending (newest first)".

(** [cli.Context] after the command line was parsed. *)
Record Context := mkContext {
  cli_Uint64 : string → Z;
  cli_Int64 : string → Z;
  cli_Uint : string → Z;
  cli_String : string → string;
  cli_Bool : string → bool;
  GlobalString : string → string;
}.

(** ** Requests and their answers *)
Inductive Request :=
  | ReqSwapOut (r : SwapRequest) | ReqSwapIn (r : SwapRequest) | ReqGetSwap (SwapId : string)
  | ReqListSwaps (r : ListRequest) | ReqListPeers (r : ListRequest) | ReqListRequestedSwaps
  | ReqListActiveSwaps (r : ListRequest)
  | ReqAllowSwapRequests (Allow : bool) | ReqReloadPolicyFile
  | ReqAddPeer (PeerPubkey : string) | ReqRemovePeer (PeerPubkey : string)
  | ReqAddSusPeer (PeerPubkey : string) | ReqRemoveSusPeer (PeerPubkey : string)
  | ReqLiquidGetAddress | ReqLiquidGetBalance | ReqLiquidSendToAddress (Address : string) (SatAmount : Z)
  | ReqGetGlobalPremiumRate (Asset : rpc.AssetType) (Operation : rpc.OperationType)
  | ReqUpdateGlobalPremiumRate (Rate : rpc.PremiumRate)
  | ReqGetPremiumRate (NodeId : string) (Asset : rpc.AssetType) (Operation : rpc.OperationType)
  | ReqUpdatePremiumRate (NodeId : string) (Rate : rpc.PremiumRate)
  | ReqDeletePremiumRate (NodeId : string) (Asset : rpc.AssetType) (Operation : rpc.OperationType)
  | ReqStop.
Definition response (r : Request) : Type :=
  match r with
  | ReqSwapOut _ | ReqSwapIn _ | ReqGetSwap _ => rpc.PrettyPrintSwap
  | ReqListSwaps _ | ReqListActiveSwaps _ => ListSwapsResponse
  | ReqListPeers _ => ListPeersResponse
  | ReqListRequestedSwaps => gmap string (list RequestedSwap)
  | ReqLiquidGetAddress | ReqLiquidSendToAddress _ _ => string
  | ReqLiquidGetBalance => Z
  | ReqGetGlobalPremiumRate _ _ | ReqUpdateGlobalPremiumRate _ | ReqGetPremiumRate _ _ _
  | ReqUpdatePremiumRate _ _ | ReqDeletePremiumRate _ _ _ => rpc.PremiumRate
  | ReqStop => ()
  | _ => rpc.Policy
  end.

Module CliRpc.
Inductive Call :=
  | Dial (address : string)
  | Invoke (r : Request)
  | Print (r : Request) (res : response r)
  | CloseConn.
Definition answer (c : Call) : Type :=
  match c with
  | Dial _ => option error
  | Invoke r => result (response r)
  | Print _ _ | CloseConn => ()
  end.
End CliRpc.
Import CliRpc.

Module Pscli.
Section commands.
Context {UL : UpperLib} {OR : Oracle answer}.
Abbreviation Io := (IO answer ()).

(** [getClient] and [getClientConn]. *)
Definition getClient (ctx : Context) : Io (option error) :=
  err ← query (Dial (GlobalString ctx "rpchost"));
  mret (match err with
        | None => None
        | Some e => Some (ErrText ("unable to connect to RPC server: " +:+ Error e))
        end).
(** What all actions do with their request; the connection is closed at the end. *)
Definition send (ctx : Context) (req : Request) : Io (option error) :=
  do? getClient ctx else e => mret (Some e) in
  r ← query (Invoke req);
  err ← match r with
        | Err e => mret (Some e)
        | Ok res => query (Print req res);; mret None
        end;
  query CloseConn;; mret err.

(** A lookup in the generated maps gives zero for a key that is not there. *)
Definition AssetType_value (key : string) : rpc.AssetType :=
  if bool_decide (key = "BTC") then rpc.AssetType_BTC
  else if bool_decide (key = "LBTC") then rpc.AssetType_LBTC else rpc.ASSET_UNSPECIFIED.
Definition OperationType_value (key : string) : rpc.OperationType :=
  if bool_decide (key = "SWAP_IN") then rpc.OperationType_SWAP_IN
  else if bool_decide (key = "SWAP_OUT") then rpc.OperationType_SWAP_OUT else rpc.OPERATION_UNSPECIFIED.

(** *** The requests of the commands *)
Definition swap_request (ctx : Context) : SwapRequest :=
  mkSwapRequest (cli_Uint64 ctx (fl_Name channelIdFlag)) (cli_Uint64 ctx (fl_Name satAmountFlag))
    (cli_String ctx (fl_Name assetFlag)) false (cli_Int64 ctx (fl_Name PremiumLimitRatePPMFlag)).
Definition swapIn (ctx : Context) : Request := ReqSwapIn (swap_request ctx).
Definition swapOut (ctx : Context) : Request := ReqSwapOut (swap_request ctx).
Definition getSwap (ctx : Context) : Request := ReqGetSwap (cli_String ctx (fl_Name swapIdFlag)).
Definition list_request (ctx : Context) (descending : bool) : ListRequest :=
  mkListRequest (u32 (cli_Uint ctx (fl_Name listPageSizeFlag))) (cli_String ctx (fl_Name listPageTokenFlag))
    descending.
Definition listSwaps (ctx : Context) : Request :=
  ReqListSwaps (list_request ctx (cli_Bool ctx (fl_Name listDescendingFlag))).
Definition listPeers (ctx : Context) : Request := ReqListPeers (list_request ctx false).
Definition reloadPolicyFile (ctx : Context) : Request := ReqReloadPolicyFile.
Definition listRequestedSwaps (ctx : Context) : Request := ReqListRequestedSwaps.
Definition liquidGetAddress (ctx : Context) : Request := ReqLiquidGetAddress.
Definition liquidGetBalance (ctx : Context) : Request := ReqLiquidGetBalance.
Definition liquidSendToAddress (ctx : Context) : Request :=
  ReqLiquidSendToAddress (cli_String ctx (fl_Name liquidAddressFlag)) (cli_Uint64 ctx (fl_Name satAmountFlag)).
Definition listActiveSwaps (ctx : Context) : Request :=
  ReqListActiveSwaps (list_request ctx (cli_Bool ctx (fl_Name listDescendingFlag))).
Definition allowSwaps (ctx : Context) : Request := ReqAllowSwapRequests (cli_Bool ctx (fl_Name allowFlag)).
Definition addPeer (ctx : Context) : Request := ReqAddPeer (cli_String ctx (fl_Name pubkeyFlag)).
Definition removePeer (ctx : Context) : Request := ReqRemovePeer (cli_String ctx (fl_Name pubkeyFlag)).
Definition addSusPeer (ctx : Context) : Request := ReqAddSusPeer (cli_String ctx (fl_Name pubkeyFlag)).
Definition removeSusPeer (ctx : Context) : Request := ReqRemoveSusPeer (cli_String ctx (fl_Name pubkeyFlag)).
Definition stopPeerswap (ctx : Context) : Request := ReqStop.
Definition asset_of (ctx : Context) : rpc.AssetType :=
  AssetType_value (ToUpper (cli_String ctx (fl_Name assetFlag))).
Definition operation_of (ctx : Context) : rpc.OperationType :=
  OperationType_value (ToUpper (cli_String ctx (fl_Name operationFlag))).
Definition rate_of (ctx : Context) : rpc.PremiumRate :=
  rpc.mkPremiumRate (asset_of ctx) (operation_of ctx) (cli_Int64 ctx (fl_Name rateFlag)).
Definition getGlobalPremiumRate (ctx : Context) : Request :=
  ReqGetGlobalPremiumRate (asset_of ctx) (operation_of ctx).
Definition updateGlobalPremiumRate (ctx : Context) : Request := ReqUpdateGlobalPremiumRate (rate_of ctx).
Definition getPeerPremiumRate (ctx : Context) : Request :=
  ReqGetPremiumRate (cli_String ctx (fl_Name nodeIdFlag)) (asset_of ctx) (operation_of ctx).
Definition updatePremiumRate (ctx : Context) : Request :=
  ReqUpdatePremiumRate (cli_String ctx (fl_Name nodeIdFlag)) (rate_of ctx).
Definition deletePeerPremiumRate (ctx : Context) : Request :=
  ReqDeletePremiumRate (cli_String ctx (fl_Name nodeIdFlag)) (asset_of ctx) (operation_of ctx).

(** *** The commands: name, flags, action *)
Record Command := mkCommand { cmd_Name : string; cmd_Flags : list Flag; cmd_Action : Context → Request }.
Definition swapOutCommand : Command :=
  mkCommand "swapout" [satAmountFlag; channelIdFlag; assetFlag; PremiumLimitRatePPMFlag] swapOut.
Definition swapInCommand : Command :=
  mkCommand "swapin" [satAmountFlag; channelIdFlag; assetFlag; PremiumLimitRatePPMFlag] swapIn.
Definition getSwapCommand : Command := mkCommand "getswap" [swapIdFlag] getSwap.
Definition listSwapsCommand : Command :=
  mkCommand "listswaps" [listPageSizeFlag; listPageTokenFlag; listDescendingFlag] listSwaps.
Definition listPeersCommand : Command :=
  mkCommand "listpeers" [listPageSizeFlag; listPageTokenFlag] listPeers.
Definition reloadPolicyFileCommand : Command := mkCommand "reloadpolicy" [] reloadPolicyFile.
Definition listRequestedSwapsCommand : Command := mkCommand "listswaprequests" [] listRequestedSwaps.
Definition liquidGetAddressCommand : Command := mkCommand "lbtc-getaddress" [] liquidGetAddress.
Definition liquidGetBalanceCommand : Command := mkCommand "lbtc-getbalance" [] liquidGetBalance.
Definition liquidSendToAddressCommand : Command :=
  mkCommand "lbtc-sendtoaddress" [satAmountFlag; liquidAddressFlag] liquidSendToAddress.
Definition listActiveSwapsCommand : Command :=
  mkCommand "listactiveswaps" [listPageSizeFlag; listPageTokenFlag; listDescendingFlag] listActiveSwaps.
Definition allowSwapRequestsCommand : Command := mkCommand "allowswaprequests" [allowFlag] allowSwaps.
Definition addPeerCommand : Command := mkCommand "addpeer" [pubkeyFlag] addPeer.
Definition removePeerCommand : Command := mkCommand "removepeer" [pubkeyFlag] removePeer.
Definition addSusPeerCommand : Command := mkCommand "addsuspeer" [pubkeyFlag] addSusPeer.
Definition removeSusPeerCommand : Command := mkCommand "removesuspeer" [pubkeyFlag] removeSusPeer.
Definition stopCommand : Command := mkCommand "stop" [] stopPeerswap.
Definition getGlobalPremiumRateCommand : Command :=
  mkCommand "getglobalpremiumrate" [assetFlag; operationFlag] getGlobalPremiumRate.
Definition updateGlobalPremiumRateCommand : Command :=
  mkCommand "updateglobalpremiumrate" [assetFlag; operationFlag; rateFlag] updateGlobalPremiumRate.
Definition deletePeerPremiumRateCommand : Command :=
  mkCommand "deletepeerpremiumrate" [nodeIdFlag; assetFlag; operationFlag] deletePeerPremiumRate.
Definition getPeerPremiumRateCommand : Command :=
  mkCommand "getpeerpremiumrate" [nodeIdFlag; assetFlag; operationFlag] getPeerPremiumRate.
Definition updatePremiumRateCommand : Command :=
  mkCommand "updatepremiumrate" [nodeIdFlag; assetFlag; operationFlag; rateFlag] updatePremiumRate.
Definition commands : list Command :=
  [swapOutCommand; swapInCommand; getSwapCommand; listSwapsCommand;
   listPeersCommand; reloadPolicyFileCommand; listRequestedSwapsCommand;
   liquidGetBalanceCommand; liquidGetAddressCommand; liquidSendToAddressCommand;
   stopCommand; listActiveSwapsCommand; allowSwapRequestsCommand; addPeerCommand; removePeerCommand;
   addSusPeerCommand; removeSusPeerCommand; getGlobalPremiumRateCommand; updateGlobalPremiumRateCommand;
   getPeerPremiumRateCommand; updatePremiumRateCommand; deletePeerPremiumRateCommand].
Definition run (c : Command) (ctx : Context) : Io (option error) := send ctx (cmd_Action c ctx).
End commands.
End Pscli.

(** The service that the server registers. *)
Section serve.
Context {LL : LndLib} {RL : RpcLib} {EV : Env}.
Context {OS : Oracle SyncRpc.answer} {OR : Oracle ServerRpc.answer}.
Definition serve (r : Request) : IO ServerRpc.answer PeerswapServer (result (response r)) :=
  match r return IO ServerRpc.answer PeerswapServer (result (response r)) with
  | ReqSwapOut r => PeerswapServer.SwapOut r
  | ReqSwapIn r => PeerswapServer.SwapIn r
  | ReqGetSwap id => PeerswapServer.GetSwap id
  | ReqListSwaps r => PeerswapServer.ListSwaps r
  | ReqListPeers r => PeerswapServer.ListPeers r
  | ReqListRequestedSwaps => PeerswapServer.ListRequestedSwaps
  | ReqListActiveSwaps r => PeerswapServer.ListActiveSwaps r
  | ReqAllowSwapRequests allow => PeerswapServer.AllowSwapRequests allow
  | ReqReloadPolicyFile => PeerswapServer.ReloadPolicyFile
  | ReqAddPeer p => PeerswapServer.AddPeer p
  | ReqRemovePeer p => PeerswapServer.RemovePeer p
  | ReqAddSusPeer p => PeerswapServer.AddSusPeer p
  | ReqRemoveSusPeer p => PeerswapServer.RemoveSusPeer p
  | ReqLiquidGetAddress => PeerswapServer.LiquidGetAddress
  | ReqLiquidGetBalance => PeerswapServer.LiquidGetBalance
  | ReqLiquidSendToAddress a n => PeerswapServer.LiquidSendToAddress a n
  | ReqGetGlobalPremiumRate a o => PeerswapServer.GetGlobalPremiumRate a o
  | ReqUpdateGlobalPremiumRate r => PeerswapServer.UpdateGlobalPremiumRate r
  | ReqGetPremiumRate n a o => PeerswapServer.GetPremiumRate n a o
  | ReqUpdatePremiumRate n r => PeerswapServer.UpdatePremiumRate n r
  | ReqDeletePremiumRate n a o => PeerswapServer.DeletePremiumRate n a o
  | ReqStop => PeerswapServer.Stop;; mret (Ok ())
  end.
End serve.

(** ** What the commands do *)
(** Two command lines that give a flag the same value, whatever type it is read with. *)
Definition same_flag (ctx ctx' : Context) (f : Flag) : Prop :=
  cli_Uint64 ctx (fl_Name f) = cli_Uint64 ctx' (fl_Name f) ∧
  cli_Int64 ctx (fl_Name f) = cli_Int64 ctx' (fl_Name f) ∧
  cli_Uint ctx (fl_Name f) = cli_Uint ctx' (fl_Name f) ∧
  cli_String ctx (fl_Name f) = cli_String ctx' (fl_Name f) ∧
  cli_Bool ctx (fl_Name f) = cli_Bool ctx' (fl_Name f).

(** What a run leaves on record, newest first: it connects; if it can, it sends the
    request, prints the answer if there is one, and closes the connection. *)
Definition ran (address : string) (req : Request) (err : option error) (new : list (Event answer)) : Prop :=
  (∃ e, new = [event (Dial address) (Some e)] ∧ err ≠ None) ∨
  (∃ e, new = [event CloseConn (); event (Invoke req) (Err e); event (Dial address) None] ∧ err = Some e) ∨
  (∃ res, new = [event CloseConn (); event (Print req res) (); event (Invoke req) (Ok res);
                 event (Dial address) None] ∧ err = None).

Ltac units :=
  repeat match goal with
  | |- context [event CloseConn ?u] => lazymatch u with tt => fail | _ => destruct u end
  | |- context [event (Print _ _) ?u] => lazymatch u with tt => fail | _ => destruct u end
  end.
Lemma send_ran {OR : Oracle answer} ctx req t :
  wp (Pscli.send ctx req)
    (λ err '(t', _), ∃ new, t' = new ++ t ∧ ran (GlobalString ctx "rpchost") req err new) no_stop (t, ()).
Proof.
  unfold Pscli.send, Pscli.getClient. apply wp_bind. do 2 io_step. apply wp_ret.
  destruct (reply t (Dial _)) as [e|] eqn:Ed.
  { apply wp_ret. eexists [_]. split; [done|]. left. by eexists. }
  do 2 io_step. apply wp_bind. set (t1 := event (Dial _) _ :: t).
  destruct (reply t1 (Invoke req)) as [res|e] eqn:Er.
  - do 2 io_step. apply wp_ret. do 2 io_step. apply wp_ret. unfold t1.
    eexists [_; _; _; _]. split; [reflexivity|]. right; right. exists res. by units.
  - apply wp_ret. do 2 io_step. apply wp_ret. unfold t1.
    eexists [_; _; _]. split; [reflexivity|]. right; left. exists e. by units.
Qed.

(** The commands of pscli.  No two have a name in common.  What a command sends is
    determined by the flags it declares; a run sends this one request, over a connection
    to the address of the command line, prints the answer of the server and nothing else,
    fails exactly if the connection or the call failed, and closes the connection. *)
Theorem pscli_runs {UL : UpperLib} {OR : Oracle answer} :
  NoDup (Pscli.cmd_Name <$> Pscli.commands) ∧
  ∀ c, c ∈ Pscli.commands →
    (∀ ctx ctx', Forall (same_flag ctx ctx') (Pscli.cmd_Flags c) →
       Pscli.cmd_Action c ctx = Pscli.cmd_Action c ctx') ∧
    (∀ ctx t, wp (Pscli.run c ctx)
       (λ err '(t', _), ∃ new, t' = new ++ t ∧
          ran (GlobalString ctx "rpchost") (Pscli.cmd_Action c ctx) err new) no_stop (t, ())).
Proof.
  split; [by_eval|]. intros c Hc. split; [|intros; apply send_ran].
  intros ctx ctx'. unfold Pscli.commands in Hc. rewrite !elem_of_cons, elem_of_nil in Hc.
  destruct_or! Hc; subst c; try done.
  all: match goal with |- Forall _ (Pscli.cmd_Flags ?c) → _ => let c' := eval red in c in change c with c' end.
  all: cbv [same_flag]; cbn [Pscli.cmd_Flags Pscli.cmd_Action]; rewrite ?Forall_cons; intros; destruct_and?.
  all: cbv [Pscli.swapOut Pscli.swapIn Pscli.getSwap Pscli.listSwaps Pscli.listPeers Pscli.liquidSendToAddress
    Pscli.listActiveSwaps Pscli.allowSwaps Pscli.addPeer Pscli.removePeer Pscli.addSusPeer Pscli.removeSusPeer
    Pscli.getGlobalPremiumRate Pscli.updateGlobalPremiumRate Pscli.getPeerPremiumRate Pscli.updatePremiumRate
    Pscli.deletePeerPremiumRate Pscli.swap_request Pscli.list_request Pscli.rate_of Pscli.asset_of
    Pscli.operation_of]; congruence.
Qed.

Section followed.
Context {UL : UpperLib} {LL : LndLib} {RL : RpcLib} {EV : Env}.
Context {OS : Oracle SyncRpc.answer} {OR : Oracle ServerRpc.answer}.
Implicit Types (t : Trace ServerRpc.answer) (s : PeerswapServer).

(** *** Names of assets and operations *)
Lemma typed_asset ctx name : is_ascii (cli_String ctx "asset") = true →
  upper_bytes (cli_String ctx "asset") = name → Pscli.asset_of ctx = Pscli.AssetType_value name.
Proof. intros Ha <-. unfold Pscli.asset_of. cbn [fl_Name assetFlag]. by rewrite ToUpper_ascii. Qed.
Lemma typed_operation ctx name : is_ascii (cli_String ctx "operation") = true →
  upper_bytes (cli_String ctx "operation") = name → Pscli.operation_of ctx = Pscli.OperationType_value name.
Proof. intros Ha <-. unfold Pscli.operation_of. cbn [fl_Name operationFlag]. by rewrite ToUpper_ascii. Qed.

(** The server takes a swap request for a chain by its lower case name only. *)
Lemma other_asset_refused start request t s :
  req_Asset request ∉ ["btc"; "lbtc"] → start ∈ [PeerswapServer.SwapOut; PeerswapServer.SwapIn] →
  wp (start request) (λ r '(t', s'), (∃ e, r = Err e) ∧ s' = s ∧
      asked_when (λ e _, question e = ServerRpc.ListChannels true) t t') no_stop (t, s).
Proof.
  intros Ha Hs. apply not_elem_of_cons in Ha as [Hbtc Ha]. apply not_elem_of_cons in Ha as [Hlbtc _].
  assert (∀ e t', asked_when (λ e _, question e = ServerRpc.ListChannels true) t t' →
    wp (mret (Err e) : IO ServerRpc.answer PeerswapServer (result rpc.PrettyPrintSwap))
    (λ r '(t', s'), (∃ e, r = Err e) ∧ s' = s ∧
      asked_when (λ e _, question e = ServerRpc.ListChannels true) t t') no_stop (t', s)) as Hend.
  { intros e t' Ht. apply wp_ret. split; [by eexists|done]. }
  rewrite !elem_of_cons, elem_of_nil in Hs. destruct_or! Hs; try done; subst start.
  - unfold PeerswapServer.SwapOut.
    destruct (_ <=? 0); [apply Hend; constructor|]. destruct (_ =? 0); [apply Hend; constructor|].
    do 2 io_step. destruct (reply t _) as [chans|e]; [|apply Hend; by repeat constructor].
    destruct (PeerswapServer.find_channel _ _ _) as [ch|]; [|apply Hend; by repeat constructor].
    destruct (_ <? _); [apply Hend; by repeat constructor|].
    destruct (negb _); [apply Hend; by repeat constructor|].
    rewrite !bool_decide_false by done. do 2 io_step. apply Hend. by repeat constructor.
  - unfold PeerswapServer.SwapIn.
    do 2 io_step. destruct (reply t _) as [chans|e]; [|apply Hend; by repeat constructor].
    destruct (PeerswapServer.find_channel _ _ _) as [ch|]; [|apply Hend; by repeat constructor].
    destruct (_ <? _); [apply Hend; by repeat constructor|].
    destruct (negb _); [apply Hend; by repeat constructor|].
    rewrite !bool_decide_false by done. do 2 io_step. apply Hend. by repeat constructor.
Qed.

Lemma force_poll_ends t s :
  (∀ u : Trace SyncRpc.answer, reply u SyncRpc.DbPremium = (None, None)) →
  (∀ u : Trace SyncRpc.answer, reply u SyncRpc.DbView = None) →
  (∀ ts ps, srv_sync s = Some (ts, ps) → store_ok ps) →
  wp force_poll (λ _ '(_, s'), srv_world s' = srv_world s) no_stop (t, s).
Proof.
  intros Hp Hv Hok. destruct (srv_sync s) as [[ts ps]|] eqn:E.
  - eapply wp_mono; [eapply force_poll_announces; eauto| |done]. by intros _ [t' s'] (_ & H & _).
  - unfold force_poll. do 2 io_step. rewrite E. by apply wp_ret.
Qed.
End followed.

(** The asset as the help text spells it ("asset to swap with: 'BTC' | 'LBTC'") starts
    no swap: followed into the server, swapout and swapin with either name end with an
    error for every server, node and state, after at most a look at the channels, and
    leave the server as it was.  The commands for premium rates take the same names in
    any case.  They do not tell a name they do not know from none, and for
    deletepeerpremiumrate the server does not look either: with a working database it
    answers with success, and every rate is as before. *)
Theorem help_asset_refused {UL : UpperLib} {LL : LndLib} {RL : RpcLib} {EV : Env}
    {OS : Oracle SyncRpc.answer} {OR : Oracle ServerRpc.answer} ctx (t : Trace ServerRpc.answer) s :
  (cli_String ctx "asset" ∈ ["BTC"; "LBTC"] →
   ∀ c, c ∈ [Pscli.swapOutCommand; Pscli.swapInCommand] →
   wp (serve (Pscli.cmd_Action c ctx)) (λ r '(t', s'), is_ok r = false ∧ s' = s ∧
     asked_when (λ e _, question e = ServerRpc.ListChannels true) t t') no_stop (t, s)) ∧
  (∀ name, is_ascii (cli_String ctx "asset") = true → upper_bytes (cli_String ctx "asset") = name →
   Pscli.asset_of ctx = if bool_decide (name = "BTC") then rpc.AssetType_BTC
                        else if bool_decide (name = "LBTC") then rpc.AssetType_LBTC
                        else rpc.ASSET_UNSPECIFIED) ∧
  (∀ m, Pscli.asset_of ctx = rpc.ASSET_UNSPECIFIED ∨ Pscli.operation_of ctx = rpc.OPERATION_UNSPECIFIED →
   rates (srv_world s) = Some m → (∀ h, ask h DbPremium = (None, None)) →
   (∀ u : Trace SyncRpc.answer, reply u SyncRpc.DbPremium = (None, None)) →
   (∀ u : Trace SyncRpc.answer, reply u SyncRpc.DbView = None) →
   (∀ ts ps, srv_sync s = Some (ts, ps) → store_ok ps) →
   wp (serve (Pscli.cmd_Action Pscli.deletePeerPremiumRateCommand ctx)) (λ r '(_, s'),
     is_ok r = true ∧ ∃ m', rates (srv_world s') = Some m' ∧
       ∀ p a o, specified a o → m' !! rate_key p a o = m !! rate_key p a o) no_stop (t, s)).
Proof.
  split; [|split].
  - intros Ha c Hc. rewrite !elem_of_cons, elem_of_nil in Hc. destruct_or! Hc; try done; subst c.
    all: cbn [Pscli.cmd_Action Pscli.swapOutCommand Pscli.swapInCommand].
    all: unfold Pscli.swapOut, Pscli.swapIn; cbn [serve].
    all: match goal with |- wp (?f _) _ _ _ => eapply wp_mono; [apply (other_asset_refused f)| |done] end.
    all: try (by repeat constructor).
    all: try (intros r [t' s'] ([e ->] & -> & H); by split_and!).
    all: cbn [req_Asset Pscli.swap_request fl_Name assetFlag].
    all: rewrite !elem_of_cons, elem_of_nil in Ha; destruct_or! Ha; try done; rewrite Ha; by_eval.
  - intros name Hn Hu. by apply typed_asset.
  - intros m Hno Hm Hask Hp Hv Hok. cbn [Pscli.cmd_Action Pscli.deletePeerPremiumRateCommand].
    unfold Pscli.deletePeerPremiumRate. cbn [serve]. unfold PeerswapServer.DeletePremiumRate. io_step.
    unfold on_rates. apply wp_on_service. do 2 svc_step. rewrite Hask. do 2 svc_step.
    change (rates (record DbPremium (srv_world s))) with (rates (srv_world s)). rewrite Hm.
    unfold Setting_DeleteRate, Store_DeleteRate. cbn [fst]. cbv beta iota. do 3 svc_step. cbv beta iota. io_step.
    eapply wp_mono; [apply force_poll_ends; [done..|]| |done].
    + intros ts ps. destruct s. cbn. by apply Hok.
    + intros _ [t' s'] Hw. apply wp_ret. split; [done|]. rewrite Hw. eexists. split; [reflexivity|].
      intros p a o [Hsa Hso]. rewrite lookup_delete_ne; [done|]. intros (_ & Ea & Eo)%rate_key_inj.
      destruct Hno as [H|H]; rewrite H in *; by subst.
Qed.
