(* ===== verification/ClnCommands.v ===== *)
(** * The commands of the plugin (src/clightning/clightning_commands.go)

    The [Call] methods, over the same components as the RPC server.  The names,
    descriptions and constructors of the commands are in PluginMethods; the nil checks of
    [swap.Data] are left out; amounts of core lightning are uint64. *)

From S2P Require Import LndClient ElementsWallet LwkConfig ClnConfig.
From S2P Require Import Prelude GoLib Messages Premium Policy SwapData Timelock Env Store Oracle.
From S2P Require Import PeerCapability PeerSync Fsm Service Rpc RpcServer.
Import ServerRpc.

(** ** Configuration to show (options.go, [SetPeerswapConfig]) *)
Record PeerswapClightningConfig := mkShown {
  shown_Bitcoin : Btc.Conf;
  shown_Liquid : Liq.Conf;
  shown_LiquidSwaps : bool;
  shown_PeerswapDir : string;
  shown_LWK : option lwk.Conf;
}.
(** [None]: the switch of liquid is nil, which panics. *)
Definition SetPeerswapConfig (config : Config) : option PeerswapClightningConfig :=
  (λ swaps, mkShown (ClnConfig.Bitcoin config) (ClnConfig.Liquid config) swaps (PeerswapDir config) (LWK config)) <$>
    Liq.Swaps (ClnConfig.Liquid config).

(** ** The client *)
Record Plugin := mkPluginState {
  pl_server : PeerswapServer;
  isReady : bool;
  nodeId : string;
  peerswapConfig : PeerswapClightningConfig;
}.
#[export] Instance eta_pluginstate : Eta Plugin := λ p,
  mkPluginState (pl_server p) (isReady p) (nodeId p) (peerswapConfig p).

Definition ErrWaitingForReady : error := ErrText "peerswap is still in the process of starting up".
Definition SwapCanceledError (reason : string) : error :=
  ErrTyped "clightning.SwapCanceledError" ("swap canceled, reason: " +:+ reason).
Definition featureBit : Z := 69.

(** [big.Int.SetBytes]: the first byte is the most significant. *)
Definition SetBytes (bytes : list Z) : Z := foldl (λ n b, n * 256 + b) 0 bytes.
Definition checkFeatures (features : list Z) (featureBit : Z) : bool :=
  let bitInt := 2 ^ featureBit in Z.land (SetBytes features) bitInt =? bitInt.

Definition runs_peerswap (own : string) (node : Node) : bool :=
  match Features node with
  | Some raw => checkFeatures raw featureBit && bool_decide (node_Id node ≠ own)
  | None => false
  end.

Definition channelActive (state : string) : bool := bool_decide (state = "CHANNELD_NORMAL").

Definition toPremiumAsset (asset : string) : AssetType :=
  let asset := unicode.ToUpper asset in
  if bool_decide (asset = "BTC") then BTC else if bool_decide (asset = "LBTC") then LBTC
  else AsserUnspecified.
Definition toPremiumOperation (operation : string) : OperationType :=
  let operation := unicode.ToUpper operation in
  if bool_decide (operation = "SWAP_IN") then SwapIn
  else if bool_decide (operation = "SWAP_OUT") then SwapOut else OperationUnspecified.

(** The fields of the commands [SwapOut] and [SwapIn]. *)
Record SwapCommand := mkSwapCommand {
  cmd_ShortChannelId : string; SatAmt : Z; cmd_Asset : string; PremiumLimitRatePPM : Z;
  cmd_Force : bool }.
(** The answer of [ListSwaps], and of [GetSwap] (serializing.go). *)
Inductive ListedSwaps := Pretty (l : list rpc.PrettyPrintSwap) | Detailed (l : list SwapStateMachine).
Record SerializedSwapStateMachine := mkSerialized {
  ser_machine : SwapStateMachine; ser_Type : string; ser_Role : string }.
Definition MSerializedSwapStateMachine (sm : SwapStateMachine) : SerializedSwapStateMachine :=
  mkSerialized sm (SwapType_String (sm_Type sm)) (SwapRole_String (sm_Role sm)).

Module ClnCommands.
Section commands.
Context {RL : RpcLib} {EV : Env}.
Context {OS : Oracle SyncRpc.answer} {OR : Oracle answer}.
Abbreviation Io := (IO answer PeerswapServer).
Abbreviation Cmd := (IO answer Plugin).

(** [if !cl.isReady { return nil, ErrWaitingForReady }] before the body. *)
Definition ready {A} (body : Plugin → Io (result A)) : Cmd (result A) :=
  p ← look;
  if negb (isReady p) then mret (Err ErrWaitingForReady)
  else focus pl_server (λ s p, p <| pl_server := s |>) (body p).

(** ** The liquid wallet *)
Definition LiquidGetAddress : Cmd (result string) := ready (λ _,
  s ← look;
  if negb (srv_has_liquidWallet s) then mret (Err (ErrText "liquid swaps are not enabled"))
  else on_wallet GetAddress).
Definition LiquidGetBalance : Cmd (result Z) := ready (λ _,
  s ← look;
  if negb (srv_has_liquidWallet s) then mret (Err (ErrText "lbtc swaps are not enabled"))
  else on_wallet GetBalance).
Definition LiquidSendToAddress (Address : string) (AmountSat : Z) : Cmd (result string) := ready (λ _,
  s ← look;
  if negb (srv_has_liquidWallet s) then mret (Err (ErrText "lbtc swaps are not enabled"))
  else if bool_decide (Address = "") then mret (Err (ErrText "address must be set"))
  else if AmountSat =? 0 then mret (Err (ErrText "amount_sat must be set"))
  else on_wallet (SendToAddress Address AmountSat)).

(** ** Starting swaps *)
Fixpoint find_funding (scid : string) (channels : list FundingChannel) : option FundingChannel :=
  match channels with
  | [] => None
  | v :: channels => if bool_decide (fc_ShortChannelId v = scid) then Some v else find_funding scid channels
  end.
Definition isPeerConnected (id : string) : Io bool :=
  let? connected := query (GetPeer id) else e => mret false in mret connected.

(** What both commands check first. *)
Definition with_channel {A} (l : SwapCommand) (body : FundingChannel → Io (result A)) : Io (result A) :=
  if SatAmt l <=? 0 then mret (Err (ErrText "Missing required amt_sat parameter")) else
  if bool_decide (cmd_ShortChannelId l = "")
  then mret (Err (ErrText "Missing required short_channel_id parameter")) else
  let? channels := query ListFunds else e => mret (Err e) in
  match find_funding (cmd_ShortChannelId l) channels with
  | None => mret (Err (ErrText "fundingChannels not found"))
  | Some fundingChannels => body fundingChannels
  end.
(** What both check of the peer. *)
Definition check_peer (l : SwapCommand) (fundingChannels : FundingChannel) : Io (option error) :=
  if negb (Connected fundingChannels) then mret (Some (ErrText "fundingChannels is not connected")) else
  do? PeerswapServer.check_compatible (cmd_Force l) (fc_Id fundingChannels)
    else e => mret (Some e) in
  connected ← isPeerConnected (fc_Id fundingChannels);
  mret (if negb connected then Some (ErrText "peer is not connected") else None).

Definition check_out_asset (l : SwapCommand) : Io (option error) :=
  if bool_decide (cmd_Asset l = "lbtc") then
    if negb liquidEnabled then mret (Some (ErrText "liquid swaps are not enabled"))
    else
      r ← on_wallet Ping;
      mret (if bool_decide (snd r ≠ None) || negb (fst r)
            then Some (PeerswapServer.ping_error (snd r)) else None)
  else if bool_decide (cmd_Asset l = "btc") then
    mret (if bitcoinEnabled then None else Some (ErrText "bitcoin swaps are not enabled"))
  else mret (Some (ErrText "invalid asset (btc or lbtc)")).
Definition check_in_asset (l : SwapCommand) : Io (option error) :=
  if bool_decide (cmd_Asset l = "lbtc") then
    mret (if liquidEnabled then None else Some (ErrText "liquid swaps are not enabled"))
  else if bool_decide (cmd_Asset l = "btc") then
    mret (if bitcoinEnabled then None else Some (ErrText "bitcoin swaps are not enabled"))
  else mret (Some (ErrText "invalid asset (btc or lbtc)")).

(** The total capacity of the channel is compared. *)
Definition start_out (l : SwapCommand) (p : Plugin) : Io (result rpc.PrettyPrintSwap) :=
  with_channel l (λ fundingChannels,
  if AmountMilliSatoshi fundingChannels <? u64 (u64 (SatAmt l + 5000) * 1000) then
    mret (Err (ErrText "not enough outbound capacity to perform swapOut")) else
  do? check_peer l fundingChannels else e => mret (Err e) in
  do? check_out_asset l else e => mret (Err e) in
  let? swapOut := on_service (SwapOut_start (fc_Id fundingChannels) (cmd_Asset l)
                    (cmd_ShortChannelId l) (nodeId p) (SatAmt l) (PremiumLimitRatePPM l))
    else e => mret (Err e) in
  PeerswapServer.await_opening SwapCanceledError State_SwapOutSender_AwaitTxConfirmation swapOut).
Definition SwapOut (l : SwapCommand) : Cmd (result rpc.PrettyPrintSwap) := ready (start_out l).

Definition start_in (l : SwapCommand) (p : Plugin) : Io (result rpc.PrettyPrintSwap) :=
  with_channel l (λ fundingChannels,
  if u64 (AmountMilliSatoshi fundingChannels - OurAmountMilliSatoshi fundingChannels)
       <? u64 (SatAmt l * 1000) then
    mret (Err (ErrText "not enough inbound capacity to perform swap")) else
  do? check_peer l fundingChannels else e => mret (Err e) in
  do? check_in_asset l else e => mret (Err e) in
  let? swapIn := on_service (SwapIn_start (fc_Id fundingChannels) (cmd_Asset l)
                   (cmd_ShortChannelId l) (nodeId p) (SatAmt l) (PremiumLimitRatePPM l))
    else e => mret (Err e) in
  PeerswapServer.await_opening SwapCanceledError State_SwapInSender_SendTxBroadcastedMessage swapIn).
Definition SwapIn (l : SwapCommand) : Cmd (result rpc.PrettyPrintSwap) := ready (start_in l).

(** ** Listings *)
Definition ListSwaps (DetailedPrint : bool) : Cmd (result ListedSwaps) := ready (λ _,
  let? swaps := on_service Service.ListSwaps else e => mret (Err e) in
  let swaps := sort_Slice by_creation swaps in
  mret (Ok (if DetailedPrint then Detailed swaps else Pretty (PrettyprintFromServiceSwap <$> swaps)))).
Definition ListActiveSwaps : Cmd (result (list rpc.PrettyPrintSwap)) := ready (λ _,
  let? swaps := on_service Service.ListActiveSwaps else e => mret (Err e) in
  mret (Ok (PrettyprintFromServiceSwap <$> swaps))).
Definition GetSwap (SwapId : string) : Cmd (result SerializedSwapStateMachine) := ready (λ _,
  if bool_decide (SwapId = "") then mret (Err (ErrText "swap_id required")) else
  let? swap := on_service (Service.GetSwap SwapId) else e => mret (Err e) in
  mret (Ok (MSerializedSwapStateMachine swap))).
Definition GetRequestedSwaps : Cmd (result (list JsonEntry)) := ready (λ _, on_service Printer_Get).

(** Not guarded by [isReady]. *)
Definition ListNodes : Cmd (result (list Node)) :=
  let? own := query GetInfo else e => mret (Err e) in
  let? nodes := query ServerRpc.ListNodes else e => mret (Err e) in
  mret (Ok (filter (λ node, runs_peerswap own node = true) nodes)).

(** The channels of a peer, with what the funds say about them. *)
Fixpoint show_channels (fundingChannels : gmap string FundingChannel) (channels : list string)
    : result (list rpc.PeerSwapPeerChannel) :=
  match channels with
  | [] => Ok []
  | scid :: channels =>
      match fundingChannels !! scid with
      | None => show_channels fundingChannels channels
      | Some c =>
          match NewScidFromString (fc_ShortChannelId c) with
          | Err e => Err e
          | Ok id =>
              match show_channels fundingChannels channels with
              | Err e => Err e
              | Ok shown =>
                  Ok (rpc.mkPeerChannel (ToUint64 id) (fc_ShortChannelId c)
                        (OurAmountMilliSatoshi c / 1000)
                        (u64 (AmountMilliSatoshi c - OurAmountMilliSatoshi c) / 1000)
                        (channelActive (fc_State c)) :: shown)
              end
          end
      end
  end.
Fixpoint show_peers (compatible : gmap string Peer) (swapsByPeer : gmap string (list SwapStateMachine))
    (fundingChannels : gmap string FundingChannel) (peers : list string)
    : Io (result (list rpc.PeerSwapPeer)) :=
  match peers with
  | [] => mret (Ok [])
  | id :: peers =>
      match compatible !! id with
      | None => show_peers compatible swapsByPeer fundingChannels peers
      | Some peerState =>
          let view := format.BuildPeerView id (peer_capability peerState) (default [] (swapsByPeer !! id)) in
          let? channels := query (ListChannelsBySource id) else e => mret (Err e) in
          match show_channels fundingChannels channels with
          | Err e => mret (Err e)
          | Ok shown =>
              let? rest := show_peers compatible swapsByPeer fundingChannels peers else e => mret (Err e) in
              mret (Ok (NewPeerSwapPeerFromView view <| rpc.Channels := shown |> :: rest))
          end
      end
  end.
(** [LndListPeers] here: the ids of core lightning's [listpeers], connected or not. *)
Definition ListPeers : Cmd (result (list rpc.PeerSwapPeer)) := ready (λ _,
  let? peers := query LndListPeers else e => mret (Err e) in
  let? funds := query ListFunds else e => mret (Err e) in
  let fundingChannels := foldl (λ m c, <[fc_ShortChannelId c := c]> m) ∅ funds in
  s ← look;
  let? compatible :=
    match srv_sync s with None => mret (Ok ∅) | Some _ => on_sync CompatiblePeers end
    else e => mret (Err e) in
  let? allSwaps := on_service Service.ListSwaps else e => mret (Err e) in
  show_peers compatible (partition_by_peer allSwaps) fundingChannels peers).

(** ** The policy *)
Definition policy_get : Io Policy := s ← look; mret (Policy_Get (conf (policy (srv_world s)))).
Definition edit_policy (f : FileIO → PolicyState → PolicyState * option error) : Cmd (result Policy) :=
  ready (λ _, do? on_policy f else e => mret (Err e) in pol ← policy_get; mret (Ok pol)).
Definition AddPeer (PeerPubkey : string) : Cmd (result Policy) :=
  edit_policy (λ io, AddToAllowlist io PeerPubkey).
Definition RemovePeer (PeerPubkey : string) : Cmd (result Policy) :=
  edit_policy (λ io, RemoveFromAllowlist io PeerPubkey).
Definition AddSuspiciousPeer (PeerPubkey : string) : Cmd (result Policy) :=
  edit_policy (λ io, AddToSuspiciousPeerList io PeerPubkey).
Definition RemoveSuspiciousPeer (PeerPubkey : string) : Cmd (result Policy) :=
  edit_policy (λ io, RemoveFromSuspiciousPeerList io PeerPubkey).
Definition ReloadPolicyFile : Cmd (result Policy) := ready (λ _,
  do? on_policy ReloadFile else e => mret (Err e) in
  force_poll;; pol ← policy_get; mret (Ok pol)).
(** The errors of the edits are dropped, and other arguments change nothing. *)
Definition AllowSwapRequests (arg : string) : Cmd (result rpc.Policy) := ready (λ _,
  if bool_decide (arg = "") then mret (Err (ErrText "missing argument:1 to allow, 0 to disallow")) else
  (if bool_decide (arg = "1" ∨ unicode.ToLower arg = "true") then on_policy EnableSwaps;; mret ()
   else if bool_decide (arg = "0" ∨ unicode.ToLower arg = "false") then on_policy DisableSwaps;; mret ()
   else mret ());;
  pol ← policy_message; mret (Ok pol)).
Definition ListConfig : Cmd (result PeerswapClightningConfig) :=
  ready (λ p, mret (Ok (peerswapConfig p))).

(** ** Premium rates *)
Definition rate_error {A} (what : string) (e : error) : result A := Err (ErrText (what +:+ Error e)).
Definition GetPremiumRate (PeerID asset operation : string) : Cmd (result rpc.PremiumRate) := ready (λ _,
  let? r := read_rates (λ io io', Setting_GetRate io io' PeerID (toPremiumAsset asset)
                                    (toPremiumOperation operation))
    else e => mret (rate_error "error getting premium rate: " e) in
  mret (Ok (PeerswapServer.show_rate r))).
Definition GetGlobalPremiumRate (asset operation : string) : Cmd (result rpc.PremiumRate) := ready (λ _,
  let? r := read_rates (λ io _, Setting_GetDefaultRate io (toPremiumAsset asset)
                                  (toPremiumOperation operation))
    else e => mret (rate_error "error getting default premium rate: " e) in
  mret (Ok (PeerswapServer.show_rate r))).
Definition update_rate (set : option error → Premium.PremiumRate → bucket → bucket * option error)
    (failed asset operation : string) (PremiumRatePPM : Z) : Cmd (result rpc.PremiumRate) := ready (λ _,
  match NewPremiumRate (toPremiumAsset asset) (toPremiumOperation operation) (NewPPM PremiumRatePPM) with
  | Err e => mret (rate_error "error creating premium rate: " e)
  | Ok rate =>
      do? on_rates (λ io, set io rate) else e => mret (rate_error failed e) in
      force_poll;; mret (Ok (PeerswapServer.show_rate rate))
  end).
Definition UpdatePremiumRate (PeerID : string) :=
  update_rate (λ io, Setting_SetRate io PeerID) "error setting premium rate: ".
Definition UpdateGlobalPremiumRate :=
  update_rate Setting_SetDefaultRate "error setting default premium rate: ".
Definition DeletePremiumRate (PeerID asset operation : string) : Cmd (result rpc.PremiumRate) := ready (λ _,
  do? on_rates (λ io, Setting_DeleteRate io PeerID (toPremiumAsset asset) (toPremiumOperation operation))
    else e => mret (rate_error "error deleting premium rate: " e) in
  force_poll;;
  mret (Ok (rpc.mkPremiumRate (ToAssetType (toPremiumAsset asset))
              (ToOperationType (toPremiumOperation operation)) 0))).
End commands.
End ClnCommands.
