(* ===== verification/PluginMethods.v ===== *)
(** * The methods of the plugin and how it starts to listen
      (src/clightning/clightning_commands.go, clightning.go, options.go)

    Each command of ClnCommands with its name, the keys and types of its parameters in
    the order of the struct, its texts, and the call with the decoded parameters.  The
    plugin library, which decodes a request into the struct and finds its method by name,
    is the record [Args] of the fields, zero where the request has none, and [dispatch];
    registering is a question ([RegRpc]).  [New] of a method is the empty struct of its
    client: the copies of the prototype that [RegisterMethods] registers have no
    arguments. *)

From S2P Require Import LndClient ElementsWallet LwkConfig ClnConfig.
From S2P Require Import Prelude GoLib Messages Premium Policy SwapData Timelock Env Store Oracle.
From S2P Require Import PeerCapability PeerSync Fsm Service Rpc RpcServer ClnCommands.

(** ** Options *)
Module RegRpc.
Inductive Call :=
  | RegisterNewOption (name description defaultValue : string)
  | RegisterNewBoolOption (name description : string) (defaultValue : bool)
  | RegisterMethod (name desc longDesc category : string).
Definition answer (c : Call) : Type := option error.
#[export] Instance RegCall_eq_dec : EqDecision Call.
Proof. solve_decision. Defined.
End RegRpc.
Import RegRpc.

(** Ask for each in its order; the first error ends it. *)
Fixpoint register `{!Oracle RegRpc.answer} (l : list Call) : IO RegRpc.answer () (option error) :=
  match l with
  | [] => mret None
  | c :: l => do? query c else e => mret (Some e) in register l
  end.

Definition options : list Call :=
  [RegisterNewOption "peerswap-bitcoin-rpchost" "bitcoind rpchost" "";
   RegisterNewOption "peerswap-bitcoin-rpcport" "bitcoind rpcport" "";
   RegisterNewOption "peerswap-bitcoin-rpcuser" "bitcoind rpcuser" "";
   RegisterNewOption "peerswap-bitcoin-rpcpassword" "bitcoind rpcpassword" "";
   RegisterNewOption "peerswap-bitcoin-cookiefilepath" "path to bitcoin cookie file" "";
   RegisterNewOption "peerswap-elementsd-rpchost" "elementsd rpchost" "";
   RegisterNewOption "peerswap-elementsd-rpcport" "elementsd rpcport" "";
   RegisterNewOption "peerswap-elementsd-rpcuser" "elementsd rpcuser" "";
   RegisterNewOption "peerswap-elementsd-rpcpassword" "elementsd rpcpassword" "";
   RegisterNewOption "peerswap-elementsd-rpcwallet" "liquid-rpcwallet" "";
   RegisterNewOption "peerswap-elementsd-rpcpasswordfile" "elementsd rpcpassword filepath" "";
   RegisterNewBoolOption "peerswap-elementsd-swaps" "enable/disable liquid" false;
   RegisterNewOption "peerswap-policy-path"
     "Path to the policy file. If empty the default policy is used" ""].
Definition RegisterOptions `{!Oracle RegRpc.answer} : IO RegRpc.answer () (option error) := register options.

(** ** Methods *)
Inductive ParamKind := PString | PUint64 | PInt64 | PBool.
Record Decl := mkDecl { d_Name : string; d_Params : list (string * ParamKind) }.
Record Args := mkArgs {
  a_string : string → string; a_int : string → Z; a_bool : string → bool }.
(** A result of any type. *)
Record Shown := mkAnswer { sh_Type : Type; sh_value : sh_Type }.
(** A text over several lines, indented by tabs. *)
Fixpoint tabs (n : nat) : string := match n with O => "" | S n => String "009" (tabs n) end.
Fixpoint lines (n : nat) (l : list string) : string :=
  match l with [] => "" | [s] => s | s :: l => s +:+ String "010" (tabs n +:+ lines n l) end.

Section methods.
Context {RL : RpcLib} {EV : Env}.
Context {OS : Oracle SyncRpc.answer} {OR : Oracle ServerRpc.answer}.
Abbreviation Cmd := (IO ServerRpc.answer Plugin).

Record Method := mkMethod {
  m_Decl : Decl;
  m_Description : string;
  m_LongDescription : string;
  m_Call : Args → Cmd (result Shown);
}.
Definition shown {A} (c : Cmd (result A)) : Cmd (result Shown) :=
  r ← c; mret (match r with Ok a => Ok (mkAnswer A a) | Err e => Err e end).

Definition LiquidGetAddress_decl : Decl := mkDecl "peerswap-lbtc-getaddress" [].
Definition LiquidGetAddress_method : Method :=
  mkMethod LiquidGetAddress_decl
    "Returns a new liquid address of the liquid peerswap wallet."
    ""
    (λ a, shown (ClnCommands.LiquidGetAddress)).
Definition LiquidGetBalance_decl : Decl := mkDecl "peerswap-lbtc-getbalance" [].
Definition LiquidGetBalance_method : Method :=
  mkMethod LiquidGetBalance_decl
    "Returns the liquid balance"
    ""
    (λ a, shown (ClnCommands.LiquidGetBalance)).
Definition LiquidSendToAddress_decl : Decl := mkDecl "peerswap-lbtc-sendtoaddress" [("address", PString); ("amount_sat", PUint64)].
Definition LiquidSendToAddress_method : Method :=
  mkMethod LiquidSendToAddress_decl
    "sends lbtc to an address"
    "'"
    (λ a, shown (ClnCommands.LiquidSendToAddress (a_string a "address") (a_int a "amount_sat"))).
Definition SwapOut_decl : Decl := mkDecl "peerswap-swap-out" [("short_channel_id", PString); ("amt_sat", PUint64); ("asset", PString); ("premium_rate_limit_ppm", PInt64); ("force", PBool)].
Definition SwapOut_method : Method :=
  mkMethod SwapOut_decl
    "Initiates a swap out with a peer"
    ""
    (λ a, shown (ClnCommands.SwapOut (mkSwapCommand (a_string a "short_channel_id") (a_int a "amt_sat") (a_string a "asset")
              (a_int a "premium_rate_limit_ppm") (a_bool a "force")))).
Definition SwapIn_decl : Decl := mkDecl "peerswap-swap-in" [("short_channel_id", PString); ("amt_sat", PUint64); ("asset", PString); ("premium_limit_ppm", PInt64); ("force", PBool)].
Definition SwapIn_method : Method :=
  mkMethod SwapIn_decl
    "Initiates a swap in with a peer"
    ""
    (λ a, shown (ClnCommands.SwapIn (mkSwapCommand (a_string a "short_channel_id") (a_int a "amt_sat") (a_string a "asset")
              (a_int a "premium_limit_ppm") (a_bool a "force")))).
Definition ListSwaps_decl : Decl := mkDecl "peerswap-listswaps" [("detailed", PBool)].
Definition ListSwaps_method : Method :=
  mkMethod ListSwaps_decl
    "Returns a list of historical swaps."
    ""
    (λ a, shown (ClnCommands.ListSwaps (a_bool a "detailed"))).
Definition ListNodes_decl : Decl := mkDecl "peerswap-listnodes" [].
Definition ListNodes_method : Method :=
  mkMethod ListNodes_decl
    "lists nodes that support the peerswap Plugin"
    ""
    (λ a, shown (ClnCommands.ListNodes)).
Definition ListPeers_decl : Decl := mkDecl "peerswap-listpeers" [].
Definition ListPeers_method : Method :=
  mkMethod ListPeers_decl
    "lists peers supporting the peerswap Plugin"
    ""
    (λ a, shown (ClnCommands.ListPeers)).
Definition GetSwap_decl : Decl := mkDecl "peerswap-getswap" [("swap_id", PString)].
Definition GetSwap_method : Method :=
  mkMethod GetSwap_decl
    "returns swap by swapid"
    ""
    (λ a, shown (ClnCommands.GetSwap (a_string a "swap_id"))).
Definition ReloadPolicyFile_decl : Decl := mkDecl "peerswap-reloadpolicy" [].
Definition ReloadPolicyFile_method : Method :=
  mkMethod ReloadPolicyFile_decl
    "Reload the policy file."
    (lines 1 ["If the policy file has changed, reload the policy"; "from the file specified in the config. Overrides the"; "default config, so fields that are not set are interpreted as default."])
    (λ a, shown (ClnCommands.ReloadPolicyFile)).
Definition GetRequestedSwaps_decl : Decl := mkDecl "peerswap-listswaprequests" [].
Definition GetRequestedSwaps_method : Method :=
  mkMethod GetRequestedSwaps_decl
    "Returns unhandled swaps requested by peer nodes."
    (lines 2 ["This command can give you insight of swaps requested by peer nodes that could not have"; "been performed because either the peer is not in the allowlist or the asset is not set."])
    (λ a, shown (ClnCommands.GetRequestedSwaps)).
Definition ListActiveSwaps_decl : Decl := mkDecl "peerswap-listactiveswaps" [].
Definition ListActiveSwaps_method : Method :=
  mkMethod ListActiveSwaps_decl
    "Returns active swaps."
    "This command can give you information if you are ready to upgrade your peerswap daemon."
    (λ a, shown (ClnCommands.ListActiveSwaps)).
Definition AllowSwapRequests_decl : Decl := mkDecl "peerswap-allowswaprequests" [("allow_swap_requests", PString)].
Definition AllowSwapRequests_method : Method :=
  mkMethod AllowSwapRequests_decl
    "Sets peerswap to allow incoming swap requests"
    "This command can be used to wait for all swaps to complete, while not allowing new swaps. This is helps with upgrading"
    (λ a, shown (ClnCommands.AllowSwapRequests (a_string a "allow_swap_requests"))).
Definition AddPeer_decl : Decl := mkDecl "peerswap-addpeer" [("peer_pubkey", PString)].
Definition AddPeer_method : Method :=
  mkMethod AddPeer_decl
    "Add peer to allowlist"
    "This command can be used to add a peer to the allowlist"
    (λ a, shown (ClnCommands.AddPeer (a_string a "peer_pubkey"))).
Definition RemovePeer_decl : Decl := mkDecl "peerswap-removepeer" [("peer_pubkey", PString)].
Definition RemovePeer_method : Method :=
  mkMethod RemovePeer_decl
    "Remove peer from allowlist"
    "This command can be used to remove a peer from the allowlist"
    (λ a, shown (ClnCommands.RemovePeer (a_string a "peer_pubkey"))).
Definition AddSuspiciousPeer_decl : Decl := mkDecl "peerswap-addsuspeer" [("peer_pubkey", PString)].
Definition AddSuspiciousPeer_method : Method :=
  mkMethod AddSuspiciousPeer_decl
    "Add peer to suspicious peer list"
    "This command can be used to add a peer to the list of suspiciouspeers. Peers on this list are not allowed to request swaps with this node"
    (λ a, shown (ClnCommands.AddSuspiciousPeer (a_string a "peer_pubkey"))).
Definition RemoveSuspiciousPeer_decl : Decl := mkDecl "peerswap-removesuspeer" [("peer_pubkey", PString)].
Definition RemoveSuspiciousPeer_method : Method :=
  mkMethod RemoveSuspiciousPeer_decl
    "Remove peer from suspicious peer list"
    "This command can be used to remove  a peer to the list ofsuspicious peers. Peers on this list are not allowed to request swapswith this node"
    (λ a, shown (ClnCommands.RemoveSuspiciousPeer (a_string a "peer_pubkey"))).
Definition ListConfig_decl : Decl := mkDecl "peerswap-listconfig" [].
Definition ListConfig_method : Method :=
  mkMethod ListConfig_decl
    "Show the peerswap config"
    "Show the peerswap config"
    (λ a, shown (ClnCommands.ListConfig)).
Definition GetPremiumRate_decl : Decl := mkDecl "peerswap-getpremiumrate" [("peer_id", PString); ("asset", PString); ("operation", PString)].
Definition GetPremiumRate_method : Method :=
  mkMethod GetPremiumRate_decl
    "Get the premium rate for a peer"
    "Get the premium rate for a peer"
    (λ a, shown (ClnCommands.GetPremiumRate (a_string a "peer_id") (a_string a "asset") (a_string a "operation"))).
Definition UpdatePremiumRate_decl : Decl := mkDecl "peerswap-updatepremiumrate" [("peer_id", PString); ("asset", PString); ("operation", PString); ("premium_rate_ppm", PInt64)].
Definition UpdatePremiumRate_method : Method :=
  mkMethod UpdatePremiumRate_decl
    "Set the premium rate for a peer"
    "Set the premium rate for a peer"
    (λ a, shown (ClnCommands.UpdatePremiumRate (a_string a "peer_id") (a_string a "asset") (a_string a "operation")
             (a_int a "premium_rate_ppm"))).
Definition DeletePremiumRate_decl : Decl := mkDecl "peerswap-deletepremiumrate" [("peer_id", PString); ("asset", PString); ("operation", PString)].
Definition DeletePremiumRate_method : Method :=
  mkMethod DeletePremiumRate_decl
    "Delete the premium rate for a peer"
    "Delete the premium rate for a peer"
    (λ a, shown (ClnCommands.DeletePremiumRate (a_string a "peer_id") (a_string a "asset") (a_string a "operation"))).
Definition UpdateGlobalPremiumRate_decl : Decl := mkDecl "peerswap-updateglobalpremiumrate" [("asset", PString); ("operation", PString); ("premium_rate_ppm", PInt64)].
Definition UpdateGlobalPremiumRate_method : Method :=
  mkMethod UpdateGlobalPremiumRate_decl
    "Set the default premium rate"
    "Set the default premium rate"
    (λ a, shown (ClnCommands.UpdateGlobalPremiumRate (a_string a "asset") (a_string a "operation") (a_int a "premium_rate_ppm"))).
Definition GetGlobalPremiumRate_decl : Decl := mkDecl "peerswap-getglobalpremiumrate" [("asset", PString); ("operation", PString)].
Definition GetGlobalPremiumRate_method : Method :=
  mkMethod GetGlobalPremiumRate_decl
    "Get the default premium rate"
    "Get the default premium rate"
    (λ a, shown (ClnCommands.GetGlobalPremiumRate (a_string a "asset") (a_string a "operation"))).

(** [ListNodes] is left out of the list in the source too. *)
Definition methods : list Method :=
  [ListPeers_method; LiquidSendToAddress_method; GetSwap_method; ListActiveSwaps_method;
   AllowSwapRequests_method; AddPeer_method; RemovePeer_method; AddSuspiciousPeer_method;
   RemoveSuspiciousPeer_method; SwapIn_method; SwapOut_method; ListSwaps_method;
   LiquidGetAddress_method; LiquidGetBalance_method; ReloadPolicyFile_method; GetRequestedSwaps_method;
   ListConfig_method; GetPremiumRate_method; UpdatePremiumRate_method; GetGlobalPremiumRate_method;
   UpdateGlobalPremiumRate_method; DeletePremiumRate_method].
Definition devmethods : list Method := [].

Definition registration (m : Method) : Call :=
  RegisterMethod (d_Name (m_Decl m)) (m_Description m) (m_LongDescription m) "peerswap".
Definition RegisterMethods `{!Oracle RegRpc.answer} : IO RegRpc.answer () (option error) :=
  do? register (registration <$> methods) else e => mret (Some e) in
  register (registration <$> devmethods).

(** What the plugin library does with a request. *)
Definition dispatch (name : string) (a : Args) : Cmd (result Shown) :=
  match list_find (λ m, d_Name (m_Decl m) = name) (methods ++ devmethods) with
  | Some (_, m) => m_Call m a
  | None => mret (Err (ErrText "Method not found"))
  end.
End methods.

(** The part of [outer] (src/cmd/peerswap-plugin/main.go) before the plugin listens. *)
Section outer.
Context {RL : RpcLib} {EV : Env}.
Context {OS : Oracle SyncRpc.answer} {OR : Oracle ServerRpc.answer} {OG : Oracle RegRpc.answer}.
Definition register_plugin : IO RegRpc.answer () (option error) :=
  do? RegisterOptions else e => mret (Some e) in RegisterMethods.

(** ** What is registered *)

(** In order, up to the first that is refused. *)
Lemma register_spec l t :
  wp (register l) (λ err '(t', _), ∃ done rest, l = done ++ rest ∧
      match err with
      | None => rest = [] ∧ t' = reverse ((λ c, event c None) <$> done) ++ t
      | Some e => ∃ c rest', rest = c :: rest' ∧
          t' = event c (Some e) :: reverse ((λ c, event c None) <$> done) ++ t
      end) no_stop (t, ()).
Proof.
  revert t. induction l as [|c l IH]; intros t; cbn [register].
  - apply wp_ret. by exists [], [].
  - do 2 io_step. destruct (reply t c) as [e|] eqn:E.
    + apply wp_ret. exists [], (c :: l). split; [done|]. by exists c, l.
    + eapply wp_mono; [apply IH| |done]. intros err [t' []] (done & rest & -> & H).
      exists (c :: done), rest. split; [done|].
      rewrite fmap_cons, reverse_cons, <- app_assoc. exact H.
Qed.

Definition option_name (c : Call) : string :=
  match c with
  | RegisterNewOption name _ _ | RegisterNewBoolOption name _ _ | RegisterMethod name _ _ _ => name
  end.

(** The options that are registered are those whose use is refused later. *)
Lemma options_are_legacy : (option_name <$> options) ≡ₚ legacyOptions.
Proof. apply (bool_decide_unpack _). by vm_compute. Qed.

Lemma method_names : NoDup (d_Name ∘ m_Decl <$> methods).
Proof. apply (bool_decide_unpack _). by vm_compute. Qed.
Lemma method_prefix m : m ∈ methods → String.prefix "peerswap-" (d_Name (m_Decl m)) = true.
Proof.
  intros Hm. assert (Forall (λ n, String.prefix "peerswap-" n = true) (d_Name ∘ m_Decl <$> methods)) as H
    by (apply (bool_decide_unpack _); by vm_compute).
  rewrite Forall_fmap, Forall_forall in H. by apply H.
Qed.

(** Two requests with the same parameter. *)
Definition same_param (a a' : Args) (p : string * ParamKind) : Prop :=
  match p with
  | (k, PString) => a_string a k = a_string a' k
  | (k, PUint64) | (k, PInt64) => a_int a k = a_int a' k
  | (k, PBool) => a_bool a k = a_bool a' k
  end.

Ltac each_method H :=
  unfold methods in H; rewrite !elem_of_cons, elem_of_nil in H; destruct_or! H; try done; subst.

(** A command uses the parameters it declares, at their types. *)
Lemma reads_own_params m a a' :
  m ∈ methods → Forall (same_param a a') (d_Params (m_Decl m)) → m_Call m a = m_Call m a'.
Proof.
  intros Hm. each_method Hm.
  all: match goal with |- Forall _ (d_Params (m_Decl ?m)) → _ => let m' := eval red in m in change m with m' end.
  all: cbn [m_Decl m_Call].
  all: match goal with |- Forall _ (d_Params ?d) → _ => let d' := eval red in d in change d with d' end.
  all: cbn [d_Params]; rewrite ?Forall_cons; unfold same_param; intros; destruct_and?; try done; congruence.
Qed.

(** Before the plugin is ready, no command does anything. *)
Lemma waits_until_ready m a t p : m ∈ methods → isReady p = false →
  m_Call m a (t, p) = Ret (t, p) (Err ErrWaitingForReady).
Proof.
  intros Hm Hp. each_method Hm.
  all: destruct p as [s r n c]; cbn in Hp; subst r; reflexivity.
Qed.

(** The interface of the plugin.  It registers its options and then its methods, and stops
    at the first that core lightning refuses; a name is registered for one method only,
    and the library finds that method by it.  A method uses the parameters it declares;
    before the plugin is ready every request is refused, without a call and without a
    change. *)
Theorem plugin_interface t :
  wp register_plugin (λ err '(t', _), ∃ done rest, options ++ (registration <$> methods) = done ++ rest ∧
      match err with
      | None => rest = [] ∧ t' = reverse ((λ c, event c None) <$> done) ++ t
      | Some e => ∃ c rest', rest = c :: rest' ∧
          t' = event c (Some e) :: reverse ((λ c, event c None) <$> done) ++ t
      end) no_stop (t, ()) ∧
  (∀ m, m ∈ methods → ∀ a, dispatch (d_Name (m_Decl m)) a = m_Call m a) ∧
  (∀ name a u p, isReady p = false → ∃ e, dispatch name a (u, p) = Ret (u, p) (Err e)).
Proof.
  split; [|split].
  - unfold register_plugin, RegisterOptions, RegisterMethods. apply wp_bind.
    eapply wp_mono; [apply register_spec| |done]. intros [e|] [t1 []] (done & rest & E & H).
    + apply wp_ret. destruct H as (c & rest' & -> & ->). exists done, (c :: rest' ++ (registration <$> methods)).
      rewrite E, <- app_assoc. split; [done|]. by eexists _, _.
    + destruct H as [-> ->]. rewrite app_nil_r in E. subst done. apply wp_bind.
      eapply wp_mono; [apply register_spec| |done]. intros [e|] [t2 []] (done & rest & E & H).
      * apply wp_ret. destruct H as (c & rest' & -> & ->). exists (options ++ done), (c :: rest').
        rewrite E, <- app_assoc. split; [done|]. exists c, rest'.
        by rewrite fmap_app, reverse_app, <- app_assoc.
      * destruct H as [-> ->]. rewrite app_nil_r in E. subst done. apply wp_ret.
        exists (options ++ (registration <$> methods)), []. rewrite app_nil_r.
        split; [done|]. split; [done|]. by rewrite (fmap_app _ options), reverse_app, <- app_assoc.
  - intros m Hm a. unfold dispatch, devmethods. rewrite app_nil_r.
    destruct (list_find _ methods) as [[i m']|] eqn:E.
    + apply list_find_Some in E as (Hi & Hname & _). f_equal.
      apply list_elem_of_lookup in Hm as [j Hj].
      assert (i = j) as ->; [|congruence].
      eapply NoDup_lookup; [apply method_names| |]; rewrite list_lookup_fmap; [by rewrite Hi|].
      rewrite Hj. cbn. by rewrite Hname.
    + apply list_find_None in E. rewrite Forall_forall in E. by destruct (E m Hm).
  - intros name a u p Hp. unfold dispatch, devmethods. rewrite app_nil_r.
    destruct (list_find _ methods) as [[i m]|] eqn:E.
    + apply list_find_Some in E as (Hi & _ & _). eexists.
      apply waits_until_ready; [by eapply list_elem_of_lookup_2|done].
    + by eexists.
Qed.
(** The limit of the premium has another key for a swap-out than for a swap-in. *)
Example limit_keys :
  d_Params SwapOut_decl !! 3%nat = Some ("premium_rate_limit_ppm", PInt64) ∧
  d_Params SwapIn_decl !! 3%nat = Some ("premium_limit_ppm", PInt64).
Proof. done. Qed.
End outer.
