(* ===== verification/ClnProofs.v ===== *)
(** * What a command of the plugin may start

    Until the plugin is ready its commands do nothing; a swap is handed to the swap
    service only after every check, as in the RPC server; and the commands that edit the
    policy and the rates are those of the RPC server. *)

From S2P Require Import LndClient ElementsWallet LwkConfig ClnConfig.
From S2P Require Import Prelude GoLib Messages Premium Policy SwapData Timelock Env Store Oracle.
From S2P Require Import PeerCapability PeerSync Fsm Service Rpc RpcServer RpcProofs RpcGuards ClnCommands.
Import ServerRpc.

(** A node runs peerswap when the bit of the feature is set. *)
Lemma checkFeatures_testbit raw bit :
  0 ≤ bit → checkFeatures raw bit = Z.testbit (SetBytes raw) bit.
Proof.
  intros Hbit. unfold checkFeatures. apply eq_true_iff_eq. rewrite Z.eqb_eq. split.
  - intros H. apply (f_equal (λ n, Z.testbit n bit)) in H.
    rewrite Z.land_spec, Z.pow2_bits_true, andb_true_r in H by done. done.
  - intros H. apply Z.bits_inj'. intros i Hi. rewrite Z.land_spec, Z.pow2_bits_eqb by done.
    destruct (Z.eqb_spec bit i) as [<-|]; [by rewrite H|by rewrite andb_false_r].
Qed.

Section commands.
Context {RL : RpcLib} {EV : Env}.
Context {OS : Oracle SyncRpc.answer} {OR : Oracle answer}.
Implicit Types (t : Trace answer) (s : PeerswapServer) (p : Plugin).

(** ** Starting a swap *)
Record allowed (l : SwapCommand) s t (ch : FundingChannel) : Prop := {
  amount_positive : 0 < SatAmt l;
  of_funds : ∃ funds, event ListFunds (Ok funds) ∈ t ∧ ch ∈ funds;
  named_channel : fc_ShortChannelId ch = cmd_ShortChannelId l;
  both_connected : Connected ch = true ∧ event (GetPeer (fc_Id ch)) (Ok true) ∈ t;
  compatible_peer : cmd_Force l = true ∨ known_compatible s (fc_Id ch);
  enabled_asset : (cmd_Asset l = "lbtc" ∧ liquidEnabled = true) ∨
                  (cmd_Asset l = "btc" ∧ bitcoinEnabled = true);
}.
Definition allowed_out l s t ch : Prop :=
  allowed l s t ch ∧ u64 (u64 (SatAmt l + 5000) * 1000) ≤ AmountMilliSatoshi ch ∧
  (cmd_Asset l = "lbtc" → event Ping (true, None) ∈ t).
Definition allowed_in l s t ch : Prop :=
  allowed l s t ch ∧
  u64 (SatAmt l * 1000) ≤ u64 (AmountMilliSatoshi ch - OurAmountMilliSatoshi ch).

Definition plugin_out (l : SwapCommand) (own : string) (ch : FundingChannel) :=
  SwapOut_start (fc_Id ch) (cmd_Asset l) (cmd_ShortChannelId l) own (SatAmt l) (PremiumLimitRatePPM l).
Definition plugin_in (l : SwapCommand) (own : string) (ch : FundingChannel) :=
  SwapIn_start (fc_Id ch) (cmd_Asset l) (cmd_ShortChannelId l) own (SatAmt l) (PremiumLimitRatePPM l).

(** Nothing was started, or exactly this swap. *)
Definition command_answered (passed : Trace answer → FundingChannel → Prop)
    (start : FundingChannel → Svc SwapService (result SwapStateMachine)) (opened : StateType) s
    (r : result rpc.PrettyPrintSwap) '((t', s') : Trace answer * PeerswapServer) : Prop :=
  (untouched s s' ∧ ∃ e, r = Err e) ∨
  ∃ t ch, suffix t t' ∧ passed t ch ∧ started (start ch) opened s r s'.
Definition command_stopped (passed : Trace answer → FundingChannel → Prop)
    (start : FundingChannel → Svc SwapService (result SwapStateMachine)) s (_ : stop)
    (_ : Trace answer * PeerswapServer) : Prop :=
  srv_has_liquidWallet s = false ∨ ∃ t ch, passed t ch ∧ stops (start ch) s.

Lemma find_funding_spec scid channels ch :
  ClnCommands.find_funding scid channels = Some ch → ch ∈ channels ∧ fc_ShortChannelId ch = scid.
Proof.
  induction channels as [|v channels IH]; cbn; [done|]. case_bool_decide.
  - intros [= <-]. split; [left|done].
  - intros [? ?]%IH. split; [by right|done].
Qed.

Lemma command_refused passed start opened s s' t e :
  untouched s s' → command_answered passed start opened s (Err e) (t, s').
Proof. intros Hs. left. split; [done|]. by exists e. Qed.

Lemma with_channel_spec l (body : FundingChannel → IO answer PeerswapServer (result rpc.PrettyPrintSwap))
    passed start opened t s R :
  (∀ ch t', suffix t t' → 0 < SatAmt l → (∃ funds, event ListFunds (Ok funds) ∈ t' ∧ ch ∈ funds) →
     fc_ShortChannelId ch = cmd_ShortChannelId l →
     wp (body ch) (command_answered passed start opened s) R (t', s)) →
  wp (ClnCommands.with_channel l body) (command_answered passed start opened s) R (t, s).
Proof.
  intros Hbody. unfold ClnCommands.with_channel.
  destruct (Z.leb_spec (SatAmt l) 0); [by apply wp_ret, command_refused|].
  case_bool_decide; [by apply wp_ret, command_refused|]. do 2 io_step.
  destruct (reply t ListFunds) as [funds|e] eqn:Ef; [|by apply wp_ret, command_refused].
  destruct (ClnCommands.find_funding _ funds) as [ch|] eqn:E; [|by apply wp_ret, command_refused].
  apply find_funding_spec in E as [Hin Hid]. apply Hbody; [by apply suffix_cons_r|done| |done].
  exists funds. split; [left|done].
Qed.

Lemma check_peer_spec l ch t s (P : option error → Trace answer * PeerswapServer → Prop) R :
  (∀ e t' s', untouched s s' → P (Some e) (t', s')) →
  (∀ t' s', suffix t t' → untouched s s' →
     Connected ch = true ∧ event (GetPeer (fc_Id ch)) (Ok true) ∈ t' →
     cmd_Force l = true ∨ known_compatible s (fc_Id ch) → P None (t', s')) →
  wp (ClnCommands.check_peer l ch) P R (t, s).
Proof.
  intros HE HN. unfold ClnCommands.check_peer. destruct (Connected ch) eqn:Ec; cbn [negb]; [|by apply wp_ret, HE].
  io_step. apply check_compatible_spec; [intros e s' Hs'; by apply wp_ret, HE|]. intros s' Hs' Hc.
  unfold ClnCommands.isPeerConnected. do 3 io_step.
  destruct (reply t (GetPeer (fc_Id ch))) as [[]|e] eqn:E; io_step; io_step; cbn [negb]; try by apply HE.
  apply HN; [by apply suffix_cons_r|done| |done]. split; [done|left].
Qed.

(** The service is asked. *)
Lemma start_spec passed start opened t s s' ch R :
  untouched s s' → passed t ch →
  (∀ st k, command_stopped passed start s k st → R k st) →
  wp (let? swap := on_service (start ch) else e => mret (Err e) in
      PeerswapServer.await_opening SwapCanceledError opened swap)
    (command_answered passed start opened s) R (t, s').
Proof.
  intros (Hw & Hsv & _) Hp HR. apply wp_bind. apply wp_on_service. rewrite Hw, Hsv. unfold wp at 1.
  destruct (start ch (srv_world s, srv_swaps s)) as [[w sv] res|st|st] eqn:E.
  - destruct res as [sm|e].
    + apply await_opening_spec. intros r t' Ht' Hr. right. exists t, ch. split; [done|]. split; [done|].
      exists w, sv, (Ok sm). by split_and!.
    + apply wp_ret. right. exists t, ch. split; [done|]. split; [done|]. exists w, sv, (Err e). by split_and!.
  - apply HR. right. exists t, ch. split; [done|]. unfold stops. by rewrite E.
  - apply HR. right. exists t, ch. split; [done|]. unfold stops. by rewrite E.
Qed.

Lemma check_in_asset_spec l t s (P : option error → Trace answer * PeerswapServer → Prop) R :
  (∀ e, P (Some e) (t, s)) →
  ((cmd_Asset l = "lbtc" ∧ liquidEnabled = true) ∨ (cmd_Asset l = "btc" ∧ bitcoinEnabled = true) → P None (t, s)) →
  wp (ClnCommands.check_in_asset l) P R (t, s).
Proof.
  intros HE HN. unfold ClnCommands.check_in_asset.
  case_bool_decide as Hl; [|case_bool_decide as Hb]; apply wp_ret.
  - destruct liquidEnabled eqn:El; [apply HN; by left|apply HE].
  - destruct bitcoinEnabled eqn:Eb; [apply HN; by right|apply HE].
  - apply HE.
Qed.
Lemma check_out_asset_spec l t s (P : option error → Trace answer * PeerswapServer → Prop)
    (R : stop → Trace answer * PeerswapServer → Prop) :
  (∀ e t', P (Some e) (t', s)) → (srv_has_liquidWallet s = false → ∀ k st, R k st) →
  (∀ t', suffix t t' →
     (cmd_Asset l = "lbtc" ∧ liquidEnabled = true) ∨ (cmd_Asset l = "btc" ∧ bitcoinEnabled = true) →
     (cmd_Asset l = "lbtc" → event Ping (true, None) ∈ t') → P None (t', s)) →
  wp (ClnCommands.check_out_asset l) P R (t, s).
Proof.
  intros HE HR HN. unfold ClnCommands.check_out_asset.
  case_bool_decide as Hl; [|case_bool_decide as Hb].
  - destruct liquidEnabled eqn:El; cbn [negb]; [|by apply wp_ret, HE].
    unfold on_wallet. do 3 io_step. destruct (srv_has_liquidWallet s) eqn:Ew; [|by apply HR].
    do 2 io_step. destruct (reply t Ping) as [ok perr] eqn:Ep. cbn [fst snd].
    case_bool_decide as Hperr; [apply HE|]. subst perr. destruct ok; [|apply HE].
    apply HN; [by apply suffix_cons_r|by left|]. intros _. left.
  - apply wp_ret. destruct bitcoinEnabled eqn:Eb; [|apply HE].
    apply HN; [done|by right|]. intros H. congruence.
  - apply wp_ret, HE.
Qed.

Lemma elem_suffix_funds t t' ch :
  suffix t t' → (∃ funds, event ListFunds (Ok funds) ∈ t ∧ ch ∈ funds) →
  ∃ funds, event ListFunds (Ok funds) ∈ t' ∧ ch ∈ funds.
Proof. intros Hs (funds & H & ?). exists funds. split; [by eapply elem_of_suffix|done]. Qed.

Lemma start_out_answered l p t s :
  wp (ClnCommands.start_out l p)
    (command_answered (allowed_out l s) (plugin_out l (nodeId p)) State_SwapOutSender_AwaitTxConfirmation s)
    (command_stopped (allowed_out l s) (plugin_out l (nodeId p)) s) (t, s).
Proof.
  unfold ClnCommands.start_out. apply with_channel_spec. intros ch t1 Ht1 Hpos Hfunds Hid.
  destruct (Z.ltb_spec (AmountMilliSatoshi ch) (u64 (u64 (SatAmt l + 5000) * 1000)));
    [by apply wp_ret, command_refused|].
  io_step. apply check_peer_spec; [intros; by apply wp_ret, command_refused|].
  intros t2 s2 Ht2 Hs2 Hconn Hcomp. io_step. apply check_out_asset_spec.
  { intros. by apply wp_ret, command_refused. }
  { intros Hw k st. left. destruct Hs2 as (_ & _ & Hs2). congruence. }
  intros t3 Ht3 Hasset Hping.
  apply (start_spec (allowed_out l s) (plugin_out l (nodeId p)) _ t3 s s2 ch); [done| |done].
  split; [|by split]. split; try done.
  - eapply elem_suffix_funds; [|exact Hfunds]. by etransitivity.
  - split; [apply Hconn|]. eapply elem_of_suffix; [apply Hconn|done].
Qed.

Lemma start_in_answered l p t s :
  wp (ClnCommands.start_in l p)
    (command_answered (allowed_in l s) (plugin_in l (nodeId p)) State_SwapInSender_SendTxBroadcastedMessage s)
    (command_stopped (allowed_in l s) (plugin_in l (nodeId p)) s) (t, s).
Proof.
  unfold ClnCommands.start_in. apply with_channel_spec. intros ch t1 Ht1 Hpos Hfunds Hid.
  destruct (Z.ltb_spec (u64 (AmountMilliSatoshi ch - OurAmountMilliSatoshi ch)) (u64 (SatAmt l * 1000)));
    [by apply wp_ret, command_refused|].
  io_step. apply check_peer_spec; [intros; by apply wp_ret, command_refused|].
  intros t2 s2 Ht2 Hs2 Hconn Hcomp. io_step. apply check_in_asset_spec.
  { intros. by apply wp_ret, command_refused. }
  intros Hasset. apply (start_spec (allowed_in l s) (plugin_in l (nodeId p)) _ t2 s s2 ch); [done| |done].
  split; [|done]. split; try done. by eapply elem_suffix_funds.
Qed.

(** A command runs its body on the server when the plugin is ready. *)
Lemma ready_spec {A} (body : Plugin → IO answer PeerswapServer (result A)) t p :
  isReady p = false → ClnCommands.ready body (t, p) = Ret (t, p) (Err ErrWaitingForReady).
Proof. intros H. unfold ClnCommands.ready, look, mbind, M_bind. by rewrite H. Qed.
Lemma wp_ready {A} (body : Plugin → IO answer PeerswapServer (result A))
    (P : result A → Trace answer * Plugin → Prop) R t p :
  isReady p = true →
  wp (body p) (λ a '(t', s'), P a (t', p <| pl_server := s' |>)) (λ k '(t', s'), R k (t', p <| pl_server := s' |>))
    (t, pl_server p) →
  wp (ClnCommands.ready body) P R (t, p).
Proof. intros Hr H. unfold ClnCommands.ready. do 2 io_step. rewrite Hr. cbn [negb]. by apply wp_focus. Qed.
End commands.

(** C16. A swap requested from the plugin is handed to the swap service only after every
    check, and the answer shows this swap: until the plugin is ready nothing happens;
    otherwise either an error is returned and nothing was touched, or the amount is
    positive, the funds of core lightning have the channel, node and channel are
    connected, the asset is enabled (and the liquid wallet answers, for a swap-out), the
    peer has a compatible record unless the command is forced, and the amount passes
    the capacity check; that check, in msat modulo 2^64, compares a swap-in with what is
    not ours in the channel, but a swap-out with the whole capacity of the channel
    rather than with our balance. *)
Theorem plugin_swaps_guarded {RL : RpcLib} {EV : Env}
    {OS : Oracle SyncRpc.answer} {OR : Oracle answer} (l : SwapCommand) (t : Trace answer) (p : Plugin) :
  let s := pl_server p in
  (match ClnCommands.SwapOut l (t, p) with
   | Ret (t', p') r =>
       if isReady p then p' = p <| pl_server := pl_server p' |> ∧
         command_answered (allowed_out l s) (plugin_out l (nodeId p)) State_SwapOutSender_AwaitTxConfirmation s
           r (t', pl_server p')
       else p' = p ∧ r = Err ErrWaitingForReady
   | Panic _ | NoFuel _ => srv_has_liquidWallet s = false ∨
       ∃ t ch, allowed_out l s t ch ∧ stops (plugin_out l (nodeId p) ch) s
   end) ∧
  (match ClnCommands.SwapIn l (t, p) with
   | Ret (t', p') r =>
       if isReady p then p' = p <| pl_server := pl_server p' |> ∧
         command_answered (allowed_in l s) (plugin_in l (nodeId p)) State_SwapInSender_SendTxBroadcastedMessage s
           r (t', pl_server p')
       else p' = p ∧ r = Err ErrWaitingForReady
   | Panic _ | NoFuel _ => srv_has_liquidWallet s = false ∨
       ∃ t ch, allowed_in l s t ch ∧ stops (plugin_in l (nodeId p) ch) s
   end).
Proof.
  intros s. unfold ClnCommands.SwapOut, ClnCommands.SwapIn. destruct (isReady p) eqn:Hr.
  2:{ rewrite !ready_spec by done. done. }
  split.
  - assert (wp (ClnCommands.ready (ClnCommands.start_out l))
      (λ r '(t', p'), p' = p <| pl_server := pl_server p' |> ∧
         command_answered (allowed_out l s) (plugin_out l (nodeId p)) State_SwapOutSender_AwaitTxConfirmation s
           r (t', pl_server p'))
      (λ k '(t', p'), command_stopped (allowed_out l s) (plugin_out l (nodeId p)) s k (t', s)) (t, p)) as H.
    { apply wp_ready; [done|]. eapply wp_mono; [apply start_out_answered| |].
      - intros r [t' s'] H. by split.
      - intros k [t' s'] H. exact H. }
    unfold wp in H. by destruct (ClnCommands.ready _ _) as [[]|[]|[]].
  - assert (wp (ClnCommands.ready (ClnCommands.start_in l))
      (λ r '(t', p'), p' = p <| pl_server := pl_server p' |> ∧
         command_answered (allowed_in l s) (plugin_in l (nodeId p)) State_SwapInSender_SendTxBroadcastedMessage s
           r (t', pl_server p'))
      (λ k '(t', p'), command_stopped (allowed_in l s) (plugin_in l (nodeId p)) s k (t', s)) (t, p)) as H.
    { apply wp_ready; [done|]. eapply wp_mono; [apply start_in_answered| |].
      - intros r [t' s'] H. by split.
      - intros k [t' s'] H. exact H. }
    unfold wp in H. by destruct (ClnCommands.ready _ _) as [[]|[]|[]].
Qed.

(** ** The same edits as in the RPC server *)
Definition same_answer {A B} (same : A → B → Prop) (r1 : result A) (r2 : result B) : Prop :=
  match r1, r2 with
  | Ok a, Ok b => same a b
  | Err _, Err _ => True
  | _, _ => False
  end.

Section agree.
Context {RL : RpcLib} {EV : Env}.
Context {OS : Oracle SyncRpc.answer} {OR : Oracle answer}.
Implicit Types (t : Trace answer) (s : PeerswapServer) (p : Plugin).
Abbreviation Io := (IO answer PeerswapServer).

(** The same questions, the same server afterwards, answers that fit. *)
Definition alike {A B} (same : A → B → Prop) (m1 : Io A) (m2 : Io B) : Prop := ∀ st,
  match m1 st, m2 st with
  | Ret st1 r1, Ret st2 r2 => st1 = st2 ∧ same r1 r2
  | Panic st1, Panic st2 | NoFuel st1, NoFuel st2 => st1 = st2
  | _, _ => False
  end.
Definition agrees {A B} (same : A → B → Prop) (p : Plugin) (cmd : IO answer Plugin (result A))
    (srv : Io (result B)) : Prop := ∀ t,
  match cmd (t, p), srv (t, pl_server p) with
  | Ret (t1, p1) r1, Ret (t2, s2) r2 => t1 = t2 ∧ p1 = p <| pl_server := s2 |> ∧ same_answer same r1 r2
  | Panic (t1, p1), Panic (t2, s2) | NoFuel (t1, p1), NoFuel (t2, s2) => t1 = t2 ∧ p1 = p <| pl_server := s2 |>
  | _, _ => False
  end.

Lemma alike_ret {A B} (same : A → B → Prop) a b : same a b → alike same (mret a) (mret b).
Proof. by intros H st. Qed.
Lemma alike_bind {X A B} (same : A → B → Prop) (m : Io X) k1 k2 :
  (∀ x, alike same (k1 x) (k2 x)) → alike same (m ≫= k1) (m ≫= k2).
Proof. intros H st. unfold mbind, M_bind. destruct (m st) as [st' x| |]; [apply H|done|done]. Qed.

Lemma agrees_ready {A B} (same : A → B → Prop) p (body : Plugin → Io (result A)) srv :
  isReady p = true → alike (same_answer same) (body p) srv → agrees same p (ClnCommands.ready body) srv.
Proof.
  intros Hr H t. specialize (H (t, pl_server p)). unfold ClnCommands.ready, look, focus, mbind, M_bind.
  rewrite Hr. cbn [negb]. destruct (body p (t, pl_server p)) as [[t1 s1] r1|[t1 s1]|[t1 s1]],
    (srv (t, pl_server p)) as [[t2 s2] r2|[t2 s2]|[t2 s2]]; try done; [destruct H as [[= -> ->] ?]|..].
  - done.
  - injection H as -> ->. done.
  - injection H as -> ->. done.
Qed.

Ltac alike_step := apply alike_bind; intros ?.

Definition policy_shown (p : Policy) (m : rpc.Policy) : Prop := m = GetPolicyMessage p.
Lemma policy_alike : alike (same_answer policy_shown)
  (pol ← ClnCommands.policy_get; mret (Ok pol)) (pol ← policy_message; mret (Ok pol)).
Proof. by intros [t s]. Qed.
Lemma edit_agrees p f :
  isReady p = true → agrees policy_shown p (ClnCommands.edit_policy f) (PeerswapServer.edit_policy f).
Proof.
  intros Hr. apply agrees_ready; [done|]. alike_step. destruct x; [by apply alike_ret|apply policy_alike].
Qed.

(** The texts of an asset and an operation of the interface. *)
Definition texts_of (asset operation : string) (a : rpc.AssetType) (o : rpc.OperationType) : Prop :=
  rate_request a o ∧ toPremiumAsset asset = toPremiumAssetType a ∧
  toPremiumOperation operation = toPremiumOperationType o.

Lemma show_requested asset operation a o v :
  texts_of asset operation a o →
  PeerswapServer.show_rate (mkPremiumRate (toPremiumAsset asset) (toPremiumOperation operation) v) =
  rpc.mkPremiumRate a o (ppmValue v).
Proof.
  intros (Hr & -> & ->). by destruct (rate_request_cases _ _ Hr) as [[-> | ->] [-> | ->]].
Qed.

Lemma update_agrees p set failed failed' asset operation a o ppm :
  isReady p = true → texts_of asset operation a o →
  agrees eq p (ClnCommands.update_rate set failed asset operation ppm)
    (PeerswapServer.update_rate set failed' (rpc.mkPremiumRate a o ppm)).
Proof.
  intros Hr Ht. pose proof Ht as (Hreq & Ha & Ho). apply agrees_ready; [done|].
  unfold PeerswapServer.update_rate. cbn [rpc.rate_Asset rpc.rate_Operation rpc.PremiumRatePpm].
  rewrite <- Ha, <- Ho. destruct (NewPremiumRate _ _ _) as [rate|e] eqn:En; [|by apply alike_ret].
  alike_step. destruct x; [by apply alike_ret|]. alike_step. apply alike_ret. cbn.
  unfold NewPremiumRate in En. repeat case_bool_decide; try done. injection En as <-.
  by rewrite (show_requested _ _ a o).
Qed.

Lemma read_agrees p (f : option error → option error → bucket → result Premium.PremiumRate) what a o :
  isReady p = true → rate_request a o →
  agrees eq p
    (ClnCommands.ready (λ _, let? r := read_rates f else e => mret (ClnCommands.rate_error what e) in
                             mret (Ok (PeerswapServer.show_rate r))))
    (do? mret (PeerswapServer.check_rate_request a o) else e => mret (Err e) in
     let? r := read_rates f else e => mret (Err e) in mret (Ok (PeerswapServer.show_rate r))).
Proof.
  intros Hr Hreq. apply agrees_ready; [done|]. rewrite Hreq.
  change (alike (same_answer eq)
    (let? r := read_rates f else e => mret (ClnCommands.rate_error what e) in
     mret (Ok (PeerswapServer.show_rate r)))
    (let? r := read_rates f else e => mret (Err e) in mret (Ok (PeerswapServer.show_rate r)))).
  alike_step. by destruct x; apply alike_ret.
Qed.
End agree.

(** C37. The plugin and the RPC server edit policy and premium rates in the same way: once
    the plugin is ready, ten of its commands (adding and removing an allowed and a
    suspicious peer, reloading the policy file, and reading, setting and deleting the
    premium rate of a peer and reading and setting the global one) ask the same
    questions as the handlers, leave the same server behind, panic when they panic and
    answer the same, apart from the text of errors and the form in which the policy is
    shown. *)
Theorem plugin_agrees_with_server {RL : RpcLib} {EV : Env}
    {OS : Oracle SyncRpc.answer} {OR : Oracle answer} (p : Plugin) :
  isReady p = true →
  (∀ key,
    agrees policy_shown p (ClnCommands.AddPeer key) (PeerswapServer.AddPeer key) ∧
    agrees policy_shown p (ClnCommands.RemovePeer key) (PeerswapServer.RemovePeer key) ∧
    agrees policy_shown p (ClnCommands.AddSuspiciousPeer key) (PeerswapServer.AddSusPeer key) ∧
    agrees policy_shown p (ClnCommands.RemoveSuspiciousPeer key) (PeerswapServer.RemoveSusPeer key)) ∧
  agrees policy_shown p ClnCommands.ReloadPolicyFile PeerswapServer.ReloadPolicyFile ∧
  (∀ id asset operation a o ppm, texts_of asset operation a o →
    agrees eq p (ClnCommands.UpdatePremiumRate id asset operation ppm)
      (PeerswapServer.UpdatePremiumRate id (rpc.mkPremiumRate a o ppm)) ∧
    agrees eq p (ClnCommands.UpdateGlobalPremiumRate asset operation ppm)
      (PeerswapServer.UpdateGlobalPremiumRate (rpc.mkPremiumRate a o ppm)) ∧
    agrees eq p (ClnCommands.GetPremiumRate id asset operation) (PeerswapServer.GetPremiumRate id a o) ∧
    agrees eq p (ClnCommands.GetGlobalPremiumRate asset operation) (PeerswapServer.GetGlobalPremiumRate a o) ∧
    agrees eq p (ClnCommands.DeletePremiumRate id asset operation) (PeerswapServer.DeletePremiumRate id a o)).
Proof.
  intros Hr. split; [|split].
  - intros key. by split_and!; apply edit_agrees.
  - apply agrees_ready; [done|]. apply alike_bind. intros [e|]; [by apply alike_ret|].
    apply alike_bind. intros _. apply policy_alike.
  - intros id asset operation a o ppm Ht. pose proof Ht as (Hreq & Ha & Ho). split_and!.
    + by apply update_agrees.
    + by apply update_agrees.
    + unfold ClnCommands.GetPremiumRate. rewrite Ha, Ho. by apply read_agrees.
    + unfold ClnCommands.GetGlobalPremiumRate. rewrite Ha, Ho. by apply read_agrees.
    + apply agrees_ready; [done|]. unfold PeerswapServer.DeletePremiumRate. rewrite Ha, Ho.
      apply alike_bind. intros [e|]; [by apply alike_ret|]. apply alike_bind. intros _. apply alike_ret.
      by destruct (rate_request_cases _ _ Hreq) as [[-> | ->] [-> | ->]].
Qed.
