(* ===== verification/RpcWitnesses.v ===== *)
(** * The RPC server on a concrete node, for the examples

    An lnd node with one peer and one channel, a sync that knows this peer, and the
    database of the environment of the examples. *)

From stdpp Require Import sorting.
From S2P Require Import LndClient.
From S2P Require Import Prelude GoLib Messages Premium Policy SwapData Timelock Env Demo Store Oracle.
From S2P Require Import PeerCapability SnapshotCodec PeerSync PeerSyncProofs Announce SyncScenarios Fsm Service Witnesses.
From S2P Require Import ElementsWallet LwkConfig ClnConfig Rpc RpcServer RpcProofs RpcGuards Json Pscli ClnCommands ClnProofs.
Import ServerRpc.

(** Sorting for a boolean order. *)
Section slice.
Context {A : Type} (less : A → A → bool).
Definition not_above (a b : A) : Prop := less b a = false.
#[export] Instance not_above_dec a b : Decision (not_above a b).
Proof. unfold not_above. apply _. Defined.
Definition demo_sort (l : list A) : list A := merge_sort not_above l.
End slice.

Lemma demo_sort_sorted {A} (key : A → Z) l :
  Sorted.StronglySorted (λ a b, key a ≤ key b) (demo_sort (λ a b, key a <? key b) l).
Proof.
  assert (∀ a b, not_above (λ a b, key a <? key b) a b ↔ key a ≤ key b) as Hle
    by (intros a b; unfold not_above; rewrite Z.ltb_ge; done).
  assert (Total (not_above (λ a b, key a <? key b))) by (intros a b; rewrite !Hle; lia).
  assert (Transitive (not_above (λ a b, key a <? key b))) by (intros a b c; rewrite !Hle; apply Z.le_trans).
  pose proof (StronglySorted_merge_sort (not_above (λ a b, key a <? key b)) l) as Hs.
  unfold demo_sort. induction Hs as [|a l' _ IH Ha]; constructor; [done|].
  eapply Forall_impl; [exact Ha|]. intros b. apply Hle.
Qed.

#[local] Instance demo_rpc_lib : RpcLib := {|
  ToUint64 := λ id, 0;
  sort_Slice := @demo_sort;
  sort_Slice_perm := λ A less l, merge_sort_Permutation (not_above less) l;
  sort_Slice_sorted := @demo_sort_sorted;
  Sprintf := λ s, s;
  Sprintf_plain := λ s _, eq_refl;
|}.

#[local] Instance demo_lnd_lib : LndLib.
Proof.
  refine {| NewShortChanIDFromInt := λ z, mkScid z 1 0; NewVertexFromStr := Ok; BlockPadding := 3 |}. lia.
Defined.
#[local] Existing Instances demo_node.
#[local] Instance demo_env_instance : Env := demo.

Definition demo_lnd_reply (t : Trace answer) (q : Call) : answer q :=
  match q with
  | ListChannels _ => Ok [mkChannel 100 true "02" 2000000 2000000 0 0]
  | GetInfo => Ok "me"
  | LndListPeers => Ok ["03"; "02"]
  | Ping => (true, None)
  | GetAddress => Ok "address"
  | GetBalance => Ok 0
  | SendToAddress _ _ => Ok "txid"
  | Wakeups _ => exist _ [] (List.Forall_nil _)
  | Interrupt => ()
  | ListFunds => Ok [mkFunding "02" "100x1x0" 4000000000 0 true "CHANNELD_NORMAL"]
  | ListNodes => Ok [mkNode "02" None]
  | ListChannelsBySource _ => Ok ["100x1x0"]
  | GetPeer _ => Ok true
  end.
#[local] Instance demo_lnd : Oracle answer := demo_lnd_reply.

Definition demo_server : PeerswapServer :=
  mkServer stored_world NewSwapService (Some ([], demo_sync)) true.

Definition stored_swaps : gmap string StoredSwap := default ∅ (swaps stored_world).
Lemma stored_swaps_eq : swaps (srv_world demo_server) = Some stored_swaps.
Proof.
  assert (is_Some (swaps stored_world)) as [m Hm] by by_eval.
  change (swaps stored_world = Some stored_swaps). unfold stored_swaps. by rewrite Hm.
Qed.
Lemma stored_swaps_small : Z.of_nat (size stored_swaps) < 2 ^ 62.
Proof. by_eval. Qed.

Example list_swaps_pages_witness : ∃ t' s' ps l,
  list_all (S (size stored_swaps)) 1 true "" ([], demo_server) = Ret (t', s') (Some ps) ∧
  concat ps = PrettyprintFromServiceSwap <$> l ∧ l ≡ₚ from_stored <$> for_each stored_swaps.
Proof.
  destruct (list_swaps_pages stored_swaps 1 true [] demo_server) as (t' & s' & ps & l & H1 & H2 & H3 & _);
    [done|exact stored_swaps_eq|exact stored_swaps_small|].
  exists t', s', ps, l. by split_and!.
Defined.

Example list_peers_exact_witness : ∃ t' s' r,
  PeerswapServer.ListPeers (mkListRequest 0 "" false) ([], demo_server) = Ret (t', s') r ∧
  peers_answer demo_sync (from_stored <$> for_each stored_swaps) r t'.
Proof.
  apply (list_peers_exact stored_swaps [] demo_sync); [done|exact stored_swaps_eq|done|exact demo_sync_ok|].
  intros t ids [= <-]. by vm_compute.
Defined.

(** The peer is shown, with the channel. *)
Example list_peers_shows :
  match PeerswapServer.ListPeers (mkListRequest 0 "" false) ([], demo_server) with
  | Ret _ (Ok resp) => rpc.peer_NodeId <$> Peers resp
  | _ => []
  end = ["02"].
Proof. by vm_compute. Qed.

Definition rate_7 : rpc.PremiumRate :=
  rpc.mkPremiumRate rpc.AssetType_BTC rpc.OperationType_SWAP_IN 7.
(** The same node serves as the peer, who knows the sender as 04. *)
Lemma demo_works : database_works (OR := demo_node).
Proof. split; done. Defined.
Lemma demo_receptive : receptive "04" (ps_version demo_sync) demo_sync.
Proof. split; [exact demo_sync_ok|by eexists|done|done]. Defined.

(** ** The plugin *)
Definition demo_plugin : Plugin :=
  mkPluginState demo_server true "me"
    (mkShown (ClnConfig.Bitcoin empty_config) (ClnConfig.Liquid empty_config) true "dir" None).

Example plugin_agrees_with_server_witness :
  agrees policy_shown demo_plugin (ClnCommands.AddPeer "02") (PeerswapServer.AddPeer "02") ∧
  agrees eq demo_plugin (ClnCommands.UpdatePremiumRate "02" "lbtc" "swap_out" 5)
    (PeerswapServer.UpdatePremiumRate "02"
       (rpc.mkPremiumRate rpc.AssetType_LBTC rpc.OperationType_SWAP_OUT 5)).
Proof.
  destruct (plugin_agrees_with_server demo_plugin) as (H1 & _ & H2); [done|].
  split; [destruct (H1 "02") as [H _]; exact H|]. destruct (H2 "02" "lbtc" "swap_out" rpc.AssetType_LBTC rpc.OperationType_SWAP_OUT 5) as [H _];
    [by split_and!|exact H].
Defined.

(** The funds show a channel on which nothing is ours, and a swap-out of a million sat
    is started on it. *)
Example swap_out_of_nothing :
  match ClnCommands.SwapOut (mkSwapCommand "100x1x0" 1000000 "btc" 0 true) ([], demo_plugin) with
  | Ret (_, p) _ => size (activeSwaps (srv_swaps (pl_server p)))
  | _ => 0%nat
  end = 1%nat.
Proof. by vm_compute. Qed.

(** A command line whose asset is spelled as in the help. *)
Definition help_context : Context := {|
  cli_Uint64 := λ _, 100; cli_Int64 := λ _, 0; cli_Uint := λ _, 0;
  cli_String := λ f, if bool_decide (f = "asset") then "BTC" else "";
  cli_Bool := λ _, false; GlobalString := λ _, "localhost:42069" |}.
#[local] Instance demo_upper : UpperLib := {| ToUpper := upper_bytes; ToUpper_ascii := λ _ _, eq_refl |}.
Example help_asset_refused_witness :
  wp (serve (Pscli.swapOut help_context)) (λ r '(_, s'), is_ok r = false ∧ s' = demo_server) no_stop
    ([], demo_server).
Proof.
  eapply wp_mono; [apply (proj1 (help_asset_refused help_context [] demo_server) ltac:(by left)
    Pscli.swapOutCommand ltac:(by left))| |done].
  by intros r [t' s'] (Hr & Hs & _).
Defined.
