(* ===== verification/ElementsClient.v ===== *)
(** * The client of elementsd (src/elements/client.go)

    [NewClient] waits until elementsd answers and has verified the chain, and refuses
    a version of elementsd that is too old for Liquid's main chain.  The two loops
    have no bound in the code; [fuel] is the number of rounds of each, and the
    durations of the sleeps are left out. *)

From S2P Require Import Prelude GoLib Oracle PeerCapability ElementsWallet LwkWallet.

Definition liquidMainnetChain : string := "liquidv1".
Definition minLiquidMainnetElementsVersion : Z := 230301.
Definition minLiquidMainnetElementsVersionString : string := "23.3.1".
Definition recommendedLiquidMainnetElementsVersion : string := "23.3.3".
Definition unsupportedLiquidMainnetElementsErrorText : string :=
  "unsupported elementsd version for Liquid mainnet".

Module Elementsd.
Record ChainInfo := mkChainInfo { Chain : string; VerificationProgress : f64 }.
Inductive Call := StartUp (rpcHost : string) (rpcPort : Z) | GetChainInfo | GetNetworkInfo.
(** [GetNetworkInfo]: the number of the version and the name of the release. *)
Definition answer (c : Call) : Type :=
  match c with
  | StartUp _ _ => option error
  | GetChainInfo => result ChainInfo
  | GetNetworkInfo => result (Z * string)
  end.
#[export] Instance Call_eq_dec : EqDecision Call.
Proof. solve_decision. Defined.
End Elementsd.
Import Elementsd.

Definition formatElementsVersion (version : Z) : string :=
  strconv.Itoa (Z.quot version 10000) +:+ "." +:+ strconv.Itoa (Z.rem (Z.quot version 100) 100) +:+ "." +:+
  strconv.Itoa (Z.rem version 100).

Definition validateLiquidMainnetElementsVersion (chain : string) (version : Z) (subversion : string)
    : option error :=
  if bool_decide (chain ≠ liquidMainnetChain) || (minLiquidMainnetElementsVersion <=? version) then None
  else Some (ErrText (unsupportedLiquidMainnetElementsErrorText +:+ ": Liquid mainnet requires elementsd "
    +:+ minLiquidMainnetElementsVersionString +:+ " or newer after ELIP 203; detected version "
    +:+ formatElementsVersion version +:+ " (" +:+ subversion +:+ "). Upgrade to Elements "
    +:+ minLiquidMainnetElementsVersionString +:+ " or newer, preferably "
    +:+ recommendedLiquidMainnetElementsVersion)).

(** elementsd is still starting. *)
Definition warming_up (e : error) : bool := has_prefix "-28" (unicode.TrimSpace (Error e)).
(** [info.VerificationProgress < 1.] *)
Definition syncing (info : ChainInfo) : bool := f64_lt (VerificationProgress info) (f64_of_Z 1).

Section client.
Context {OR : Oracle answer} {S : Type}.
Abbreviation Io := (IO answer S).

Fixpoint connect_loop (fuel : nat) (rpcHost : string) (rpcPort : Z) : Io (option error) :=
  match fuel with
  | O => nofuel
  | Datatypes.S fuel =>
      do? query (StartUp rpcHost rpcPort) else e =>
        (if warming_up e then connect_loop fuel rpcHost rpcPort else mret (Some e)) in
      mret None
  end.

Definition checkLiquidMainnetElementsVersion (chain : string) : Io (option error) :=
  if bool_decide (chain ≠ liquidMainnetChain) then mret None
  else
    let? info := query GetNetworkInfo else e => mret (Some e) in
    mret (validateLiquidMainnetElementsVersion chain (fst info) (snd info)).

Fixpoint sync_loop (fuel : nat) (versionChecked : bool) : Io (option error) :=
  match fuel with
  | O => nofuel
  | Datatypes.S fuel =>
      let? info := query GetChainInfo else e => mret (Some e) in
      do? (if versionChecked then mret None else checkLiquidMainnetElementsVersion (Chain info))
        else e => mret (Some e) in
      if syncing info then sync_loop fuel true else mret None
  end.

(** [None] for a client that is ready. *)
Definition NewClient (fuel : nat) (rpcHost : string) (rpcPort : Z) : Io (option error) :=
  do? connect_loop fuel rpcHost rpcPort else e => mret (Some e) in
  sync_loop fuel false.
End client.

(** ** What the client guarantees *)

(** An answer that makes the client wait and ask again. *)
Definition makes_wait (e : Event answer) : Prop :=
  match e with
  | existT (StartUp _ _) (Some err) => warming_up err = true
  | existT GetChainInfo (Ok info) => syncing info = true
  | _ => False
  end.
#[export] Instance makes_wait_dec e : Decision (makes_wait e).
Proof. destruct e as [[host port| |] a]; [destruct a|destruct a|]; cbn; apply _. Defined.
Definition waits (l : list (Event answer)) : nat := length (filter makes_wait l).

Lemma waits_app l1 l2 : waits (l1 ++ l2) = (waits l1 + waits l2)%nat.
Proof. unfold waits. by rewrite filter_app, length_app. Qed.

(** What is known when the client is ready: elementsd is synchronised, and the release
    it named fits the chain of the first answer. *)
Definition release_fits (chain : string) (l : list (Event answer)) : Prop :=
  chain = liquidMainnetChain →
  ∃ v name, event GetNetworkInfo (Ok (v, name)) ∈ l ∧ minLiquidMainnetElementsVersion ≤ v.
Definition synchronised (l : list (Event answer)) : Prop :=
  ∃ info, event GetChainInfo (Ok info) ∈ l ∧ syncing info = false.
Definition unasked (l : list (Event answer)) : Prop := GetChainInfo ∉ (question <$> l).
Definition client_ready (l : list (Event answer)) : Prop :=
  synchronised l ∧
  ∃ info l1 l2, l = l1 ++ event GetChainInfo (Ok info) :: l2 ∧ unasked l2 ∧
    release_fits (Chain info) l.

Section client.
Context {OR : Oracle answer} {S : Type}.

(** Only [StartUp] is asked while connecting. *)
Lemma connect_loop_spec fuel host port t (s : S) :
  wp (connect_loop fuel host port)
    (λ r '(t', s'), s' = s ∧ ∃ new, t' = new ++ t ∧ unasked new)
    (λ k '(t', s'), k = OutOfFuel ∧ s' = s ∧ ∃ new, t' = new ++ t ∧ waits new = fuel) (t, s).
Proof.
  revert t. induction fuel as [|fuel IH]; intros t; [split_and!; [done|done|]; by exists []|].
  cbn [connect_loop]. do 2 io_step. destruct (reply t (StartUp host port)) as [e|] eqn:Er.
  - destruct (warming_up e) eqn:Ew.
    + eapply wp_mono; [apply IH| |].
      * intros r [t' s'] (-> & new & -> & Hn). split; [done|]. exists (new ++ [event (StartUp host port) (Some e)]).
        rewrite <- (assoc_L (++)). split; [done|]. unfold unasked in *. rewrite fmap_app. by intros [?|?%list_elem_of_singleton]%elem_of_app.
      * intros k [t' s'] (-> & -> & new & -> & Hn). split_and!; [done|done|]. exists (new ++ [event (StartUp host port) (Some e)]).
        rewrite <- (assoc_L (++)). split; [done|]. rewrite waits_app, Hn. unfold waits.
        rewrite filter_cons_True by exact Ew. cbn. lia.
    + apply wp_ret. split; [done|]. exists [event (StartUp host port) (Some e)]. split; [done|].
      by intros ?%list_elem_of_singleton.
  - apply wp_ret. split; [done|]. exists [event (StartUp host port) None]. split; [done|].
    by intros ?%list_elem_of_singleton.
Qed.

Definition checked_with (l : list (Event answer)) (versionChecked : bool) : Prop :=
  if versionChecked
  then ∃ info l1 l2, l = l1 ++ event GetChainInfo (Ok info) :: l2 ∧ unasked l2 ∧
         release_fits (Chain info) l
  else unasked l.

Lemma checked_with_cons e l : checked_with l true → checked_with (e :: l) true.
Proof.
  intros (info & l1 & l2 & -> & Hn & Hfit). exists info, (e :: l1), l2. split; [done|]. split; [done|].
  intros (v & name & Hin & Hv)%Hfit. exists v, name. split; [by right|done].
Qed.

(** Asking for the release on the main chain. *)
Lemma check_version_spec chain t (s : S) :
  wp (checkLiquidMainnetElementsVersion chain)
    (λ r '(t', s'), s' = s ∧ ∃ new, t' = new ++ t ∧ unasked new ∧ waits new = 0%nat ∧
       (r = None → release_fits chain new)) no_stop (t, s).
Proof.
  unfold checkLiquidMainnetElementsVersion. case_bool_decide as Hc.
  - apply wp_ret. split; [done|]. exists []. split_and!; [done|by apply not_elem_of_nil|done|by intros _ ?].
  - do 2 io_step.
    assert (∀ a, unasked [event GetNetworkInfo a]) as Hn
      by (intros a ?%list_elem_of_singleton; done).
    destruct (reply t GetNetworkInfo) as [[v name]|e] eqn:Er; apply wp_ret; (split; [done|]);
      (eexists [_]; split; [done|]; split; [apply Hn|]; split; [done|]); [|done].
    unfold validateLiquidMainnetElementsVersion. rewrite bool_decide_false by (by intros []). cbn [orb fst snd].
    destruct (Z.leb_spec minLiquidMainnetElementsVersion v); [|done]. intros _ _. exists v, name. split; [left|done].
Qed.

Lemma sync_loop_spec fuel checked l0 t (s : S) :
  checked_with l0 checked →
  wp (sync_loop fuel checked)
    (λ r '(t', s'), s' = s ∧ ∃ new, t' = new ++ t ∧ (r = None → client_ready (new ++ l0)))
    (λ k '(t', s'), k = OutOfFuel ∧ s' = s ∧ ∃ new, t' = new ++ t ∧ waits new = fuel) (t, s).
Proof.
  revert checked l0 t. induction fuel as [|fuel IH]; intros checked l0 t Hl0.
  { split_and!; [done|done|]. by exists []. }
  cbn [sync_loop]. do 2 io_step. destruct (reply t GetChainInfo) as [info|e] eqn:Er.
  2: { apply wp_ret. split; [done|]. by exists [event GetChainInfo (Err e)]. }
  set (ask := event GetChainInfo (Ok info)).
  io_step. eapply (wp_mono _ (λ r '(t', s'), s' = s ∧ ∃ new, t' = new ++ ask :: t ∧ waits new = 0%nat ∧
    (r = None → checked_with (new ++ ask :: l0) true))).
  { destruct checked; [apply wp_ret; split; [done|]; exists []; split_and!; [done|done|intros _; by apply checked_with_cons]|].
    eapply wp_mono; [apply check_version_spec| |done]. intros r [t' s'] (-> & new & -> & Hn & Hw & Hfit).
    split; [done|]. exists new. split_and!; [done|done|]. intros Hr. exists info, new, l0.
    split_and!; [done|done|]. intros (v & name & Hin & Hv)%Hfit; [|done]. exists v, name.
    split; [apply elem_of_app; by left|done]. }
  2: done.
  intros [e|] [t' s'] (-> & new & -> & Hw & Hch).
  { apply wp_ret. split; [done|]. exists (new ++ [ask]). by rewrite <- (assoc_L (++)). }
  specialize (Hch eq_refl). destruct (syncing info) eqn:Es.
  - eapply wp_mono; [by apply (IH true (new ++ ask :: l0))| |].
    + intros r [t' s'] (-> & new' & -> & Hr). split; [done|]. exists (new' ++ new ++ [ask]).
      rewrite <- !(assoc_L (++)). by split.
    + intros k [t' s'] (-> & -> & new' & -> & Hr). split_and!; [done|done|]. exists (new' ++ new ++ [ask]).
      rewrite <- !(assoc_L (++)). split; [done|]. rewrite !waits_app, Hr, Hw. unfold waits.
      rewrite filter_cons_True by exact Es. cbn. lia.
  - apply wp_ret. split; [done|]. exists (new ++ [ask]). rewrite <- !(assoc_L (++)). split; [done|]. intros _.
    split; [|exact Hch]. exists info. split; [|done]. apply elem_of_app. right. left.
Qed.

(** A client is handed out only when elementsd is synchronised and, on Liquid's main
    chain, runs at least release 23.3.1; the call always ends with a client or an error
    unless elementsd makes it wait as often as there are rounds, and never panics. *)
Theorem elements_client_ready (fuel : nat) (rpcHost : string) (rpcPort : Z) (t : Trace answer) (s : S) :
  match NewClient fuel rpcHost rpcPort (t, s) with
  | Ret (t', s') r => s' = s ∧ ∃ new, t' = new ++ t ∧ (r = None → client_ready new)
  | NoFuel (t', s') => s' = s ∧ ∃ new, t' = new ++ t ∧ (fuel ≤ waits new)%nat
  | Panic _ => False
  end.
Proof.
  assert (wp (NewClient fuel rpcHost rpcPort)
    (λ r '(t', s'), s' = s ∧ ∃ new, t' = new ++ t ∧ (r = None → client_ready new))
    (λ k '(t', s'), k = OutOfFuel ∧ s' = s ∧ ∃ new, t' = new ++ t ∧ (fuel ≤ waits new)%nat) (t, s)) as H.
  - unfold NewClient. io_step. eapply wp_mono; [apply connect_loop_spec| |].
    + intros [e|] [t' s'] (-> & l0 & -> & Hn); [apply wp_ret; split; [done|]; by exists l0|].
      eapply wp_mono; [by apply (sync_loop_spec fuel false l0)| |].
      * intros r [t' s'] (-> & new & -> & Hr). split; [done|]. exists (new ++ l0). by rewrite <- (assoc_L (++)).
      * intros k [t' s'] (-> & -> & new & -> & <-). split_and!; [done|done|]. exists (new ++ l0).
        rewrite <- (assoc_L (++)), waits_app. split; [done|lia].
    + intros k [t' s'] (-> & -> & new & -> & <-). split_and!; [done|done|]. by exists new.
  - unfold wp in H. destruct (NewClient fuel rpcHost rpcPort (t, s)) as [[t' s'] r|[t' s']|[t' s']].
    + exact H.
    + by destruct H as [[=] _].
    + by destruct H as (_ & -> & ?).
Qed.
End client.
