(* ===== verification/Recovery.v ===== *)
(** * What a restart recovers

    [RecoverSwaps] reads the store and hands the unfinished swaps to [Recover], each
    after [lockSwap].  On a service without active swaps every stored swap whose
    channel no other unfinished stored swap shares is recovered.  A swap that is
    active when the recovery starts keeps a stored swap on its channel from it. *)

From S2P Require Import Prelude GoLib Messages Premium Policy SwapData Timelock Env Store.
From S2P Require Import Actions ActionProofs Fsm FsmProofs Service ServiceProofs Version.

(** The service after the recovery of [sm], which left the machine [sm2]. *)
Definition after_recovery (sm : SwapStateMachine) (s : SwapService) (sm2 : SwapStateMachine)
    (r : bool * option error) : SwapService :=
  let id := SwapId_String (sm_SwapId sm) in
  let filed := s <| activeSwaps := <[id := sm2]> (<[id := sm]> (activeSwaps s)) |> in
  match r with
  | (true, None) => mkService (delete id (activeSwaps filed)) (delete id (lastMsgLog filed))
  | _ => filed
  end.

(** In the recovery of the swaps [l] that leads from one state to the other, [sm] is
    recovered: it is the turn of [sm], after the swaps before it and before the others. *)
Definition recovers `{!Env} (sm : SwapStateMachine) (l : list SwapStateMachine)
    (w : World) (s : SwapService) (w' : World) (s' : SwapService) : Prop :=
  ∃ l1 l2 w1 s1 w2 sm2 r, l = l1 ++ sm :: l2 ∧
    recover_all l1 (w, s) = Ret (w1, s1) () ∧
    Recover (w1, sm) = Ret (w2, sm2) r ∧
    recover_all l2 (w2, after_recovery sm s1 sm2 r) = Ret (w', s') ().

(** No other unfinished swap of the list has this channel. *)
Definition alone (sm : SwapStateMachine) (l : list SwapStateMachine) : Prop :=
  ∀ sm', sm' ∈ l → IsFinished sm' = false → scid_of sm' = scid_of sm → sm' = sm.

(** A list is cut at its first element with a property. *)
Lemma first_split {A} (P : A → Prop) `{∀ x, Decision (P x)} (l : list A) x :
  x ∈ l → P x → ∃ l1 y l2, l = l1 ++ y :: l2 ∧ P y ∧ ∀ z, z ∈ l1 → ¬ P z.
Proof.
  induction l as [|y l IH]; [by intros ?%elem_of_nil|]. intros Hin HP. destruct (decide (P y)) as [Hy|Hy].
  - exists [], y, l. split; [done|]. split; [done|]. by intros z ?%elem_of_nil.
  - apply elem_of_cons in Hin as [<-|Hin]; [done|]. destruct (IH Hin HP) as (l1 & z & l2 & -> & Hz & Hl1).
    exists (y :: l1), z, l2. split; [done|]. split; [done|]. intros z' [->|?]%elem_of_cons; auto.
Qed.

Section recovery.
Context {EV : Env}.

Lemma recover_swap_run sm w s w' s' :
  IsFinished sm = false → recover_swap sm (w, s) = Ret (w', s') () →
  match active_on (scid_of sm) (activeSwaps s) with
  | Some _ => w' = w ∧ s' = s
  | None => ∃ sm2 r, Recover (w, sm) = Ret (w', sm2) r ∧ s' = after_recovery sm s sm2 r
  end.
Proof.
  intros Hf. unfold recover_swap. rewrite Hf. unfold lockSwap, scid_of, on_machine, zoom.
  unfold mbind, M_bind. cbn. unfold mbind, M_bind. cbn.
  destruct (active_on (GetScid (sm_Data sm)) (activeSwaps s)) as [k|]; cbn; [by intros [= <- <-]|].
  destruct (Recover (w, sm)) as [[w2 sm2] [fin err]|[? ?]|[? ?]]; cbn; [|done..].
  destruct err as [e|]; cbn; [intros [= <- <-]; exists sm2, (fin, Some e); split; [done|by destruct fin]|].
  unfold remove_if, RemoveActiveSwap. destruct fin; cbn; intros [= <- <-];
    [exists sm2, (true, None)|exists sm2, (false, None)]; done.
Qed.

(** The channels of the active swaps satisfy [C]. *)
Definition channels (C : string → Prop) (s : SwapService) : Prop :=
  ∀ key sm', activeSwaps s !! key = Some sm' → C (scid_of sm').

Lemma Recover_scid sm w w2 sm2 r : Recover (w, sm) = Ret (w2, sm2) r → scid_of sm2 = scid_of sm.
Proof.
  intros E. pose proof (Recover_keeps (K := requests_kept) sm w sm (mrel_refl _)) as H.
  unfold wp in H. rewrite E in H. destruct H as [_ _ H1 H2].
  unfold scid_of, GetScid. cbn in *. by rewrite H1, H2.
Qed.

Lemma after_recovery_channels C sm s sm2 r :
  C (scid_of sm2) → channels C s → channels C (after_recovery sm s sm2 r).
Proof.
  intros HC Hs. set (id := SwapId_String (sm_SwapId sm)).
  assert (∀ k x, <[id := sm2]> (<[id := sm]> (activeSwaps s)) !! k = Some x → C (scid_of x)) as Hm.
  { intros k x [[_ <-]|[Hne [[? _]|[_ ?]]%lookup_insert_Some]]%lookup_insert_Some; [done|done|eauto]. }
  intros key sm' Hk. destruct r as [[] [e|]]; cbn in Hk; [by eapply Hm| |by eapply Hm..].
  apply lookup_delete_Some in Hk as [_ Hk]. by eapply Hm.
Qed.

Lemma recover_all_channels C l w s w' s' :
  recover_all l (w, s) = Ret (w', s') () →
  (∀ sm, sm ∈ l → IsFinished sm = false → C (scid_of sm)) → channels C s → channels C s'.
Proof.
  revert w s. induction l as [|sm l IH]; intros w s; cbn; [by intros [= <- <-]|].
  unfold mbind, M_bind. destruct (recover_swap sm (w, s)) as [[w1 s1] []| |] eqn:E; [|done..].
  intros Hl HC Hs. apply (IH w1 s1); [done|by intros; apply HC; [right|]|].
  destruct (IsFinished sm) eqn:Ef; [unfold recover_swap in E; rewrite Ef in E; by injection E as <- <-|].
  pose proof (recover_swap_run _ _ _ _ _ Ef E) as H.
  destruct (active_on _ _) as [k|]; [by destruct H as [_ ->]|]. destruct H as (sm2 & r & Er & ->).
  apply after_recovery_channels; [|done]. rewrite (Recover_scid _ _ _ _ _ Er). by apply HC; [left|].
Qed.

Lemma recover_all_app l1 l2 w s w' s' :
  recover_all (l1 ++ l2) (w, s) = Ret (w', s') () →
  ∃ w1 s1, recover_all l1 (w, s) = Ret (w1, s1) () ∧ recover_all l2 (w1, s1) = Ret (w', s') ().
Proof.
  revert w s. induction l1 as [|sm l1 IH]; intros w s; [by exists w, s|].
  cbn. unfold mbind, M_bind. destruct (recover_swap sm (w, s)) as [[w1 s1] []| |]; [apply IH|done..].
Qed.

(** A swap of the list is recovered or left out. *)
Lemma recover_all_elem sm l1 l2 w s w' s' :
  recover_all (l1 ++ sm :: l2) (w, s) = Ret (w', s') () → IsFinished sm = false →
  ∃ w1 s1, recover_all l1 (w, s) = Ret (w1, s1) () ∧
    match active_on (scid_of sm) (activeSwaps s1) with
    | Some _ => recover_all l2 (w1, s1) = Ret (w', s') ()
    | None => ∃ w2 sm2 r, Recover (w1, sm) = Ret (w2, sm2) r ∧
        recover_all l2 (w2, after_recovery sm s1 sm2 r) = Ret (w', s') ()
    end.
Proof.
  intros E Hf. destruct (recover_all_app _ _ _ _ _ _ E) as (w1 & s1 & E1 & E2).
  exists w1, s1. split; [done|]. cbn in E2. unfold mbind, M_bind in E2.
  destruct (recover_swap sm (w1, s1)) as [[w2 s2] []| |] eqn:Er; [|done..].
  pose proof (recover_swap_run _ _ _ _ _ Hf Er) as H.
  destruct (active_on _ _) as [key|]; [by destruct H as [-> ->]|].
  destruct H as (sm2 & r & Hr & ->). by exists w2, sm2, r.
Qed.

(** A recovery recovers every unfinished swap whose channel neither an active swap nor
    another unfinished one has. *)
Lemma recover_all_recovers l w s w' s' sm :
  recover_all l (w, s) = Ret (w', s') () → sm ∈ l → IsFinished sm = false → alone sm l →
  channels (λ c, c ≠ scid_of sm) s → recovers sm l w s w' s'.
Proof.
  intros E Hin Hf Halone Hs.
  destruct (first_split (λ x, IsFinished x = false ∧ scid_of x = scid_of sm) l sm Hin)
    as (l1 & x & l2 & -> & [Hfx Hsx] & Hl1); [done|].
  assert (x = sm) as -> by (apply Halone; [apply elem_of_app; right; left|done|done]).
  destruct (recover_all_elem _ _ _ _ _ _ _ E Hf) as (w1 & s1 & E1 & H).
  assert (channels (λ c, c ≠ scid_of sm) s1) as Hs1.
  { eapply recover_all_channels; [exact E1| |done]. intros sm' Hin' Hf' Hsc. by apply (Hl1 sm'). }
  destruct (active_on _ _) as [key|] eqn:Ea.
  - apply active_on_Some in Ea as (other & Hk & Hsc). by destruct (Hs1 _ _ Hk).
  - destruct H as (w2 & sm2 & r & Hr & H). by exists l1, l2, w1, s1, w2, sm2, r.
Qed.

(** The swaps of a bucket that [RecoverSwaps] walks through. *)
Definition stored_machines (m : gmap string StoredSwap) : list SwapStateMachine := from_stored <$> for_each m.

Lemma RecoverSwaps_reads w s w' s' r :
  RecoverSwaps (w, s) = Ret (w', s') r →
  match r with
  | Some _ => s' = s
  | None => ∃ m, swaps w = Some m ∧
      recover_all (stored_machines m) (record (DbBegin false) w, s) = Ret (w', s') ()
  end.
Proof.
  unfold RecoverSwaps, ListAll, with_bucket. unfold mbind, M_bind. cbn. unfold mbind, M_bind. cbn.
  destruct (ask (hist w) (DbBegin false)) as [e|]; cbn; [by intros [= <- <- <-]|].
  destruct (swaps w) as [m|] eqn:Em; cbn; [|by intros [= <- <- <-]].
  fold (stored_machines m).
  destruct (recover_all _ _) as [[w2 s2] []|[? ?]|[? ?]] eqn:E; cbn; [intros [= <- <- <-]|done..].
  by exists m.
Qed.

(** A swap that is active on the channel when a recovery starts keeps the stored swap of
    the same channel from being recovered: it is passed over. *)
Lemma recovery_passed_over sm w s w' s' :
  IsFinished sm = false → recover_swap sm (w, s) = Ret (w', s') () →
  (∃ key other, activeSwaps s !! key = Some other ∧ scid_of other = scid_of sm) → w' = w ∧ s' = s.
Proof.
  intros Hf E (key & other & Hk & Hs). pose proof (recover_swap_run _ _ _ _ _ Hf E) as H.
  destruct (active_on _ _) eqn:Ea; [done|]. by destruct (active_on_None _ _ Ea _ _ Hk).
Qed.
(** Running on a service without swaps. *)
Lemma RecoverSwaps_recovers (m : gmap string StoredSwap) w s w' s' :
  swaps w = Some m → activeSwaps s = ∅ → RecoverSwaps (w, s) = Ret (w', s') None →
  ∀ id st, m !! id = Some st → IsFinished (from_stored st) = false →
    alone (from_stored st) (stored_machines m) →
    recovers (from_stored st) (stored_machines m) (record (DbBegin false) w) s w' s'.
Proof.
  intros Hm Hs Hrun id st Hid Hf Ha. destruct (RecoverSwaps_reads _ _ _ _ _ Hrun) as (m' & Hm' & Hall).
  rewrite Hm in Hm'. injection Hm' as <-. apply recover_all_recovers; [done| |done|done|].
  - apply list_elem_of_fmap. exists st. split; [done|]. by eapply for_each_elem.
  - intros key sm'. by rewrite Hs, lookup_empty.
Qed.
End recovery.

(** A restart loses no swap: when [RecoverSwaps] returns without an error on a service
    without active swaps, it ran [Recover] on every unfinished swap of the store whose
    channel no other unfinished one has, after the recoveries of the swaps before it in
    the store and before those of the swaps after it.  It returns an error only when the
    store cannot be read, and then it did nothing. *)
Theorem RecoverSwaps_complete {EV : Env} (m : gmap string StoredSwap) w s w' s' r :
  swaps w = Some m → activeSwaps s = ∅ → RecoverSwaps (w, s) = Ret (w', s') r →
  match r with
  | Some _ => s' = s
  | None => ∀ id st, m !! id = Some st → IsFinished (from_stored st) = false →
      alone (from_stored st) (stored_machines m) →
      recovers (from_stored st) (stored_machines m) (record (DbBegin false) w) s w' s'
  end.
Proof.
  intros Hm Hs E. destruct r as [e|]; [by apply (RecoverSwaps_reads _ _ _ _ _ E)|].
  intros id st. by eapply RecoverSwaps_recovers.
Qed.
