(* ===== verification/Startup.v ===== *)
(** * Starting the daemon: what both programs share

    The main functions of peerswapd (src/cmd/peerswaplnd/peerswapd/main.go) and of the
    plugin (src/cmd/peerswap-plugin/main.go) connect the components: wallets and
    watchers of the enabled chains, the stores, the swap service, its upgrade and
    recovery, the peer sync.  [Daemon] holds what exists so far; the databases and the
    policy file are in the world, and survive a restart.

    The components run as they are modelled: the configuration, the client and the
    wallet of elementsd, the wallet kit, the fee estimator, the upgrade, the swap
    service and its recovery.  A component with questions of its own runs by [via].
    While the program starts, and after that, requests and events arrive for the swap
    service ([arrivals]); which of them reach it depends on what is connected.  When [run]
    returns, its deferred calls stop the peer sync and close its store ([stop_sync]); the
    plugin lives on after that.  The other deferred calls are peerswapd's, whose process
    ends with its [run].  They, logging, and what the peer sync does in the background,
    which [PeerSync] models, are left out. *)

From Stdlib Require Import SpecFloat.
From S2P Require Import OpeningScript Fees BitcoinOnChain LiquidOnChain LndClient ElementsWallet LwkConfig ClnConfig.
From S2P Require Import LndConfig LwkWallet ElementsClient.
From S2P Require Import Prelude GoLib Messages Premium Policy SwapData Timelock Env Store Oracle.
From S2P Require Import PeerCapability PeerSync Fsm Service ServiceProofs Version.

(** The chains of btcd and of go-elements. *)
Inductive BitcoinNet := MainNetParams | TestNet3Params | TestNet4Params | SigNetParams | RegressionNetParams.
Inductive LiquidNet := Liquid | Testnet | Regtest.
#[export] Instance BitcoinNet_eq_dec : EqDecision BitcoinNet.
Proof. solve_decision. Defined.
Definition ChainName (n : BitcoinNet) : string :=
  match n with
  | MainNetParams => "mainnet" | TestNet3Params => "testnet3" | TestNet4Params => "testnet4"
  | SigNetParams => "signet" | RegressionNetParams => "regtest"
  end.

(** What the lightning node says about itself: its key, version, whether it follows the
    chain and the graph, and the networks of its chains. *)
Record NodeInfo := mkNodeInfo {
  IdentityPubkey : string; ni_Version : string; SyncedToChain : bool; SyncedToGraph : bool;
  Networks : list string }.
(** What go-flags makes of a command line and of a file. *)
Inductive Parsed := GoodFlags (cfg : Peerswapd.PeerSwapConfig) | Help | BadFlags (e : error).

Module StartRpc.
Inductive Call :=
  | ParseFlags (cfg : Peerswapd.PeerSwapConfig)
  | FileExists (path : string)
  | ParseFile (cfg : Peerswapd.PeerSwapConfig)
  | ParseLwkSection (path : string)
  | Mkdir (path : string)
  | Connect
  | GetInfo
  | NewTxWatcher (chain : BitcoinNet)
  | BitcoinStartUp (host : string) (port : Z)
  | GetSubversion
  | LiquidStartWatching
  | NewListener (what : string)
  | OpenDb (path : string)
  | AbsPath (path : string)
  | OpenFile (path : string)
  | OpenPeerDb (path : string)
  | StartListening
  | Listen (host : string)
  | RegisterRest (host : string)
  | Arrivals
  | OfPeerswapd (c : Peerswapd.Call)
  | OfConfig (c : ConfigRpc.Call)
  | OfElementsd (c : Elementsd.Call)
  | OfWallet (c : ElementsRpc.Call)
  | OfLwk (c : LwkRpc.Call)
  | OfFees (c : FeeRpc.Call).

Definition answer `{FeeLib} (c : Call) : Type :=
  match c with
  | ParseFlags _ => Parsed
  | FileExists _ => bool
  | ParseFile _ => result Peerswapd.PeerSwapConfig
  | ParseLwkSection _ => result (lwk.LwkSection * bool)
  | GetInfo => result NodeInfo
  | GetSubversion | AbsPath _ => result string
  | Mkdir _ | Connect | NewTxWatcher _ | BitcoinStartUp _ _ | LiquidStartWatching | NewListener _
  | OpenDb _ | OpenFile _ | OpenPeerDb _ | StartListening | Listen _ | RegisterRest _ => option error
  | Arrivals => list ServiceOp
  | OfPeerswapd c => Peerswapd.answer c
  | OfConfig c => ConfigRpc.answer c
  | OfElementsd c => Elementsd.answer c
  | OfWallet c => ElementsRpc.answer c
  | OfLwk c => LwkRpc.answer c
  | OfFees c => FeeRpc.answer c
  end.

Section relays.
Context {FL : FeeLib}.
Definition peerswapd_relay : Relay Peerswapd.answer answer := 
  {| to := OfPeerswapd; up := λ _ a, a; down := λ _ a, a; down_up := λ _ _, eq_refl |}.
Definition config_relay : Relay ConfigRpc.answer answer := 
  {| to := OfConfig; up := λ _ a, a; down := λ _ a, a; down_up := λ _ _, eq_refl |}.
Definition elementsd_relay : Relay Elementsd.answer answer := 
  {| to := OfElementsd; up := λ _ a, a; down := λ _ a, a; down_up := λ _ _, eq_refl |}.
Definition wallet_relay : Relay ElementsRpc.answer answer := 
  {| to := OfWallet; up := λ _ a, a; down := λ _ a, a; down_up := λ _ _, eq_refl |}.
Definition lwk_relay : Relay LwkRpc.answer answer := 
  {| to := OfLwk; up := λ _ a, a; down := λ _ a, a; down_up := λ _ _, eq_refl |}.
Definition fees_relay : Relay FeeRpc.answer answer := 
  {| to := OfFees; up := λ _ a, a; down := λ _ a, a; down_up := λ _ _, eq_refl |}.
End relays.
End StartRpc.
Import StartRpc.

(** ** The daemon *)
Inductive LiquidWallet := ElementsWallet_ (chain : LiquidNet) | LwkWallet_ (chain : LiquidNet).
(** The service with the chains it was made for. *)
Record Running := mkRunning {
  on_bitcoin_chain : bool; on_liquid_chain : bool; swap_service : SwapService }.
Record Daemon := mkDaemon {
  d_world : World;
  d_version : VersionBucket;
  d_peers : option (gmap string peerRecord);
  d_assets : list string;
  d_bitcoin : option (BitcoinNet * Z);          (* chain and fee floor *)
  d_liquid : option LiquidWallet;
  d_service : option Running;
  d_sync : option PeerSync;
  d_peer_store : bool;                          (* the store of the peer sync is open *)
  d_syncing : bool;                             (* the peer sync runs: it polls and handles polls *)
  d_messages : bool;                            (* messages of peers reach the service *)
  d_polls : bool;                               (* a peer that connects is polled *)
  d_requests : bool;                            (* requests of the user reach the service *)
}.
#[export] Instance eta_running : Eta Running := λ r,
  mkRunning (on_bitcoin_chain r) (on_liquid_chain r) (swap_service r).
#[export] Instance eta_daemon : Eta Daemon := λ d,
  mkDaemon (d_world d) (d_version d) (d_peers d) (d_assets d) (d_bitcoin d) (d_liquid d) (d_service d)
    (d_sync d) (d_peer_store d) (d_syncing d) (d_messages d) (d_polls d) (d_requests d).

(** Before the program starts: what is on the disk. *)
Definition stopped (w : World) (v : VersionBucket) (peers : option (gmap string peerRecord)) : Daemon :=
  mkDaemon w v peers [] None None None None false false false false false.

(** How a program ends: by [os.Exit(1)], or [run] returns. *)
Inductive Outcome := Exit | Returned (err : option error).

Section startup.
Context {FL : FeeLib}.
(** The world a service for these chains asks. *)
Context (EV : bool → bool → Env).
Context {OR : Oracle answer}.
Abbreviation Io := (IO answer Daemon).

(** A component that keeps no state of the daemon. *)
Definition apart {A} (m : IO answer () A) : Io A := focus (λ _, ()) (λ _ d, d) m.

(** ** The swap service *)
Definition on_running {A} (m : ∀ E : Env, Svc (VersionBucket * SwapService) A) : Io A := λ '(t, d),
  match d_service d with
  | None => Panic (t, d)
  | Some r =>
      let put w v s := d <| d_world := w |> <| d_version := v |> <| d_service := Some (r <| swap_service := s |>) |> in
      match m (EV (on_bitcoin_chain r) (on_liquid_chain r)) (d_world d, (d_version d, swap_service r)) with
      | Ret (w, (v, s)) a => Ret (t, put w v s) a
      | Panic (w, (v, s)) => Panic (t, put w v s)
      | NoFuel (w, (v, s)) => NoFuel (t, put w v s)
      end
  end.
Definition on_swaps {A} (m : ∀ E : Env, Svc SwapService A) : Io A :=
  on_running (λ E, zoom snd (λ s '(v, _), (v, s)) (m E)).

(** Which requests and events reach the service.  [OpRecover] is no event: the program
    calls it. *)
Definition reaches (d : Daemon) (op : ServiceOp) : bool :=
  bool_decide (is_Some (d_service d)) &&
  match op with
  | OpMessage _ _ _ => d_messages d
  | OpSwapOut _ _ _ _ _ _ | OpSwapIn _ _ _ _ _ _ | OpResend _ => d_requests d
  | OpRecover => false
  | _ => true
  end.
Fixpoint handle (ops : list ServiceOp) : Io () :=
  match ops with
  | [] => mret ()
  | op :: ops =>
      d ← look;
      (if reaches d op then on_swaps (λ E, run_op op) else mret ());;
      handle ops
  end.
Definition arrivals : Io () := ops ← query Arrivals; handle ops.

(** ** Stores *)
Definition NewBboltStore `{Env} {D} : Svc D (option error) :=
  do? call (DbBegin true) else e => mret (Some e) in
  do? call (DbPut "swaps") else e => mret (Some e) in
  do? call DbCommit else e => mret (Some e) in
  setw (λ w, w <| swaps := Some (default ∅ (swaps w)) |>);; mret None.
(** The bucket of the requested swaps is always there in the model. *)
Definition NewRequestedSwapsStore `{Env} {D} : Svc D (option error) :=
  do? call (DbBegin true) else e => mret (Some e) in
  do? call (DbPut "requested-swaps") else e => mret (Some e) in
  call DbCommit.
Definition NewSetting `{Env} {D} : Svc D (option error) :=
  do? call (DbBegin true) else e => mret (Some e) in
  do? call (DbPut "premium") else e => mret (Some e) in
  do? call DbCommit else e => mret (Some e) in
  setw (λ w, w <| rates := Some (default ∅ (rates w)) |>);; mret None.

(** [policy.CreateFromFile]; [Mkdir] makes the directory of the file. *)
Definition CreateFromFile (ini_parse : Policy → string → result Policy) (path_ : string)
    : Io (result Policy) :=
  if bool_decide (path_ = "") then mret (Ok DefaultPolicy) else
  let? policyPath := query (AbsPath path_) else e => mret (Err e) in
  do? query (Mkdir policyPath) else e => mret (Err (ErrCreatePolicy (Error e))) in
  do? query (OpenFile policyPath) else e => mret (Err (ErrCreatePolicy (Error e))) in
  d ← look;
  match create (fileIO_ok ini_parse) (file (policy (d_world d))) with
  | Err e => mret (Err e)
  | Ok p =>
      do? query (OpenFile policyPath) else e => mret (Err (ErrCreatePolicy (Error e))) in
      mret (Ok (p <| path := policyPath |>))
  end.

(** [peersync.NewStore]. *)
Definition NewPeerStore (path_ : string) : Io (option error) :=
  do? query (OpenPeerDb path_) else e => mret (Some e) in
  update (λ d, d <| d_peers := Some (default ∅ (d_peers d)) |> <| d_peer_store := true |>);; mret None.
(** [peersync.NewPeerSync] over the policy and the premium rates of the world, and its
    supervisor, which runs it. *)
Definition start_peer_sync : Io () :=
  update (λ d, d <| d_sync := Some (NewPeerSync (d_peers d) (Some (conf (policy (d_world d))))
                                     (d_assets d) (Some (rates (d_world d)))) |>
                    <| d_syncing := true |>).
(** The deferred calls of [run], the last one first: the supervisor is cancelled and
    awaited, the store is closed.  When the key of the node is no peer id, only the store
    is there to close. *)
Definition close_peer_store : Io () := update (λ d, d <| d_peer_store := false |>).
Definition stop_sync : Io () := update (λ d, d <| d_syncing := false |>);; close_peer_store.

(** ** Liquid *)
Definition getLiquidChain : Io (result LiquidNet) :=
  let? bi := query (OfElementsd Elementsd.GetChainInfo) else e => mret (Err e) in
  let chain := Elementsd.Chain bi in
  mret (Ok (if bool_decide (chain = "liquidv1") then Liquid
            else if bool_decide (chain = "liquidregtest") then Regtest else Testnet)).
Definition GetChain (c : lwk.Conf) : LiquidNet :=
  match lwk.network c with
  | lwk.NetworkMainnet => Liquid
  | lwk.NetworkRegtest => Regtest
  | _ => Testnet
  end.

Context {SR : ScriptRules} {CL : ChainLib} {EL : ElementsLib} {EJ : ErrorJson} (exampleTransaction : string).
(** [elements.NewClient], [wallet.NewRpcWallet] and the chain. *)
Definition connect_elements (fuel : nat) (rpcHost : string) (rpcPort : Z) (walletName : string)
    : Io (option error) :=
  do? apart (via (RL := elementsd_relay) (λ O, ElementsClient.NewClient fuel rpcHost rpcPort))
    else e => mret (Some e) in
  do? apart (via (RL := wallet_relay) (λ O, setupWallet walletName exampleTransaction)) else e => mret (Some e) in
  let? liquidChain := getLiquidChain else e => mret (Some e) in
  update (λ d, d <| d_liquid := Some (ElementsWallet_ liquidChain) |> <| d_assets := d_assets d ++ ["lbtc"] |>);;
  mret None.
Definition connect_lwk (conf : lwk.Conf) : Io (option error) :=
  do? apart (via (RL := lwk_relay) (λ O, NewLWKRpcWallet conf)) else e => mret (Some e) in
  update (λ d, d <| d_liquid := Some (LwkWallet_ (GetChain conf)) |> <| d_assets := d_assets d ++ ["lbtc"] |>);;
  mret None.

(** ** The network of the lightning node *)
Definition unknown_network : error := ErrText "unknown bitcoin network".
(** The names both programs know; peerswapd knows "mainnet" too. *)
Definition net_of (name : string) : option BitcoinNet :=
  if bool_decide (name = "regtest") then Some RegressionNetParams
  else if bool_decide (name = "testnet") then Some TestNet3Params
  else if bool_decide (name = "testnet4") then Some TestNet4Params
  else if bool_decide (name = "signet") then Some SigNetParams
  else if bool_decide (name = "bitcoin") then Some MainNetParams
  else None.

(** [swap.NewSwapServices], [NewSwapService] *)
Definition new_service (bitcoinEnabled liquidEnabled : bool) : Io () :=
  update (λ d, d <| d_service := Some (mkRunning bitcoinEnabled liquidEnabled NewSwapService) |>).
(** [swapService.Start] only registers callbacks; it panics without the watcher of an
    enabled chain. *)
Definition service_Start : Io () :=
  d ← look;
  match d_service d with
  | Some r =>
      if (on_liquid_chain r && bool_decide (d_liquid d = None)) ||
         (on_bitcoin_chain r && bool_decide (d_bitcoin d = None)) then panic else mret ()
  | None => panic
  end.

(** The stores of the swap service. *)
Definition open_stores (bitcoinEnabled liquidEnabled : bool) : Io (option error) :=
  new_service bitcoinEnabled liquidEnabled;;
  do? on_running (λ E, NewBboltStore) else e => mret (Some e) in
  do? on_running (λ E, NewRequestedSwapsStore) else e => mret (Some e) in
  on_running (λ E, NewSetting).
(** The database, the policy and the stores, as both programs open them. *)
Definition open_databases (ini_parse : Policy → string → result Policy) (dbPath policyPath : string)
    (bitcoinEnabled liquidEnabled : bool) : Io (option error) :=
  do? query (OpenDb dbPath) else e => mret (Some e) in
  let? pol := CreateFromFile ini_parse policyPath else e => mret (Some e) in
  update (λ d, d <| d_world := d_world d <| policy := policy (d_world d) <| conf := pol |> |> |>);;
  open_stores bitcoinEnabled liquidEnabled.
(** The watcher of Liquid starts; when it cannot, the program exits.  The watcher over a
    node's rpc starts its goroutines only.  Then the service starts. *)
Definition start_watching : Io (option Outcome) :=
  d ← look;
  do? (if bool_decide (d_liquid d = None) then mret None else query LiquidStartWatching)
    else e => mret (Some Exit) in
  service_Start;; mret None.

(** The upgrade, with what arrives meanwhile, and the recovery. *)
Definition upgrade : Io (option error) :=
  arrivals;;
  do? on_running (λ E, NewVersionStore) else e => mret (Some e) in
  do? on_running (λ E, SafeUpgrade HasActiveSwaps) else e => mret (Some e) in
  arrivals;; mret None.
Definition recover : Io (option error) := on_swaps (λ E, RecoverSwaps).
End startup.
