(* ===== verification/PeerswapdStart.v ===== *)
(** * Starting peerswapd (src/cmd/peerswaplnd/peerswapd/main.go)

    [start] is [run] up to the point where it waits for the signal to stop, and the
    answer [None] is that point; [run] goes on to handle what arrives.  The flag
    parsers of go-flags and [strconv.ParseFloat] are given. *)

From Stdlib Require Import SpecFloat.
From S2P Require Import OpeningScript Fees BitcoinOnChain LiquidOnChain LndClient ElementsWallet.
From S2P Require Import LwkConfig ClnConfig LndConfig LwkWallet ElementsClient.
From S2P Require Import Prelude GoLib Messages Premium Policy SwapData Timelock Env Store Oracle.
From S2P Require Import PeerCapability PeerSync Fsm Service ServiceProofs Version Startup.
Import StartRpc.
#[local] Existing Instance Peerswapd.eta_peerswap.

(** 14.1 *)
Definition minLndVersion : f64 := f64_div (f64_of_Z 141) (f64_of_Z 10).

Module PeerswapdMain.
Section main.
Context {FL : FeeLib} {SR : ScriptRules} {CL : ChainLib} {EL : ElementsLib} {EJ : ErrorJson} {UL : UrlLib}.
Context (EV : bool → bool → Env) {OR : Oracle answer}.
Context (exampleTransaction : string) (ini_parse : Policy → string → result Policy)
  (ParseFloat : string → result f64) (DefaultDatadir defaultLndDir : string).
Abbreviation Io := (IO answer Daemon).

(** [splitString[0][2:]] of a shorter string panics. *)
Definition checkLndVersion (fullVersionString : string) : Io (option error) :=
  let first := default "" (head (strings.Split fullVersionString "-")) in
  if (String.length first <? 2)%nat then panic
  else
    match ParseFloat (String.substring 2 (String.length first - 2) first) with
    | Err e => mret (Some e)
    | Ok versionFloat =>
        mret (if f64_lt versionFloat minLndVersion
              then Some (ErrText "Lnd version unsupported, requires 14.1") else None)
    end.

Fixpoint waitForLndSynced (fuel : nat) : Io (option error) :=
  match fuel with
  | O => nofuel
  | S fuel =>
      let? info := query GetInfo else e => mret (Some e) in
      if SyncedToChain info then mret None else waitForLndSynced fuel
  end.

(** The network of the first chain; without chains the index panics. *)
Definition getBitcoinChain : Io (result BitcoinNet) :=
  let? gi := query GetInfo else e => mret (Err e) in
  name ← deref (head (Networks gi));
  mret (match net_of name with
        | Some n => Ok n
        | None => if bool_decide (name = "mainnet") then Ok MainNetParams else Err unknown_network
        end).

(** The command line, the file, the command line again, the directory and the section
    of the wallet kit. *)
Definition loadConfig : Io (Parsed) :=
  let file cfg := exists_ ← query (FileExists (Peerswapd.ConfigFile cfg));
    if exists_ : bool then query (ParseFile cfg) else mret (Ok cfg) in
  parsed ← query (ParseFlags (Peerswapd.DefaultConfig DefaultDatadir defaultLndDir));
  match parsed with
  | GoodFlags cfg =>
      let? cfg := file cfg else e => mret (BadFlags e) in
      parsed ← query (ParseFlags cfg);
      match parsed with
      | GoodFlags cfg =>
          do? query (Mkdir (Peerswapd.DataDir cfg)) else e => mret (BadFlags e) in
          let? section := query (ParseLwkSection (Peerswapd.ConfigFile cfg)) else e => mret (BadFlags e) in
          mret match Peerswapd.LWKFromIniFileConfig (fst section) (snd section) with
               | Ok lc => GoodFlags (cfg <| Peerswapd.LWKConfig := Some lc |>)
               | Err e => BadFlags e
               end
      | p => mret p
      end
  | p => mret p
  end.

(** *** Bitcoin: the watcher, the estimator over lnd, whose start does nothing, and the
    chain service with the old floor. *)
Definition setup_bitcoin (cfg : Peerswapd.PeerSwapConfig) : Io (option error) :=
  if Peerswapd.BitcoinEnabled cfg then
    let? chain := getBitcoinChain else e => mret (Some e) in
    update (λ d, d <| d_assets := d_assets d ++ ["btc"] |>);;
    do? query (NewTxWatcher chain) else e => mret (Some e) in
    update (λ d, d <| d_bitcoin := Some (chain, LegacyFeeFloorSatPerKw) |>);;
    mret None
  else mret None.

(** *** Liquid: a user of elementsd decides for elementsd *)
Definition setup_liquid (fuel : nat) (cfg : Peerswapd.PeerSwapConfig) : Io (option error) :=
  if Peerswapd.LiquidEnabled cfg then
    liquidConfig ← deref (Peerswapd.ElementsConfig cfg);
    if bool_decide (Peerswapd.RpcUser liquidConfig ≠ "") then
      connect_elements exampleTransaction fuel (Peerswapd.RpcHost liquidConfig) (Peerswapd.RpcPort liquidConfig)
        (Peerswapd.RpcWallet liquidConfig)
    else
      lc ← deref (Peerswapd.LWKConfig cfg);
      if lwk.Enabled lc then connect_lwk lc
      else mret (Some (ErrText "Liquid swaps enabled but no config found"))
  else mret None.

(** *** Listeners, stores and the service *)
Fixpoint new_listeners (names : list string) : Io (option error) :=
  match names with
  | [] => mret None
  | name :: names => do? query (NewListener name) else e => mret (Some e) in new_listeners names
  end.
Definition open_all (cfg : Peerswapd.PeerSwapConfig) : Io (option error) :=
  do? new_listeners ["message"; "payment"; "peer"; "client"] else e => mret (Some e) in
  open_databases EV ini_parse (filepath.Join [Peerswapd.DataDir cfg; "swaps"]) (Peerswapd.PolicyFile cfg)
    (Peerswapd.BitcoinEnabled cfg) (Peerswapd.LiquidEnabled cfg).

Definition start_sync (cfg : Peerswapd.PeerSwapConfig) (pubkey : string) : Io (option error) :=
  do? NewPeerStore (filepath.Join [Peerswapd.DataDir cfg; "peersync.db"]) else e => mret (Some e) in
  match NewPeerID pubkey with
  | Err e => close_peer_store;; mret (Some e)
  | Ok nodeID => start_peer_sync;; mret None
  end.
Definition listen : Io (option error) :=
  do? query (NewListener "peer-online") else e => mret (Some e) in
  update (λ d, d <| d_polls := true |>);;
  do? query StartListening else e => mret (Some e) in
  update (λ d, d <| d_messages := true |>);;
  mret None.
Definition serve (cfg : Peerswapd.PeerSwapConfig) : Io (option error) :=
  do? query (Listen (Peerswapd.cfg_Host cfg)) else e => mret (Some e) in
  update (λ d, d <| d_requests := true |>);;
  if bool_decide (Peerswapd.RestHost cfg ≠ "") then query (RegisterRest (Peerswapd.RestHost cfg)) else mret None.

(** What the configuration asks for, once it is loaded: the connection to lnd. *)
Definition connect_lnd (fuel : nat) (cfg : Peerswapd.PeerSwapConfig) : Io (result NodeInfo) :=
  do? query Connect else e => mret (Err e) in
  let? info := query GetInfo else e => mret (Err e) in
  do? checkLndVersion (ni_Version info) else e => mret (Err e) in
  do? waitForLndSynced fuel else e => mret (Err e) in
  mret (Ok info).

Definition start_chains (fuel : nat) (cfg : Peerswapd.PeerSwapConfig) : Io (option Outcome) :=
  let failed e := mret (Some (Returned (Some e))) in
  do? setup_bitcoin cfg else e => failed e in
  do? setup_liquid fuel cfg else e => failed e in
  elements ← deref (Peerswapd.ElementsConfig cfg);
  if negb (Peerswapd.BitcoinEnabled cfg) && negb (Peerswapd.LiquidSwaps elements) then mret (Some Exit)
  else if negb (Peerswapd.BitcoinEnabled cfg) && negb (Peerswapd.LiquidEnabled cfg) then mret (Some Exit)
  else mret None.

Definition start_service (cfg : Peerswapd.PeerSwapConfig) : Io (option Outcome) :=
  let failed e := mret (Some (Returned (Some e))) in
  do? open_all cfg else e => failed e in
  do? start_watching else o => mret (Some o) in
  do? upgrade EV else e => failed e in
  mret None.

(** Up to the recovery.  Printing the configuration moves the policy file. *)
Definition to_recovery (fuel : nat) : Io (Outcome + Peerswapd.PeerSwapConfig * NodeInfo) :=
  let failed e := mret (inl (Returned (Some e))) in
  parsed ← loadConfig;
  match parsed with
  | Help => mret (inl (Returned None))
  | BadFlags e => failed e
  | GoodFlags cfg =>
      let? cfg := apart (via (RL := peerswapd_relay) (λ O, Peerswapd.Validate cfg)) else e => failed e in
      do? query (Mkdir (Peerswapd.DataDir cfg)) else e => failed e in
      let cfg := Peerswapd.dump DefaultDatadir cfg in
      let? info := connect_lnd fuel cfg else e => failed e in
      do? start_chains fuel cfg else o => mret (inl o) in
      do? start_service cfg else o => mret (inl o) in
      mret (inr (cfg, info))
  end.
Definition from_recovery (cfg : Peerswapd.PeerSwapConfig) (info : NodeInfo) : Io (option Outcome) :=
  let failed e := mret (Some (Returned (Some e))) in
  arrivals EV;;
  do? start_sync cfg (IdentityPubkey info) else e => failed e in
  do? listen else e => stop_sync;; failed e in
  do? serve cfg else e => stop_sync;; failed e in
  mret None.

Definition start (fuel : nat) : Io (option Outcome) :=
  r ← to_recovery fuel;
  match r with
  | inl o => mret (Some o)
  | inr (cfg, info) =>
      do? recover EV else e => mret (Some (Returned (Some e))) in
      from_recovery cfg info
  end.

Definition run (fuel : nat) : Io Outcome :=
  do? start fuel else o => mret o in
  arrivals EV;; stop_sync;;
  mret (Returned None).
End main.
End PeerswapdMain.
