(* ===== verification/PluginStart.v ===== *)
(** * Starting the plugin (src/cmd/peerswap-plugin/main.go)

    [start] is [run] up to the point where the plugin is initialized (the answer
    [None]); [outer] logs what [run] returns and stays, so requests and messages go on to
    arrive after a start that failed.  What stops then is the peer sync, by the deferred
    calls of [run].  Version and key of the node come from its
    handshake with the plugin, which happens before.  The panic log of [main] is left
    out. *)

From Stdlib Require Import SpecFloat.
From S2P Require Import OpeningScript Fees BitcoinOnChain LiquidOnChain LndClient ElementsWallet.
From S2P Require Import LwkConfig ClnConfig LndConfig LwkWallet ElementsClient.
From S2P Require Import Prelude GoLib Messages Premium Policy SwapData Timelock Env Store Oracle.
From S2P Require Import PeerCapability PeerSync Fsm Service ServiceProofs Version Startup.
Import StartRpc.

Definition minClnVersion : string := "23.11".

Module PluginMain.
Section main.
Context {FL : FeeLib} {SR : ScriptRules} {CL : ChainLib} {EL : ElementsLib} {EJ : ErrorJson} {UL : UrlLib} {CFL : ConfigLib}.
Context (EV : bool → bool → Env) {OR : Oracle answer}.
Context (exampleTransaction : string) (ini_parse : Policy → string → result Policy)
  (isDev : bool) (nodeVersion nodeId : string).
Abbreviation Io := (IO answer Daemon).

Definition checkClnVersion (network fullVersionString : string) : result bool :=
  if bool_decide (network = "signet") then Ok true
  else CompareVersionStrings fullVersionString minClnVersion.

Fixpoint waitForClnSynced (fuel : nat) : Io (option error) :=
  match fuel with
  | O => nofuel
  | S fuel =>
      let? info := query GetInfo
        else err => mret (Some (ErrWrap ("failed to check sync status: " +:+ Error err) err)) in
      if SyncedToChain info && SyncedToGraph info then mret None else waitForClnSynced fuel
  end.

Definition elementsWanted (cfg : Config) : bool :=
  bool_decide (Liq.RpcUser (ClnConfig.Liquid cfg) ≠ "") && bool_decide (Liq.RpcPassword (ClnConfig.Liquid cfg) ≠ "").

(** The one network of core lightning. *)
Definition network_of (info : NodeInfo) : string := default "" (head (Networks info)).
Definition getBitcoinChain : Io (result BitcoinNet) :=
  let? gi := query GetInfo else e => mret (Err e) in
  mret match net_of (network_of gi) with Some n => Ok n | None => Err unknown_network end.

(** *** Liquid: elementsd with user and password, or the wallet kit.  The answer is
    whether Liquid is enabled. *)
Definition setup_liquid (fuel : nat) (config : Config) : Io (result bool) :=
  let liquid := ClnConfig.Liquid config in
  swaps ← deref (Liq.Swaps liquid);
  if swaps && elementsWanted config then
    do? connect_elements exampleTransaction fuel (Liq.RpcHost liquid) (Liq.RpcPort liquid) (Liq.RpcWallet liquid)
      else e => mret (Err e) in
    mret (Ok true)
  else
    match LWK config with
    | Some lc =>
        if lwk.Enabled lc then do? connect_lwk lc else e => mret (Err e) in mret (Ok true)
        else mret (Ok false)
    | None => mret (Ok false)
    end.

(** *** Bitcoin *)
Definition determineBitcoinFeeFloor : Io Z :=
  let? subversion := query GetSubversion else e => mret LegacyFeeFloorSatPerKw in
  mret (fst (DetermineFeeFloor subversion)).
Definition fees : FeeBackend answer.
Proof.
  refine {| fee_query := λ S c, query (OfFees c); fee_event := λ _, True |}.
  intros S c t s. exists [event (OfFees c) (reply t (OfFees c))], (reply t (OfFees c)).
  split; [done|]. by constructor.
Defined.
(** A nil estimator without an error is started and dereferenced. *)
Definition start_estimator (floor : Z) : Io (option error) :=
  r ← apart (NewGBitcoindEstimator (FB := fees) "ECONOMICAL" 6250 floor);
  match r with
  | (_, Some e) => mret (Some e)
  | (None, None) => panic
  | (Some g, None) => focus (λ _, g) (λ _ d, d) (Fees.Start (FB := fees))
  end.
Definition setup_bitcoin (config : Config) : Io (result bool) :=
  let bitcoin := ClnConfig.Bitcoin config in
  let? chain := getBitcoinChain else e => mret (Err e) in
  do? query (BitcoinStartUp (Btc.RpcHost bitcoin) (Btc.RpcPort bitcoin)) else e => mret (Err e) in
  swaps ← deref (Btc.Swaps bitcoin);
  if swaps : bool then
    update (λ d, d <| d_assets := d_assets d ++ ["btc"] |>);;
    floor ← determineBitcoinFeeFloor;
    do? (if bool_decide (chain = RegressionNetParams) then mret None else start_estimator floor)
      else e => mret (Err e) in
    update (λ d, d <| d_bitcoin := Some (chain, floor) |>);;
    mret (Ok true)
  else mret (Ok false).

Definition start_chains (fuel : nat) (config : Config) : Io (result (bool * bool)) :=
  let? liquidEnabled := setup_liquid fuel config else e => mret (Err e) in
  let? bitcoinEnabled := setup_bitcoin config else e => mret (Err e) in
  bitcoin ← deref (Btc.Swaps (ClnConfig.Bitcoin config));
  liquid ← deref (Liq.Swaps (ClnConfig.Liquid config));
  mret (if negb bitcoin && negb liquid
        then Err (ErrText "Disabling both BTC and L-BTC swaps is invalid.")
        else if negb bitcoinEnabled && negb liquidEnabled
        then Err (ErrText "Bad configuration or daemons are broken.")
        else Ok (bitcoinEnabled, liquidEnabled)).

(** *** Stores and the service; from [Start] on the hook for custom messages, which is
    registered before [run], hands them to the service *)
Definition start_service (config : Config) (bitcoinEnabled liquidEnabled : bool) : Io (option Outcome) :=
  do? open_databases EV ini_parse (DbPath config) (PolicyPath config) bitcoinEnabled liquidEnabled
    else e => mret (Some (Returned (Some e))) in
  do? start_watching else o => mret (Some o) in
  update (λ d, d <| d_messages := true |>);;
  arrivals EV;;
  mret None.

Definition start_sync (config : Config) : Io (option error) :=
  do? NewPeerStore (filepath.Join [PeerswapDir config; "peersync.db"]) else e => mret (Some e) in
  match NewPeerID nodeId with
  | Err e => close_peer_store;; mret (Some e)
  | Ok _ => start_peer_sync;; update (λ d, d <| d_polls := true |>);; mret None
  end.
(** [SetupClients] hands the components to the client, [SetReady] opens its commands. *)
Definition SetReady : Io () := update (λ d, d <| d_requests := true |>).

Definition check_node (fuel : nat) : Io (option error) :=
  let? nodeInfo := query GetInfo else e => mret (Some e) in
  match checkClnVersion (network_of nodeInfo) nodeVersion with
  | Err e => mret (Some e)
  | Ok false => mret (Some (ErrText ("Core-Lightning version " +:+ ni_Version nodeInfo +:+ " is incompatible")))
  | Ok true => waitForClnSynced fuel
  end.

(** Up to the point where the plugin accepts commands. *)
Definition to_ready (fuel : nat) : Io (option Outcome) :=
  let failed e := mret (Some (Returned (Some e))) in
  let? config := apart (via (RL := config_relay) (λ O, GetConfig isDev)) else e => failed e in
  do? check_node fuel else e => failed e in
  let? chains := start_chains fuel config else e => failed e in
  do? start_service config (fst chains) (snd chains) else o => mret (Some o) in
  do? start_sync config else e => failed e in
  SetReady;; mret None.
Definition start (fuel : nat) : Io (option Outcome) :=
  let failed e := mret (Some (Returned (Some e))) in
  do? to_ready fuel else o => mret (Some o) in
  do? upgrade EV else e => stop_sync;; failed e in
  do? recover EV else e => stop_sync;; failed e in
  mret None.

(** [outer]: nothing stops the plugin when [run] returns an error.  A [run] that came up
    waits for the plugin to be stopped. *)
Definition outer (fuel : nat) : Io Outcome :=
  r ← start fuel;
  match r with
  | Some Exit => mret Exit
  | Some (Returned _) => arrivals EV;; mret (Returned None)
  | None => arrivals EV;; stop_sync;; mret (Returned None)
  end.
End main.
End PluginMain.
