(* ===== verification/StartupProofs.v ===== *)
(** * What a start guarantees

    A component leaves the wiring of the daemon alone ([wiring]); while nothing is
    connected ([quiet]) what arrives changes nothing at all.  peerswapd recovers its
    swaps in this state, and what it connects is what the loaded configuration asks for
    ([configured]).  The plugin accepts commands when its components are connected, and
    before the upgrade and the recovery; when one of these fails the commands stay and
    the peer sync stops. *)

From S2P Require Import OpeningScript Fees BitcoinOnChain LiquidOnChain LndClient ElementsWallet.
From S2P Require Import LwkConfig ClnConfig LndConfig LwkWallet ElementsClient.
From S2P Require Import Prelude GoLib Messages Premium Policy SwapData Timelock Env Store Oracle.
From S2P Require Import PeerCapability PeerSync Fsm Service ServiceProofs Version Recovery Startup PeerswapdStart PluginStart.
Import StartRpc.

Lemma wp_any {S A} (m : M S A) (s : S) : wp m (λ _ _, True) any_stop s.
Proof. unfold wp. by destruct (m s). Qed.
(** The run itself, as a fact about what it returns. *)
Lemma wp_run {S A} (m : M S A) (P : A → S → Prop) R (s : S) :
  wp m P R s → wp m (λ a s', m s = Ret s' a ∧ P a s') R s.
Proof. unfold wp. by destruct (m s). Qed.

(** ** Events on a service without swaps *)
Definition is_event (op : ServiceOp) : bool :=
  match op with
  | OpTxConfirmed _ _ _ | OpCsvPassed _ | OpTimeout _ | OpPayment _ _ | OpSenderTxConfirmed _ => true
  | _ => false
  end.
Lemma idle_deliver `{Env} id ev ctx w s :
  activeSwaps s = ∅ → deliver id ev ctx (w, s) = Ret (w, s) (Some ErrSwapDoesNotExist).
Proof. intros Hs. unfold deliver, GetActiveSwap. unfold mbind, M_bind. cbn. by rewrite Hs, lookup_empty. Qed.
Lemma idle_event `{Env} op w s :
  is_event op = true → activeSwaps s = ∅ → run_op op (w, s) = Ret (w, s) ().
Proof.
  intros Hop Hs. destruct op; try done; cbn [run_op].
  1-3, 5: unfold OnTxConfirmed, OnCsvPassed, timeoutCallback, SenderOnTxConfirmed, GetActiveSwap;
    unfold mbind, M_bind; cbn; unfold mbind, M_bind; cbn; by rewrite Hs, lookup_empty.
  unfold OnPayment. destruct (ParseSwapIdFromString swapId) as [id|e]; [|done].
  destruct invoiceType; [| |done]; unfold mbind, M_bind;
    unfold OnFeeInvoiceNotification, OnClaimInvoiceNotification; by rewrite idle_deliver.
Qed.

Section startup.
Context {FL : FeeLib} (EV : bool → bool → Env) {OR : Oracle answer}.
Implicit Types (t : Trace answer) (d : Daemon).

(** ** The wiring *)
Definition chains_of (r : Running) : bool * bool := (on_bitcoin_chain r, on_liquid_chain r).
Definition wiring d := (d_peers d, d_assets d, d_bitcoin d, d_liquid d, chains_of <$> d_service d,
                        d_sync d, (d_messages d, d_polls d, d_requests d, d_peer_store d, d_syncing d)).

Lemma wp_on_running {A} (m : ∀ E : Env, Svc (VersionBucket * SwapService) A) (P : A → Trace answer * Daemon → Prop) R t d r :
  d_service d = Some r →
  wp (m (EV (on_bitcoin_chain r) (on_liquid_chain r)))
    (λ a '(w, (v, s)), P a (t, d <| d_world := w |> <| d_version := v |> <| d_service := Some (r <| swap_service := s |>) |>))
    (λ k '(w, (v, s)), R k (t, d <| d_world := w |> <| d_version := v |> <| d_service := Some (r <| swap_service := s |>) |>))
    (d_world d, (d_version d, swap_service r)) →
  wp (on_running EV m) P R (t, d).
Proof.
  intros Hr. unfold wp, on_running. rewrite Hr.
  by destruct (m _ (d_world d, (d_version d, swap_service r))) as [[? []]|[? []]|[? []]].
Qed.

Lemma on_running_wiring {A} (m : ∀ E : Env, Svc (VersionBucket * SwapService) A) t d :
  wp (on_running EV m) (λ _ '(t', d'), t' = t ∧ wiring d' = wiring d) any_stop (t, d).
Proof.
  destruct (d_service d) as [r|] eqn:Er; [|by unfold wp, on_running; rewrite Er].
  eapply wp_on_running; [done|]. eapply wp_mono; [apply wp_any| |by intros ? [? []]].
  intros a [w [v s]] _. split; [done|]. unfold wiring. cbn. by rewrite Er.
Qed.
Lemma on_swaps_wiring {A} (m : ∀ E : Env, Svc SwapService A) t d :
  wp (on_swaps EV m) (λ _ '(t', d'), t' = t ∧ wiring d' = wiring d ∧ d_version d' = d_version d) any_stop (t, d).
Proof.
  destruct (d_service d) as [r|] eqn:Er; [|by unfold wp, on_swaps, on_running; rewrite Er].
  eapply wp_on_running; [done|]. unfold zoom, wp. cbn.
  destruct (m _ (d_world d, swap_service r)) as [[w s] a|[w s]|[w s]]; [|done..].
  split; [done|]. split; [|done]. unfold wiring. cbn. by rewrite Er.
Qed.

Lemma handle_wiring ops t d :
  wp (handle EV ops) (λ _ '(t', d'), t' = t ∧ wiring d' = wiring d ∧ d_version d' = d_version d) any_stop (t, d).
Proof.
  revert d. induction ops as [|op ops IH]; intros d; [by apply wp_ret|]. cbn [handle].
  do 2 io_step. apply wp_bind. destruct (reaches d op).
  - eapply wp_mono; [apply on_swaps_wiring| |done]. intros _ [t' d'] (-> & Hw & Hv). cbv beta.
    eapply wp_mono; [apply IH| |done]. intros _ [t' d''] (-> & Hw' & Hv'). by rewrite Hw', Hv'.
  - apply wp_ret. apply IH.
Qed.
Lemma arrivals_wiring t d :
  wp (arrivals EV) (λ _ '(t', d'), wiring d' = wiring d ∧ d_version d' = d_version d) any_stop (t, d).
Proof.
  unfold arrivals. do 2 io_step. eapply wp_mono; [apply handle_wiring| |done].
  by intros _ [t' d'] (_ & ? & ?).
Qed.

(** ** Quiet: the service has no swaps, and neither messages nor requests reach it *)
Record quiet d : Prop := {
  quiet_messages : d_messages d = false;
  quiet_requests : d_requests d = false;
  quiet_swaps r : d_service d = Some r → activeSwaps (swap_service r) = ∅;
}.

Lemma quiet_reaches d op : quiet d → reaches d op = true → is_event op = true ∧ is_Some (d_service d).
Proof.
  intros [Hm Hr _] [Hs%bool_decide_eq_true H]%andb_true_iff. split; [|done]. by destruct op; rewrite ?Hm, ?Hr in H.
Qed.
Lemma quiet_event op t d :
  quiet d → reaches d op = true → on_swaps EV (λ E, run_op op) (t, d) = Ret (t, d) ().
Proof.
  intros Hq Hop. destruct (quiet_reaches _ _ Hq Hop) as [Hev [r Hr]].
  pose proof (quiet_swaps _ Hq _ Hr) as Hs. destruct d as [? ? ? ? ? ? sv ? ? ? ? ? ?]. cbn in Hr. subst sv.
  unfold on_swaps, on_running, zoom. cbn. rewrite idle_event by done. cbn. by destruct r.
Qed.
Lemma quiet_handles ops t d : quiet d → handle EV ops (t, d) = Ret (t, d) ().
Proof.
  intros Hq. induction ops as [|op ops IH]; [done|]. cbn [handle]. unfold mbind, M_bind at 1. cbn.
  unfold mbind, M_bind. destruct (reaches d op) eqn:E; [|exact IH]. by rewrite quiet_event.
Qed.
Lemma quiet_arrivals t d : quiet d → ∃ t', arrivals EV (t, d) = Ret (t', d) ().
Proof.
  intros Hq. unfold arrivals. unfold mbind, M_bind. cbn. rewrite quiet_handles by done. by eexists.
Qed.

(** ** Connecting the chains touches nothing else *)
Definition chains_only d d' : Prop :=
  d' = d <| d_assets := d_assets d' |> <| d_bitcoin := d_bitcoin d' |> <| d_liquid := d_liquid d' |>.
Lemma chains_only_refl d : chains_only d d.
Proof. by destruct d. Qed.
Lemma chains_only_trans d1 d2 d3 : chains_only d1 d2 → chains_only d2 d3 → chains_only d1 d3.
Proof. unfold chains_only. intros -> ->. by destruct d3. Qed.

Lemma wp_apart {A} (m : IO answer () A) (P : A → Trace answer * Daemon → Prop) t d :
  (∀ a t', P a (t', d)) → wp (apart m) P any_stop (t, d).
Proof. intros HP. apply wp_focus. eapply wp_mono; [apply wp_any| |by intros ? [? []]]. by intros a [t' []] _. Qed.

Lemma getLiquidChain_keeps (P : result LiquidNet → Trace answer * Daemon → Prop) R t d :
  (∀ r t', P r (t', d)) → wp getLiquidChain P R (t, d).
Proof. intros HP. unfold getLiquidChain. do 2 io_step. destruct (reply t _) as [bi|e]; by apply wp_ret. Qed.

Context {SR : ScriptRules} {CL : ChainLib} {EL : ElementsLib} {EJ : ErrorJson} {UL : UrlLib}.
Context (exampleTransaction : string).

(** A wallet is connected and Liquid is an asset, or nothing changed. *)
Definition liquid_connected (kind : LiquidNet → LiquidWallet) d (r : option error) d' : Prop :=
  match r with
  | None => ∃ chain, d' = d <| d_liquid := Some (kind chain) |> <| d_assets := d_assets d ++ ["lbtc"] |>
  | Some _ => d' = d
  end.
Lemma connect_elements_spec fuel host port name t d :
  wp (connect_elements exampleTransaction fuel host port name)
    (λ r '(t', d'), liquid_connected ElementsWallet_ d r d') any_stop (t, d).
Proof.
  unfold connect_elements. apply wp_bind, wp_apart. intros [e|] t1; [by apply wp_ret|].
  apply wp_bind, wp_apart. intros [e|] t2; [by apply wp_ret|].
  apply wp_bind, getLiquidChain_keeps. intros [chain|e] t3; [|by apply wp_ret].
  do 2 io_step. apply wp_ret. by exists chain.
Qed.
Lemma connect_lwk_spec conf t d :
  wp (connect_lwk conf) (λ r '(t', d'), liquid_connected LwkWallet_ d r d') any_stop (t, d).
Proof.
  unfold connect_lwk. apply wp_bind, wp_apart. intros [e|] t1; [by apply wp_ret|].
  do 2 io_step. apply wp_ret. by exists (GetChain conf).
Qed.

(** ** The stores keep what they hold *)
Lemma NewBboltStore_spec {E : Env} {D} w (x : D) :
  wp NewBboltStore (λ r '(w', x'), x' = x ∧ default ∅ (swaps w') = default ∅ (swaps w) ∧
                                   (r = None → is_Some (swaps w'))) no_stop (w, x).
Proof.
  unfold NewBboltStore. do 2 svc_step. destruct (ask _ (DbBegin true)); [by svc_step|].
  do 2 svc_step. destruct (ask _ (DbPut _)); [by svc_step|]. do 2 svc_step.
  destruct (ask _ DbCommit); [by svc_step|]. do 3 svc_step. cbn. eauto.
Qed.
Lemma NewRequestedSwapsStore_spec {E : Env} {D} w (x : D) :
  wp NewRequestedSwapsStore (λ _ '(w', x'), x' = x ∧ swaps w' = swaps w) no_stop (w, x).
Proof.
  unfold NewRequestedSwapsStore. do 2 svc_step. destruct (ask _ (DbBegin true)); [by svc_step|].
  do 2 svc_step. destruct (ask _ (DbPut _)); [by svc_step|]. by svc_step.
Qed.
Lemma NewSetting_spec {E : Env} {D} w (x : D) :
  wp NewSetting (λ _ '(w', x'), x' = x ∧ swaps w' = swaps w) no_stop (w, x).
Proof.
  unfold NewSetting. do 2 svc_step. destruct (ask _ (DbBegin true)); [by svc_step|].
  do 2 svc_step. destruct (ask _ (DbPut _)); [by svc_step|]. do 2 svc_step.
  destruct (ask _ DbCommit); [by svc_step|]. by do 3 svc_step.
Qed.
Lemma NewVersionStore_spec {E : Env} w v (s : SwapService) :
  wp NewVersionStore (λ _ '(w', (v', s')), s' = s ∧ swaps w' = swaps w) no_stop (w, (v, s)).
Proof.
  unfold NewVersionStore. do 2 svc_step. destruct (ask _ (DbBegin true)); [by svc_step|].
  do 2 svc_step. destruct (ask _ (DbPut _)); [by svc_step|]. do 2 svc_step.
  destruct (ask _ DbCommit); [by svc_step|]. by do 3 svc_step.
Qed.

(** The daemon with a new service and another world. *)
Definition with_service d (bitcoin liquid : bool) w' : Daemon :=
  d <| d_world := w' |> <| d_service := Some (mkRunning bitcoin liquid NewSwapService) |>.
Definition contents d : gmap string StoredSwap := default ∅ (swaps (d_world d)).

Lemma open_stores_spec bitcoin liquid t d :
  wp (open_stores EV bitcoin liquid)
    (λ r '(t', d'), t' = t ∧ ∃ w', d' = with_service d bitcoin liquid w' ∧ contents d' = contents d ∧
       (r = None → is_Some (swaps w'))) any_stop (t, d).
Proof.
  unfold open_stores, new_service. do 3 io_step.
  eapply wp_on_running; [done|]. eapply wp_mono; [apply NewBboltStore_spec| |done].
  intros [e|] [w1 [v1 s1]] ([= -> ->] & H1 & Hs1).
  { apply wp_ret. split; [done|]. exists w1. by destruct d. }
  io_step. eapply wp_on_running; [done|]. eapply wp_mono; [apply NewRequestedSwapsStore_spec| |done].
  intros [e|] [w2 [v2 s2]] ([= -> ->] & H2).
  { apply wp_ret. split; [done|]. exists w2. split; [by destruct d|]. unfold contents. cbn in *. by rewrite H2. }
  eapply wp_on_running; [done|]. eapply wp_mono; [apply NewSetting_spec| |done].
  intros r [w3 [v3 s3]] ([= -> ->] & H3). split; [done|]. exists w3. split; [by destruct d|].
  unfold contents. cbn in *. rewrite H3, H2. auto.
Qed.

Lemma CreateFromFile_keeps ini_parse path_ t d :
  wp (CreateFromFile ini_parse path_) (λ _ '(t', d'), d' = d) any_stop (t, d).
Proof.
  unfold CreateFromFile. case_bool_decide; [by apply wp_ret|].
  do 2 io_step. destruct (reply t _) as [path'|e]; [|by apply wp_ret].
  do 2 io_step. destruct (reply _ (Mkdir _)); [by apply wp_ret|].
  do 2 io_step. destruct (reply _ (OpenFile _)); [by apply wp_ret|].
  do 2 io_step. destruct (create _ _); [|by apply wp_ret].
  do 2 io_step. destruct (reply _ (OpenFile _)); by apply wp_ret.
Qed.

(** ** The upgrade of a quiet daemon *)
Definition upgraded_to d w' v' : Daemon := d <| d_world := w' |> <| d_version := v' |>.
Lemma quiet_upgraded d w' v' : quiet d → quiet (upgraded_to d w' v').
Proof. intros [??]. by split. Qed.

Lemma upgrade_spec t d :
  quiet d → is_Some (d_service d) →
  wp (upgrade EV)
    (λ r '(t', d'), ∃ w' v', d' = upgraded_to d w' v' ∧ swaps w' = swaps (d_world d) ∧
       (r = None → v' = Some (Some version))) any_stop (t, d).
Proof.
  intros Hq [r Hr]. unfold upgrade. apply wp_bind. unfold wp at 1. destruct (quiet_arrivals t d Hq) as [t1 ->].
  pose proof (quiet_swaps _ Hq _ Hr) as Hs. destruct d as [w v p a b l sv sy st ru m po rq]. cbn in Hr. subst sv.
  io_step. eapply wp_on_running; [done|]. eapply wp_mono; [apply NewVersionStore_spec| |done].
  intros [e|] [w1 [v1 s1]] [-> H1]; [apply wp_ret; exists w1, v1; by destruct r|].
  io_step. eapply wp_on_running; [done|]. eapply wp_mono; [apply wp_SafeUpgrade| |by intros ? [? []]].
  intros r' [w2 [v2 s2]] (-> & H2 & Hv). cbn in H1, H2.
  destruct r' as [e|]; [apply wp_ret; exists w2, v2; split; [by destruct r|]; by rewrite H2|].
  destruct Hv as [-> _]. apply wp_bind. unfold wp at 1.
  match goal with |- context [arrivals EV (?t', ?d')] => destruct (quiet_arrivals t' d') as [t2 ->] end.
  - destruct Hq as [Hm Hrq _]. split; [exact Hm|exact Hrq|]. by intros r0 [= <-].
  - apply wp_ret. exists w2, (Some (Some version)). split; [by destruct r|]. by rewrite H2.
Qed.

(** ** peerswapd *)
Context (ini_parse : Policy → string → result Policy)
  (ParseFloat : string → result f64) (DefaultDatadir defaultLndDir : string).
Implicit Types (cfg : Peerswapd.PeerSwapConfig).

(** The wallet the configuration asks for: the user of elementsd decides. *)
Definition chosen_wallet cfg (wallet : LiquidWallet) : Prop :=
  ∃ o, Peerswapd.ElementsConfig cfg = Some o ∧
    if decide (Peerswapd.RpcUser o = "")
    then ∃ lc chain, Peerswapd.LWKConfig cfg = Some lc ∧ lwk.Enabled lc = true ∧ wallet = LwkWallet_ chain
    else ∃ chain, wallet = ElementsWallet_ chain.
(** The chains of the configuration are connected, and they are the assets. *)
Definition lnd_connected cfg d : Prop :=
  d_assets d = (if Peerswapd.BitcoinEnabled cfg then ["btc"] else []) ++
               (if Peerswapd.LiquidEnabled cfg then ["lbtc"] else []) ∧
  (if Peerswapd.BitcoinEnabled cfg then ∃ chain, d_bitcoin d = Some (chain, LegacyFeeFloorSatPerKw)
   else d_bitcoin d = None) ∧
  (if Peerswapd.LiquidEnabled cfg then ∃ wallet, d_liquid d = Some wallet ∧ chosen_wallet cfg wallet
   else d_liquid d = None).

Lemma setup_bitcoin_spec cfg t d :
  wp (PeerswapdMain.setup_bitcoin cfg)
    (λ r '(t', d'), chains_only d d' ∧ d_liquid d' = d_liquid d ∧
       (r = None →
          d_assets d' = d_assets d ++ (if Peerswapd.BitcoinEnabled cfg then ["btc"] else []) ∧
          if Peerswapd.BitcoinEnabled cfg then ∃ chain, d_bitcoin d' = Some (chain, LegacyFeeFloorSatPerKw)
          else d_bitcoin d' = d_bitcoin d)) any_stop (t, d).
Proof.
  unfold PeerswapdMain.setup_bitcoin. destruct (Peerswapd.BitcoinEnabled cfg).
  2: { apply wp_ret. split; [apply chains_only_refl|]. by rewrite app_nil_r. }
  apply wp_bind. unfold PeerswapdMain.getBitcoinChain. do 2 io_step.
  destruct (reply t GetInfo) as [gi|e]; [|by do 2 apply wp_ret; split; [apply chains_only_refl|]].
  apply wp_bind. destruct (head (Networks gi)) as [name|]; [|done]. do 2 apply wp_ret.
  destruct (match net_of name with Some n => _ | None => _ end) as [chain|e];
    [|by apply wp_ret; split; [apply chains_only_refl|]].
  do 4 io_step. destruct (reply _ (NewTxWatcher chain)) as [e|]; [by apply wp_ret; destruct d|].
  do 2 io_step. apply wp_ret. split; [by destruct d|]. split; [done|]. intros _. split; [done|]. by exists chain.
Qed.

Lemma setup_liquid_spec fuel cfg t d :
  wp (PeerswapdMain.setup_liquid exampleTransaction fuel cfg)
    (λ r '(t', d'), chains_only d d' ∧ d_bitcoin d' = d_bitcoin d ∧
       (r = None →
          d_assets d' = d_assets d ++ (if Peerswapd.LiquidEnabled cfg then ["lbtc"] else []) ∧
          if Peerswapd.LiquidEnabled cfg then ∃ wallet, d_liquid d' = Some wallet ∧ chosen_wallet cfg wallet
          else d_liquid d' = d_liquid d)) any_stop (t, d).
Proof.
  unfold PeerswapdMain.setup_liquid. destruct (Peerswapd.LiquidEnabled cfg).
  2: { apply wp_ret. split; [apply chains_only_refl|]. by rewrite app_nil_r. }
  apply wp_bind. destruct (Peerswapd.ElementsConfig cfg) as [o|] eqn:Eo; [|done]. apply wp_ret.
  case_bool_decide as Hu.
  - eapply wp_mono; [apply connect_elements_spec| |done]. intros [e|] [t' d'].
    + intros ->. split; [apply chains_only_refl|done].
    + intros (chain & ->). split; [by destruct d|]. split; [done|]. intros _. split; [done|].
      exists (ElementsWallet_ chain). split; [done|]. exists o. split; [done|].
      destruct (decide _); [done|]. by exists chain.
  - apply wp_bind. destruct (Peerswapd.LWKConfig cfg) as [lc|] eqn:El; [|done]. apply wp_ret.
    destruct (lwk.Enabled lc) eqn:Een; [|by apply wp_ret; split; [apply chains_only_refl|]].
    eapply wp_mono; [apply connect_lwk_spec| |done]. intros [e|] [t' d'].
    + intros ->. split; [apply chains_only_refl|done].
    + intros (chain & ->). split; [by destruct d|]. split; [done|]. intros _. split; [done|].
      exists (LwkWallet_ chain). split; [done|]. exists o. split; [done|].
      destruct (decide _); [|done]. by exists lc, chain.
Qed.

(** A daemon that is quiet and whose store holds what [d0]'s holds. *)
Definition before_recovery d0 d : Prop := quiet d ∧ contents d = contents d0.

Lemma quiet_chains d d' : chains_only d d' → quiet d → quiet d'.
Proof. intros -> [Hm Hr Hs]. by split. Qed.
Lemma contents_chains d d' : chains_only d d' → contents d' = contents d.
Proof. by intros ->. Qed.
Lemma before_chains d0 d d' : chains_only d d' → before_recovery d0 d → before_recovery d0 d'.
Proof. intros H [Hq Hc]. split; [by eapply quiet_chains|]. by rewrite (contents_chains d d'). Qed.

(** Both chains, from a daemon that has none. *)
Lemma start_chains_spec fuel cfg t d :
  d_assets d = [] → d_bitcoin d = None → d_liquid d = None →
  wp (PeerswapdMain.start_chains exampleTransaction fuel cfg)
    (λ r '(t', d'), chains_only d d' ∧
       (r = None → Peerswapd.BitcoinEnabled cfg || Peerswapd.LiquidEnabled cfg = true ∧ lnd_connected cfg d'))
    any_stop (t, d).
Proof.
  intros Ha Hb Hl. unfold PeerswapdMain.start_chains. io_step.
  eapply wp_mono; [apply setup_bitcoin_spec| |done]. intros [e|] [t1 d1] (Hd1 & Hl1 & H1); [by apply wp_ret|].
  destruct (H1 eq_refl) as [Ha1 Hb1]. io_step.
  eapply wp_mono; [apply setup_liquid_spec| |done]. intros [e|] [t2 d2] (Hd2 & Hb2 & H2);
    [apply wp_ret; split; [by eapply chains_only_trans|done]|].
  destruct (H2 eq_refl) as [Ha2 Hl2]. pose proof (chains_only_trans _ _ _ Hd1 Hd2) as Hd.
  apply wp_bind. destruct (Peerswapd.ElementsConfig cfg) as [o|]; [|done]. apply wp_ret.
  destruct (negb (Peerswapd.BitcoinEnabled cfg) && negb (Peerswapd.LiquidSwaps o)); [apply wp_ret; by split|].
  destruct (negb (Peerswapd.BitcoinEnabled cfg) && negb (Peerswapd.LiquidEnabled cfg)) eqn:E; [apply wp_ret; by split|].
  apply wp_ret. split; [done|]. intros _. split.
  { by destruct (Peerswapd.BitcoinEnabled cfg), (Peerswapd.LiquidEnabled cfg). }
  unfold lnd_connected. rewrite Ha2, Ha1, Ha, Hb2. split; [done|]. split.
  - destruct (Peerswapd.BitcoinEnabled cfg); [done|]. by rewrite Hb1.
  - destruct (Peerswapd.LiquidEnabled cfg); [done|]. by rewrite Hl2, Hl1.
Qed.

Lemma connect_lnd_keeps fuel cfg t d :
  wp (PeerswapdMain.connect_lnd ParseFloat fuel cfg) (λ _ '(t', d'), d' = d) any_stop (t, d).
Proof.
  unfold PeerswapdMain.connect_lnd. do 2 io_step. destruct (reply t Connect); [by apply wp_ret|].
  do 2 io_step. destruct (reply _ GetInfo) as [info|e]; [|by apply wp_ret]. apply wp_bind.
  eapply (wp_mono _ (λ _ '(t', d'), d' = d) _ any_stop); [| |done].
  { unfold PeerswapdMain.checkLndVersion. destruct (_ <? 2)%nat; [done|]. destruct (ParseFloat _); by apply wp_ret. }
  intros [e|] [t1 d1] ->; [by apply wp_ret|]. apply wp_bind. clear.
  eapply (wp_mono _ (λ _ '(t', d'), d' = d) _ any_stop); [| |done].
  - revert t1. induction fuel as [|fuel IH]; intros t; [done|]. cbn. do 2 io_step.
    destruct (reply t GetInfo) as [i|e]; [|by apply wp_ret]. destruct (SyncedToChain i); [by apply wp_ret|apply IH].
  - intros [e|] [t2 d2] ->; by apply wp_ret.
Qed.

(** The stores and the upgrade, from a quiet daemon without a service. *)
Definition ready_to_recover (bitcoin liquid : bool) d : Prop :=
  (∃ s, d_service d = Some (mkRunning bitcoin liquid s)) ∧ is_Some (swaps (d_world d)) ∧
  d_version d = Some (Some version).

Lemma new_listeners_keeps names t d :
  wp (PeerswapdMain.new_listeners names) (λ _ '(t', d'), d' = d) any_stop (t, d).
Proof.
  revert t. induction names as [|name names IH]; intros t; [by apply wp_ret|]. cbn. do 2 io_step.
  destruct (reply t _); [by apply wp_ret|apply IH].
Qed.

(** A service has been made, and nothing else of [d] was touched but the world. *)
Definition opened d (bitcoin liquid : bool) d' : Prop :=
  ∃ w', d' = with_service d bitcoin liquid w' ∧ contents d' = contents d.
Lemma opened_before d0 d b l d' : before_recovery d0 d → opened d b l d' → before_recovery d0 d'.
Proof.
  intros [[Hm Hr _] Hc] (w' & -> & Hc'). split; [|by rewrite Hc']. split; [done|done|]. by intros r [= <-].
Qed.

Lemma open_databases_spec dbPath policyPath bitcoin liquid t d :
  wp (open_databases EV ini_parse dbPath policyPath bitcoin liquid)
    (λ r '(t', d'), (d' = d ∨ opened d bitcoin liquid d') ∧
       (r = None → opened d bitcoin liquid d' ∧ is_Some (swaps (d_world d')))) any_stop (t, d).
Proof.
  unfold open_databases. do 2 io_step. destruct (reply t _) as [e|]; [apply wp_ret; split; [by left|done]|]. apply wp_bind.
  eapply wp_mono; [apply CreateFromFile_keeps| |done]. intros [pol|e] [t2 d2] ->; [|apply wp_ret; split; [by left|done]].
  do 2 io_step. eapply wp_mono; [apply open_stores_spec| |done].
  intros r [t3 d3] (-> & w' & -> & Hc & Hs).
  match type of Hc with contents ?x = _ => assert (opened d bitcoin liquid x) as Ho end.
  { exists w'. split; [by destruct d|]. exact Hc. }
  split; [by right|]. intros ->. by split; [|apply Hs].
Qed.

Lemma start_watching_spec t d :
  wp start_watching (λ _ '(t', d'), d' = d) any_stop (t, d).
Proof.
  unfold start_watching. io_step. apply wp_bind.
  eapply (wp_mono _ (λ _ '(t', d'), d' = d) _ any_stop);
    [case_bool_decide; [by apply wp_ret|by io_step]| |done].
  intros [e|] [t1 d1] ->; [by apply wp_ret|]. unfold service_Start. do 3 io_step.
  destruct (d_service d) as [r|]; [|done].
  match goal with |- context [if ?b then panic else _] => destruct b; [done|] end. by do 2 apply wp_ret.
Qed.

Lemma start_service_spec cfg t d d0 :
  before_recovery d0 d → lnd_connected cfg d →
  wp (PeerswapdMain.start_service EV ini_parse cfg)
    (λ r '(t', d'), before_recovery d0 d' ∧
       (r = None → lnd_connected cfg d' ∧
          ready_to_recover (Peerswapd.BitcoinEnabled cfg) (Peerswapd.LiquidEnabled cfg) d')) any_stop (t, d).
Proof.
  intros Hb Hcon. unfold PeerswapdMain.start_service, PeerswapdMain.open_all. do 2 apply wp_bind.
  eapply wp_mono; [apply new_listeners_keeps| |done]. intros [e|] [t1 d1] ->; [do 2 apply wp_ret; by split|].
  eapply wp_mono; [apply open_databases_spec| |done]. intros r [t2 d2] [Hd2 Ho].
  assert (before_recovery d0 d2) as Hb2 by (destruct Hd2 as [->|?]; [done|by eapply opened_before]).
  destruct r as [e|]; [apply wp_ret; by split|]. destruct (Ho eq_refl) as [(w2 & -> & _) Hs2].
  io_step. eapply wp_mono; [apply start_watching_spec| |done]. intros [o|] [t3 d3] ->; [apply wp_ret; by split|].
  apply wp_bind. eapply wp_mono; [apply upgrade_spec; [apply Hb2|by eexists]| |done].
  intros r [t4 d4] (w4 & v4 & -> & Hw4 & Hv4). destruct Hb2 as [Hq2 Hc2].
  assert (before_recovery d0 (upgraded_to (with_service d (Peerswapd.BitcoinEnabled cfg) (Peerswapd.LiquidEnabled cfg) w2) w4 v4)) as Hb4.
  { split; [by apply quiet_upgraded|]. rewrite <- Hc2. unfold contents. cbn in *. by rewrite Hw4. }
  destruct r as [e|]; apply wp_ret; (split; [done|]); [done|]. intros _. split; [done|].
  split; [by eexists|]. cbn in *. rewrite Hw4. auto.
Qed.

(** The configuration this start works with: loaded, validated, and printed once. *)
Definition configured t w v peers cfg : Prop :=
  ∃ t1 cfg0 t2 cfg1,
    PeerswapdMain.loadConfig DefaultDatadir defaultLndDir (t, stopped w v peers)
      = Ret (t1, stopped w v peers) (GoodFlags cfg0) ∧
    apart (via (RL := peerswapd_relay) (λ O, Peerswapd.Validate cfg0)) (t1, stopped w v peers)
      = Ret (t2, stopped w v peers) (Ok cfg1) ∧
    cfg = Peerswapd.dump DefaultDatadir cfg1.

Definition at_recovery t w v peers (r : Outcome + Peerswapd.PeerSwapConfig * NodeInfo) d : Prop :=
  before_recovery (stopped w v peers) d ∧
  match r with
  | inl _ => True
  | inr (cfg, _) =>
      configured t w v peers cfg ∧
      Peerswapd.BitcoinEnabled cfg || Peerswapd.LiquidEnabled cfg = true ∧ lnd_connected cfg d ∧
      ready_to_recover (Peerswapd.BitcoinEnabled cfg) (Peerswapd.LiquidEnabled cfg) d
  end.

Lemma before_stopped w v peers : before_recovery (stopped w v peers) (stopped w v peers).
Proof. by repeat split. Qed.

Lemma loadConfig_keeps t d :
  wp (PeerswapdMain.loadConfig DefaultDatadir defaultLndDir) (λ _ '(t', d'), d' = d) any_stop (t, d).
Proof.
  unfold PeerswapdMain.loadConfig. do 2 io_step. destruct (reply t _) as [cfg| |e]; [|by apply wp_ret..].
  do 3 io_step. apply (wp_mono _ (λ _ '(t', d'), d' = d) _ any_stop); [destruct (reply _ (FileExists _)); [by io_step|by apply wp_ret]| |done].
  intros [cfg'|e] [t1 d1] ->; [|by apply wp_ret].
  do 2 io_step. destruct (reply t1 _) as [cfg2| |e]; [|by apply wp_ret..].
  do 2 io_step. destruct (reply _ (Mkdir _)); [by apply wp_ret|].
  do 2 io_step. destruct (reply _ (ParseLwkSection _)); by apply wp_ret.
Qed.

Lemma to_recovery_spec fuel t w v peers :
  wp (PeerswapdMain.to_recovery EV exampleTransaction ini_parse ParseFloat DefaultDatadir defaultLndDir fuel)
    (λ r '(t', d'), at_recovery t w v peers r d') any_stop (t, stopped w v peers).
Proof.
  pose proof (before_stopped w v peers) as Hb0.
  unfold PeerswapdMain.to_recovery. apply wp_bind. eapply wp_mono; [apply wp_run, loadConfig_keeps| |done].
  intros [cfg0| |e] [t1 d1] [Hload ->]; [|by apply wp_ret..].
  apply wp_bind. eapply wp_mono; [apply (wp_run _ (λ _ '(_, d'), d' = stopped w v peers)); by apply wp_apart| |done].
  intros [cfg1|e] [t2 d2] [Hval ->]; [|by apply wp_ret].
  do 2 io_step. destruct (reply t2 _); [by apply wp_ret|]. apply wp_bind.
  eapply wp_mono; [apply connect_lnd_keeps| |done]. intros [info|e] [t3 d3] ->; [|by apply wp_ret].
  set (cfg := Peerswapd.dump DefaultDatadir cfg1). io_step.
  eapply wp_mono; [by apply start_chains_spec| |done]. intros [o|] [t4 d4] [Hd4 Hc4];
    [apply wp_ret; split; [by eapply before_chains|done]|].
  destruct (Hc4 eq_refl) as [Hen Hcon]. io_step.
  eapply wp_mono; [apply start_service_spec; [by eapply before_chains|exact Hcon]| |done].
  intros [o|] [t5 d5] [Hb5 H5]; apply wp_ret; (split; [exact Hb5|]); [done|]. destruct (H5 eq_refl).
  split; [by exists t1, cfg0, t2, cfg1|]. by split_and!.
Qed.

(** ** The recovery inside a start *)

(** [recover] leads from [d1] to [d2], and every unfinished swap of [m] whose channel is
    its own is recovered on the way. *)
Definition recovery_of (m : gmap string StoredSwap) d1 d2 : Prop :=
  ∃ r s2, d_service d1 = Some r ∧ d_service d2 = Some (r <| swap_service := s2 |>) ∧
    ∀ (id : string) st, m !! id = Some st → IsFinished (from_stored st) = false →
      alone (from_stored st) (stored_machines m) →
      let E : Env := EV (on_bitcoin_chain r) (on_liquid_chain r) in
      recovers (from_stored st) (stored_machines m)
        (record (DbBegin false) (d_world d1)) (swap_service r) (d_world d2) s2.

Lemma recover_spec bitcoin liquid t d :
  quiet d → ready_to_recover bitcoin liquid d →
  wp (recover EV)
    (λ r '(t', d'), t' = t ∧ wiring d' = wiring d ∧ d_version d' = d_version d ∧
       (r = None → recovery_of (contents d) d d')) any_stop (t, d).
Proof.
  intros Hq ((s & Hs) & [m Hm] & _). pose proof (quiet_swaps _ Hq _ Hs) as Hact.
  unfold recover, on_swaps. eapply wp_on_running; [done|]. unfold zoom, wp. cbn [fst snd].
  destruct (RecoverSwaps (d_world d, swap_service _)) as [[w2 s2] r|[? ?]|[? ?]] eqn:E; [|done..].
  split; [done|]. split; [unfold wiring; cbn; by rewrite Hs|]. split; [done|]. intros ->.
  exists (mkRunning bitcoin liquid s), s2. split; [done|]. split; [done|].
  unfold contents. rewrite Hm. by apply RecoverSwaps_recovers.
Qed.

(** Everything the configuration asks for is connected, and the database is of this
    version. *)
Definition up cfg d : Prop :=
  lnd_connected cfg d ∧
  (∃ s, d_service d = Some (mkRunning (Peerswapd.BitcoinEnabled cfg) (Peerswapd.LiquidEnabled cfg) s)) ∧
  d_version d = Some (Some version).
(** A poll offers the connected chains. *)
Definition offers d : Prop :=
  ∃ ps, d_sync d = Some ps ∧ ps_supportedAssets ps = normalizeSupportedAssets (d_assets d).
(** The peer sync runs on its open store. *)
Definition syncs d : Prop := d_peer_store d = true ∧ d_syncing d = true ∧ offers d.
(** peerswapd is up and everything is open. *)
Definition serving cfg d : Prop :=
  up cfg d ∧ syncs d ∧ d_messages d = true ∧ d_polls d = true ∧ d_requests d = true.

Lemma lnd_connected_wiring cfg d d' : wiring d' = wiring d → lnd_connected cfg d → lnd_connected cfg d'.
Proof.
  intros [=_ Ha Hb Hl _ _ _ _ _ _ _]. unfold lnd_connected. by rewrite Ha, Hb, Hl.
Qed.
Lemma service_wiring d d' b l :
  wiring d' = wiring d → (∃ s, d_service d = Some (mkRunning b l s)) →
  ∃ s, d_service d' = Some (mkRunning b l s).
Proof.
  intros [= _ _ _ _ Hs _ _ _ _ _ _] [s Hd]. rewrite Hd in Hs.
  destruct (d_service d') as [[b' l' s']|]; [|done]. injection Hs as -> ->. by exists s'.
Qed.

Lemma start_sync_spec cfg pubkey t d :
  up cfg d →
  wp (PeerswapdMain.start_sync cfg pubkey) (λ r '(t', d'), r = None → up cfg d' ∧ syncs d') any_stop (t, d).
Proof.
  intros Hup. unfold PeerswapdMain.start_sync, NewPeerStore. do 4 io_step; [by repeat io_step|].
  do 4 io_step; [|unfold close_peer_store; by repeat io_step]. unfold start_peer_sync. do 3 io_step. intros _. split; [exact Hup|]. split; [done|]. split; [done|].
  eexists. split; [done|]. reflexivity.
Qed.
Lemma listen_spec cfg t d :
  up cfg d → syncs d →
  wp PeerswapdMain.listen
    (λ r '(t', d'), r = None → up cfg d' ∧ syncs d' ∧ d_messages d' = true ∧ d_polls d' = true) any_stop (t, d).
Proof.
  intros Hup Hs. unfold PeerswapdMain.listen. do 2 io_step. destruct (reply t _); [by io_step|].
  do 4 io_step. destruct (reply _ StartListening); [by io_step|]. do 3 io_step. intros _. by split_and!.
Qed.
Lemma serve_spec cfg t d :
  up cfg d → syncs d → d_messages d = true → d_polls d = true →
  wp (PeerswapdMain.serve cfg) (λ r '(t', d'), r = None → serving cfg d') any_stop (t, d).
Proof.
  intros Hup Hs Hm Hp. unfold PeerswapdMain.serve. do 2 io_step. destruct (reply t _); [by io_step|]. do 2 io_step.
  case_bool_decide; io_step; intros _; by split_and!.
Qed.

(** A step of the start that failed is followed by the deferred calls. *)
Lemma stopped_sync (P : option Outcome → Trace answer * Daemon → Prop) R o t d :
  P o (t, d <| d_syncing := false |> <| d_peer_store := false |>) → wp (stop_sync;; mret o) P R (t, d).
Proof. intros HP. unfold stop_sync, close_peer_store. by do 5 io_step. Qed.

Lemma from_recovery_spec cfg info t d :
  up cfg d →
  wp (PeerswapdMain.from_recovery EV cfg info)
    (λ r '(t', d'), r = None → serving cfg d') any_stop (t, d).
Proof.
  intros (Hcon & Hs & Hv). unfold PeerswapdMain.from_recovery.
  apply wp_bind. eapply wp_mono; [apply arrivals_wiring| |done]. intros _ [t1 d1] [Hw1 Hv1].
  assert (up cfg d1) as Hup.
  { split; [by eapply lnd_connected_wiring|]. split; [by eapply service_wiring|]. by rewrite Hv1. }
  apply wp_bind. eapply wp_mono; [by apply start_sync_spec| |done]. intros [e|] [t2 d2] H2; [by apply wp_ret|].
  destruct (H2 eq_refl) as [Hup2 Hs2].
  apply wp_bind. eapply wp_mono; [by apply listen_spec| |done]. intros [e|] [t3 d3] H3; [by apply stopped_sync|].
  destruct (H3 eq_refl) as (Hup3 & Hs3 & Hm3 & Hp3).
  apply wp_bind. eapply wp_mono; [by apply serve_spec| |done]. intros [e|] [t4 d4] H4; [by apply stopped_sync|].
  apply wp_ret. auto.
Qed.

(** In this start, [to_recovery] came to the recovery on a quiet daemon, with the swaps
    of [w] in the store, and the recovery was completed. *)
Definition recovered_first (fuel : nat) t w v peers : Prop :=
  ∃ cfg info t1 d1 d2,
    PeerswapdMain.to_recovery EV exampleTransaction ini_parse ParseFloat DefaultDatadir defaultLndDir fuel
      (t, stopped w v peers) = Ret (t1, d1) (inr (cfg, info)) ∧
    recover EV (t1, d1) = Ret (t1, d2) None ∧ quiet d1 ∧ recovery_of (default ∅ (swaps w)) d1 d2.
End startup.

(** C31. peerswapd restarts safely.  Whatever arrives while it starts, nothing reaches the
    swap service, neither a message of a peer nor a request of the user, before the
    recovery has run on a service without active swaps and a store that holds what it
    held when the program stopped; so every unfinished swap whose channel no other
    unfinished one has is recovered.  And when the program is up, the chains of the
    configuration are connected and offered to the peers, at least one of them is, the
    wallet is the one of elementsd exactly if elementsd has a user, and the version of
    the program is in the database. *)
Theorem peerswapd_recovers_first {FL : FeeLib} {SR : ScriptRules} {CL : ChainLib} {EL : ElementsLib}
    {EJ : ErrorJson} {UL : UrlLib} (EV : bool → bool → Env) {OR : Oracle answer}
    (exampleTransaction : string) (ini_parse : Policy → string → result Policy)
    (ParseFloat : string → result f64) (DefaultDatadir defaultLndDir : string)
    (fuel : nat) (t : Trace answer) (w : World) (v : VersionBucket) (peers : option (gmap string peerRecord)) :
  match PeerswapdMain.start EV exampleTransaction ini_parse ParseFloat DefaultDatadir defaultLndDir fuel
          (t, stopped w v peers) with
  | Ret (t', d) r =>
      (d_messages d || d_requests d = true →
         recovered_first EV exampleTransaction ini_parse ParseFloat DefaultDatadir defaultLndDir fuel t w v peers) ∧
      (r = None → ∃ cfg, configured DefaultDatadir defaultLndDir t w v peers cfg ∧ serving cfg d ∧
         Peerswapd.BitcoinEnabled cfg || Peerswapd.LiquidEnabled cfg = true)
  | Panic _ | NoFuel _ => True
  end.
Proof.
  enough (wp (PeerswapdMain.start EV exampleTransaction ini_parse ParseFloat DefaultDatadir defaultLndDir fuel)
    (λ r '(t', d), (d_messages d || d_requests d = true →
         recovered_first EV exampleTransaction ini_parse ParseFloat DefaultDatadir defaultLndDir fuel t w v peers) ∧
      (r = None → ∃ cfg, configured DefaultDatadir defaultLndDir t w v peers cfg ∧ serving cfg d ∧
         Peerswapd.BitcoinEnabled cfg || Peerswapd.LiquidEnabled cfg = true))
    any_stop (t, stopped w v peers)) as H.
  { unfold wp in H. by destruct (PeerswapdMain.start _ _ _ _ _ _ _ _) as [[? ?] ?|?|?]. }
  unfold PeerswapdMain.start. apply wp_bind.
  pose proof (to_recovery_spec EV exampleTransaction ini_parse ParseFloat DefaultDatadir defaultLndDir fuel t w v peers) as H1.
  unfold wp in H1 |- * at 1.
  destruct (PeerswapdMain.to_recovery _ _ _ _ _ _ _ _) as [[t1 d1] r|?|?] eqn:E1; [|done..].
  destruct H1 as [[Hq Hc] Hr]. destruct r as [o|[cfg info]].
  { apply wp_ret. split; [|done]. by rewrite (quiet_messages _ Hq), (quiet_requests _ Hq). }
  destruct Hr as (Hcfg & Hen & Hcon & Hready). apply wp_bind.
  pose proof (recover_spec EV _ _ t1 d1 Hq Hready) as H2. unfold wp in H2 |- * at 1.
  destruct (recover EV (t1, d1)) as [[t2 d2] r|?|?] eqn:E2; [|done..].
  destruct H2 as (-> & Hw2 & Hv2 & Hrec). destruct r as [e|].
  { apply wp_ret. split; [|done]. injection Hw2 as _ _ _ _ _ _ -> _ -> _ _.
    by rewrite (quiet_messages _ Hq), (quiet_requests _ Hq). }
  eapply wp_mono; [apply (from_recovery_spec EV cfg info)| |done].
  - split; [by eapply lnd_connected_wiring|]. split; [eapply service_wiring; [exact Hw2|apply Hready]|].
    rewrite Hv2. apply Hready.
  - intros r [t3 d3] Hr. split; [intros _|intros ->; exists cfg; by auto].
    exists cfg, info, t1, d1, d2. rewrite E1, E2. split_and!; [done|done|done|].
    specialize (Hrec eq_refl). by rewrite Hc in Hrec.
Qed.

(** ** The plugin *)
Section plugin.
Context {FL : FeeLib} {SR : ScriptRules} {CL : ChainLib} {EL : ElementsLib} {EJ : ErrorJson} {UL : UrlLib} {CFL : ConfigLib}.
Context (EV : bool → bool → Env) {OR : Oracle answer}.
Context (exampleTransaction : string) (ini_parse : Policy → string → result Policy)
  (isDev : bool) (nodeVersion nodeId : string).
Implicit Types (t : Trace answer) (d : Daemon).

(** The chains that are enabled are connected, and they are the assets. *)
Definition plugin_connected (bitcoin liquid : bool) d : Prop :=
  d_assets d = (if liquid then ["lbtc"] else []) ++ (if bitcoin then ["btc"] else []) ∧
  (if bitcoin then is_Some (d_bitcoin d) else d_bitcoin d = None) ∧
  (if liquid then is_Some (d_liquid d) else d_liquid d = None).

Lemma plugin_liquid_spec fuel config t d :
  d_assets d = [] → d_bitcoin d = None → d_liquid d = None →
  wp (PluginMain.setup_liquid exampleTransaction fuel config)
    (λ r '(t', d'), chains_only d d' ∧ ∀ liquid, r = Ok liquid → plugin_connected false liquid d')
    any_stop (t, d).
Proof.
  intros Ha Hb Hl. unfold PluginMain.setup_liquid. apply wp_bind.
  destruct (Liq.Swaps (ClnConfig.Liquid config)) as [swaps|]; [|done]. apply wp_ret.
  assert (∀ kind r d', liquid_connected kind d r d' → chains_only d d' ∧ (r = None → plugin_connected false true d')) as Hcon.
  { intros kind [e|] d'; cbn; [intros ->; split; [apply chains_only_refl|done]|].
    intros (chain & ->). split; [by destruct d|]. intros _. unfold plugin_connected. cbn. by rewrite Ha, Hb. }
  assert (plugin_connected false false d) as Hnone by by split_and!.
  destruct (swaps && PluginMain.elementsWanted config).
  - apply wp_bind. eapply wp_mono; [apply connect_elements_spec| |done].
    intros [e|] [t' d'] [Hd' Hc]%Hcon; apply wp_ret; (split; [done|]); [done|]. intros l [= <-]. auto.
  - destruct (LWK config) as [lc|]; [destruct (lwk.Enabled lc)|].
    + apply wp_bind. eapply wp_mono; [apply connect_lwk_spec| |done].
      intros [e|] [t' d'] [Hd' Hc]%Hcon; apply wp_ret; (split; [done|]); [done|]. intros l [= <-]. auto.
    + apply wp_ret. split; [apply chains_only_refl|]. by intros l [= <-].
    + apply wp_ret. split; [apply chains_only_refl|]. by intros l [= <-].
Qed.

Lemma start_estimator_keeps floor t d :
  wp (PluginMain.start_estimator floor) (λ _ '(t', d'), d' = d) any_stop (t, d).
Proof.
  unfold PluginMain.start_estimator. apply wp_bind, wp_apart. intros [[g|] [e|]] t'; [by apply wp_ret| |by apply wp_ret|done].
  apply wp_focus. eapply wp_mono; [apply wp_any| |by intros ? [? ?]]. by intros a [? ?] _.
Qed.

Lemma plugin_bitcoin_spec liquid config t d :
  plugin_connected false liquid d →
  wp (PluginMain.setup_bitcoin config)
    (λ r '(t', d'), chains_only d d' ∧ ∀ bitcoin, r = Ok bitcoin → plugin_connected bitcoin liquid d')
    any_stop (t, d).
Proof.
  intros Hcon. pose proof Hcon as (Ha & Hb & Hl). unfold PluginMain.setup_bitcoin, PluginMain.getBitcoinChain. apply wp_bind.
  do 2 io_step. destruct (reply t GetInfo) as [gi|e]; apply wp_ret;
    [|apply wp_ret; split; [apply chains_only_refl|done]].
  destruct (net_of _) as [chain|]; [|apply wp_ret; split; [apply chains_only_refl|done]].
  do 2 io_step. destruct (reply _ (BitcoinStartUp _ _)); [apply wp_ret; split; [apply chains_only_refl|done]|].
  apply wp_bind. destruct (Btc.Swaps (ClnConfig.Bitcoin config)) as [[]|]; [| |done]; apply wp_ret.
  2: { apply wp_ret. split; [apply chains_only_refl|]. by intros b [= <-]. }
  do 2 io_step. unfold PluginMain.determineBitcoinFeeFloor. apply wp_bind. do 2 io_step.
  apply (wp_mono _ (λ _ '(t', d'), d' = d <| d_assets := d_assets d ++ ["btc"] |>) _ any_stop);
    [destruct (reply _ GetSubversion); by apply wp_ret| |done].
  intros floor [t1 d1] ->. apply wp_bind.
  apply (wp_mono _ (λ _ '(t', d'), d' = d <| d_assets := d_assets d ++ ["btc"] |>) _ any_stop);
    [case_bool_decide; [by apply wp_ret|apply start_estimator_keeps]| |done].
  intros [e|] [t2 d2] ->; [apply wp_ret; split; [by destruct d|done]|].
  do 2 io_step. apply wp_ret. split; [by destruct d|]. intros b [= <-]. split_and!; [|by eexists|done].
  cbn. by rewrite Ha, app_nil_r.
Qed.

Lemma plugin_chains_spec fuel config t d :
  d_assets d = [] → d_bitcoin d = None → d_liquid d = None →
  wp (PluginMain.start_chains exampleTransaction fuel config)
    (λ r '(t', d'), chains_only d d' ∧ ∀ bitcoin liquid, r = Ok (bitcoin, liquid) →
       bitcoin || liquid = true ∧ plugin_connected bitcoin liquid d') any_stop (t, d).
Proof.
  intros Ha Hb Hl. unfold PluginMain.start_chains. apply wp_bind.
  eapply wp_mono; [by apply plugin_liquid_spec| |done]. intros [liquid|e] [t1 d1] [Hd1 Hc1]; [|apply wp_ret; by split].
  apply wp_bind. eapply wp_mono; [by apply plugin_bitcoin_spec, Hc1| |done].
  intros [bitcoin|e] [t2 d2] [Hd2 Hc2]; [|apply wp_ret; split; [by eapply chains_only_trans|done]].
  apply wp_bind. destruct (Btc.Swaps _) as [b|]; [|done]. apply wp_ret.
  apply wp_bind. destruct (Liq.Swaps _) as [l|]; [|done]. do 2 apply wp_ret.
  split; [by eapply chains_only_trans|]. intros b' l'. destruct (negb b && negb l); [done|].
  destruct (negb bitcoin && negb liquid) eqn:E; [done|]. intros [= <- <-]. split; [by destruct bitcoin, liquid|auto].
Qed.

(** The plugin accepts commands: everything is connected, the messages of peers reach the
    service, and a peer that connects is polled with the connected chains. *)
Definition plugin_ready d : Prop :=
  ∃ bitcoin liquid s, bitcoin || liquid = true ∧ plugin_connected bitcoin liquid d ∧
    d_service d = Some (mkRunning bitcoin liquid s) ∧
    d_messages d = true ∧ d_polls d = true ∧ d_requests d = true ∧ offers d.
(** No peer sync runs, and its store is closed. *)
Definition no_sync d : Prop := d_peer_store d = false ∧ d_syncing d = false.
(** Before the peer sync is there, the plugin takes no commands. *)
Definition unready d : Prop := d_requests d = false ∧ no_sync d.

Lemma plugin_ready_wiring d d' : wiring d' = wiring d → plugin_ready d → plugin_ready d'.
Proof.
  intros Hw (b & l & s & Hen & Hcon & Hs & Hm & Hp & Hr & Hps).
  destruct (service_wiring d d' b l Hw) as [s' Hs']; [by exists s|].
  injection Hw as _ Ha Hb Hl _ Hy Hm' Hp' Hr' _ _. exists b, l, s'.
  destruct Hcon as (? & ? & ?). unfold plugin_connected, offers in *. rewrite Ha, Hb, Hl, Hm', Hp', Hr', Hy. by split_and!.
Qed.
Lemma syncs_wiring d d' : wiring d' = wiring d → syncs d → syncs d'.
Proof. intros [= _ Ha _ _ _ Hy _ _ _ Hst Hru]. unfold syncs, offers. by rewrite Ha, Hy, Hst, Hru. Qed.
Lemma unready_wiring d d' : wiring d' = wiring d → unready d → unready d'.
Proof. intros [= _ _ _ _ _ _ _ _ Hr Hst Hru]. unfold unready, no_sync. by rewrite Hr, Hst, Hru. Qed.

Lemma plugin_service_spec config bitcoin liquid t d :
  unready d → plugin_connected bitcoin liquid d →
  wp (PluginMain.start_service EV ini_parse config bitcoin liquid)
    (λ r '(t', d'), unready d' ∧
       (r = None → plugin_connected bitcoin liquid d' ∧ d_messages d' = true ∧
          ∃ s, d_service d' = Some (mkRunning bitcoin liquid s))) any_stop (t, d).
Proof.
  intros Hr Hcon. unfold PluginMain.start_service. apply wp_bind.
  eapply wp_mono; [apply open_databases_spec| |done]. intros r [t1 d1] [Hd1 Ho].
  assert (unready d1) as Hr1 by (destruct Hd1 as [->|(w & -> & _)]; done).
  destruct r as [e|]; [apply wp_ret; by split|]. destruct (Ho eq_refl) as [(w & -> & _) _].
  io_step. eapply wp_mono; [apply start_watching_spec| |done]. intros [o|] [t2 d2] ->; [apply wp_ret; by split|].
  do 3 io_step. eapply wp_mono; [apply arrivals_wiring| |done]. intros _ [t3 d3] [Hw _].
  destruct (service_wiring _ d3 bitcoin liquid Hw) as [s Hs]; [by eexists|].
  apply wp_ret. split; [by eapply unready_wiring|]. intros _. injection Hw as _ Ha Hb Hl _ _ Hm _ _ _ _.
  split; [|by rewrite Hm; split; [|exists s]]. unfold plugin_connected. by rewrite Ha, Hb, Hl.
Qed.

Lemma plugin_sync_spec config bitcoin liquid s t d :
  bitcoin || liquid = true → plugin_connected bitcoin liquid d → d_messages d = true →
  d_service d = Some (mkRunning bitcoin liquid s) → unready d →
  wp (PluginMain.start_sync nodeId config)
    (λ r '(t', d'), match r with
       | None => d_requests d' = false ∧ plugin_ready (d' <| d_requests := true |>) ∧ syncs d'
       | Some _ => unready d'
       end) any_stop (t, d).
Proof.
  intros Hen Hcon Hm Hs [Hr [Hst Hru]]. unfold PluginMain.start_sync, NewPeerStore, start_peer_sync, close_peer_store.
  do 4 io_step; [by io_step|]. do 4 io_step; [|by do 3 io_step]. do 5 io_step. split; [exact Hr|].
  split; [|split; [done|]; split; [done|]; by eexists].
  exists bitcoin, liquid, s. split_and!; try done. by eexists.
Qed.

Lemma check_node_keeps fuel t d :
  wp (PluginMain.check_node nodeVersion fuel) (λ _ '(t', d'), d' = d) any_stop (t, d).
Proof.
  unfold PluginMain.check_node. do 2 io_step. destruct (reply t GetInfo) as [info|e]; [|by apply wp_ret].
  destruct (PluginMain.checkClnVersion _ _) as [[]|e]; [|by apply wp_ret..].
  generalize (event GetInfo (@Ok NodeInfo info) :: t). induction fuel as [|fuel IH]; intros t'; [done|]. cbn.
  do 2 io_step. destruct (reply t' GetInfo) as [i|e]; [|by apply wp_ret].
  destruct (SyncedToChain i && SyncedToGraph i); [by apply wp_ret|apply IH].
Qed.

Lemma to_ready_spec fuel t w v peers :
  wp (PluginMain.to_ready EV exampleTransaction ini_parse isDev nodeVersion nodeId fuel)
    (λ r '(t', d'), match r with None => plugin_ready d' ∧ syncs d' | Some _ => unready d' end)
    any_stop (t, stopped w v peers).
Proof.
  unfold PluginMain.to_ready. apply wp_bind, wp_apart. intros [config|e] t1; [|by apply wp_ret].
  apply wp_bind. eapply wp_mono; [apply check_node_keeps| |done]. intros [e|] [t2 d2] ->; [by apply wp_ret|].
  apply wp_bind. eapply wp_mono; [by apply plugin_chains_spec| |done].
  intros [[bitcoin liquid]|e] [t3 d3] [Hd3 Hc3]; [|by apply wp_ret; rewrite Hd3].
  assert (unready d3) as Hu3 by by rewrite Hd3.
  destruct (Hc3 _ _ eq_refl) as [Hen Hcon]. apply wp_bind.
  eapply wp_mono; [apply plugin_service_spec; [exact Hu3|exact Hcon]| |done].
  intros [o|] [t4 d4] [Hr4 H4]; [by apply wp_ret|]. destruct (H4 eq_refl) as (Hcon4 & Hm4 & s & Hs4).
  apply wp_bind. eapply wp_mono; [by eapply plugin_sync_spec| |done].
  intros [e|] [t5 d5] H5; [by apply wp_ret|]. destruct H5 as (_ & Hready & Hsync).
  unfold PluginMain.SetReady. do 2 io_step. apply wp_ret. by split.
Qed.

(** The upgrade and the recovery leave the wiring; an upgrade without an error records the
    version. *)
Lemma SafeUpgrade_version {E : Env} w v (s : SwapService) :
  wp (SafeUpgrade (HasActiveSwaps)) (λ r '(w', (v', s')), r = None → v' = Some (Some version)) any_stop (w, (v, s)).
Proof.
  eapply wp_mono; [apply wp_SafeUpgrade| |by intros ? [? []]].
  intros r [w2 [v2 s2]] (_ & _ & Hv) ->. apply Hv.
Qed.
Lemma upgrade_wiring t d :
  wp (upgrade EV) (λ r '(t', d'), wiring d' = wiring d ∧ (r = None → d_version d' = Some (Some version)))
    any_stop (t, d).
Proof.
  unfold upgrade. apply wp_bind. eapply wp_mono; [apply arrivals_wiring| |done]. intros _ [t1 d1] [Hw1 _].
  apply wp_bind. eapply wp_mono; [apply on_running_wiring| |done].
  intros [e|] [t2 d2] [_ Hw2]; [apply wp_ret; by rewrite Hw2, Hw1|]. apply wp_bind.
  apply (wp_mono _ (λ r '(t', d'), wiring d' = wiring d2 ∧ (r = None → d_version d' = Some (Some version))) _ any_stop); [| |done].
  - destruct (d_service d2) as [r|] eqn:Er; [|by unfold wp, on_running; rewrite Er].
    eapply wp_on_running; [done|]. eapply wp_mono; [apply SafeUpgrade_version| |by intros ? [? []]].
    intros a [w [v s]] Hv. split; [|exact Hv]. unfold wiring. cbn. by rewrite Er.
  - intros [e|] [t3 d3] [Hw3 Hv3]; [apply wp_ret; by rewrite Hw3, Hw2, Hw1|]. apply wp_bind.
    eapply wp_mono; [apply arrivals_wiring| |done]. intros _ [t4 d4] [Hw4 Hv4]. apply wp_ret.
    rewrite Hw4, Hv4, Hw3, Hw2, Hw1. auto.
Qed.

(** How a start ends that came as far as opening the commands. *)
Definition left_ready (r : option Outcome) d : Prop :=
  plugin_ready d ∧
  match r with
  | None => syncs d ∧ d_version d = Some (Some version)
  | Some _ => no_sync d
  end.
Lemma left_by_error o t d d' :
  wiring d' = wiring d → plugin_ready d →
  wp (stop_sync;; mret (Some o)) (λ r '(_, x), left_ready r x) any_stop (t, d').
Proof. intros Hw Hp. apply stopped_sync. split; [|done]. exact (plugin_ready_wiring _ _ Hw Hp). Qed.
Lemma after_ready fuel t d :
  wp (PluginMain.to_ready EV exampleTransaction ini_parse isDev nodeVersion nodeId fuel)
    (λ r '(_, d'), match r with None => plugin_ready d' ∧ syncs d' | Some _ => unready d' end) any_stop (t, d) →
  wp (PluginMain.start EV exampleTransaction ini_parse isDev nodeVersion nodeId fuel)
    (λ r '(_, d'), match PluginMain.to_ready EV exampleTransaction ini_parse isDev nodeVersion nodeId fuel (t, d) with
       | Ret (_, d1) None => syncs d1 ∧ left_ready r d'
       | _ => unready d' ∧ r ≠ None
       end) any_stop (t, d).
Proof.
  intros H. unfold PluginMain.start. apply wp_bind. eapply wp_mono; [apply wp_run, H| |done].
  intros [o|] [t1 d1] [E1 H1]; [apply wp_ret; by rewrite E1|]. destruct H1 as [Hp Hs].
  eapply (wp_mono _ (λ r '(_, d'), left_ready r d') _ any_stop); [|intros r [? ?] Hr; by rewrite E1|done].
  apply wp_bind. eapply wp_mono; [apply upgrade_wiring| |done].
  intros [e|] [t2 d2] [Hw2 Hv2]; [by eapply left_by_error|].
  apply wp_bind. eapply wp_mono; [apply on_swaps_wiring| |done]. intros r [t3 d3] (_ & Hw3 & Hv3). rewrite Hw2 in Hw3.
  destruct r; [by eapply left_by_error|]. apply wp_ret. split; [by eapply plugin_ready_wiring|].
  split; [by eapply syncs_wiring|]. rewrite Hv3. auto.
Qed.
End plugin.

(** C32. The plugin takes commands when everything is connected: exactly if the start came as
    far as opening them, and at this point the peer sync runs on its open store.  Then at
    least one chain is enabled, the enabled ones are connected and offered to a peer that
    connects, and messages reach the service; and all of this stays when the upgrade is
    refused or the recovery fails.  What such an error stops is the peer sync, and its
    store is closed; without one it runs on and the version of the program is in the
    database. *)
Theorem plugin_ready_before_recovery {FL : FeeLib} {SR : ScriptRules} {CL : ChainLib} {EL : ElementsLib}
    {EJ : ErrorJson} {UL : UrlLib} {CFL : ConfigLib} (EV : bool → bool → Env) {OR : Oracle answer}
    (exampleTransaction : string) (ini_parse : Policy → string → result Policy)
    (isDev : bool) (nodeVersion nodeId : string)
    (fuel : nat) (t : Trace answer) (w : World) (v : VersionBucket) (peers : option (gmap string peerRecord)) :
  match PluginMain.start EV exampleTransaction ini_parse isDev nodeVersion nodeId fuel (t, stopped w v peers) with
  | Ret (t', d) r =>
      (d_requests d = true ↔ ∃ t1 d1,
         PluginMain.to_ready EV exampleTransaction ini_parse isDev nodeVersion nodeId fuel (t, stopped w v peers)
           = Ret (t1, d1) None ∧ syncs d1) ∧
      (d_requests d = true → plugin_ready d) ∧
      match r with
      | None => d_requests d = true ∧ syncs d ∧ d_version d = Some (Some version)
      | Some _ => no_sync d
      end
  | Panic _ | NoFuel _ => True
  end.
Proof.
  pose proof (after_ready EV exampleTransaction ini_parse isDev nodeVersion nodeId fuel t _
    (to_ready_spec EV exampleTransaction ini_parse isDev nodeVersion nodeId fuel t w v peers)) as H.
  unfold wp in H. destruct (PluginMain.start _ _ _ _ _ _ _ _) as [[t' d] r|?|?]; [|done..].
  destruct (PluginMain.to_ready _ _ _ _ _ _ _ _) as [[t1 d1] [o|]|?|?] eqn:E1.
  2: { destruct H as (Hs & Hp & Hr). pose proof Hp as (? & ? & ? & _ & _ & _ & _ & _ & Hq & _).
       split_and!; [|done|by destruct r]. split; [by exists t1, d1|done]. }
  all: destruct H as [[Hr Hno] Hne]; rewrite Hr; split_and!; [|done|by destruct r]; split; [done|];
    intros (? & ? & [=] & _).
Qed.
