(* ===== verification/StartupWitnesses.v ===== *)
(** * Starts on a concrete node

    A regtest node with one chain.  The store holds a swap-out of a peer whose opening
    transaction is published and whose claim invoice is not paid yet. *)

From Stdlib Require Import SpecFloat.
From S2P Require Import OpeningScript Fees BitcoinOnChain LiquidOnChain LndClient ElementsWallet.
From S2P Require Import LwkConfig ClnConfig LndConfig LwkWallet ElementsClient.
From S2P Require Import Prelude GoLib Messages Premium Policy SwapData Timelock Env Demo Store Oracle.
From S2P Require Import PeerCapability PeerSync Fsm Service ServiceProofs Scenarios Version Recovery Startup PeerswapdStart PluginStart StartupProofs.
From S2P Require Import OnChainWitnesses.
Import StartRpc.
#[local] Existing Instances OpeningScript.demo_rules demo_chain_lib demo_elements demo_fee_lib.

(** ** The node *)
#[local] Instance demo_urls : UrlLib := {|
  ParseRequestURI := λ s, Ok (mkURL (default "" (head (strings.Split s ":"))) s s);
  url_Parse := λ _, None |}.
#[local] Instance demo_errors : ErrorJson := λ _, Err (ErrText "not json").
#[local] Instance demo_config : ConfigLib := {|
  toml_Conf := λ _, Ok (Some (Btc.mkConf "user" "pass" "" "" 0 "" "" None),
                        Some (Liq.mkConf "" "" "" "" 0 "" "" "" (Some false)));
  toml_LWK := λ _, Ok None;
  json_ParsedClnConfig := λ _, Err (ErrText "not json");
  json_ClnConfig := λ _, Ok (mkClnConfig true None) |}.

Definition demo_info : NodeInfo := mkNodeInfo demo_pub "v23.11" true true ["regtest"].
Definition is_arrivals (e : Event answer) : bool :=
  match question e with Arrivals => true | _ => false end.
Definition arrived (t : Trace answer) : nat := length (filter (λ e, is_arrivals e = true) t).

(** Every call succeeds; [flags] is the command line, [switch] the one of the wallet kit,
    and [ops n] arrives at the n-th look. *)
Definition node (flags : Peerswapd.PeerSwapConfig → Peerswapd.PeerSwapConfig) (switch : bool)
    (ops : nat → list ServiceOp) : Oracle answer := λ t q,
  match q return answer q with
  | ParseFlags cfg => GoodFlags (flags cfg)
  | FileExists _ => false
  | ParseFile cfg => Ok cfg
  | ParseLwkSection _ => Ok (lwk.mkLwkSection "" "" "" "" "" None, switch)
  | GetInfo => Ok demo_info
  | GetSubversion => Ok "/Satoshi:29.1.0/"
  | AbsPath p => Ok p
  | Arrivals => ops (arrived t)
  | OfConfig c =>
      match c return ConfigRpc.answer c with
      | ConfigRpc.Getwd | ConfigRpc.UserHomeDir => Ok "/home/me"
      | ConfigRpc.GetInfoNetwork => Ok "regtest"
      | ConfigRpc.ListConfigs => Ok "{}"
      | ConfigRpc.GetOption _ => ""
      | ConfigRpc.ReadFile _ => Content "conf"
      | ConfigRpc.PluginStop => ()
      end
  | OfPeerswapd c =>
      match c return Peerswapd.answer c with
      | Peerswapd.Stat _ => false
      | Peerswapd.ReadFile _ => Ok "user:pass"
      end
  | OfElementsd c =>
      match c return Elementsd.answer c with
      | Elementsd.StartUp _ _ => None
      | Elementsd.GetChainInfo => Ok (Elementsd.mkChainInfo "liquidregtest" (f64_of_Z 1))
      | Elementsd.GetNetworkInfo => Ok (230201, "23.2.1")
      end
  | OfWallet c =>
      match c return ElementsRpc.answer c with
      | ElementsRpc.GetNewAddress _ | ElementsRpc.SendToAddress _ _ | ElementsRpc.LoadWallet _ _
      | ElementsRpc.CreateWallet _ | ElementsRpc.BlindRawTransaction _
      | ElementsRpc.SignRawTransactionWithWallet _ => Ok "text"
      | ElementsRpc.GetBalance => Ok 0
      | ElementsRpc.SetRpcWallet _ => ()
      | ElementsRpc.ListWallets => Ok ["swap"]
      | ElementsRpc.FundRawWithOptions _ _ => Ok ("text", f64_of_Z 0)
      | ElementsRpc.SendRawTx _ => inl "txid"
      | ElementsRpc.EstimateFee _ _ => Ok (mkFeeResponse (f64_of_Z 0) [])
      | ElementsRpc.SetLabel _ _ => None
      | ElementsRpc.Ping => (true, None)
      | ElementsRpc.DecodeRawTx _ => Ok 250
      end
  | OfLwk c =>
      match c return LwkRpc.answer c with
      | LwkRpc.Post _ => Err (ErrText "no wallet kit")
      | LwkRpc.NextBackOff => false
      | LwkRpc.GetRawTransaction _ | LwkRpc.BroadcastTransaction _ => Ok "text"
      | LwkRpc.ElectrumGetFee _ => (f64_of_Z 0, None)
      | LwkRpc.ElectrumPing | LwkRpc.NewElectrumClient _ _ => None
      end
  | OfFees c =>
      match c return FeeRpc.answer c with
      | FeeRpc.Ping => (true, None)
      | FeeRpc.GetMempoolInfo | FeeRpc.EstimateFee _ _ => Ok 0
      | FeeRpc.WalletEstimateFee _ => Ok None
      | FeeRpc.TimeNow => 0
      end
  | Mkdir _ | Connect | NewTxWatcher _ | BitcoinStartUp _ _ | LiquidStartWatching | NewListener _
  | OpenDb _ | OpenFile _ | OpenPeerDb _ | StartListening | Listen _ | RegisterRest _ => None
  end.

(** ** What is on the disk *)
Definition id2 : SwapId := "fedcba9876543210fedcba9876543210".
(** A request of a peer for the channel of the stored swap. *)
Definition second_request : SwapOutRequestMessage.t := {|
  SwapOutRequestMessage.ProtocolVersion := 7; SwapOutRequestMessage.SwapId := Some id2;
  SwapOutRequestMessage.Asset := ""; SwapOutRequestMessage.Network := "regtest";
  SwapOutRequestMessage.Scid := scid1; SwapOutRequestMessage.Amount := 100000;
  SwapOutRequestMessage.Pubkey := demo_pub; SwapOutRequestMessage.PremiumLimit := 1000 |}.
Definition second_op : ServiceOp := OpMessage peer1 (MessageTypeToHexString MESSAGETYPE_SWAPOUTREQUEST) "request".

Definition service_env (bitcoin liquid : bool) : Env := {|
  PrivKeyFromBytes := λ b, b;
  PubKey := λ k, k +:+ "0";
  sha256 := λ b, b;
  json_Marshal := λ _, Ok "json";
  json_SwapInRequest := λ _, Ok None;
  json_SwapInAgreement := λ _, Ok None;
  json_SwapOutRequest := λ _, Ok (Some second_request);
  json_SwapOutAgreement := λ _, Ok None;
  json_OpeningTxBroadcasted := λ _, Ok None;
  json_Cancel := λ b, Ok (Some (CancelMessage.mk (Some b) "cancel"));
  json_CoopClose := λ _, Ok None;
  bitcoinEnabled := bitcoin;
  liquidEnabled := liquid;
  ask := λ _, Demo.demo_params |}.
Definition lenient (p : Policy) (_ : string) : result Policy :=
  Ok (p <| AcceptAllPeers := true |> <| MinSwapAmountMsat := 1000 |>).

(** The store with the swap-out of the peer after two steps of the maker; the record of
    calls starts anew. *)
Definition disk : World :=
  match run_script (H := demo) (firstn 2 maker_script) (demo_world, out_receiver) with
  | Some (w, sm) => w <| hist := [] |>
  | None => demo_world
  end.

(** ** The plugin *)
Definition plugin_flags (cfg : Peerswapd.PeerSwapConfig) : Peerswapd.PeerSwapConfig := cfg.
(** A request of the peer arrives at the n-th look. *)
Definition second_at (n m : nat) : list ServiceOp := if (n =? m)%nat then [second_op] else [].
Definition plugin_start (ops : nat → list ServiceOp) (v : VersionBucket) :=
  PluginMain.start (OR := node plugin_flags false ops) service_env "tx" lenient false "v23.11" demo_pub 10
    ([], stopped disk v None).
Definition plugin_outer (ops : nat → list ServiceOp) (v : VersionBucket) :=
  PluginMain.outer (OR := node plugin_flags false ops) service_env "tx" lenient false "v23.11" demo_pub 10
    ([], stopped disk v None).

Definition is_active (id : SwapId) (d : Daemon) : bool :=
  match d_service d with
  | Some r => bool_decide (is_Some (activeSwaps (swap_service r) !! SwapId_String (Some id)))
  | None => false
  end.
Definition is_unfinished (id : SwapId) (d : Daemon) : bool :=
  match contents d !! id with Some st => negb (IsFinished (from_stored st)) | None => false end.
Definition csv_watched (d : Daemon) : bool := existsb is_csv_watch (hist (d_world d)).

Definition recovered_swap (id : SwapId) d : Prop :=
  is_unfinished id d = true ∧ is_active id d = true ∧ csv_watched d = true.
Definition forgotten_swap (id : SwapId) d : Prop :=
  is_unfinished id d = true ∧ is_active id d = false ∧ csv_watched d = false.

(** Requests that arrive before the recovery make it lose a swap: the plugin starts with
    the same store twice, and the swap-out whose opening transaction is published is
    recovered and its refund watched; but when its peer sends a second request for the
    channel while the plugin starts, the second swap takes the channel, the recovery
    passes over the stored one, and nothing watches its refund. *)
Theorem plugin_recovery_race :
  match plugin_start (λ _, []) (Some (Some version)), plugin_start (second_at 0) (Some (Some version)) with
  | Ret (_, d) None, Ret (_, d') None =>
      recovered_swap id1 d ∧ is_active id2 d = false ∧ forgotten_swap id1 d' ∧ is_active id2 d' = true
  | _, _ => False
  end.
Proof. vm_compute. by repeat split. Qed.

(** A refused upgrade does not stop the plugin: a store of another version with an active
    swap makes the start fail, yet the plugin goes on, and a request for the channel of
    that swap is served while nothing watches its refund. *)
Theorem plugin_serves_after_refused_upgrade :
  match plugin_start (second_at 2) (Some (Some "0")), plugin_outer (second_at 2) (Some (Some "0")) with
  | Ret (_, d) (Some (Returned (Some e))), Ret (_, d') (Returned None) =>
      e = ActiveSwapsError "0" ∧ forgotten_swap id1 d' ∧ is_active id2 d' = true
  | _, _ => False
  end.
Proof. vm_compute. by repeat split. Qed.

(** ** peerswapd *)
Definition peerswapd_start (flags : Peerswapd.PeerSwapConfig → Peerswapd.PeerSwapConfig) (switch : bool) :=
  PeerswapdMain.start (OR := node flags switch (λ _, [])) service_env "tx" lenient (λ _, Ok (f64_of_Z 15))
    "/data" "/lnd" 10 ([], stopped disk (Some (Some version)) None).

(** A start on Bitcoin comes up, and the swap is recovered. *)
Example peerswapd_serves :
  match peerswapd_start (λ cfg, cfg) false with
  | Ret (_, d) None => d_requests d = true ∧ d_assets d = ["btc"] ∧ recovered_swap id1 d
  | _ => False
  end.
Proof. vm_compute. by repeat split. Qed.

(** Elements is switched off and the wallet kit is on: the validation chooses the kit,
    the start elements, because it has a user. *)
Definition elements_off (cfg : Peerswapd.PeerSwapConfig) : Peerswapd.PeerSwapConfig :=
  Peerswapd.mkPeerSwap (Peerswapd.cfg_Host cfg) (Peerswapd.RestHost cfg) (Peerswapd.ConfigFile cfg)
    (Peerswapd.PolicyFile cfg) (Peerswapd.DataDir cfg) (Peerswapd.LogLevel_ cfg) (Peerswapd.LogRotation cfg)
    (Peerswapd.LndConfig_ cfg)
    (Some (Peerswapd.mkOnchain "user" "pass" "" "" "http://elements" 7041 "swap" false))
    (Peerswapd.LWKConfig cfg) false true.
Example switched_off_elements_is_used :
  match peerswapd_start elements_off true with
  | Ret (_, d) None => d_liquid d = Some (ElementsWallet_ Regtest)
  | _ => False
  end.
Proof. vm_compute. reflexivity. Qed.
